(* ===== verification/_CoqProject ===== *)
-Q . S2P
Prelude.v
CtrlpktEncode.v
RuntimePkt.v
CtrlpktFormat.v
CtrlpktWrite.v
CtrlpktRead.v
CtrlpktSeg.v
CtrlpktSplit.v
CtrlpktBody.v
CtrlpktTool.v
Resource.v
ControlPlan.v
ControlPlanProps.v
ShimRow.v
Sha256.v
ElfLoad.v
Apu.v
Supervisor.v
Server.v
Driver.v
Movedata.v
TraceRes.v
TraceSetup.v
TraceDecode.v
ShimBatch.v
ShimBatchProps.v
CacheSync.v
Partitions.v
RowFabric.v
RowFabricProps.v
RowSend.v
RowDevice.v
RowSendProps.v
RowReadWrite.v
BufferBalance.v
KernelLoad.v
KernelLoadProps.v
KernelWarm.v
KernelLaunch.v
AotTable.v
AotWindow.v
AotSegs.v
AotBuild.v
AotSame.v
AotKick.v
AotCommit.v
AotWindowProps.v
AotExact.v
