(* ===== verification/Prelude.v ===== *)
(** * Verification of the aiehlc runtime

    aiehlc compiles tile programs for AMD AI Engine arrays.  Its compiler is
    C++ on MLIR; the C code that runs next to the hardware is in two places,
    and both are modelled here: the host runtime
    [src/src/mlir/runtime/], which programs the array through the XAie driver,
    and the netboot supervisor [src/src/tool/netboot/supervisor/], a resident
    core that receives, checks and starts application images over TCP; with
    the offline tool [src/src/tool/ctrlpkt/] that prepares control packets
    and tables of them for the runtime.

    ** How the parts interact

    - _Control packets._  A core's memory and registers can be written by
      packets sent through the stream switches.  The encoder
      ([aie_ctrlpkt_encode.c]) makes packets of register writes, ELF segments
      and coalesced writes; the offline tool calls it ahead of time and the
      runtime at run time; the runtime has its own packet builders and parsers
      ([aie_runtime.c]).
    - _The control plane._  The planner ([aie_runtime_control_plan.c]) routes
      the packets from the shim to the tiles and the answers back, on the
      resources that the table of [aie_runtime_resource.c] sets aside.
    - _Batched shim writes._  In high-throughput mode the driver's register
      writes to the shim tiles are captured, coalesced by the encoder and sent
      over the planner's shim row.  The tool can make these packets ahead of time,
      from the list of the host program's calls; the run-time then only puts the
      buffers' addresses in.
    - _Data movement and traces_ program the array's DMA and trace units
      through the driver; traces are drained to memory and decoded on the host.
    - _Netboot._  The server collects a request, the digest protects it, the
      loader places the ELF file, the application core is started, and the
      supervisor's watchdog ends it.

    ** Files

    - [Prelude]: C integers, arrays, the state-and-error monad [stE], loops and
      their rules.
    - [CtrlpktEncode] ([aie_ctrlpkt_encode.c], [aie_ctrlpkt_devparams.h]) and
      [RuntimePkt] ([aie_runtime.c], packets): the two encoders and the parsers.
    - [CtrlpktFormat]: what packets mean (accesses, streams, tile memory).
    - [CtrlpktWrite], [CtrlpktRead], [CtrlpktSeg], [CtrlpktSplit],
      [CtrlpktBody]: theorems on writes, reads, coalesced segments, the choice of
      broadcasts, and the load body of an ELF file.
    - [CtrlpktTool] ([aiehlc_ctrlpkt.c]): sizing, encoding and the walk that
      annotates a body.
    - [Resource], [ControlPlan], [ControlPlanProps], [ShimRow]
      ([aie_runtime_resource.c], [aie_runtime_control_plan.c]): reservation
      table, planner, and its theorems.
    - [Sha256] ([sha256.c]), [ElfLoad] ([elfload.c]), [Apu] ([apu.c],
      [park.S]), [Supervisor] ([main.c]), [Server] ([server.c]): netboot, each
      file on the ones before it.
    - [Driver]: the log of driver calls and the rules for code that follows a
      plan of calls.
    - [ShimBatch], [ShimBatchProps] ([aie_runtime.c], batched shim writes):
      capturing, undoing and sending; batching is transparent.
    - [CacheSync] ([aie_runtime.c], buffers): non-cacheable blocks, deferred
      cache maintenance, and what both do to memory.
    - [Partitions] ([aie_runtime.c], device instances): the mesh registry,
      setting up and tearing down.
    - [RowFabric], [RowFabricProps] ([aie_runtime.c], row plans): emitting the
      plans of [ControlPlan], withholding the return routes, the cached plan.
    - [RowSend] ([aie_runtime.c], buffers, pushes, row reads and writes):
      what is sent and received through the shim's DMA.
    - [RowDevice]: the device the sends run on: tiles that execute control packets
      and answer, a network that moves the answers in any order, and the shim's
      channels and descriptors.
    - [RowSendProps], [RowReadWrite]: a push, the answers, and reads and
      writes of a row from end to end; [BufferBalance]: their buffers.
    - [KernelLoad], [KernelLoadProps] ([aie_runtime.c], loading over the control
      plane): the packets of a kernel's ELF file made one access at a time, by
      the encoder, or taken from a blob; their way to the tiles.
    - [KernelWarm]: the body that leaves out the program memory the tiles hold,
      and the run-time's bookkeeping of when they hold it.
    - [KernelLaunch] ([aie_runtime.c], launch and waits): loads through the
      driver, the launch, the waits for events and channels.
    - [AotTable] ([aiehlc_ctrlpkt_sites.c], [aie_runtime_xaie_seq.c]): the
      tables of shim writes that the offline tool makes of a host's calls.
    - [AotWindow] ([aie_runtime.c], windows from a table): the configuration of
      the shim's DMA, taken from a table or captured; batched windows.
    - [AotSegs], [AotBuild], [AotSame], [AotKick], [AotCommit],
      [AotWindowProps]: a run-time with a table beside one without, write by
      write, call by call, and window by window; [AotExact]: the theorems.
    - [Movedata] ([aie_runtime_common.c]): DMA transfers and the pending list.
    - [TraceRes], [TraceSetup], [TraceDecode] ([aie_runtime.c]): the choice of
      trace resources, arming and ending sessions, and the decoder.

    ** Conventions

    A C integer is a [Z]; an operation that can leave its width is wrapped
    ([+u32], [u8], ...).  An array is a list, [rd] and [wr] are accesses; the
    theorems carry the hypotheses that keep accesses in range.  Code that
    threads state and returns error codes is written in [stE]; state reached
    before an error is kept.  Third-party code (the XAie driver, lwIP, the
    platform manager, the timer) is a parameter whose answers may depend on
    every call made so far, and the calls are logged; what is sent to the
    console is left out unless said otherwise.

    ** Theorems

    - Packets: the encoders agree and write exactly the blocks they are given,
      within their buffers; reads come back; coalescing and broadcasting keep the
      effect of the register writes; the load body resets, loads and acknowledges;
      the tool's buffer is large enough and its annotation lists the packets sent.
    - Control plane: a row is planned when it fits, uses only reserved resources,
      drives no port twice, and delivers packets to its tiles; the shim row
      delivers each id to one column.
    - Batched shim writes: batching leaves the registers, and returns what the
      direct driver calls do.
    - Row fabric: withholding the return routes leaves every register as
      planning without it; a cached plan is the plan made again.
    - Buffers and partitions: a launch's arguments are coherent; the registry is a
      map from meshes to instances.
    - Row reads and writes: whatever order and pace the answers come in, a read
      gives every column's words and an acknowledged write changes the words it
      names in every tile and nothing else; both complete when the answers come
      within the poll's budget; every send frees the buffers it allocates,
      whatever the driver answers.
    - Kernel loads: a packed load reaches every tile of the fabric and no other;
      the blobs made offline are accepted; over any history of loads, runs and
      restarts a warm load leaves what the whole body would leave, and a load
      through the driver ends the warm body.  The values the encoder writes are
      32-bit words.
    - Tables made ahead of time: with a table and without one, windows make the
      same calls to the device, whatever the host calls; the first window, which
      sets the return routes up, does when the table is its own.
    - Netboot: the digest is SHA-256; an accepted image is placed byte for byte
      and nothing else is written; admission, launch and watchdog decide as the
      state says; however TCP cuts a request it is reassembled; only verified
      images are started; the invariant of the main loop.
    - DMA and traces: transfers make their calls in order; traces use resources
      nobody else uses; sessions are disjoint; frames are decoded to what they
      mean, every buffer is decoded, and streams get their share of the profile.
    - Some theorems show what the code does where a comment or a caller expects
      otherwise; they are listed with the findings of the manifest.

    ** Fuel

    Loops whose bound is not structural carry fuel, and theorems show it is
    enough: the packetizers and the stream reader, one unit per packet or word;
    [ElfLoad], 65,537 units, more than the 65,536 headers or sections an ELF
    file can have; [Sha256], one per 64-byte block; [TraceDecode], one per byte
    of payload, since every frame has at least one (an equally long buffer of
    less than 2^32 - 8 words is assumed where packets are counted);
    [AotWindow], one level: the calls of a batched window come back to it only
    when the table was given up, and then they are made.

    ** Not modelled

    - The compiler ([src/src/llvm], [src/src/mlir/mlirfront]): C++ on LLVM and
      MLIR objects that the repository does not define.
    - [aie_runtime_debug.c], [aie_runtime_stream_debug.c] and the dumps: they read
      registers through the driver and print.
    - Generated tables, golden data, examples and third-party code.
    - Of [aie_runtime.c]: the tables of control-plane writes and of return routes
      made ahead of time (the searches find nothing); counters, dumps and the
      simulator's own code (they print or are compiled out on the device).  The
      batched window of [AotWindow] is modelled, and no theorem is about it.
    - Of the tool, in [aiehlc_ctrlpkt_sites.c]: reading the sites file, planning
      its rows, the tables of writes and of return routes, and printing. *)

From stdpp Require Import base list list_numbers numbers gmap.

(** ** C integers

    A [w]-bit C integer is a [Z]; every C operation that can leave its
    range is wrapped explicitly with one of the casts below. *)

Declare Scope c_scope.
Delimit Scope c_scope with C.

Local Open Scope Z_scope.

Definition u8 (z : Z) : Z := z mod 2 ^ 8.
Definition u16 (z : Z) : Z := z mod 2 ^ 16.
Definition u32 (z : Z) : Z := z mod 2 ^ 32.
Definition u64 (z : Z) : Z := z mod 2 ^ 64.
Definition s8 (z : Z) : Z := (z + 2 ^ 7) mod 2 ^ 8 - 2 ^ 7.
Definition s32 (z : Z) : Z := (z + 2 ^ 31) mod 2 ^ 32 - 2 ^ 31.
Definition s64 (z : Z) : Z := (z + 2 ^ 63) mod 2 ^ 64 - 2 ^ 63.

(** Range predicates: "[z] is a value of the C type". *)
Definition is_u8 (z : Z) : Prop := 0 <= z < 2 ^ 8.
Definition is_u16 (z : Z) : Prop := 0 <= z < 2 ^ 16.
Definition is_u32 (z : Z) : Prop := 0 <= z < 2 ^ 32.
Definition is_u64 (z : Z) : Prop := 0 <= z < 2 ^ 64.

(** C's truth values. *)
Definition b2z (b : bool) : Z := if b then 1 else 0.
Definition z2b (z : Z) : bool := negb (z =? 0).

(** Wrapped operators, written as in the source with a width suffix. *)
Notation "a +u32 b" := (u32 (a + b)) (at level 50, left associativity) : c_scope.
Notation "a -u32 b" := (u32 (a - b)) (at level 50, left associativity) : c_scope.
Notation "a *u32 b" := (u32 (a * b)) (at level 40, left associativity) : c_scope.
Notation "a <<u32 b" := (u32 (Z.shiftl a b)) (at level 45, left associativity) : c_scope.
Notation "a +u64 b" := (u64 (a + b)) (at level 50, left associativity) : c_scope.
Notation "a -u64 b" := (u64 (a - b)) (at level 50, left associativity) : c_scope.
Infix "&" := Z.land (at level 47, left associativity) : c_scope.
Infix "|'" := Z.lor (at level 48, left associativity) : c_scope.
Infix "^'" := Z.lxor (at level 48, left associativity) : c_scope.
Infix ">>" := Z.shiftr (at level 45, left associativity) : c_scope.

Create HintDb cint.

Lemma u8_range z : is_u8 (u8 z).
Proof. unfold u8, is_u8. apply Z.mod_pos_bound. lia. Qed.
Lemma u16_range z : is_u16 (u16 z).
Proof. unfold u16, is_u16. apply Z.mod_pos_bound. lia. Qed.
Lemma u32_range z : is_u32 (u32 z).
Proof. unfold u32, is_u32. apply Z.mod_pos_bound. lia. Qed.
Lemma u64_range z : is_u64 (u64 z).
Proof. unfold u64, is_u64. apply Z.mod_pos_bound. lia. Qed.

Lemma u8_small z : 0 <= z < 2 ^ 8 -> u8 z = z.
Proof. apply Z.mod_small. Qed.
Lemma u16_small z : 0 <= z < 2 ^ 16 -> u16 z = z.
Proof. apply Z.mod_small. Qed.
Lemma u32_small z : 0 <= z < 2 ^ 32 -> u32 z = z.
Proof. apply Z.mod_small. Qed.
Lemma u64_small z : 0 <= z < 2 ^ 64 -> u64 z = z.
Proof. apply Z.mod_small. Qed.
Lemma s32_small z : - 2 ^ 31 <= z < 2 ^ 31 -> s32 z = z.
Proof. intros. unfold s32. rewrite Z.mod_small; lia. Qed.
Lemma s64_small z : - 2 ^ 63 <= z < 2 ^ 63 -> s64 z = z.
Proof. intros. unfold s64. rewrite Z.mod_small; lia. Qed.

#[export] Hint Resolve u8_range u16_range u32_range u64_range : cint.

(** Removes the wraps whose argument is in range; the side conditions are
    linear. *)
Ltac unwrap :=
  repeat match goal with
  | |- context [u32 ?z] => rewrite (u32_small z) by lia
  | |- context [u8 ?z] => rewrite (u8_small z) by lia
  | |- context [u16 ?z] => rewrite (u16_small z) by lia
  | |- context [u64 ?z] => rewrite (u64_small z) by lia
  | |- context [s32 ?z] => rewrite (s32_small z) by lia
  | |- context [s64 ?z] => rewrite (s64_small z) by lia
  end.

(** ** Bit fields

    The source packs fields with [|] and [<<] and unpacks them with [&] and
    [>>]; the lemmas below turn both directions into arithmetic. *)

Lemma land_low (z n : Z) : 0 <= n -> Z.land z (2 ^ n - 1) = z mod 2 ^ n.
Proof. intros. rewrite <- Z.land_ones by lia. f_equal. rewrite Z.ones_equiv. lia. Qed.

Lemma lor_shift (a b n : Z) :
  0 <= n -> 0 <= a < 2 ^ n -> Z.lor a (Z.shiftl b n) = a + b * 2 ^ n.
Proof.
  intros Hn Ha. rewrite Z.lor_comm, <- Z.shiftl_mul_pow2 by lia.
  rewrite Z.add_comm. symmetry. apply Z.add_nocarry_lor.
  apply Z.bits_inj'. intros i Hi. rewrite Z.land_spec, Z.bits_0.
  destruct (decide (i < n)).
  - rewrite Z.shiftl_spec_low by lia. done.
  - rewrite <- (Z.mod_small a (2 ^ n)) by lia.
    rewrite Z.mod_pow2_bits_high by lia. apply andb_false_r.
Qed.

Lemma shiftl_lor_bound (a b n m : Z) :
  0 <= n -> 0 <= m -> 0 <= a < 2 ^ n -> 0 <= b < 2 ^ m ->
  0 <= Z.lor a (Z.shiftl b n) < 2 ^ (n + m).
Proof.
  intros. rewrite lor_shift by lia. rewrite Z.pow_add_r by lia. nia.
Qed.

Lemma testbit_above (z n i : Z) :
  0 <= z < 2 ^ n -> 0 <= n <= i -> Z.testbit z i = false.
Proof.
  intros. rewrite <- (Z.mod_small z (2 ^ n)) by lia.
  apply Z.mod_pow2_bits_high. lia.
Qed.

Lemma lor_nonneg_lt (a b n : Z) :
  0 <= n -> 0 <= a < 2 ^ n -> 0 <= b < 2 ^ n -> 0 <= Z.lor a b < 2 ^ n.
Proof.
  intros Hn Ha Hb.
  assert (Z.lor a b = Z.lor a b mod 2 ^ n) as ->.
  { apply Z.bits_inj'. intros i Hi. destruct (decide (i < n)).
    - rewrite Z.mod_pow2_bits_low by lia. done.
    - rewrite Z.mod_pow2_bits_high by lia.
      rewrite Z.lor_spec, (testbit_above a n), (testbit_above b n) by lia. done. }
  apply Z.mod_pos_bound. lia.
Qed.

Lemma land_le_r (a b : Z) : 0 <= b -> 0 <= Z.land a b <= b.
Proof.
  intros Hb. split; [apply Z.land_nonneg; lia|].
  assert (b = Z.land a b + Z.ldiff b a) as E.
  { rewrite Z.add_nocarry_lor; apply Z.bits_inj'; intros i Hi;
      rewrite ?Z.lor_spec, ?Z.ldiff_spec, ?Z.land_spec, ?Z.ldiff_spec, ?Z.bits_0 by lia;
      destruct (Z.testbit a i), (Z.testbit b i); done. }
  assert (0 <= Z.ldiff b a) by (apply Z.ldiff_nonneg; lia). lia.
Qed.

(** ** Arrays and bytes

    A C array is a list; [rd] and [wr] are [a[i]] and [a[i] = v].  An index
    outside the array is undefined behaviour in C: [rd] gives [0] and [wr]
    leaves the array alone there, and the theorems carry the hypotheses that
    keep the accesses in range. *)

Definition rd (l : list Z) (i : Z) : Z := default 0 (l !! Z.to_nat i).
Definition wr {A} (l : list A) (i : Z) (v : A) : list A := <[Z.to_nat i := v]> l.
Definition len {A} (l : list A) : Z := Z.of_nat (length l).

(** Little-endian loads from a byte array. *)
Definition ld16 (l : list Z) (o : Z) : Z := rd l o + rd l (o + 1) * 2 ^ 8.
Definition ld32 (l : list Z) (o : Z) : Z :=
  rd l o + rd l (o + 1) * 2 ^ 8 + rd l (o + 2) * 2 ^ 16 + rd l (o + 3) * 2 ^ 24.
Definition ld64 (l : list Z) (o : Z) : Z := ld32 l o + ld32 l (o + 4) * 2 ^ 32.

(** [memcpy] and [memset] on arrays, and the sub-array [l + o] of [n] cells. *)
Definition slice {A} (l : list A) (o n : Z) : list A :=
  take (Z.to_nat n) (drop (Z.to_nat o) l).
Definition blit {A} (dst : list A) (o : Z) (src : list A) : list A :=
  list_inserts (Z.to_nat o) src dst.

Definition bytes_ok (l : list Z) : Prop := Forall is_u8 l.

Lemma rd_range (l : list Z) i : bytes_ok l -> is_u8 (rd l i).
Proof.
  intros H. unfold rd. destruct (l !! Z.to_nat i) eqn:E; simpl.
  - eapply Forall_lookup_1 in H; eauto.
  - unfold is_u8. lia.
Qed.

Lemma rd_app_l l k i : 0 <= i < len l -> rd (l ++ k) i = rd l i.
Proof. intros. unfold rd, len in *. by rewrite lookup_app_l by lia. Qed.

Lemma rd_slice l o n i : 0 <= o -> 0 <= i < n -> rd (slice l o n) i = rd l (o + i).
Proof.
  intros. unfold rd, slice. rewrite lookup_take_lt by lia. rewrite lookup_drop.
  do 2 f_equal. lia.
Qed.

Lemma rd_take l n i : 0 <= i < Z.of_nat n -> rd (take n l) i = rd l i.
Proof. intros. unfold rd. by rewrite lookup_take_lt by lia. Qed.

Lemma rd_wr l i j v : 0 <= i < len l -> 0 <= j -> rd (wr l i v) j = if i =? j then v else rd l j.
Proof.
  intros Hi Hj. unfold rd, wr, len in *. destruct (Z.eqb_spec i j) as [<-|Hne].
  - rewrite list_lookup_insert_eq by lia. done.
  - rewrite list_lookup_insert_ne by lia. done.
Qed.

Lemma ld16_range l o : bytes_ok l -> is_u16 (ld16 l o).
Proof.
  intros H. pose proof (rd_range l o H). pose proof (rd_range l (o + 1) H).
  unfold is_u8, is_u16, ld16 in *. lia.
Qed.

Lemma ld32_range l o : bytes_ok l -> is_u32 (ld32 l o).
Proof.
  intros H. pose proof (rd_range l o H). pose proof (rd_range l (o + 1) H).
  pose proof (rd_range l (o + 2) H). pose proof (rd_range l (o + 3) H).
  unfold is_u8, is_u32, ld32 in *. lia.
Qed.

Lemma ld64_range l o : bytes_ok l -> is_u64 (ld64 l o).
Proof.
  intros H. pose proof (ld32_range l o H). pose proof (ld32_range l (o + 4) H).
  unfold is_u32, is_u64, ld64 in *. lia.
Qed.

#[export] Hint Resolve rd_range ld16_range ld32_range ld64_range : cint.

Lemma len_nonneg {A} (l : list A) : 0 <= len l.
Proof. unfold len. lia. Qed.

Lemma len_app {A} (l k : list A) : len (l ++ k) = len l + len k.
Proof. unfold len. rewrite length_app. lia. Qed.

Lemma len_cons {A} (x : A) l : len (x :: l) = 1 + len l.
Proof. unfold len. simpl. lia. Qed.

Lemma len_nil {A} : len (@nil A) = 0.
Proof. done. Qed.

Create Rewrite HintDb len.
#[export] Hint Rewrite @len_app @len_cons @len_nil : len.

(** Consecutive stores [a[i++] = w] amount to one [blit]. *)
Lemma blit_nil {A} (l : list A) o : blit l o [] = l.
Proof. done. Qed.

Lemma blit_cons {A} (l : list A) o x xs :
  0 <= o -> blit l o (x :: xs) = wr (blit l (o + 1) xs) o x.
Proof.
  intros. unfold blit, wr. simpl. replace (Z.to_nat (o + 1)) with (S (Z.to_nat o)) by lia.
  done.
Qed.

Lemma length_blit {A} (l : list A) o xs : length (blit l o xs) = length l.
Proof. apply length_inserts. Qed.

Lemma blit_snoc {A} (l : list A) o xs x :
  0 <= o -> wr (blit l o xs) (o + len xs) x = blit l o (xs ++ [x]).
Proof.
  revert o. induction xs as [|y xs IH]; intros o Ho; simpl.
  - rewrite blit_cons, !blit_nil by lia. by rewrite len_nil, Z.add_0_r.
  - rewrite !blit_cons by lia. rewrite len_cons, <- IH by lia.
    unfold wr. rewrite list_insert_insert_ne by (unfold len; lia).
    do 2 f_equal. unfold len. lia.
Qed.

Lemma blit_app {A} (l : list A) o xs ys :
  0 <= o -> blit (blit l o xs) (o + len xs) ys = blit l o (xs ++ ys).
Proof.
  intros Ho. revert xs. induction ys as [|y ys IH] using rev_ind; intros xs.
  - by rewrite blit_nil, app_nil_r.
  - rewrite app_assoc. rewrite <- blit_snoc by (unfold len; lia).
    rewrite <- (blit_snoc l o (xs ++ ys)) by lia.
    rewrite IH, len_app. f_equal. lia.
Qed.

Lemma blit_1 {A} (l : list A) o x : blit l o [x] = wr l o x.
Proof. done. Qed.

Lemma blit_2 {A} (l : list A) o x y : 0 <= o -> blit l o [x; y] = wr (wr l o x) (o + 1) y.
Proof. intros. change [x; y] with ([x] ++ [y]). by rewrite <- blit_snoc. Qed.

Lemma blit_outside {A} (l : list A) o xs k :
  0 <= o -> 0 <= k -> k < o \/ o + len xs <= k -> blit l o xs !! Z.to_nat k = l !! Z.to_nat k.
Proof.
  intros Ho Hk [H|H]; unfold blit, len in *.
  - rewrite list_lookup_inserts_lt by lia. done.
  - rewrite list_lookup_inserts_ge by lia. done.
Qed.

Lemma blit_full {A} (l xs : list A) : length l = length xs -> blit l 0 xs = xs.
Proof.
  intros H. apply list_eq. intros i. unfold blit. destruct (decide (i < length xs)%nat).
  - rewrite list_lookup_inserts by lia. f_equal. lia.
  - rewrite !lookup_ge_None_2; [done|lia|rewrite length_inserts; lia].
Qed.

Lemma slice_blit {A} (l : list A) o xs :
  0 <= o -> o + len xs <= len l -> slice (blit l o xs) o (len xs) = xs.
Proof.
  intros Ho Hl. apply list_eq. intros i. unfold slice, blit, len in *.
  rewrite Nat2Z.id. destruct (decide (i < length xs)%nat).
  - rewrite lookup_take_lt by lia. rewrite lookup_drop.
    rewrite list_lookup_inserts by lia. f_equal. lia.
  - rewrite !lookup_ge_None_2; [done|lia|rewrite length_take; lia].
Qed.

(** ** State, early return and loops

    Code that threads state and returns an error code as soon as a call
    fails is written in the monad [stE S E]: the state is kept on both
    outcomes, as a C function that fails half way leaves what it has already
    done. *)

Inductive res (E A : Type) : Type :=
| Ok (a : A)
| Err (e : E).
Arguments Ok {E A} a.
Arguments Err {E A} e.

Definition stE (S E A : Type) : Type := S -> S * res E A.

#[export] Instance stE_ret {S E} : MRet (stE S E) := fun A a s => (s, Ok a).
#[export] Instance stE_bind {S E} : MBind (stE S E) := fun A B k m s =>
  match m s with
  | (s', Ok a) => k a s'
  | (s', Err e) => (s', Err e)
  end.

Definition throw {S E A} (e : E) : stE S E A := fun s => (s, Err e).
Definition getS {S E} : stE S E S := fun s => (s, Ok s).
Definition gets {S E A} (f : S -> A) : stE S E A := fun s => (s, Ok (f s)).
Definition modify {S E} (f : S -> S) : stE S E unit := fun s => (f s, Ok tt).
(** [if (c) stmt;] *)
Definition when {S E} (c : bool) (m : stE S E unit) : stE S E unit :=
  if c then m else mret tt.

(** [for (x in xs) body], leaving the loop at the first error. *)
Fixpoint forM {S E A} (xs : list A) (body : A -> stE S E unit) : stE S E unit :=
  match xs with
  | [] => mret tt
  | x :: xs => body x ;; forM xs body
  end.

Lemma bind_Ok {S E A B} (m : stE S E A) (k : A -> stE S E B) s s' a :
  m s = (s', Ok a) -> (m ≫= k) s = k a s'.
Proof. intros H. unfold mbind, stE_bind. by rewrite H. Qed.

Lemma bind_Err {S E A B} (m : stE S E A) (k : A -> stE S E B) s s' e :
  m s = (s', Err e) -> (m ≫= k) s = (s', Err e).
Proof. intros H. unfold mbind, stE_bind. by rewrite H. Qed.

Lemma bind_inv_Ok {S E A B} (m : stE S E A) (k : A -> stE S E B) s s' b :
  (m ≫= k) s = (s', Ok b) -> exists s1 a, m s = (s1, Ok a) /\ k a s1 = (s', Ok b).
Proof.
  unfold mbind, stE_bind. destruct (m s) as [s1 [a|e]] eqn:E0; intros; [eauto|congruence].
Qed.

(** Invariant rules: a property of the state kept by every step is kept by
    the whole, whatever the outcome. *)
Definition keeps {S E A} (P : S -> Prop) (m : stE S E A) : Prop :=
  forall s, P s -> P (m s).1.

Lemma keeps_ret {S E A} (P : S -> Prop) (a : A) : keeps P (mret (M := stE S E) a).
Proof. intros s H. exact H. Qed.
Lemma keeps_throw {S E A} (P : S -> Prop) (e : E) : keeps P (@throw S E A e).
Proof. intros s H. exact H. Qed.
Lemma keeps_getS {S E} (P : S -> Prop) : keeps P (@getS S E).
Proof. intros s H. exact H. Qed.
Lemma keeps_gets {S E A} (P : S -> Prop) (f : S -> A) : keeps P (@gets S E A f).
Proof. intros s H. exact H. Qed.
Lemma keeps_modify {S E} (P : S -> Prop) f :
  (forall s, P s -> P (f s)) -> keeps P (@modify S E f).
Proof. intros H s Hs. apply H, Hs. Qed.
Lemma keeps_bind {S E A B} (P : S -> Prop) (m : stE S E A) (k : A -> stE S E B) :
  keeps P m -> (forall a, keeps P (k a)) -> keeps P (m ≫= k).
Proof.
  intros Hm Hk s Hs. unfold mbind, stE_bind. specialize (Hm s Hs).
  destruct (m s) as [s' [a|e]]; simpl in *; [by apply Hk|done].
Qed.
Lemma keeps_when {S E} (P : S -> Prop) c (m : stE S E unit) :
  keeps P m -> keeps P (when c m).
Proof. intros H. destruct c; [done|apply keeps_ret]. Qed.
Lemma keeps_if {S E A} (P : S -> Prop) (c : bool) (m n : stE S E A) :
  keeps P m -> keeps P n -> keeps P (if c then m else n).
Proof. by destruct c. Qed.
Lemma keeps_forM {S E A} (P : S -> Prop) (xs : list A) (body : A -> stE S E unit) :
  (forall x, keeps P (body x)) -> keeps P (forM xs body).
Proof.
  intros H. induction xs; simpl; [apply keeps_ret|]. apply keeps_bind; [done|]. by intros [].
Qed.

Create HintDb keeps.
#[export] Hint Resolve keeps_ret keeps_throw keeps_getS keeps_gets keeps_bind
  keeps_when keeps_if keeps_forM : keeps.

Lemma forM_fmap {S E A B} (f : A -> B) (xs : list A) (body : B -> stE S E unit) s :
  forM (f <$> xs) body s = forM xs (fun x => body (f x)) s.
Proof.
  revert s. induction xs as [|x xs IH]; intros s; [done|]. cbn [forM fmap list_fmap].
  unfold mbind, stE_bind. destruct (body (f x) s) as [s1 [[]|e]]; [apply IH|done].
Qed.

Lemma forM_app {S E A} (xs ys : list A) (body : A -> stE S E unit) s :
  forM (xs ++ ys) body s = (forM xs body ≫= fun _ => forM ys body) s.
Proof.
  revert s. induction xs as [|x xs IH]; intros s; simpl; [done|].
  unfold mbind, stE_bind in *. destruct (body x s) as [s1 [[]|e]]; [|done]. apply IH.
Qed.

(** The total rule for a loop that never fails: [I k] holds after [k]
    iterations. *)
Lemma forM_total {S E A} (I : nat -> S -> Prop) (xs : list A) (body : A -> stE S E unit) s :
  I 0%nat s ->
  (forall k x s, xs !! k = Some x -> I k s -> exists s', body x s = (s', Ok tt) /\ I (Datatypes.S k) s') ->
  exists s', forM xs body s = (s', Ok tt) /\ I (length xs) s'.
Proof.
  revert I s. induction xs as [|x xs IH]; intros I s H0 Hstep; simpl; [eauto|].
  destruct (Hstep 0%nat x s eq_refl H0) as (s1 & E1 & H1).
  destruct (IH (fun k => I (Datatypes.S k)) s1 H1) as (s2 & E2 & H2).
  { intros k y s' Hk Hi. eapply Hstep; eauto. }
  exists s2. split; [|done]. erewrite bind_Ok by eauto. done.
Qed.

(** Filtering a list whose elements all answer alike. *)
Lemma filter_const {A} (f : A -> bool) (l : list A) b : Forall (fun x => f x = b) l -> List.filter f l = if b then l else [].
Proof. induction 1 as [|x l Hx _ IH]; [by destruct b|]. cbn [List.filter]. rewrite Hx, IH. by destruct b. Qed.

(** [for (i = lo; i < hi; i++)] over a counter that does not wrap. *)
Definition range (lo hi : Z) : list Z := seqZ lo (hi - lo).

Lemma range_snoc n : 0 <= n -> range 0 (n + 1) = range 0 n ++ [n].
Proof.
  intros. unfold range. rewrite Z.sub_0_r, Z.sub_0_r.
  replace (n + 1) with (Z.of_nat (S (Z.to_nat n))) by lia. rewrite seqZ_S.
  rewrite Z2Nat.id by lia. by rewrite Z.add_0_l.
Qed.

(** Why a C function stopped early: it returned a code, or (only in the
    model) the fuel of a loop was too small. *)
Inductive stop :=
| RetCode (rc : Z)
| NoFuel.

#[export] Instance stop_eq_dec : EqDecision stop.
Proof. solve_decision. Defined.
