(* ===== verification/CtrlpktEncode.v ===== *)
(** * The control-packet encoder

    Model of [src/mlir/runtime/aie_ctrlpkt_encode.c] (and of the device
    parameters in [aie_ctrlpkt_devparams.h]): how register writes and ELF
    segments become control packets, how packets are coalesced, and which
    writes may be broadcast.  Buffers are lists updated in place; [out +
    base] in C is the pair of the buffer and the offset [base]. *)

From stdpp Require Import base list list_numbers numbers.
From S2P Require Import Prelude.

Local Open Scope Z_scope.
Local Open Scope c_scope.

(** ** Constants and data *)

Definition RT_CPE_CHUNK_WORDS : Z := 4.
Definition RT_CPE_SKIP_ADDR : Z := 0xFFFFFFFF.
Definition RT_CPE_NONE : Z := 0xFFFFFFFF.
Definition RT_CPE_WR_UNDECIDED : Z := 0.
Definition RT_CPE_WR_BCAST : Z := 1.
Definition RT_CPE_WR_MMIO : Z := 2.
Definition PT_LOAD : Z := 1.

Record rt_cpe_dev := {
  prog_mem_size : Z;
  prog_mem_host_off : Z;
  data_mem_addr : Z;
  data_mem_size : Z;
  core_ctrl_off : Z;
  core_rst_mask : Z;
  checkerboard : Z;
  dma_ch_ctrl_off : Z;
  dma_ch_stride : Z;
  dma_nch : Z;
  dma_ch_rst_mask : Z }.

(** [aie_ctrlpkt_devparams.h]: [None] is the return code [-1]. *)
Definition rt_cpe_dev_for_gen (gen : Z) : option rt_cpe_dev :=
  if gen =? 5 then
    Some {| prog_mem_size := 16 * 1024;
            prog_mem_host_off := 0x00020000;
            data_mem_addr := 0x40000;
            data_mem_size := 64 * 1024;
            core_ctrl_off := 0x00038000;
            core_rst_mask := 0x00000002;
            checkerboard := 0;
            dma_ch_ctrl_off := 0x0001DE00;
            dma_ch_stride := 0x8;
            dma_nch := 2;
            dma_ch_rst_mask := 0x00000002 |}
  else None.

(** ** Headers *)

(** gcc's [__builtin_parity]: the number of one bits modulo 2. *)
Definition builtin_parity (v : Z) : bool :=
  foldr (fun i b => xorb (Z.testbit v i) b) false (seqZ 0 32).

Definition cpe_parity (v : Z) : Z := b2z (negb (builtin_parity v)).

Definition cpe_stream_hdr (stream_id : Z) : Z :=
  let h := stream_id & 0x1F in
  h |' (cpe_parity h <<u32 31).

Definition cpe_ctrl_word (ctrl : Z) : Z := ctrl |' (cpe_parity ctrl <<u32 31).

(** ** [cpe_pktize] *)

(** [data ? data[k] : 0U] *)
Definition data_word (data : option (list Z)) (k : Z) : Z :=
  match data with Some d => rd d k | None => 0 end.

(** The inner loop [for (j = 0; j < ps; j++) out[idx++] = data[i + j]]. *)
Definition copy_words (out : list Z) (base idx : Z) (data : option (list Z)) (i ps : Z) : list Z :=
  foldl (fun o j => wr o (base + (idx +u32 j)) (data_word data (i +u32 j))) out (seqZ 0 ps).

(** The chunk loop. [None]: the fuel ran out; [Some (out, None)]: the code
    returned [0U] for lack of room; [Some (out, Some idx)]: the loop ended. *)
Fixpoint cpe_pktize_chunks (fuel : nat) (out : list Z) (base cap stream_id tile_addr : Z)
    (data : option (list Z)) (nwrite i idx : Z) : option (list Z * option Z) :=
  match fuel with
  | O => None
  | S fuel =>
    if i <? nwrite then
      let ps := if (nwrite -u32 i) >? 4 then 4 else nwrite -u32 i in
      if (idx +u32 2 +u32 ps) >? cap then Some (out, None)
      else
        let ch := ((ps -u32 1) & 0x3) <<u32 20 in
        let ch := ch |' ((tile_addr +u32 (i *u32 4)) & 0xFFFFF) in
        let ch := ch |' (cpe_parity ch <<u32 31) in
        let out := wr out (base + idx) (cpe_stream_hdr stream_id) in
        let idx := idx +u32 1 in
        let out := wr out (base + idx) ch in
        let idx := idx +u32 1 in
        let out := copy_words out base idx data i ps in
        cpe_pktize_chunks fuel out base cap stream_id tile_addr data nwrite
          (i +u32 4) (idx +u32 ps)
    else Some (out, Some idx)
  end.

Definition cpe_pktize (out : list Z) (base cap stream_id tile_addr : Z) (data : option (list Z))
    (nwords : Z) (lastack : bool) (ret_sid : Z) : option (list Z * Z) :=
  let nwrite := if lastack && (nwords >? 0) then nwords -u32 1 else nwords in
  match cpe_pktize_chunks (S (Z.to_nat nwrite)) out base cap stream_id tile_addr data nwrite 0 0 with
  | None => None
  | Some (out, None) => Some (out, 0)
  | Some (out, Some idx) =>
    if lastack && (nwords >? 0) then
      if (idx +u32 3) >? cap then Some (out, 0)
      else
        let la := tile_addr +u32 ((nwords -u32 1) *u32 4) in
        let ch := la & 0xFFFFF in
        let ch := ch |' ((0x2 & 0x3) <<u32 22) in
        let ch := ch |' ((ret_sid & 0x1F) <<u32 24) in
        let ch := ch |' (cpe_parity ch <<u32 31) in
        let out := wr out (base + idx) (cpe_stream_hdr stream_id) in
        let idx := idx +u32 1 in
        let out := wr out (base + idx) ch in
        let idx := idx +u32 1 in
        let out := wr out (base + idx) (data_word data (nwords -u32 1)) in
        Some (out, idx +u32 1)
    else Some (out, idx)
  end.

Definition rt_cpe_pktize := cpe_pktize.

(** ** ELF segments *)

(** Where a segment at [paddr] lands on tile [(col,row)]: [None] is [-1]. *)
Definition rt_cpe_target (d : rt_cpe_dev) (col row paddr : Z) : option Z :=
  if paddr <? prog_mem_size d then Some (prog_mem_host_off d +u32 paddr)
  else if (paddr <? data_mem_addr d) ||
          (paddr >=? data_mem_addr d +u32 (data_mem_size d *u32 4)) then None
  else
    let dir := u8 (paddr / data_mem_size d) in
    let parity := if z2b (checkerboard d) then u8 (row & 1) else 1 in
    let neighbour (tcol trow : Z) :=
      if negb (tcol =? col) || negb (trow =? row) then Some RT_CPE_SKIP_ADDR
      else Some (paddr & (data_mem_size d -u32 1)) in
    if dir =? 4 then neighbour col (row - 1)
    else if (dir =? 5) && z2b parity then neighbour (col - 1) row
    else if dir =? 6 then neighbour col (row + 1)
    else if (dir =? 7) && negb (z2b parity) then neighbour (col + 1) row
    else if (dir <? 4) || (dir >? 7) then None
    else neighbour col row.

(** The [Elf32_Ehdr] and [Elf32_Phdr] fields the encoder reads. *)
Definition e_phoff (elf : list Z) : Z := ld32 elf 28.
Definition e_phentsize (elf : list Z) : Z := ld16 elf 42.
Definition e_phnum (elf : list Z) : Z := ld16 elf 44.
Definition phdr_at (elf : list Z) (i : Z) : Z := e_phoff elf + i * e_phentsize elf.
Definition p_type (elf : list Z) (i : Z) : Z := ld32 elf (phdr_at elf i).
Definition p_offset (elf : list Z) (i : Z) : Z := ld32 elf (phdr_at elf i + 4).
Definition p_paddr (elf : list Z) (i : Z) : Z := ld32 elf (phdr_at elf i + 12).
Definition p_filesz (elf : list Z) (i : Z) : Z := ld32 elf (phdr_at elf i + 16).

(** One program header of [rt_cpe_count_pkts]. *)
Definition count_pkts_step (d : rt_cpe_dev) (elf : list Z) (col row npkt i : Z) : Z :=
  if negb (p_type elf i =? PT_LOAD) || (p_filesz elf i =? 0) then npkt
  else match rt_cpe_target d col row (p_paddr elf i) with
       | None => npkt
       | Some tile_addr =>
         if tile_addr =? RT_CPE_SKIP_ADDR then npkt
         else npkt +u32 ((p_filesz elf i +u32 (4 * RT_CPE_CHUNK_WORDS) -u32 1)
                         / (4 * RT_CPE_CHUNK_WORDS))
       end.

Definition rt_cpe_count_pkts (d : rt_cpe_dev) (elf : list Z) (col row : Z) : Z :=
  foldl (count_pkts_step d elf col row) 0 (range 0 (e_phnum elf)).

(** The encoder's output cursor: the locals [pw], [acc], [last_addr],
    [last_val] of [rt_cpe_encode_body] and the buffer they describe. *)
Record enc := Enc {
  enc_pkt : list Z;
  enc_pw : Z;
  enc_acc : Z;
  enc_last_addr : Z;
  enc_last_val : Z }.

(** [cpe_seg]'s loop. [wb] is the byte view of [words]. *)
Fixpoint cpe_seg_loop (fuel : nat) (hdr : Z) (elf : list Z) (src filesz tile_addr cap : Z)
    (pkt : list Z) (pw acc off nwords : Z) (wb : list Z)
    : option (list Z * option (Z * Z * Z * Z * list Z)) :=
  match fuel with
  | O => None
  | S fuel =>
    if off <? filesz then
      let chunk := if (filesz -u32 off) <? 16 then filesz -u32 off else 16 in
      let nwords := (chunk +u32 3) / 4 in
      if (pw +u32 2 +u32 nwords) >? cap then Some (pkt, None)
      else
        let wb := if chunk <? 16 then replicate 16 0 else wb in
        let wb := blit wb 0 (slice elf (src + off) chunk) in
        let ctrl := (((nwords -u32 1) & 0x3) <<u32 20) |' ((tile_addr +u32 off) & 0xFFFFF) in
        let pkt := wr pkt pw hdr in
        let pkt := wr pkt (pw +u32 1) (ctrl |' (cpe_parity ctrl <<u32 31)) in
        let pkt := blit pkt (pw +u32 2) (map (fun k => ld32 wb (4 * k)) (seqZ 0 nwords)) in
        cpe_seg_loop fuel hdr elf src filesz tile_addr cap pkt
          (pw +u32 (2 +u32 nwords)) (acc +u32 1) (off +u32 16) nwords wb
    else Some (pkt, Some (pw, acc, off, nwords, wb))
  end.

Definition cpe_seg (stream_id : Z) (elf : list Z) (src filesz tile_addr cap : Z)
    : stE enc stop unit := fun e =>
  let hdr := cpe_stream_hdr stream_id in
  match cpe_seg_loop (S (Z.to_nat filesz)) hdr elf src filesz tile_addr cap
          (enc_pkt e) (enc_pw e) (enc_acc e) 0 0 (replicate 16 0) with
  | None => (e, Err NoFuel)
  | Some (pkt, None) =>
    (Enc pkt (enc_pw e) (enc_acc e) (enc_last_addr e) (enc_last_val e), Err (RetCode (-1)))
  | Some (pkt, Some (pw, acc, off, nwords, wb)) =>
    if z2b nwords then
      let last_off := off -u32 16 in
      (Enc pkt pw acc (tile_addr +u32 last_off +u32 ((nwords -u32 1) *u32 4))
         (ld32 wb (4 * (nwords - 1))), Ok tt)
    else (Enc pkt pw acc (enc_last_addr e) (enc_last_val e), Ok tt)
  end.

Definition rt_cpe_reset_accesses (d : rt_cpe_dev) : Z := 2 +u32 (4 *u32 dma_nch d).

Definition cpe_put1 (cap stream_id addr val : Z) : stE enc stop unit := fun e =>
  match cpe_pktize (enc_pkt e) (enc_pw e) (cap -u32 enc_pw e) stream_id addr (Some [val]) 1
          false 0 with
  | None => (e, Err NoFuel)
  | Some (pkt, g) =>
    if g =? 0 then
      (Enc pkt (enc_pw e) (enc_acc e) (enc_last_addr e) (enc_last_val e), Err (RetCode (-1)))
    else
      (Enc pkt (enc_pw e +u32 g) (enc_acc e +u32 1) (enc_last_addr e) (enc_last_val e), Ok tt)
  end.

Definition cpe_reset (d : rt_cpe_dev) (cap stream_id : Z) : stE enc stop unit :=
  cpe_put1 cap stream_id (core_ctrl_off d) (core_rst_mask d) ;;
  forM (range 0 2) (fun v =>
    forM (range 0 (2 *u32 dma_nch d)) (fun c =>
      cpe_put1 cap stream_id (dma_ch_ctrl_off d +u32 (c *u32 dma_ch_stride d))
        (if z2b v then 0 else dma_ch_rst_mask d))) ;;
  cpe_put1 cap stream_id (core_ctrl_off d) 0.

(** One iteration of the program-header loop of [rt_cpe_encode_body]. *)
Definition cpe_encode_phdr (d : rt_cpe_dev) (elf : list Z) (col row stream_id cap i : Z)
    : stE enc stop unit :=
  if negb (p_type elf i =? PT_LOAD) || (p_filesz elf i =? 0) then mret tt
  else match rt_cpe_target d col row (p_paddr elf i) with
       | None => throw (RetCode (-1))
       | Some tile_addr =>
         if tile_addr =? RT_CPE_SKIP_ADDR then mret tt
         else cpe_seg stream_id elf (p_offset elf i) (p_filesz elf i) tile_addr cap
       end.

(** The whole of [rt_cpe_encode_body]: the result is [(body_words, nacc)]. *)
Definition rt_cpe_encode_body (d : rt_cpe_dev) (elf : list Z) (col row stream_id : Z)
    (want_reset : bool) (cap : Z) : stE enc stop (Z * Z) :=
  when want_reset (cpe_reset d cap stream_id) ;;
  forM (range 0 (e_phnum elf)) (cpe_encode_phdr d elf col row stream_id cap) ;;
  e ← getS;
  if (enc_acc e =? 0) || (enc_pw e =? 0) then throw (RetCode (-1))
  else
    match cpe_pktize (enc_pkt e) (enc_pw e) (cap -u32 enc_pw e) stream_id (enc_last_addr e)
            (Some [enc_last_val e]) 1 true 0 with
    | None => throw NoFuel
    | Some (pkt, g) =>
      modify (fun e => Enc pkt (enc_pw e) (enc_acc e) (enc_last_addr e) (enc_last_val e)) ;;
      if g =? 0 then throw (RetCode (-1))
      else
        modify (fun e => Enc (enc_pkt e) (enc_pw e +u32 g) (enc_acc e) (enc_last_addr e)
                           (enc_last_val e)) ;;
        mret (enc_pw e +u32 g, enc_acc e)
    end.

(** The state [rt_cpe_encode_body] starts from. *)
Definition enc_init (pkt : list Z) : enc := Enc pkt 0 0 0 0.

(** ** Coalescing single writes into a segment *)

Definition cpe_words_to_boundary (byte_addr : Z) : Z :=
  let left := (16 -u32 (byte_addr & 0xF)) / 4 in
  if z2b left then left else 1.

(** [rt_cpe_seg]; [last_ctrl] is declared by the code and never used. *)
Record rt_cpe_seg := Seg { seg_pw : Z; seg_last : Z; seg_last_ctrl : Z }.

Definition rt_cpe_seg_reset (s : rt_cpe_seg) : rt_cpe_seg :=
  Seg 0 RT_CPE_NONE (seg_last_ctrl s).

(** One iteration of [rt_cpe_seg_write]: append the write of [v] at [off], or
    extend the last packet with it. *)
Definition cpe_seg_push (hdr cap off v : Z) : stE (rt_cpe_seg * list Z) stop unit := fun '(s, p) =>
  if (seg_pw s +u32 5) >? cap then ((s, p), Err (RetCode (-1)))
  else
    let fresh :=
      let p := wr p (seg_pw s) hdr in
      let last := seg_pw s +u32 1 in
      let p := wr p last (cpe_ctrl_word (off & 0xFFFFF)) in
      let p := wr p (last +u32 1) v in
      ((Seg (last +u32 2) last (seg_last_ctrl s), p), Ok tt) in
    if negb (seg_last s =? RT_CPE_NONE) then
      let aoff := rd p (seg_last s) & 0xFFFFF in
      let nw := ((rd p (seg_last s) >> 20) & 0x3) +u32 1 in
      if (off =? aoff +u32 (4 *u32 nw)) && (nw <? cpe_words_to_boundary aoff) then
        let p := wr p (seg_last s) (cpe_ctrl_word (aoff |' (nw <<u32 20))) in
        let p := wr p (seg_pw s) v in
        ((Seg (seg_pw s +u32 1) (seg_last s) (seg_last_ctrl s), p), Ok tt)
      else fresh
    else fresh.

(** The loop of [rt_cpe_seg_write] over the remaining data; [off] steps by 4. *)
Fixpoint cpe_seg_write_loop (hdr cap off : Z) (data : list Z) : stE (rt_cpe_seg * list Z) stop unit :=
  match data with
  | [] => mret tt
  | v :: data => cpe_seg_push hdr cap off v ;; cpe_seg_write_loop hdr cap (off +u32 4) data
  end.

Definition rt_cpe_seg_write (cap stream_id off : Z) (data : list Z) (nwords : Z)
    : stE (rt_cpe_seg * list Z) stop unit :=
  cpe_seg_write_loop (cpe_stream_hdr stream_id) cap off (take (Z.to_nat nwords) data).

(** Turns the last word into a write-with-return; the result is the length. *)
Definition rt_cpe_seg_finish (s : rt_cpe_seg) (p : list Z) : rt_cpe_seg * list Z * Z :=
  if seg_last s =? RT_CPE_NONE then (s, p, 0)
  else
    let aoff := rd p (seg_last s) & 0xFFFFF in
    let nw := ((rd p (seg_last s) >> 20) & 0x3) +u32 1 in
    let '(s, p, aoff) :=
      if nw >? 1 then
        let d := rd p (seg_pw s -u32 1) in
        let p := wr p (seg_last s) (cpe_ctrl_word (aoff |' ((nw -u32 2) <<u32 20))) in
        let p := wr p (seg_pw s -u32 1) (rd p (seg_last s -u32 1)) in
        let last := seg_pw s in
        let aoff := (aoff +u32 (4 *u32 (nw -u32 1))) & 0xFFFFF in
        let p := wr p (seg_pw s) 0 in
        let p := wr p (seg_pw s +u32 1) d in
        (Seg (seg_pw s +u32 2) last (seg_last_ctrl s), p, aoff)
      else (s, p, aoff) in
    (s, wr p (seg_last s) (cpe_ctrl_word (aoff |' (0x2 <<u32 22))), seg_pw s).

(** ** Which deferred writes may be broadcast *)

Definition CPE_RET_MAX_ROWS : Z := 16.
Definition CPE_RET_MAX_COLS : Z := 64.

Record rt_cpe_wr := Wr { wr_col : Z; wr_row : Z; wr_off : Z; wr_val : Z; wr_state : Z }.

#[export] Instance rt_cpe_wr_eq_dec : EqDecision rt_cpe_wr.
Proof. solve_decision. Defined.
#[export] Instance rt_cpe_wr_inhabited : Inhabited rt_cpe_wr := populate (Wr 0 0 0 0 0).

Definition set_state (k : Z) (w : rt_cpe_wr) : rt_cpe_wr :=
  Wr (wr_col w) (wr_row w) (wr_off w) (wr_val w) k.

(** The scan of [cpe_ret_uniform] over [wr[i..n)], from the write [a]:
    [None] is the early [return 0]; otherwise the number of hits. *)
Fixpoint cpe_ret_scan (a : rt_cpe_wr) (ws : list rt_cpe_wr) (seen : list Z) (hits : Z) : option Z :=
  match ws with
  | [] => Some hits
  | b :: ws =>
    if negb (wr_off b =? wr_off a) then cpe_ret_scan a ws seen hits
    else if negb (wr_val b =? wr_val a) || (wr_row b >? CPE_RET_MAX_ROWS)
            || (wr_col b >=? CPE_RET_MAX_COLS)
            || Z.odd (rd seen (wr_row b) >> wr_col b)
    then None
    else cpe_ret_scan a ws
           (wr seen (wr_row b) (rd seen (wr_row b) |' u64 (Z.shiftl 1 (wr_col b)))) (hits +u32 1)
  end.

Definition cpe_ret_uniform (ws : list rt_cpe_wr) (i ntiles : Z) : bool :=
  let a := ws !!! Z.to_nat i in
  match cpe_ret_scan a (drop (Z.to_nat i) ws) (replicate 17 0) 0 with
  | None => false
  | Some hits => hits =? ntiles
  end.

(** Marks the class of offset [off] from index [i] on with [kind]. *)
Definition mark_from (i : Z) (off kind : Z) (ws : list rt_cpe_wr) : list rt_cpe_wr :=
  imap (fun j w => if (i <=? Z.of_nat j) && (wr_off w =? off) then set_state kind w else w) ws.

(** One iteration of [rt_cpe_ret_split]'s outer loop. *)
Definition cpe_split_step (ntiles max : Z) (st : list rt_cpe_wr * list Z * list Z * Z) (i : Z)
    : list rt_cpe_wr * list Z * list Z * Z :=
  let '(ws, bc_off, bc_val, nb) := st in
  let w := ws !!! Z.to_nat i in
  if negb (wr_state w =? RT_CPE_WR_UNDECIDED) then st
  else if (nb <? max) && cpe_ret_uniform ws i ntiles then
    (mark_from i (wr_off w) RT_CPE_WR_BCAST ws, wr bc_off nb (wr_off w), wr bc_val nb (wr_val w),
     nb +u32 1)
  else (mark_from i (wr_off w) RT_CPE_WR_MMIO ws, bc_off, bc_val, nb).

Definition rt_cpe_ret_split (ws : list rt_cpe_wr) (ntiles : Z) (bc_off bc_val : list Z) (max : Z)
    : list rt_cpe_wr * list Z * list Z * Z :=
  foldl (cpe_split_step ntiles max) (ws, bc_off, bc_val, 0) (range 0 (len ws)).

(** ** Fingerprints (FNV-1a over 32-bit values) *)

Definition fnv_step (h v : Z) : Z := (h ^' v) *u32 16777619.

Definition rt_cpe_fingerprint (d : rt_cpe_dev) (stream_id : Z) : Z :=
  foldl fnv_step 2166136261
    [prog_mem_size d; prog_mem_host_off d; data_mem_addr d; data_mem_size d; core_ctrl_off d;
     core_rst_mask d; checkerboard d; dma_ch_ctrl_off d; dma_ch_stride d; dma_nch d;
     dma_ch_rst_mask d; stream_id].

(** [aie_ctrlpkt_aot.h] *)
Definition rt_aot_bd_hash (args : list Z) : Z :=
  foldl (fun h a => fnv_step h (u32 a)) 2166136261 args.
