(* ===== verification/RuntimePkt.v ===== *)
(** * Control packets in the runtime

    Model of the packet builders and parsers of
    [src/mlir/runtime/aie_runtime.c]: parity, write and read packets, header
    parsing, and the translation of a captured register transaction into
    packets.  Logging is left out; a [NULL] out-pointer only drops a result,
    so the out-parameters are results here.

    The driver's serialized transaction buffer is third-party data: a
    transaction is the list of operations it holds, and the driver's tile
    classifier is the parameter [tile_type]. *)

From stdpp Require Import base list list_numbers numbers.
From S2P Require Import Prelude.
From S2P Require Import CtrlpktEncode.

Local Open Scope Z_scope.
Local Open Scope c_scope.

(** ** Parity and headers *)

(** [for (i = 16; i > 0; i >>= 1) packet ^= packet >> i;] *)
Definition Runtime_pkt_parity (packet : Z) : Z :=
  let packet := foldl (fun p i => p ^' (p >> i)) packet [16; 8; 4; 2; 1] in
  if z2b (packet & 1) then 0 else 1.

(** The fields of a control-info word and whether its parity holds. *)
Record ctrl_fields := CtrlFields {
  cf_addr : Z; cf_op : Z; cf_beats : Z; cf_ret_sid : Z; cf_parity_ok : bool }.

Definition Runtime_ctrl_parse_ctrl_hdr (ctrl_hdr : Z) : ctrl_fields :=
  {| cf_addr := ctrl_hdr & 0xFFFFF;
     cf_beats := ((ctrl_hdr >> 20) & 0x3) +u32 1;
     cf_op := (ctrl_hdr >> 22) & 0x3;
     cf_ret_sid := (ctrl_hdr >> 24) & 0x1F;
     cf_parity_ok :=
       Runtime_pkt_parity (ctrl_hdr & 0x7FFFFFFF) =? ((ctrl_hdr >> 31) & 0x1) |}.

Record pkt_fields := PktFields {
  pf_id : Z; pf_type : Z; pf_src_row : Z; pf_src_col : Z; pf_parity_ok : bool }.

Definition Runtime_ctrl_parse_pkt_hdr (pkt_hdr : Z) : pkt_fields :=
  {| pf_id := pkt_hdr & 0x1F;
     pf_type := (pkt_hdr >> 12) & 0x7;
     pf_src_row := (pkt_hdr >> 16) & 0x1F;
     pf_src_col := (pkt_hdr >> 21) & 0x7F;
     pf_parity_ok :=
       Runtime_pkt_parity (pkt_hdr & 0x7FFFFFFF) =? ((pkt_hdr >> 31) & 0x1) |}.

(** [pkt_hdr = sid & 0x1F; pkt_hdr |= parity(pkt_hdr) << 31] *)
Definition rt_pkt_hdr (stream_id : Z) : Z :=
  let pkt_hdr := stream_id & 0x1F in
  pkt_hdr |' (Runtime_pkt_parity pkt_hdr <<u32 31).

(** ** Write packets *)

Fixpoint rt_pktize_chunks (fuel : nat) (out : list Z) (base out_cap stream_id tile_addr : Z)
    (data : option (list Z)) (nwrite i idx : Z) : option (list Z * option Z) :=
  match fuel with
  | O => None
  | S fuel =>
    if i <? nwrite then
      let pkt_size := if (nwrite -u32 i) >? 4 then 4 else nwrite -u32 i in
      if (idx +u32 2 +u32 pkt_size) >? out_cap then Some (out, None)
      else
        let ctrl_hdr := 0 |' (((pkt_size -u32 1) & 0x3) <<u32 20) in
        let ctrl_hdr := ctrl_hdr |' ((tile_addr +u32 (i *u32 4)) & 0xFFFFF) in
        let ctrl_hdr := ctrl_hdr |' (Runtime_pkt_parity ctrl_hdr <<u32 31) in
        let out := wr out (base + idx) (rt_pkt_hdr stream_id) in
        let idx := idx +u32 1 in
        let out := wr out (base + idx) ctrl_hdr in
        let idx := idx +u32 1 in
        let out := copy_words out base idx data i pkt_size in
        rt_pktize_chunks fuel out base out_cap stream_id tile_addr data nwrite
          (i +u32 4) (idx +u32 pkt_size)
    else Some (out, Some idx)
  end.

(** The result is the buffer, the number of words (0: overflow) and the
    expected response length. *)
Definition Runtime_ctrl_pktize_write (out : list Z) (base out_cap stream_id tile_addr : Z)
    (data : option (list Z)) (nwords : Z) (lastwriteack : bool) (ret_stream_id : Z)
    : option (list Z * Z * Z) :=
  let nwrite := if lastwriteack && (nwords >? 0) then nwords -u32 1 else nwords in
  match rt_pktize_chunks (S (Z.to_nat nwrite)) out base out_cap stream_id tile_addr data nwrite 0 0 with
  | None => None
  | Some (out, None) => Some (out, 0, 0)
  | Some (out, Some idx) =>
    if lastwriteack && (nwords >? 0) then
      let last_addr := tile_addr +u32 ((nwords -u32 1) *u32 4) in
      if (idx +u32 3) >? out_cap then Some (out, 0, 0)
      else
        let ctrl_hdr := 0 |' (last_addr & 0xFFFFF) in
        let ctrl_hdr := ctrl_hdr |' ((0 & 0x3) <<u32 20) in
        let ctrl_hdr := ctrl_hdr |' ((0x2 & 0x3) <<u32 22) in
        let ctrl_hdr := ctrl_hdr |' ((ret_stream_id & 0x1F) <<u32 24) in
        let ctrl_hdr := ctrl_hdr |' (Runtime_pkt_parity ctrl_hdr <<u32 31) in
        let out := wr out (base + idx) (rt_pkt_hdr stream_id) in
        let idx := idx +u32 1 in
        let out := wr out (base + idx) ctrl_hdr in
        let idx := idx +u32 1 in
        let out := wr out (base + idx) (data_word data (nwords -u32 1)) in
        Some (out, idx +u32 1, 1)
    else Some (out, idx, 0)
  end.

(** ** Read packets *)

Definition rt_ctrl_words_to_boundary (byte_addr : Z) : Z :=
  let left := (16 -u32 (byte_addr & 0xF)) / 4 in
  if z2b left then left else 1.

Definition rt_ctrl_chunk_words (tile_addr nwords w : Z) : Z :=
  let byte_addr := tile_addr +u32 (w *u32 4) in
  let chunk := nwords -u32 w in
  let to_bnd := rt_ctrl_words_to_boundary byte_addr in
  let chunk := if chunk >? 4 then 4 else chunk in
  if chunk >? to_bnd then to_bnd else chunk.

(** The request words, the number of words (0: overflow) and the expected
    response length; [None]: fuel. *)
Fixpoint rt_pktize_read_loop (fuel : nat) (out : list Z) (out_cap req_sid ret_sid tile_addr nwords
    w idx resp : Z) : option (list Z * option (Z * Z)) :=
  match fuel with
  | O => None
  | S fuel =>
    if w <? nwords then
      let chunk := rt_ctrl_chunk_words tile_addr nwords w in
      let byte_addr := tile_addr +u32 (w *u32 4) in
      if (idx +u32 2) >? out_cap then Some (out, None)
      else
        let ctrl_hdr := 0 |' (byte_addr & 0xFFFFF) in
        let ctrl_hdr := ctrl_hdr |' (((chunk -u32 1) & 0x3) <<u32 20) in
        let ctrl_hdr := ctrl_hdr |' ((0x1 & 0x3) <<u32 22) in
        let ctrl_hdr := ctrl_hdr |' ((ret_sid & 0x1F) <<u32 24) in
        let ctrl_hdr := ctrl_hdr |' (Runtime_pkt_parity ctrl_hdr <<u32 31) in
        let out := wr out idx (rt_pkt_hdr req_sid) in
        let out := wr out (idx +u32 1) ctrl_hdr in
        rt_pktize_read_loop fuel out out_cap req_sid ret_sid tile_addr nwords
          (w +u32 chunk) (idx +u32 2) (resp +u32 (1 +u32 chunk))
    else Some (out, Some (idx, resp))
  end.

Definition Runtime_ctrl_pktize_read (out : list Z) (out_cap req_sid ret_sid tile_addr nwords : Z)
    : option (list Z * option (Z * Z)) :=
  rt_pktize_read_loop (S (Z.to_nat nwords)) out out_cap req_sid ret_sid tile_addr nwords 0 0 0.

(** [rt_ctrl_read_extract]: strips the header of each response access. *)
Fixpoint rt_ctrl_read_extract_loop (fuel : nat) (resp : list Z) (tile_addr nwords w ri : Z)
    (out : list Z) : option (list Z) :=
  match fuel with
  | O => None
  | S fuel =>
    if w <? nwords then
      let chunk := rt_ctrl_chunk_words tile_addr nwords w in
      let ri := ri +u32 1 in
      let out := foldl (fun o i => wr o (w +u32 i) (rd resp (ri +u32 i))) out (seqZ 0 chunk) in
      rt_ctrl_read_extract_loop fuel resp tile_addr nwords (w +u32 chunk) (ri +u32 chunk) out
    else Some out
  end.

Definition rt_ctrl_read_extract (resp : list Z) (tile_addr nwords : Z) (out_data : list Z)
    : option (list Z) :=
  rt_ctrl_read_extract_loop (S (Z.to_nat nwords)) resp tile_addr nwords 0 0 out_data.

(** ** Captured transactions *)

(** The operations of a serialized transaction: a register write, a block
    write, or anything else (with its opcode). *)
Inductive txn_op :=
| TxnWrite32 (regoff value : Z)
| TxnBlockWrite32 (regoff : Z) (payload : list Z)
| TxnOther (op : Z).

(** A flat register offset split into [(col, row, tile_addr)]. *)
Definition rt_ctrl_txn_decode_regoff (row_shift col_shift regoff : Z) : Z * Z * Z :=
  let tile_mask := if row_shift >=? 32 then 0xFFFFFFFF else (1 <<u32 row_shift) -u32 1 in
  let row_span := u32 (col_shift - row_shift) in
  let row_mask := if row_span >=? 32 then 0xFFFFFFFF else (1 <<u32 row_span) -u32 1 in
  (u8 (regoff >> col_shift), u8 ((regoff >> row_shift) & row_mask), u32 (regoff & tile_mask)).

Section Txn.
(** The driver: the tile type at a location, its code for core tiles, and
    the address shifts of the device. *)
Context (tile_type : Z -> Z -> Z) (AIETILE : Z) (row_shift col_shift : Z).

(** [true] is the return code [0]. *)
Definition rt_ctrl_txn_check_tile (col row target_row : Z) : bool :=
  if target_row <? 0 then tile_type col row =? AIETILE else row =? target_row.

Definition rt_ctrl_txn_emit_write (out : list Z) (cap idx sid tile_addr : Z)
    (data : list Z) (nwords : Z) (lastwriteack : bool) (ret_sid : Z) : option (list Z * Z) :=
  if idx >? cap then Some (out, 0)
  else match Runtime_ctrl_pktize_write out idx (cap -u32 idx) sid tile_addr (Some data) nwords
               lastwriteack ret_sid with
       | None => None
       | Some (out, n, _) => Some (out, n)
       end.

(** One operation of the loop of [rt_ctrl_txn_translate]; the state is the
    output buffer and [idx]. *)
Definition rt_ctrl_txn_op (sid target_row cap : Z) (ack : bool) (ret_sid : Z) (op : txn_op)
    : stE (list Z * Z) stop unit :=
  let emit regoff payload : stE (list Z * Z) stop unit := fun '(out, idx) =>
    let '(col, row, tile_addr) := rt_ctrl_txn_decode_regoff row_shift col_shift regoff in
    let nwords := len payload in
    if negb (rt_ctrl_txn_check_tile col row target_row) then ((out, idx), Err (RetCode (-1)))
    else match rt_ctrl_txn_emit_write out cap idx sid tile_addr payload nwords ack ret_sid with
         | None => ((out, idx), Err NoFuel)
         | Some (out, n) =>
           if (n =? 0) && (nwords >? 0) then ((out, idx), Err (RetCode (-1)))
           else ((out, idx +u32 n), Ok tt)
         end in
  match op with
  | TxnWrite32 regoff value => emit regoff [value]
  | TxnBlockWrite32 regoff payload => emit regoff payload
  | TxnOther _ => throw (RetCode (-1))
  end.

(** The loop over the operations: only the last one may carry the ack. *)
Fixpoint rt_ctrl_txn_ops (sid target_row cap : Z) (lastwriteack : bool) (ret_sid : Z)
    (ops : list txn_op) : stE (list Z * Z) stop unit :=
  match ops with
  | [] => mret tt
  | op :: ops =>
    rt_ctrl_txn_op sid target_row cap
      (lastwriteack && match ops with [] => true | _ => false end) ret_sid op ;;
    rt_ctrl_txn_ops sid target_row cap lastwriteack ret_sid ops
  end.

(** The result is the buffer and the value stored in [*nwords_out]. *)
Definition rt_ctrl_txn_translate (ops : list txn_op) (sid target_row : Z) (out : list Z)
    (out_cap : Z) (lastwriteack : bool) (ret_sid : Z) : list Z * res stop Z :=
  match rt_ctrl_txn_ops sid target_row out_cap lastwriteack ret_sid ops (out, 0) with
  | ((out, idx), Ok _) => (out, Ok idx)
  | ((out, _), Err e) => (out, Err e)
  end.
End Txn.
