(* ===== verification/CtrlpktFormat.v ===== *)
(** * The control-packet format

    What a packet means, independently of how it is built: the access a
    control-info word describes, the stream of accesses a word buffer holds,
    and what a tile does with it.  The parsers are the runtime's own
    ([Runtime_ctrl_parse_ctrl_hdr], [Runtime_ctrl_parse_pkt_hdr]); the
    lemmas relate them to the header builders of both encoders. *)

From stdpp Require Import base list list_numbers numbers gmap.
From S2P Require Import Prelude.
From S2P Require Import CtrlpktEncode.
From S2P Require Import RuntimePkt.

Local Open Scope Z_scope.
Local Open Scope c_scope.

(** ** Accesses *)

Definition OP_WRITE : Z := 0.
Definition OP_READ : Z := 1.
Definition OP_WRITE_RET : Z := 2.

(** One access of a stream: who it is for, what it does, its data words. *)
Record access := Acc { a_sid : Z; a_addr : Z; a_op : Z; a_ret : Z; a_beats : Z; a_data : list Z }.

#[export] Instance access_eq_dec : EqDecision access.
Proof. solve_decision. Defined.

(** A control-info word by its fields. *)
Definition ctrl_val (addr beats op ret : Z) : Z :=
  addr + (beats - 1) * 2 ^ 20 + op * 2 ^ 22 + ret * 2 ^ 24.

(** The words of an access. *)
Definition access_words (a : access) : list Z :=
  cpe_stream_hdr (a_sid a) :: cpe_ctrl_word (ctrl_val (a_addr a) (a_beats a) (a_op a) (a_ret a))
  :: a_data a.

(** A reader of word streams: both parities are checked, a read carries no
    data.  [None]: a malformed or truncated stream, or no fuel. *)
Fixpoint decode_stream (fuel : nat) (ws : list Z) : option (list access) :=
  match fuel with
  | O => None
  | S fuel =>
    match ws with
    | [] => Some []
    | h :: c :: ws =>
      let pf := Runtime_ctrl_parse_pkt_hdr h in
      let cf := Runtime_ctrl_parse_ctrl_hdr c in
      if negb (pf_parity_ok pf) || negb (cf_parity_ok cf) then None
      else
        let n := if cf_op cf =? OP_READ then 0%nat else Z.to_nat (cf_beats cf) in
        if (length ws <? n)%nat then None
        else
          rest ← decode_stream fuel (drop n ws);
          Some (Acc (pf_id pf) (cf_addr cf) (cf_op cf) (cf_ret_sid cf) (cf_beats cf) (take n ws)
                :: rest)
    | _ => None
    end
  end.

(** An access that a header can carry. *)
Record access_ok (a : access) : Prop := {
  ok_sid : 0 <= a_sid a < 2 ^ 5;
  ok_addr : 0 <= a_addr a < 2 ^ 20;
  ok_op : 0 <= a_op a < 3;
  ok_ret : 0 <= a_ret a < 2 ^ 5;
  ok_beats : 1 <= a_beats a <= 4;
  ok_data : len (a_data a) = if a_op a =? OP_READ then 0 else a_beats a }.

(** ** What a tile does

    A tile's registers and memory, by tile-local byte address of a word. *)

Definition tile_mem := Z -> Z.

Definition store_words (m : tile_mem) (addr : Z) (ws : list Z) : tile_mem := fun a =>
  if (addr <=? a) && (a <? addr + 4 * len ws) && ((a - addr) mod 4 =? 0)
  then rd ws ((a - addr) / 4) else m a.

Definition run_access (m : tile_mem) (a : access) : tile_mem :=
  if a_op a =? OP_READ then m else store_words m (a_addr a) (a_data a).

Definition run_accesses (m : tile_mem) (l : list access) : tile_mem := foldl run_access m l.

(** The words a read access answers with: its stream header, then the data. *)
Definition load_words (m : tile_mem) (addr n : Z) : list Z :=
  map (fun k => m (addr + 4 * k)) (seqZ 0 n).

Definition answer (m : tile_mem) (a : access) : list Z :=
  cpe_stream_hdr (a_ret a) :: load_words m (a_addr a) (a_beats a).

(** ** Parity *)

Lemma land_1 (z : Z) : Z.land z 1 = Z.b2z (Z.testbit z 0).
Proof. change 1 with (Z.ones 1). rewrite Z.land_ones by lia. by rewrite Z.bit0_mod. Qed.

(** The parity of the low [n] bits, and one folding step. *)
Definition low_parity (n : nat) (p : Z) : bool :=
  foldr (fun i b => xorb (Z.testbit p i) b) false (seqZ 0 (Z.of_nat n)).

Lemma low_parity_S n p :
  low_parity (S n) p = xorb (low_parity n p) (Z.testbit p (Z.of_nat n)).
Proof.
  unfold low_parity. rewrite Nat2Z.inj_succ, <- Z.add_1_r, seqZ_app by lia.
  rewrite foldr_app. change (seqZ (0 + Z.of_nat n) 1) with [Z.of_nat n]. cbn [foldr].
  rewrite xorb_false_r.
  generalize (Z.testbit p (Z.of_nat n)) as b. intros b.
  induction (seqZ 0 (Z.of_nat n)) as [|i l IH]; cbn; [by destruct b|].
  by rewrite IH, xorb_assoc.
Qed.

Lemma low_parity_fold n m p :
  low_parity n (p ^' (p >> Z.of_nat m)) =
  xorb (low_parity n p) (low_parity n (p >> Z.of_nat m)).
Proof.
  induction n as [|n IH]; [done|]. rewrite !low_parity_S, IH, Z.lxor_spec.
  generalize (low_parity n p) (low_parity n (p >> Z.of_nat m)) (Z.testbit p (Z.of_nat n))
    (Z.testbit (p >> Z.of_nat m) (Z.of_nat n)). intros [] [] [] []; done.
Qed.

Lemma low_parity_add n m p :
  low_parity (n + m) p = xorb (low_parity n p) (low_parity m (p >> Z.of_nat n)).
Proof.
  induction m as [|m IH]; [by rewrite Nat.add_0_r, xorb_false_r|].
  rewrite Nat.add_succ_r, !low_parity_S, IH, Z.shiftr_spec by lia.
  rewrite xorb_assoc. do 3 f_equal. lia.
Qed.

Lemma low_parity_half n p : low_parity n (p ^' (p >> Z.of_nat n)) = low_parity (n + n) p.
Proof. by rewrite low_parity_fold, low_parity_add. Qed.

(** The two parity routines agree on every word. *)
Lemma parity_routines (p : Z) : Runtime_pkt_parity p = cpe_parity p.
Proof.
  unfold Runtime_pkt_parity, cpe_parity. cbn [foldl]. rewrite land_1.
  change (builtin_parity p) with (low_parity (16 + 16) p).
  rewrite <- (low_parity_half 16). change (16)%nat with (8 + 8)%nat at 1.
  rewrite <- (low_parity_half 8). change (8)%nat with (4 + 4)%nat at 1.
  rewrite <- (low_parity_half 4). change (4)%nat with (2 + 2)%nat at 1.
  rewrite <- (low_parity_half 2). change (2)%nat with (1 + 1)%nat at 1.
  rewrite <- (low_parity_half 1). rewrite low_parity_S.
  change (low_parity 0 ?x) with false. rewrite xorb_false_l.
  change (Z.of_nat 16) with 16. change (Z.of_nat 8) with 8. change (Z.of_nat 4) with 4.
  change (Z.of_nat 2) with 2. change (Z.of_nat 1) with 1. change (Z.of_nat 0) with 0.
  match goal with |- context [Z.testbit ?x 0] => destruct (Z.testbit x 0) end; done.
Qed.

Lemma cpe_parity_range v : 0 <= cpe_parity v <= 1.
Proof. unfold cpe_parity, b2z. case_match; lia. Qed.

(** ** Header words *)

Lemma with_parity_val (c : Z) : 0 <= c < 2 ^ 31 ->
  Z.lor c (u32 (Z.shiftl (cpe_parity c) 31)) = c + cpe_parity c * 2 ^ 31.
Proof.
  intros H. pose proof (cpe_parity_range c).
  rewrite u32_small by (rewrite Z.shiftl_mul_pow2 by lia; lia).
  by apply lor_shift.
Qed.

Lemma parity_ok_with_parity (c : Z) : 0 <= c < 2 ^ 31 ->
  (Runtime_pkt_parity ((c + cpe_parity c * 2 ^ 31) & 0x7FFFFFFF)
   =? (((c + cpe_parity c * 2 ^ 31) >> 31) & 0x1)) = true.
Proof.
  intros H. pose proof (cpe_parity_range c). apply Z.eqb_eq.
  rewrite parity_routines. change 0x7FFFFFFF with (2 ^ 31 - 1). rewrite land_low by lia.
  change (0x1) with (2 ^ 1 - 1). rewrite land_low by lia.
  rewrite Z.shiftr_div_pow2 by lia.
  rewrite Z.mod_add, (Z.mod_small c) by lia. rewrite Z.div_add, (Z.div_small c) by lia.
  rewrite Z.mod_small by lia. lia.
Qed.

Lemma cpe_ctrl_word_val c : 0 <= c < 2 ^ 31 ->
  cpe_ctrl_word c = c + cpe_parity c * 2 ^ 31.
Proof. intros. by apply with_parity_val. Qed.

Lemma ctrl_val_range addr beats op ret :
  0 <= addr < 2 ^ 20 -> 1 <= beats <= 4 -> 0 <= op < 4 -> 0 <= ret < 2 ^ 5 ->
  0 <= ctrl_val addr beats op ret < 2 ^ 29.
Proof. unfold ctrl_val. lia. Qed.

(** Parsing a control-info word gives the fields back, with its parity. *)
Lemma parse_ctrl_word addr beats op ret :
  0 <= addr < 2 ^ 20 -> 1 <= beats <= 4 -> 0 <= op < 4 -> 0 <= ret < 2 ^ 5 ->
  Runtime_ctrl_parse_ctrl_hdr (cpe_ctrl_word (ctrl_val addr beats op ret)) =
  CtrlFields addr op beats ret true.
Proof.
  intros Ha Hb Ho Hr. pose proof (ctrl_val_range addr beats op ret Ha Hb Ho Hr) as Hc.
  rewrite cpe_ctrl_word_val by lia. unfold Runtime_ctrl_parse_ctrl_hdr.
  rewrite parity_ok_with_parity by lia.
  pose proof (cpe_parity_range (ctrl_val addr beats op ret)) as Hp.
  revert Hp. generalize (cpe_parity (ctrl_val addr beats op ret)) as p. intros p Hp.
  rewrite !Z.shiftr_div_pow2 by lia.
  change 0xFFFFF with (2 ^ 20 - 1). change 0x3 with (2 ^ 2 - 1). change 0x1F with (2 ^ 5 - 1).
  rewrite !land_low by lia. unfold ctrl_val, u32.
  f_equal; Z.div_mod_to_equations; lia.
Qed.

Lemma sid_land_range sid : 0 <= (sid & 0x1F) < 2 ^ 5.
Proof. change 0x1F with (2 ^ 5 - 1). rewrite land_low by lia. apply Z.mod_pos_bound. lia. Qed.

(** Parsing a stream header gives the 5-bit stream id back. *)
Lemma parse_stream_hdr sid :
  pf_id (Runtime_ctrl_parse_pkt_hdr (cpe_stream_hdr sid)) = sid & 0x1F /\
  pf_parity_ok (Runtime_ctrl_parse_pkt_hdr (cpe_stream_hdr sid)) = true.
Proof.
  pose proof (sid_land_range sid) as Hs. unfold cpe_stream_hdr. revert Hs.
  generalize (sid & 0x1F) as h. intros h Hs.
  rewrite with_parity_val by lia. simpl. rewrite parity_ok_with_parity by lia.
  split; [|done]. change 0x1F with (2 ^ 5 - 1). rewrite land_low by lia.
  pose proof (cpe_parity_range h). Z.div_mod_to_equations. lia.
Qed.

(** Both runtimes build the same headers. *)
Lemma rt_pkt_hdr_eq sid : rt_pkt_hdr sid = cpe_stream_hdr sid.
Proof. unfold rt_pkt_hdr, cpe_stream_hdr. by rewrite parity_routines. Qed.

(** The expressions that pack a header, as [ctrl_val]. *)
Lemma pack_write_hdr addr n :
  1 <= n <= 4 ->
  Z.lor (u32 (Z.shiftl (Z.land (u32 (n - 1)) 0x3) 20)) (Z.land addr 0xFFFFF) =
  ctrl_val (addr mod 2 ^ 20) n OP_WRITE 0.
Proof.
  intros Hn. rewrite Z.lor_comm. change 0xFFFFF with (2 ^ 20 - 1). rewrite land_low by lia.
  change 0x3 with (2 ^ 2 - 1). rewrite land_low by lia.
  rewrite (u32_small (n - 1)), (Z.mod_small (n - 1)) by lia.
  pose proof (Z.mod_pos_bound addr (2 ^ 20) ltac:(lia)).
  rewrite u32_small by (rewrite Z.shiftl_mul_pow2 by lia; lia).
  rewrite lor_shift by lia. unfold ctrl_val, OP_WRITE. lia.
Qed.

Lemma pack_ack_hdr addr ret :
  Z.lor (Z.lor (Z.land addr 0xFFFFF) (u32 (Z.shiftl (Z.land 0x2 0x3) 22)))
    (u32 (Z.shiftl (Z.land ret 0x1F) 24)) =
  ctrl_val (addr mod 2 ^ 20) 1 OP_WRITE_RET (ret mod 2 ^ 5).
Proof.
  change 0xFFFFF with (2 ^ 20 - 1). change 0x1F with (2 ^ 5 - 1). rewrite !land_low by lia.
  pose proof (Z.mod_pos_bound addr (2 ^ 20) ltac:(lia)).
  pose proof (Z.mod_pos_bound ret (2 ^ 5) ltac:(lia)).
  change (u32 (Z.shiftl (Z.land 2 3) 22)) with (Z.shiftl 2 22).
  rewrite (u32_small (Z.shiftl (ret mod 2 ^ 5) 24)) by (rewrite Z.shiftl_mul_pow2 by lia; lia).
  rewrite (lor_shift _ 2 22) by lia. rewrite lor_shift by lia.
  unfold ctrl_val, OP_WRITE_RET. lia.
Qed.

Lemma pack_read_hdr addr n ret :
  1 <= n <= 4 ->
  Z.lor (Z.lor (Z.lor (Z.land addr 0xFFFFF) (u32 (Z.shiftl (Z.land (u32 (n - 1)) 0x3) 20)))
           (u32 (Z.shiftl (Z.land 0x1 0x3) 22)))
    (u32 (Z.shiftl (Z.land ret 0x1F) 24)) =
  ctrl_val (addr mod 2 ^ 20) n OP_READ (ret mod 2 ^ 5).
Proof.
  intros Hn. change 0xFFFFF with (2 ^ 20 - 1). change 0x1F with (2 ^ 5 - 1).
  rewrite (land_low addr), (land_low ret) by lia.
  change (u32 (Z.shiftl (Z.land 0x1 0x3) 22)) with (Z.shiftl 1 22).
  change 0x3 with (2 ^ 2 - 1). rewrite (land_low (u32 (n - 1))) by lia.
  rewrite (u32_small (n - 1)), (Z.mod_small (n - 1)) by lia.
  pose proof (Z.mod_pos_bound addr (2 ^ 20) ltac:(lia)).
  pose proof (Z.mod_pos_bound ret (2 ^ 5) ltac:(lia)).
  rewrite (u32_small (Z.shiftl (n - 1) 20)) by (rewrite Z.shiftl_mul_pow2 by lia; lia).
  rewrite (u32_small (Z.shiftl (ret mod 2 ^ 5) 24)) by (rewrite Z.shiftl_mul_pow2 by lia; lia).
  rewrite (lor_shift _ (n - 1) 20) by lia.
  rewrite (lor_shift _ 1 22) by lia. rewrite lor_shift by lia.
  unfold ctrl_val, OP_READ. lia.
Qed.

(** ** Streams *)

Arguments Runtime_ctrl_parse_ctrl_hdr : simpl never.
Arguments Runtime_ctrl_parse_pkt_hdr : simpl never.
Arguments cpe_ctrl_word : simpl never.
Arguments cpe_stream_hdr : simpl never.
Arguments ctrl_val : simpl never.

Lemma access_words_decode a ws rest fuel :
  access_ok a -> decode_stream fuel ws = Some rest ->
  decode_stream (S fuel) (access_words a ++ ws) = Some (a :: rest).
Proof.
  intros [Hs Ha Ho Hr Hb Hd] Hrest. destruct a as [sid addr op ret beats data].
  cbn [a_sid a_addr a_op a_ret a_beats a_data] in *.
  cbn [decode_stream access_words app a_sid a_addr a_op a_ret a_beats a_data].
  destruct (parse_stream_hdr sid) as [-> ->]. rewrite parse_ctrl_word by lia.
  cbn [cf_parity_ok cf_op cf_beats cf_addr cf_ret_sid negb orb].
  assert (Z.to_nat (len data) = length data) as Hl by (unfold len; lia).
  assert ((if op =? OP_READ then 0%nat else Z.to_nat beats) = length data) as ->.
  { destruct (op =? OP_READ); lia. }
  rewrite drop_app_length, take_app_length. rewrite length_app.
  replace (_ <? _)%nat with false by (symmetry; apply Nat.ltb_ge; lia).
  rewrite Hrest. cbn [mbind option_bind]. change 0x1F with (2 ^ 5 - 1). rewrite land_low by lia.
  by rewrite Z.mod_small by lia.
Qed.

(** Decoding what the accesses of a list spell gives the list back. *)
Lemma decode_words (l : list access) :
  Forall access_ok l -> decode_stream (S (length l)) (concat (map access_words l)) = Some l.
Proof.
  induction 1 as [|a l Ha Hl IH]; [done|]. cbn [map concat length].
  by apply access_words_decode.
Qed.

Lemma len_access_words a : len (access_words a) = 2 + len (a_data a).
Proof. unfold access_words. rewrite !len_cons. lia. Qed.

(** ** Runs of stores *)

Lemma store_words_nil m addr : forall a, store_words m addr [] a = m a.
Proof.
  intros a. unfold store_words. change (len (@nil Z)) with 0.
  replace ((addr <=? a) && (a <? addr + 4 * 0)) with false; [done|]. lia.
Qed.

(** Storing a block in two pieces is storing it. *)
Lemma store_words_app m addr ws1 ws2 a :
  store_words (store_words m addr ws1) (addr + 4 * len ws1) ws2 a =
  store_words m addr (ws1 ++ ws2) a.
Proof.
  unfold store_words. rewrite len_app. pose proof (len_nonneg ws1). pose proof (len_nonneg ws2).
  destruct (decide ((a - addr) mod 4 = 0)) as [E|E].
  - assert ((a - (addr + 4 * len ws1)) mod 4 = 0) as E2.
    { replace (a - (addr + 4 * len ws1)) with (a - addr + (- len ws1) * 4) by lia.
      by rewrite Z.mod_add by lia. }
    rewrite E, E2. simpl. rewrite !andb_true_r.
    apply Z.div_exact in E; [|lia]. set (q := (a - addr) / 4) in *.
    assert ((a - (addr + 4 * len ws1)) / 4 = q - len ws1) as ->.
    { replace (a - (addr + 4 * len ws1)) with ((q - len ws1) * 4) by lia. apply Z.div_mul. lia. }
    unfold rd, len in *. repeat case_match; try lia; f_equal.
    + rewrite lookup_app_r by lia. f_equal. lia.
    + rewrite lookup_app_l by lia. done.
  - assert ((a - (addr + 4 * len ws1)) mod 4 <> 0) as E2.
    { replace (a - (addr + 4 * len ws1)) with (a - addr + (- len ws1) * 4) by lia.
      by rewrite Z.mod_add by lia. }
    apply Z.eqb_neq in E, E2. rewrite E, E2. by rewrite !andb_false_r.
Qed.

Lemma store_words_ext m m' addr ws a :
  (forall b, m b = m' b) -> store_words m addr ws a = store_words m' addr ws a.
Proof. intros H. unfold store_words. by rewrite H. Qed.

Lemma run_access_ext m m' a b :
  (forall x, m x = m' x) -> run_access m a b = run_access m' a b.
Proof. intros H. unfold run_access. case_match; [done|by apply store_words_ext]. Qed.

Lemma run_accesses_ext l : forall m m', (forall x, m x = m' x) ->
  forall b, run_accesses m l b = run_accesses m' l b.
Proof.
  induction l as [|a l IH]; intros m m' H b; cbn; [done|].
  apply IH. intros x. by apply run_access_ext.
Qed.

Lemma run_accesses_app m l1 l2 :
  run_accesses m (l1 ++ l2) = run_accesses (run_accesses m l1) l2.
Proof. apply foldl_app. Qed.

(** What is stored is loaded. *)
Lemma load_store m a ws : load_words (store_words m a ws) a (len ws) = ws.
Proof.
  apply list_eq. intros i. unfold load_words. destruct (decide (i < length ws)%nat) as [Hi|Hi].
  - match goal with |- context [map ?g ?l] => change (map g l) with (g <$> l) end.
    rewrite list_lookup_fmap, lookup_seqZ_lt by (unfold len; lia).
    cbn [fmap option_fmap option_map]. rewrite Z.add_0_l.
    destruct (lookup_lt_is_Some_2 ws i Hi) as [w Ew]. rewrite Ew. f_equal. unfold store_words, rd, len.
    replace (a + 4 * Z.of_nat i - a) with (Z.of_nat i * 4) by lia. rewrite Z.mod_mul, Z.div_mul by lia.
    replace ((a <=? a + 4 * Z.of_nat i) && (a + 4 * Z.of_nat i <? a + 4 * Z.of_nat (length ws)) && (0 =? 0)) with true by lia.
    by rewrite Nat2Z.id, Ew.
  - rewrite !lookup_ge_None_2; [done|lia|rewrite length_map, length_seqZ; unfold len; lia].
Qed.
