(* ===== verification/CtrlpktWrite.v ===== *)
(** * Write packets: what [cpe_pktize] produces

    The offline encoder's [cpe_pktize] and the runtime's
    [Runtime_ctrl_pktize_write] against the packet format: the words they
    store, when they refuse, and what the packets do to a tile. *)

From stdpp Require Import base list list_numbers numbers gmap.
From S2P Require Import Prelude.
From S2P Require Import CtrlpktEncode.
From S2P Require Import RuntimePkt.
From S2P Require Import CtrlpktFormat.

Local Open Scope Z_scope.
Local Open Scope c_scope.

(** ** The accesses a block of words is split into *)

Fixpoint chunks4 (ws : list Z) : list (list Z) :=
  match ws with
  | [] => []
  | a :: b :: c :: d :: ws => [a; b; c; d] :: chunks4 ws
  | ws => [ws]
  end.

Fixpoint write_accesses (sid addr : Z) (cs : list (list Z)) : list access :=
  match cs with
  | [] => []
  | c :: cs => Acc (sid & 0x1F) (addr mod 2 ^ 20) OP_WRITE 0 (len c) c
               :: write_accesses sid (addr + 16) cs
  end.

(** The write-with-return that ends an acknowledged block. *)
Definition ack_access (sid addr ret w : Z) : access :=
  Acc (sid & 0x1F) (addr mod 2 ^ 20) OP_WRITE_RET (ret & 0x1F) 1 [w].

Definition pktize_accesses (sid addr : Z) (ws : list Z) (lastack : bool) (ret : Z) : list access :=
  if lastack then
    match last ws with
    | None => []
    | Some w =>
      write_accesses sid addr (chunks4 (take (length ws - 1) ws)) ++
      [ack_access sid (addr + 4 * (len ws - 1)) ret w]
    end
  else write_accesses sid addr (chunks4 ws).

Definition pktize_words (sid addr : Z) (ws : list Z) (lastack : bool) (ret : Z) : list Z :=
  concat (map access_words (pktize_accesses sid addr ws lastack ret)).

(** ** Chunks *)

Lemma chunks4_step ws : ws <> [] -> chunks4 ws = take 4 ws :: chunks4 (drop 4 ws).
Proof. by destruct ws as [|? [|? [|? [|? ?]]]]. Qed.

Lemma concat_chunks4 ws : concat (chunks4 ws) = ws.
Proof.
  induction ws as [ws IH] using (induction_ltof1 _ (@length Z)). unfold ltof in IH.
  destruct ws as [|w ws']; [done|]. set (ws := w :: ws') in *.
  assert (0 < length ws)%nat by (subst ws; cbn; lia).
  rewrite chunks4_step by done. cbn [concat]. rewrite IH, take_drop; [done|].
  rewrite length_drop. lia.
Qed.

Lemma chunks4_bounds ws : Forall (fun c => 1 <= len c <= 4) (chunks4 ws).
Proof.
  induction ws as [ws IH] using (induction_ltof1 _ (@length Z)). unfold ltof in IH.
  destruct ws as [|w ws']; [constructor|]. set (ws := w :: ws') in *.
  assert (0 < length ws)%nat by (subst ws; cbn; lia).
  rewrite chunks4_step by done. constructor.
  - unfold len. rewrite length_take. lia.
  - apply IH. rewrite length_drop. lia.
Qed.

(** The number of packets of a block. *)
Lemma length_chunks4 ws : Z.of_nat (length (chunks4 ws)) = (len ws + 3) / 4.
Proof.
  induction ws as [ws IH] using (induction_ltof1 _ (@length Z)). unfold ltof in IH.
  destruct ws as [|w ws']; [done|]. set (ws := w :: ws') in *.
  assert (0 < length ws)%nat by (subst ws; cbn; lia).
  rewrite chunks4_step by done. cbn [length]. rewrite Nat2Z.inj_succ, IH;
    [|rewrite length_drop; lia].
  unfold len. rewrite length_drop.
  Z.div_mod_to_equations. lia.
Qed.

Lemma write_accesses_ok sid addr cs :
  Forall (fun c => 1 <= len c <= 4) cs -> Forall access_ok (write_accesses sid addr cs).
Proof.
  intros H. revert addr. induction H as [|c cs Hc Hcs IH]; intros addr; constructor; [|apply IH].
  constructor; cbn -[Z.land Z.modulo]; try lia.
  - apply sid_land_range.
  - apply Z.mod_pos_bound. lia.
  - unfold OP_WRITE. lia.
Qed.

Lemma ack_access_ok sid addr ret w : access_ok (ack_access sid addr ret w).
Proof.
  constructor; cbn -[Z.land Z.modulo]; try (unfold OP_WRITE_RET; lia).
  - apply sid_land_range.
  - apply Z.mod_pos_bound. lia.
  - apply sid_land_range.
  - done.
Qed.

Lemma pktize_accesses_ok sid addr ws lastack ret :
  Forall access_ok (pktize_accesses sid addr ws lastack ret).
Proof.
  unfold pktize_accesses. destruct lastack; [|apply write_accesses_ok, chunks4_bounds].
  destruct (last ws); [|constructor]. apply Forall_app. split.
  - apply write_accesses_ok, chunks4_bounds.
  - constructor; [apply ack_access_ok|constructor].
Qed.

Lemma len_write_words sid addr cs :
  len (concat (map access_words (write_accesses sid addr cs))) =
  2 * Z.of_nat (length cs) + len (concat cs).
Proof.
  revert addr. induction cs as [|c cs IH]; intros addr; [done|].
  cbn [write_accesses map concat length]. rewrite !len_app, len_access_words, IH. cbn [a_data].
  lia.
Qed.

(** ** The copy loop *)

Lemma foldl_wr_blit (f : Z -> Z) n out b :
  0 <= b ->
  foldl (fun o j => wr o (b + j) (f j)) out (seqZ 0 (Z.of_nat n)) =
  blit out b (map f (seqZ 0 (Z.of_nat n))).
Proof.
  intros Hb. induction n as [|n IH]; [done|].
  rewrite Nat2Z.inj_succ, <- Z.add_1_r, seqZ_app by lia.
  rewrite foldl_app, map_app, IH. change (seqZ (0 + Z.of_nat n) 1) with [Z.of_nat n]. cbn [foldl map].
  rewrite <- blit_snoc by lia. f_equal. unfold len. rewrite length_map, length_seqZ. lia.
Qed.

Lemma map_rd_slice d i n :
  0 <= i -> i + Z.of_nat n <= len d ->
  map (fun j => rd d (i + j)) (seqZ 0 (Z.of_nat n)) = slice d i (Z.of_nat n).
Proof.
  intros Hi Hn. unfold len in Hn. apply list_eq. intros k. unfold slice.
  destruct (decide (k < n)%nat).
  - rewrite list_lookup_fmap, lookup_seqZ_lt by lia. cbn.
    rewrite lookup_take_lt, lookup_drop by lia. unfold rd.
    replace (Z.to_nat (i + (0 + Z.of_nat k))) with (Z.to_nat i + k)%nat by lia.
    destruct (lookup_lt_is_Some_2 d (Z.to_nat i + k)) as [x ->]; [lia|done].
  - rewrite !lookup_ge_None_2; [done| |].
    + rewrite length_take. lia.
    + rewrite length_fmap, length_seqZ. lia.
Qed.

Lemma copy_words_blit out base idx d i ps :
  0 <= base -> 0 <= idx -> 0 <= i -> 0 <= ps -> idx + ps < 2 ^ 32 -> i + ps < 2 ^ 32 ->
  i + ps <= len d ->
  copy_words out base idx (Some d) i ps = blit out (base + idx) (slice d i ps).
Proof.
  intros ??? Hps ???. destruct (Z_of_nat_complete ps Hps) as [n ->].
  unfold copy_words. rewrite <- map_rd_slice by lia.
  rewrite <- (foldl_wr_blit (fun j => rd d (i + j))) by lia.
  assert (forall l o, (forall j, j ∈ l -> 0 <= j < Z.of_nat n) ->
    foldl (fun o j => wr o (base + (idx +u32 j)) (data_word (Some d) (i +u32 j))) o l =
    foldl (fun o j => wr o (base + idx + j) (rd d (i + j))) o l) as E.
  { induction l as [|j l IH]; intros o Hl; cbn [foldl]; [done|].
    assert (0 <= j < Z.of_nat n) by (apply Hl; left).
    rewrite IH by (intros; apply Hl; by right). cbn [data_word]. unwrap. by rewrite Z.add_assoc. }
  apply E. intros j Hj. apply elem_of_seqZ in Hj. lia.
Qed.

(** ** The chunk loop *)

Lemma stream_hdr_land sid : cpe_stream_hdr (sid & 0x1F) = cpe_stream_hdr sid.
Proof. unfold cpe_stream_hdr. by rewrite <- Z.land_assoc, Z.land_diag. Qed.

Lemma u32_mod20 x : u32 x mod 2 ^ 20 = x mod 2 ^ 20.
Proof.
  unfold u32. replace (2 ^ 32) with (2 ^ 20 * 2 ^ 12) by done.
  rewrite Z.rem_mul_r by lia. rewrite Z.mul_comm, Z.mod_add by lia. apply Z.mod_mod. lia.
Qed.

Lemma chunk_addr ta i : (ta +u32 (i *u32 4)) mod 2 ^ 20 = (ta + 4 * i) mod 2 ^ 20.
Proof.
  rewrite u32_mod20, <- Z.add_mod_idemp_r, u32_mod20, Z.add_mod_idemp_r by lia. f_equal. lia.
Qed.

Lemma slice_step (d : list Z) i n :
  0 <= i -> 0 < n -> i + n <= len d ->
  take 4 (slice d i n) = slice d i (Z.min 4 n) /\ drop 4 (slice d i n) = slice d (i + 4) (n - 4).
Proof.
  intros Hi Hn Hl. unfold slice. split.
  - rewrite take_take. f_equal. lia.
  - apply list_eq. intros k. rewrite lookup_drop.
    destruct (decide (4 + k < Z.to_nat n)%nat).
    + rewrite !lookup_take_lt, !lookup_drop by lia. f_equal. lia.
    + rewrite !lookup_take_ge by lia. done.
Qed.

Lemma len_slice {A} (d : list A) i n : 0 <= i -> 0 <= n -> i + n <= len d -> len (slice d i n) = n.
Proof. intros. unfold slice, len in *. rewrite length_take, length_drop. lia. Qed.

Lemma slice_neg {A} (d : list A) i n : n <= 0 -> slice d i n = [].
Proof. intros. unfold slice. replace (Z.to_nat n) with 0%nat by lia. done. Qed.

(** The words still to be written from index [i] on. *)
Definition rest_words (sid ta : Z) (d : list Z) (nwrite i : Z) : list Z :=
  concat (map access_words (write_accesses sid (ta + 4 * i) (chunks4 (slice d i (nwrite - i))))).

Lemma rest_words_done sid ta d nwrite i : nwrite <= i -> rest_words sid ta d nwrite i = [].
Proof. intros. unfold rest_words. by rewrite slice_neg by lia. Qed.

Lemma rest_words_step sid ta d nwrite i :
  0 <= i < nwrite -> nwrite <= len d ->
  let ps := Z.min 4 (nwrite - i) in
  rest_words sid ta d nwrite i =
  (cpe_stream_hdr sid :: cpe_ctrl_word (ctrl_val ((ta + 4 * i) mod 2 ^ 20) ps OP_WRITE 0)
   :: slice d i ps) ++ rest_words sid ta d nwrite (i + 4).
Proof.
  intros Hi Hn ps. unfold rest_words.
  destruct (slice_step d i (nwrite - i)) as [E1 E2]; [lia..|].
  rewrite chunks4_step, E1, E2.
  2: { intros E. assert (len (slice d i (nwrite - i)) = nwrite - i) as L by (apply len_slice; lia).
       rewrite E, len_nil in L. lia. }
  cbn [write_accesses map concat]. unfold access_words at 1. cbn [a_sid a_addr a_beats a_op a_ret a_data].
  rewrite stream_hdr_land, len_slice by lia.
  by replace (nwrite - i - 4) with (nwrite - (i + 4)) by lia;
     replace (ta + 4 * i + 16) with (ta + 4 * (i + 4)) by lia.
Qed.

Lemma pktize_chunks_spec fuel : forall out base cap sid ta d nwrite i idx,
  (Z.to_nat (nwrite - i) < fuel)%nat ->
  0 <= base -> 0 <= i -> 0 <= idx <= cap -> cap + 8 < 2 ^ 32 -> nwrite + 8 < 2 ^ 32 ->
  i <= nwrite + 3 -> nwrite <= len d ->
  let words := rest_words sid ta d nwrite i in
  exists pre,
    cpe_pktize_chunks fuel out base cap sid ta (Some d) nwrite i idx =
      Some (blit out (base + idx) pre,
            if idx + len words <=? cap then Some (idx + len words) else None) /\
    (idx + len words <= cap -> pre = words) /\ idx + len pre <= cap.
Proof.
  induction fuel as [|fuel IH]; intros out base cap sid ta d nwrite i idx; [lia|].
  intros Hf Hb Hi Hidx Hcap Hn Hin Hd words. cbn [cpe_pktize_chunks].
  destruct (Z.ltb_spec i nwrite) as [Hlt|Hge].
  2: { exists []. subst words. rewrite rest_words_done by lia. rewrite blit_nil, ?(@len_nil Z).
       rewrite Z.add_0_r. replace (idx <=? cap) with true by lia. split_and!; [done|done|lia]. }
  subst words. rewrite rest_words_step by lia.
  set (ps := Z.min 4 (nwrite - i)). rewrite len_app, !len_cons, len_slice by lia.
  set (tail := rest_words sid ta d nwrite (i + 4)).
  assert (0 <= len tail) by apply len_nonneg.
  assert ((if nwrite -u32 i >? 4 then 4 else nwrite -u32 i) = ps) as ->.
  { subst ps. unwrap. case_match; lia. }
  rewrite !(u32_small (idx + 2)), (u32_small (idx + 2 + ps)) by lia.
  destruct (Z.gtb_spec (idx + 2 + ps) cap) as [Hfull|Hroom].
  - exists []. rewrite blit_nil, ?(@len_nil Z). replace (_ <=? cap) with false by lia.
    split_and!; [done|lia|lia].
  - rewrite (u32_small (idx + 1)), (u32_small (idx + 1 + 1)), (u32_small (i + 4)),
      (u32_small (idx + 1 + 1 + ps)) by lia.
    rewrite pack_write_hdr, chunk_addr by lia.
    match goal with |- context [Z.lor ?x (u32 (Z.shiftl (cpe_parity ?x) 31))] =>
      change (Z.lor x (u32 (Z.shiftl (cpe_parity x) 31))) with (cpe_ctrl_word x) end.
    rewrite copy_words_blit by lia.
    destruct (IH (blit (wr (wr out (base + idx) (cpe_stream_hdr sid)) (base + (idx + 1))
        (cpe_ctrl_word (ctrl_val ((ta + 4 * i) mod 2 ^ 20) ps OP_WRITE 0)))
        (base + (idx + 1 + 1)) (slice d i ps)) base cap sid ta d nwrite (i + 4)
        (idx + 1 + 1 + ps)) as (pre & -> & Hpre & Hlen); [lia..|].
    fold tail in Hpre, Hlen |- *.
    exists ((cpe_stream_hdr sid :: cpe_ctrl_word (ctrl_val ((ta + 4 * i) mod 2 ^ 20) ps OP_WRITE 0)
             :: slice d i ps) ++ pre).
    rewrite len_app, !len_cons, len_slice by lia. split_and!.
    + replace (idx + 1 + 1 + ps + len tail) with (idx + (1 + (1 + ps) + len tail)) by lia.
      do 2 f_equal. rewrite <- blit_app by lia.
      rewrite !len_cons, len_slice by lia.
      replace (base + (idx + 1 + 1 + ps)) with (base + idx + (1 + (1 + ps))) by lia. f_equal.
      change (?a :: ?b :: ?c) with ([a; b] ++ c). rewrite <- blit_app, blit_2 by lia.
      change (len [_; _]) with 2. f_equal; [f_equal|]; lia.
    + intros. rewrite Hpre by lia. done.
    + lia.
Qed.

(** ** [cpe_pktize] *)

Lemma rest_words_start sid ta d n :
  0 <= n -> rest_words sid ta d n 0 =
  concat (map access_words (write_accesses sid ta (chunks4 (take (Z.to_nat n) d)))).
Proof.
  intros. unfold rest_words, slice. rewrite Z.mul_0_r, Z.add_0_r, Z.sub_0_r, drop_0. done.
Qed.

Lemma last_take_rd (d : list Z) n :
  0 < n <= len d -> last (take (Z.to_nat n) d) = Some (rd d (n - 1)).
Proof.
  intros Hn. unfold len in Hn. rewrite last_lookup, length_take.
  rewrite lookup_take_lt by lia. unfold rd.
  replace (pred (Z.to_nat n `min` length d)) with (Z.to_nat (n - 1)) by lia.
  destruct (lookup_lt_is_Some_2 d (Z.to_nat (n - 1))) as [x ->]; [lia|done].
Qed.

(** The packet words of an acknowledged block: the plain part, then the ack. *)
Lemma pktize_words_ack sid ta d n ret :
  0 < n <= len d ->
  pktize_words sid ta (take (Z.to_nat n) d) true ret =
  rest_words sid ta d (n - 1) 0 ++
  access_words (ack_access sid (ta + 4 * (n - 1)) ret (rd d (n - 1))).
Proof.
  intros Hn. unfold pktize_words, pktize_accesses. rewrite last_take_rd by done.
  rewrite map_app, concat_app, rest_words_start by lia. cbn [map concat]. rewrite app_nil_r.
  assert (len (take (Z.to_nat n) d) = n) as E by (unfold len in *; rewrite length_take; lia).
  rewrite E, take_take. do 6 f_equal. unfold len in *. lia.
Qed.

Lemma pktize_words_plain sid ta d n ret :
  0 <= n -> pktize_words sid ta (take (Z.to_nat n) d) false ret = rest_words sid ta d n 0.
Proof. intros. by rewrite rest_words_start by lia. Qed.

Lemma pktize_words_none sid ta lastack ret : pktize_words sid ta [] lastack ret = [].
Proof. by destruct lastack. Qed.

Lemma ack_words_val sid addr ret w :
  access_words (ack_access sid addr ret w) =
  [cpe_stream_hdr sid; cpe_ctrl_word (ctrl_val (addr mod 2 ^ 20) 1 OP_WRITE_RET (ret mod 2 ^ 5)); w].
Proof.
  unfold access_words, ack_access. cbn [a_sid a_addr a_beats a_op a_ret a_data].
  rewrite stream_hdr_land. change 0x1F with (2 ^ 5 - 1). by rewrite land_low by lia.
Qed.

(** What [cpe_pktize] stores and returns: the packet words of the block when
    they fit, otherwise a prefix of at most [cap] words and the result [0]. *)
Lemma cpe_pktize_result out base cap sid ta d nwords lastack ret :
  0 <= base -> 0 <= cap -> cap + 8 < 2 ^ 32 -> 0 <= nwords -> nwords + 8 < 2 ^ 32 ->
  nwords <= len d ->
  let words := pktize_words sid ta (take (Z.to_nat nwords) d) lastack ret in
  exists pre,
    cpe_pktize out base cap sid ta (Some d) nwords lastack ret =
      Some (blit out base pre, if len words <=? cap then len words else 0) /\
    (len words <= cap -> pre = words) /\ len pre <= cap.
Proof.
  intros Hb Hc0 Hcap Hn0 Hn Hd words. unfold cpe_pktize.
  destruct (lastack && (nwords >? 0)) eqn:Eack.
  - apply andb_prop in Eack as [-> Hpos]. assert (0 < nwords) by lia. clear Hpos.
    subst words. rewrite pktize_words_ack by lia. rewrite (u32_small (nwords - 1)) by lia.
    destruct (pktize_chunks_spec (S (Z.to_nat (nwords - 1))) out base cap sid ta d (nwords - 1) 0 0)
      as (pre & -> & Hpre & Hlen); [lia..|].
    rewrite Z.add_0_l, Z.add_0_r in *. rewrite len_app, ack_words_val.
    change (len [_; _; _]) with 3. set (w0 := rest_words sid ta d (nwords - 1) 0) in *.
    assert (0 <= len w0) by apply len_nonneg.
    destruct (Z.leb_spec (len w0) cap) as [Hfit|Hnofit].
    2: { exists pre. replace (_ <=? cap) with false by lia. split_and!; [done|lia|lia]. }
    rewrite Hpre by lia. rewrite (u32_small (len w0 + 3)) by lia.
    destruct (Z.gtb_spec (len w0 + 3) cap) as [Hfull|Hroom].
    { exists w0. replace (_ <=? cap) with false by lia. split_and!; [done|lia|lia]. }
    replace (_ <=? cap) with true by lia.
    rewrite !(u32_small (len w0 + 1)), (u32_small (len w0 + 1 + 1)),
      (u32_small (len w0 + 1 + 1 + 1)) by lia.
    rewrite pack_ack_hdr, chunk_addr.
    match goal with |- context [Z.lor ?x (u32 (Z.shiftl (cpe_parity ?x) 31))] =>
      change (Z.lor x (u32 (Z.shiftl (cpe_parity x) 31))) with (cpe_ctrl_word x) end.
    cbn [data_word]. eexists. split_and!; [|done|rewrite len_app; change (len [_; _; _]) with 3; lia].
    f_equal. f_equal; [|lia].
    change [?a; ?b; ?c] with ([a; b] ++ [c]) at 1.
    rewrite app_assoc, <- blit_snoc by lia. rewrite <- blit_app, blit_2 by lia.
    rewrite len_app. change (len [_; _]) with 2.
    f_equal; [f_equal|]; lia.
  - destruct (pktize_chunks_spec (S (Z.to_nat nwords)) out base cap sid ta d nwords 0 0)
      as (pre & -> & Hpre & Hlen); [lia..|].
    assert (words = rest_words sid ta d nwords 0) as ->.
    { subst words. destruct lastack; [|apply pktize_words_plain; lia].
      assert (nwords = 0) as -> by (destruct (Z.gtb_spec nwords 0); [done|lia]).
      rewrite rest_words_done by lia. apply pktize_words_none. }
    rewrite Z.add_0_l, Z.add_0_r in *. exists pre. split_and!; [|done|lia].
    by destruct (_ <=? cap).
Qed.

(** ** What the packets do *)

Lemma run_write_accesses sid ws : forall ta m a,
  0 <= ta -> ta + 4 * len ws <= 2 ^ 20 ->
  run_accesses m (write_accesses sid ta (chunks4 ws)) a = store_words m ta ws a.
Proof.
  induction ws as [ws IH] using (induction_ltof1 _ (@length Z)). unfold ltof in IH.
  intros ta m a Hta Hend. destruct ws as [|w ws']; [by rewrite store_words_nil|].
  set (ws := w :: ws') in *. assert (0 < length ws)%nat by (subst ws; cbn; lia).
  rewrite chunks4_step by done. cbn [write_accesses run_accesses foldl].
  fold (run_accesses (run_access m (Acc (sid & 0x1F) (ta mod 2 ^ 20) OP_WRITE 0
    (len (take 4 ws)) (take 4 ws))) (write_accesses sid (ta + 16) (chunks4 (drop 4 ws)))).
  unfold run_access. cbn [a_op a_addr a_data OP_WRITE]. change (OP_WRITE =? OP_READ) with false.
  cbn beta iota. rewrite Z.mod_small by (unfold len in *; lia).
  destruct (decide (length ws <= 4)%nat) as [Hs|Hs].
  - rewrite drop_ge, take_ge by lia. done.
  - assert (len (take 4 ws) = 4) as E by (unfold len; rewrite length_take; lia).
    rewrite IH; [| rewrite length_drop; lia | lia | unfold len in *; rewrite length_drop; lia].
    transitivity (store_words m ta (take 4 ws ++ drop 4 ws) a); [|by rewrite take_drop].
    rewrite <- store_words_app, E. by replace (ta + 16) with (ta + 4 * 4) by lia.
Qed.

Lemma run_pktize_accesses sid ta ws lastack ret m a :
  0 <= ta -> ta + 4 * len ws <= 2 ^ 20 ->
  run_accesses m (pktize_accesses sid ta ws lastack ret) a = store_words m ta ws a.
Proof.
  intros Hta Hend. unfold pktize_accesses. destruct lastack; [|by apply run_write_accesses].
  destruct ws as [|w ws' _] using rev_ind; [by rewrite store_words_nil|].
  rewrite last_snoc, length_app. cbn [length]. rewrite len_app in *.
  change (len [w]) with 1 in *. pose proof (len_nonneg ws').
  replace (length ws' + 1 - 1)%nat with (length ws') by lia. rewrite take_app_length.
  rewrite run_accesses_app.
  change (run_accesses ?m0 [ack_access sid ?ad ret w]) with (store_words m0 (ad mod 2 ^ 20) [w]).
  rewrite Z.mod_small by lia. rewrite <- store_words_app.
  replace (ta + 4 * (len ws' + 1 - 1)) with (ta + 4 * len ws') by lia.
  apply store_words_ext. intros b. apply run_write_accesses; lia.
Qed.

(** Packet words of a block: two header words for every four data words, and
    three words for the acknowledged last one. *)
Definition pktize_size (n : Z) (lastack : bool) : Z :=
  if lastack then if n =? 0 then 0 else (n - 1) + 2 * ((n - 1 + 3) / 4) + 3
  else n + 2 * ((n + 3) / 4).

Lemma len_pktize_words sid ta ws lastack ret :
  len (pktize_words sid ta ws lastack ret) = pktize_size (len ws) lastack.
Proof.
  unfold pktize_words, pktize_accesses, pktize_size.
  assert (forall ws, len (concat (map access_words (write_accesses sid ta (chunks4 ws)))) =
                     len ws + 2 * ((len ws + 3) / 4)) as E.
  { intros ws0. rewrite len_write_words, length_chunks4, concat_chunks4. lia. }
  destruct lastack; [|by rewrite E].
  destruct ws as [|w ws' _] using rev_ind; [done|].
  rewrite last_snoc, length_app. cbn [length].
  replace (length ws' + 1 - 1)%nat with (length ws') by lia. rewrite take_app_length.
  rewrite map_app, concat_app, len_app, E. cbn [map concat]. rewrite app_nil_r, ack_words_val.
  change (len [_; _; _]) with 3. rewrite len_app. change (len [w]) with 1.
  pose proof (len_nonneg ws'). replace (len ws' + 1 =? 0) with false by lia.
  replace (len ws' + 1 - 1) with (len ws') by lia. lia.
Qed.

Lemma write_accesses_fields sid ta cs :
  Forall (fun a => a_sid a = sid & 0x1F /\ a_op a = OP_WRITE) (write_accesses sid ta cs).
Proof. revert ta. induction cs; intros; constructor; [done|auto]. Qed.

Lemma pktize_accesses_sid sid ta ws lastack ret :
  Forall (fun a => a_sid a = sid & 0x1F) (pktize_accesses sid ta ws lastack ret).
Proof.
  assert (forall ws, Forall (fun a => a_sid a = sid & 0x1F) (write_accesses sid ta (chunks4 ws))) as H.
  { intros. eapply Forall_impl; [apply write_accesses_fields|]. by intros ? []. }
  unfold pktize_accesses. destruct lastack; [|done]. destruct (last ws); [|constructor].
  apply Forall_app. split; [done|]. by constructor.
Qed.

Lemma pktize_accesses_op sid ta ws lastack ret k a :
  pktize_accesses sid ta ws lastack ret !! k = Some a ->
  a_op a = if lastack && (S k =? length (pktize_accesses sid ta ws lastack ret))%nat
           then OP_WRITE_RET else OP_WRITE.
Proof.
  assert (forall cs k a, write_accesses sid ta cs !! k = Some a -> a_op a = OP_WRITE) as H.
  { intros cs k0 a0 E. pose proof (write_accesses_fields sid ta cs) as F.
    by eapply Forall_lookup_1 in F as [_ F]. }
  unfold pktize_accesses. destruct lastack; cbn [andb]; [|apply H].
  destruct (last ws) as [w|]; [|done]. set (l := write_accesses _ _ _). rewrite length_app. cbn [length].
  destruct (decide (k < length l)%nat) as [Hk|Hk].
  - rewrite lookup_app_l by done. intros E. apply H in E as ->.
    replace (S k =? length l + 1)%nat with false; [done|]. symmetry. apply Nat.eqb_neq. lia.
  - rewrite lookup_app_r by lia. destruct (k - length l)%nat eqn:Ek; [|done].
    intros [= <-]. replace (S k =? length l + 1)%nat with true; [done|]. symmetry. apply Nat.eqb_eq. lia.
Qed.

(** ** Properties *)

(** C1. Round trip of the write encoder: a block of words that fits in the
    buffer is stored as a well-formed packet stream; decoding that stream
    with the runtime's header parsers and running the accesses on any tile
    memory stores exactly the block at [ta]; every packet carries the stream
    id; and an access asks for a return exactly when it is the last one of an
    acknowledged block. *)
Theorem cpe_pktize_delivers (out : list Z) (cap sid ta : Z) (d : list Z) (lastack : bool) (ret : Z) :
  0 <= cap <= len out -> cap + 8 < 2 ^ 32 -> len d + 8 < 2 ^ 32 ->
  0 <= ta -> ta + 4 * len d <= 2 ^ 20 -> pktize_size (len d) lastack <= cap ->
  exists out' n accs,
    cpe_pktize out 0 cap sid ta (Some d) (len d) lastack ret = Some (out', n) /\
    decode_stream (S (length accs)) (slice out' 0 n) = Some accs /\
    (forall m a, run_accesses m accs a = store_words m ta d a) /\
    Forall (fun a => a_sid a = sid & 0x1F) accs /\
    (forall k a, accs !! k = Some a ->
       a_op a = if lastack && (S k =? length accs)%nat then OP_WRITE_RET else OP_WRITE).
Proof.
  intros Hc Hcap Hd Hta Hend Hfit.
  destruct (cpe_pktize_result out 0 cap sid ta d (len d) lastack ret)
    as (pre & E & Hpre & _); [unfold len in *; lia..|].
  assert (take (Z.to_nat (len d)) d = d) as Ed by (apply take_ge; unfold len; lia).
  rewrite Ed, len_pktize_words in *. replace (_ <=? cap) with true in E by lia.
  rewrite Hpre in E by lia.
  exists (blit out 0 (pktize_words sid ta d lastack ret)), (pktize_size (len d) lastack),
    (pktize_accesses sid ta d lastack ret). split_and!; [done| | | |].
  - rewrite <- (len_pktize_words sid ta d lastack ret). rewrite slice_blit by (rewrite ?len_pktize_words; lia).
    apply decode_words, pktize_accesses_ok.
  - intros. by apply run_pktize_accesses.
  - apply pktize_accesses_sid.
  - apply pktize_accesses_op.
Qed.

Lemma cpe_pktize_delivers_witness :
  exists out' n accs,
    cpe_pktize (replicate 12 0) 0 12 3 0x1000 (Some [10; 20; 30; 40; 50]) 5 true 7 = Some (out', n) /\
    decode_stream (S (length accs)) (slice out' 0 n) = Some accs /\
    (forall m a, run_accesses m accs a = store_words m 0x1000 [10; 20; 30; 40; 50] a) /\
    Forall (fun a => a_sid a = 3 & 0x1F) accs /\
    (forall k a, accs !! k = Some a ->
       a_op a = if true && (S k =? length accs)%nat then OP_WRITE_RET else OP_WRITE).
Proof.
  apply (cpe_pktize_delivers (replicate 12 0) 12 3 0x1000 [10; 20; 30; 40; 50] true 7);
    vm_compute; intuition discriminate.
Defined.

(** C21. Bounds of the write encoder: for every block and every capacity the
    encoder ends; it returns the exact packet size when that fits and [0]
    otherwise, and it never stores outside [base, base + cap). *)
Theorem cpe_pktize_bounds (out : list Z) (base cap sid ta : Z) (d : list Z) (lastack : bool) (ret : Z) :
  0 <= base -> 0 <= cap -> cap + 8 < 2 ^ 32 -> len d + 8 < 2 ^ 32 ->
  exists out',
    cpe_pktize out base cap sid ta (Some d) (len d) lastack ret =
      Some (out', if pktize_size (len d) lastack <=? cap then pktize_size (len d) lastack else 0) /\
    length out' = length out /\
    (forall k, 0 <= k -> k < base \/ base + cap <= k -> out' !! Z.to_nat k = out !! Z.to_nat k).
Proof.
  intros Hb Hc Hcap Hd.
  destruct (cpe_pktize_result out base cap sid ta d (len d) lastack ret)
    as (pre & E & _ & Hlen); [unfold len in *; lia..|].
  assert (take (Z.to_nat (len d)) d = d) as Ed by (apply take_ge; unfold len; lia).
  rewrite Ed, len_pktize_words in E. exists (blit out base pre).
  split_and!; [done|apply length_blit|]. intros k Hk Hout. apply blit_outside; lia.
Qed.

Lemma cpe_pktize_bounds_witness :
  exists out',
    cpe_pktize (replicate 9 7) 2 5 3 0x1000 (Some [10; 20; 30; 40; 50]) 5 false 0 = Some (out', 0) /\
    length out' = 9%nat /\
    (forall k, 0 <= k -> k < 2 \/ 2 + 5 <= k -> out' !! Z.to_nat k = replicate 9 7 !! Z.to_nat k).
Proof.
  apply (cpe_pktize_bounds (replicate 9 7) 2 5 3 0x1000 [10; 20; 30; 40; 50] false 0);
    vm_compute; intuition discriminate.
Defined.

Lemma rt_pktize_chunks_eq fuel : forall out base cap sid ta data nwrite i idx,
  rt_pktize_chunks fuel out base cap sid ta data nwrite i idx =
  cpe_pktize_chunks fuel out base cap sid ta data nwrite i idx.
Proof.
  induction fuel as [|fuel IH]; intros; cbn [rt_pktize_chunks cpe_pktize_chunks]; [done|].
  case_match; [|done]. case_match; [done|].
  by rewrite IH, rt_pkt_hdr_eq, Z.lor_0_l, parity_routines.
Qed.

Lemma rt_pktize_eq out base cap sid ta data nwords lastack ret :
  (fun '(o, n, _) => (o, n)) <$>
    Runtime_ctrl_pktize_write out base cap sid ta data nwords lastack ret =
  cpe_pktize out base cap sid ta data nwords lastack ret.
Proof.
  unfold Runtime_ctrl_pktize_write, cpe_pktize. rewrite rt_pktize_chunks_eq.
  destruct (cpe_pktize_chunks _ _ _ _ _ _ _ _ _ _) as [[o [idx|]]|]; [|done|done].
  destruct (lastack && (nwords >? 0)); [|done]. cbv zeta.
  destruct (idx +u32 3 >? cap); [done|].
  change ((0 & 0x3) <<u32 20) with 0. rewrite Z.lor_0_l, Z.lor_0_r.
  by rewrite rt_pkt_hdr_eq, parity_routines.
Qed.

(** The two write encoders agree: the runtime's
    [__Runtime_ctrl_pktize_write] (with its xor-folding parity) and the
    offline [cpe_pktize] (with the compiler's parity builtin) store the same
    words and return the same count, on every input. *)
Theorem pktize_encoders_agree out base cap sid ta data nwords lastack ret :
  (fun '(o, n, _) => (o, n)) <$>
    Runtime_ctrl_pktize_write out base cap sid ta data nwords lastack ret =
  cpe_pktize out base cap sid ta data nwords lastack ret.
Proof. apply rt_pktize_eq. Qed.
