(* ===== verification/CtrlpktRead.v ===== *)
(** * Reading through control packets

    The request encoder [__Runtime_ctrl_pktize_read], the tile that answers,
    and [rt_ctrl_read_extract], which strips the answers' headers: together
    they read memory. *)

From stdpp Require Import base list list_numbers numbers gmap.
From S2P Require Import Prelude.
From S2P Require Import CtrlpktEncode.
From S2P Require Import RuntimePkt.
From S2P Require Import CtrlpktFormat.
From S2P Require Import CtrlpktWrite.

Local Open Scope Z_scope.
Local Open Scope c_scope.

(** ** Specification *)

(** How a read of [nwords] words is cut: first word and number of words. *)
Fixpoint read_plan (fuel : nat) (ta nwords w : Z) : list (Z * Z) :=
  match fuel with
  | O => []
  | S fuel =>
    if w <? nwords then
      let c := rt_ctrl_chunk_words ta nwords w in (w, c) :: read_plan fuel ta nwords (w + c)
    else []
  end.

Definition read_access (req ret ta : Z) (p : Z * Z) : access :=
  Acc (req & 0x1F) ((ta + 4 * p.1) mod 2 ^ 20) OP_READ (ret & 0x1F) p.2 [].

(** The answer of a tile to a list of accesses. *)
Definition answers (m : tile_mem) (accs : list access) : list Z := concat (map (answer m) accs).

Lemma len_load_words m a n : 0 <= n -> len (load_words m a n) = n.
Proof. intros. unfold load_words, len. rewrite length_map, length_seqZ. lia. Qed.

(** ** Cutting *)

Lemma to_boundary_bounds a : 0 <= a -> a + 16 < 2 ^ 32 ->
  1 <= rt_ctrl_words_to_boundary a <= 4 /\ (a mod 4 = 0 -> a mod 16 + 4 * rt_ctrl_words_to_boundary a = 16).
Proof.
  intros H0 H1. unfold rt_ctrl_words_to_boundary. change 0xF with (2 ^ 4 - 1). rewrite land_low by lia.
  change (2 ^ 4) with 16. rewrite u32_small by (Z.div_mod_to_equations; lia).
  unfold z2b. destruct ((16 - a mod 16) / 4 =? 0) eqn:E; cbn [negb]; Z.div_mod_to_equations; lia.
Qed.

Lemma chunk_bounds ta nwords w :
  0 <= ta -> 0 <= w < nwords -> ta + 4 * nwords + 16 < 2 ^ 32 ->
  let c := rt_ctrl_chunk_words ta nwords w in
  1 <= c <= 4 /\ w + c <= nwords /\ (ta mod 4 = 0 -> (ta + 4 * w) mod 16 + 4 * c <= 16).
Proof.
  intros Ht Hw Hs. unfold rt_ctrl_chunk_words.
  rewrite (u32_small (w * 4)), (u32_small (ta + w * 4)), (u32_small (nwords - w)) by lia.
  destruct (to_boundary_bounds (ta + w * 4)) as [Hb Ha]; [lia..|]. rewrite (Z.mul_comm 4 w).
  assert (ta mod 4 = 0 -> (ta + w * 4) mod 4 = 0) by (intros; rewrite Z.mod_add; lia).
  destruct (nwords - w >? 4) eqn:E1; destruct (_ >? rt_ctrl_words_to_boundary _) eqn:E2;
    split_and!; try lia; intros; specialize (Ha ltac:(auto)); lia.
Qed.

Section Plan.
Context (ta nwords : Z).
Hypothesis Hta : 0 <= ta.
Hypothesis Hfit : ta + 4 * nwords + 16 < 2 ^ 32.

Lemma read_plan_step fuel w : 0 <= w < nwords ->
  read_plan (S fuel) ta nwords w =
  (w, rt_ctrl_chunk_words ta nwords w) ::
    read_plan fuel ta nwords (w + rt_ctrl_chunk_words ta nwords w).
Proof. intros. cbn [read_plan]. by replace (w <? nwords) with true by lia. Qed.

Lemma read_plan_end fuel w : nwords <= w -> read_plan fuel ta nwords w = [].
Proof. intros. destruct fuel; cbn [read_plan]; [done|]. by replace (w <? nwords) with false by lia. Qed.

Lemma read_plan_ok fuel : forall w, 0 <= w ->
  Forall (fun p => 0 <= p.1 /\ 1 <= p.2 <= 4 /\ p.1 + p.2 <= nwords /\
            (ta mod 4 = 0 -> (ta + 4 * p.1) mod 16 + 4 * p.2 <= 16)) (read_plan fuel ta nwords w).
Proof.
  induction fuel as [|fuel IH]; intros w Hw; [constructor|].
  destruct (decide (w < nwords)); [|rewrite read_plan_end by lia; constructor].
  rewrite read_plan_step by lia. destruct (chunk_bounds ta nwords w) as (H1 & H2 & H3); [lia..|].
  constructor; [cbn [fst snd]; split_and!; [lia..|done]|apply IH; lia].
Qed.

(** The request loop stores the packets of the plan. *)
Lemma read_loop_spec fuel : forall out cap req ret w idx resp,
  (Z.to_nat (nwords - w) < fuel)%nat -> 0 <= w -> w <= nwords ->
  0 <= idx -> idx + 2 * (nwords - w) <= cap -> cap + 8 < 2 ^ 32 ->
  0 <= resp -> resp + 2 * (nwords - w) < 2 ^ 32 ->
  let plan := read_plan fuel ta nwords w in
  let words := concat (map access_words (map (read_access req ret ta) plan)) in
  rt_pktize_read_loop fuel out cap req ret ta nwords w idx resp =
    Some (blit out idx words, Some (idx + 2 * len plan,
            resp + foldr (fun p n => 1 + p.2 + n) 0 plan)).
Proof.
  induction fuel as [|fuel IH]; [lia|]. intros out cap req ret w idx resp Hf Hw Hwn Hi Hc Hcap Hr Hrr.
  destruct (decide (w < nwords)) as [Hlt|Hge].
  2: { rewrite read_plan_end by lia. cbn [rt_pktize_read_loop map concat foldr].
       replace (w <? nwords) with false by lia. change (len []) with 0. rewrite !Z.add_0_r. done. }
  rewrite read_plan_step by lia. cbn [rt_pktize_read_loop]. replace (w <? nwords) with true by lia.
  destruct (chunk_bounds ta nwords w) as (H1 & H2 & _); [lia..|].
  set (c := rt_ctrl_chunk_words ta nwords w) in *.
  rewrite (u32_small (idx + 2)), (u32_small (idx + 1)), (u32_small (w + c)), (u32_small (1 + c)),
    (u32_small (resp + (1 + c))) by lia.
  replace (idx + 2 >? cap) with false by lia. rewrite Z.lor_0_l, pack_read_hdr by lia.
  rewrite parity_routines, rt_pkt_hdr_eq, chunk_addr.
  change (Z.lor ?x (u32 (Z.shiftl (cpe_parity ?x) 31))) with (cpe_ctrl_word x).
  rewrite IH by lia. cbn [map concat foldr fst snd].
  set (rest := read_plan fuel ta nwords (w + c)). rewrite len_cons.
  assert (access_words (read_access req ret ta (w, c)) =
    [cpe_stream_hdr req; cpe_ctrl_word (ctrl_val ((ta + 4 * w) mod 2 ^ 20) c OP_READ (ret mod 2 ^ 5))]) as ->.
  { unfold access_words, read_access. cbn [a_sid a_addr a_beats a_op a_ret a_data fst snd].
    rewrite stream_hdr_land. change 0x1F with (2 ^ 5 - 1). by rewrite land_low by lia. }
  rewrite <- blit_2 by lia.
  rewrite <- (blit_app out idx [_; _]) by lia. change (len [_; _]) with 2.
  do 2 f_equal. f_equal. f_equal; lia.
Qed.

(** The extraction loop follows the same plan. *)
Lemma extract_loop_spec (m : tile_mem) req ret fuel : forall pre w out resp,
  (Z.to_nat (nwords - w) < fuel)%nat -> 0 <= w -> w <= nwords -> ta + 4 * nwords <= 2 ^ 20 ->
  resp = pre ++ answers m (map (read_access req ret ta) (read_plan fuel ta nwords w)) ->
  len resp + 16 < 2 ^ 32 ->
  rt_ctrl_read_extract_loop fuel resp ta nwords w (len pre) out =
  Some (blit out w (load_words m (ta + 4 * w) (nwords - w))).
Proof.
  induction fuel as [|fuel IH]; [lia|]. intros pre w out resp Hf Hw Hwn Hm Er Hl.
  destruct (decide (w < nwords)) as [Hlt|Hge].
  2: { cbn [rt_ctrl_read_extract_loop]. replace (w <? nwords) with false by lia.
       unfold load_words. rewrite seqZ_nil by lia. done. }
  rewrite read_plan_step in Er by lia. cbn [rt_ctrl_read_extract_loop].
  replace (w <? nwords) with true by lia.
  destruct (chunk_bounds ta nwords w) as (H1 & H2 & _); [lia..|].
  set (c := rt_ctrl_chunk_words ta nwords w) in *.
  set (rest := answers m (map (read_access req ret ta) (read_plan fuel ta nwords (w + c)))).
  assert (resp = (pre ++ [cpe_stream_hdr (ret & 0x1F)]) ++ load_words m (ta + 4 * w) c ++ rest) as E.
  { rewrite Er. unfold answers. cbn [map concat]. fold (answers m (map (read_access req ret ta) (read_plan fuel ta nwords (w + c)))).
    fold rest. unfold answer, read_access. cbn [a_ret a_addr a_beats fst snd].
    rewrite Z.mod_small by lia. cbn [app]. by rewrite <- app_assoc. }
  pose proof (len_load_words m (ta + 4 * w) c ltac:(lia)) as Lc.
  assert (len resp = len pre + 1 + c + len rest) as Lr
    by (rewrite E, !len_app, Lc; change (len [_]) with 1; lia).
  pose proof (len_nonneg pre). pose proof (len_nonneg rest).
  rewrite (u32_small (len pre + 1)), (u32_small (w + c)), (u32_small (len pre + 1 + c)) by lia.
  match goal with |- context [foldl ?f out ?l] =>
    change (foldl f out l) with (copy_words out 0 w (Some resp) (len pre + 1) c) end.
  rewrite copy_words_blit by lia. rewrite Z.add_0_l.
  assert (slice resp (len pre + 1) c = load_words m (ta + 4 * w) c) as ->.
  { rewrite E. unfold slice. replace (Z.to_nat (len pre + 1)) with (length (pre ++ [cpe_stream_hdr (ret & 0x1F)]))
      by (rewrite length_app; unfold len; cbn [length]; lia).
    rewrite drop_app_length. rewrite <- Lc at 1. unfold len. by rewrite Nat2Z.id, take_app_length. }
  replace (len pre + 1 + c) with (len ((pre ++ [cpe_stream_hdr (ret & 0x1F)]) ++ load_words m (ta + 4 * w) c))
    by (rewrite !len_app, Lc; change (len [_]) with 1; lia).
  rewrite (IH _ (w + c) _ resp); [|lia..|by rewrite E, app_assoc|lia].
  replace (blit out w (load_words m (ta + 4 * w) (nwords - w))) with
    (blit out w (load_words m (ta + 4 * w) c ++ load_words m (ta + 4 * (w + c)) (nwords - (w + c)))).
  - rewrite <- blit_app by lia. by rewrite Lc.
  - f_equal. unfold load_words. replace (nwords - w) with (c + (nwords - (w + c))) by lia.
    rewrite seqZ_app by lia. rewrite map_app. f_equal. rewrite (Z.add_comm 0 c).
    rewrite <- fmap_add_seqZ, <- list_fmap_compose. apply list_fmap_ext. intros i k _. unfold compose.
    f_equal. lia.
Qed.
End Plan.

Lemma len_answers m req ret ta plan :
  Forall (fun p => 1 <= p.2 <= 4) plan ->
  len (answers m (map (read_access req ret ta) plan)) = foldr (fun p n => 1 + p.2 + n) 0 plan.
Proof.
  induction 1 as [|p plan Hp _ IH]; [done|]. unfold answers in *. cbn [map concat foldr].
  rewrite len_app, IH. unfold answer, read_access. cbn [a_beats a_addr a_ret fst snd].
  destruct p as [w c]. cbn [fst snd] in *. rewrite len_cons, len_load_words by lia. lia.
Qed.

(** ** Properties *)

(** C23. Reading through control packets reads memory: with room for two words
    per requested word, the request encoder succeeds; its packets decode to
    read accesses of one to four words that, from an aligned address, never
    cross a 16-byte line; the announced response length is the length of
    the tile's answers; and extracting those answers gives exactly the words
    of the tile's memory from [ta] on, for every memory. *)
Theorem ctrl_read_roundtrip (out : list Z) (cap req ret ta nwords : Z) :
  0 <= ta -> 0 <= nwords -> ta + 4 * nwords <= 2 ^ 20 ->
  2 * nwords <= cap <= len out -> cap + 8 < 2 ^ 32 ->
  exists out' n resp_len accs,
    Runtime_ctrl_pktize_read out cap req ret ta nwords = Some (out', Some (n, resp_len)) /\
    decode_stream (S (length accs)) (slice out' 0 n) = Some accs /\
    Forall (fun a => a_op a = OP_READ /\ (ta mod 4 = 0 -> a_addr a mod 16 + 4 * a_beats a <= 16)) accs /\
    forall (m : tile_mem) (buf : list Z), len buf = nwords ->
      len (answers m accs) = resp_len /\
      rt_ctrl_read_extract (answers m accs) ta nwords buf = Some (load_words m ta nwords).
Proof.
  intros Hta Hn Hm Hc Hcap.
  set (plan := read_plan (S (Z.to_nat nwords)) ta nwords 0).
  pose proof (read_plan_ok ta nwords Hta ltac:(lia) (S (Z.to_nat nwords)) 0 ltac:(lia)) as Hok. fold plan in Hok.
  assert (Forall access_ok (map (read_access req ret ta) plan)) as Haccs.
  { apply Forall_fmap. eapply Forall_impl; [exact Hok|]. intros [w c] (_ & Hc4 & _). cbn [fst snd] in *.
    constructor; cbn -[Z.land Z.modulo]; try (unfold OP_READ; lia); try done.
    - apply sid_land_range. - apply Z.mod_pos_bound; lia. - apply sid_land_range. }
  assert (2 * len plan = len (concat (map access_words (map (read_access req ret ta) plan)))) as Lw.
  { clear. induction plan as [|p plan IH]; [done|]. cbn [map concat]. rewrite len_app, <- IH, len_cons.
    change (len (access_words _)) with 2. lia. }
  assert (forall f w, 0 <= w <= nwords -> w + len (read_plan f ta nwords w) <= nwords) as Lp.
  { induction f as [|f IH]; intros w Hw; [cbn [read_plan]; rewrite len_nil; lia|].
    destruct (decide (w < nwords)); [|rewrite read_plan_end by lia; rewrite len_nil; lia].
    rewrite read_plan_step, len_cons by lia.
    destruct (chunk_bounds ta nwords w) as (H1 & H2 & _); [lia..|].
    specialize (IH (w + rt_ctrl_chunk_words ta nwords w) ltac:(lia)). lia. }
  specialize (Lp (S (Z.to_nat nwords)) 0 ltac:(lia)). fold plan in Lp.
  eexists _, _, _, (map (read_access req ret ta) plan). split_and!.
  - unfold Runtime_ctrl_pktize_read. rewrite read_loop_spec by lia. fold plan. rewrite !Z.add_0_l. reflexivity.
  - rewrite Lw, slice_blit by lia. by apply decode_words.
  - apply Forall_fmap. eapply Forall_impl; [exact Hok|]. intros [w c] (Hw & Hc4 & Hwc & Hal).
    cbn [fst snd] in *. split; [done|]. cbn [read_access a_addr a_beats fst snd].
    rewrite (Z.mod_small _ (2 ^ 20)) by lia. done.
  - intros m buf Hb. rewrite len_answers by (eapply Forall_impl; [exact Hok|]; by intros ? (_ & ? & _)).
    split; [done|]. unfold rt_ctrl_read_extract.
    rewrite (extract_loop_spec ta nwords Hta ltac:(lia) m req ret _ [] 0 buf
      (answers m (map (read_access req ret ta) plan))); [|lia..|done|].
    + rewrite Z.mul_0_r, Z.add_0_r, Z.sub_0_r. f_equal. apply blit_full.
      pose proof (len_load_words m ta nwords Hn). unfold len in *. lia.
    + rewrite len_answers by (eapply Forall_impl; [exact Hok|]; by intros ? (_ & ? & _)).
      assert (forall l, Forall (fun p => 0 <= p.1 /\ 1 <= p.2 <= 4 /\ p.1 + p.2 <= nwords /\
            (ta mod 4 = 0 -> (ta + 4 * p.1) mod 16 + 4 * p.2 <= 16)) l ->
         foldr (fun p n => 1 + p.2 + n) 0 l <= 5 * len l) as Hs.
      { induction 1 as [|p l (_ & Hp & _) _ IH]; [done|]. cbn [foldr]. rewrite len_cons. lia. }
      specialize (Hs plan Hok). lia.
Qed.

Lemma ctrl_read_roundtrip_witness :
  exists out' n resp_len accs,
    Runtime_ctrl_pktize_read (replicate 20 0) 20 3 9 0x1008 9 = Some (out', Some (n, resp_len)) /\
    decode_stream (S (length accs)) (slice out' 0 n) = Some accs /\
    Forall (fun a => a_op a = OP_READ /\ (0x1008 mod 4 = 0 -> a_addr a mod 16 + 4 * a_beats a <= 16)) accs /\
    forall (m : tile_mem) (buf : list Z), len buf = 9 ->
      len (answers m accs) = resp_len /\
      rt_ctrl_read_extract (answers m accs) 0x1008 9 buf = Some (load_words m 0x1008 9).
Proof.
  apply (ctrl_read_roundtrip (replicate 20 0) 20 3 9 0x1008 9); vm_compute; intuition discriminate.
Defined.
