(* ===== verification/CtrlpktSeg.v ===== *)
(** * Coalesced segments

    [rt_cpe_seg_write] appends single register writes to a packet buffer and
    merges neighbours into one packet; [rt_cpe_seg_finish] turns the last
    word into a write-with-return.  The buffer always spells a list of write
    accesses whose effect is the sequence of the writes. *)

From stdpp Require Import base list list_numbers numbers gmap.
From S2P Require Import Prelude.
From S2P Require Import CtrlpktEncode.
From S2P Require Import RuntimePkt.
From S2P Require Import CtrlpktFormat.
From S2P Require Import CtrlpktWrite.

Local Open Scope Z_scope.
Local Open Scope c_scope.

(** ** Specification *)

Definition stream_words (accs : list access) : list Z := concat (map access_words accs).

Record write_access (sid : Z) (a : access) : Prop := {
  wa_ok : access_ok a;
  wa_sid : a_sid a = sid & 0x1F;
  wa_op : a_op a = OP_WRITE;
  wa_ret : a_ret a = 0;
  wa_line : a_addr a mod 4 = 0 -> a_addr a mod 16 + 4 * a_beats a <= 16 }.

(** Appending the write of [v] at [off]: extend the last access or add one. *)
Definition merges (a : access) (off : Z) : bool :=
  (off =? a_addr a +u32 (4 *u32 a_beats a)) && (a_beats a <? cpe_words_to_boundary (a_addr a)).

Definition extend (a : access) (v : Z) : access :=
  Acc (a_sid a) (a_addr a) (a_op a) (a_ret a) (a_beats a + 1) (a_data a ++ [v]).

Definition fresh_write (sid off v : Z) : access := Acc (sid & 0x1F) (off mod 2 ^ 20) OP_WRITE 0 1 [v].

Definition add_write (sid : Z) (accs : list access) (off v : Z) : list access :=
  match last accs with
  | Some a =>
    if merges a off then take (length accs - 1) accs ++ [extend a v]
    else accs ++ [fresh_write sid off v]
  | None => [fresh_write sid off v]
  end.

(** Turning the last word into a write-with-return. *)
Definition acked (sid : Z) (accs : list access) : list access :=
  match last accs with
  | None => []
  | Some a =>
    let init := take (length accs - 1) accs in
    let n := (length (a_data a) - 1)%nat in
    init ++ (if (n =? 0)%nat then []
             else [Acc (a_sid a) (a_addr a) OP_WRITE 0 (a_beats a - 1) (take n (a_data a))]) ++
    [Acc (a_sid a) ((a_addr a + 4 * (a_beats a - 1)) mod 2 ^ 20) OP_WRITE_RET 0 1
       (drop n (a_data a))]
  end.

(** The buffer [p] with cursor [s] spells [accs]. *)
Record spells (sid : Z) (s : rt_cpe_seg) (p : list Z) (accs : list access) : Prop := {
  sp_words : take (length (stream_words accs)) p = stream_words accs;
  sp_pw : seg_pw s = len (stream_words accs);
  sp_last : seg_last s =
    match last accs with None => RT_CPE_NONE | Some a => seg_pw s - a_beats a - 1 end;
  sp_write : Forall (write_access sid) accs }.

(** ** Buffers as prefixes *)

Lemma stream_words_app a b : stream_words (a ++ b) = stream_words a ++ stream_words b.
Proof. unfold stream_words. by rewrite map_app, concat_app. Qed.

Lemma stream_words_1 a : stream_words [a] = access_words a.
Proof. unfold stream_words. cbn. by rewrite app_nil_r. Qed.

Lemma blit_prefix (ws rest xs : list Z) :
  (length xs <= length rest)%nat ->
  blit (ws ++ rest) (len ws) xs = ws ++ xs ++ drop (length xs) rest.
Proof.
  intros H. apply list_eq. intros i. unfold blit, len. rewrite Nat2Z.id.
  destruct (decide (i < length ws)%nat).
  { rewrite list_lookup_inserts_lt, !lookup_app_l by lia. done. }
  rewrite (lookup_app_r ws (xs ++ _)) by lia.
  destruct (decide (i - length ws < length xs)%nat).
  - rewrite list_lookup_inserts by (rewrite ?length_app; lia). rewrite lookup_app_l by lia. done.
  - rewrite list_lookup_inserts_ge, !lookup_app_r, lookup_drop by lia. f_equal. lia.
Qed.

Lemma wr_middle (ws : list Z) x y rest i :
  i = len ws -> wr (ws ++ x :: rest) i y = ws ++ y :: rest.
Proof.
  intros ->. unfold wr, len. rewrite Nat2Z.id.
  rewrite insert_app_r_alt by lia. by rewrite Nat.sub_diag.
Qed.

Lemma rd_middle (ws : list Z) x rest i : i = len ws -> rd (ws ++ x :: rest) i = x.
Proof. intros ->. unfold rd, len. rewrite Nat2Z.id. by rewrite list_lookup_middle. Qed.

Lemma len_write_access sid a : write_access sid a -> len (a_data a) = a_beats a.
Proof. intros H. rewrite (ok_data a (wa_ok sid a H)), (wa_op sid a H). done. Qed.

Lemma len_words_write sid a : write_access sid a -> len (access_words a) = 2 + a_beats a.
Proof. intros H. unfold access_words. rewrite !len_cons, (len_write_access sid a H). lia. Qed.

(** Reading back the header of the last access. *)
Lemma ctrl_fields_of addr beats op ret :
  0 <= addr < 2 ^ 20 -> 1 <= beats <= 4 -> 0 <= op < 4 -> 0 <= ret < 2 ^ 5 ->
  let w := cpe_ctrl_word (ctrl_val addr beats op ret) in
  (w & 0xFFFFF) = addr /\ ((w >> 20) & 0x3) +u32 1 = beats.
Proof.
  intros H1 H2 H3 H4 w. pose proof (parse_ctrl_word addr beats op ret H1 H2 H3 H4) as E. fold w in E.
  split; [exact (f_equal cf_addr E)|exact (f_equal cf_beats E)].
Qed.

Lemma ctrl_or_beats addr n :
  0 <= addr < 2 ^ 20 -> 0 <= n < 4 -> Z.lor addr (u32 (Z.shiftl n 20)) = ctrl_val addr (n + 1) OP_WRITE 0.
Proof.
  intros Ha Hn. rewrite u32_small by (rewrite Z.shiftl_mul_pow2 by lia; lia).
  rewrite lor_shift by lia. unfold ctrl_val, OP_WRITE. lia.
Qed.

Lemma ctrl_or_ack addr :
  0 <= addr < 2 ^ 20 -> Z.lor addr (u32 (Z.shiftl 0x2 22)) = ctrl_val addr 1 OP_WRITE_RET 0.
Proof.
  intros Ha. change (u32 (Z.shiftl 2 22)) with (Z.shiftl 2 22). rewrite lor_shift by lia.
  unfold ctrl_val, OP_WRITE_RET. lia.
Qed.

Lemma ctrl_plain off : cpe_ctrl_word (off & 0xFFFFF) = cpe_ctrl_word (ctrl_val (off mod 2 ^ 20) 1 OP_WRITE 0).
Proof. change 0xFFFFF with (2 ^ 20 - 1). rewrite land_low by lia. f_equal. unfold ctrl_val, OP_WRITE. lia. Qed.

Lemma to_boundary a : 0 <= a < 2 ^ 20 ->
  cpe_words_to_boundary a <= 4 /\ (a mod 4 = 0 -> a mod 16 + 4 * cpe_words_to_boundary a = 16).
Proof.
  intros H. unfold cpe_words_to_boundary. change 0xF with (2 ^ 4 - 1). rewrite land_low by lia.
  change (2 ^ 4) with 16. rewrite u32_small by (Z.div_mod_to_equations; lia).
  unfold z2b. destruct ((16 - a mod 16) / 4 =? 0) eqn:E; cbn [negb]; Z.div_mod_to_equations; lia.
Qed.

Lemma fresh_write_ok sid off v : write_access sid (fresh_write sid off v).
Proof.
  split; [constructor|..]; cbn -[Z.land Z.modulo]; try (unfold OP_WRITE; lia); try done.
  - apply sid_land_range.
  - apply Z.mod_pos_bound. lia.
  - intros. Z.div_mod_to_equations. lia.
Qed.

Lemma extend_ok sid a off v :
  write_access sid a -> merges a off = true -> write_access sid (extend a v).
Proof.
  intros [[Hs Ha Ho Hr Hb Hd] Hsid Hop Hret Hl] Hm. unfold merges in Hm.
  apply andb_prop in Hm as [_ Hm]. destruct (to_boundary (a_addr a) Ha) as [Hb4 Hal].
  split; [constructor|..]; cbn [extend a_sid a_addr a_op a_ret a_beats a_data]; try done; try lia.
  rewrite len_app, Hd, Hop. done.
Qed.

(** ** One write *)

Lemma spells_split sid s p accs :
  spells sid s p accs -> exists rest, p = stream_words accs ++ rest /\ len p = seg_pw s + len rest.
Proof.
  intros [Hw Hp _ _]. exists (drop (length (stream_words accs)) p).
  assert (p = stream_words accs ++ drop (length (stream_words accs)) p) as E
    by (rewrite <- Hw at 1; by rewrite take_drop).
  split; [done|]. rewrite Hp. rewrite E at 1. apply len_app.
Qed.

Lemma spells_intro sid ws rest last lctrl accs :
  ws = stream_words accs ->
  last = match list.last accs with None => RT_CPE_NONE | Some a => len ws - a_beats a - 1 end ->
  Forall (write_access sid) accs ->
  spells sid (Seg (len ws) last lctrl) (ws ++ rest) accs.
Proof.
  intros -> -> H. split; cbn [seg_pw seg_last]; [by rewrite take_app_length|done|done|done].
Qed.

Lemma last_split {A} (l : list A) a : last l = Some a -> l = take (length l - 1) l ++ [a].
Proof.
  intros H. apply last_Some in H as [l' ->]. rewrite length_app. cbn [length].
  replace (length l' + 1 - 1)%nat with (length l') by lia. by rewrite take_app_length.
Qed.

Lemma seg_push_fresh sid s p accs cap off v :
  spells sid s p accs -> seg_pw s + 5 <= cap <= len p -> cap < 2 ^ 32 - 8 ->
  let p := wr p (seg_pw s) (cpe_stream_hdr sid) in
  let p := wr p (seg_pw s + 1) (cpe_ctrl_word (off & 0xFFFFF)) in
  let p := wr p (seg_pw s + 1 + 1) v in
  spells sid (Seg (seg_pw s + 1 + 2) (seg_pw s + 1) (seg_last_ctrl s)) p
    (accs ++ [fresh_write sid off v]).
Proof.
  intros Hs Hc Hcap. cbv zeta. destruct (spells_split sid s p accs Hs) as (rest & -> & Hl).
  destruct Hs as [_ Hpw _ Hf].
  assert (access_words (fresh_write sid off v) =
          [cpe_stream_hdr sid; cpe_ctrl_word (off & 0xFFFFF); v]) as Ea.
  { rewrite ctrl_plain. unfold access_words, fresh_write. cbn [a_sid a_addr a_op a_ret a_beats a_data].
    by rewrite stream_hdr_land. }
  destruct rest as [|r0 [|r1 [|r2 rest]]]; try (exfalso; rewrite ?len_cons, ?len_nil in Hl; rewrite ?(@len_nil Z) in Hl; lia).
  rewrite wr_middle by done. change (?a ++ ?x :: ?y :: ?l) with (a ++ [x] ++ y :: l).
  rewrite app_assoc, wr_middle by (rewrite len_app; change (len [_]) with 1; lia).
  rewrite <- app_assoc. change ([?x] ++ ?y :: ?z :: ?l) with ([x; y] ++ z :: l).
  rewrite app_assoc, wr_middle by (rewrite len_app; change (len [_; _]) with 2; lia).
  rewrite <- app_assoc. change ([?x; ?y] ++ ?z :: ?l) with ([x; y; z] ++ l). rewrite app_assoc, <- Ea.
  assert (stream_words accs ++ access_words (fresh_write sid off v) =
          stream_words (accs ++ [fresh_write sid off v])) as Ew
    by (by rewrite stream_words_app, stream_words_1).
  assert (len (stream_words accs ++ access_words (fresh_write sid off v)) = seg_pw s + 1 + 2) as L.
  { rewrite len_app, Ea. change (len [_; _; _]) with 3. lia. }
  rewrite <- L. apply spells_intro; [done| |].
  - rewrite last_snoc. cbn [a_beats fresh_write]. lia.
  - apply Forall_app. split; [done|]. constructor; [apply fresh_write_ok|constructor].
Qed.

Lemma seg_push_extend sid s p accs a cap off v :
  spells sid s p accs -> last accs = Some a -> merges a off = true ->
  seg_pw s + 5 <= cap <= len p ->
  let p := wr p (seg_last s) (cpe_ctrl_word (ctrl_val (a_addr a) (a_beats a + 1) OP_WRITE 0)) in
  let p := wr p (seg_pw s) v in
  spells sid (Seg (seg_pw s + 1) (seg_last s) (seg_last_ctrl s)) p
    (take (length accs - 1) accs ++ [extend a v]).
Proof.
  intros Hs Hla Hm Hc. cbv zeta. destruct (spells_split sid s p accs Hs) as (rest & -> & Hl).
  destruct Hs as [_ Hpw Hlast Hf]. rewrite Hla in Hlast.
  pose proof (last_split accs a Hla) as Eacc. set (init := take (length accs - 1) accs) in *.
  assert (write_access sid a) as Ha by (rewrite Eacc in Hf; by apply Forall_app in Hf as [_ [? _]%Forall_cons]).
  assert (Forall (write_access sid) init) as Hi by (by apply Forall_take).
  pose proof (len_write_access sid a Ha) as Ld. pose proof (ok_beats a (wa_ok sid a Ha)) as Hb.
  assert (stream_words accs = stream_words init ++ access_words a) as Ew
    by (by rewrite Eacc, stream_words_app, stream_words_1).
  rewrite Ew in *. rewrite len_app, (len_words_write sid a Ha) in Hpw.
  destruct rest as [|r0 rest]; [exfalso; rewrite (@len_nil Z) in Hl; lia|].
  unfold access_words at 1. rewrite <- app_assoc. cbn [app].
  change (?a ++ ?x :: ?y :: ?l) with (a ++ [x] ++ y :: l).
  rewrite app_assoc, wr_middle by (rewrite len_app; change (len [_]) with 1; lia).
  rewrite <- app_assoc. change ([?x] ++ ?y :: ?l) with (x :: y :: l).
  change (?x :: ?y :: a_data a ++ ?l) with ((x :: y :: a_data a) ++ l).
  rewrite app_assoc, wr_middle by (rewrite len_app, !len_cons; lia).
  rewrite <- app_assoc. cbn [app].
  assert (access_words (extend a v) = cpe_stream_hdr (a_sid a) ::
            cpe_ctrl_word (ctrl_val (a_addr a) (a_beats a + 1) OP_WRITE 0) :: a_data a ++ [v]) as Ea.
  { unfold access_words, extend. cbn [a_sid a_addr a_op a_ret a_beats a_data].
    by rewrite (wa_op sid a Ha), (wa_ret sid a Ha). }
  match goal with |- context [stream_words init ++ ?l] =>
    replace l with (access_words (extend a v) ++ rest) by (rewrite Ea; cbn [app]; by rewrite <- app_assoc) end.
  rewrite app_assoc.
  assert (stream_words init ++ access_words (extend a v) = stream_words (init ++ [extend a v])) as Ew2
    by (by rewrite stream_words_app, stream_words_1).
  assert (len (stream_words init ++ access_words (extend a v)) = seg_pw s + 1) as L.
  { rewrite len_app, Ea, !len_cons, len_app. change (len [v]) with 1. lia. }
  rewrite <- L. apply spells_intro; [done| |].
  - rewrite last_snoc. cbn [a_beats extend]. lia.
  - apply Forall_app. split; [done|]. constructor; [by eapply extend_ok|constructor].
Qed.

Lemma rd_last_ctrl sid s p accs a :
  spells sid s p accs -> last accs = Some a ->
  rd p (seg_last s) = cpe_ctrl_word (ctrl_val (a_addr a) (a_beats a) (a_op a) (a_ret a)) /\
  rd p (seg_last s - 1) = cpe_stream_hdr sid /\ write_access sid a /\
  0 <= seg_last s - 1 /\ seg_last s < seg_pw s.
Proof.
  intros Hs Hla. destruct (spells_split sid s p accs Hs) as (rest & -> & Hl).
  destruct Hs as [_ Hpw Hlast Hf]. rewrite Hla in Hlast.
  pose proof (last_split accs a Hla) as Eacc. set (init := take (length accs - 1) accs) in *.
  assert (write_access sid a) as Ha by (rewrite Eacc in Hf; by apply Forall_app in Hf as [_ [? _]%Forall_cons]).
  assert (stream_words accs = stream_words init ++ access_words a) as Ew
    by (by rewrite Eacc, stream_words_app, stream_words_1).
  rewrite Ew, len_app, (len_words_write sid a Ha) in *. pose proof (ok_beats a (wa_ok sid a Ha)).
  pose proof (len_nonneg (stream_words init)). unfold access_words. rewrite <- app_assoc. cbn [app].
  split_and!; [| |done|lia|lia].
  - change (?a ++ ?x :: ?y :: ?l) with (a ++ [x] ++ y :: l). rewrite app_assoc.
    rewrite rd_middle; [done|]. rewrite len_app. change (len [_]) with 1. lia.
  - rewrite rd_middle by lia. by rewrite (wa_sid sid a Ha), stream_hdr_land.
Qed.

(** One iteration: it needs room for five words, and otherwise fails without
    changing anything. *)
Lemma seg_push_spec sid s p accs cap off v :
  spells sid s p accs -> cap <= len p -> len p < 2 ^ 32 - 8 ->
  if seg_pw s + 5 <=? cap then
    exists s' p', cpe_seg_push (cpe_stream_hdr sid) cap off v (s, p) = ((s', p'), Ok tt) /\
      spells sid s' p' (add_write sid accs off v) /\ length p' = length p /\
      seg_pw s' <= seg_pw s + 3
  else cpe_seg_push (cpe_stream_hdr sid) cap off v (s, p) = ((s, p), Err (RetCode (-1))).
Proof.
  intros Hs Hc Hcap. unfold cpe_seg_push. pose proof (len_nonneg (stream_words accs)) as H0.
  pose proof (sp_pw _ _ _ _ Hs) as Hpw. pose proof (sp_last _ _ _ _ Hs) as Hlast.
  destruct (spells_split sid s p accs Hs) as (rest & Ep & L). pose proof (len_nonneg rest).
  rewrite (u32_small (seg_pw s + 5)), (u32_small (seg_pw s + 1)), (u32_small (seg_pw s + 1 + 1)),
    (u32_small (seg_pw s + 1 + 2)) by lia.
  destruct (Z.leb_spec (seg_pw s + 5) cap) as [Hr|Hr].
  2: { by replace (_ >? cap) with true by lia. }
  replace (seg_pw s + 5 >? cap) with false by lia.
  pose proof (seg_push_fresh sid s p accs cap off v Hs ltac:(lia) ltac:(lia)) as Hfresh. cbv zeta in Hfresh.
  assert (exists s' p', ((Seg (seg_pw s + 1 + 2) (seg_pw s + 1) (seg_last_ctrl s),
     wr (wr (wr p (seg_pw s) (cpe_stream_hdr sid)) (seg_pw s + 1) (cpe_ctrl_word (off & 0xFFFFF)))
       (seg_pw s + 1 + 1) v), Ok tt) = ((s', p'), @Ok stop unit tt) /\
     spells sid s' p' (accs ++ [fresh_write sid off v]) /\ length p' = length p /\ seg_pw s' <= seg_pw s + 3)
    as Hnew.
  { eexists _, _. split_and!; [done|exact Hfresh|unfold wr; by rewrite !length_insert|cbn; lia]. }
  clear Hfresh. unfold add_write. destruct (last accs) as [a|] eqn:Hla.
  2: { rewrite Hlast. cbn [Z.eqb negb]. apply last_None in Hla. subst accs. exact Hnew. }
  destruct (rd_last_ctrl sid s p accs a Hs Hla) as (Er & _ & Ha & Hlo & Hhi).
  replace (seg_last s =? RT_CPE_NONE) with false by (unfold RT_CPE_NONE; lia). cbn [negb].
  rewrite Er. pose proof (wa_ok sid a Ha) as [Hs1 Ha1 Ho1 Hr1 Hb1 _].
  destruct (ctrl_fields_of (a_addr a) (a_beats a) (a_op a) (a_ret a)) as [-> ->]; [lia..|].
  change ((off =? _) && _) with (merges a off). destruct (merges a off) eqn:Hm; [|exact Hnew].
  clear Hnew. pose proof (seg_push_extend sid s p accs a cap off v Hs Hla Hm ltac:(lia)) as Hext. cbv zeta in Hext.
  unfold merges in Hm. destruct (to_boundary (a_addr a) Ha1) as [Hb4 _].
  rewrite ctrl_or_beats by lia.
  eexists _, _. split_and!; [done|exact Hext|unfold wr; by rewrite !length_insert|cbn; lia].
Qed.

(** ** Many writes *)

Fixpoint add_writes (sid : Z) (accs : list access) (off : Z) (data : list Z) : list access :=
  match data with
  | [] => accs
  | v :: data => add_writes sid (add_write sid accs off v) (off +u32 4) data
  end.

Lemma run_add_write sid accs off v m a :
  Forall (write_access sid) accs -> 0 <= off < 2 ^ 20 ->
  run_accesses m (add_write sid accs off v) a = store_words (run_accesses m accs) off [v] a.
Proof.
  intros Hf Hoff. unfold add_write.
  assert (forall m, run_accesses m [fresh_write sid off v] = store_words m off [v]) as Hfresh.
  { intros m0. unfold run_accesses, fresh_write. cbn [foldl]. unfold run_access. cbn [a_op a_addr a_data].
    by rewrite Z.mod_small by lia. }
  destruct (last accs) as [x|] eqn:Hla.
  2: { apply last_None in Hla. subst. by rewrite Hfresh. }
  destruct (merges x off) eqn:Hm; [|by rewrite run_accesses_app, Hfresh].
  pose proof (last_split accs x Hla) as E. set (init := take (length accs - 1) accs) in *.
  assert (write_access sid x) as Hx by (rewrite E in Hf; by apply Forall_app in Hf as [_ [? _]%Forall_cons]).
  pose proof (len_write_access sid x Hx) as Ld. pose proof (wa_ok sid x Hx) as [_ Ha _ _ Hb _].
  rewrite E, !run_accesses_app. set (m1 := run_accesses m init).
  unfold run_accesses. cbn [foldl]. unfold run_access. cbn [extend a_op a_addr a_data].
  rewrite (wa_op sid x Hx). change (OP_WRITE =? OP_READ) with false. cbn match.
  rewrite <- store_words_app, Ld. unfold merges in Hm. revert Hm. unwrap. intros Hm.
  replace off with (a_addr x + 4 * a_beats x) by lia. done.
Qed.

Lemma add_write_ok sid accs off v :
  Forall (write_access sid) accs -> Forall (write_access sid) (add_write sid accs off v).
Proof.
  intros Hf. unfold add_write. pose proof (fresh_write_ok sid off v).
  destruct (last accs) as [x|] eqn:Hla; [|by apply Forall_singleton].
  pose proof (last_split accs x Hla) as E.
  assert (write_access sid x) by (rewrite E in Hf; by apply Forall_app in Hf as [_ [? _]%Forall_cons]).
  destruct (merges x off) eqn:Hm; apply Forall_app; (split; [|apply Forall_singleton]).
  - by apply Forall_take.
  - by eapply extend_ok.
  - done.
  - done.
Qed.

Lemma run_add_writes sid data : forall accs off m a,
  Forall (write_access sid) accs -> 0 <= off -> off + 4 * len data <= 2 ^ 20 ->
  run_accesses m (add_writes sid accs off data) a = store_words (run_accesses m accs) off data a.
Proof.
  induction data as [|v data IH]; intros accs off m a Hf Ho Hl; cbn [add_writes].
  { by rewrite store_words_nil. }
  rewrite len_cons in Hl. pose proof (len_nonneg data). rewrite u32_small by lia.
  rewrite IH by (try apply add_write_ok; try done; lia).
  rewrite (store_words_ext _ (store_words (run_accesses m accs) off [v]))
    by (intros b; apply run_add_write; [done|lia]).
  replace (off + 4) with (off + 4 * len [v]) by done. by rewrite store_words_app.
Qed.

(** The loop: on success the whole block is appended; on failure what was
    appended before the failure stays. *)
Lemma seg_write_loop_spec sid cap data : forall s p accs off,
  spells sid s p accs -> cap <= len p -> len p < 2 ^ 32 - 8 ->
  0 <= off -> off + 4 * len data <= 2 ^ 20 ->
  exists s' p' k rc,
    cpe_seg_write_loop (cpe_stream_hdr sid) cap off data (s, p) = ((s', p'), rc) /\
    spells sid s' p' (add_writes sid accs off (take k data)) /\ length p' = length p /\
    seg_pw s' + 2 <= Z.max cap (seg_pw s + 2) /\
    ((rc = Ok tt /\ k = length data) \/
     (rc = Err (RetCode (-1)) /\ (k < length data)%nat /\ cap < seg_pw s' + 5)).
Proof.
  induction data as [|v data IH]; intros s p accs off Hs Hc Hl Ho Hoff; cbn [cpe_seg_write_loop].
  { exists s, p, 0%nat, (Ok tt). split_and!; [done..|lia|]. by left. }
  rewrite len_cons in Hoff. pose proof (len_nonneg data).
  pose proof (seg_push_spec sid s p accs cap off v Hs Hc Hl) as Hp.
  destruct (Z.leb_spec (seg_pw s + 5) cap) as [Hr|Hr].
  2: { exists s, p, 0%nat, (Err (RetCode (-1))). split_and!; [by erewrite bind_Err|done|done|lia|].
       right. split_and!; [done|cbn; lia|lia]. }
  destruct Hp as (s1 & p1 & E & Hs1 & L1 & Hpw1). erewrite bind_Ok by exact E.
  rewrite u32_small by lia.
  destruct (IH s1 p1 (add_write sid accs off v) (off + 4) Hs1) as (s' & p' & k & rc & E' & Hs' & L' & Hpw' & Hrc);
    [unfold len in *; lia..|].
  exists s', p', (S k), rc. cbn [take add_writes]. rewrite u32_small by lia.
  split_and!; [done|done|congruence|lia|]. destruct Hrc as [[-> ->]|(-> & Hk & Hcap)]; [by left|].
  right. split_and!; [done|cbn; lia|done].
Qed.

(** ** Finishing a segment *)

Lemma acked_ok sid accs : Forall (write_access sid) accs -> Forall access_ok (acked sid accs).
Proof.
  intros Hf. unfold acked. destruct (last accs) as [a|] eqn:Hla; [|constructor].
  pose proof (last_split accs a Hla) as E.
  assert (write_access sid a) as Ha by (rewrite E in Hf; by apply Forall_app in Hf as [_ [? _]%Forall_cons]).
  pose proof (len_write_access sid a Ha) as Ld. destruct (wa_ok sid a Ha) as [Hs Haa _ _ Hb _].
  rewrite !Forall_app. split_and!.
  - apply Forall_take. eapply Forall_impl; [exact Hf|]. by intros x Hx%wa_ok.
  - destruct (Nat.eqb_spec (length (a_data a) - 1) 0) as [En|En]; [constructor|]. apply Forall_singleton.
    constructor; cbn [a_sid a_addr a_op a_ret a_beats a_data]; unfold OP_WRITE; try done; try lia;
      try (unfold len in Ld; lia). cbn. unfold len in *. rewrite length_take. lia.
  - apply Forall_singleton.
    constructor; cbn [a_sid a_addr a_op a_ret a_beats a_data]; unfold OP_WRITE_RET; try done; try lia.
    + apply Z.mod_pos_bound. lia.
    + cbn. unfold len in *. rewrite length_drop. lia.
Qed.

Lemma run_acked sid accs m x :
  Forall (write_access sid) accs ->
  (forall a, last accs = Some a -> a_addr a + 4 * a_beats a <= 2 ^ 20) ->
  run_accesses m (acked sid accs) x = run_accesses m accs x.
Proof.
  intros Hf Hin. unfold acked. destruct (last accs) as [a|] eqn:Hla.
  2: { apply last_None in Hla. by subst. }
  pose proof (last_split accs a Hla) as E. specialize (Hin a eq_refl).
  assert (write_access sid a) as Ha by (rewrite E in Hf; by apply Forall_app in Hf as [_ [? _]%Forall_cons]).
  pose proof (len_write_access sid a Ha) as Ld. destruct (wa_ok sid a Ha) as [Hs Haa _ _ Hb _].
  set (init := take (length accs - 1) accs) in *. clearbody init. rewrite E, !run_accesses_app.
  set (m1 := run_accesses m init).
  assert (run_accesses m1 [a] = store_words m1 (a_addr a) (a_data a)) as ->.
  { unfold run_accesses. cbn [foldl]. unfold run_access. by rewrite (wa_op sid a Ha). }
  set (n := (length (a_data a) - 1)%nat) in *.
  assert (len (take n (a_data a)) = a_beats a - 1) as Lt by (unfold len in *; rewrite length_take; lia).
  assert (forall m0, run_accesses m0 [Acc (a_sid a) ((a_addr a + 4 * (a_beats a - 1)) mod 2 ^ 20) OP_WRITE_RET 0 1
       (drop n (a_data a))] = store_words m0 (a_addr a + 4 * (a_beats a - 1)) (drop n (a_data a))) as Eret.
  { intros m0. unfold run_accesses. cbn [foldl]. unfold run_access. cbn [a_op a_addr a_data].
    by rewrite Z.mod_small by lia. }
  rewrite Eret. rewrite <- (take_drop n (a_data a)) at 3. rewrite <- store_words_app, Lt.
  destruct (Nat.eqb_spec n 0) as [En|En]; [|done].
  rewrite En. apply store_words_ext. intros b. cbn [take]. by rewrite store_words_nil.
Qed.

(** The stores of [rt_cpe_seg_finish] when the last packet has several words. *)
Lemma finish_stores ws h c ds w r0 r1 rest c1 c2 p last pw :
  p = ws ++ h :: c :: (ds ++ [w]) ++ r0 :: r1 :: rest -> last = len ws + 1 -> pw = len ws + 3 + len ds ->
  let p1 := wr p last c1 in
  wr (wr (wr (wr p1 (pw - 1) (rd p1 (last - 1))) pw 0) (pw + 1) (rd p (pw - 1))) pw c2 =
  ws ++ (h :: c1 :: ds) ++ [h; c2; w] ++ rest.
Proof.
  intros -> -> ->. cbv zeta. pose proof (len_nonneg ds).
  assert (rd (ws ++ h :: c :: (ds ++ [w]) ++ r0 :: r1 :: rest) (len ws + 3 + len ds - 1) = w) as ->.
  { replace (ws ++ h :: c :: (ds ++ [w]) ++ r0 :: r1 :: rest) with ((ws ++ h :: c :: ds) ++ w :: r0 :: r1 :: rest)
      by (repeat (rewrite <- app_assoc; cbn [app]); done).
    apply rd_middle. rewrite len_app, !len_cons. lia. }
  assert (wr (ws ++ h :: c :: (ds ++ [w]) ++ r0 :: r1 :: rest) (len ws + 1) c1 =
          (ws ++ h :: c1 :: ds) ++ w :: r0 :: r1 :: rest) as ->.
  { change (ws ++ h :: c :: ?l) with (ws ++ [h] ++ c :: l). rewrite app_assoc.
    rewrite wr_middle by (rewrite len_app; done). repeat (rewrite <- app_assoc; cbn [app]). done. }
  assert (rd ((ws ++ h :: c1 :: ds) ++ w :: r0 :: r1 :: rest) (len ws + 1 - 1) = h) as ->.
  { rewrite <- app_assoc. cbn [app]. apply rd_middle. lia. }
  set (a := ws ++ h :: c1 :: ds). assert (len a = len ws + 2 + len ds) as La
    by (subst a; rewrite len_app, !len_cons; lia).
  rewrite (wr_middle a) by lia.
  change (a ++ h :: r0 :: ?l) with (a ++ [h] ++ r0 :: l). rewrite (app_assoc a).
  rewrite wr_middle by (rewrite len_app; change (len [_]) with 1; lia).
  rewrite <- (app_assoc a). change ([h] ++ 0 :: r1 :: rest) with ([h; 0] ++ r1 :: rest). rewrite (app_assoc a).
  rewrite wr_middle by (rewrite len_app; change (len [_; _]) with 2; lia).
  rewrite <- (app_assoc a). change ([h; 0] ++ w :: rest) with ([h] ++ 0 :: w :: rest). rewrite (app_assoc a).
  rewrite wr_middle by (rewrite len_app; change (len [_]) with 1; lia).
  subst a. rewrite <- !app_assoc. done.
Qed.

Lemma seg_finish_spec sid s p accs :
  spells sid s p accs -> accs <> [] -> seg_pw s + 2 <= len p -> len p < 2 ^ 32 - 8 ->
  exists s' p' n, rt_cpe_seg_finish s p = (s', p', n) /\ n = len (stream_words (acked sid accs)) /\
    take (Z.to_nat n) p' = stream_words (acked sid accs) /\ length p' = length p.
Proof.
  intros Hs Hne Hc Hl. destruct (last accs) as [a|] eqn:Hla; [|by apply last_None in Hla].
  destruct (rd_last_ctrl sid s p accs a Hs Hla) as (Er & Eh & Ha & Hlo & Hhi).
  destruct (spells_split sid s p accs Hs) as (rest & Ep & L).
  pose proof (sp_pw _ _ _ _ Hs) as Hpw. pose proof (sp_last _ _ _ _ Hs) as Hlast. rewrite Hla in Hlast.
  pose proof (last_split accs a Hla) as Eacc. set (init := take (length accs - 1) accs) in *.
  pose proof (len_write_access sid a Ha) as Ld. destruct (wa_ok sid a Ha) as [Hs1 Ha1 Ho1 Hr1 Hb1 _].
  unfold rt_cpe_seg_finish. replace (seg_last s =? RT_CPE_NONE) with false by (unfold RT_CPE_NONE; lia).
  rewrite (u32_small (seg_last s - 1)), (u32_small (seg_pw s - 1)) by lia.
  rewrite Er. destruct (ctrl_fields_of (a_addr a) (a_beats a) (a_op a) (a_ret a)) as [-> ->]; [lia..|].
  unfold acked. rewrite Hla. fold init.
  assert (p = stream_words init ++ cpe_stream_hdr sid ::
    cpe_ctrl_word (ctrl_val (a_addr a) (a_beats a) (a_op a) (a_ret a)) :: a_data a ++ rest) as Ep2.
  { rewrite Ep, Eacc, stream_words_app, stream_words_1, <- app_assoc. unfold access_words.
    by rewrite (wa_sid sid a Ha), stream_hdr_land. }
  assert (seg_pw s = len (stream_words init) + 2 + a_beats a) as Epw.
  { rewrite Hpw, Eacc, stream_words_app, stream_words_1, len_app, (len_words_write sid a Ha). lia. }
  pose proof (len_nonneg (stream_words init)).
  rewrite stream_words_app, !len_app. destruct (Z.gtb_spec (a_beats a) 1) as [Hgt|Hle].
  - (* the last word becomes a packet of its own *)
    destruct (a_data a) as [|d0 ds0] eqn:Ed0; [rewrite (@len_nil Z) in Ld; lia|].
    destruct (exists_last (l := d0 :: ds0)) as (ds & w & Ed); [done|]. rewrite Ed in *. clear d0 ds0 Ed.
    rewrite len_app in Ld. change (len [w]) with 1 in Ld.
    destruct rest as [|r0 [|r1 rest]]; [rewrite ?len_cons, (@len_nil Z) in L; lia..|].
    rewrite length_app. cbn [length]. replace (length ds + 1 - 1)%nat with (length ds) by lia.
    replace (length ds =? 0)%nat with false by (symmetry; apply Nat.eqb_neq; unfold len in Ld; lia).
    rewrite take_app_length, drop_app_length, stream_words_app, !stream_words_1.
    set (h := cpe_stream_hdr sid) in *.
    set (c := cpe_ctrl_word (ctrl_val (a_addr a) (a_beats a) (a_op a) (a_ret a))) in *.
    rewrite (u32_small (a_beats a - 2)), (u32_small (a_beats a - 1)), (u32_small (4 * (a_beats a - 1))),
      (u32_small (a_addr a + 4 * (a_beats a - 1))), (u32_small (seg_pw s + 1)), (u32_small (seg_pw s + 2)) by lia.
    cbn [seg_pw seg_last]. change 0xFFFFF with (2 ^ 20 - 1). rewrite land_low by lia.
    rewrite ctrl_or_beats, ctrl_or_ack by (try apply Z.mod_pos_bound; lia).
    replace (a_beats a - 2 + 1) with (a_beats a - 1) by lia.
    eexists _, _, _. split; [reflexivity|].
    rewrite (finish_stores (stream_words init) h c ds w r0 r1 rest _ _ p) by (done || lia).
    unfold access_words. cbn [a_sid a_addr a_op a_ret a_beats a_data].
    rewrite (wa_sid sid a Ha), stream_hdr_land. fold h. split_and!.
    + rewrite !len_app, !len_cons, (@len_nil Z). lia.
    + rewrite Epw, !app_assoc. rewrite take_app_length'; [by rewrite <- !app_assoc|].
      rewrite !length_app. cbn [length]. unfold len in *. lia.
    + rewrite Ep2. rewrite !length_app. cbn [length app]. rewrite !length_app. cbn [length]. lia.
  - assert (a_beats a = 1) as Eb by lia. destruct (a_data a) as [|w [|]] eqn:Ed;
      rewrite ?len_cons, ?(@len_nil Z) in Ld; [lia| |pose proof (len_nonneg l); lia].
    cbn [length Nat.sub Nat.eqb app]. rewrite stream_words_1, Eb, Z.sub_diag, Z.mul_0_r, Z.add_0_r, ctrl_or_ack by lia.
    rewrite Z.mod_small by lia.
    eexists _, _, _. split; [reflexivity|]. rewrite Ep2.
    change (?x ++ ?h :: ?c :: ?l) with (x ++ [h] ++ c :: l).
    rewrite app_assoc, wr_middle by (rewrite len_app; change (len [_]) with 1; lia).
    unfold access_words. cbn [a_sid a_addr a_op a_ret a_beats a_data drop].
    rewrite (wa_sid sid a Ha), stream_hdr_land. split_and!.
    + rewrite !len_cons, (@len_nil Z). lia.
    + rewrite Epw. rewrite <- app_assoc. cbn [app].
      replace (Z.to_nat _) with (length (stream_words init ++ [cpe_stream_hdr sid; cpe_ctrl_word (ctrl_val (a_addr a) 1 OP_WRITE_RET 0); w]))
        by (rewrite length_app; unfold len in *; cbn [length]; lia).
      change (stream_words init ++ ?x :: ?y :: w :: rest) with (stream_words init ++ [x; y; w] ++ rest).
      by rewrite app_assoc, take_app_length.
    + rewrite <- app_assoc, !length_app. cbn [length app]. rewrite ?length_app. lia.
Qed.

(** ** Properties *)

(** Whether the last access stays in the address range of a header. *)
Lemma add_writes_ok sid data : forall accs off,
  Forall (write_access sid) accs -> Forall (write_access sid) (add_writes sid accs off data).
Proof. induction data as [|v data IH]; intros accs off Hf; [done|]. cbn. by apply IH, add_write_ok. Qed.

(** The addresses an access list writes stay below [2^20]. *)
Definition below (accs : list access) : Prop := Forall (fun a => a_addr a + 4 * a_beats a <= 2 ^ 20) accs.

Lemma add_write_below sid accs off v :
  Forall (write_access sid) accs -> below accs -> 0 <= off -> off + 4 <= 2 ^ 20 -> below (add_write sid accs off v).
Proof.
  intros Hf Hb Ho Hl. unfold below, add_write.
  assert (a_addr (fresh_write sid off v) + 4 * a_beats (fresh_write sid off v) <= 2 ^ 20) as Hfr
    by (cbn [fresh_write a_addr a_beats]; rewrite Z.mod_small; lia).
  destruct (last accs) as [x|] eqn:Hla; [|by apply Forall_singleton].
  pose proof (last_split accs x Hla) as E.
  assert (write_access sid x) as Hx by (rewrite E in Hf; by apply Forall_app in Hf as [_ [? _]%Forall_cons]).
  destruct (wa_ok sid x Hx) as [_ Ha _ _ Hb1 _].
  destruct (merges x off) eqn:Hm; apply Forall_app; (split; [|apply Forall_singleton]).
  - by apply Forall_take.
  - cbn [extend a_addr a_beats]. unfold merges in Hm. revert Hm. unwrap. lia.
  - done.
  - done.
Qed.

Lemma add_writes_below sid data : forall accs off,
  Forall (write_access sid) accs -> below accs -> 0 <= off -> off + 4 * len data <= 2 ^ 20 ->
  below (add_writes sid accs off data).
Proof.
  induction data as [|v data IH]; intros accs off Hf Hb Ho Hl; [done|]. cbn [add_writes].
  rewrite len_cons in Hl. pose proof (len_nonneg data). rewrite u32_small by lia.
  apply IH; [by apply add_write_ok|apply add_write_below; [done..|lia]|lia|lia].
Qed.

Lemma add_writes_nonnil sid data : forall accs off, data <> [] \/ accs <> [] -> add_writes sid accs off data <> [].
Proof.
  induction data as [|v data IH]; intros accs off H; cbn [add_writes]; [by destruct H|].
  apply IH. right. unfold add_write. destruct (last accs); [|done]. destruct (merges _ _); by destruct (take _ _) || destruct accs.
Qed.


