(* ===== verification/CtrlpktSplit.v ===== *)
(** * Broadcasting deferred register writes

    [rt_cpe_ret_split] decides, for a list of register writes to the tiles
    of a fabric, which offsets may be written by one broadcast instead of
    one write per tile.  The split is sound: the remaining single writes
    followed by the broadcasts leave every register as the original list
    would. *)

From stdpp Require Import base list list_numbers numbers gmap.
From S2P Require Import Prelude.
From S2P Require Import CtrlpktEncode.

Local Open Scope Z_scope.
Local Open Scope c_scope.

(** ** Specification *)

Definition tile_of (w : rt_cpe_wr) : Z * Z := (wr_col w, wr_row w).
Definition same_write (w w' : rt_cpe_wr) : Prop :=
  wr_col w = wr_col w' /\ wr_row w = wr_row w' /\ wr_off w = wr_off w' /\ wr_val w = wr_val w'.

(** The value of register [o] of tile [t] after single writes, and after
    broadcasts to [tiles]. *)
Definition after_writes (ws : list rt_cpe_wr) (x : Z) (t : Z * Z) (o : Z) : Z :=
  foldl (fun x w => if (wr_off w =? o) && bool_decide (tile_of w = t) then wr_val w else x) x ws.

Definition after_bcasts (bs : list (Z * Z)) (tiles : list (Z * Z)) (x : Z) (t : Z * Z) (o : Z) : Z :=
  foldl (fun x b => if (b.1 =? o) && bool_decide (t ∈ tiles) then b.2 else x) x bs.

(** Offset [o] is written once on [n] different tiles, always with [v]. *)
Definition at_off (o : Z) (ws : list rt_cpe_wr) : list rt_cpe_wr := filter (fun w => wr_off w = o) ws.

Definition uniform (ws : list rt_cpe_wr) (n o v : Z) : Prop :=
  Forall (fun w => wr_val w = v) (at_off o ws) /\ NoDup (map tile_of (at_off o ws)) /\
  len (at_off o ws) = n.

(** The tiles the masks can describe. *)
Definition tile_ok (w : rt_cpe_wr) : Prop := 0 <= wr_col w /\ 0 <= wr_row w.

(** ** The scan *)

Definition seen_has (seen : list Z) (t : Z * Z) : bool := Z.testbit (rd seen t.2) t.1.

Lemma odd_shiftr x n : 0 <= n -> Z.odd (x >> n) = Z.testbit x n.
Proof. intros. rewrite <- Z.bit0_odd, Z.shiftr_spec by lia. by rewrite Z.add_0_l. Qed.

Lemma seen_mark seen t t' :
  len seen = 17 -> 0 <= t.1 < 64 -> 0 <= t.2 <= 16 -> 0 <= t'.1 -> 0 <= t'.2 ->
  seen_has (wr seen t.2 (rd seen t.2 |' u64 (Z.shiftl 1 t.1))) t' =
  bool_decide (t = t') || seen_has seen t'.
Proof.
  intros Hl Hc Hr Hc' Hr'. unfold seen_has. rewrite rd_wr by lia.
  assert (u64 (Z.shiftl 1 t.1) = 2 ^ t.1) as ->.
  { rewrite Z.shiftl_1_l. apply u64_small. split; [lia|]. apply Z.pow_lt_mono_r; lia. }
  destruct t as [c r], t' as [c' r']. cbn [fst snd] in *.
  destruct (Z.eqb_spec r r') as [<-|Hne].
  - rewrite Z.lor_spec, Z.pow2_bits_eqb by lia. rewrite orb_comm. f_equal.
    case_bool_decide as E; [injection E as <-; apply Z.eqb_refl|].
    apply Z.eqb_neq. intros ->. done.
  - rewrite bool_decide_false by congruence. done.
Qed.

Lemma scan_spec a ws : forall seen hits h,
  Forall tile_ok ws -> len seen = 17 -> 0 <= hits -> hits + len ws < 2 ^ 32 ->
  cpe_ret_scan a ws seen hits = Some h ->
  let cls := at_off (wr_off a) ws in
  Forall (fun w => wr_val w = wr_val a) cls /\ NoDup (map tile_of cls) /\
  Forall (fun w => seen_has seen (tile_of w) = false) cls /\ h = hits + len cls.
Proof.
  induction ws as [|b ws IH]; intros seen hits h Hok Hl H0 Hlen; cbn [cpe_ret_scan].
  { intros [= <-]. split_and!; try constructor. unfold len; cbn; lia. }
  apply Forall_cons in Hok as [[Hc Hr] Hok]. rewrite len_cons in Hlen. pose proof (len_nonneg ws).
  unfold at_off. rewrite filter_cons. fold (at_off (wr_off a) ws).
  destruct (Z.eqb_spec (wr_off b) (wr_off a)) as [Eo|Eo]; cbn [negb].
  2: { rewrite decide_False by done. apply IH; try done. lia. }
  rewrite decide_True by done.
  destruct (negb _ || _ || _ || _) eqn:Ebad; [done|]. apply orb_false_elim in Ebad as [Ebad Eseen].
  rewrite odd_shiftr in Eseen by done. unfold CPE_RET_MAX_ROWS, CPE_RET_MAX_COLS in Ebad.
  intros Hs. apply IH in Hs as (Hv & Hnd & Hns & ->); [|done|..].
  2: { unfold wr, len in *. by rewrite length_insert. }
  2,3: rewrite u32_small; lia.
  assert (forall t', 0 <= t'.1 -> 0 <= t'.2 ->
     seen_has (wr seen (wr_row b) (rd seen (wr_row b) |' u64 (Z.shiftl 1 (wr_col b)))) t' =
     bool_decide (tile_of b = t') || seen_has seen t') as Hmark.
  { intros t' ??. apply (seen_mark seen (tile_of b) t'); cbn [tile_of fst snd]; lia. }
  assert (Forall tile_ok (at_off (wr_off a) ws)) as Hok' by (apply Forall_forall; intros w [_ Hw]%list_elem_of_filter; by eapply Forall_forall in Hok).
  split_and!.
  - constructor; [lia|done].
  - cbn [map]. apply NoDup_cons. split; [|done]. intros (w & Ew & Hw)%list_elem_of_fmap.
    rewrite Forall_forall in Hns, Hok'. specialize (Hns w Hw). destruct (Hok' w Hw) as [??].
    rewrite Hmark in Hns by done. rewrite bool_decide_true in Hns by done. done.
  - constructor; [done|]. rewrite Forall_forall in *. intros w Hw. specialize (Hns w Hw).
    destruct (Hok' w Hw) as [??]. rewrite Hmark in Hns by done. by apply orb_false_elim in Hns as [_ ?].
  - rewrite u32_small by lia. rewrite len_cons. lia.
Qed.

(** A set of tiles without repetition inside another of the same size is all of it. *)
Lemma NoDup_incl_full {A} `{EqDecision A} (l k : list A) :
  NoDup l -> NoDup k -> (forall x, x ∈ k -> x ∈ l) -> length k = length l -> l ⊆ k.
Proof.
  intros Hl Hk Hs E. assert (k ≡ₚ l) as Hp.
  { apply submseteq_length_Permutation; [by apply NoDup_submseteq|lia]. }
  intros x Hx. by rewrite Hp.
Qed.

(** ** The split *)

Definition strip (w : rt_cpe_wr) : rt_cpe_wr := set_state RT_CPE_WR_UNDECIDED w.

Lemma at_off_strip o ws : at_off o (map strip ws) = map strip (at_off o ws).
Proof.
  induction ws as [|w ws IH]; [done|]. unfold at_off in *. cbn [map]. rewrite !filter_cons.
  change (wr_off (strip w)) with (wr_off w). destruct (decide (wr_off w = o)); cbn [map]; by rewrite IH.
Qed.

Lemma uniform_strip ws n o v : uniform ws n o v -> uniform (map strip ws) n o v.
Proof.
  intros (Hv & Hnd & Hl). unfold uniform. rewrite at_off_strip, map_map. split_and!.
  - by apply Forall_fmap.
  - done.
  - unfold len in *. by rewrite length_map.
Qed.

(** Marking from the first index of a class marks the class. *)
Definition mark (o k : Z) (w : rt_cpe_wr) : rt_cpe_wr := if wr_off w =? o then set_state k w else w.

Lemma mark_from_class i o k ws :
  0 <= i -> (forall j w, (j < Z.to_nat i)%nat -> ws !! j = Some w -> wr_off w <> o) ->
  mark_from i o k ws = map (mark o k) ws.
Proof.
  intros Hi H. unfold mark_from. apply list_eq. intros j.
  rewrite list_lookup_imap, list_lookup_fmap. destruct (ws !! j) as [w|] eqn:E; [|done]. cbn. f_equal.
  unfold mark. destruct (Z.eqb_spec (wr_off w) o) as [Eo|]; [|by rewrite andb_false_r].
  destruct (Z.leb_spec i (Z.of_nat j)); [done|]. exfalso. eapply (H j w); [lia|done|done].
Qed.

Lemma strip_mark o k ws : map strip (map (mark o k) ws) = map strip ws.
Proof. rewrite map_map. apply map_ext. intros w. unfold mark. by destruct (_ =? _). Qed.

Lemma mark_off o k w : wr_off (mark o k w) = wr_off w.
Proof. unfold mark. by destruct (_ =? _). Qed.
Lemma mark_val o k w : wr_val (mark o k w) = wr_val w.
Proof. unfold mark. by destruct (_ =? _). Qed.

Lemma zip_push (bo bv : list Z) nb o v :
  0 <= nb < len bo -> nb < len bv ->
  take (Z.to_nat (nb + 1)) (zip (wr bo nb o) (wr bv nb v)) =
  take (Z.to_nat nb) (zip bo bv) ++ [(o, v)].
Proof.
  intros H1 H2. unfold len, wr in *. apply list_eq. intros j.
  destruct (decide (j < Z.to_nat nb)%nat) as [Hj|Hj].
  - rewrite lookup_app_l by (rewrite length_take, length_zip; lia). rewrite !lookup_take_lt by lia.
    rewrite !lookup_zip_with. by rewrite !list_lookup_insert_ne by lia.
  - rewrite lookup_app_r by (rewrite length_take, length_zip; lia). rewrite length_take, length_zip.
    destruct (decide (j = Z.to_nat nb)) as [->|Hne].
    + rewrite lookup_take_lt by lia. rewrite lookup_zip_with, !list_lookup_insert_eq by lia.
      cbn. by replace (_ - _)%nat with 0%nat by lia.
    + rewrite lookup_take_ge by lia. symmetry. apply lookup_ge_None_2. cbn. lia.
Qed.

Section Split.
Context (ws : list rt_cpe_wr) (ntiles : Z) (bc_off bc_val : list Z) (max : Z).
Hypothesis Hok : Forall tile_ok ws.
Hypothesis Hund : Forall (fun w => wr_state w = RT_CPE_WR_UNDECIDED) ws.
Hypothesis Hsmall : len ws < 2 ^ 32.
Hypothesis Hmax : 0 <= max < 2 ^ 32.
Hypothesis Hbo : max <= len bc_off.
Hypothesis Hbv : max <= len bc_val.

(** The invariant after the indices below [i]. *)
Record inv (i : Z) (st : list rt_cpe_wr * list Z * list Z * Z) : Prop := Inv {
  iv_same : map strip st.1.1.1 = ws;
  iv_len : length st.1.1.2 = length bc_off /\ length st.1.2 = length bc_val /\ 0 <= st.2 <= max;
  iv_dec : forall w', w' ∈ st.1.1.1 ->
    wr_state w' = RT_CPE_WR_UNDECIDED <->
    (forall j w, (j < Z.to_nat i)%nat -> ws !! j = Some w -> wr_off w <> wr_off w');
  iv_kind : forall w', w' ∈ st.1.1.1 ->
    wr_state w' = RT_CPE_WR_UNDECIDED \/ wr_state w' = RT_CPE_WR_BCAST \/ wr_state w' = RT_CPE_WR_MMIO;
  iv_cls : forall w1 w2, w1 ∈ st.1.1.1 -> w2 ∈ st.1.1.1 -> wr_off w1 = wr_off w2 -> wr_state w1 = wr_state w2;
  iv_bc : forall w', w' ∈ st.1.1.1 -> wr_state w' = RT_CPE_WR_BCAST ->
    uniform ws ntiles (wr_off w') (wr_val w') /\
    (wr_off w', wr_val w') ∈ take (Z.to_nat st.2) (zip st.1.1.2 st.1.2);
  iv_cb : forall b, b ∈ take (Z.to_nat st.2) (zip st.1.1.2 st.1.2) ->
    exists w', w' ∈ st.1.1.1 /\ wr_off w' = b.1 /\ wr_val w' = b.2 /\ wr_state w' = RT_CPE_WR_BCAST }.

Lemma inv_init : inv 0 (ws, bc_off, bc_val, 0).
Proof.
  rewrite Forall_forall in Hund. split; cbn [fst snd].
  - rewrite <- (map_id ws) at 2. apply map_ext_in. intros w Hw. apply list_elem_of_In in Hw.
    specialize (Hund w Hw). destruct w; cbn in *. by subst.
  - split_and!; [done|done|lia|lia].
  - intros w' Hw'. split; [lia|]. intros _. by apply Hund.
  - intros w' Hw'. left. by apply Hund.
  - intros w1 w2 H1 H2 _. by rewrite !Hund.
  - intros w' Hw'. rewrite Hund by done. done.
  - intros b Hb. by apply elem_of_nil in Hb.
Qed.

(** Marking a whole class. *)
Lemma inv_mark i ws' bo bv nb bo' bv' nb' w k :
  0 <= i -> inv i (ws', bo, bv, nb) -> ws' !! Z.to_nat i = Some w ->
  wr_state w = RT_CPE_WR_UNDECIDED ->
  length bo' = length bc_off -> length bv' = length bc_val -> 0 <= nb' <= max ->
  (k = RT_CPE_WR_MMIO /\ take (Z.to_nat nb') (zip bo' bv') = take (Z.to_nat nb) (zip bo bv) \/
   k = RT_CPE_WR_BCAST /\ uniform ws ntiles (wr_off w) (wr_val w) /\
   (forall w', w' ∈ ws' -> wr_off w' = wr_off w -> wr_val w' = wr_val w) /\
   take (Z.to_nat nb') (zip bo' bv') = take (Z.to_nat nb) (zip bo bv) ++ [(wr_off w, wr_val w)]) ->
  inv (i + 1) (map (mark (wr_off w) k) ws', bo', bv', nb').
Proof.
  intros Hi [Hsame _ Hdec Hkind Hcls Hbc Hcb] Hw Hu L1 L2 Hnb Hk. cbn [fst snd] in *.
  assert (w ∈ ws') as Hin by (by eapply list_elem_of_lookup_2).
  assert (exists w0, ws !! Z.to_nat i = Some w0 /\ wr_off w0 = wr_off w) as (w0 & Hw0 & Ew0).
  { exists (strip w). rewrite <- Hsame, list_lookup_fmap, Hw. done. }
  assert (k <> RT_CPE_WR_UNDECIDED) as Hk0 by (destruct Hk as [[-> _]|[-> _]]; done).
  assert (forall w', w' ∈ map (mark (wr_off w) k) ws' -> exists w1, w1 ∈ ws' /\ w' = mark (wr_off w) k w1) as Hm.
  { intros w' (w1 & -> & H1)%list_elem_of_fmap. eauto. }
  split; cbn [fst snd].
  - by rewrite strip_mark.
  - done.
  - intros w' (w1 & H1 & ->)%Hm. rewrite mark_off. unfold mark.
    destruct (Z.eqb_spec (wr_off w1) (wr_off w)) as [E|E].
    + split; [done|]. intros H. exfalso. eapply (H (Z.to_nat i) w0); [lia|done|congruence].
    + rewrite Hdec by done. split; intros H j x Hj Hx.
      * destruct (decide (j = Z.to_nat i)) as [->|]; [|eapply H; [|done]; lia]. congruence.
      * eapply H; [|done]. lia.
  - intros w' (w1 & H1 & ->)%Hm. unfold mark. destruct (_ =? _); [|by apply Hkind]. cbn. destruct Hk as [[-> _]|[-> _]]; auto.
  - intros x y (x1 & Hx & ->)%Hm (y1 & Hy & ->)%Hm. rewrite !mark_off. intros E. unfold mark. rewrite E.
    destruct (_ =? _); [done|by apply Hcls].
  - intros w' (w1 & H1 & ->)%Hm. rewrite mark_off, mark_val. unfold mark.
    destruct (Z.eqb_spec (wr_off w1) (wr_off w)) as [E|E]; cbn.
    + intros ->. destruct Hk as [[? _]|(_ & Hun & Hval & ->)]; [done|]. rewrite E, (Hval w1) by done.
      split; [done|]. apply elem_of_app. right. by apply list_elem_of_singleton.
    + intros Hs. destruct (Hbc w1 H1 Hs) as [Hu1 Hb1]. split; [done|].
      destruct Hk as [[_ ->]|(_ & _ & _ & ->)]; [done|]. apply elem_of_app. by left.
  - intros b Hb.
    assert (b ∈ take (Z.to_nat nb) (zip bo bv) \/ k = RT_CPE_WR_BCAST /\ b = (wr_off w, wr_val w)) as [Hb'|[-> ->]].
    { destruct Hk as [[_ E]|(-> & _ & _ & E)]; rewrite E in Hb; [by left|].
      apply elem_of_app in Hb as [?|Hb%list_elem_of_singleton]; [by left|by right]. }
    + destruct (Hcb b Hb') as (x & Hx & Eo & Ev & Es). exists (mark (wr_off w) k x).
      rewrite mark_off, mark_val. split_and!; [by apply list_elem_of_fmap_2|done|done|].
      unfold mark. destruct (Z.eqb_spec (wr_off x) (wr_off w)) as [E|]; [|done].
      pose proof (Hcls x w Hx Hin E). unfold RT_CPE_WR_BCAST, RT_CPE_WR_UNDECIDED in *; lia.
    + exists (mark (wr_off w) RT_CPE_WR_BCAST w). rewrite mark_off, mark_val.
      split_and!; [by apply list_elem_of_fmap_2|done|done|]. unfold mark. by rewrite Z.eqb_refl.
Qed.

Lemma at_off_none o l : (forall w, w ∈ l -> wr_off w <> o) -> at_off o l = [].
Proof.
  induction l as [|w l IH]; intros H; [done|]. unfold at_off in *. rewrite filter_cons, decide_False.
  - apply IH. intros x Hx. apply H. by constructor.
  - apply H. by constructor.
Qed.

(** Later occurrences only. *)
Lemma at_off_drop i o l :
  (forall j w, (j < i)%nat -> l !! j = Some w -> wr_off w <> o) -> at_off o (drop i l) = at_off o l.
Proof.
  intros H. rewrite <- (take_drop i l) at 2. unfold at_off. rewrite filter_app.
  fold (at_off o (take i l)). rewrite at_off_none; [done|]. intros w Hw.
  apply list_elem_of_lookup in Hw as [j Hj]. apply lookup_take_Some in Hj as [Hj Hlt]. by eapply H.
Qed.

Lemma split_step i st : 0 <= i < len ws -> inv i st -> inv (i + 1) (cpe_split_step ntiles max st i).
Proof.
  intros Hi Hinv. destruct st as [[[ws' bo] bv] nb]. unfold cpe_split_step.
  pose proof Hinv as [Hsame (L1 & L2 & Hnb) Hdec Hkind Hcls Hbc Hcb]. cbn [fst snd] in *.
  assert (length ws' = length ws) as Lw by (by rewrite <- Hsame, length_map).
  destruct (lookup_lt_is_Some_2 ws' (Z.to_nat i)) as [w Hw]; [unfold len in *; lia|].
  rewrite (list_lookup_total_correct _ _ _ Hw).
  assert (w ∈ ws') as Hin by (by eapply list_elem_of_lookup_2).
  destruct (Z.eqb_spec (wr_state w) RT_CPE_WR_UNDECIDED) as [Eu|Eu]; cbn [negb].
  2: { split; cbn [fst snd]; try done. intros w' Hw'. rewrite Hdec by done. split; intros H j x Hj Hx.
       - destruct (decide (j = Z.to_nat i)) as [->|]; [|eapply H; [|done]; lia]. intros E. apply Eu.
         assert (wr_off x = wr_off w) as Ex.
         { rewrite <- Hsame, list_lookup_fmap, Hw in Hx. by injection Hx as <-. }
         rewrite (Hcls w w') by (done || congruence). apply Hdec; [done|]. intros; eapply H; [|done]; lia.
       - eapply H; [|done]. lia. }
  assert (forall j x, (j < Z.to_nat i)%nat -> ws' !! j = Some x -> wr_off x <> wr_off w) as Hfirst.
  { intros j x Hj Hx. eapply (proj1 (Hdec w Hin) Eu j (strip x)); [done|].
    by rewrite <- Hsame, list_lookup_fmap, Hx. }
  rewrite !mark_from_class by (lia || done).
  destruct ((nb <? max) && cpe_ret_uniform ws' i ntiles) eqn:Ecase.
  2: { eapply inv_mark; try done; [lia|]. by left. }
  apply andb_prop in Ecase as [Hlt Hun]. unfold cpe_ret_uniform in Hun.
  rewrite (list_lookup_total_correct _ _ _ Hw) in Hun.
  destruct (cpe_ret_scan w (drop (Z.to_nat i) ws') (replicate 17 0) 0) as [h|] eqn:Es; [|done].
  assert (Forall tile_ok ws') as Hok'.
  { rewrite Forall_forall in Hok. apply Forall_forall. intros x Hx. apply (Hok (strip x)).
    rewrite <- Hsame. by apply list_elem_of_fmap_2. }
  apply scan_spec in Es as (Hv & Hnd & _ & Eh); [|by apply Forall_drop|done|lia|].
  2: { unfold len in *. rewrite length_drop. lia. }
  rewrite at_off_drop in * by done.
  eapply inv_mark; try done; [lia|unfold wr; by rewrite length_insert..|rewrite u32_small; lia|].
  right. split_and!; [done| | |].
  - rewrite <- Hsame. apply uniform_strip. split_and!; [done|done|lia].
  - intros x Hx Ex. rewrite Forall_forall in Hv. apply Hv. by apply list_elem_of_filter.
  - rewrite u32_small by lia. apply zip_push; unfold len in *; lia.
Qed.

Lemma split_inv : inv (len ws) (rt_cpe_ret_split ws ntiles bc_off bc_val max).
Proof.
  unfold rt_cpe_ret_split, range. rewrite Z.sub_0_r.
  assert (forall n, (n <= length ws)%nat ->
    inv (Z.of_nat n) (foldl (cpe_split_step ntiles max) (ws, bc_off, bc_val, 0) (seqZ 0 (Z.of_nat n)))) as H.
  { induction n as [|n IH]; intros Hn; [apply inv_init|].
    rewrite Nat2Z.inj_succ, <- Z.add_1_r, seqZ_app by lia. rewrite foldl_app, Z.add_0_l.
    change (seqZ (Z.of_nat n) 1) with [Z.of_nat n]. apply split_step; [unfold len; lia|]. apply IH. lia. }
  apply (H (length ws)). done.
Qed.

(** ** Soundness *)

Lemma after_writes_at_off l x t o : after_writes l x t o = after_writes (at_off o l) x t o.
Proof.
  revert x. unfold after_writes, at_off. induction l as [|w l IH]; intros x; [done|]. rewrite filter_cons.
  cbn [foldl]. destruct (decide (wr_off w = o)) as [E|E]; cbn [foldl]; [apply IH|].
  replace (wr_off w =? o) with false by lia. apply IH.
Qed.

Lemma after_writes_miss l x t o : t ∉ map tile_of l -> after_writes l x t o = x.
Proof.
  unfold after_writes. induction l as [|w l IH]; intros H; [done|]. cbn [foldl map] in *.
  apply not_elem_of_cons in H as [H1 H2]. rewrite bool_decide_false, andb_false_r by done. by apply IH.
Qed.

Lemma after_writes_hit l x t o v :
  Forall (fun w => wr_val w = v) l -> Forall (fun w => wr_off w = o) l -> t ∈ map tile_of l ->
  after_writes l x t o = v.
Proof.
  unfold after_writes. revert x. induction l as [|w l IH]; intros x Hv Ho Ht; cbn [foldl map] in *.
  { by apply elem_of_nil in Ht. }
  apply Forall_cons in Hv as [Hv0 Hv]. apply Forall_cons in Ho as [Ho0 Ho].
  destruct (decide (t ∈ map tile_of l)) as [Hl|Hl]; [by apply IH|].
  apply elem_of_cons in Ht as [->|]; [|done]. replace (wr_off w =? o) with true by lia.
  rewrite bool_decide_true by done. cbn [andb]. pose proof (after_writes_miss l (wr_val w) (tile_of w) o Hl) as E.
  unfold after_writes in E. by rewrite E.
Qed.

Lemma after_bcasts_hit bs tiles x t o v :
  t ∈ tiles -> (forall b, b ∈ bs -> b.1 = o -> b.2 = v) -> x = v \/ (exists b, b ∈ bs /\ b.1 = o) ->
  after_bcasts bs tiles x t o = v.
Proof.
  intros Ht. unfold after_bcasts. rewrite (bool_decide_true (t ∈ tiles)) by done.
  revert x. induction bs as [|b bs IH]; intros x Hv Hx.
  { destruct Hx as [|(b & Hb & _)]; [done|]. by apply elem_of_nil in Hb. }
  cbn [foldl]. rewrite andb_true_r. apply IH.
  - intros b' Hb'. apply Hv. by constructor.
  - destruct (Z.eqb_spec (b.1) o) as [E|E]; [left; apply Hv; [constructor|done]|].
    destruct Hx as [|(b0 & [->|Hb0]%elem_of_cons & E0)]; [by left|done|right; eauto].
Qed.

Lemma after_bcasts_miss bs tiles x t o :
  t ∉ tiles \/ (forall b, b ∈ bs -> b.1 <> o) -> after_bcasts bs tiles x t o = x.
Proof.
  intros H. unfold after_bcasts. induction bs as [|b bs IH]; [done|]. cbn [foldl].
  replace ((b.1 =? o) && bool_decide (t ∈ tiles)) with false.
  - apply IH. destruct H as [H|H]; [by left|right]. intros c Hc. apply H. by constructor.
  - symmetry. apply andb_false_iff. destruct H as [H|H]; [right; by apply bool_decide_false|left].
    specialize (H b ltac:(constructor)). lia.
Qed.

Lemma elem_of_at_off o l w : w ∈ at_off o l <-> w ∈ l /\ wr_off w = o.
Proof. unfold at_off. rewrite list_elem_of_filter. tauto. Qed.

(** The writes the runtime still issues one by one. *)
Definition singles (l : list rt_cpe_wr) : list rt_cpe_wr :=
  filter (fun w => wr_state w <> RT_CPE_WR_BCAST) l.

Lemma at_off_all o (P : rt_cpe_wr -> Prop) `{forall w, Decision (P w)} l :
  (forall w, w ∈ l -> wr_off w = o -> P w) -> at_off o (filter P l) = at_off o l.
Proof.
  intros Hp. induction l as [|w l IH]; [done|]. unfold at_off in *. rewrite !filter_cons.
  assert (forall x, x ∈ l -> wr_off x = o -> P x) as Hp' by (intros; apply Hp; [by constructor|done]).
  destruct (decide (P w)) as [Hw|Hw]; rewrite ?filter_cons.
  - destruct (decide (wr_off w = o)); by rewrite IH.
  - rewrite (decide_False (P := wr_off w = o)); [by apply IH|]. intros E. apply Hw, Hp; [by constructor|done].
Qed.

Lemma after_writes_strip l x t o : after_writes (map strip l) x t o = after_writes l x t o.
Proof. unfold after_writes. revert x. induction l as [|w l IH]; intros x; [done|]. apply IH. Qed.

(** The choice of broadcasts and what it leaves to single writes. *)
Lemma split_sound (tiles : list (Z * Z)) :
  NoDup tiles -> len tiles = ntiles -> (forall w, w ∈ ws -> tile_of w ∈ tiles) ->
  let '(ws', bo, bv, nb) := rt_cpe_ret_split ws ntiles bc_off bc_val max in
  (forall w, w ∈ ws' -> wr_state w = RT_CPE_WR_BCAST \/ wr_state w = RT_CPE_WR_MMIO) /\
  forall x t o,
    after_bcasts (take (Z.to_nat nb) (zip bo bv)) tiles (after_writes (singles ws') x t o) t o =
    after_writes ws x t o.
Proof.
  intros Hnd Hlen Hin. pose proof split_inv as Hinv.
  destruct (rt_cpe_ret_split ws ntiles bc_off bc_val max) as [[[ws' bo] bv] nb].
  destruct Hinv as [Hsame _ Hdec Hkind Hcls Hbc Hcb]. cbn [fst snd] in *. split.
  { intros w Hw. destruct (Hkind w Hw) as [E|?]; [|done]. exfalso.
    apply list_elem_of_lookup in Hw as Hj. destruct Hj as [j Hj].
    eapply (proj1 (Hdec w Hw) E j (strip w)); [|by rewrite <- Hsame, list_lookup_fmap, Hj|done].
    apply lookup_lt_Some in Hj. rewrite <- Hsame. unfold len. rewrite length_map. lia. }
  intros x t o. rewrite <- Hsame at 1. rewrite after_writes_strip.
  rewrite after_writes_at_off, (after_writes_at_off ws').
  destruct (decide (Exists (fun w => wr_off w = o /\ wr_state w = RT_CPE_WR_BCAST) ws'))
    as [(w & Hw & Ew & Es)%Exists_exists|Hno]; [|rewrite Exists_exists in Hno].
  - assert (at_off o (singles ws') = []) as ->.
    { apply at_off_none. intros y [Hy Hyin]%list_elem_of_filter Ey. apply Hy. rewrite <- Es. apply Hcls; [done|done|congruence]. }
    destruct (Hbc w Hw Es) as [(Hv & Hndt & Hcnt) Hb]. rewrite Ew in *.
    rewrite <- Hsame, at_off_strip in Hv, Hndt, Hcnt. apply Forall_fmap in Hv. rewrite map_map in Hndt.
    unfold len in Hcnt, Hlen. rewrite length_map in Hcnt.
    assert (forall y, y ∈ at_off o ws' -> tile_of y ∈ tiles) as Hsub.
    { intros y [Hy _]%elem_of_at_off. apply (Hin (strip y)). rewrite <- Hsame. by apply list_elem_of_fmap_2. }
    destruct (decide (t ∈ tiles)) as [Ht|Ht].
    + rewrite (after_bcasts_hit _ _ _ _ _ (wr_val w) Ht).
      * symmetry. apply after_writes_hit; [done|apply Forall_forall; by intros y [_ ?]%elem_of_at_off|].
        assert (tiles ⊆ map tile_of (at_off o ws')) as Hsup; [|by apply Hsup].
        apply NoDup_incl_full; [done|done| |rewrite length_map; lia].
        intros q (y & -> & Hy)%list_elem_of_fmap. by apply Hsub.
      * intros b Hbin Eb. destruct (Hcb b Hbin) as (y & Hy & Eo & Ev & _). rewrite <- Ev.
        rewrite Forall_forall in Hv. apply (Hv y). apply elem_of_at_off. split; [done|congruence].
      * right. eexists. split; [exact Hb|done].
    + rewrite after_bcasts_miss by (by left). rewrite (after_writes_miss (at_off o ws')); [done|].
      intros (y & -> & Hy)%list_elem_of_fmap. by apply Ht, Hsub.
  - rewrite after_bcasts_miss.
    + unfold singles. rewrite at_off_all; [done|]. intros w Hw Eo Es. apply Hno. eauto.
    + right. intros b Hb Eb. destruct (Hcb b Hb) as (y & Hy & Eo & _ & Es). apply Hno. exists y. split_and!; [done|congruence|done].
Qed.
(** ** Properties *)

(** C13. Broadcasting is sound: whatever tiles the fabric has (as many as
    [ntiles], none twice, and among them every tile that is written), issuing
    the writes that were not chosen for broadcast one by one and then the
    chosen ones as broadcasts to all tiles leaves every register of every
    tile as the original writes would; and every write has been decided. *)
Theorem ret_split_sound (tiles : list (Z * Z)) :
  NoDup tiles -> len tiles = ntiles -> (forall w, w ∈ ws -> tile_of w ∈ tiles) ->
  let '(ws', bo, bv, nb) := rt_cpe_ret_split ws ntiles bc_off bc_val max in
  (forall w, w ∈ ws' -> wr_state w = RT_CPE_WR_BCAST \/ wr_state w = RT_CPE_WR_MMIO) /\
  forall x t o,
    after_bcasts (take (Z.to_nat nb) (zip bo bv)) tiles (after_writes (singles ws') x t o) t o =
    after_writes ws x t o.
Proof. exact (split_sound tiles). Qed.
End Split.

Definition ws_example : list rt_cpe_wr :=
  [Wr 1 3 0x10 7 0; Wr 1 3 0x14 1 0; Wr 2 3 0x10 7 0; Wr 2 3 0x14 2 0].

Lemma ret_split_sound_witness :
  let '(ws', bo, bv, nb) := rt_cpe_ret_split ws_example 2 (replicate 16 0) (replicate 16 0) 16 in
  (forall w, w ∈ ws' -> wr_state w = RT_CPE_WR_BCAST \/ wr_state w = RT_CPE_WR_MMIO) /\
  forall x t o,
    after_bcasts (take (Z.to_nat nb) (zip bo bv)) [(1, 3); (2, 3)] (after_writes (singles ws') x t o) t o =
    after_writes ws_example x t o.
Proof.
  apply (ret_split_sound ws_example 2 (replicate 16 0) (replicate 16 0) 16).
  - repeat constructor; vm_compute; discriminate.
  - repeat constructor.
  - reflexivity.
  - split; [vm_compute; discriminate|reflexivity].
  - vm_compute. discriminate.
  - vm_compute. discriminate.
  - apply (bool_decide_unpack (NoDup [(1, 3); (2, 3)])). vm_compute. exact I.
  - reflexivity.
  - intros w Hw. unfold ws_example in Hw.
    repeat (apply elem_of_cons in Hw as [->|Hw]; [by apply list_elem_of_In; cbn; auto|]).
    by apply elem_of_nil in Hw.
Defined.
