(* ===== verification/CtrlpktBody.v ===== *)
(** * The encoded body of a kernel ELF

    What [rt_cpe_encode_body] produces for an ELF image: the reset pulse, the
    packets of every loadable segment, and the closing write-with-return;
    when it fits; and what the packets do to a tile. *)

From stdpp Require Import base list list_numbers numbers gmap.
From S2P Require Import Prelude.
From S2P Require Import CtrlpktEncode.
From S2P Require Import RuntimePkt.
From S2P Require Import CtrlpktFormat.
From S2P Require Import CtrlpktWrite.

Local Open Scope Z_scope.
Local Open Scope c_scope.

(** ** Specification *)

(** Bytes as little-endian words, the last one padded with zeros. *)
Fixpoint bytes_words (l : list Z) : list Z :=
  match l with
  | [] => []
  | [a] => [a]
  | [a; b] => [a + b * 2 ^ 8]
  | [a; b; c] => [a + b * 2 ^ 8 + c * 2 ^ 16]
  | a :: b :: c :: d :: l => (a + b * 2 ^ 8 + c * 2 ^ 16 + d * 2 ^ 24) :: bytes_words l
  end.

(** A program header the encoder considers at all. *)
Definition loadable (elf : list Z) (i : Z) : bool :=
  (p_type elf i =? PT_LOAD) && negb (p_filesz elf i =? 0).

(** The segments sent to tile [(col,row)], as tile address and bytes;
    [None] when one of them has no place on the tile. *)
Fixpoint seg_list (d : rt_cpe_dev) (elf : list Z) (col row : Z) (idxs : list Z)
    : option (list (Z * list Z)) :=
  match idxs with
  | [] => Some []
  | i :: idxs =>
    if loadable elf i then
      match rt_cpe_target d col row (p_paddr elf i) with
      | None => None
      | Some ta =>
        if ta =? RT_CPE_SKIP_ADDR then seg_list d elf col row idxs
        else
          rest ← seg_list d elf col row idxs;
          Some ((ta, slice elf (p_offset elf i) (p_filesz elf i)) :: rest)
      end
    else seg_list d elf col row idxs
  end.

Definition body_segs (d : rt_cpe_dev) (elf : list Z) (col row : Z) : option (list (Z * list Z)) :=
  seg_list d elf col row (range 0 (e_phnum elf)).

Definition seg_accesses (sid : Z) (s : Z * list Z) : list access :=
  write_accesses sid s.1 (chunks4 (bytes_words s.2)).

(** The register writes of the reset pulse. *)
Definition reset_writes (d : rt_cpe_dev) : list (Z * Z) :=
  [(core_ctrl_off d, core_rst_mask d)] ++
  concat (map (fun v => map (fun c => (dma_ch_ctrl_off d +u32 (c *u32 dma_ch_stride d),
                                       if z2b v then 0 else dma_ch_rst_mask d))
                            (range 0 (2 *u32 dma_nch d))) (range 0 2)) ++
  [(core_ctrl_off d, 0)].

Definition put1_access (sid : Z) (w : Z * Z) : access :=
  Acc (sid & 0x1F) (w.1 mod 2 ^ 20) OP_WRITE 0 1 [w.2].

Definition body_accesses (d : rt_cpe_dev) (sid : Z) (want_reset : bool) (segs : list (Z * list Z))
    : list access :=
  (if want_reset then map (put1_access sid) (reset_writes d) else []) ++
  concat (map (seg_accesses sid) segs).

(** Where the closing write-with-return goes, and its value: the last word
    of the last segment. *)
Definition last_word (segs : list (Z * list Z)) : Z * Z :=
  match last segs with
  | None => (0, 0)
  | Some (ta, bs) =>
    (u32 (ta + 4 * (len (bytes_words bs) - 1)), default 0 (last (bytes_words bs)))
  end.

Definition body_words (l : list access) : list Z := concat (map access_words l).

(** ** Words of bytes *)

(** Splits the goal on the shape of a list of at most [n] cells. *)
Ltac list_cases l := repeat (destruct l as [|? l]; [try (cbn; done)|]).

Lemma bytes_words_take16 l : take 4 (bytes_words l) = bytes_words (take 16 l).
Proof.
  do 16 (destruct l as [|? l]; [done|]). cbn [take]. cbn [bytes_words take]. by rewrite take_0.
Qed.

Lemma bytes_words_drop16 l : drop 4 (bytes_words l) = bytes_words (drop 16 l).
Proof. do 16 (destruct l as [|? l]; [done|]). cbn [bytes_words]. cbn [drop]. by rewrite drop_0. Qed.

Lemma len_bytes_words l : len (bytes_words l) = (len l + 3) / 4.
Proof.
  induction l as [l IH] using (induction_ltof1 _ (@length Z)). unfold ltof in IH.
  destruct l as [|a [|b [|c [|x l]]]]; [done|done|done|done|]. cbn [bytes_words].
  rewrite !len_cons, IH by (cbn; lia). Z.div_mod_to_equations. lia.
Qed.

Lemma rd_zeros l n i : len l <= i -> rd (l ++ replicate n 0) i = 0.
Proof.
  intros. unfold rd, len in *. rewrite lookup_app_r by lia.
  destruct (replicate n 0 !! _) eqn:E; [|done]. by apply lookup_replicate in E as [-> _].
Qed.

Lemma ld32_cons4 a b c x l k : 0 <= k -> ld32 (a :: b :: c :: x :: l) (4 * (k + 1)) = ld32 l (4 * k).
Proof.
  intros. unfold ld32, rd.
  assert (forall j, 0 <= j -> (a :: b :: c :: x :: l) !! Z.to_nat (4 * (k + 1) + j) =
                  l !! Z.to_nat (4 * k + j)) as E.
  { intros j Hj. replace (Z.to_nat (4 * (k + 1) + j)) with (S (S (S (S (Z.to_nat (4 * k + j)))))) by lia.
    done. }
  rewrite <- (Z.add_0_r (4 * (k + 1))), <- (Z.add_0_r (4 * k)) at 1. rewrite !E by lia.
  by rewrite !Z.add_0_r.
Qed.

Lemma map_ld32 n l :
  map (fun k => ld32 (l ++ replicate n 0) (4 * k)) (seqZ 0 ((len l + 3) / 4)) = bytes_words l.
Proof.
  induction l as [l IH] using (induction_ltof1 _ (@length Z)). unfold ltof in IH.
  destruct l as [|a [|b [|c [|x l]]]]; [done|..].
  1-3: change (seqZ 0 _) with [0]; cbn [bytes_words map]; unfold ld32; rewrite Z.mul_0_r, !Z.add_0_l;
    repeat match goal with |- context [rd (?l ++ replicate ?n 0) ?i] =>
      first [rewrite (rd_zeros l n i) by (unfold len; cbn; lia)
            |rewrite (rd_app_l l _ i) by (unfold len; cbn; lia)] end;
    rewrite ?Z.mul_0_l, ?Z.add_0_r; reflexivity.
  cbn [bytes_words]. rewrite <- IH by (cbn; lia). rewrite !len_cons. pose proof (len_nonneg l).
  replace (_ / 4) with (1 + (len l + 3) / 4) by (Z.div_mod_to_equations; lia).
  rewrite seqZ_app by (Z.div_mod_to_equations; lia). rewrite map_app. cbn [app]. f_equal.
  rewrite (Z.add_comm 0 1), <- fmap_add_seqZ. rewrite <- list_fmap_compose.
  apply list_fmap_ext. intros i k Hk. apply lookup_seqZ in Hk as [-> _]. cbn beta.
  unfold compose. rewrite Z.add_comm. apply ld32_cons4. lia.
Qed.

Lemma blit_zeros n l : (length l <= n)%nat -> blit (replicate n 0) 0 l = l ++ replicate (n - length l) 0.
Proof.
  intros H. apply list_eq. intros i. unfold blit. destruct (decide (i < length l)%nat).
  - rewrite list_lookup_inserts by (rewrite ?length_replicate; lia).
    rewrite lookup_app_l by lia. f_equal. lia.
  - rewrite list_lookup_inserts_ge by lia. rewrite lookup_app_r by lia.
    destruct (decide (i < n)%nat).
    + rewrite !lookup_replicate_2 by lia. done.
    + rewrite !lookup_ge_None_2; [done|rewrite length_replicate; lia..].
Qed.

(** The words [cpe_seg] builds from a chunk of 1 to 16 bytes. *)
Lemma chunk_words bs wb :
  len bs <= 16 -> length wb = 16%nat ->
  map (fun k => ld32 (blit (if len bs <? 16 then replicate 16 0 else wb) 0 bs) (4 * k))
      (seqZ 0 ((len bs + 3) / 4)) = bytes_words bs.
Proof.
  intros Hb Hw. destruct (Z.ltb_spec (len bs) 16) as [E|E].
  - rewrite blit_zeros by (unfold len in *; lia). apply map_ld32.
  - rewrite blit_full by (unfold len in *; lia). rewrite <- (map_ld32 0 bs). cbn [replicate].
    by rewrite app_nil_r.
Qed.

Lemma bytes_words_nonnil l : 0 < len l -> bytes_words l <> [].
Proof. intros H E. apply (f_equal len) in E. rewrite len_bytes_words, len_nil in E.
  Z.div_mod_to_equations. lia. Qed.

Lemma last_map_seqZ (f : Z -> Z) n : 0 < n -> last (map f (seqZ 0 n)) = Some (f (n - 1)).
Proof.
  intros Hn. replace n with ((n - 1) + 1) at 1 by lia. rewrite seqZ_app by lia.
  rewrite map_app. change (seqZ (0 + (n - 1)) 1) with [0 + (n - 1)]. cbn [map].
  by rewrite last_snoc, Z.add_0_l.
Qed.

(** ** The segment loop *)

Lemma slice_cut {A} (d : list A) i n k :
  0 <= i -> 0 <= k <= n ->
  take (Z.to_nat k) (slice d i n) = slice d i k /\ drop (Z.to_nat k) (slice d i n) = slice d (i + k) (n - k).
Proof.
  intros Hi Hk. unfold slice. split.
  - rewrite take_take. f_equal. lia.
  - rewrite skipn_firstn_comm, drop_drop. f_equal; [lia|]. f_equal. lia.
Qed.

Definition seg_words (sid addr : Z) (bs : list Z) : list Z :=
  body_words (write_accesses sid addr (chunks4 (bytes_words bs))).

Lemma seg_words_step sid addr bs :
  0 < len bs ->
  seg_words sid addr bs =
  (cpe_stream_hdr sid :: cpe_ctrl_word (ctrl_val (addr mod 2 ^ 20)
     (len (bytes_words (take 16 bs))) OP_WRITE 0) :: bytes_words (take 16 bs))
  ++ seg_words sid (addr + 16) (drop 16 bs).
Proof.
  intros H. unfold seg_words, body_words. rewrite chunks4_step by by apply bytes_words_nonnil.
  cbn [write_accesses map concat]. rewrite bytes_words_take16, bytes_words_drop16.
  unfold access_words at 1. cbn [a_sid a_addr a_beats a_op a_ret a_data]. by rewrite stream_hdr_land.
Qed.

Lemma seg_words_nil sid addr : seg_words sid addr [] = [].
Proof. done. Qed.

Lemma len_seg_words sid addr bs :
  len (seg_words sid addr bs) = (len bs + 3) / 4 + 2 * ((len bs + 15) / 16).
Proof.
  unfold seg_words, body_words. rewrite len_write_words, length_chunks4, concat_chunks4, len_bytes_words.
  pose proof (len_nonneg bs). Z.div_mod_to_equations. lia.
Qed.

(** What the loop of [cpe_seg] does from offset [off] on: it stores the packet
    words of the rest of the segment if they fit (a prefix of them and no
    result otherwise), and leaves in [off], [nwords] and [words] the place
    and value of the last word. *)
Lemma cpe_seg_loop_spec fuel : forall sid elf src filesz ta cap pkt pw acc off nw wb,
  (Z.to_nat (filesz - off) < fuel)%nat ->
  0 <= src -> src + filesz <= len elf -> 0 <= off -> filesz + 32 < 2 ^ 32 -> cap + 8 < 2 ^ 32 ->
  off < filesz + 16 ->
  0 <= pw <= cap -> length wb = 16%nat ->
  let rest := slice elf (src + off) (filesz - off) in
  let words := seg_words sid (ta + off) rest in
  exists pre off' nw' wb',
    cpe_seg_loop fuel (cpe_stream_hdr sid) elf src filesz ta cap pkt pw acc off nw wb =
      Some (blit pkt pw pre,
            if pw + len words <=? cap
            then Some (pw + len words, foldl (fun a _ => a +u32 1) acc (chunks4 (bytes_words rest)),
                       off', nw', wb')
            else None) /\
    (pw + len words <= cap -> pre = words) /\ pw + len pre <= cap /\
    (filesz <= off -> off' = off /\ nw' = nw /\ wb' = wb) /\
    (off < filesz -> pw + len words <= cap -> 0 < nw' <= 4 /\ 16 <= off' < filesz + 16 /\
       off' - 16 + 4 * (nw' - 1) = off + 4 * (len (bytes_words rest) - 1) /\
       last (bytes_words rest) = Some (ld32 wb' (4 * (nw' - 1)))).
Proof.
  induction fuel as [|fuel IH]; [lia|].
  intros sid elf src filesz ta cap pkt pw acc off nw wb Hf Hs Hsrc Ho Hfs Hcap Hoff Hpw Hwb rest words.
  cbn [cpe_seg_loop]. destruct (Z.ltb_spec off filesz) as [Hlt|Hge].
  2: { assert (rest = []) as Er by (apply slice_neg; lia). subst words. rewrite Er, seg_words_nil, len_nil, Z.add_0_r.
       exists [], off, nw, wb. replace (pw <=? cap) with true by lia.
       split_and!; try done; cbn; rewrite ?len_nil; lia. }
  assert (len rest = filesz - off) as Elen by (apply len_slice; lia).
  set (chunk := if filesz -u32 off <? 16 then filesz -u32 off else 16).
  assert (chunk = Z.min (filesz - off) 16) as Ec.
  { subst chunk. unwrap. destruct (Z.ltb_spec (filesz - off) 16); lia. }
  clearbody chunk. subst chunk. set (chunk := Z.min (filesz - off) 16) in *.
  assert (1 <= chunk <= 16) as Hc by lia.
  destruct (slice_cut elf (src + off) (filesz - off) chunk) as [E1 E2]; [lia..|].
  fold rest in E1, E2.
  assert (take 16 rest = slice elf (src + off) chunk) as Et.
  { rewrite <- E1. destruct (decide (filesz - off <= 16)).
    - rewrite !take_ge; [done|unfold len in Elen; lia..].
    - by replace chunk with 16 by lia. }
  assert (drop 16 rest = slice elf (src + (off + 16)) (filesz - (off + 16))) as Ed.
  { destruct (decide (filesz - off <= 16)).
    - rewrite slice_neg, drop_ge by (unfold len in Elen; lia). done.
    - replace chunk with 16 in E2 by lia. change (Z.to_nat 16) with 16%nat in E2. rewrite E2.
      f_equal; lia. }
  assert (len (slice elf (src + off) chunk) = chunk) as Elc by (apply len_slice; lia).
  set (cw := bytes_words (take 16 rest)) in *.
  assert (len cw = (chunk + 3) / 4) as Ecw by (subst cw; rewrite len_bytes_words, Et, Elc; done).
  assert (1 <= len cw <= 4) as Hcw by (rewrite Ecw; Z.div_mod_to_equations; lia).
  rewrite (u32_small (chunk + 3)) by lia. rewrite <- Ecw.
  rewrite (u32_small (2 + len cw)), (u32_small (pw + 2)), (u32_small (pw + 2 + len cw)) by lia.
  rewrite (u32_small (pw + (2 + len cw))) by lia.
  rewrite (u32_small (pw + 1)), (u32_small (off + 16)) by lia.
  set (wb1 := blit (if chunk <? 16 then replicate 16 0 else wb) 0 (slice elf (src + off) chunk)).
  assert (map (fun k => ld32 wb1 (4 * k)) (seqZ 0 (len cw)) = cw) as Ewb.
  { subst wb1. rewrite Ecw. pose proof (chunk_words (slice elf (src + off) chunk) wb) as Hw.
    rewrite Elc in Hw. rewrite Hw by (done || lia). by subst cw; rewrite Et. }
  assert (length wb1 = 16%nat) as Lwb.
  { subst wb1. rewrite length_blit. by destruct (chunk <? 16). }
  rewrite pack_write_hdr by lia.
  change (Z.lor ?x (u32 (Z.shiftl (cpe_parity ?x) 31))) with (cpe_ctrl_word x).
  rewrite u32_mod20, Ewb.
  assert (words = (cpe_stream_hdr sid :: cpe_ctrl_word (ctrl_val ((ta + off) mod 2 ^ 20) (len cw) OP_WRITE 0)
            :: cw) ++ seg_words sid (ta + (off + 16)) (slice elf (src + (off + 16)) (filesz - (off + 16)))) as Ew.
  { subst words. rewrite seg_words_step by lia. fold cw. rewrite Ed. by rewrite <- (Z.add_assoc ta off 16). }
  set (hw := _ :: _ :: cw) in Ew.
  assert (len hw = 2 + len cw) as Lh by (subst hw; rewrite !len_cons; lia).
  set (rest' := slice elf (src + (off + 16)) (filesz - (off + 16))) in *.
  set (words' := seg_words sid (ta + (off + 16)) rest') in *.
  assert (len words = 2 + len cw + len words') as Lw by (rewrite Ew, len_app; lia).
  pose proof (len_nonneg words').
  destruct (Z.gtb_spec (pw + 2 + len cw) cap) as [Hfull|Hroom].
  { exists [], off, 1, wb1. replace (pw + len words <=? cap) with false by lia.
    split_and!; try done; rewrite ?len_nil; lia. }
  assert (blit (wr (wr pkt pw (cpe_stream_hdr sid)) (pw + 1)
            (cpe_ctrl_word (ctrl_val ((ta + off) mod 2 ^ 20) (len cw) OP_WRITE 0))) (pw + 2) cw =
          blit pkt pw hw) as Eb.
  { subst hw. change (?a :: ?b :: cw) with ([a; b] ++ cw).
    rewrite <- blit_app, blit_2 by lia. done. }
  rewrite Eb.
  destruct (IH sid elf src filesz ta cap (blit pkt pw hw) (pw + (2 + len cw)) (acc +u32 1) (off + 16)
              (len cw) wb1) as (pre & off' & nw' & wb' & E & Hpre & Hlen & Hdone & Hlast); [lia..|done|].
  fold rest' in E, Hpre, Hlen, Hdone, Hlast. fold words' in E, Hpre, Hlen, Hdone, Hlast.
  rewrite E. exists (hw ++ pre), off', nw', wb'.
  replace (pw + (2 + len cw) + len words') with (pw + len words) in * by lia.
  assert (bytes_words rest = cw ++ bytes_words rest') as Ebw.
  { rewrite <- (take_drop 4 (bytes_words rest)), bytes_words_take16, bytes_words_drop16. by rewrite Ed. }
  split_and!.
  - rewrite <- blit_app by lia. rewrite Lh.
    rewrite (chunks4_step (bytes_words rest)) by (apply bytes_words_nonnil; lia).
    rewrite bytes_words_drop16, Ed. done.
  - intros H1. by rewrite Hpre, Ew.
  - rewrite len_app. lia.
  - lia.
  - intros _ Hfit. rewrite Ebw, len_app, last_app.
    destruct (Z.ltb_spec (off + 16) filesz) as [Hm|Hm].
    + destruct (Hlast Hm Hfit) as (? & ? & ? & Hl). rewrite Hl.
      assert (len cw = 4) by (rewrite Ecw; replace chunk with 16 by lia; done).
      split_and!; [lia..|done].
    + destruct (Hdone Hm) as (-> & -> & ->). assert (rest' = []) as -> by (apply slice_neg; lia).
      change (bytes_words []) with (@nil Z). rewrite (@len_nil Z). cbn [last].
      split_and!; [lia..|].
      pose proof (last_map_seqZ (fun k => ld32 wb1 (4 * k)) (len cw)) as Hl. rewrite Ewb in Hl.
      by rewrite Hl by lia.
Qed.

(** ** What a piece of the encoder emits

    [emits cap m accs lw]: from any cursor inside the buffer, [m] appends the
    words of [accs] and counts them when they fit, and otherwise stores no
    more than a prefix and fails; [lw], if given, becomes the last word. *)

Definition emitted (e : enc) (accs : list access) (lw : option (Z * Z)) : enc :=
  Enc (blit (enc_pkt e) (enc_pw e) (body_words accs)) (enc_pw e + len (body_words accs))
    (enc_acc e +u32 len accs)
    (default (enc_last_addr e) (fst <$> lw)) (default (enc_last_val e) (snd <$> lw)).

Definition emits (cap : Z) (m : stE enc stop unit) (accs : list access) (lw : option (Z * Z)) : Prop :=
  forall e, 0 <= enc_pw e <= cap -> is_u32 (enc_acc e) ->
    if enc_pw e + len (body_words accs) <=? cap then m e = (emitted e accs lw, Ok tt)
    else exists e' pre, m e = (e', Err (RetCode (-1))) /\
           enc_pkt e' = blit (enc_pkt e) (enc_pw e) pre /\ enc_pw e + len pre <= cap.

Lemma body_words_app a b : body_words (a ++ b) = body_words a ++ body_words b.
Proof. unfold body_words. by rewrite map_app, concat_app. Qed.

Lemma emits_ret cap : emits cap (mret tt) [] None.
Proof.
  intros e He Ha. change (body_words []) with (@nil Z). rewrite (@len_nil Z).
  replace (_ <=? cap) with true by lia. unfold emitted, mret, stE_ret. destruct e; cbn in *.
  rewrite Z.add_0_r. change (len []) with 0. rewrite Z.add_0_r, u32_small by (unfold is_u32 in Ha; lia).
  done.
Qed.

Lemma emits_bind cap m1 m2 a1 a2 lw1 lw2 :
  emits cap m1 a1 lw1 -> emits cap m2 a2 lw2 ->
  emits cap (m1 ;; m2) (a1 ++ a2) (match lw2 with Some _ => lw2 | None => lw1 end).
Proof.
  intros H1 H2 e He Ha. specialize (H1 e He Ha). rewrite body_words_app, len_app.
  pose proof (len_nonneg (body_words a1)). pose proof (len_nonneg (body_words a2)).
  destruct (Z.leb_spec (enc_pw e + len (body_words a1)) cap) as [Hf1|Hf1].
  2: { replace (_ <=? cap) with false by lia. destruct H1 as (e' & pre & E & Ep & Hl).
       exists e', pre. split; [|done]. by erewrite bind_Err. }
  specialize (H2 (emitted e a1 lw1)). cbn [emitted enc_pw enc_acc enc_pkt] in H2.
  rewrite <- Z.add_assoc in H2. specialize (H2 ltac:(lia) (u32_range _)).
  erewrite bind_Ok by done. destruct (_ <=? cap) eqn:Hf2.
  - rewrite H2. f_equal. unfold emitted; cbn. rewrite body_words_app, blit_app, !len_app by lia.
    f_equal; [lia| |by destruct lw2, lw1..].
    unfold u32. rewrite Z.add_mod_idemp_l by lia. f_equal. lia.
  - destruct H2 as (e' & pre & E & Ep & Hl). exists e', (body_words a1 ++ pre).
    split_and!; [done| |rewrite len_app; lia]. rewrite Ep, blit_app by lia. done.
Qed.

Lemma emits_forM {A} cap (xs : list A) body (accs : A -> list access) (lw : A -> option (Z * Z)) :
  Forall (fun x => emits cap (body x) (accs x) (lw x)) xs ->
  emits cap (forM xs body) (concat (map accs xs))
    (foldr (fun x r => match r with Some _ => r | None => lw x end) None xs).
Proof.
  induction 1 as [|x xs Hx _ IH]; [apply emits_ret|]. cbn [forM map concat foldr].
  by apply emits_bind.
Qed.

Lemma write1_words sid addr v ret :
  pktize_words sid addr (take (Z.to_nat 1) [v]) false ret = body_words [put1_access sid (addr, v)].
Proof. done. Qed.

Lemma emits_put1 cap sid addr v :
  0 <= cap -> cap + 8 < 2 ^ 32 -> emits cap (cpe_put1 cap sid addr v) [put1_access sid (addr, v)] None.
Proof.
  intros Hc Hcap e He Ha. unfold cpe_put1. rewrite (u32_small (cap - enc_pw e)) by lia.
  destruct (cpe_pktize_result (enc_pkt e) (enc_pw e) (cap - enc_pw e) sid addr [v] 1 false 0)
    as (pre & -> & Hpre & Hlen); [try done; lia..|].
  rewrite write1_words in *. change (len (body_words [_])) with 3 in *.
  destruct (Z.leb_spec (enc_pw e + 3) cap) as [Hf|Hf].
  - replace (3 <=? _) with true by lia. cbn [Z.eqb]. rewrite Hpre by lia.
    unfold emitted. change (len (body_words [_])) with 3. rewrite (u32_small (_ + 3)) by lia.
    done.
  - replace (3 <=? _) with false by lia. cbn [Z.eqb]. eexists _, pre. split_and!; [done..|lia].
Qed.

Lemma emits_forM_none {A} cap (xs : list A) body (accs : A -> list access) :
  (forall x, emits cap (body x) (accs x) None) -> emits cap (forM xs body) (concat (map accs xs)) None.
Proof.
  intros H. replace None with
    (foldr (fun (_ : A) r => match r with Some _ => r | None => @None (Z * Z) end) None xs).
  - apply (emits_forM _ _ _ _ (fun _ => None)). by apply Forall_true.
  - induction xs as [|x xs IH]; [done|]. cbn. by rewrite IH.
Qed.

Lemma emits_reset cap d sid :
  0 <= cap -> cap + 8 < 2 ^ 32 ->
  emits cap (cpe_reset d cap sid) (map (put1_access sid) (reset_writes d)) None.
Proof.
  intros Hc Hcap. unfold cpe_reset, reset_writes. rewrite !map_app, concat_map, map_map.
  refine (emits_bind _ _ _ [_] _ None None _ _); [by apply emits_put1|].
  refine (emits_bind _ _ _ _ [_] None None _ _); [|by apply emits_put1].
  apply emits_forM_none. intros v. rewrite map_map.
  match goal with |- emits _ (forM ?xs ?b) (map ?f ?xs) _ =>
    replace (map f xs) with (concat (map (fun x => [f x]) xs)) end.
  - apply emits_forM_none. intros c. by apply emits_put1.
  - generalize (range 0 (2 *u32 dma_nch d)) as l. induction l as [|x l IH]; [done|]. cbn. by rewrite IH.
Qed.

(** ** Segments *)

Lemma foldl_count {A} (l : list A) a : is_u32 a -> foldl (fun a _ => a +u32 1) a l = a +u32 len l.
Proof.
  revert a. induction l as [|x l IH]; intros a Ha.
  - cbn. change (len []) with 0. rewrite Z.add_0_r, u32_small; [done|apply Ha].
  - cbn [foldl]. rewrite IH by apply u32_range. rewrite len_cons. unfold u32.
    rewrite Z.add_mod_idemp_l by lia. f_equal. lia.
Qed.

Lemma len_write_accesses sid addr cs : len (write_accesses sid addr cs) = len cs.
Proof. revert addr. induction cs; intros; [done|]. cbn [write_accesses]. by rewrite !len_cons, IHcs. Qed.

(** The last word of one segment. *)
Definition seg_last_word (s : Z * list Z) : Z * Z :=
  (u32 (s.1 + 4 * (len (bytes_words s.2) - 1)), default 0 (last (bytes_words s.2))).

Lemma emits_seg cap sid elf src filesz ta :
  0 <= src -> 0 < filesz -> src + filesz <= len elf -> filesz + 32 < 2 ^ 32 ->
  0 <= cap -> cap + 8 < 2 ^ 32 ->
  let s := (ta, slice elf src filesz) in
  emits cap (cpe_seg sid elf src filesz ta cap) (seg_accesses sid s) (Some (seg_last_word s)).
Proof.
  intros Hs Hf Hl Hfs Hc Hcap s e He Ha. unfold cpe_seg.
  destruct (cpe_seg_loop_spec (S (Z.to_nat filesz)) sid elf src filesz ta cap (enc_pkt e) (enc_pw e)
              (enc_acc e) 0 0 (replicate 16 0)) as (pre & off' & nw' & wb' & E & Hpre & Hlen & _ & Hlast);
    [lia..|done|].
  rewrite !Z.add_0_r, Z.sub_0_r in *. fold (s.2) in *. rewrite E. clear E.
  change (seg_words sid ta (slice elf src filesz)) with (body_words (seg_accesses sid s)) in *.
  destruct (Z.leb_spec (enc_pw e + len (body_words (seg_accesses sid s))) cap) as [Hfit|Hno].
  - destruct (Hlast ltac:(lia) Hfit) as (Hn & Ho & Ea & Ew). clear Hlast. rewrite Hpre by done.
    replace (z2b nw') with true by (unfold z2b; lia). f_equal. unfold emitted, seg_last_word. cbn.
    rewrite Ew, foldl_count by done. unfold seg_accesses. rewrite len_write_accesses. cbn.
    rewrite (u32_small (off' - 16)), (u32_small (nw' - 1)), (u32_small ((nw' - 1) * 4)) by lia.
    f_equal. unfold u32. rewrite Z.add_mod_idemp_l by lia. f_equal. lia.
  - eexists _, pre. split_and!; [done|done|lia].
Qed.

(** Program headers whose bytes are in the file. *)
Definition phdrs_ok (elf : list Z) : Prop :=
  bytes_ok elf /\
  Forall (fun i => loadable elf i = true ->
            p_offset elf i + p_filesz elf i <= len elf /\ p_filesz elf i + 32 < 2 ^ 32)
    (range 0 (e_phnum elf)).

Lemma cpe_encode_phdr_eq d elf col row sid cap i :
  cpe_encode_phdr d elf col row sid cap i =
  if loadable elf i then
    match rt_cpe_target d col row (p_paddr elf i) with
    | None => throw (RetCode (-1))
    | Some ta => if ta =? RT_CPE_SKIP_ADDR then mret tt
                 else cpe_seg sid elf (p_offset elf i) (p_filesz elf i) ta cap
    end
  else mret tt.
Proof. unfold cpe_encode_phdr, loadable. by destruct (_ =? _), (_ =? _). Qed.

Lemma loadable_filesz elf i : bytes_ok elf -> loadable elf i = true -> 0 < p_filesz elf i.
Proof.
  intros Hb Hl. pose proof (ld32_range elf (phdr_at elf i + 16) Hb) as R. unfold is_u32 in R.
  unfold loadable in Hl. unfold p_filesz in *. destruct (_ =? 0) eqn:E in Hl; [|lia].
  by rewrite andb_false_r in Hl.
Qed.

Section Phdrs.
Context (d : rt_cpe_dev) (elf : list Z) (col row sid cap : Z).
Hypothesis Hbytes : bytes_ok elf.
Hypothesis Hc : 0 <= cap.
Hypothesis Hcap : cap + 8 < 2 ^ 32.

Lemma emits_phdrs idxs segs :
  Forall (fun i => loadable elf i = true ->
            p_offset elf i + p_filesz elf i <= len elf /\ p_filesz elf i + 32 < 2 ^ 32) idxs ->
  seg_list d elf col row idxs = Some segs ->
  emits cap (forM idxs (cpe_encode_phdr d elf col row sid cap))
    (concat (map (seg_accesses sid) segs)) (seg_last_word <$> last segs).
Proof.
  intros Hok. revert segs. induction Hok as [|i idxs Hi Hok IH]; intros segs Hs.
  { injection Hs as <-. apply emits_ret. }
  cbn [seg_list forM] in *. rewrite cpe_encode_phdr_eq. destruct (loadable elf i) eqn:El; [|by apply IH].
  destruct (rt_cpe_target _ _ _ _) as [ta|]; [|done].
  destruct (ta =? RT_CPE_SKIP_ADDR); [by apply IH|].
  destruct (seg_list d elf col row idxs) as [rest|] eqn:Er; [|done]. cbn in Hs. injection Hs as <-.
  cbn [map concat]. destruct (Hi eq_refl) as [Hin Hsz].
  replace (seg_last_word <$> last (_ :: rest)) with
    (match seg_last_word <$> last rest with Some _ => seg_last_word <$> last rest
     | None => Some (seg_last_word (ta, slice elf (p_offset elf i) (p_filesz elf i))) end)
    by (by destruct rest as [|? ?] using rev_ind; rewrite ?last_snoc, ?app_comm_cons, ?last_snoc).
  apply emits_bind; [|by apply IH]. apply emits_seg; try done.
  - apply (ld32_range elf _ Hbytes).
  - by apply loadable_filesz.
Qed.

Lemma phdrs_no_place idxs :
  Forall (fun i => loadable elf i = true ->
            p_offset elf i + p_filesz elf i <= len elf /\ p_filesz elf i + 32 < 2 ^ 32) idxs ->
  seg_list d elf col row idxs = None ->
  forall e, 0 <= enc_pw e <= cap -> is_u32 (enc_acc e) ->
  exists e' pre, forM idxs (cpe_encode_phdr d elf col row sid cap) e = (e', Err (RetCode (-1))) /\
    enc_pkt e' = blit (enc_pkt e) (enc_pw e) pre /\ enc_pw e + len pre <= cap.
Proof.
  induction 1 as [|i idxs Hi Hok IH]; [done|]. intros Hs e He Ha.
  cbn [seg_list forM] in *. rewrite cpe_encode_phdr_eq. destruct (loadable elf i) eqn:El; [|by apply IH].
  destruct (rt_cpe_target _ _ _ _) as [ta|].
  2: { exists e, []. split_and!; [done|done|]. rewrite (@len_nil Z). lia. }
  destruct (ta =? RT_CPE_SKIP_ADDR); [by apply IH|].
  destruct (seg_list d elf col row idxs) as [rest|] eqn:Er; [done|]. clear Hs.
  destruct (Hi eq_refl) as [Hin Hsz].
  pose proof (emits_seg cap sid elf (p_offset elf i) (p_filesz elf i) ta) as Hseg.
  specialize (Hseg ltac:(apply (ld32_range elf _ Hbytes)) ltac:(by apply loadable_filesz) Hin Hsz Hc Hcap e He Ha).
  cbn zeta in Hseg. set (accs := seg_accesses _ _) in *.
  destruct (Z.leb_spec (enc_pw e + len (body_words accs)) cap) as [Hf|Hf].
  - erewrite bind_Ok by exact Hseg. pose proof (len_nonneg (body_words accs)).
    destruct (IH eq_refl (emitted e accs (Some (seg_last_word (ta, slice elf (p_offset elf i) (p_filesz elf i))))))
      as (e' & pre & E & Ep & Hl); [cbn [emitted enc_pw]; lia|apply u32_range|].
    exists e', (body_words accs ++ pre). cbn [emitted enc_pkt enc_pw] in *.
    split_and!; [done| |rewrite len_app; lia]. by rewrite Ep, blit_app by lia.
  - destruct Hseg as (e' & pre & E & Ep & Hl). exists e', pre. split_and!; [|done..]. by erewrite bind_Err.
Qed.
End Phdrs.

(** ** The whole body *)

Definition body_ack (sid : Z) (segs : list (Z * list Z)) : access :=
  ack_access sid (last_word segs).1 0 (last_word segs).2.

Definition body_stream (d : rt_cpe_dev) (sid : Z) (want_reset : bool) (segs : list (Z * list Z))
    : list access :=
  body_accesses d sid want_reset segs ++ [body_ack sid segs].

Lemma emits_when cap (c : bool) m accs :
  emits cap m accs None -> emits cap (when c m) (if c then accs else []) None.
Proof. intros H. destruct c; [done|apply emits_ret]. Qed.

(** Every access takes at least two words. *)
Lemma body_words_le accs : 2 * len accs <= len (body_words accs).
Proof.
  unfold body_words. induction accs as [|a accs IH]; [done|]. cbn [map concat].
  rewrite len_app, len_access_words, len_cons. pose proof (len_nonneg (a_data a)). lia.
Qed.

Lemma last_word_eq segs (e : enc) :
  enc_last_addr e = 0 -> enc_last_val e = 0 ->
  last_word segs = (default (enc_last_addr e) (fst <$> (seg_last_word <$> last segs)),
                    default (enc_last_val e) (snd <$> (seg_last_word <$> last segs))).
Proof. intros -> ->. unfold last_word. by destruct (last segs) as [[ta bs]|]. Qed.

Lemma encode_body_prefix d elf col row sid want_reset cap segs :
  phdrs_ok elf -> 0 <= cap -> cap + 8 < 2 ^ 32 -> body_segs d elf col row = Some segs ->
  emits cap (when want_reset (cpe_reset d cap sid) ;;
             forM (range 0 (e_phnum elf)) (cpe_encode_phdr d elf col row sid cap))
    (body_accesses d sid want_reset segs) (seg_last_word <$> last segs).
Proof.
  intros [Hb Hok] Hc Hcap Hs. unfold body_accesses.
  replace (seg_last_word <$> last segs) with
    (match seg_last_word <$> last segs with Some _ => seg_last_word <$> last segs | None => None end)
    by by destruct (last segs).
  apply emits_bind; [by apply emits_when, emits_reset|by apply emits_phdrs].
Qed.

Lemma bind_assoc {S E A B C} (m : stE S E A) (f : A -> stE S E B) (g : B -> stE S E C) s :
  ((m ≫= f) ≫= g) s = (m ≫= (fun a => f a ≫= g)) s.
Proof. unfold mbind, stE_bind. by destruct (m s) as [s' [a|e]]. Qed.

(** The closing write-with-return. *)
Lemma encode_body_spec d elf col row sid want_reset cap segs pkt :
  phdrs_ok elf -> 0 <= cap -> cap + 8 < 2 ^ 32 -> body_segs d elf col row = Some segs ->
  let accs := body_accesses d sid want_reset segs in
  let ws := body_words (body_stream d sid want_reset segs) in
  exists e', enc_pkt e' = blit pkt 0 ws /\
  if negb (len accs =? 0) && (len ws <=? cap)
  then rt_cpe_encode_body d elf col row sid want_reset cap (enc_init pkt) = (e', Ok (len ws, len accs))
  else (rt_cpe_encode_body d elf col row sid want_reset cap (enc_init pkt)).2 = Err (RetCode (-1)).
Proof.
  intros Hok Hc Hcap Hs accs ws.
  pose proof (encode_body_prefix d elf col row sid want_reset cap segs Hok Hc Hcap Hs
                (enc_init pkt)) as H.
  cbn [enc_init enc_pw enc_acc] in H. specialize (H ltac:(lia) ltac:(unfold is_u32; lia)). fold accs in H.
  rewrite Z.add_0_l in H. unfold rt_cpe_encode_body. rewrite <- bind_assoc.
  assert (len ws = len (body_words accs) + 3) as Lw.
  { subst ws. unfold body_stream. rewrite body_words_app, len_app. done. }
  pose proof (body_words_le accs) as Hle. pose proof (len_nonneg accs).
  destruct (Z.leb_spec (len (body_words accs)) cap) as [Hf|Hf].
  2: { exists (enc_init (blit pkt 0 ws)). split; [done|]. replace (len ws <=? cap) with false by lia.
       rewrite andb_false_r. destruct H as (e' & pre & E & _). by erewrite bind_Err. }
  erewrite bind_Ok by exact H. clear H. set (e := emitted _ _ _).
  assert (enc_acc e = len accs) as Ea by (subst e; cbn [emitted enc_acc enc_init]; unwrap; lia).
  assert (enc_pw e = len (body_words accs)) as Ew by (subst e; cbn [emitted enc_pw enc_init]; lia).
  rewrite (bind_Ok getS _ e e e eq_refl). rewrite Ea, Ew.
  destruct (Z.eqb_spec (len accs) 0) as [E0|E0].
  { exists (enc_init (blit pkt 0 ws)). split; [done|]. cbn [negb andb orb]. reflexivity. }
  replace (len (body_words accs) =? 0) with false by lia. cbn [orb negb andb].
  rewrite (u32_small (cap - _)) by lia.
  destruct (cpe_pktize_result (enc_pkt e) (len (body_words accs)) (cap - len (body_words accs)) sid
              (enc_last_addr e) [enc_last_val e] 1 true 0) as (pre & -> & Hpre & _); [try done; lia..|].
  change (pktize_words sid (enc_last_addr e) (take (Z.to_nat 1) [enc_last_val e]) true 0) with
    (body_words [ack_access sid (enc_last_addr e + 4 * (1 - 1)) 0 (enc_last_val e)]) in *.
  rewrite Z.add_0_r in *.
  change (len (body_words [_])) with 3 in *. rewrite Lw.
  destruct (Z.leb_spec 3 (cap - len (body_words accs))) as [Hr|Hr].
  2: { exists (enc_init (blit pkt 0 ws)). replace (_ + 3 <=? cap) with false by lia. done. }
  replace (_ + 3 <=? cap) with true by lia.
  rewrite Hpre by lia. rewrite (u32_small (_ + 3)) by lia. eexists. split; [|reflexivity].
  cbn [fst enc_pkt]. subst e ws. cbn [emitted enc_pkt enc_init enc_pw enc_last_addr enc_last_val].
  unfold body_stream, body_ack. rewrite (last_word_eq segs (enc_init pkt)) by done.
  rewrite body_words_app. cbn [fst snd enc_last_addr enc_last_val enc_init].
  rewrite <- blit_app by lia. done.
Qed.

Lemma encode_body_no_place d elf col row sid want_reset cap pkt :
  phdrs_ok elf -> 0 <= cap -> cap + 8 < 2 ^ 32 -> body_segs d elf col row = None ->
  (rt_cpe_encode_body d elf col row sid want_reset cap (enc_init pkt)).2 = Err (RetCode (-1)).
Proof.
  intros [Hb Hok] Hc Hcap Hs. unfold rt_cpe_encode_body.
  pose proof (emits_when cap want_reset _ _ (emits_reset cap d sid Hc Hcap) (enc_init pkt)) as H.
  cbn [enc_init enc_pw enc_acc] in H. specialize (H ltac:(lia) ltac:(unfold is_u32; lia)).
  destruct (_ <=? cap) eqn:Hf.
  - erewrite bind_Ok by exact H. set (e := emitted _ _ _).
    pose proof (len_nonneg (body_words (if want_reset then map (put1_access sid) (reset_writes d) else []))).
    destruct (phdrs_no_place d elf col row sid cap Hb Hc Hcap _ Hok Hs e) as (e' & pre & E & _).
    + subst e. cbn [emitted enc_pw enc_init]. lia.
    + apply u32_range.
    + by erewrite bind_Err.
  - destruct H as (e' & pre & E & _). by erewrite bind_Err.
Qed.

(** ** What the body does to a tile *)

Definition write_reg (m : tile_mem) (w : Z * Z) : tile_mem := store_words m (w.1 mod 2 ^ 20) [w.2].
Definition load_seg (m : tile_mem) (s : Z * list Z) : tile_mem := store_words m s.1 (bytes_words s.2).

(** The reset pulse, then the segments in program-header order. *)
Definition body_effect (d : rt_cpe_dev) (want_reset : bool) (segs : list (Z * list Z)) (m : tile_mem)
    : tile_mem :=
  foldl load_seg (if want_reset then foldl write_reg m (reset_writes d) else m) segs.

Definition seg_in_tile (s : Z * list Z) : Prop := 0 <= s.1 /\ s.1 + 4 * len (bytes_words s.2) <= 2 ^ 20.

Lemma load_segs_ext segs : forall m m', (forall a, m a = m' a) ->
  forall a, foldl load_seg m segs a = foldl load_seg m' segs a.
Proof.
  induction segs as [|s segs IH]; intros m m' H a; [apply H|]. cbn [foldl]. apply IH.
  intros b. by apply store_words_ext.
Qed.

Lemma run_segs sid segs : Forall seg_in_tile segs -> forall m a,
  run_accesses m (concat (map (seg_accesses sid) segs)) a = foldl load_seg m segs a.
Proof.
  induction 1 as [|s segs [H0 H1] _ IH]; intros m a; [done|]. cbn [map concat foldl].
  rewrite run_accesses_app, IH. apply load_segs_ext. intros b. by apply run_write_accesses.
Qed.

Lemma run_put1s sid ws m : run_accesses m (map (put1_access sid) ws) = foldl write_reg m ws.
Proof. revert m. induction ws as [|w ws IH]; intros m; [done|]. apply IH. Qed.

(** Writing the last word of a block again changes nothing. *)
Lemma store_last_again m ta ws w a :
  last ws = Some w ->
  store_words (store_words m ta ws) (ta + 4 * (len ws - 1)) [w] a = store_words m ta ws a.
Proof.
  intros Hl. unfold store_words at 1. change (4 * len [w]) with 4.
  destruct (_ && _ && _) eqn:E; [|done]. unfold store_words.
  assert (0 < len ws). { destruct ws; [done|]. rewrite len_cons. pose proof (len_nonneg ws). lia. }
  assert (a = ta + 4 * (len ws - 1)) as -> by (Z.div_mod_to_equations; lia).
  replace (ta + 4 * (len ws - 1) - ta) with ((len ws - 1) * 4) by lia.
  rewrite Z.div_mul, Z.mod_mul by lia.
  replace (_ && _ && _) with true by (symmetry; lia).
  rewrite Z.sub_diag. change (rd [w] (0 / 4)) with w. rewrite last_lookup in Hl. unfold rd, len.
  replace (Z.to_nat (Z.of_nat (length ws) - 1)) with (pred (length ws)) by lia. by rewrite Hl.
Qed.

Lemma run_body d sid want_reset segs m a :
  segs <> [] -> Forall seg_in_tile segs -> Forall (fun s => 0 < len s.2) segs ->
  run_accesses m (body_stream d sid want_reset segs) a = body_effect d want_reset segs m a.
Proof.
  intros Hne Hin Hpos. unfold body_stream, body_accesses, body_effect.
  rewrite run_accesses_app, run_accesses_app.
  replace (run_accesses m (if want_reset then _ else _)) with
    (if want_reset then foldl write_reg m (reset_writes d) else m)
    by (destruct want_reset; [by rewrite run_put1s|done]).
  set (m1 := if want_reset then _ else _).
  destruct segs as [|[ta bs] segs' _] using rev_ind; [done|].
  unfold body_ack, last_word. rewrite last_snoc. cbn [fst snd].
  apply Forall_app in Hin as [Hin [[H0 H1] _]%Forall_cons], Hpos as [_ [Hb _]%Forall_cons].
  cbn [fst snd] in *. apply bytes_words_nonnil in Hb. pose proof (len_nonneg (bytes_words bs)).
  destruct (last (bytes_words bs)) as [w|] eqn:Hl; [|by apply last_None in Hl].
  assert (0 < len (bytes_words bs)).
  { destruct (bytes_words bs); [done|]. rewrite len_cons. pose proof (len_nonneg l). lia. }
  change (run_accesses ?m0 [ack_access sid ?ad 0 ?v]) with (store_words m0 (ad mod 2 ^ 20) [v]).
  rewrite u32_mod20, Z.mod_small by lia. rewrite (store_words_ext _ (foldl load_seg m1 (segs' ++ [(ta, bs)]))).
  - rewrite foldl_app. cbn [foldl]. unfold load_seg at 1. cbn [fst snd]. by apply store_last_again.
  - intros b. apply run_segs. apply Forall_app. split; [done|]. by repeat constructor.
Qed.

(** ** Sizes *)

Definition seg_size (s : Z * list Z) : Z := (len s.2 + 3) / 4 + 2 * ((len s.2 + 15) / 16).
Definition sum_list (l : list Z) : Z := foldr Z.add 0 l.

(** Words of an encoded body, with its closing write-with-return. *)
Definition body_size (d : rt_cpe_dev) (want_reset : bool) (segs : list (Z * list Z)) : Z :=
  (if want_reset then 3 * len (reset_writes d) else 0) + sum_list (map seg_size segs) + 3.

Lemma len_put1s sid ws : len (body_words (map (put1_access sid) ws)) = 3 * len ws.
Proof.
  induction ws as [|w ws IH]; [done|].
  change (body_words (map (put1_access sid) (w :: ws))) with
    (access_words (put1_access sid w) ++ body_words (map (put1_access sid) ws)).
  rewrite len_app, IH, len_cons. change (len (access_words _)) with 3. lia.
Qed.

Lemma len_segs_words sid segs :
  len (body_words (concat (map (seg_accesses sid) segs))) = sum_list (map seg_size segs).
Proof.
  induction segs as [|s segs IH]; [done|]. cbn [map concat sum_list foldr].
  rewrite body_words_app, len_app, IH. f_equal. apply len_seg_words.
Qed.

Lemma len_body_stream d sid want_reset segs :
  len (body_words (body_stream d sid want_reset segs)) = body_size d want_reset segs.
Proof.
  unfold body_stream, body_accesses, body_size. rewrite !body_words_app, !len_app, len_segs_words.
  change (len (body_words [_])) with 3. destruct want_reset; [by rewrite len_put1s|done].
Qed.

Lemma put1_access_ok sid w : access_ok (put1_access sid w).
Proof.
  constructor; cbn -[Z.land Z.modulo]; try (unfold OP_WRITE; lia); try done.
  - apply sid_land_range.
  - apply Z.mod_pos_bound. lia.
Qed.

Lemma body_stream_ok d sid want_reset segs : Forall access_ok (body_stream d sid want_reset segs).
Proof.
  unfold body_stream, body_accesses. rewrite !Forall_app. split_and!.
  - destruct want_reset; [|constructor]. apply Forall_fmap, Forall_true. intros. apply put1_access_ok.
  - apply Forall_concat, Forall_fmap, Forall_true. intros. apply write_accesses_ok, chunks4_bounds.
  - constructor; [apply ack_access_ok|constructor].
Qed.

Lemma body_stream_op d sid want_reset segs k a :
  body_stream d sid want_reset segs !! k = Some a ->
  a_op a = if (S k =? length (body_stream d sid want_reset segs))%nat then OP_WRITE_RET else OP_WRITE.
Proof.
  unfold body_stream. rewrite length_app. cbn [length].
  assert (Forall (fun a => a_op a = OP_WRITE) (body_accesses d sid want_reset segs)) as H.
  { unfold body_accesses. apply Forall_app. split.
    - destruct want_reset; [|constructor]. apply Forall_fmap, Forall_true. done.
    - apply Forall_concat, Forall_fmap, Forall_true. intros s.
      eapply Forall_impl; [apply write_accesses_fields|]. by intros ? []. }
  set (l := body_accesses d sid want_reset segs) in *. intros E.
  destruct (Nat.eqb_spec (S k) (length l + 1)) as [Ek|Ek].
  - rewrite lookup_app_r in E by lia. replace (k - length l)%nat with 0%nat in E by lia.
    by injection E as <-.
  - assert (k < length l)%nat as Hk.
    { apply lookup_lt_Some in E. rewrite length_app in E. cbn in E. lia. }
    rewrite lookup_app_l in E by done. by eapply Forall_lookup_1 in H.
Qed.

Lemma seg_list_pos d elf col row idxs segs :
  bytes_ok elf ->
  Forall (fun i => loadable elf i = true ->
            p_offset elf i + p_filesz elf i <= len elf /\ p_filesz elf i + 32 < 2 ^ 32) idxs ->
  seg_list d elf col row idxs = Some segs -> Forall (fun s => 0 < len s.2) segs.
Proof.
  intros Hb Hok. revert segs. induction Hok as [|i idxs Hi _ IH]; intros segs; cbn [seg_list].
  { intros [= <-]. constructor. }
  destruct (loadable elf i) eqn:El; [|apply IH]. destruct (rt_cpe_target _ _ _ _) as [ta|]; [|done].
  destruct (ta =? RT_CPE_SKIP_ADDR); [apply IH|].
  destruct (seg_list d elf col row idxs) as [rest|]; [|done]. cbn. intros [= <-].
  constructor; [|by apply IH]. cbn [snd]. pose proof (loadable_filesz elf i Hb El).
  pose proof (ld32_range elf (phdr_at elf i + 4) Hb) as R. unfold is_u32 in R.
  fold (p_offset elf i) in R. rewrite len_slice; [done|lia|lia|apply Hi; done].
Qed.

(** There is something to send unless nothing was asked for. *)
Lemma body_accesses_zero d sid want_reset segs :
  Forall (fun s => 0 < len s.2) segs ->
  (len (body_accesses d sid want_reset segs) =? 0) = negb want_reset && (len segs =? 0).
Proof.
  intros Hpos. unfold body_accesses. rewrite len_app. destruct want_reset; cbn [negb andb].
  { pose proof (len_nonneg (concat (map (seg_accesses sid) segs))).
    unfold reset_writes. cbn [map app]. rewrite len_cons.
    match goal with |- context [1 + len ?l] => pose proof (len_nonneg l) end. lia. }
  change (len []) with 0. destruct Hpos as [|s segs Hs _]; [done|]. cbn [map concat]. rewrite len_app, len_cons.
  unfold seg_accesses at 1. rewrite len_write_accesses. unfold len at 1. rewrite length_chunks4, len_bytes_words.
  pose proof (len_nonneg segs). pose proof (len_nonneg (concat (map (seg_accesses sid) segs))).
  assert (0 < ((len s.2 + 3) / 4 + 3) / 4) by (Z.div_mod_to_equations; lia). lia.
Qed.

(** ** Properties *)

(** A small ELF: one loadable segment of six bytes for data memory. *)
Definition elf_example : list Z :=
  replicate 28 0 ++ [52; 0; 0; 0] ++ replicate 10 0 ++ [32; 0; 1; 0] ++ replicate 6 0 ++
  [1; 0; 0; 0; 84; 0; 0; 0; 0; 0; 0; 0; 0x20; 0; 0x07; 0; 6; 0; 0; 0] ++ replicate 12 0 ++
  [0xA1; 0xA2; 0xA3; 0xA4; 0xA5; 0xA6].

Definition dev5 : rt_cpe_dev :=
  Eval vm_compute in default (Build_rt_cpe_dev 0 0 0 0 0 0 0 0 0 0 0) (rt_cpe_dev_for_gen 5).

Lemma phdrs_ok_example : phdrs_ok elf_example.
Proof.
  split.
  - unfold bytes_ok, is_u8. apply Forall_forall. intros x Hx. unfold elf_example in Hx. cbn in Hx.
    repeat (apply elem_of_cons in Hx as [->|Hx]; [lia|]). by apply elem_of_nil in Hx.
  - change (range 0 (e_phnum elf_example)) with [0]. constructor; [|constructor].
    intros _. vm_compute. intuition discriminate.
Qed.



(** ** Machine words *)

Lemma access_words_u32 b : access_ok b -> Forall is_u32 (a_data b) -> Forall is_u32 (access_words b).
Proof.
  intros Hb Hd. unfold access_words. constructor; [|constructor; [|done]].
  - pose proof (sid_land_range (a_sid b)) as Hs. unfold cpe_stream_hdr. rewrite with_parity_val by lia.
    pose proof (cpe_parity_range (a_sid b & 0x1F)). unfold is_u32. lia.
  - pose proof (ctrl_val_range (a_addr b) (a_beats b) (a_op b) (a_ret b) (ok_addr b Hb) (ok_beats b Hb) ltac:(pose proof (ok_op b Hb); lia) (ok_ret b Hb)) as Hc.
    rewrite cpe_ctrl_word_val by lia. pose proof (cpe_parity_range (ctrl_val (a_addr b) (a_beats b) (a_op b) (a_ret b))).
    unfold is_u32. lia.
Qed.

Lemma bytes_words_u32 l : bytes_ok l -> Forall is_u32 (bytes_words l).
Proof.
  induction l as [l IH] using (induction_ltof1 _ (@length Z)). unfold ltof in IH. intros H. unfold bytes_ok, is_u8 in *.
  destruct l as [|b0 [|b1 [|b2 [|b3 l]]]]; repeat match goal with H : Forall _ (_ :: _) |- _ => apply Forall_cons in H as [? H] end;
    cbn [bytes_words]; repeat constructor; unfold is_u32; try lia. apply IH; [cbn; lia|done].
Qed.

Lemma write_accesses_u32 sid cs : forall addr, Forall is_u32 (concat cs) -> Forall (fun b => Forall is_u32 (a_data b)) (write_accesses sid addr cs).
Proof.
  induction cs as [|c cs IH]; intros addr H; [constructor|]. cbn [concat] in H. apply Forall_app in H as [H1 H2].
  cbn [write_accesses]. constructor; [done|by apply IH].
Qed.

Lemma reset_writes_u32 d : is_u32 (core_rst_mask d) -> is_u32 (dma_ch_rst_mask d) -> Forall (fun w => is_u32 w.2) (reset_writes d).
Proof.
  intros H1 H2. unfold reset_writes. apply Forall_app. split; [constructor; [done|constructor]|].
  apply Forall_app. split; [|constructor; [unfold is_u32; cbn; lia|constructor]].
  apply Forall_concat, Forall_fmap, Forall_true. intros v. apply Forall_fmap, Forall_true. intros c. cbn. destruct (z2b v); [unfold is_u32; lia|done].
Qed.

Lemma last_forall {A} (P : A -> Prop) l x : Forall P l -> last l = Some x -> P x.
Proof. intros H E. apply last_Some in E as [l' ->]. by apply Forall_app in H as [_ [H _]%Forall_cons]. Qed.

Lemma body_stream_u32 d sid want_reset segs :
  is_u32 (core_rst_mask d) -> is_u32 (dma_ch_rst_mask d) -> Forall (fun s => bytes_ok s.2) segs ->
  Forall (fun b => Forall is_u32 (a_data b)) (body_stream d sid want_reset segs).
Proof.
  intros H1 H2 Hs. unfold body_stream, body_accesses. rewrite !Forall_app. split_and!.
  - destruct want_reset; [|constructor]. apply Forall_fmap. eapply Forall_impl; [by apply reset_writes_u32|]. intros w Hw. cbn. constructor; [exact Hw|constructor].
  - apply Forall_concat, Forall_fmap. eapply Forall_impl; [exact Hs|]. intros s Hb. apply write_accesses_u32.
    rewrite concat_chunks4. by apply bytes_words_u32.
  - constructor; [|constructor]. unfold body_ack, ack_access. cbn [a_data]. constructor; [|constructor]. unfold last_word.
    destruct (last segs) as [[ta bs]|] eqn:E; cbn [snd]; [|unfold is_u32; lia]. pose proof (last_forall _ _ _ Hs E) as Hb. cbn in Hb.
    destruct (last (bytes_words bs)) as [w|] eqn:Ew; cbn; [|unfold is_u32; lia]. exact (last_forall _ _ _ (bytes_words_u32 _ Hb) Ew).
Qed.

Lemma seg_list_bytes d elf col row idxs : forall segs,
  bytes_ok elf -> seg_list d elf col row idxs = Some segs -> Forall (fun s => bytes_ok s.2) segs.
Proof.
  induction idxs as [|i idxs IH]; intros segs Hb; cbn [seg_list]; [by intros [= <-]|].
  destruct (loadable elf i); [|by apply IH]. destruct (rt_cpe_target _ _ _ _) as [ta|]; [|done].
  destruct (ta =? RT_CPE_SKIP_ADDR); [by apply IH|]. destruct (seg_list d elf col row idxs) as [rest|]; [|done]. cbn. intros [= <-].
  constructor; [|by apply IH]. cbn. unfold slice. unfold bytes_ok in *. by apply Forall_take, Forall_drop.
Qed.


