(* ===== verification/CtrlpktTool.v ===== *)
(** * The offline control-packet tool

    Model of the part of [src/tool/ctrlpkt/aiehlc_ctrlpkt.c] that computes:
    the buffer it sizes for the encoder, the blob header it builds, the
    segments it lists, and the walk that annotates an encoded body.  Reading
    the manifest and the ELF and printing the header file are not modelled:
    the annotation is the list of events handed to the printing callbacks. *)

From stdpp Require Import base list list_numbers numbers.
From S2P Require Import Prelude.
From S2P Require Import CtrlpktEncode.
From S2P Require Import RuntimePkt.
From S2P Require Import CtrlpktFormat.
From S2P Require Import CtrlpktWrite.
From S2P Require Import CtrlpktBody.

Local Open Scope Z_scope.
Local Open Scope c_scope.

(** ** Data and operations *)

Definition CPE_ENC_COL : Z := 0.
Definition CPE_ENC_ROW : Z := 2.
Definition CPE_MAX_SEGS : Z := 64.
Definition RT_CPE_MAGIC : Z := 0x43504B31.
Definition RT_CPE_VERSION : Z := 2.

Record cpe_seg_info := SegInfo {
  si_phdr_idx : Z; si_paddr : Z; si_filesz : Z; si_tile_addr : Z }.

Record rt_cpe_blob_hdr := BlobHdr {
  bh_magic : Z; bh_version : Z; bh_aie_gen : Z; bh_fingerprint : Z;
  bh_stream_id : Z; bh_nresp : Z; bh_body_words : Z; bh_enc_tile : Z }.

(** The loop of [collect_segs] from header [i] on; [n] segments are filled. *)
Fixpoint collect_segs_from (d : rt_cpe_dev) (elf : list Z) (idxs : list Z) (n : Z) : list cpe_seg_info :=
  match idxs with
  | [] => []
  | i :: idxs =>
    if n <? CPE_MAX_SEGS then
      if negb (p_type elf i =? PT_LOAD) || (p_filesz elf i =? 0) then collect_segs_from d elf idxs n
      else match rt_cpe_target d CPE_ENC_COL CPE_ENC_ROW (p_paddr elf i) with
           | None => collect_segs_from d elf idxs n
           | Some ta =>
             if ta =? RT_CPE_SKIP_ADDR then collect_segs_from d elf idxs n
             else SegInfo i (p_paddr elf i) (p_filesz elf i) ta :: collect_segs_from d elf idxs (n + 1)
           end
    else []
  end.

Definition collect_segs (d : rt_cpe_dev) (elf : list Z) : list cpe_seg_info :=
  collect_segs_from d elf (range 0 (e_phnum elf)) 0.

Definition is_dma_ch_ctrl (d : rt_cpe_dev) (addr : Z) : bool :=
  (addr >=? dma_ch_ctrl_off d) &&
  (addr <? dma_ch_ctrl_off d +u32 (2 *u32 dma_nch d *u32 dma_ch_stride d)) &&
  ((addr -u32 dma_ch_ctrl_off d) mod dma_ch_stride d =? 0).

(** What the walk calls an access, and what it hands to the sink. *)
Inductive note :=
| NRet                  (* completion barrier *)
| NCoreCtrl (v : Z)     (* core reset, or its release *)
| NDmaCtrl (c v : Z)    (* reset or release of a DMA channel *)
| NWrite (seg : Z).     (* data of a PT_LOAD segment *)

Inductive event :=
| EBanner (at_ : Z) (n : note)
| EWarn (acc addr : Z)
| EAccess (at_ len_ addr : Z) (n : note).

Record walk := Walk { wk_cur : Z; wk_seg : Z; wk_left : Z }.

(** The body of the loop of [walk_body] for the access at [i]. *)
Definition walk_access (d : rt_cpe_dev) (body : list Z) (segs : list cpe_seg_info) (i acc : Z) (s : walk)
    : walk * list event :=
  let ctrl := rd body (i +u32 1) in
  let addr := ctrl & 0xFFFFF in
  let beats := ((ctrl >> 20) & 0x3) +u32 1 in
  let op := (ctrl >> 22) & 0x3 in
  let len_ := 2 +u32 beats in
  let v := rd body (i +u32 2) in
  if op =? 0x2 then (s, [EBanner i NRet; EAccess i len_ addr NRet])
  else if addr =? core_ctrl_off d then
    (Walk (-1) (wk_seg s) (wk_left s),
     (if wk_cur s =? -1 then [] else [EBanner i (NCoreCtrl v)]) ++ [EAccess i len_ addr (NCoreCtrl v)])
  else if is_dma_ch_ctrl d addr then
    let c := (addr -u32 dma_ch_ctrl_off d) / dma_ch_stride d in
    (Walk (-3) (wk_seg s) (wk_left s),
     (if wk_cur s =? -3 then [] else [EBanner i (NDmaCtrl c v)]) ++ [EAccess i len_ addr (NDmaCtrl c v)])
  else
    let next := (wk_left s =? 0) && (wk_seg s + 1 <? len segs) in
    let seg := if next then wk_seg s + 1 else wk_seg s in
    let info := default (SegInfo 0 0 0 0) (segs !! Z.to_nat seg) in
    let left := if next then (si_filesz info +u32 (4 * RT_CPE_CHUNK_WORDS) -u32 1) / (4 * RT_CPE_CHUNK_WORDS)
                else wk_left s in
    let left := if z2b left then left -u32 1 else left in
    let out := (seg <? 0) || (addr <? si_tile_addr info)
               || (addr >=? si_tile_addr info +u32 si_filesz info) in
    (Walk seg seg left,
     (if next then [EBanner i (NWrite seg)] else []) ++
     (if out then [EWarn acc addr] else []) ++ [EAccess i len_ addr (NWrite seg)]).

(** [None]: the fuel ran out. *)
Fixpoint walk_body_from (fuel : nat) (d : rt_cpe_dev) (body : list Z) (nwords : Z)
    (segs : list cpe_seg_info) (i acc : Z) (s : walk) : option (list event) :=
  match fuel with
  | O => None
  | S fuel =>
    if i +u32 2 <=? nwords then
      let len_ := 2 +u32 (((rd body (i +u32 1) >> 20) & 0x3) +u32 1) in
      if (i +u32 len_) >? nwords then Some []
      else
        let '(s', evs) := walk_access d body segs i acc s in
        app evs <$> walk_body_from fuel d body nwords segs (i +u32 len_) (acc +u32 1) s'
    else Some []
  end.

Definition walk_body (d : rt_cpe_dev) (body : list Z) (nwords : Z) (segs : list cpe_seg_info)
    : option (list event) :=
  walk_body_from (S (Z.to_nat nwords)) d body nwords segs 0 0 (Walk (-2) (-1) 0).

(** The buffer [main] allocates, in words. *)
Definition kernel_cap (d : rt_cpe_dev) (npkt : Z) : Z :=
  ((npkt +u32 rt_cpe_reset_accesses d +u32 1) *u32 (2 + RT_CPE_CHUNK_WORDS)) +u32 16.

(** [main] from the loaded ELF to the files' contents: the blob header, the
    body and the segment list, or exit code 1. [body] is what [malloc]
    returned. *)
Definition encode_kernel (malloc : Z -> list Z) (d : rt_cpe_dev) (gen : Z) (elf : list Z)
    (stream_id nresp : Z) (reset : bool) : res stop (rt_cpe_blob_hdr * list Z * list cpe_seg_info) :=
  let npkt := rt_cpe_count_pkts d elf CPE_ENC_COL CPE_ENC_ROW in
  let cap := kernel_cap d npkt in
  match rt_cpe_encode_body d elf CPE_ENC_COL CPE_ENC_ROW (u32 stream_id) reset cap
          (enc_init (malloc cap)) with
  | (_, Err NoFuel) => Err NoFuel
  | (_, Err (RetCode _)) => Err (RetCode 1)
  | (e, Ok (body_words, nacc)) =>
    Ok (BlobHdr RT_CPE_MAGIC RT_CPE_VERSION (u32 gen) (rt_cpe_fingerprint d (u32 stream_id))
          (u32 stream_id) (u32 nresp) body_words ((CPE_ENC_COL <<u32 16) |' CPE_ENC_ROW),
        slice (enc_pkt e) 0 body_words, collect_segs d elf)
  end.

(** ** The buffer is large enough *)

(** Packets of one program header, and of the whole file. *)
Definition phdr_pkts (d : rt_cpe_dev) (elf : list Z) (col row i : Z) : Z :=
  if loadable elf i then
    match rt_cpe_target d col row (p_paddr elf i) with
    | None => 0
    | Some ta => if ta =? RT_CPE_SKIP_ADDR then 0 else (p_filesz elf i + 15) / 16
    end
  else 0.

Definition kernel_pkts (d : rt_cpe_dev) (elf : list Z) (col row : Z) : Z :=
  sum_list (map (phdr_pkts d elf col row) (range 0 (e_phnum elf))).

Lemma sum_list_nonneg l : Forall (fun x => 0 <= x) l -> 0 <= sum_list l.
Proof. induction 1; [done|]. unfold sum_list in *. cbn [foldr]. lia. Qed.

Lemma phdr_pkts_nonneg d elf col row i : bytes_ok elf -> 0 <= phdr_pkts d elf col row i.
Proof.
  intros Hb. pose proof (ld32_range elf (phdr_at elf i + 16) Hb) as R. fold (p_filesz elf i) in R.
  unfold is_u32 in R. unfold phdr_pkts. repeat case_match; try done. Z.div_mod_to_equations. lia.
Qed.

Lemma sum_pkts_nonneg d elf col row idxs : bytes_ok elf -> 0 <= sum_list (map (phdr_pkts d elf col row) idxs).
Proof. intros Hb. apply sum_list_nonneg, Forall_fmap, Forall_true. intros. by apply phdr_pkts_nonneg. Qed.

Lemma count_pkts_step_eq d elf col row a i :
  bytes_ok elf -> p_filesz elf i + 32 < 2 ^ 32 \/ loadable elf i = false ->
  0 <= a -> a + phdr_pkts d elf col row i < 2 ^ 32 ->
  count_pkts_step d elf col row a i = a + phdr_pkts d elf col row i.
Proof.
  intros Hb Hsz Ha. pose proof (phdr_pkts_nonneg d elf col row i Hb) as Hn.
  pose proof (loadable_filesz elf i Hb) as Hpos. revert Hn Hsz Hpos.
  unfold count_pkts_step, phdr_pkts, loadable.
  destruct (p_type elf i =? PT_LOAD), (p_filesz elf i =? 0); cbn [negb orb andb]; try (intros; lia).
  destruct (rt_cpe_target _ _ _ _) as [ta|]; [|intros; lia].
  destruct (ta =? RT_CPE_SKIP_ADDR); [intros; lia|]. intros Hn [Hsz|?] Hpos Hs; [|done].
  specialize (Hpos eq_refl). change (4 * RT_CPE_CHUNK_WORDS) with 16. unwrap.
  replace (p_filesz elf i + 16 - 1) with (p_filesz elf i + 15) by lia. apply u32_small. lia.
Qed.

Lemma count_pkts_sum d elf col row :
  phdrs_ok elf -> kernel_pkts d elf col row < 2 ^ 32 ->
  rt_cpe_count_pkts d elf col row = kernel_pkts d elf col row.
Proof.
  intros [Hb Hok]. unfold rt_cpe_count_pkts, kernel_pkts.
  assert (forall a, 0 <= a -> a + sum_list (map (phdr_pkts d elf col row) (range 0 (e_phnum elf))) < 2 ^ 32 ->
    foldl (count_pkts_step d elf col row) a (range 0 (e_phnum elf)) =
    a + sum_list (map (phdr_pkts d elf col row) (range 0 (e_phnum elf)))) as H.
  2: { intros Hs. rewrite H; lia. }
  induction Hok as [|i idxs Hi _ IH]; intros a Ha; [cbn; lia|]. cbn [foldl map]. unfold sum_list in *.
  cbn [foldr]. intros Hs. pose proof (phdr_pkts_nonneg d elf col row i Hb).
  pose proof (sum_pkts_nonneg d elf col row idxs Hb) as Hn. unfold sum_list in Hn.
  rewrite count_pkts_step_eq; [|done| |done|lia].
  - rewrite IH by lia. lia.
  - destruct (loadable elf i); [left; by apply Hi|by right].
Qed.

Lemma segs_pkts d elf col row segs :
  phdrs_ok elf -> body_segs d elf col row = Some segs ->
  sum_list (map seg_size segs) <= 6 * kernel_pkts d elf col row.
Proof.
  intros [Hb Hok]. unfold body_segs, kernel_pkts. revert segs.
  induction Hok as [|i idxs Hi _ IH]; intros segs; cbn [seg_list map sum_list foldr].
  { intros [= <-]. done. }
  unfold sum_list in *. unfold phdr_pkts at 1. destruct (loadable elf i) eqn:El; [|by apply IH].
  destruct (rt_cpe_target _ _ _ _) as [ta|]; [|done]. destruct (ta =? RT_CPE_SKIP_ADDR); [by apply IH|].
  destruct (seg_list d elf col row idxs) as [rest|]; [|done]. cbn. intros [= <-].
  specialize (IH rest eq_refl). cbn [map foldr]. unfold seg_size at 1. cbn [snd].
  pose proof (loadable_filesz elf i Hb El).
  pose proof (ld32_range elf (phdr_at elf i + 4) Hb) as R. unfold is_u32 in R. fold (p_offset elf i) in R.
  rewrite len_slice by (try apply Hi; try done; lia).
  assert ((p_filesz elf i + 3) / 4 <= 4 * ((p_filesz elf i + 15) / 16)) by (Z.div_mod_to_equations; lia).
  lia.
Qed.

Lemma len_seqZ a n : 0 <= n -> len (seqZ a n) = n.
Proof. intros. unfold len. rewrite length_seqZ. lia. Qed.

Lemma len_reset_writes d : 0 <= dma_nch d < 2 ^ 29 -> len (reset_writes d) = rt_cpe_reset_accesses d.
Proof.
  intros H. unfold reset_writes, rt_cpe_reset_accesses. unwrap.
  change (range 0 2) with [0; 1]. cbn [map concat]. rewrite !len_app. unfold len at 2 3. rewrite !length_map.
  unfold range. rewrite !length_seqZ. change (len [_]) with 1. rewrite (@len_nil (Z * Z)). lia.
Qed.

(** ** The walk *)

(** Where each access of a stream starts, its length and its address. *)
Fixpoint layout (at_ : Z) (accs : list access) : list (Z * Z * Z) :=
  match accs with
  | [] => []
  | a :: accs => (at_, 2 + a_beats a, a_addr a) :: layout (at_ + (2 + a_beats a)) accs
  end.

Definition access_event (e : event) : option (Z * Z * Z) :=
  match e with EAccess at_ n addr _ => Some (at_, n, addr) | _ => None end.

Lemma ctrl_word_fields addr beats op ret :
  0 <= addr < 2 ^ 20 -> 1 <= beats <= 4 -> 0 <= op < 4 -> 0 <= ret < 2 ^ 5 ->
  let w := cpe_ctrl_word (ctrl_val addr beats op ret) in
  (w & 0xFFFFF) = addr /\ ((w >> 20) & 0x3) +u32 1 = beats /\ ((w >> 22) & 0x3) = op.
Proof.
  intros H1 H2 H3 H4 w. pose proof (parse_ctrl_word addr beats op ret H1 H2 H3 H4) as E. fold w in E.
  split_and!; [exact (f_equal cf_addr E)|exact (f_equal cf_beats E)|exact (f_equal cf_op E)].
Qed.

Lemma walk_access_event d body segs i acc s a :
  access_ok a -> 0 <= i -> i + 8 < 2 ^ 32 ->
  rd body (i + 1) = cpe_ctrl_word (ctrl_val (a_addr a) (a_beats a) (a_op a) (a_ret a)) ->
  omap access_event (walk_access d body segs i acc s).2 = [(i, 2 + a_beats a, a_addr a)].
Proof.
  intros [Hs Ha Ho Hr Hb _] Hi Hi2 E. unfold walk_access. rewrite (u32_small (i + 1)) by lia. rewrite E.
  destruct (ctrl_word_fields (a_addr a) (a_beats a) (a_op a) (a_ret a)) as (-> & -> & ->); [lia..|].
  rewrite (u32_small (2 + a_beats a)) by lia. by repeat case_match.
Qed.

Lemma rd_app_at pre (x : Z) post : rd (pre ++ x :: post) (len pre) = x.
Proof. unfold rd, len. rewrite Nat2Z.id. by rewrite list_lookup_middle. Qed.

(** The control word of an access in a stream. *)
Lemma rd_ctrl pre a post :
  rd (pre ++ access_words a ++ post) (len pre + 1) = cpe_ctrl_word (ctrl_val (a_addr a) (a_beats a) (a_op a) (a_ret a)).
Proof.
  unfold access_words. cbn [app]. change (pre ++ ?h :: ?c :: ?r) with (pre ++ [h] ++ c :: r). rewrite app_assoc.
  replace (len pre + 1) with (len (pre ++ [cpe_stream_hdr (a_sid a)])) by (by rewrite len_app). apply rd_app_at.
Qed.

Lemma len_access_words_ok a : access_ok a -> a_op a <> OP_READ -> len (access_words a) = 2 + a_beats a.
Proof.
  intros Ha Hr. unfold access_words. rewrite !len_cons, (ok_data a Ha).
  replace (a_op a =? OP_READ) with false by lia. lia.
Qed.

Lemma walk_body_from_spec d segs accs : forall fuel pre body i acc s,
  body = pre ++ body_words accs -> i = len pre ->
  Forall access_ok accs -> Forall (fun a => a_op a <> OP_READ) accs ->
  len body + 16 < 2 ^ 32 -> (length accs < fuel)%nat ->
  exists evs, walk_body_from fuel d body (len body) segs i acc s = Some evs /\
    omap access_event evs = layout i accs.
Proof.
  induction accs as [|a accs IH]; intros fuel pre body i acc s Eb Ei Hok Hop Hlen Hf;
    (destruct fuel as [|fuel]; [lia|]); cbn [walk_body_from layout]; pose proof (len_nonneg pre).
  - change (body_words []) with (@nil Z) in Eb. rewrite app_nil_r in Eb. subst.
    rewrite u32_small by lia. replace (_ <=? _) with false by lia. by exists [].
  - apply Forall_cons_1 in Hok as [Ha Hok]. apply Forall_cons_1 in Hop as [Hr Hop].
    change (body_words (a :: accs)) with (access_words a ++ body_words accs) in Eb.
    pose proof (len_access_words_ok a Ha Hr) as La.
    pose proof (ok_beats a Ha). pose proof (len_nonneg (body_words accs)).
    assert (len body = i + (2 + a_beats a) + len (body_words accs)) as Lb
      by (rewrite Eb, !len_app, La; lia).
    assert (rd body (i + 1) = cpe_ctrl_word (ctrl_val (a_addr a) (a_beats a) (a_op a) (a_ret a))) as Ec.
    { rewrite Eb, Ei. apply rd_ctrl. }
    rewrite (u32_small (i + 1)) by lia. rewrite (u32_small (i + 2)) by lia. rewrite Ec.
    destruct (ctrl_word_fields (a_addr a) (a_beats a) (a_op a) (a_ret a)) as (_ & Ebt & _);
      [apply Ha|lia|pose proof (ok_op a Ha); lia|apply Ha|]. rewrite Ebt.
    rewrite (u32_small (2 + a_beats a)), (u32_small (i + (2 + a_beats a))) by lia.
    replace (_ <=? _) with true by lia. replace (_ >? _) with false by lia.
    pose proof (walk_access_event d body segs i acc s a Ha ltac:(lia) ltac:(lia) Ec) as Hev.
    destruct (walk_access d body segs i acc s) as [s' evs]. cbn [snd] in Hev.
    destruct (IH fuel (pre ++ access_words a) body (i + (2 + a_beats a)) (acc +u32 1) s')
      as (evs' & E & Ho); [by rewrite <- app_assoc|rewrite len_app; lia|done|done|lia|cbn in Hf; lia|].
    rewrite E. cbn. exists (evs ++ evs'). split; [done|]. by rewrite omap_app, Hev, Ho.
Qed.

(** The slices of the layout, one after the other, are the stream. *)
Lemma layout_slices accs : forall pre,
  Forall access_ok accs -> Forall (fun a => a_op a <> OP_READ) accs ->
  concat (map (fun '(at_, n, _) => slice (pre ++ body_words accs) at_ n) (layout (len pre) accs)) =
  body_words accs.
Proof.
  induction accs as [|a accs IH]; intros pre Hok Hop; [done|].
  apply Forall_cons_1 in Hok as [Ha Hok]. apply Forall_cons_1 in Hop as [Hr Hop].
  pose proof (len_access_words_ok a Ha Hr) as La.
  change (body_words (a :: accs)) with (access_words a ++ body_words accs).
  cbn [layout map concat]. rewrite <- La, <- len_app. rewrite app_assoc, IH by done. f_equal.
  unfold slice, len. rewrite !Nat2Z.id, <- app_assoc, drop_app_length, take_app_length. done.
Qed.

Lemma layout_covers accs :
  Forall access_ok accs -> Forall (fun a => a_op a <> OP_READ) accs ->
  concat (map (fun '(at_, n, _) => slice (body_words accs) at_ n) (layout 0 accs)) = body_words accs.
Proof. exact (layout_slices accs []). Qed.

(** ** Properties *)

(** C22. The tool's buffer always suffices: for every kernel ELF whose bytes
    are in the file and whose packet count does not wrap, the tool succeeds
    whenever every loadable segment has a place on the tile and there is
    something to send, and writes out exactly the body's packets with the
    number of words in the blob header; it exits with code 1 when a segment
    has no place or when there is nothing to send, and never for lack of room. *)
Theorem encode_kernel_fits malloc d gen elf sid nresp reset :
  phdrs_ok elf -> (forall n, 0 <= n -> len (malloc n : list Z) = n) -> 0 <= dma_nch d ->
  6 * (kernel_pkts d elf CPE_ENC_COL CPE_ENC_ROW + (2 + 4 * dma_nch d) + 1) + 24 < 2 ^ 32 ->
  match body_segs d elf CPE_ENC_COL CPE_ENC_ROW with
  | None => encode_kernel malloc d gen elf sid nresp reset = Err (RetCode 1)
  | Some segs =>
    if negb reset && (len segs =? 0)
    then encode_kernel malloc d gen elf sid nresp reset = Err (RetCode 1)
    else exists hdr, encode_kernel malloc d gen elf sid nresp reset =
           Ok (hdr, body_words (body_stream d (u32 sid) reset segs), collect_segs d elf) /\
           bh_body_words hdr = body_size d reset segs
  end.
Proof.
  intros Hok Hm Hn Hsz. pose proof Hok as [Hb Hf].
  pose proof (sum_pkts_nonneg d elf CPE_ENC_COL CPE_ENC_ROW (range 0 (e_phnum elf)) Hb) as Hp.
  fold (kernel_pkts d elf CPE_ENC_COL CPE_ENC_ROW) in Hp.
  assert (kernel_cap d (rt_cpe_count_pkts d elf CPE_ENC_COL CPE_ENC_ROW) =
          6 * (kernel_pkts d elf CPE_ENC_COL CPE_ENC_ROW + (2 + 4 * dma_nch d) + 1) + 16) as Ecap.
  { rewrite count_pkts_sum by (done || lia). unfold kernel_cap, rt_cpe_reset_accesses.
    change (2 + RT_CPE_CHUNK_WORDS) with 6. unwrap. lia. }
  unfold encode_kernel. rewrite Ecap. clear Ecap.
  set (cap := 6 * _ + 16) in *. pose proof (Hm cap ltac:(lia)) as Lm. set (pkt := malloc cap) in *. clearbody pkt.
  destruct (body_segs d elf CPE_ENC_COL CPE_ENC_ROW) as [segs|] eqn:Es.
  2: { pose proof (encode_body_no_place d elf CPE_ENC_COL CPE_ENC_ROW (u32 sid) reset cap pkt Hok
         ltac:(lia) ltac:(lia) Es) as E.
       destruct (rt_cpe_encode_body _ _ _ _ _ _ _ _) as [e [[??]|[]]]; cbn in E; congruence. }
  destruct (encode_body_spec d elf CPE_ENC_COL CPE_ENC_ROW (u32 sid) reset cap segs pkt Hok
              ltac:(lia) ltac:(lia) Es) as (e' & Ep & E). rewrite len_body_stream in E.
  assert (body_size d reset segs <= cap) as Hfit.
  { pose proof (segs_pkts d elf CPE_ENC_COL CPE_ENC_ROW segs Hok Es). unfold body_size.
    rewrite len_reset_writes by lia. unfold rt_cpe_reset_accesses. unwrap. destruct reset; lia. }
  replace (_ <=? cap) with true in E by lia. rewrite andb_true_r in E.
  rewrite body_accesses_zero in E by exact (seg_list_pos d elf _ _ _ segs Hb Hf Es).
  destruct (negb reset && (len segs =? 0)); cbn [negb] in E.
  - destruct (rt_cpe_encode_body _ _ _ _ _ _ _ _) as [e [[??]|[]]]; cbn in E; congruence.
  - rewrite E. rewrite Ep, <- (len_body_stream d (u32 sid) reset segs).
    rewrite slice_blit by (rewrite ?len_body_stream; lia). eexists. split; [reflexivity|done].
Qed.

Lemma encode_kernel_fits_witness :
  match body_segs dev5 elf_example CPE_ENC_COL CPE_ENC_ROW with
  | None => encode_kernel (fun n => replicate (Z.to_nat n) 0) dev5 5 elf_example 9 4 true = Err (RetCode 1)
  | Some segs =>
    if negb true && (len segs =? 0)
    then encode_kernel (fun n => replicate (Z.to_nat n) 0) dev5 5 elf_example 9 4 true = Err (RetCode 1)
    else exists hdr, encode_kernel (fun n => replicate (Z.to_nat n) 0) dev5 5 elf_example 9 4 true =
           Ok (hdr, body_words (body_stream dev5 (u32 9) true segs), collect_segs dev5 elf_example) /\
           bh_body_words hdr = body_size dev5 true segs
  end.
Proof.
  apply (encode_kernel_fits (fun n => replicate (Z.to_nat n) 0) dev5 5 elf_example 9 4 true).
  - exact phdrs_ok_example.
  - intros n Hn. unfold len. rewrite length_replicate. lia.
  - vm_compute. discriminate.
  - reflexivity.
Defined.

(** The annotating walk is in step with the encoder: on a body made of
    write accesses it terminates and reports one access for every access of
    the body, at its offset, with its length and its address, so that the
    header it prints contains every word of the body once. *)
Theorem walk_body_accesses d segs accs :
  Forall access_ok accs -> Forall (fun a => a_op a <> OP_READ) accs ->
  len (body_words accs) + 16 < 2 ^ 32 ->
  exists evs, walk_body d (body_words accs) (len (body_words accs)) segs = Some evs /\
    omap access_event evs = layout 0 accs /\
    concat (map (fun '(at_, n, _) => slice (body_words accs) at_ n) (layout 0 accs)) = body_words accs.
Proof.
  intros Hok Hop Hlen. unfold walk_body.
  destruct (walk_body_from_spec d segs accs (S (Z.to_nat (len (body_words accs)))) [] (body_words accs)
              0 0 (Walk (-2) (-1) 0)) as (evs & E & Ho); [done..| |].
  { pose proof (body_words_le accs). unfold len in *. lia. }
  exists evs. split_and!; [done..|]. by apply layout_covers.
Qed.

Lemma walk_body_accesses_witness :
  exists evs, walk_body dev5 (body_words [ack_access 3 0x40 1 7]) 3 [] = Some evs /\
    omap access_event evs = layout 0 [ack_access 3 0x40 1 7] /\
    concat (map (fun '(at_, n, _) => slice (body_words [ack_access 3 0x40 1 7]) at_ n)
              (layout 0 [ack_access 3 0x40 1 7])) = body_words [ack_access 3 0x40 1 7].
Proof.
  apply (walk_body_accesses dev5 [] [ack_access 3 0x40 1 7]).
  - constructor; [apply ack_access_ok|constructor].
  - constructor; [vm_compute; discriminate|constructor].
  - reflexivity.
Defined.
