(* ===== verification/Resource.v ===== *)
(** * The control plane's reserved stream-switch resources

    Model of [src/mlir/runtime/aie_runtime_resource.c] and its header: the
    reservation table and the queries over it. *)

From Stdlib Require Import Ascii String.
From stdpp Require Import base list list_numbers numbers gmap strings.
From S2P Require Import Prelude.

Local Open Scope Z_scope.
Local Open Scope c_scope.

(** ** Constants *)

Inductive rt_res_gen := RT_RES_GEN1 | RT_RES_GEN2 | RT_RES_GEN5.

Definition RT_RES_PORT_WEST : Z := 0.
Definition RT_RES_PORT_EAST : Z := 1.
Definition RT_RES_PORT_NORTH : Z := 2.
Definition RT_RES_PORT_SOUTH : Z := 3.
Definition RT_RES_PORT_CTRL : Z := 4.
Definition RT_RES_ARB_CTRL : Z := 0.
Definition RT_RES_ARB_RET : Z := 1.
Definition RT_RES_NUM_SLOTS : Z := 4.
Definition RT_RES_MAX_ROW_IDX : Z := 3.
Definition RT_RES_SLOT_CONSUME : Z := 0.
Definition RT_RES_SLOT_BCAST : Z := 1.
Definition RT_RES_SLOT_TRANSIT_N : Z := 2.
Definition RT_RES_SLOT_RET_LOCAL : Z := 0.
Definition RT_RES_SLOT_RET_TRANSIT : Z := 1.
Definition RT_RES_SLOT_RET_NORTH : Z := 2.
Definition RT_RES_MSEL_CONSUME : Z := 0.
Definition RT_RES_MSEL_BCAST : Z := 1.
Definition RT_RES_MSEL_TRANSIT_N : Z := 2.
Definition RT_RES_MSEL_RET_LOCAL : Z := 0.
Definition RT_RES_MSEL_RET_TRANSIT : Z := 1.
Definition RT_RES_MSEL_RET_NORTH : Z := 2.
Definition RT_RES_ID_BCAST : Z := 0x10.
Definition RT_RES_MASK_BCAST : Z := 0x10.
Definition RT_RES_ID_TRANSIT : Z := 0x00.
Definition RT_RES_MASK_CLASS : Z := 0x10.
Definition RT_RES_MASK_CONSUME : Z := 0x17.
Definition RT_RES_SHIMROW_BD_LO : Z := 7.
Definition RT_RES_SHIMROW_BD_HI : Z := 11.
Definition RT_RES_SHIMROW_MAX_COLS : Z := RT_RES_SHIMROW_BD_HI - RT_RES_SHIMROW_BD_LO + 1.
Definition RT_RES_NA : Z := 0xFF.
Definition RT_RES_TABLE_MAX : Z := 32.

Definition RT_MSELEN_CTRL : Z := (1 <<u32 RT_RES_MSEL_CONSUME) |' (1 <<u32 RT_RES_MSEL_BCAST).
Definition RT_MSELEN_EAST : Z :=
  (1 <<u32 RT_RES_MSEL_CONSUME) |' (1 <<u32 RT_RES_MSEL_BCAST) |' (1 <<u32 3).
Definition RT_MSELEN_NORTH : Z := (1 <<u32 RT_RES_MSEL_BCAST) |' (1 <<u32 RT_RES_MSEL_TRANSIT_N).
Definition RT_MSELEN_RET_HEAD : Z :=
  (1 <<u32 RT_RES_MSEL_RET_LOCAL) |' (1 <<u32 RT_RES_MSEL_RET_TRANSIT) |' (1 <<u32 RT_RES_MSEL_RET_NORTH).

(** ** The table *)

Record rt_res_entry := Entry {
  e_port : Z; e_is_master : Z; e_slot : Z; e_arbiter : Z; e_msel : Z; e_pkt_id : Z; e_mask : Z;
  e_is_ret : Z }.

#[export] Instance rt_res_entry_eq_dec : EqDecision rt_res_entry.
Proof. solve_decision. Defined.

(** The macro [RT_ADD]: append unless the table is full, in which case the
    function returns; every field is stored as a byte. *)
Definition RT_ADD (cap : Z) (p m slot arb msel pkt mask ret : Z) : stE (list rt_res_entry) unit unit :=
  fun tab =>
    if len tab >=? cap then (tab, Err tt)
    else (tab ++ [Entry (u8 p) (u8 m) (u8 slot) (u8 arb) (u8 msel) (u8 pkt) (u8 mask) (u8 ret)], Ok tt).

Definition rt_res_table (gen : rt_res_gen) (cap : Z) : list rt_res_entry :=
  ((forM [0; 1] (fun pi =>
      let sp := if pi =? 0 then RT_RES_PORT_WEST else RT_RES_PORT_SOUTH in
      forM (range 0 (RT_RES_MAX_ROW_IDX + 1)) (fun rowidx =>
        RT_ADD cap sp 0 RT_RES_SLOT_CONSUME RT_RES_ARB_CTRL RT_RES_MSEL_CONSUME rowidx
          RT_RES_MASK_CONSUME 0) ;;
      RT_ADD cap sp 0 RT_RES_SLOT_BCAST RT_RES_ARB_CTRL RT_RES_MSEL_BCAST RT_RES_ID_BCAST
        RT_RES_MASK_BCAST 0 ;;
      RT_ADD cap sp 0 RT_RES_SLOT_TRANSIT_N RT_RES_ARB_CTRL RT_RES_MSEL_TRANSIT_N RT_RES_ID_TRANSIT
        RT_RES_MASK_CLASS 0) ;;
    RT_ADD cap RT_RES_PORT_CTRL 1 RT_RES_NA RT_RES_ARB_CTRL RT_MSELEN_CTRL RT_RES_NA RT_RES_NA 0 ;;
    RT_ADD cap RT_RES_PORT_EAST 1 RT_RES_NA RT_RES_ARB_CTRL RT_MSELEN_EAST RT_RES_NA RT_RES_NA 0 ;;
    RT_ADD cap RT_RES_PORT_NORTH 1 RT_RES_NA RT_RES_ARB_CTRL RT_MSELEN_NORTH RT_RES_NA RT_RES_NA 0 ;;
    RT_ADD cap RT_RES_PORT_CTRL 0 RT_RES_SLOT_RET_LOCAL RT_RES_ARB_RET RT_RES_MSEL_RET_LOCAL 0 0 1 ;;
    RT_ADD cap RT_RES_PORT_EAST 0 RT_RES_SLOT_RET_TRANSIT RT_RES_ARB_RET RT_RES_MSEL_RET_TRANSIT 0 0 1 ;;
    RT_ADD cap RT_RES_PORT_NORTH 0 RT_RES_SLOT_RET_NORTH RT_RES_ARB_RET RT_RES_MSEL_RET_NORTH 0 0 1 ;;
    RT_ADD cap RT_RES_PORT_WEST 1 RT_RES_NA RT_RES_ARB_RET RT_MSELEN_RET_HEAD RT_RES_NA RT_RES_NA 1 ;;
    RT_ADD cap RT_RES_PORT_SOUTH 1 RT_RES_NA RT_RES_ARB_RET RT_MSELEN_RET_HEAD RT_RES_NA RT_RES_NA 1)
   []).1.

Definition full_table (gen : rt_res_gen) : list rt_res_entry := rt_res_table gen RT_RES_TABLE_MAX.

(** ** Queries *)

(** The entries on one port, at most [cap] of them; [None] is [-1]. *)
Definition Runtime_res_port_reserved (gen : rt_res_gen) (col row port is_master : Z) (out_null : bool)
    (cap : Z) : option (list rt_res_entry) :=
  if out_null || (cap <? 0) then None
  else Some (take (Z.to_nat cap)
               (filter (fun e => e_port e = port /\ e_is_master e = is_master) (full_table gen))).

Definition Runtime_res_reserved_pktid_mask (gen : rt_res_gen) : Z :=
  foldl (fun m e => if z2b (e_is_master e) then m
                    else if e_pkt_id e <? 32 then m |' (1 <<u32 e_pkt_id e) else m) 0 (full_table gen).

Definition Runtime_res_reserved_arbiter_mask (gen : rt_res_gen) : Z :=
  foldl (fun m e => if e_arbiter e <? 32 then m |' (1 <<u32 e_arbiter e) else m) 0 (full_table gen).

Definition Runtime_res_reserved_slot_mask (gen : rt_res_gen) (port is_master : Z) : Z :=
  if z2b is_master then 0
  else foldl (fun m e => if z2b (e_is_master e) || negb (e_port e =? port) then m
                         else if e_slot e <? 31 then m |' Z.shiftl 1 (e_slot e) else m)
         0 (full_table gen).

(** Does one entry cover the resource? *)
Definition res_covers (port is_master slot arbiter msel pkt_id : Z) (e : rt_res_entry) : bool :=
  if negb (e_port e =? port) || negb (e_is_master e =? is_master) || negb (e_arbiter e =? arbiter)
  then false
  else if z2b is_master then (msel & u8 (Z.lnot (e_msel e))) =? 0
  else if negb (e_slot e =? slot) || negb (e_msel e =? msel) then false
  else e_pkt_id e =? pkt_id.

Definition Runtime_res_is_reserved (gen : rt_res_gen) (port is_master slot arbiter msel pkt_id : Z) : bool :=
  existsb (res_covers port is_master slot arbiter msel pkt_id) (full_table gen).

(** The last character of the name decides. *)
Definition Runtime_res_gen_from_name (name : option string) : rt_res_gen :=
  match name with
  | None => RT_RES_GEN2
  | Some s =>
    match last (String.list_ascii_of_string s) with
    | Some "1"%char => RT_RES_GEN1
    | Some "5"%char => RT_RES_GEN5
    | _ => RT_RES_GEN2
    end
  end.

(** The table fits, so no entry is dropped. *)
Lemma full_table_complete gen : len (full_table gen) = 20.
Proof. reflexivity. Qed.

Lemma is_reserved_gen gen gen' port m slot arb msel pkt :
  Runtime_res_is_reserved gen port m slot arb msel pkt = Runtime_res_is_reserved gen' port m slot arb msel pkt.
Proof. done. Qed.
