(* ===== verification/ControlPlan.v ===== *)
(** * The control-plane planner

    Model of [src/mlir/runtime/aie_runtime_control_plan.c] and its header:
    the port book, the op list, and the planners for chains, rows and the
    shim row.  A planner is a computation over the op list and the port book
    that stops at the first error code. *)

From stdpp Require Import base list list_numbers numbers gmap.
From S2P Require Import Prelude.
From S2P Require Import Resource.

Local Open Scope Z_scope.
Local Open Scope c_scope.

(** ** Constants *)

Definition ACR_MAX_ROWS : Z := 16.
Definition ACR_MAX_OPS : Z := 256.
Definition ACR_NUM_SLOTS : Z := RT_RES_NUM_SLOTS.
Definition ACR_MAX_ROW_IDX : Z := RT_RES_MAX_ROW_IDX.
Definition ACR_CLASS_ALL_BUT_LAST : Z := 0.
Definition ACR_CLASS_ONLY_LAST : Z := 1.
Definition ACR_CLASS_WHOLE_ROW : Z := 2.
Definition ACR_MSEL_TRANSIT_E : Z := 3.
Definition ACR_MASK_EXACT : Z := 0x1F.
Definition ACR_MSELEN_CTRL : Z := (1 <<u32 RT_RES_MSEL_CONSUME) |' (1 <<u32 RT_RES_MSEL_BCAST).
Definition ACR_MSELEN_EAST : Z :=
  (1 <<u32 RT_RES_MSEL_CONSUME) |' (1 <<u32 RT_RES_MSEL_BCAST) |' (1 <<u32 ACR_MSEL_TRANSIT_E).
Definition ACR_MSELEN_NORTH : Z := (1 <<u32 RT_RES_MSEL_BCAST) |' (1 <<u32 RT_RES_MSEL_TRANSIT_N).
Definition ACR_SHIMROW_SLOT_OWN : Z := 0.
Definition ACR_SHIMROW_SLOT_FWD : Z := 1.
Definition ACR_SHIMROW_MSEL_OWN : Z := 0.
Definition ACR_SHIMROW_MSEL_FWD : Z := 1.

(** ** Data *)

Inductive acr_port := ACR_WEST | ACR_EAST | ACR_NORTH | ACR_SOUTH | ACR_CTRL.
Inductive acr_op_kind := ACR_OP_SLOT | ACR_OP_SLAVE_EN | ACR_OP_MASTER_EN | ACR_OP_CCT.
Inductive acr_rc := ACR_ERR_PORT_CONFLICT | ACR_ERR_SLOTS | ACR_ERR_BOUNDS | ACR_ERR_TILETYPE.

#[export] Instance acr_port_eq_dec : EqDecision acr_port.
Proof. solve_decision. Defined.
#[export] Instance acr_op_kind_eq_dec : EqDecision acr_op_kind.
Proof. solve_decision. Defined.

(** The enumerators' values. *)
Definition acr_port_num (p : acr_port) : Z :=
  match p with ACR_WEST => 0 | ACR_EAST => 1 | ACR_NORTH => 2 | ACR_SOUTH => 3 | ACR_CTRL => 4 end.

Record acr_op := Op {
  o_kind : acr_op_kind; o_col : Z; o_row : Z;
  o_sport : acr_port; o_sidx : Z; o_mport : acr_port; o_midx : Z;
  o_slot : Z; o_pkt_id : Z; o_mask : Z; o_msel : Z; o_arbiter : Z; o_mselen : Z;
  o_keep_header : Z; o_is_ret : Z }.

#[export] Instance acr_op_eq_dec : EqDecision acr_op.
Proof. solve_decision. Defined.

(** The port book: for every tile, by [(row, col)], a 16-bit map for masters
    and one for slaves; a tile without an entry is all zeros. *)
Record acr_portbook := Book { master_used : gmap (Z * Z) Z; slave_used : gmap (Z * Z) Z }.
Definition book0 : acr_portbook := Book ∅ ∅.

(** [acr_oplist] is a list of at most [ACR_MAX_OPS] ops. *)
Definition plan := (list acr_op * acr_portbook)%type.
Definition planM := stE plan acr_rc unit.

Record acr_state := State { spine_top : Z; rows : list Z }.
Definition nrows (s : acr_state) : Z := len (rows s).

(** ** Booking and emitting *)

Definition acr_book_cell (b : acr_portbook) (col row : Z) (is_master : bool) : Z :=
  default 0 ((if is_master then master_used b else slave_used b) !! (row, col)).

Definition set_book_cell (b : acr_portbook) (col row : Z) (is_master : bool) (v : Z) : acr_portbook :=
  if is_master then Book (<[(row, col) := v]> (master_used b)) (slave_used b)
  else Book (master_used b) (<[(row, col) := v]> (slave_used b)).

Definition acr_book_port (col row : Z) (p : acr_port) (idx : Z) (is_master : bool) : planM :=
  fun '(o, b) =>
    if (row >? ACR_MAX_ROWS) || (col >=? 64) || (idx >=? 3) then ((o, b), Err ACR_ERR_BOUNDS)
    else
      let bit := u16 (1 <<u32 (acr_port_num p *u32 3 +u32 idx)) in
      let cell := acr_book_cell b col row is_master in
      if z2b (cell & bit) then ((o, b), Err ACR_ERR_PORT_CONFLICT)
      else ((o, set_book_cell b col row is_master (cell |' bit)), Ok tt).

Definition acr_emit_op (op : acr_op) : planM :=
  fun '(o, b) =>
    if len o >=? ACR_MAX_OPS then ((o, b), Err ACR_ERR_BOUNDS) else ((o ++ [op], b), Ok tt).

Definition acr_emit_slot (c row : Z) (sport : acr_port) (slot pkt mask msel arb : Z) : planM :=
  acr_emit_op (Op ACR_OP_SLOT c row sport 0 ACR_WEST 0 slot pkt mask msel arb 0 0
                 (b2z (arb =? RT_RES_ARB_RET))).

Definition acr_emit_master (c row : Z) (mport : acr_port) (mselen arb : Z) : planM :=
  acr_book_port c row mport 0 true ;;
  acr_emit_op (Op ACR_OP_MASTER_EN c row ACR_WEST 0 mport 0 0 0 0 0 arb mselen 1
                 (b2z (arb =? RT_RES_ARB_RET))).

(** ** Chains *)

(** One tile of the forward chain. *)
Definition chain_tile (row rowidx col_lo target_lo col_hi ctrl_id shim_col : Z)
    (head_ingress : acr_port) (is_top : bool) (c : Z) : planM :=
  let sport := if c =? col_lo then head_ingress else ACR_WEST in
  let is_last := c =? col_hi in
  let has_east := negb is_last in
  let is_spine_head := (shim_col >=? 0) && (c =? u8 shim_col) && (c =? col_lo) && negb is_top in
  let consume_id := u8 ((ACR_CLASS_ALL_BUT_LAST <<u32 2) |' rowidx) in
  acr_book_port c row sport 0 false ;;
  acr_emit_slot c row sport RT_RES_SLOT_CONSUME consume_id RT_RES_MASK_CONSUME RT_RES_MSEL_CONSUME
    RT_RES_ARB_CTRL ;;
  acr_emit_slot c row sport RT_RES_SLOT_BCAST RT_RES_ID_BCAST RT_RES_MASK_BCAST RT_RES_MSEL_BCAST
    RT_RES_ARB_CTRL ;;
  when is_spine_head
    (acr_emit_slot c row sport RT_RES_SLOT_TRANSIT_N RT_RES_ID_TRANSIT RT_RES_MASK_CLASS
       RT_RES_MSEL_TRANSIT_N RT_RES_ARB_CTRL) ;;
  acr_emit_op (Op ACR_OP_SLAVE_EN c row sport 0 ACR_WEST 0 0 ctrl_id 0 0 0 0 0 0) ;;
  when (c >=? target_lo) (acr_emit_master c row ACR_CTRL (u8 ACR_MSELEN_CTRL) RT_RES_ARB_CTRL) ;;
  when has_east (acr_emit_master c row ACR_EAST (u8 ACR_MSELEN_EAST) RT_RES_ARB_CTRL) ;;
  when is_spine_head (acr_emit_master c row ACR_NORTH (u8 ACR_MSELEN_NORTH) RT_RES_ARB_CTRL).

Definition acr_plan_chain_ex (row rowidx col_lo target_lo col_hi ctrl_id shim_col : Z)
    (head_ingress : acr_port) (is_top : bool) : planM :=
  if (col_hi <? col_lo) || (col_hi >=? 64) || (target_lo <? col_lo) || (target_lo >? col_hi)
  then throw ACR_ERR_BOUNDS
  else if rowidx >? ACR_MAX_ROW_IDX then throw ACR_ERR_BOUNDS
  else if ACR_NUM_SLOTS <? 4 then throw ACR_ERR_SLOTS
  else forM (range col_lo (col_hi + 1))
         (chain_tile row rowidx col_lo target_lo col_hi ctrl_id shim_col head_ingress is_top).

Definition acr_emit_ret_slot (c row : Z) (sport : acr_port) (slot msel : Z) : planM :=
  acr_book_port c row sport 0 false ;;
  acr_emit_slot c row sport slot 0 0 msel RT_RES_ARB_RET ;;
  acr_emit_op (Op ACR_OP_SLAVE_EN c row sport 0 ACR_WEST 0 0 0 0 0 0 0 0 1).

(** One tile of the return chain. *)
Definition return_tile (row col_lo target_lo col_hi : Z) (is_top : bool) (c : Z) : planM :=
  let is_head := c =? col_lo in
  let has_transit := c <? col_hi in
  let has_local := c >=? target_lo in
  when has_local (acr_emit_ret_slot c row ACR_CTRL RT_RES_SLOT_RET_LOCAL RT_RES_MSEL_RET_LOCAL) ;;
  when has_transit (acr_emit_ret_slot c row ACR_EAST RT_RES_SLOT_RET_TRANSIT RT_RES_MSEL_RET_TRANSIT) ;;
  if is_head then
    when (negb is_top) (acr_emit_ret_slot c row ACR_NORTH RT_RES_SLOT_RET_NORTH RT_RES_MSEL_RET_NORTH) ;;
    acr_emit_master c row ACR_SOUTH
      (u8 ((if has_local then 1 <<u32 RT_RES_MSEL_RET_LOCAL else 0)
           |' (if has_transit then 1 <<u32 RT_RES_MSEL_RET_TRANSIT else 0)
           |' (if is_top then 0 else 1 <<u32 RT_RES_MSEL_RET_NORTH))) RT_RES_ARB_RET
  else
    acr_emit_master c row ACR_WEST
      (u8 ((if has_local then 1 <<u32 RT_RES_MSEL_RET_LOCAL else 0)
           |' (1 <<u32 RT_RES_MSEL_RET_TRANSIT))) RT_RES_ARB_RET.

Definition acr_plan_return_chain_ex (row col_lo target_lo col_hi : Z) (is_top : bool) : planM :=
  if (col_hi <? col_lo) || (col_hi >=? 64) || (target_lo <? col_lo) || (target_lo >? col_hi)
  then throw ACR_ERR_BOUNDS
  else forM (range col_lo (col_hi + 1)) (return_tile row col_lo target_lo col_hi is_top).

Definition acr_plan_return_chain (row col_lo col_hi : Z) (is_top : bool) : planM :=
  acr_plan_return_chain_ex row col_lo col_lo col_hi is_top.

Definition acr_plan_chain (row col_lo col_hi ctrl_id : Z) : planM :=
  acr_plan_chain_ex row 0 col_lo col_lo col_hi ctrl_id (-1) ACR_WEST true.

(** ** Rows *)

Definition acr_row_is_head (s : acr_state) (row : Z) : bool := existsb (fun r => r =? row) (rows s).

(** The two circuit hops through a pass-through row. *)
Definition spine_hop (s : acr_state) (shim_col r : Z) : planM :=
  if acr_row_is_head s r then mret tt
  else
    acr_emit_op (Op ACR_OP_CCT shim_col r ACR_SOUTH 0 ACR_NORTH 0 0 0 0 0 0 0 0 0) ;;
    acr_emit_op (Op ACR_OP_CCT shim_col r ACR_NORTH 0 ACR_SOUTH 0 0 0 0 0 0 0 0 1).

(** The planner's state is the spine state, the op list and the port book. *)
Definition lift {S A} (m : stE plan acr_rc A) : stE (S * plan) acr_rc A :=
  fun '(s, p) => let '(p', r) := m p in ((s, p'), r).

Definition acr_plan_row_add (shim_col row col_lo col_hi ctrl_id : Z) (is_top : bool)
    : stE (acr_state * plan) acr_rc unit :=
  if (row =? 0) || (shim_col >=? 64) then throw ACR_ERR_BOUNDS
  else if col_lo <? shim_col then throw ACR_ERR_BOUNDS
  else
    s ← gets fst;
    if acr_row_is_head s row then mret tt
    else if nrows s >=? ACR_MAX_ROWS then throw ACR_ERR_BOUNDS
    else if nrows s >? ACR_MAX_ROW_IDX then throw ACR_ERR_BOUNDS
    else
      let need_top := u8 (row - 1) in
      when (need_top >? spine_top s)
        (lift (forM (range (u8 (spine_top s + 1)) (need_top + 1)) (spine_hop s shim_col)) ;;
         modify (fun '(s, p) => (State need_top (rows s), p))) ;;
      lift (acr_plan_chain_ex row (nrows s) shim_col col_lo col_hi ctrl_id shim_col ACR_SOUTH is_top) ;;
      lift (acr_plan_return_chain_ex row shim_col col_lo col_hi is_top) ;;
      modify (fun '(s, p) => (State (spine_top s) (rows s ++ [row]), p)).

(** ** The shim row *)

Definition acr_shim_row_id (k : Z) : Z := u8 ((1 <<u32 k) -u32 1).

(** The op list here is the forward list. *)
Definition acr_shim_row_fwd_tile (c k : Z) (has_east : bool) : planM :=
  acr_book_port c 0 ACR_WEST 0 false ;;
  acr_emit_op (Op ACR_OP_SLOT c 0 ACR_WEST 0 ACR_WEST 0 ACR_SHIMROW_SLOT_OWN (acr_shim_row_id k)
                 ACR_MASK_EXACT ACR_SHIMROW_MSEL_OWN RT_RES_ARB_CTRL 0 0 0) ;;
  when has_east
    (acr_emit_op (Op ACR_OP_SLOT c 0 ACR_WEST 0 ACR_WEST 0 ACR_SHIMROW_SLOT_FWD (u8 (1 <<u32 k))
                    (u8 (1 <<u32 k)) ACR_SHIMROW_MSEL_FWD RT_RES_ARB_CTRL 0 0 0)) ;;
  acr_emit_op (Op ACR_OP_SLAVE_EN c 0 ACR_WEST 0 ACR_WEST 0 0 0 0 0 0 0 0 0) ;;
  forM (range 0 (b2z has_east + 1)) (fun e =>
    let mport := if z2b e then ACR_EAST else ACR_CTRL in
    acr_book_port c 0 mport 0 true ;;
    acr_emit_op (Op ACR_OP_MASTER_EN c 0 ACR_WEST 0 mport 0 0 0 0 0 RT_RES_ARB_CTRL
                   (u8 (1 <<u32 (if z2b e then ACR_SHIMROW_MSEL_FWD else ACR_SHIMROW_MSEL_OWN))) 1 0)).

(** Two op lists ([fwd], [ret]) and one port book. *)
Definition on_fwd (m : planM) : stE (list acr_op * plan) acr_rc unit :=
  fun '(ret, (fwd, b)) => let '((fwd', b'), r) := m (fwd, b) in ((ret, (fwd', b')), r).
Definition on_ret (m : planM) : stE (list acr_op * plan) acr_rc unit :=
  fun '(ret, (fwd, b)) => let '((ret', b'), r) := m (ret, b) in ((ret', (fwd, b')), r).

Definition acr_plan_shim_row (col_lo col_hi : Z) : stE (list acr_op * plan) acr_rc unit :=
  if (col_hi <? col_lo) || (col_hi >=? 64) || (col_hi - col_lo + 1 >? RT_RES_SHIMROW_MAX_COLS)
  then throw ACR_ERR_BOUNDS
  else forM (range col_lo (col_hi + 1)) (fun c =>
    let has_east := c <? col_hi in
    on_fwd (acr_shim_row_fwd_tile c (u8 (c - col_lo)) has_east) ;;
    on_ret (acr_emit_ret_slot c 0 ACR_CTRL RT_RES_SLOT_RET_LOCAL RT_RES_MSEL_RET_LOCAL) ;;
    when has_east (on_ret (acr_emit_ret_slot c 0 ACR_EAST RT_RES_SLOT_RET_TRANSIT RT_RES_MSEL_RET_TRANSIT)) ;;
    on_ret (acr_emit_master c 0 ACR_WEST
              (u8 ((1 <<u32 RT_RES_MSEL_RET_LOCAL) |' (1 <<u32 RT_RES_MSEL_RET_TRANSIT))) RT_RES_ARB_RET)).
