(* ===== verification/ControlPlanProps.v ===== *)
(** * Correctness of the control-plane planner

    The planner is a straight-line sequence of bookings and emissions.  From
    that form follow what a row needs, what it emits, that no port is driven
    twice, that it stays inside the reservation table, and where packets go. *)

From stdpp Require Import base list list_numbers numbers gmap.
From S2P Require Import Prelude.
From S2P Require Import Resource.
From S2P Require Import ControlPlan.

Local Open Scope Z_scope.
Local Open Scope c_scope.

(** ** Actions *)

(** A port of a tile: master or slave side, row, column, port. *)
Definition key := (bool * (Z * Z) * acr_port)%type.

Inductive act :=
| ABook (k : key)
| AEmit (op : acr_op).

Definition run_act (a : act) : planM :=
  match a with
  | ABook (m, (row, col), p) => acr_book_port col row p 0 m
  | AEmit op => acr_emit_op op
  end.

Definition run_acts (l : list act) : planM := forM l run_act.

Definition emits (l : list act) : list acr_op := omap (fun a => match a with AEmit op => Some op | _ => None end) l.
Definition books (l : list act) : list key := omap (fun a => match a with ABook k => Some k | _ => None end) l.

Definition slot_op c row sport slot pkt mask msel arb : acr_op :=
  Op ACR_OP_SLOT c row sport 0 ACR_WEST 0 slot pkt mask msel arb 0 0 (b2z (arb =? RT_RES_ARB_RET)).
Definition slave_op c row sport pkt ret : acr_op :=
  Op ACR_OP_SLAVE_EN c row sport 0 ACR_WEST 0 0 pkt 0 0 0 0 0 ret.
Definition master_op c row mport mselen arb : acr_op :=
  Op ACR_OP_MASTER_EN c row ACR_WEST 0 mport 0 0 0 0 0 arb mselen 1 (b2z (arb =? RT_RES_ARB_RET)).
Definition cct_op c row sport mport ret : acr_op :=
  Op ACR_OP_CCT c row sport 0 mport 0 0 0 0 0 0 0 0 ret.

Definition master_acts c row mport mselen arb : list act :=
  [ABook (true, (row, c), mport); AEmit (master_op c row mport mselen arb)].

Definition ret_slot_acts c row sport slot msel : list act :=
  [ABook (false, (row, c), sport); AEmit (slot_op c row sport slot 0 0 msel RT_RES_ARB_RET);
   AEmit (slave_op c row sport 0 1)].

Definition if_acts (c : bool) (l : list act) : list act := if c then l else [].

Definition chain_acts (row rowidx col_lo target_lo col_hi ctrl_id shim_col : Z)
    (head_ingress : acr_port) (is_top : bool) (c : Z) : list act :=
  let sport := if c =? col_lo then head_ingress else ACR_WEST in
  let head := (shim_col >=? 0) && (c =? u8 shim_col) && (c =? col_lo) && negb is_top in
  [ABook (false, (row, c), sport);
   AEmit (slot_op c row sport RT_RES_SLOT_CONSUME (u8 ((ACR_CLASS_ALL_BUT_LAST <<u32 2) |' rowidx))
            RT_RES_MASK_CONSUME RT_RES_MSEL_CONSUME RT_RES_ARB_CTRL);
   AEmit (slot_op c row sport RT_RES_SLOT_BCAST RT_RES_ID_BCAST RT_RES_MASK_BCAST RT_RES_MSEL_BCAST
            RT_RES_ARB_CTRL)] ++
  if_acts head [AEmit (slot_op c row sport RT_RES_SLOT_TRANSIT_N RT_RES_ID_TRANSIT RT_RES_MASK_CLASS
                         RT_RES_MSEL_TRANSIT_N RT_RES_ARB_CTRL)] ++
  [AEmit (slave_op c row sport ctrl_id 0)] ++
  if_acts (c >=? target_lo) (master_acts c row ACR_CTRL (u8 ACR_MSELEN_CTRL) RT_RES_ARB_CTRL) ++
  if_acts (negb (c =? col_hi)) (master_acts c row ACR_EAST (u8 ACR_MSELEN_EAST) RT_RES_ARB_CTRL) ++
  if_acts head (master_acts c row ACR_NORTH (u8 ACR_MSELEN_NORTH) RT_RES_ARB_CTRL).

Definition ret_head_mselen (has_local has_transit is_top : bool) : Z :=
  u8 ((if has_local then 1 <<u32 RT_RES_MSEL_RET_LOCAL else 0)
      |' (if has_transit then 1 <<u32 RT_RES_MSEL_RET_TRANSIT else 0)
      |' (if is_top then 0 else 1 <<u32 RT_RES_MSEL_RET_NORTH)).
Definition ret_mselen (has_local : bool) : Z :=
  u8 ((if has_local then 1 <<u32 RT_RES_MSEL_RET_LOCAL else 0) |' (1 <<u32 RT_RES_MSEL_RET_TRANSIT)).

Definition return_acts (row col_lo target_lo col_hi : Z) (is_top : bool) (c : Z) : list act :=
  if_acts (c >=? target_lo) (ret_slot_acts c row ACR_CTRL RT_RES_SLOT_RET_LOCAL RT_RES_MSEL_RET_LOCAL) ++
  if_acts (c <? col_hi) (ret_slot_acts c row ACR_EAST RT_RES_SLOT_RET_TRANSIT RT_RES_MSEL_RET_TRANSIT) ++
  (if c =? col_lo then
     if_acts (negb is_top) (ret_slot_acts c row ACR_NORTH RT_RES_SLOT_RET_NORTH RT_RES_MSEL_RET_NORTH) ++
     master_acts c row ACR_SOUTH (ret_head_mselen (c >=? target_lo) (c <? col_hi) is_top) RT_RES_ARB_RET
   else master_acts c row ACR_WEST (ret_mselen (c >=? target_lo)) RT_RES_ARB_RET).

Definition hop_acts (s : acr_state) (shim_col r : Z) : list act :=
  if_acts (negb (acr_row_is_head s r))
    [AEmit (cct_op shim_col r ACR_SOUTH ACR_NORTH 0); AEmit (cct_op shim_col r ACR_NORTH ACR_SOUTH 1)].

(** Everything a row emits. *)
Definition row_acts (s : acr_state) (shim_col row col_lo col_hi ctrl_id : Z) (is_top : bool) : list act :=
  concat (map (hop_acts s shim_col) (range (u8 (spine_top s + 1)) (u8 (row - 1) + 1))) ++
  concat (map (chain_acts row (nrows s) shim_col col_lo col_hi ctrl_id shim_col ACR_SOUTH is_top)
            (range shim_col (col_hi + 1))) ++
  concat (map (return_acts row shim_col col_lo col_hi is_top) (range shim_col (col_hi + 1))).

(** ** The planner runs its actions *)

Definition same {S E A} (m n : stE S E A) : Prop := forall s, m s = n s.

Lemma same_refl {S E A} (m : stE S E A) : same m m.
Proof. by intros s. Qed.
Lemma same_trans {S E A} (m n k : stE S E A) : same m n -> same n k -> same m k.
Proof. intros H1 H2 s. by rewrite H1. Qed.

Lemma same_bind {S E} (m m' n n' : stE S E unit) : same m m' -> same n n' -> same (m ;; n) (m' ;; n').
Proof. intros H1 H2 s. unfold mbind, stE_bind. rewrite H1. destruct (m' s) as [s' [[]|e]]; [apply H2|done]. Qed.

Lemma same_forM {S E A} (xs : list A) (f g : A -> stE S E unit) :
  (forall x, same (f x) (g x)) -> same (forM xs f) (forM xs g).
Proof. intros H. induction xs; cbn [forM]; [apply same_refl|]. by apply same_bind. Qed.

Lemma run_acts_app l k : same (run_acts (l ++ k)) (run_acts l ;; run_acts k).
Proof. intros s. unfold run_acts. apply forM_app. Qed.

Lemma run_acts_1 a : same (run_act a) (run_acts [a]).
Proof. intros s. unfold run_acts. cbn [forM]. unfold mbind, stE_bind. destruct (run_act a s) as [s' [[]|e]]; done. Qed.

Lemma run_acts_when c l (m : planM) : same m (run_acts l) -> same (when c m) (run_acts (if_acts c l)).
Proof. destruct c; [done|]. intros _ s. done. Qed.

Lemma run_acts_concat {A} (f : A -> list act) (g : A -> planM) xs :
  (forall x, same (g x) (run_acts (f x))) -> same (forM xs g) (run_acts (concat (map f xs))).
Proof.
  intros H. induction xs as [|x xs IH]; [apply same_refl|]. cbn [forM map concat].
  eapply same_trans; [by apply same_bind|]. intros s. by rewrite run_acts_app.
Qed.

(** Splits a sequence of planner calls along a list of actions. *)
Lemma same_seq (m n : planM) l k : same m (run_acts l) -> same n (run_acts k) -> same (m ;; n) (run_acts (l ++ k)).
Proof. intros H1 H2. eapply same_trans; [by apply same_bind|]. intros s. by rewrite run_acts_app. Qed.

Create HintDb acts.
#[export] Hint Resolve same_seq run_acts_when same_refl : acts.

Lemma book_1 m row col p : same (acr_book_port col row p 0 m) (run_acts [ABook (m, (row, col), p)]).
Proof. apply (run_acts_1 (ABook (m, (row, col), p))). Qed.
Lemma emit_1 op : same (acr_emit_op op) (run_acts [AEmit op]).
Proof. apply (run_acts_1 (AEmit op)). Qed.

Lemma emit_master_acts c row mport mselen arb :
  same (acr_emit_master c row mport mselen arb) (run_acts (master_acts c row mport mselen arb)).
Proof. apply (same_seq _ _ [_] [_]); [apply book_1|apply emit_1]. Qed.

Lemma emit_ret_slot_acts c row sport slot msel :
  same (acr_emit_ret_slot c row sport slot msel) (run_acts (ret_slot_acts c row sport slot msel)).
Proof. apply (same_seq _ _ [_] [_; _]); [apply book_1|]. apply (same_seq _ _ [_] [_]); apply emit_1. Qed.

Lemma emit_slot_acts c row sport slot pkt mask msel arb :
  same (acr_emit_slot c row sport slot pkt mask msel arb) (run_acts [AEmit (slot_op c row sport slot pkt mask msel arb)]).
Proof. apply emit_1. Qed.

#[export] Hint Resolve emit_master_acts emit_ret_slot_acts emit_slot_acts book_1 emit_1 : acts.

Lemma chain_tile_acts row rowidx lo tlo hi id shim ing top c :
  same (chain_tile row rowidx lo tlo hi id shim ing top c) (run_acts (chain_acts row rowidx lo tlo hi id shim ing top c)).
Proof.
  unfold chain_tile, chain_acts. cbv zeta.
  apply (same_seq _ _ [_] ([_; _] ++ _)); [apply book_1|].
  apply (same_seq _ _ [_] ([_] ++ _)); [apply emit_slot_acts|].
  apply (same_seq _ _ [_]); [apply emit_slot_acts|].
  apply same_seq; [apply run_acts_when, emit_slot_acts|].
  apply (same_seq _ _ [_]); [apply emit_1|].
  apply same_seq; [apply run_acts_when, emit_master_acts|].
  apply same_seq; apply run_acts_when, emit_master_acts.
Qed.

Lemma return_tile_acts row lo tlo hi top c :
  same (return_tile row lo tlo hi top c) (run_acts (return_acts row lo tlo hi top c)).
Proof.
  unfold return_tile, return_acts. cbv zeta.
  apply same_seq; [apply run_acts_when, emit_ret_slot_acts|].
  apply same_seq; [apply run_acts_when, emit_ret_slot_acts|].
  destruct (c =? lo); [|apply emit_master_acts].
  apply same_seq; [apply run_acts_when, emit_ret_slot_acts|apply emit_master_acts].
Qed.

Lemma spine_hop_acts s shim r : same (spine_hop s shim r) (run_acts (hop_acts s shim r)).
Proof.
  unfold spine_hop, hop_acts. destruct (acr_row_is_head s r); [apply same_refl|].
  apply (same_seq _ _ [_] [_]); apply emit_1.
Qed.

(** ** What running actions does *)

Definition port_bit (p : acr_port) : Z := 3 * acr_port_num p.
Definition booked (b : acr_portbook) (k : key) : bool :=
  let '(m, (row, col), p) := k in Z.testbit (acr_book_cell b col row m) (port_bit p).
Definition key_ok (k : key) : bool := let '(m, (row, col), p) := k in (row <=? ACR_MAX_ROWS) && (col <? 64).
Definition add_book (b : acr_portbook) (k : key) : acr_portbook :=
  let '(m, (row, col), p) := k in
  set_book_cell b col row m (acr_book_cell b col row m |' 2 ^ port_bit p).

Lemma port_bit_range p : 0 <= port_bit p <= 12.
Proof. unfold port_bit. destruct p; cbn; lia. Qed.

Lemma port_bit_inj p q : port_bit p = port_bit q -> p = q.
Proof. by destruct p, q. Qed.

Lemma land_pow2 x n : 0 <= n -> z2b (Z.land x (2 ^ n)) = Z.testbit x n.
Proof.
  intros Hn. unfold z2b. destruct (Z.testbit x n) eqn:E.
  - apply negb_true_iff, Z.eqb_neq. intros H. apply (f_equal (fun z => Z.testbit z n)) in H.
    rewrite Z.land_spec, Z.pow2_bits_true, E, Z.bits_0 in H by lia. done.
  - apply negb_false_iff, Z.eqb_eq. apply Z.bits_inj'. intros i Hi. rewrite Z.land_spec, Z.bits_0.
    rewrite Z.pow2_bits_eqb by lia. destruct (Z.eqb_spec n i) as [<-|]; [by rewrite E|by rewrite andb_false_r].
Qed.

Lemma book_port_spec k o b :
  run_act (ABook k) (o, b) =
  if key_ok k then if booked b k then ((o, b), Err ACR_ERR_PORT_CONFLICT) else ((o, add_book b k), Ok tt)
  else ((o, b), Err ACR_ERR_BOUNDS).
Proof.
  destruct k as [[m [row col]] p]. cbn [run_act key_ok booked add_book]. unfold acr_book_port.
  replace ((row >? ACR_MAX_ROWS) || (col >=? 64) || (0 >=? 3)) with
    (negb ((row <=? ACR_MAX_ROWS) && (col <? 64))) by lia.
  destruct ((row <=? ACR_MAX_ROWS) && (col <? 64)); cbn [negb]; [|done].
  assert (u16 (1 <<u32 (acr_port_num p *u32 3 +u32 0)) = 2 ^ port_bit p) as -> by (by destruct p).
  rewrite land_pow2 by apply port_bit_range. done.
Qed.

Lemma cell_set b col row m v col' row' m' :
  acr_book_cell (set_book_cell b col row m v) col' row' m' =
  if bool_decide ((m, (row, col)) = (m', (row', col'))) then v else acr_book_cell b col' row' m'.
Proof.
  unfold acr_book_cell, set_book_cell.
  destruct (decide ((row, col) = (row', col'))) as [E|E]; [injection E as -> ->|];
    destruct m, m'; cbn; try rewrite lookup_insert_eq; try rewrite lookup_insert_ne by done;
    case_bool_decide; try done; try congruence.
Qed.

Lemma booked_add b k k' : booked (add_book b k) k' = bool_decide (k = k') || booked b k'.
Proof.
  destruct k as [[m [row col]] p], k' as [[m' [row' col']] p']. cbn [add_book booked]. rewrite cell_set.
  case_bool_decide as E; [injection E as <- <- <-|].
  - rewrite Z.lor_spec, Z.pow2_bits_eqb, orb_comm by apply port_bit_range. f_equal.
    case_bool_decide as E2; [injection E2 as <-; apply Z.eqb_refl|]. apply Z.eqb_neq. intros H.
    apply E2. by rewrite (port_bit_inj p p').
  - rewrite bool_decide_false by congruence. done.
Qed.

Lemma booked_book0 k : booked book0 k = false.
Proof. destruct k as [[[] [row col]] p]; cbn; unfold acr_book_cell; cbn; rewrite lookup_empty; apply Z.bits_0. Qed.

(** A successful run emits exactly its ops and books exactly its keys, none
    of which was booked before. *)
Lemma run_acts_inv l : forall o b o' b',
  run_acts l (o, b) = ((o', b'), Ok tt) ->
  o' = o ++ emits l /\ NoDup (books l) /\ (forall k, k ∈ books l -> booked b k = false) /\
  (forall k, booked b' k = bool_decide (k ∈ books l) || booked b k).
Proof.
  induction l as [|a l IH]; intros o b o' b' H.
  { injection H as <- <-. cbn. rewrite app_nil_r. split_and!; [done|constructor|by intros k Hk%elem_of_nil|done]. }
  unfold run_acts in H. cbn [forM] in H. apply bind_inv_Ok in H as ([o1 b1] & [] & H1 & H2).
  destruct a as [k|op].
  - rewrite book_port_spec in H1. destruct (key_ok k); [|done]. destruct (booked b k) eqn:Hb; [done|].
    injection H1 as <- <-. apply IH in H2 as (-> & Hnd & Hfr & Hbk). cbn [emits books omap list_omap].
    fold (books l). fold (emits l). split_and!; [done|..].
    + apply NoDup_cons. split; [|done]. intros Hk. specialize (Hfr k Hk). by rewrite booked_add, bool_decide_true in Hfr.
    + intros k' [->|Hk']%elem_of_cons; [done|]. specialize (Hfr k' Hk').
      rewrite booked_add in Hfr. by apply orb_false_elim in Hfr as [_ ?].
    + intros k'. rewrite Hbk, booked_add, orb_assoc. f_equal.
      rewrite <- bool_decide_or. apply bool_decide_ext. rewrite elem_of_cons.
      split; intros [?|?]; subst; auto.
  - cbn [run_act acr_emit_op] in H1. destruct (len o >=? ACR_MAX_OPS); [done|]. injection H1 as <- <-.
    apply IH in H2 as (-> & Hnd & Hfr & Hbk). split_and!; try done. by rewrite <- app_assoc.
Qed.

(** And it does succeed when there is room and every key is free. *)
Lemma run_acts_total l : forall o b,
  len o + len (emits l) <= ACR_MAX_OPS -> Forall (fun k => key_ok k = true) (books l) ->
  NoDup (books l) -> (forall k, k ∈ books l -> booked b k = false) ->
  exists b', run_acts l (o, b) = ((o ++ emits l, b'), Ok tt).
Proof.
  induction l as [|a l IH]; intros o b Hroom Hok Hnd Hfr.
  { exists b. cbn. by rewrite app_nil_r. }
  unfold run_acts. cbn [forM]. destruct a as [k|op].
  - cbn [emits books omap list_omap] in *. apply Forall_cons in Hok as [Hk Hok].
    apply NoDup_cons in Hnd as [Hnk Hnd].
    erewrite bind_Ok; [|rewrite book_port_spec, Hk, Hfr by constructor; reflexivity].
    apply IH; [done..|]. intros k' Hk'. rewrite booked_add, Hfr by (by constructor).
    rewrite bool_decide_false; [done|]. by intros ->.
  - cbn [emits books omap list_omap] in *. fold (emits l) in *. fold (books l) in *.
    rewrite len_cons in Hroom. pose proof (len_nonneg (emits l)).
    erewrite bind_Ok; [|cbn [run_act acr_emit_op]; replace (len o >=? ACR_MAX_OPS) with false by lia; reflexivity].
    destruct (IH (o ++ [op]) b) as [b' E]; [|done..|].
    + rewrite len_app. change (len [op]) with 1. lia.
    + exists b'. unfold run_acts in E. rewrite E. by rewrite <- app_assoc.
Qed.

(** ** Adding a row *)

(** The arguments [acr_plan_row_add] accepts, given the rows it has. *)
Definition row_args_ok (s : acr_state) (shim_col row col_lo col_hi : Z) : Prop :=
  0 <= shim_col <= col_lo /\ col_lo <= col_hi < 64 /\ 1 <= row < 256 /\
  nrows s <= ACR_MAX_ROW_IDX /\ acr_row_is_head s row = false.

Lemma lift_bind {S} (m n : planM) : same (@lift S _ m ;; lift n) (lift (m ;; n)).
Proof. intros [s p]. unfold mbind, stE_bind, lift. by destruct (m p) as [p' [[]|e]]. Qed.

Lemma chain_ex_acts s shim row lo hi id top :
  row_args_ok s shim row lo hi ->
  same (acr_plan_chain_ex row (nrows s) shim lo hi id shim ACR_SOUTH top)
    (run_acts (concat (map (chain_acts row (nrows s) shim lo hi id shim ACR_SOUTH top) (range shim (hi + 1))))).
Proof.
  intros (H1 & H2 & H3 & H4 & _). unfold acr_plan_chain_ex.
  replace ((hi <? shim) || (hi >=? 64) || (lo <? shim) || (lo >? hi)) with false by lia.
  replace (nrows s >? ACR_MAX_ROW_IDX) with false by lia.
  change (ACR_NUM_SLOTS <? 4) with false. cbv iota.
  apply run_acts_concat. intros c. apply chain_tile_acts.
Qed.

Lemma return_ex_acts s shim row lo hi top :
  row_args_ok s shim row lo hi ->
  same (acr_plan_return_chain_ex row shim lo hi top)
    (run_acts (concat (map (return_acts row shim lo hi top) (range shim (hi + 1))))).
Proof.
  intros (H1 & H2 & H3 & H4 & _). unfold acr_plan_return_chain_ex.
  replace ((hi <? shim) || (hi >=? 64) || (lo <? shim) || (lo >? hi)) with false by lia.
  apply run_acts_concat. intros c. apply return_tile_acts.
Qed.

(** The new spine top. *)
Definition top_after (s : acr_state) (row : Z) : Z := Z.max (spine_top s) (row - 1).

Lemma row_add_run s o b shim row lo hi id top :
  row_args_ok s shim row lo hi -> 0 <= spine_top s < 255 ->
  match run_acts (row_acts s shim row lo hi id top) (o, b) with
  | (p', Ok _) => acr_plan_row_add shim row lo hi id top (s, (o, b)) =
                  ((State (top_after s row) (rows s ++ [row]), p'), Ok tt)
  | (p', Err e) => exists s', acr_plan_row_add shim row lo hi id top (s, (o, b)) = ((s', p'), Err e)
  end.
Proof.
  intros Hargs Hsp. pose proof (chain_ex_acts s shim row lo hi id top Hargs) as Hc.
  pose proof (return_ex_acts s shim row lo hi top Hargs) as Hr.
  destruct Hargs as (H1 & H2 & H3 & H4 & Hh).
  remember (acr_plan_row_add shim row lo hi id top (s, (o, b))) as X eqn:EX. unfold acr_plan_row_add in EX.
  replace ((row =? 0) || (shim >=? 64)) with false in EX by lia. replace (lo <? shim) with false in EX by lia.
  rewrite (bind_Ok (gets fst) _ (s, (o, b)) (s, (o, b)) s eq_refl), Hh in EX.
  unfold ACR_MAX_ROW_IDX, RT_RES_MAX_ROW_IDX in H4. unfold ACR_MAX_ROWS, ACR_MAX_ROW_IDX, RT_RES_MAX_ROW_IDX in EX.
  replace (nrows s >=? 16) with false in EX by lia. replace (nrows s >? 3) with false in EX by lia.
  unfold row_acts. rewrite (run_acts_app _ (concat _ ++ concat _)). cbv zeta in EX.
  rewrite (u8_small (row - 1)) in * by lia. rewrite (u8_small (spine_top s + 1)) in * by lia.
  set (hops := concat (map (hop_acts s shim) _)).
  pose proof (run_acts_concat (hop_acts s shim) (spine_hop s shim) (range (spine_top s + 1) (row - 1 + 1))
                (spine_hop_acts s shim)) as Hhop. fold hops in Hhop.
  assert (when (row - 1 >? spine_top s)
     (lift (forM (range (spine_top s + 1) (row - 1 + 1)) (spine_hop s shim));;
      modify (fun '(s, p) => (State (row - 1) (rows s), p))) (s, (o, b)) =
    match run_acts hops (o, b) with
    | (p', Ok _) => ((State (top_after s row) (rows s), p'), Ok tt)
    | (p', Err e) => ((s, p'), Err e) end) as Hw.
  { unfold when, top_after. destruct (Z.gtb_spec (row - 1) (spine_top s)) as [Hgt|Hle].
    - unfold mbind, stE_bind, lift, modify. rewrite Hhop. rewrite Z.max_r by lia.
      by destruct (run_acts hops (o, b)) as [p' [[]|e]].
    - assert (hops = []) as -> by (subst hops; unfold range; rewrite seqZ_nil by lia; done).
      rewrite Z.max_l by lia. by destruct s. }
  unfold mbind at 1, stE_bind at 1. unfold mbind at 1, stE_bind at 1 in EX. rewrite Hw in EX. clear Hw.
  destruct (run_acts hops (o, b)) as [p1 [[]|e]]; [|by eexists].
  rewrite run_acts_app. unfold mbind, stE_bind. unfold mbind, stE_bind, lift in EX. rewrite Hc in EX.
  destruct (run_acts _ p1) as [p2 [[]|e]]; [|by eexists]. rewrite Hr in EX.
  by destruct (run_acts _ p2) as [p3 [[]|e]]; [|eexists].
Qed.

(** ** The actions of a tile *)

Lemma emits_app l k : emits (l ++ k) = emits l ++ emits k.
Proof. apply omap_app. Qed.
Lemma books_app l k : books (l ++ k) = books l ++ books k.
Proof. apply omap_app. Qed.
Lemma emits_concat {A} (f : A -> list act) xs : emits (concat (map f xs)) = concat (map (fun x => emits (f x)) xs).
Proof. induction xs; [done|]. cbn [map concat]. by rewrite emits_app, IHxs. Qed.
Lemma books_concat {A} (f : A -> list act) xs : books (concat (map f xs)) = concat (map (fun x => books (f x)) xs).
Proof. induction xs; [done|]. cbn [map concat]. by rewrite books_app, IHxs. Qed.

(** Ports of the forward and of the return fabric. *)
Definition fwd_key (k : key) : bool :=
  match k with
  | (false, _, ACR_SOUTH) | (false, _, ACR_WEST)
  | (true, _, ACR_CTRL) | (true, _, ACR_EAST) | (true, _, ACR_NORTH) => true
  | _ => false
  end.

Ltac nodup_keys :=
  repeat (apply NoDup_cons_2;
          [repeat (apply not_elem_of_cons; split; [congruence|]); apply not_elem_of_nil|]);
  apply NoDup_nil_2.

Section Tile.
Context (row rowidx lo tlo hi id : Z) (top : bool).

Lemma chain_books c :
  let l := books (chain_acts row rowidx lo tlo hi id lo ACR_SOUTH top c) in
  NoDup l /\ Forall (fun k => k.1.2 = (row, c) /\ fwd_key k = true) l.
Proof.
  unfold chain_acts, if_acts, master_acts.
  destruct (c =? lo), ((lo >=? 0) && (c =? u8 lo)), top, (c >=? tlo), (c =? hi); cbn;
    (split; [nodup_keys|repeat constructor]).
Qed.

Lemma return_books c :
  let l := books (return_acts row lo tlo hi top c) in
  NoDup l /\ Forall (fun k => k.1.2 = (row, c) /\ fwd_key k = false) l.
Proof.
  unfold return_acts, if_acts, master_acts, ret_slot_acts.
  destruct (c =? lo), top, (c >=? tlo), (c <? hi); cbn; (split; [nodup_keys|repeat constructor]).
Qed.

Lemma chain_emits_len c :
  len (emits (chain_acts row rowidx lo tlo hi id lo ACR_SOUTH top c)) <=
  4 + (if c =? lo then 2 else 0) + (if c =? hi then 0 else 1).
Proof.
  unfold chain_acts, if_acts, master_acts.
  destruct (c =? lo), ((lo >=? 0) && (c =? u8 lo)), top, (c >=? tlo), (c =? hi); vm_compute; discriminate.
Qed.

Lemma return_emits_len c :
  len (emits (return_acts row lo tlo hi top c)) <= 3 + (if c =? lo then 2 else 0) + (if c <? hi then 2 else 0).
Proof.
  unfold return_acts, if_acts, master_acts, ret_slot_acts.
  destruct (c =? lo), top, (c >=? tlo), (c <? hi); vm_compute; discriminate.
Qed.
End Tile.

Lemma sum_bound {A} (f : A -> list acr_op) (g : A -> Z) xs :
  Forall (fun x => len (f x) <= g x) xs -> len (concat (map f xs)) <= foldr (fun x n => g x + n) 0 xs.
Proof. induction 1; [done|]. cbn [map concat foldr]. rewrite len_app. lia. Qed.

(** A sum over the columns [lo..hi] that counts [a] per column, plus [h] at
    the head, minus [e] at the last. *)
Lemma sum_cols a h e lo hi : lo <= hi ->
  foldr (fun c n => (a + (if c =? lo then h else 0) + (if c =? hi then 0 else e)) + n) 0 (range lo (hi + 1)) =
  (a + e) * (hi - lo + 1) + h - e.
Proof.
  intros H. unfold range.
  assert (forall n l, lo < l -> foldr (fun c m => (a + (if c =? lo then h else 0) + (if c =? hi then 0 else e)) + m) 0
            (seqZ l (Z.of_nat n)) =
          (a + e) * Z.of_nat n - (if (l <=? hi) && (hi <? l + Z.of_nat n) then e else 0)) as Hn.
  { induction n as [|n IH]; intros l Hl.
    - rewrite seqZ_nil by lia. cbn [foldr]. change (Z.of_nat 0) with 0. replace ((l <=? hi) && (hi <? l + 0)) with false by lia. lia.
    - rewrite Nat2Z.inj_succ, seqZ_cons by lia. rewrite Z.pred_succ. cbn [foldr]. rewrite IH by lia.
      replace (l =? lo) with false by lia.
      destruct (Z.eqb_spec l hi); destruct (Z.succ l <=? hi) eqn:E1; destruct (hi <? Z.succ l + Z.of_nat n) eqn:E2;
        destruct ((l <=? hi) && (hi <? l + Z.succ (Z.of_nat n))) eqn:E3; cbn [andb]; rewrite Z.mul_succ_r; unfold Z.succ in *; (lia || (exfalso; lia)). }
  rewrite seqZ_cons by lia. cbn [foldr]. rewrite Z.eqb_refl. rewrite <- Z.add_1_r.
  replace (Z.pred (hi + 1 - lo)) with (Z.of_nat (Z.to_nat (hi - lo))) by lia. rewrite Hn, Z2Nat.id by lia.
  destruct (Z.eqb_spec lo hi).
  - subst. replace (hi + 1 <=? hi) with false by lia. cbn [andb]. lia.
  - replace ((lo + 1 <=? hi) && (hi <? lo + 1 + (hi - lo))) with true by lia. lia.
Qed.

Lemma NoDup_cols (f : Z -> list key) row xs :
  NoDup xs -> (forall c, NoDup (f c) /\ Forall (fun k => k.1.2 = (row, c)) (f c)) ->
  NoDup (concat (map f xs)).
Proof.
  intros Hnd Hf. induction Hnd as [|c xs Hc _ IH]; [constructor|]. cbn [map concat].
  apply NoDup_app. split_and!; [apply Hf| |done]. intros k Hk Hin.
  apply list_elem_of_In, in_concat in Hin as (l & (c' & <- & Hc')%in_map_iff & Hk').
  apply list_elem_of_In in Hk'. apply list_elem_of_In in Hc'.
  destruct (Hf c) as [_ H1], (Hf c') as [_ H2]. rewrite Forall_forall in H1, H2.
  specialize (H1 k Hk). specialize (H2 k Hk'). assert (c = c') by congruence. by subst.
Qed.

Lemma Forall_concat_map {A B} (P : B -> Prop) (f : A -> list B) xs :
  Forall (fun x => Forall P (f x)) xs -> Forall P (concat (map f xs)).
Proof. induction 1; [constructor|]. cbn [map concat]. by apply Forall_app. Qed.

Section Row.
Context (s : acr_state) (shim row lo hi id : Z) (top : bool).
Hypothesis Hargs : row_args_ok s shim row lo hi.

Lemma hop_books r : books (hop_acts s shim r) = [].
Proof. unfold hop_acts, if_acts. by destruct (negb _). Qed.

Lemma row_books :
  books (row_acts s shim row lo hi id top) =
  concat (map (fun c => books (chain_acts row (nrows s) shim lo hi id shim ACR_SOUTH top c)) (range shim (hi + 1))) ++
  concat (map (fun c => books (return_acts row shim lo hi top c)) (range shim (hi + 1))).
Proof.
  unfold row_acts. rewrite !books_app, !books_concat.
  replace (concat (map (fun x => books (hop_acts s shim x)) _)) with (@nil key); [done|].
  symmetry. generalize (range (u8 (spine_top s + 1)) (u8 (row - 1) + 1)) as l.
  induction l as [|r l IH]; [done|]. cbn [map concat]. by rewrite hop_books, IH.
Qed.

Lemma row_books_keys :
  NoDup (books (row_acts s shim row lo hi id top)) /\ Forall (fun k => exists c, shim <= c <= hi /\ k.1.2 = (row, c)) (books (row_acts s shim row lo hi id top)).
Proof.
  rewrite row_books. split.
  - apply NoDup_app. split_and!.
    + apply (NoDup_cols _ row); [apply NoDup_seqZ|]. intros c.
      destruct (chain_books row (nrows s) shim lo hi id top c) as [H1 H2]. split; [done|].
      eapply Forall_impl; [exact H2|]. by intros k [? _].
    + intros k Hk Hk'.
      assert (Forall (fun k => fwd_key k = true)
        (concat (map (fun c => books (chain_acts row (nrows s) shim lo hi id shim ACR_SOUTH top c)) (range shim (hi + 1))))) as H1.
      { apply Forall_concat_map, Forall_true. intros c.
        eapply Forall_impl; [apply (chain_books row (nrows s) shim lo hi id top c)|]. by intros ? [_ ?]. }
      assert (Forall (fun k => fwd_key k = false)
        (concat (map (fun c => books (return_acts row shim lo hi top c)) (range shim (hi + 1))))) as H2.
      { apply Forall_concat_map, Forall_true. intros c.
        eapply Forall_impl; [apply (return_books row shim lo hi top c)|]. by intros ? [_ ?]. }
      rewrite Forall_forall in H1, H2. specialize (H1 k Hk). specialize (H2 k Hk'). congruence.
    + apply (NoDup_cols _ row); [apply NoDup_seqZ|]. intros c.
      destruct (return_books row shim lo hi top c) as [H1 H2]. split; [done|].
      eapply Forall_impl; [exact H2|]. by intros k [? _].
  - apply Forall_app. split; apply Forall_concat_map, Forall_forall; intros c Hc; apply elem_of_seqZ in Hc.
    + eapply Forall_impl; [apply (chain_books row (nrows s) shim lo hi id top c)|]. intros k [? _]. exists c. split; [lia|done].
    + eapply Forall_impl; [apply (return_books row shim lo hi top c)|]. intros k [? _]. exists c. split; [lia|done].
Qed.

(** At most ten ops per column, one more for the head, two per hop. *)
Lemma row_emits_len : 0 <= spine_top s < 255 ->
  len (emits (row_acts s shim row lo hi id top)) <= 10 * (hi - shim + 1) + 1 + 2 * Z.max 0 (row - 1 - spine_top s).
Proof.
  intros Hsp. destruct Hargs as (H1 & H2 & H3 & _ & _). unfold row_acts. rewrite !emits_app, !emits_concat, !len_app.
  rewrite (u8_small (row - 1)), (u8_small (spine_top s + 1)) by lia.
  assert (len (concat (map (fun x => emits (hop_acts s shim x)) (range (spine_top s + 1) (row - 1 + 1)))) <=
          2 * Z.max 0 (row - 1 - spine_top s)) as Hh.
  { etransitivity; [apply (sum_bound _ (fun _ => 2)), Forall_true|].
    - intros r. unfold hop_acts, if_acts. by destruct (negb _).
    - unfold range. replace (row - 1 + 1 - (spine_top s + 1)) with (row - 1 - spine_top s) by lia.
      destruct (decide (0 <= row - 1 - spine_top s)) as [Hp|Hp]; [|rewrite seqZ_nil by lia; cbn; lia].
      destruct (Z_of_nat_complete _ Hp) as [n ->]. rewrite Z.max_r by lia. generalize (spine_top s + 1) as l.
      clear. induction n as [|n IH]; intros l; [rewrite seqZ_nil by lia; done|].
      rewrite Nat2Z.inj_succ, seqZ_cons by lia. rewrite Z.pred_succ. cbn [foldr]. specialize (IH (Z.succ l)). lia. }
  assert (len (concat (map (fun x => emits (chain_acts row (nrows s) shim lo hi id shim ACR_SOUTH top x)) (range shim (hi + 1))))
          <= 5 * (hi - shim + 1) + 1) as Hc.
  { etransitivity; [apply (sum_bound _ (fun c => 4 + (if c =? shim then 2 else 0) + (if c =? hi then 0 else 1))), Forall_true|].
    - intros c. apply chain_emits_len.
    - rewrite sum_cols by lia. lia. }
  assert (len (concat (map (fun x => emits (return_acts row shim lo hi top x)) (range shim (hi + 1))))
          <= 5 * (hi - shim + 1)) as Hr.
  { etransitivity; [apply (sum_bound _ (fun c => 3 + (if c =? shim then 2 else 0) + (if c =? hi then 0 else 2)))|].
    - apply Forall_forall. intros c Hc0. apply elem_of_seqZ in Hc0.
      etransitivity; [apply return_emits_len|]. destruct (Z.eqb_spec c hi), (Z.ltb_spec c hi); lia.
    - rewrite sum_cols by lia. lia. }
  lia.
Qed.
End Row.

(** ** Properties *)

(** A row no port of which is booked. *)
Definition row_free (b : acr_portbook) (row : Z) : Prop := forall m c p, booked b (m, (row, c), p) = false.

(** A row can always be added when its arguments are in range, none of its
    ports is booked and the op list has room for ten ops per column, one for
    the head and two per new spine hop: the planner succeeds, appends
    exactly the row's ops, records the row, and books only ports of that
    row. *)
Theorem row_add_succeeds s o b shim row lo hi id top :
  row_args_ok s shim row lo hi -> 0 <= spine_top s < 255 -> row <= ACR_MAX_ROWS -> row_free b row ->
  len o + 10 * (hi - shim + 1) + 1 + 2 * Z.max 0 (row - 1 - spine_top s) <= ACR_MAX_OPS ->
  exists b',
    acr_plan_row_add shim row lo hi id top (s, (o, b)) =
      ((State (top_after s row) (rows s ++ [row]), (o ++ emits (row_acts s shim row lo hi id top), b')), Ok tt) /\
    (forall m r c p, r <> row -> booked b' (m, (r, c), p) = booked b (m, (r, c), p)).
Proof.
  intros Hargs Hsp Hrow Hfree Hroom.
  destruct (row_books_keys s shim row lo hi id top) as [Hnd Hk].
  pose proof (row_emits_len s shim row lo hi id top Hargs Hsp) as Hlen.
  rewrite Forall_forall in Hk.
  destruct (run_acts_total (row_acts s shim row lo hi id top) o b) as [b' E]; [lia| |done| |].
  - apply Forall_forall. intros [[m rc] p] Hin. destruct (Hk _ Hin) as (c & Hc & Erc). cbn in Erc. subst rc.
    destruct Hargs as (? & ? & ? & _). cbn. lia.
  - intros [[m rc] p] Hin. destruct (Hk _ Hin) as (c & Hc & Erc). cbn in Erc. subst rc. apply Hfree.
  - pose proof (row_add_run s o b shim row lo hi id top Hargs Hsp) as Hrun. rewrite E in Hrun.
    exists b'. split; [done|]. intros m r c p Hr. apply run_acts_inv in E as (_ & _ & _ & Hb). rewrite Hb.
    rewrite bool_decide_false; [done|]. intros Hin. destruct (Hk _ Hin) as (c' & _ & Erc). cbn in Erc. congruence.
Qed.

Lemma row_add_succeeds_witness :
  exists b',
    acr_plan_row_add 2 3 3 17 5 false (State 0 [], ([], book0)) =
      ((State 2 [3], ([] ++ emits (row_acts (State 0 []) 2 3 3 17 5 false), b')), Ok tt) /\
    (forall m r c p, r <> 3 -> booked b' (m, (r, c), p) = booked book0 (m, (r, c), p)).
Proof.
  apply (row_add_succeeds (State 0 []) [] book0 2 3 3 17 5 false).
  - repeat split; vm_compute; intuition discriminate.
  - vm_compute. intuition discriminate.
  - vm_compute. discriminate.
  - intros m c p. apply booked_book0.
  - vm_compute. discriminate.
Defined.

(** ** Inside the reservation table *)

(** The cross-check of the planner's assertions, and the masks the routing
    side excludes. *)
Definition op_reserved (gen : rt_res_gen) (op : acr_op) : bool :=
  match o_kind op with
  | ACR_OP_SLOT =>
    Runtime_res_is_reserved gen (acr_port_num (o_sport op)) 0 (o_slot op) (o_arbiter op) (o_msel op) (o_pkt_id op)
  | ACR_OP_MASTER_EN =>
    Runtime_res_is_reserved gen (acr_port_num (o_mport op)) 1 RT_RES_NA (o_arbiter op) (o_mselen op) RT_RES_NA
  | _ => true
  end.

Definition op_excluded (gen : rt_res_gen) (op : acr_op) : bool :=
  match o_kind op with
  | ACR_OP_SLOT =>
    Z.testbit (Runtime_res_reserved_pktid_mask gen) (o_pkt_id op) &&
    Z.testbit (Runtime_res_reserved_arbiter_mask gen) (o_arbiter op) &&
    Z.testbit (Runtime_res_reserved_slot_mask gen (acr_port_num (o_sport op)) 0) (o_slot op)
  | ACR_OP_MASTER_EN => Z.testbit (Runtime_res_reserved_arbiter_mask gen) (o_arbiter op)
  | _ => true
  end.

Definition op_ok (gen : rt_res_gen) (op : acr_op) : Prop := op_reserved gen op = true /\ op_excluded gen op = true.

Lemma rowidx_cases n : 0 <= n <= 3 -> n = 0 \/ n = 1 \/ n = 2 \/ n = 3.
Proof. lia. Qed.

Ltac all_ops := repeat (apply Forall_cons; split; [split; vm_compute; reflexivity|]); apply Forall_nil_2.

Lemma chain_ops_ok gen row rowidx lo tlo hi id top c :
  0 <= rowidx <= 3 -> Forall (op_ok gen) (emits (chain_acts row rowidx lo tlo hi id lo ACR_SOUTH top c)).
Proof.
  intros Hr. destruct (rowidx_cases rowidx Hr) as [->|[->|[->| ->]]]; unfold chain_acts, if_acts, master_acts;
    destruct (c =? lo), ((lo >=? 0) && (c =? u8 lo)), top, (c >=? tlo), (c =? hi); cbn [andb negb app emits omap list_omap];
    all_ops.
Qed.

Lemma return_ops_ok gen row lo tlo hi top c :
  Forall (op_ok gen) (emits (return_acts row lo tlo hi top c)).
Proof.
  unfold return_acts, if_acts, master_acts, ret_slot_acts.
  destruct (c =? lo), top, (c >=? tlo), (c <? hi); cbn [negb app emits omap list_omap]; all_ops.
Qed.

Lemma row_ops_ok gen s shim row lo hi id top :
  row_args_ok s shim row lo hi -> Forall (op_ok gen) (emits (row_acts s shim row lo hi id top)).
Proof.
  intros (_ & _ & _ & Hn & _). unfold row_acts. rewrite !emits_app, !emits_concat, !Forall_app. split_and!;
    apply Forall_concat_map, Forall_true; intros c.
  - unfold hop_acts, if_acts. destruct (negb _); cbn [emits omap list_omap]; all_ops.
  - apply chain_ops_ok. unfold nrows in *. pose proof (len_nonneg (rows s)). unfold ACR_MAX_ROW_IDX, RT_RES_MAX_ROW_IDX in Hn. lia.
  - apply return_ops_ok.
Qed.

(** What a call to the planner can do at all, whatever its arguments. *)
Lemma row_add_cases s o b shim row lo hi id top s' o' b' :
  0 <= shim -> 0 <= row < 256 -> 0 <= spine_top s < 255 ->
  acr_plan_row_add shim row lo hi id top (s, (o, b)) = ((s', (o', b')), Ok tt) ->
  (acr_row_is_head s row = true /\ s' = s /\ o' = o /\ b' = b) \/
  (row_args_ok s shim row lo hi /\ s' = State (top_after s row) (rows s ++ [row]) /\
   run_acts (row_acts s shim row lo hi id top) (o, b) = ((o', b'), Ok tt)).
Proof.
  intros Hsh Hrow Hsp H.
  destruct (decide (row_args_ok s shim row lo hi)) as [Hargs|Hargs].
  - right. pose proof (row_add_run s o b shim row lo hi id top Hargs Hsp) as Hr. rewrite H in Hr.
    destruct (run_acts _ (o, b)) as [[o1 b1] [[]|e]]; [|by destruct Hr as [? Hr]]. injection Hr as -> -> ->. done.
  - left. revert H. unfold acr_plan_row_add.
    destruct ((row =? 0) || (shim >=? 64)) eqn:E1; [done|]. destruct (lo <? shim) eqn:E2; [done|].
    rewrite (bind_Ok (gets fst) _ (s, (o, b)) (s, (o, b)) s eq_refl).
    destruct (acr_row_is_head s row) eqn:E3; [by intros [= <- <- <-]|].
    destruct (nrows s >=? ACR_MAX_ROWS); [done|]. destruct (nrows s >? ACR_MAX_ROW_IDX) eqn:E4; [done|].
    intros H. exfalso. apply bind_inv_Ok in H as ([s1 p1] & [] & _ & H). apply bind_inv_Ok in H as ([s2 p2] & [] & H & _).
    unfold lift in H. unfold acr_plan_chain_ex in H.
    destruct ((hi <? shim) || (hi >=? 64) || (lo <? shim) || (lo >? hi)) eqn:E5; [done|].
    apply Hargs. unfold row_args_ok. split_and!; try lia; done.
Qed.

(** ** A whole fabric *)

(** A row to configure: row, first and last column, is it the topmost one. *)
Record row_req := Req { q_row : Z; q_lo : Z; q_hi : Z; q_top : bool }.

(** The calls of the planner for a list of rows, each with an empty op list,
    as its callers make them; the ops of all rows together. *)
Fixpoint plan_rows (shim id : Z) (reqs : list row_req) (s : acr_state) (b : acr_portbook)
    : res acr_rc (acr_state * list acr_op * acr_portbook) :=
  match reqs with
  | [] => Ok (s, [], b)
  | q :: reqs =>
    match acr_plan_row_add shim (q_row q) (q_lo q) (q_hi q) id (q_top q) (s, ([], b)) with
    | ((s', (o, b')), Ok _) =>
      match plan_rows shim id reqs s' b' with
      | Ok (s2, o2, b2) => Ok (s2, o ++ o2, b2)
      | Err e => Err e
      end
    | (_, Err e) => Err e
    end
  end.

Definition rows_ok (reqs : list row_req) : Prop := Forall (fun q => 0 <= q_row q < 256) reqs.

Lemma top_after_range s row : 0 <= spine_top s < 255 -> 0 <= row < 256 -> 0 <= top_after s row < 255.
Proof. unfold top_after. lia. Qed.

Lemma plan_rows_ops (P : acr_op -> Prop) shim id reqs : forall s b s' o b',
  0 <= shim -> rows_ok reqs -> 0 <= spine_top s < 255 ->
  (forall s row lo hi top, row_args_ok s shim row lo hi -> Forall P (emits (row_acts s shim row lo hi id top))) ->
  plan_rows shim id reqs s b = Ok (s', o, b') -> Forall P o.
Proof.
  induction reqs as [|q reqs IH]; intros s b s' o b' Hsh Hq Hsp HP; cbn [plan_rows].
  { intros [= <- <- <-]. constructor. }
  apply Forall_cons in Hq as [Hq0 Hq].
  destruct (acr_plan_row_add _ _ _ _ _ _ _) as [[s1 [o1 b1]] [[]|e]] eqn:E; [|done].
  destruct (plan_rows shim id reqs s1 b1) as [[[s2 o2] b2]|e] eqn:E2; [|done]. intros [= <- <- <-].
  apply row_add_cases in E as [(_ & -> & -> & ->)|(Hargs & -> & Hrun)]; [..|done|done|done].
  - by eapply IH in E2.
  - apply Forall_app. split; [|eapply IH in E2; try done; by apply top_after_range].
    apply run_acts_inv in Hrun as (-> & _). by apply HP.
Qed.

(** The planner never leaves the reservation table: every slot and master
    of a planned fabric, on every device generation, passes the reservation
    check, and its packet id, arbiter and slot are set in the masks by which
    routing excludes the control plane's resources. *)
Theorem plan_within_reserved gen shim id reqs s' o b' :
  0 <= shim -> rows_ok reqs ->
  plan_rows shim id reqs (State 0 []) book0 = Ok (s', o, b') ->
  Forall (fun op => op_reserved gen op = true /\ op_excluded gen op = true) o.
Proof.
  intros Hsh Hq. eapply (plan_rows_ops (op_ok gen)); [done|done|cbn; lia|].
  intros. by apply row_ops_ok.
Qed.

Lemma plan_within_reserved_witness :
  exists s' o b', plan_rows 2 5 [Req 3 2 5 false; Req 4 2 5 true] (State 0 []) book0 = Ok (s', o, b') /\
    Forall (fun op => op_reserved RT_RES_GEN5 op = true /\ op_excluded RT_RES_GEN5 op = true) o.
Proof.
  eexists _, _, _. split; [vm_compute; reflexivity|].
  eapply (plan_within_reserved RT_RES_GEN5 2 5 [Req 3 2 5 false; Req 4 2 5 true]).
  - lia.
  - repeat constructor; cbn; lia.
  - vm_compute. reflexivity.
Defined.

(** The sides of a tile's ports that an op drives or listens on. *)
Definition drives (op : acr_op) : list key :=
  match o_kind op with
  | ACR_OP_SLOT => []
  | ACR_OP_SLAVE_EN => [(false, (o_row op, o_col op), o_sport op)]
  | ACR_OP_MASTER_EN => [(true, (o_row op, o_col op), o_mport op)]
  | ACR_OP_CCT => [(false, (o_row op, o_col op), o_sport op); (true, (o_row op, o_col op), o_mport op)]
  end.

Definition all_drives (o : list acr_op) : list key := concat (map drives o).

Lemma all_drives_app a b : all_drives (a ++ b) = all_drives a ++ all_drives b.
Proof. unfold all_drives. by rewrite map_app, concat_app. Qed.

(** Packet-switched tiles drive exactly what they book. *)
Lemma chain_drives row rowidx lo tlo hi id top c :
  all_drives (emits (chain_acts row rowidx lo tlo hi id lo ACR_SOUTH top c)) =
  books (chain_acts row rowidx lo tlo hi id lo ACR_SOUTH top c).
Proof.
  unfold chain_acts, if_acts, master_acts.
  by destruct (c =? lo), ((lo >=? 0) && (c =? u8 lo)), top, (c >=? tlo), (c =? hi).
Qed.

Lemma return_drives row lo tlo hi top c :
  all_drives (emits (return_acts row lo tlo hi top c)) = books (return_acts row lo tlo hi top c).
Proof.
  unfold return_acts, if_acts, master_acts, ret_slot_acts.
  by destruct (c =? lo), top, (c >=? tlo), (c <? hi).
Qed.

Lemma drives_concat {A} (f : A -> list acr_op) xs :
  all_drives (concat (map f xs)) = concat (map (fun x => all_drives (f x)) xs).
Proof. induction xs; [done|]. cbn [map concat]. by rewrite all_drives_app, IHxs. Qed.

Lemma row_drives s shim row lo hi id top :
  all_drives (emits (row_acts s shim row lo hi id top)) =
  concat (map (fun r => all_drives (emits (hop_acts s shim r))) (range (u8 (spine_top s + 1)) (u8 (row - 1) + 1))) ++
  books (row_acts s shim row lo hi id top).
Proof.
  rewrite row_books. unfold row_acts. rewrite !emits_app, !emits_concat, !all_drives_app, !drives_concat.
  f_equal. f_equal; apply f_equal, map_ext; intros c; [apply chain_drives|apply return_drives].
Qed.

Lemma hop_drives s shim r :
  NoDup (all_drives (emits (hop_acts s shim r))) /\
  Forall (fun k => k.1.2 = (r, shim) /\ r ∉ rows s) (all_drives (emits (hop_acts s shim r))).
Proof.
  unfold hop_acts, if_acts. destruct (acr_row_is_head s r) eqn:E; cbn; [split; constructor|].
  assert (r ∉ rows s) as Hr.
  { intros Hin. assert (acr_row_is_head s r = true); [|congruence].
    apply existsb_exists. exists r. split; [by apply list_elem_of_In|lia]. }
  split; [nodup_keys|]. repeat constructor; done.
Qed.

(** Rows listed bottom-up. *)
Fixpoint increasing (lo : Z) (reqs : list row_req) : Prop :=
  match reqs with
  | [] => True
  | q :: reqs => lo < q_row q < 256 /\ increasing (q_row q) reqs
  end.

Lemma increasing_ok reqs : forall lo, 0 <= lo -> increasing lo reqs -> rows_ok reqs.
Proof.
  induction reqs as [|q reqs IH]; intros lo H0 H; [constructor|]. destruct H as [Hq H].
  constructor; [lia|]. apply (IH (q_row q)); [lia|done].
Qed.

(** Every driven port is on the spine or on a configured row, at most at row [bound]. *)
Definition driven_ok (s : acr_state) (bound : Z) (ks : list key) : Prop :=
  NoDup ks /\ Forall (fun k => k.1.2.1 <= spine_top s \/ k.1.2.1 ∈ rows s) ks /\
  spine_top s <= bound /\ Forall (fun r => r <= bound) (rows s).

Lemma row_drives_ok s bound ks shim row lo hi id top :
  row_args_ok s shim row lo hi -> 0 <= spine_top s < 255 -> bound < row ->
  driven_ok s bound ks ->
  driven_ok (State (top_after s row) (rows s ++ [row])) row
    (ks ++ all_drives (emits (row_acts s shim row lo hi id top))).
Proof.
  intros Hargs Hsp Hb (Hnd & Hks & Hst & Hrows). pose proof Hargs as (H1 & H2 & H3 & _).
  rewrite row_drives. rewrite (u8_small (row - 1)), (u8_small (spine_top s + 1)) by lia.
  set (hops := concat (map _ (range (spine_top s + 1) _))).
  destruct (row_books_keys s shim row lo hi id top) as [Hbnd Hbk].
  assert (Forall (fun k => spine_top s < k.1.2.1 < row /\ k.1.2.1 ∉ rows s) hops) as Hhk.
  { apply Forall_concat_map, Forall_forall. intros r Hr. apply elem_of_seqZ in Hr.
    eapply Forall_impl; [apply (hop_drives s shim r)|]. intros k [E Hnr]. rewrite E. cbn. split; [lia|done]. }
  assert (NoDup hops) as Hhnd.
  { subst hops. generalize (NoDup_seqZ (spine_top s + 1) (row - 1 + 1 - (spine_top s + 1))). unfold range.
    generalize (seqZ (spine_top s + 1) (row - 1 + 1 - (spine_top s + 1))) as xs. induction 1 as [|r xs Hr _ IH]; [constructor|].
    cbn [map concat]. apply NoDup_app. split_and!; [apply hop_drives| |done]. intros k Hk Hin.
    apply list_elem_of_In, in_concat in Hin as (l & (r' & <- & Hr')%in_map_iff & Hk').
    apply list_elem_of_In in Hk'. apply list_elem_of_In in Hr'.
    destruct (hop_drives s shim r) as [_ E1], (hop_drives s shim r') as [_ E2]. rewrite Forall_forall in E1, E2.
    destruct (E1 k Hk) as [E1' _], (E2 k Hk') as [E2' _]. assert (r = r') by congruence. by subst. }
  rewrite Forall_forall in Hks, Hbk, Hhk. rewrite Forall_forall in Hrows. unfold top_after. split_and!.
  - apply NoDup_app. split_and!; [done| |].
    + intros k Hk [Hin|Hin]%elem_of_app.
      * destruct (Hhk k Hin) as [? ?]. destruct (Hks k Hk) as [?|?]; [lia|done].
      * destruct (Hbk k Hin) as (c & _ & E). destruct (Hks k Hk) as [Hle|Hin'].
        -- rewrite E in Hle. cbn in Hle. lia.
        -- rewrite E in Hin'. cbn in Hin'. specialize (Hrows row Hin'). lia.
    + apply NoDup_app. split_and!; [done| |done]. intros k Hk Hin. destruct (Hhk k Hk) as [? _].
      destruct (Hbk k Hin) as (c & _ & E). rewrite E in *. cbn in *. lia.
  - cbn [spine_top rows]. rewrite !Forall_app. split_and!; apply Forall_forall; intros k Hk.
    + destruct (Hks k Hk); [left; lia|right; apply elem_of_app; by left].
    + destruct (Hhk k Hk). left. lia.
    + destruct (Hbk k Hk) as (c & _ & E). right. rewrite E. apply elem_of_app. right. by apply list_elem_of_singleton.
  - cbn [spine_top]. lia.
  - cbn [rows]. apply Forall_app. split; [|by apply Forall_singleton]. apply Forall_forall. intros r Hr.
    specialize (Hrows r Hr). lia.
Qed.

Lemma plan_rows_drives shim id reqs : forall s b bound ks s' o b',
  0 <= shim -> 0 <= spine_top s < 255 -> 0 <= bound -> increasing bound reqs -> driven_ok s bound ks ->
  plan_rows shim id reqs s b = Ok (s', o, b') -> NoDup (ks ++ all_drives o).
Proof.
  induction reqs as [|q reqs IH]; intros s b bound ks s' o b' Hsh Hsp Hb0 Hinc Hd; cbn [plan_rows].
  { intros [= <- <- <-]. change (all_drives []) with (@nil key). rewrite app_nil_r. apply Hd. }
  destruct Hinc as [Hq Hinc].
  destruct (acr_plan_row_add _ _ _ _ _ _ _) as [[s1 [o1 b1]] [[]|e]] eqn:E; [|done].
  destruct (plan_rows shim id reqs s1 b1) as [[[s2 o2] b2]|e] eqn:E2; [|done]. intros [= <- <- <-].
  apply row_add_cases in E as [(_ & -> & -> & ->)|(Hargs & -> & Hrun)]; [..|done|lia|done].
  - eapply (IH s b (q_row q)) in E2; [done|done|done|lia|done|].
    destruct Hd as (H1 & H2 & H3 & H4). split_and!; [done|done|lia|].
    eapply Forall_impl; [exact H4|]. cbn. lia.
  - apply run_acts_inv in Hrun as (-> & _). rewrite all_drives_app, app_assoc. cbn [app].
    eapply (IH _ b1 (q_row q)); [done| |lia|done| |exact E2].
    + apply top_after_range; [done|lia].
    + apply (row_drives_ok s bound); [done|done|lia|done].
Qed.

(** C24. Ports are exclusive: in a fabric planned bottom-up, no side of a
    port of a tile is driven by two ops, counting packet masters, enabled
    packet slaves and both ends of circuit hops. *)
Theorem plan_ports_exclusive shim id reqs s' o b' :
  0 <= shim -> increasing 0 reqs ->
  plan_rows shim id reqs (State 0 []) book0 = Ok (s', o, b') -> NoDup (all_drives o).
Proof.
  intros Hsh Hinc E. eapply (plan_rows_drives _ _ _ _ _ 0 []) in E; try done.
  split_and!; [constructor|constructor|done|constructor].
Qed.

Lemma plan_ports_exclusive_witness :
  exists s' o b', plan_rows 2 5 [Req 2 2 3 false; Req 4 2 5 true] (State 0 []) book0 = Ok (s', o, b') /\
    NoDup (all_drives o).
Proof.
  eexists _, _, _. split; [vm_compute; reflexivity|].
  eapply (plan_ports_exclusive 2 5 [Req 2 2 3 false; Req 4 2 5 true]).
  - lia.
  - cbn. lia.
  - vm_compute. reflexivity.
Defined.

(** in any other order the planner succeeds and drives ports twice: circuit
    hops are not booked, so a row added below an existing spine shares its
    head's SOUTH slave and NORTH master with them. *)
Theorem plan_top_down_conflict :
  match plan_rows 0 5 [Req 3 0 1 true; Req 2 0 1 false] (State 0 []) book0 with
  | Ok (_, o, _) => bool_decide (NoDup (all_drives o)) = false
  | Err _ => False
  end.
Proof. vm_compute. reflexivity. Qed.

(** ** Where packets go *)

(** The packet-switched ops of one tile. *)
Definition at_tile (c r : Z) (o : list acr_op) : list acr_op :=
  filter (fun op => (o_col op = c /\ o_row op = r) /\ o_kind op <> ACR_OP_CCT) o.

(** The slots of slave [p] that match a stream id, and the masters that pull
    from a slot: same arbiter, and the slot's select bit is enabled. *)
Definition hits (l : list acr_op) (p : acr_port) (id : Z) : list acr_op :=
  filter (fun op => (o_kind op = ACR_OP_SLOT /\ o_sport op = p) /\ (id & o_mask op) = (o_pkt_id op & o_mask op)) l.

Definition pulled (l : list acr_op) (slot : acr_op) : list acr_port :=
  map o_mport (filter (fun op => (o_kind op = ACR_OP_MASTER_EN /\ o_arbiter op = o_arbiter slot) /\
                                 Z.testbit (o_mselen op) (o_msel slot) = true) l).

(** The master ports a packet with stream id [id], arriving at slave [p] of
    tile [(c,r)], is sent to, slot by slot. *)
Definition outs (o : list acr_op) (c r : Z) (p : acr_port) (id : Z) : list acr_port :=
  let l := at_tile c r o in concat (map (pulled l) (hits l p id)).

Definition if_ (c : bool) (p : acr_port) : list acr_port := if c then [p] else [].

(** Specification: what a row's tile does with a stream id. Row-multicast
    packets of the row (classes 00 and 10) are consumed and sent east,
    broadcasts also climb at a head that is not the topmost, and at such a head
    every row-multicast climbs; [target]: the tile is one of the row's,
    [east]: it is not the last one. *)
Definition route (rowidx : Z) (target east climbs : bool) (id : Z) : list acr_port :=
  (if (id & 0x17) =? rowidx then if_ target ACR_CTRL ++ if_ east ACR_EAST else []) ++
  (if Z.testbit id 4 then if_ target ACR_CTRL ++ if_ east ACR_EAST ++ if_ climbs ACR_NORTH
   else if_ climbs ACR_NORTH).

Lemma at_tile_app c r a b : at_tile c r (a ++ b) = at_tile c r a ++ at_tile c r b.
Proof. unfold at_tile. apply filter_app. Qed.

Lemma at_tile_all c r l :
  Forall (fun op => (o_col op = c /\ o_row op = r) /\ o_kind op <> ACR_OP_CCT) l -> at_tile c r l = l.
Proof. induction 1; [done|]. unfold at_tile in *. rewrite filter_cons, decide_True by done. by f_equal. Qed.

Lemma at_tile_none c r l :
  Forall (fun op => ~ ((o_col op = c /\ o_row op = r) /\ o_kind op <> ACR_OP_CCT)) l -> at_tile c r l = [].
Proof. induction 1; [done|]. unfold at_tile in *. by rewrite filter_cons, decide_False by done. Qed.

Lemma at_tile_cols (f : Z -> list acr_op) c r xs :
  NoDup xs -> c ∈ xs ->
  (forall c, Forall (fun op => (o_col op = c /\ o_row op = r) /\ o_kind op <> ACR_OP_CCT) (f c)) ->
  at_tile c r (concat (map f xs)) = f c.
Proof.
  intros Hnd Hin Hf.
  assert (forall c', c' <> c -> at_tile c r (f c') = []) as Hne.
  { intros c' Hc. apply at_tile_none. eapply Forall_impl; [apply Hf|]. intros op [[? _] _] [[? _] _]. congruence. }
  induction Hnd as [|x xs Hx Hnd IH]; [by apply elem_of_nil in Hin|]. cbn [map concat]. rewrite at_tile_app.
  apply elem_of_cons in Hin as [<-|Hin].
  - rewrite at_tile_all by apply Hf. replace (at_tile c r (concat (map f xs))) with (@nil acr_op); [apply app_nil_r|].
    symmetry. clear IH Hnd. induction xs as [|y xs IH]; [done|]. cbn [map concat]. rewrite at_tile_app.
    apply not_elem_of_cons in Hx as [H1 H2]. by rewrite Hne, IH by congruence.
  - rewrite Hne by (intros ->; done). by apply IH.
Qed.

Ltac all_at := repeat (apply Forall_cons; split; [repeat split; discriminate|]); apply Forall_nil_2.

Lemma chain_at row rowidx lo tlo hi id top c :
  Forall (fun op => (o_col op = c /\ o_row op = row) /\ o_kind op <> ACR_OP_CCT)
    (emits (chain_acts row rowidx lo tlo hi id lo ACR_SOUTH top c)).
Proof.
  unfold chain_acts, if_acts, master_acts.
  destruct (c =? lo), ((lo >=? 0) && (c =? u8 lo)), top, (c >=? tlo), (c =? hi);
    cbn [andb negb app emits omap list_omap]; all_at.
Qed.

Lemma return_at row lo tlo hi top c :
  Forall (fun op => (o_col op = c /\ o_row op = row) /\ o_kind op <> ACR_OP_CCT)
    (emits (return_acts row lo tlo hi top c)).
Proof.
  unfold return_acts, if_acts, master_acts, ret_slot_acts.
  destruct (c =? lo), top, (c >=? tlo), (c <? hi); cbn [negb app emits omap list_omap]; all_at.
Qed.

Lemma hops_at s shim c row xs :
  at_tile c row (concat (map (fun r => emits (hop_acts s shim r)) xs)) = [].
Proof.
  apply at_tile_none, Forall_concat_map, Forall_true. intros r. unfold hop_acts, if_acts.
  destruct (negb _); cbn [emits omap list_omap]; [|constructor].
  repeat (apply Forall_cons; split; [intros [_ ?]; done|]); apply Forall_nil_2.
Qed.

Lemma row_at_tile s shim row lo hi id top c :
  shim <= c <= hi ->
  at_tile c row (emits (row_acts s shim row lo hi id top)) =
  emits (chain_acts row (nrows s) shim lo hi id shim ACR_SOUTH top c) ++ emits (return_acts row shim lo hi top c).
Proof.
  intros Hc. unfold row_acts. rewrite !emits_app, !emits_concat, !at_tile_app, hops_at.
  rewrite (at_tile_cols (fun x => emits (chain_acts row (nrows s) shim lo hi id shim ACR_SOUTH top x)) c row);
    [|apply NoDup_seqZ|apply elem_of_seqZ; lia|intros; apply chain_at].
  by rewrite (at_tile_cols (fun x => emits (return_acts row shim lo hi top x)) c row);
    [|apply NoDup_seqZ|apply elem_of_seqZ; lia|intros; apply return_at].
Qed.

(** All 32 stream ids at once. *)
Lemma ids_cases (P : Z -> Prop) : (forall n, (n < 32)%nat -> P (Z.of_nat n)) -> forall id, 0 <= id < 32 -> P id.
Proof. intros H id Hid. replace id with (Z.of_nat (Z.to_nat id)) by lia. apply H. lia. Qed.

Lemma tile_routes row rowidx lo tlo hi id top c :
  0 <= rowidx <= 3 -> 0 <= lo < 64 -> lo <= c <= hi -> forall sid, 0 <= sid < 32 ->
  let l := emits (chain_acts row rowidx lo tlo hi id lo ACR_SOUTH top c) ++ emits (return_acts row lo tlo hi top c) in
  concat (map (pulled l) (hits l (if c =? lo then ACR_SOUTH else ACR_WEST) sid)) =
  route rowidx (c >=? tlo) (c <? hi) ((c =? lo) && negb top) sid.
Proof.
  intros Hr Hlo Hc. unfold chain_acts, return_acts, if_acts, master_acts, ret_slot_acts.
  rewrite (u8_small lo) by lia. replace (lo >=? 0) with true by lia.
  replace (c =? hi) with (negb (c <? hi)) by lia.
  apply ids_cases. intros n Hn. cbv zeta.
  destruct (rowidx_cases rowidx Hr) as [->|[->|[->| ->]]];
    destruct (c =? lo), top, (c >=? tlo), (c <? hi);
    do 32 (destruct n as [|n]; [vm_compute; reflexivity|]); lia.
Qed.



(** The only-last class reaches no column at all: no tile of the row sends a
    packet of class 01 to its control port or east. *)
Lemma only_last_unrouted rowidx target east sid :
  0 <= rowidx <= 3 -> sid = 4 * ACR_CLASS_ONLY_LAST + rowidx -> route rowidx target east false sid = [].
Proof. intros Hr ->. destruct (rowidx_cases rowidx Hr) as [->|[->|[->| ->]]]; reflexivity. Qed.
