(* ===== verification/ShimRow.v ===== *)
(** * The shim row

    The one-hot-prefix stream ids of [acr_shim_row_id] and the exact and bit
    masks of [acr_plan_shim_row] deliver each packet to one column. *)

From stdpp Require Import base list list_numbers numbers gmap.
From S2P Require Import Prelude.
From S2P Require Import Resource.
From S2P Require Import ControlPlan.
From S2P Require Import ControlPlanProps.

Local Open Scope Z_scope.
Local Open Scope c_scope.

(** What column [lo + j] does with the packet for column [lo + k]. *)
Definition shim_route (j k : Z) : list acr_port :=
  if j <? k then [ACR_EAST] else if j =? k then [ACR_CTRL] else [].

(** The shim row [lo..hi] planned from scratch satisfies, for all columns
    [j] and [k], the specification; and no port is driven twice. *)
Definition shim_row_check (lo hi : Z) : bool :=
  match acr_plan_shim_row lo hi ([], ([], book0)) with
  | ((ret, (fwd, _)), Ok _) =>
    forallb (fun j => forallb (fun k =>
      bool_decide (outs fwd (lo + j) 0 ACR_WEST (acr_shim_row_id k) = shim_route j k))
      (range 0 (hi - lo + 1))) (range 0 (hi - lo + 1)) &&
    bool_decide (NoDup (all_drives (fwd ++ ret)))
  | _ => false
  end.

Lemma shim_row_check_all :
  forallb (fun lo => forallb (fun n => (lo + n >=? 64) || shim_row_check lo (lo + n)) (range 0 5)) (range 0 64) = true.
Proof. vm_compute. reflexivity. Qed.

(** C25. The shim row delivers each stream id to one column: for every span of
    at most five columns the planner succeeds, the packet with the id of
    column [k] is forwarded east by the columns before [k], taken by column [k]
    and by no other, and no port is driven twice. *)
Theorem shim_row_delivers lo hi :
  0 <= lo <= hi -> hi < 64 -> hi - lo + 1 <= RT_RES_SHIMROW_MAX_COLS ->
  exists ret fwd b, acr_plan_shim_row lo hi ([], ([], book0)) = ((ret, (fwd, b)), Ok tt) /\
    (forall j k, 0 <= j <= hi - lo -> 0 <= k <= hi - lo ->
       outs fwd (lo + j) 0 ACR_WEST (acr_shim_row_id k) = shim_route j k) /\
    NoDup (all_drives (fwd ++ ret)).
Proof.
  change RT_RES_SHIMROW_MAX_COLS with 5. intros Hlo Hhi Hn.
  pose proof shim_row_check_all as H. rewrite forallb_forall in H.
  specialize (H lo ltac:(apply list_elem_of_In, elem_of_seqZ; lia)). rewrite forallb_forall in H.
  specialize (H (hi - lo) ltac:(apply list_elem_of_In, elem_of_seqZ; lia)).
  replace (lo + (hi - lo)) with hi in H by lia. replace (hi >=? 64) with false in H by lia. cbn [orb] in H.
  unfold shim_row_check in H.
  destruct (acr_plan_shim_row lo hi ([], ([], book0))) as [[ret [fwd b]] [[]|e]]; [|done].
  apply andb_prop in H as [H Hnd]. apply bool_decide_eq_true in Hnd.
  exists ret, fwd, b. split_and!; [done| |done]. intros j k Hj Hk. rewrite forallb_forall in H.
  specialize (H j ltac:(apply list_elem_of_In, elem_of_seqZ; lia)). rewrite forallb_forall in H.
  specialize (H k ltac:(apply list_elem_of_In, elem_of_seqZ; lia)). by apply bool_decide_eq_true in H.
Qed.

Lemma shim_row_delivers_witness :
  exists ret fwd b, acr_plan_shim_row 7 11 ([], ([], book0)) = ((ret, (fwd, b)), Ok tt) /\
    (forall j k, 0 <= j <= 11 - 7 -> 0 <= k <= 11 - 7 ->
       outs fwd (7 + j) 0 ACR_WEST (acr_shim_row_id k) = shim_route j k) /\
    NoDup (all_drives (fwd ++ ret)).
Proof. apply (shim_row_delivers 7 11); vm_compute; intuition discriminate. Defined.
