(* ===== verification/Sha256.v ===== *)
(** * The netboot digest ([src/src/tool/netboot/supervisor/sha256.c])

    [block] and [nb_sha256] as the C code computes them, on byte arrays and
    32-bit words, and FIPS 180-4 written as its text has it (padding, message
    schedule, rounds).  The theorem says the code is the standard, and a test
    vector evaluates it. *)

From stdpp Require Import base list list_numbers numbers gmap.
From S2P Require Import Prelude.

Local Open Scope Z_scope.
Local Open Scope c_scope.

(** ** The code *)

(** The round constants, a row of the source's table at a time. *)
Definition K_row0 : list Z :=
  [0x428a2f98; 0x71374491; 0xb5c0fbcf; 0xe9b5dba5; 0x3956c25b; 0x59f111f1; 0x923f82a4; 0xab1c5ed5].
Definition K_row1 : list Z :=
  [0xd807aa98; 0x12835b01; 0x243185be; 0x550c7dc3; 0x72be5d74; 0x80deb1fe; 0x9bdc06a7; 0xc19bf174].
Definition K_row2 : list Z :=
  [0xe49b69c1; 0xefbe4786; 0x0fc19dc6; 0x240ca1cc; 0x2de92c6f; 0x4a7484aa; 0x5cb0a9dc; 0x76f988da].
Definition K_row3 : list Z :=
  [0x983e5152; 0xa831c66d; 0xb00327c8; 0xbf597fc7; 0xc6e00bf3; 0xd5a79147; 0x06ca6351; 0x14292967].
Definition K_row4 : list Z :=
  [0x27b70a85; 0x2e1b2138; 0x4d2c6dfc; 0x53380d13; 0x650a7354; 0x766a0abb; 0x81c2c92e; 0x92722c85].
Definition K_row5 : list Z :=
  [0xa2bfe8a1; 0xa81a664b; 0xc24b8b70; 0xc76c51a3; 0xd192e819; 0xd6990624; 0xf40e3585; 0x106aa070].
Definition K_row6 : list Z :=
  [0x19a4c116; 0x1e376c08; 0x2748774c; 0x34b0bcb5; 0x391c0cb3; 0x4ed8aa4a; 0x5b9cca4f; 0x682e6ff3].
Definition K_row7 : list Z :=
  [0x748f82ee; 0x78a5636f; 0x84c87814; 0x8cc70208; 0x90befffa; 0xa4506ceb; 0xbef9a3f7; 0xc67178f2].

Definition K : list Z :=
  K_row0 ++ K_row1 ++ K_row2 ++ K_row3 ++ K_row4 ++ K_row5 ++ K_row6 ++ K_row7.

Definition ROR (x n : Z) : Z := (x >> n) |' (x <<u32 (32 - n)).

(** The eight working variables [a .. hh]. *)
Record regs := Regs { ra : Z; rb : Z; rc_ : Z; rdd : Z; re : Z; rf : Z; rg : Z; rh : Z }.

(** [w[i]] of the first sixteen words, at [p + 4 * i]. *)
Definition load_be32 (p : list Z) (i : Z) : Z :=
  (rd p (4 * i) <<u32 24) |' (rd p (4 * i + 1) <<u32 16) |' (rd p (4 * i + 2) <<u32 8)
  |' rd p (4 * i + 3).

Definition sched_load (p : list Z) : list Z :=
  foldl (fun w i => wr w i (load_be32 p i)) (replicate 64 0) (range 0 16).

Definition sched_step (w : list Z) (i : Z) : list Z :=
  let s0 := ROR (rd w (i - 15)) 7 ^' ROR (rd w (i - 15)) 18 ^' (rd w (i - 15) >> 3) in
  let s1 := ROR (rd w (i - 2)) 17 ^' ROR (rd w (i - 2)) 19 ^' (rd w (i - 2) >> 10) in
  wr w i (rd w (i - 16) +u32 s0 +u32 rd w (i - 7) +u32 s1).

Definition round (w : list Z) (r : regs) (i : Z) : regs :=
  let '(Regs a b c d e f g hh) := r in
  let t1 := hh +u32 (ROR e 6 ^' ROR e 11 ^' ROR e 25) +u32 ((e & f) ^' (u32 (Z.lnot e) & g))
            +u32 rd K i +u32 rd w i in
  let t2 := (ROR a 2 ^' ROR a 13 ^' ROR a 22) +u32 ((a & b) ^' (a & c) ^' (b & c)) in
  Regs (t1 +u32 t2) a b c (d +u32 t1) e f g.

Definition block (h : list Z) (p : list Z) : list Z :=
  let w := foldl sched_step (sched_load p) (range 16 64) in
  let r0 := Regs (rd h 0) (rd h 1) (rd h 2) (rd h 3) (rd h 4) (rd h 5) (rd h 6) (rd h 7) in
  let '(Regs a b c d e f g hh) := foldl (round w) r0 (range 0 64) in
  [rd h 0 +u32 a; rd h 1 +u32 b; rd h 2 +u32 c; rd h 3 +u32 d;
   rd h 4 +u32 e; rd h 5 +u32 f; rd h 6 +u32 g; rd h 7 +u32 hh].

Definition sha_init : list Z :=
  [0x6a09e667; 0xbb67ae85; 0x3c6ef372; 0xa54ff53a; 0x510e527f; 0x9b05688c; 0x1f83d9ab; 0x5be0cd19].

(** [for (; i + 64 <= len; i += 64) block(h, data + i);] *)
Fixpoint sha_blocks (fuel : nat) (h : list Z) (data : list Z) (i len : Z) : option (list Z * Z) :=
  match fuel with
  | O => None
  | S fuel =>
    if i +u64 64 <=? len then sha_blocks fuel (block h (drop (Z.to_nat i) data)) data (i +u64 64) len
    else Some (h, i)
  end.

(** The last one or two blocks: [tail] with its terminator and the length. *)
Definition sha_tail (data : list Z) (i len : Z) : list Z * Z :=
  let rem := len -u64 i in
  let tail := wr (blit (replicate 128 0) 0 (slice data i rem)) rem 0x80 in
  let tl := if rem <? 56 then 64 else 128 in
  let bits := u64 (len * 8) in
  (foldl (fun t k => wr t (tl - 1 - k) (u8 (bits >> (8 * k)))) tail (range 0 8), tl).

Definition store_be32 (out : list Z) (k v : Z) : list Z :=
  wr (wr (wr (wr out (4 * k) (u8 (v >> 24))) (4 * k + 1) (u8 (v >> 16)))
        (4 * k + 2) (u8 (v >> 8))) (4 * k + 3) (u8 v).

Definition nb_sha256 (fuel : nat) (data : list Z) (len : Z) : option (list Z) :=
  '(h, i) ← sha_blocks fuel sha_init data 0 len;
  let '(tail, tl) := sha_tail data i len in
  let h := block h tail in
  let h := if tl =? 128 then block h (drop 64 tail) else h in
  Some (foldl (fun out k => store_be32 out k (rd h k)) (replicate 32 0) (range 0 8)).

(** ** The standard (FIPS 180-4, sections 4 to 6) *)
Module Fips.

Definition Ch (x y z : Z) : Z := Z.lxor (Z.land x y) (Z.land (u32 (Z.lnot x)) z).
Definition Maj (x y z : Z) : Z := Z.lxor (Z.lxor (Z.land x y) (Z.land x z)) (Z.land y z).
Definition rotr (n x : Z) : Z := Z.lor (Z.shiftr x n) (u32 (Z.shiftl x (32 - n))).
Definition Sigma0 (x : Z) : Z := Z.lxor (Z.lxor (rotr 2 x) (rotr 13 x)) (rotr 22 x).
Definition Sigma1 (x : Z) : Z := Z.lxor (Z.lxor (rotr 6 x) (rotr 11 x)) (rotr 25 x).
Definition sigma0 (x : Z) : Z := Z.lxor (Z.lxor (rotr 7 x) (rotr 18 x)) (Z.shiftr x 3).
Definition sigma1 (x : Z) : Z := Z.lxor (Z.lxor (rotr 17 x) (rotr 19 x)) (Z.shiftr x 10).

Definition be_word (b : list Z) : Z := foldl (fun acc x => acc * 2 ^ 8 + x) 0 b.
Definition be_bytes (n : nat) (v : Z) : list Z :=
  (fun k => v / 2 ^ (8 * Z.of_nat k) mod 2 ^ 8) <$> rev (seq 0 n).

(** Message schedule: the first sixteen words are the block's, the others
    follow from the recurrence. *)
Fixpoint schedule (M : list Z) (t : nat) : list Z :=
  match t with
  | O => (fun i => be_word (slice M (4 * Z.of_nat i) 4)) <$> seq 0 16
  | S t =>
    let W := schedule M t in
    let n := Z.of_nat t + 16 in
    W ++ [(sigma1 (rd W (n - 2)) + rd W (n - 7) + sigma0 (rd W (n - 15)) + rd W (n - 16)) mod 2 ^ 32]
  end.

Definition step (W : list Z) (v : regs) (t : Z) : regs :=
  let '(Regs a b c d e f g h) := v in
  let T1 := (h + Sigma1 e + Ch e f g + rd K t + rd W t) mod 2 ^ 32 in
  let T2 := (Sigma0 a + Maj a b c) mod 2 ^ 32 in
  Regs ((T1 + T2) mod 2 ^ 32) a b c ((d + T1) mod 2 ^ 32) e f g.

Definition compress (H M : list Z) : list Z :=
  let v := foldl (step (schedule M 48))
             (Regs (rd H 0) (rd H 1) (rd H 2) (rd H 3) (rd H 4) (rd H 5) (rd H 6) (rd H 7))
             (seqZ 0 64) in
  zip_with (fun x y => (x + y) mod 2 ^ 32) (rd H <$> seqZ 0 8)
    [ra v; rb v; rc_ v; rdd v; re v; rf v; rg v; rh v].

(** Padding: a one bit, the least number of zeros that leaves 64 bits, and
    the length in bits. *)
Definition pad (msg : list Z) : list Z :=
  msg ++ [0x80] ++ replicate (Z.to_nat ((55 - len msg) mod 64)) 0 ++ be_bytes 8 (8 * len msg).

Fixpoint hash_blocks (n : nat) (H msg : list Z) : list Z :=
  match n with
  | O => H
  | S n => hash_blocks n (compress H (take 64 msg)) (drop 64 msg)
  end.

Definition sha256 (msg : list Z) : list Z :=
  concat (be_bytes 4 <$> hash_blocks (length (pad msg) / 64) sha_init (pad msg)).
End Fips.

(** ** One block *)

Lemma u32_add_l a b : u32 (u32 a + b) = u32 (a + b).
Proof. unfold u32. apply Zplus_mod_idemp_l. Qed.
Lemma u32_add_r a b : u32 (a + u32 b) = u32 (a + b).
Proof. unfold u32. apply Zplus_mod_idemp_r. Qed.

(** The wraps inside a sum are absorbed by the one around it. *)
Lemma u32_sum4 a b c d :
  u32 (u32 (u32 (a + b) + c) + d) = u32 (a + b + c + d).
Proof. rewrite u32_add_l, <- !Z.add_assoc, u32_add_l. f_equal. lia. Qed.
Lemma u32_sum5 a b c d e :
  u32 (u32 (u32 (u32 (a + b) + c) + d) + e) = u32 (a + b + c + d + e).
Proof. rewrite u32_sum4, <- !Z.add_assoc, u32_add_l. f_equal. lia. Qed.

Lemma round_step w r t : round w r t = Fips.step w r t.
Proof.
  destruct r as [a b c d e f g h]. unfold round, Fips.step, Fips.Ch, Fips.Maj.
  assert (forall z, z mod 2 ^ 32 = u32 z) as F by done. rewrite !F. by rewrite (u32_sum5 h _ _ (rd K t) (rd w t)).
Qed.

Lemma load_be32_word p i :
  bytes_ok p -> 0 <= i -> 4 * i + 4 <= len p -> load_be32 p i = Fips.be_word (slice p (4 * i) 4).
Proof.
  intros Hp Hi Hl.
  assert (slice p (4 * i) 4 = [rd p (4 * i); rd p (4 * i + 1); rd p (4 * i + 2); rd p (4 * i + 3)]) as ->.
  { assert (length (slice p (4 * i) 4) = 4%nat) as L
      by (unfold slice, len in *; rewrite length_take, length_drop; lia).
    rewrite <- (Z.add_0_r (4 * i)) at 2.
    rewrite <- !(rd_slice p (4 * i) 4) by lia.
    destruct (slice p (4 * i) 4) as [|x0 [|x1 [|x2 [|x3 [|]]]]]; try done. }
  unfold load_be32, Fips.be_word. simpl foldl.
  pose proof (rd_range p (4 * i) Hp). pose proof (rd_range p (4 * i + 1) Hp).
  pose proof (rd_range p (4 * i + 2) Hp). pose proof (rd_range p (4 * i + 3) Hp).
  unfold is_u8 in *.
  rewrite !u32_small by (rewrite Z.shiftl_mul_pow2 by lia; lia).
  set (b0 := rd p (4 * i)) in *. set (b1 := rd p (4 * i + 1)) in *.
  set (b2 := rd p (4 * i + 2)) in *. set (b3 := rd p (4 * i + 3)) in *.
  rewrite (Z.lor_comm (Z.shiftl b0 24)).
  replace (Z.shiftl b0 24) with (Z.shiftl (Z.shiftl b0 8) 16) by (by rewrite Z.shiftl_shiftl by lia).
  rewrite <- Z.shiftl_lor.
  replace (Z.shiftl (Z.lor b1 (Z.shiftl b0 8)) 16)
    with (Z.shiftl (Z.shiftl (Z.lor b1 (Z.shiftl b0 8)) 8) 8) by (by rewrite Z.shiftl_shiftl by lia).
  rewrite (Z.lor_comm (Z.shiftl (Z.shiftl _ 8) 8)).
  rewrite <- Z.shiftl_lor.
  rewrite (Z.lor_comm _ b3).
  rewrite !lor_shift; rewrite ?lor_shift; lia.
Qed.

Lemma wr_snoc (l : list Z) i v :
  0 <= i < len l -> take (Z.to_nat (i + 1)) (wr l i v) = take (Z.to_nat i) l ++ [v].
Proof.
  intros. unfold wr, len in *.
  replace (Z.to_nat (i + 1)) with (S (Z.to_nat i)) by lia.
  erewrite take_S_r; [|rewrite list_lookup_insert_eq by lia; done].
  by rewrite take_insert_ge by lia.
Qed.

Lemma length_schedule M t : length (Fips.schedule M t) = (16 + t)%nat.
Proof.
  induction t as [|t IH]; [done|]. simpl Fips.schedule. rewrite length_app, IH. simpl. lia.
Qed.

Lemma sched_load_spec p n :
  bytes_ok p -> 64 <= len p -> (n <= 16)%nat ->
  let w := foldl (fun w i => wr w i (load_be32 p i)) (replicate 64 0) (seqZ 0 (Z.of_nat n)) in
  length w = 64%nat /\ take n w = (fun i => Fips.be_word (slice p (4 * Z.of_nat i) 4)) <$> seq 0 n.
Proof.
  intros Hp Hl. induction n as [|n IH]; intros Hn; [done|].
  rewrite seqZ_S, foldl_snoc, Z.add_0_l. destruct IH as [L E]; [lia|]. cbv zeta in *.
  set (w := foldl _ _ _) in *. split; [unfold wr; by rewrite length_insert|].
  rewrite seq_S, fmap_app, <- E. simpl.
  rewrite load_be32_word by (done || lia).
  replace (S n) with (Z.to_nat (Z.of_nat n + 1)) by lia.
  rewrite wr_snoc by (unfold len; rewrite L; lia). by rewrite Nat2Z.id.
Qed.

Lemma sched_spec p n :
  bytes_ok p -> 64 <= len p -> (n <= 48)%nat ->
  let w := foldl sched_step (sched_load p) (seqZ 16 (Z.of_nat n)) in
  length w = 64%nat /\ take (16 + n) w = Fips.schedule p n.
Proof.
  intros Hp Hl. induction n as [|n IH]; intros Hn.
  - apply (sched_load_spec p 16); auto.
  - rewrite seqZ_S, foldl_snoc. destruct IH as [L E]; [lia|]. cbv zeta in *.
    set (w := foldl sched_step _ _) in *.
    assert (forall i, 0 <= i < 16 + Z.of_nat n -> rd w i = rd (Fips.schedule p n) i) as R.
    { intros i Hi. rewrite <- E. by rewrite rd_take by lia. }
    unfold sched_step. split; [unfold wr; by rewrite length_insert|].
    replace (16 + S n)%nat with (Z.to_nat (16 + Z.of_nat n + 1)) by lia.
    rewrite wr_snoc by (unfold len; rewrite L; lia).
    replace (Z.to_nat (16 + Z.of_nat n)) with (16 + n)%nat by lia. rewrite E.
    simpl Fips.schedule. do 2 f_equal. rewrite !R by lia. rewrite u32_sum4.
    unfold Fips.sigma0, Fips.sigma1. unfold u32 at 1. f_equal.
    replace (16 + Z.of_nat n) with (Z.of_nat n + 16) by lia. unfold ROR, Fips.rotr. lia.
Qed.

Lemma slice_take (p : list Z) n o k :
  0 <= o -> 0 <= k -> o + k <= n -> slice (take (Z.to_nat n) p) o k = slice p o k.
Proof.
  intros. unfold slice. rewrite skipn_firstn_comm, take_take. f_equal. lia.
Qed.

Lemma schedule_take p n : Fips.schedule (take 64 p) n = Fips.schedule p n.
Proof.
  induction n as [|n IH]; [|simpl Fips.schedule; by rewrite IH].
  unfold Fips.schedule. apply list_fmap_ext. intros k i Hk%lookup_seq. change 64%nat with (Z.to_nat 64).
  rewrite slice_take; [done|lia..].
Qed.

Lemma foldl_ext_in {A B} (f g : A -> B -> A) a l :
  (forall a x, x ∈ l -> f a x = g a x) -> foldl f a l = foldl g a l.
Proof.
  revert a. induction l as [|x l IH]; intros a H; simpl; [done|].
  rewrite H by (constructor). apply IH. intros. apply H. by constructor.
Qed.

Lemma block_compress h p :
  bytes_ok p -> 64 <= len p -> block h p = Fips.compress h (take 64 p).
Proof.
  intros Hp Hl. unfold block, Fips.compress, range.
  pose proof (sched_spec p 48 Hp Hl) as [L E]; [lia|].
  rewrite take_ge in E by (rewrite L; lia).
  change (64 - 16) with (Z.of_nat 48). change (64 - 0) with 64. rewrite E, schedule_take.
  rewrite (foldl_ext_in _ (Fips.step (Fips.schedule p 48))) by (intros; apply round_step).
  set (v := foldl _ _ _). destruct v as [a b c d e f g hh].
  change (seqZ 0 8) with [0; 1; 2; 3; 4; 5; 6; 7]. reflexivity.
Qed.

(** ** The loop over whole blocks *)

Lemma hash_blocks_add n m h l :
  Fips.hash_blocks (n + m) h l = Fips.hash_blocks m (Fips.hash_blocks n h l) (drop (64 * n) l).
Proof.
  revert h l. induction n as [|n IH]; intros h l; [by rewrite drop_0|].
  simpl Fips.hash_blocks. rewrite IH, drop_drop. do 2 f_equal. lia.
Qed.

Lemma hash_blocks_app n h l k :
  (64 * n <= length l)%nat -> Fips.hash_blocks n h (l ++ k) = Fips.hash_blocks n h l.
Proof.
  revert h l. induction n as [|n IH]; intros h l Hl; [done|]. simpl Fips.hash_blocks.
  rewrite take_app_le, drop_app_le by lia. apply IH. rewrite length_drop. lia.
Qed.

Lemma sha_blocks_spec n fuel h data i len_ :
  bytes_ok data -> 0 <= i -> len_ <= len data -> len_ < 2 ^ 63 ->
  64 * Z.of_nat n <= len_ - i < 64 * Z.of_nat n + 64 -> (n < fuel)%nat ->
  sha_blocks fuel h data i len_
  = Some (Fips.hash_blocks n h (drop (Z.to_nat i) data), i + 64 * Z.of_nat n).
Proof.
  intros Hb. revert fuel h i. induction n as [|n IH]; intros [|fuel] h i Hi Hl Hlt Hn Hf;
    try lia; simpl sha_blocks; unwrap.
  - destruct (Z.leb_spec (i + 64) len_); [lia|]. do 2 f_equal. lia.
  - destruct (Z.leb_spec (i + 64) len_); [|lia].
    rewrite IH by lia. simpl Fips.hash_blocks.
    rewrite block_compress, drop_drop; [|by apply Forall_drop|unfold len in *; rewrite length_drop; lia].
    do 2 f_equal; [|lia]. do 2 f_equal. lia.
Qed.

(** ** The tail *)

Lemma blit_mid {A} (pre mid post xs : list A) o :
  o = len pre -> length mid = length xs -> blit (pre ++ mid ++ post) o xs = pre ++ xs ++ post.
Proof.
  intros -> Hm. apply list_eq. intros i. unfold blit, len. rewrite Nat2Z.id.
  destruct (decide (i < length pre)%nat) as [?|?].
  { rewrite list_lookup_inserts_lt, !lookup_app_l by lia. done. }
  rewrite !(lookup_app_r pre) by lia.
  destruct (decide (i < length pre + length xs)%nat).
  - rewrite list_lookup_inserts by (rewrite ?length_app; lia).
    rewrite lookup_app_l by lia. done.
  - rewrite list_lookup_inserts_ge by lia. rewrite !lookup_app_r by lia.
    f_equal. lia.
Qed.

Lemma blit_be_bytes (t : list Z) o v :
  0 <= o -> 0 <= v ->
  foldl (fun t k => wr t (o + 8 - 1 - k) (u8 (v >> (8 * k)))) t (range 0 8)
  = blit t o (Fips.be_bytes 8 v).
Proof.
  intros Ho Hv. change (range 0 8) with [0; 1; 2; 3; 4; 5; 6; 7]. unfold foldl.
  change (Fips.be_bytes 8 v) with
    [v / 2 ^ (8 * 7) mod 2 ^ 8; v / 2 ^ (8 * 6) mod 2 ^ 8; v / 2 ^ (8 * 5) mod 2 ^ 8;
     v / 2 ^ (8 * 4) mod 2 ^ 8; v / 2 ^ (8 * 3) mod 2 ^ 8; v / 2 ^ (8 * 2) mod 2 ^ 8;
     v / 2 ^ (8 * 1) mod 2 ^ 8; v / 2 ^ (8 * 0) mod 2 ^ 8].
  rewrite !blit_cons, blit_nil by lia. unfold u8. rewrite !Z.shiftr_div_pow2 by lia.
  repeat (f_equal; [|lia..]). f_equal. lia.
Qed.

Lemma sha_tail_spec data i len_ :
  bytes_ok data -> 0 <= i -> 0 <= len_ - i < 64 -> len_ <= len data -> len_ < 2 ^ 60 ->
  let '(tail, tl) := sha_tail data i len_ in
  tail
  = (slice data i (len_ - i) ++ [0x80] ++ replicate (Z.to_nat ((55 - (len_ - i)) mod 64)) 0
     ++ Fips.be_bytes 8 (8 * len_)) ++ replicate (Z.to_nat (128 - tl)) 0 /\
  length tail = 128%nat /\ tl = len_ - i + 1 + (55 - (len_ - i)) mod 64 + 8 /\ (tl = 64 \/ tl = 128).
Proof.
  intros Hb Hi Hr Hl Hlt. unfold sha_tail. unwrap. set (rem := len_ - i) in *.
  assert (length (slice data i rem) = Z.to_nat rem) as Ls.
  { unfold slice, len in *. rewrite length_take, length_drop. lia. }
  set (tl := if rem <? 56 then 64 else 128).
  assert (tl = rem + 1 + (55 - rem) mod 64 + 8 /\ (tl = 64 \/ tl = 128)) as [Htl Hv].
  { subst tl. destruct (Z.ltb_spec rem 56).
    - rewrite Z.mod_small by lia. lia.
    - rewrite <- (Z.mod_add (55 - rem) 1), Z.mod_small by lia. lia. }
  set (z := (55 - rem) mod 64) in *. assert (0 <= z < 64) by (apply Z.mod_pos_bound; lia).
  replace (replicate 128 0) with (replicate (Z.to_nat rem) 0 ++ [0] ++ replicate (Z.to_nat z) 0
    ++ replicate 8 0 ++ replicate (Z.to_nat (128 - tl)) 0).
  2:{ change [0] with (replicate 1 0). rewrite <- !replicate_add. f_equal. lia. }
  pose proof (blit_mid [] (replicate (Z.to_nat rem) 0)) as B. simpl in B.
  rewrite B by (done || by rewrite length_replicate). clear B.
  rewrite <- blit_1, (blit_mid (slice data i rem) [0]); [|unfold len; lia|done].
  rewrite (Z.mul_comm len_ 8).
  replace (tl - 1) with (tl - 8 + 8 - 1) by lia.
  rewrite blit_be_bytes by lia.
  rewrite (app_assoc [0x80]), (app_assoc (slice data i rem)).
  rewrite blit_mid; [|unfold len; rewrite !length_app, length_replicate; simpl; lia|done].
  split_and!; [|rewrite !length_app, !length_replicate; simpl; lia|done..].
  by rewrite <- !app_assoc.
Qed.

Lemma sha_out_spec h :
  length h = 8%nat ->
  foldl (fun out k => store_be32 out k (rd h k)) (replicate 32 0) (range 0 8)
  = concat (Fips.be_bytes 4 <$> h).
Proof.
  intros L. destruct h as [|h0 [|h1 [|h2 [|h3 [|h4 [|h5 [|h6 [|h7 [|]]]]]]]]]; try done.
  change (range 0 8) with [0; 1; 2; 3; 4; 5; 6; 7].
  unfold foldl, store_be32, rd, Fips.be_bytes, u8. simpl Z.to_nat. cbn [lookup list_lookup default].
  rewrite !Z.shiftr_div_pow2 by lia. cbn. rewrite ?Zdiv_1_r. reflexivity.
Qed.

Lemma length_hash_blocks n h l : length h = 8%nat -> length (Fips.hash_blocks n h l) = 8%nat.
Proof.
  revert h l. induction n as [|n IH]; intros h l L; [done|]. simpl Fips.hash_blocks.
  apply IH. unfold Fips.compress. by destruct (foldl _ _ _).
Qed.

Lemma bytes_ok_be v n : bytes_ok (Fips.be_bytes n v).
Proof.
  apply Forall_fmap, Forall_forall. intros k _. simpl. apply Z.mod_pos_bound. lia.
Qed.

Lemma nb_sha256_correct fuel data len_ :
  bytes_ok data -> 0 <= len_ <= len data -> len_ < 2 ^ 60 -> len_ / 64 < Z.of_nat fuel ->
  nb_sha256 fuel data len_ = Some (Fips.sha256 (take (Z.to_nat len_) data)).
Proof.
  intros Hb Hl Hlt Hf. pose proof (Z.div_mod len_ 64) as Dm. pose proof (Z.mod_pos_bound len_ 64).
  set (n := Z.to_nat (len_ / 64)). assert (Z.of_nat n = len_ / 64) as En.
  { subst n. rewrite Z2Nat.id; [done|]. apply Z.div_pos; lia. }
  unfold nb_sha256. rewrite (sha_blocks_spec n) by (done || lia). cbn [mbind option_bind].
  change (Z.to_nat 0) with 0%nat. rewrite drop_0, Z.add_0_l. set (h := Fips.hash_blocks n sha_init data).
  pose proof (sha_tail_spec data (64 * Z.of_nat n) len_ Hb) as T.
  destruct (sha_tail data (64 * Z.of_nat n) len_) as [tail tl].
  destruct T as (E & Lt & Etl & Hv); [lia..|].
  set (rem := len_ - 64 * Z.of_nat n) in *. set (msg := take (Z.to_nat len_) data).
  assert (len msg = len_) as Lm by (unfold msg, len in *; rewrite length_take; lia).
  assert (msg = take (64 * n) data ++ slice data (64 * Z.of_nat n) rem) as Em.
  { unfold msg, slice. replace (Z.to_nat (64 * Z.of_nat n)) with (64 * n)%nat by lia.
    rewrite take_take_drop. f_equal. lia. }
  assert ((55 - len_) mod 64 = (55 - rem) mod 64) as Ez.
  { replace (55 - rem) with (55 - len_ + Z.of_nat n * 64) by lia. by rewrite Z.mod_add. }
  assert (length (take (64 * n) data) = (64 * n)%nat) as L1
    by (rewrite length_take; unfold len in *; lia).
  set (last := slice data _ _ ++ _) in E.
  assert (length last = Z.to_nat tl) as Ll.
  { apply (f_equal length) in E. rewrite length_app, length_replicate in E. lia. }
  assert (Fips.pad msg = take (64 * n) data ++ last) as Ep.
  { unfold Fips.pad. rewrite Lm, Ez. rewrite Em at 1. by rewrite <- app_assoc. }
  assert (bytes_ok tail) as Bt.
  { rewrite E. unfold last. repeat (apply Forall_app; split).
    - by apply Forall_take, Forall_drop.
    - apply Forall_singleton. unfold is_u8; lia.
    - apply Forall_replicate. unfold is_u8; lia.
    - apply bytes_ok_be.
    - apply Forall_replicate. unfold is_u8; lia. }
  assert (h = Fips.hash_blocks n sha_init (Fips.pad msg)) as Eh.
  { rewrite Ep, hash_blocks_app by lia. unfold h.
    rewrite <- (take_drop (64 * n) data) at 1. by rewrite hash_blocks_app by lia. }
  unfold Fips.sha256.
  assert (length (Fips.pad msg) / 64 = n + Z.to_nat (tl / 64))%nat as ->.
  { rewrite Ep, length_app, L1, Ll, Nat.mul_comm, Nat.add_comm, Nat.div_add by lia.
    rewrite Nat.add_comm. f_equal. by destruct Hv as [-> | ->]. }
  rewrite hash_blocks_add, <- Eh, Ep, drop_app_length' by lia.
  rewrite sha_out_spec by (destruct (tl =? 128); unfold block; by destruct (foldl _ _ _)).
  do 3 f_equal. assert (len tail = 128) by (unfold len; lia).
  assert (forall m, take (Z.to_nat m) (take (Z.to_nat tl) tail) = take (Z.to_nat m) last).
  { intros m. f_equal. rewrite E, take_app_length' by lia. done. }
  destruct Hv as [-> | ->]; simpl (_ =? _); cbv iota.
  - rewrite block_compress by (done || lia). change (Z.to_nat (64 / 64)) with 1%nat.
    simpl Fips.hash_blocks. f_equal. rewrite E, take_app_le by lia. done.
  - change (Z.to_nat (128 - 128)) with 0%nat in E. simpl replicate in E. rewrite app_nil_r in E.
    change (Z.to_nat (128 / 64)) with 2%nat. rewrite E in *. simpl Fips.hash_blocks.
    rewrite (block_compress h), block_compress; [done|by apply Forall_drop| |done|lia].
    unfold len. rewrite length_drop. lia.
Qed.

(** C26: the digest the supervisor checks an upload with is SHA-256: for
    every buffer and every length below 2^60, [nb_sha256] terminates (one
    unit of fuel per 64-byte block is enough) and writes the FIPS 180-4
    digest of the first [len] bytes: padding in one or two tail blocks,
    schedule built in place, 32-bit sums included. *)
Theorem nb_sha256_is_sha256 fuel data len_ :
  bytes_ok data -> 0 <= len_ <= len data -> len_ < 2 ^ 60 -> len_ / 64 < Z.of_nat fuel ->
  nb_sha256 fuel data len_ = Some (Fips.sha256 (take (Z.to_nat len_) data)).
Proof. apply nb_sha256_correct. Qed.

(** The test vector of the standard's first example, and its digest. *)
Lemma nb_sha256_is_sha256_witness :
  (bytes_ok [97; 98; 99] /\ 0 <= 3 <= len [97; 98; 99] /\ 3 < 2 ^ 60 /\ 3 / 64 < Z.of_nat 1) /\
  Some (Fips.sha256 [97; 98; 99])
  = Some [0xba; 0x78; 0x16; 0xbf; 0x8f; 0x01; 0xcf; 0xea; 0x41; 0x41; 0x40; 0xde; 0x5d; 0xae; 0x22;
          0x23; 0xb0; 0x03; 0x61; 0xa3; 0x96; 0x17; 0x7a; 0x9c; 0xb4; 0x10; 0xff; 0x61; 0xf2; 0x00;
          0x15; 0xad].
Proof.
  assert (bytes_ok [97; 98; 99]) as Hb by (repeat constructor; lia).
  split; [split_and!; done|].
  change [97; 98; 99] with (take (Z.to_nat 3) [97; 98; 99]).
  rewrite <- (nb_sha256_is_sha256 1 [97; 98; 99] 3 Hb) by done. vm_compute. reflexivity.
Defined.
