(* ===== verification/ElfLoad.v ===== *)
(** * ELF placement ([src/src/tool/netboot/supervisor/elfload.c])

    The supervisor validates an uploaded ELF64/AArch64 file, copies its
    PT_LOAD segments into the application's DDR, clears the bss-like
    sections and redirects the placed [_exit] to the supervisor's park
    routine.  The file, the destination and the supervisor itself live in one
    physical memory, so the model keeps one memory and reads the file
    through it, as the C pointers do.

    Addresses are integers; an address past 2^64 is not wrapped (pointer
    arithmetic out of the object is undefined), the 64-bit sums the code
    compares are. *)

From stdpp Require Import base list list_numbers numbers gmap.
From S2P Require Import Prelude.

Local Open Scope Z_scope.
Local Open Scope c_scope.

(** ** Memory *)

Definition mem := Z -> Z.

Definition ldm16 (m : mem) (a : Z) : Z := m a + m (a + 1) * 2 ^ 8.
Definition ldm32 (m : mem) (a : Z) : Z :=
  m a + m (a + 1) * 2 ^ 8 + m (a + 2) * 2 ^ 16 + m (a + 3) * 2 ^ 24.
Definition ldm64 (m : mem) (a : Z) : Z := ldm32 m a + ldm32 m (a + 4) * 2 ^ 32.

Definition in_span (a lo n : Z) : bool := (lo <=? a) && (a <? lo + n).
Definition mcpy (m : mem) (dst src n : Z) : mem :=
  fun a => if in_span a dst n then m (src + (a - dst)) else m a.
Definition mset (m : mem) (dst v n : Z) : mem := fun a => if in_span a dst n then v else m a.
Definition stm32 (m : mem) (dst v : Z) : mem :=
  fun a => if in_span a dst 4 then u8 (v >> (8 * (a - dst))) else m a.

(** [strcmp(p, s) == 0] for a literal [s]: its bytes and the terminator. *)
Fixpoint cstr_is (m : mem) (p : Z) (s : list Z) : bool :=
  match s with
  | [] => m p =? 0
  | c :: s => (m p =? c) && cstr_is m (p + 1) s
  end.

Definition str_heap : list Z := [46; 104; 101; 97; 112].         (* ".heap" *)
Definition str_stack : list Z := [46; 115; 116; 97; 99; 107].    (* ".stack" *)
Definition str_exit : list Z := [95; 101; 120; 105; 116].        (* "_exit" *)

(** What placement changes: the memory, and the ranges it has cleaned from
    the data cache (the application core starts with its caches off). *)
Record es := Es { em : mem; flushed : list (Z * Z) }.

Definition Xil_DCacheFlushRange (a n : Z) (s : es) : es := Es (em s) (flushed s ++ [(a, n)]).
Definition is_flushed (s : es) (a : Z) : Prop :=
  Exists (fun r => in_span a r.1 r.2 = true) (flushed s).

(** [for (i = 0; i < bound; i++)] where the bound is read from memory the
    body may write. *)
Fixpoint up_to {S} (fuel : nat) (bound : S -> Z) (body : Z -> S -> S) (i : Z) (s : S) : option S :=
  match fuel with
  | O => None
  | S fuel => if i <? bound s then up_to fuel bound body (i + 1) (body i s) else Some s
  end.

(** ** ELF structures ([elf.h]), at an address of the memory *)

Definition NB_APP_LIMIT : Z := 0x78000000.

Definition sizeof_Ehdr : Z := 64.
Definition sizeof_Phdr : Z := 56.
Definition sizeof_Shdr : Z := 64.
Definition sizeof_Sym : Z := 24.

Definition e_type (m : mem) (eh : Z) : Z := ldm16 m (eh + 16).
Definition e_machine (m : mem) (eh : Z) : Z := ldm16 m (eh + 18).
Definition e_entry (m : mem) (eh : Z) : Z := ldm64 m (eh + 24).
Definition e_phoff (m : mem) (eh : Z) : Z := ldm64 m (eh + 32).
Definition e_shoff (m : mem) (eh : Z) : Z := ldm64 m (eh + 40).
Definition e_phentsize (m : mem) (eh : Z) : Z := ldm16 m (eh + 54).
Definition e_phnum (m : mem) (eh : Z) : Z := ldm16 m (eh + 56).
Definition e_shentsize (m : mem) (eh : Z) : Z := ldm16 m (eh + 58).
Definition e_shnum (m : mem) (eh : Z) : Z := ldm16 m (eh + 60).
Definition e_shstrndx (m : mem) (eh : Z) : Z := ldm16 m (eh + 62).

Definition p_type (m : mem) (ph : Z) : Z := ldm32 m ph.
Definition p_offset (m : mem) (ph : Z) : Z := ldm64 m (ph + 8).
Definition p_paddr (m : mem) (ph : Z) : Z := ldm64 m (ph + 24).
Definition p_filesz (m : mem) (ph : Z) : Z := ldm64 m (ph + 32).
Definition p_memsz (m : mem) (ph : Z) : Z := ldm64 m (ph + 40).

Definition sh_name (m : mem) (sh : Z) : Z := ldm32 m sh.
Definition sh_type (m : mem) (sh : Z) : Z := ldm32 m (sh + 4).
Definition sh_flags (m : mem) (sh : Z) : Z := ldm64 m (sh + 8).
Definition sh_addr (m : mem) (sh : Z) : Z := ldm64 m (sh + 16).
Definition sh_offset (m : mem) (sh : Z) : Z := ldm64 m (sh + 24).
Definition sh_size (m : mem) (sh : Z) : Z := ldm64 m (sh + 32).
Definition sh_link (m : mem) (sh : Z) : Z := ldm32 m (sh + 40).

Definition st_name (m : mem) (sym : Z) : Z := ldm32 m sym.
Definition st_value (m : mem) (sym : Z) : Z := ldm64 m (sym + 8).

Definition PT_LOAD : Z := 1.
Definition SHT_SYMTAB : Z := 2.
Definition SHT_NOBITS : Z := 8.
Definition SHF_ALLOC : Z := 2.
Definition SHF_TLS : Z := 0x400.
Definition EM_AARCH64 : Z := 183.
Definition ET_EXEC : Z := 2.

(** [&ph[i]], [&sh[i]], [&sym[k]] from the base pointers the code keeps. *)
Definition ph_at (ph i : Z) : Z := ph + i * sizeof_Phdr.
Definition sh_at (sh i : Z) : Z := sh + i * sizeof_Shdr.
Definition sym_at (sym k : Z) : Z := sym + k * sizeof_Sym.

(** ** The operations *)

(** The text left in [msg]. *)
Inductive elf_msg :=
| MShortFile
| MNotElf
| MNotElf64
| MNotAArch64
| MPhdrRange
| MEntryOutside
| MLoadOutside (i lo hi : Z)
| MLoadFile (i : Z)
| MPlaced (placed zeroed entry : Z).

Fixpoint check_loads (m : mem) (ph0 size : Z) (idx : list Z) : option elf_msg :=
  match idx with
  | [] => None
  | i :: idx =>
    let ph := ph_at ph0 i in
    if negb (p_type m ph =? PT_LOAD) || (p_memsz m ph =? 0) then check_loads m ph0 size idx
    else
      let lo := p_paddr m ph in
      let hi := lo +u64 p_memsz m ph in
      if (hi <? lo) || (NB_APP_LIMIT <? hi) then Some (MLoadOutside i lo hi)
      else if (p_memsz m ph <? p_filesz m ph)
              || (size <? p_offset m ph +u64 p_filesz m ph)
              || (p_offset m ph +u64 p_filesz m ph <? p_offset m ph)
           then Some (MLoadFile i)
           else check_loads m ph0 size idx
  end.

(** [None]: the headers are accepted (the C function returns 0). *)
Definition check_headers (m : mem) (img size : Z) : option elf_msg :=
  if size <? sizeof_Ehdr then Some MShortFile
  else if negb ((m img =? 0x7f) && (m (img + 1) =? 69) && (m (img + 2) =? 76) && (m (img + 3) =? 70))
  then Some MNotElf
  else if negb (m (img + 4) =? 2) || negb (m (img + 5) =? 1) then Some MNotElf64
  else if negb (e_machine m img =? EM_AARCH64) || negb (e_type m img =? ET_EXEC) then Some MNotAArch64
  else if negb (e_phentsize m img =? sizeof_Phdr) || (e_phnum m img =? 0)
          || (size <? e_phoff m img +u64 e_phnum m img * sizeof_Phdr)
  then Some MPhdrRange
  else if NB_APP_LIMIT <=? e_entry m img then Some MEntryOutside
  else check_loads m (img + e_phoff m img) size (range 0 (e_phnum m img)).

(** Is section [i] one that [zero_bss] clears?  [str] is the string table's
    section header. *)
Definition bss_section (m : mem) (img size sh0 str i : Z) : bool :=
  let sh := sh_at sh0 i in
  if negb (sh_type m sh =? SHT_NOBITS) || negb (z2b (sh_flags m sh & SHF_ALLOC))
     || z2b (sh_flags m sh & SHF_TLS) || (sh_size m sh =? 0) then false
  else if (sh_name m sh <? sh_size m str) && (sh_offset m str +u64 sh_size m str <=? size)
          && (cstr_is m (img + sh_offset m str + sh_name m sh) str_heap
              || cstr_is m (img + sh_offset m str + sh_name m sh) str_stack)
  then false
  else
    let lo := sh_addr m sh in
    let hi := lo +u64 sh_size m sh in
    negb ((hi <? lo) || (NB_APP_LIMIT <? hi)).

Definition zero_bss_step (img size sh0 str i : Z) (st : es * Z) : es * Z :=
  let '(s, zeroed) := st in
  let m := em s in
  if bss_section m img size sh0 str i then
    let sh := sh_at sh0 i in
    let dst := sh_addr m sh in
    let s := Es (mset m dst 0 (sh_size m sh)) (flushed s) in
    (* the size is read again after the store *)
    (Xil_DCacheFlushRange dst (sh_size (em s) sh) s, zeroed +u64 sh_size (em s) sh)
  else st.

Definition no_sections (m : mem) (img size : Z) : bool :=
  (e_shoff m img =? 0) || negb (e_shentsize m img =? sizeof_Shdr)
  || (e_shnum m img <=? e_shstrndx m img)
  || (size <? e_shoff m img +u64 e_shnum m img * sizeof_Shdr).

Definition zero_bss (fuel : nat) (img size : Z) (s : es) : option (es * Z) :=
  if no_sections (em s) img size then Some (s, 0)
  else
    let sh := img + e_shoff (em s) img in
    let str := sh_at sh (e_shstrndx (em s) img) in
    up_to fuel (fun st => e_shnum (em st.1) img) (zero_bss_step img size sh str) 0 (s, 0).

Definition place_step (img ph0 i : Z) (st : es * Z) : es * Z :=
  let '(s, placed) := st in
  let m := em s in
  let ph := ph_at ph0 i in
  if negb (p_type m ph =? PT_LOAD) || (p_filesz m ph =? 0) then st
  else
    let dst := p_paddr m ph in
    let s := Es (mcpy m dst (img + p_offset m ph) (p_filesz m ph)) (flushed s) in
    (Xil_DCacheFlushRange dst (p_filesz (em s) ph) s, placed +u64 p_filesz (em s) ph).

(** The return code, [*entry] (when it is written) and the message. *)
Record placed := Placed { pl_rc : Z; pl_entry : option Z; pl_msg : elf_msg }.

Definition elf_place (fuel : nat) (img size : Z) (s : es) : option (es * placed) :=
  match check_headers (em s) img size with
  | Some why => Some (s, Placed (-1) None why)
  | None =>
    let ph := img + e_phoff (em s) img in
    '(s, placed) ← up_to fuel (fun st => e_phnum (em st.1) img) (place_step img ph) 0 (s, 0);
    '(s, zeroed) ← zero_bss fuel img size s;
    let entry := e_entry (em s) img in
    Some (s, Placed 0 (Some entry) (MPlaced placed zeroed entry))
  end.

(** [elf_patch_exit].  One symbol: [None] is [continue], [Some (s, rc)] a
    [return rc]. *)
Definition patch_sym (img st sym park_addr k : Z) (s : es) : option (es * Z) :=
  let m := em s in
  let y := sym_at sym k in
  if (sh_size m st <=? st_name m y) || negb (cstr_is m (img + sh_offset m st + st_name m y) str_exit)
  then None
  else
    let a := st_value m y in
    if (NB_APP_LIMIT <? a +u64 16) || z2b (a & 3) then Some (s, 0)
    else if negb (ldm32 m a =? 0x14000000) || z2b (ldm32 m (a + 4)) || z2b (ldm32 m (a + 8))
            || z2b (ldm32 m (a + 12)) then Some (s, 0)
    else
      let m := stm32 m a 0x58000050 in
      let m := stm32 m (a + 4) 0xD61F0200 in
      let m := stm32 m (a + 8) (u32 park_addr) in
      let m := stm32 m (a + 12) (u32 (park_addr >> 32)) in
      Some (Xil_DCacheFlushRange a 16 (Es m (flushed s)), 1).

(** A loop left by [return]. *)
Fixpoint first_return {S R} (body : Z -> S -> option R) (idx : list Z) (s : S) : option R :=
  match idx with
  | [] => None
  | i :: idx => match body i s with Some r => Some r | None => first_return body idx s end
  end.

Definition patch_section (img size sh0 park_addr i : Z) (s : es) : option (es * Z) :=
  let m := em s in
  let sh := sh_at sh0 i in
  if negb (sh_type m sh =? SHT_SYMTAB) || (e_shnum m img <=? sh_link m sh) then None
  else
    let st := sh_at sh0 (sh_link m sh) in
    if (size <? sh_offset m sh +u64 sh_size m sh) || (size <? sh_offset m st +u64 sh_size m st)
    then Some (s, 0)
    else
      let sym := img + sh_offset m sh in
      first_return (patch_sym img st sym park_addr) (range 0 (sh_size m sh / sizeof_Sym)) s.

Definition elf_patch_exit (img size park_addr : Z) (s : es) : es * Z :=
  let m := em s in
  if (e_shoff m img =? 0) || (size <? e_shoff m img +u64 e_shnum m img * sizeof_Shdr) then (s, 0)
  else
    default (s, 0)
      (first_return (patch_section img size (img + e_shoff m img) park_addr)
         (range 0 (e_shnum m img)) s).

(** ** What placement promises *)

Definition mem_ok (m : mem) : Prop := forall a, is_u8 (m a).
(** The memory from [NB_APP_LIMIT] up: the supervisor, its staging area. *)
Definition agree (m m' : mem) : Prop := forall a, NB_APP_LIMIT <= a -> m' a = m a.

(** The file bytes segment [i] brings to address [a]. *)
Definition seg_covers (m : mem) (ph0 a i : Z) : bool :=
  let ph := ph_at ph0 i in
  (p_type m ph =? PT_LOAD) && in_span a (p_paddr m ph) (p_filesz m ph).

(** The last segment below [n] that covers [a]: later copies win. *)
Definition last_seg (m : mem) (ph0 n a : Z) : option Z :=
  last (filter (fun i => seg_covers m ph0 a i = true) (range 0 n)).

Definition loaded_byte (m : mem) (img n a : Z) : Z :=
  let ph0 := img + e_phoff m img in
  match last_seg m ph0 n a with
  | Some i => m (img + p_offset m (ph_at ph0 i) + (a - p_paddr m (ph_at ph0 i)))
  | None => m a
  end.

Definition bss_covers (m : mem) (img size n a : Z) : bool :=
  let sh0 := img + e_shoff m img in
  let str := sh_at sh0 (e_shstrndx m img) in
  existsb (fun i => bss_section m img size sh0 str i
                    && in_span a (sh_addr m (sh_at sh0 i)) (sh_size m (sh_at sh0 i)))
    (range 0 n).

(** The application memory after a placement, byte by byte. *)
Definition image_byte (m : mem) (img size a : Z) : Z :=
  if negb (no_sections m img size) && bss_covers m img size (e_shnum m img) a then 0
  else loaded_byte m img (e_phnum m img) a.

(** No PT_LOAD with file bytes and an empty memory size; [check_headers]
    skips such a segment and [elf_place] copies it. *)
Definition no_hidden_load (m : mem) (img : Z) : Prop :=
  forall i, 0 <= i < e_phnum m img ->
    let ph := ph_at (img + e_phoff m img) i in
    p_type m ph = PT_LOAD -> p_memsz m ph = 0 -> p_filesz m ph = 0.

Definition elf_fuel : nat := Z.to_nat 65537.

(** ** Lemmas *)

Lemma up_to_spec {S} (I : Z -> S -> Prop) n bound body fuel (i : Z) (s : S) :
  (forall i s, I i s -> bound s = n) ->
  (forall i s, I i s -> 0 <= i < n -> I (i + 1) (body i s)) ->
  I i s -> 0 <= i <= n -> n - i < Z.of_nat fuel ->
  exists s', up_to fuel bound body i s = Some s' /\ I n s'.
Proof.
  intros Hb Hs. revert i s. induction fuel as [|fuel IH]; intros i s HI Hi Hf; [lia|].
  simpl up_to. rewrite (Hb i s HI). destruct (Z.ltb_spec i n).
  - apply IH; [|lia..]. apply Hs; [done|lia].
  - exists s. replace n with i by lia. done.
Qed.

Lemma ldm16_range m a : mem_ok m -> is_u16 (ldm16 m a).
Proof.
  intros H. unfold ldm16, is_u16. pose proof (H a). pose proof (H (a + 1)). unfold is_u8 in *. lia.
Qed.
Lemma ldm32_range m a : mem_ok m -> is_u32 (ldm32 m a).
Proof.
  intros H. unfold ldm32, is_u32. pose proof (H a). pose proof (H (a + 1)).
  pose proof (H (a + 2)). pose proof (H (a + 3)). unfold is_u8 in *. lia.
Qed.
Lemma ldm64_range m a : mem_ok m -> is_u64 (ldm64 m a).
Proof.
  intros H. unfold ldm64, is_u64. pose proof (ldm32_range m a H). pose proof (ldm32_range m (a + 4) H).
  unfold is_u32 in *. lia.
Qed.

Lemma ldm16_agree m m' a : agree m m' -> NB_APP_LIMIT <= a -> ldm16 m' a = ldm16 m a.
Proof. intros H Ha. unfold ldm16. by rewrite !H by lia. Qed.
Lemma ldm32_agree m m' a : agree m m' -> NB_APP_LIMIT <= a -> ldm32 m' a = ldm32 m a.
Proof. intros H Ha. unfold ldm32. by rewrite !H by lia. Qed.
Lemma ldm64_agree m m' a : agree m m' -> NB_APP_LIMIT <= a -> ldm64 m' a = ldm64 m a.
Proof. intros H Ha. unfold ldm64. by rewrite !(ldm32_agree m m') by (done || lia). Qed.
Lemma cstr_agree m m' p s : agree m m' -> NB_APP_LIMIT <= p -> cstr_is m' p s = cstr_is m p s.
Proof.
  intros H. revert p. induction s as [|c s IH]; intros p Hp; simpl; rewrite H by lia; [done|].
  by rewrite IH by lia.
Qed.

Lemma agree_refl m : agree m m.
Proof. intros a _. done. Qed.

Lemma in_span_true a lo n : in_span a lo n = true <-> lo <= a < lo + n.
Proof. unfold in_span. rewrite andb_true_iff, Z.leb_le, Z.ltb_lt. done. Qed.

Lemma agree_mcpy m m' d src n :
  agree m m' -> d + n <= NB_APP_LIMIT -> agree m (mcpy m' d src n).
Proof.
  intros H Hd a Ha. unfold mcpy. destruct (in_span a d n) eqn:E; [|by apply H].
  apply in_span_true in E. lia.
Qed.
Lemma agree_mset m m' d v n : agree m m' -> d + n <= NB_APP_LIMIT -> agree m (mset m' d v n).
Proof.
  intros H Hd a Ha. unfold mset. destruct (in_span a d n) eqn:E; [|by apply H].
  apply in_span_true in E. lia.
Qed.

Lemma last_seg_snoc m ph0 n a :
  0 <= n ->
  last_seg m ph0 (n + 1) a = if seg_covers m ph0 a n then Some n else last_seg m ph0 n a.
Proof.
  intros. unfold last_seg. rewrite range_snoc by lia. rewrite filter_app, filter_cons.
  destruct (seg_covers m ph0 a n) eqn:E.
  - rewrite decide_True by done. by rewrite filter_nil, last_snoc.
  - rewrite decide_False by congruence. by rewrite filter_nil, app_nil_r.
Qed.

Lemma bss_covers_snoc m img size n a :
  0 <= n ->
  bss_covers m img size (n + 1) a =
  bss_covers m img size n a ||
  (let sh0 := img + e_shoff m img in
   bss_section m img size sh0 (sh_at sh0 (e_shstrndx m img)) n
   && in_span a (sh_addr m (sh_at sh0 n)) (sh_size m (sh_at sh0 n))).
Proof.
  intros. unfold bss_covers. rewrite range_snoc by lia. rewrite existsb_app. simpl.
  by rewrite orb_false_r.
Qed.

(** What an accepted file says of its segments. *)
Lemma check_loads_ok m ph0 size idx i :
  mem_ok m -> check_loads m ph0 size idx = None -> i ∈ idx ->
  p_type m (ph_at ph0 i) = PT_LOAD -> p_memsz m (ph_at ph0 i) <> 0 ->
  p_paddr m (ph_at ph0 i) + p_memsz m (ph_at ph0 i) <= NB_APP_LIMIT /\
  p_filesz m (ph_at ph0 i) <= p_memsz m (ph_at ph0 i) /\
  p_offset m (ph_at ph0 i) + p_filesz m (ph_at ph0 i) <= size.
Proof.
  intros Hm. induction idx as [|j idx IH]; intros Hc Hi Ht Hz; [by apply elem_of_nil in Hi|].
  simpl in Hc. apply elem_of_cons in Hi as [<-|Hi].
  - rewrite Ht in Hc. replace (p_memsz m (ph_at ph0 i) =? 0) with false in Hc by lia.
    simpl in Hc.
    set (ph := ph_at ph0 i) in *.
    pose proof (ldm64_range m (ph + 8) Hm). pose proof (ldm64_range m (ph + 24) Hm).
    pose proof (ldm64_range m (ph + 32) Hm). pose proof (ldm64_range m (ph + 40) Hm).
    fold (p_offset m ph) (p_paddr m ph) (p_filesz m ph) (p_memsz m ph) in *.
    unfold is_u64, u64 in *.
    destruct (_ || _) eqn:E1 in Hc; [done|]. apply orb_false_iff in E1 as [E1 E2].
    destruct (_ || _) eqn:E3 in Hc; [done|]. apply orb_false_iff in E3 as [[E3 E4]%orb_false_iff E5].
    rewrite !Z.ltb_ge in *. unfold NB_APP_LIMIT in *.
    assert (p_paddr m ph + p_memsz m ph < 2 ^ 64) as L1.
    { destruct (decide (p_paddr m ph + p_memsz m ph < 2 ^ 64)); [done|].
      rewrite <- (Z.mod_add _ (-1)), Z.mod_small in E1 by lia. lia. }
    assert (p_offset m ph + p_filesz m ph < 2 ^ 64) as L2.
    { destruct (decide (p_offset m ph + p_filesz m ph < 2 ^ 64)); [done|].
      rewrite <- (Z.mod_add _ (-1)), Z.mod_small in E5 by lia. lia. }
    rewrite Z.mod_small in E2 by lia. rewrite Z.mod_small in E4 by lia. lia.
  - apply IH; [|done..]. repeat (case_match; try done).
Qed.

Lemma is_flushed_app s a r :
  is_flushed s a \/ in_span a r.1 r.2 = true -> is_flushed (Xil_DCacheFlushRange r.1 r.2 s) a.
Proof.
  unfold is_flushed. simpl. rewrite Exists_app, Exists_cons. destruct r; simpl. tauto.
Qed.

Section agreeing.
Context (m m' : mem) (Ha : agree m m').

Lemma phdr_agree ph :
  NB_APP_LIMIT <= ph ->
  p_type m' ph = p_type m ph /\ p_offset m' ph = p_offset m ph /\
  p_paddr m' ph = p_paddr m ph /\ p_filesz m' ph = p_filesz m ph.
Proof using Ha.
  intros H. unfold p_type, p_offset, p_paddr, p_filesz.
  rewrite (ldm32_agree m m'), !(ldm64_agree m m') by (done || lia). done.
Qed.

Lemma shdr_agree sh :
  NB_APP_LIMIT <= sh ->
  sh_name m' sh = sh_name m sh /\ sh_type m' sh = sh_type m sh /\
  sh_flags m' sh = sh_flags m sh /\ sh_addr m' sh = sh_addr m sh /\
  sh_offset m' sh = sh_offset m sh /\ sh_size m' sh = sh_size m sh.
Proof using Ha.
  intros H. unfold sh_name, sh_type, sh_flags, sh_addr, sh_offset, sh_size.
  rewrite !(ldm32_agree m m'), !(ldm64_agree m m') by (done || lia). done.
Qed.

Lemma bss_section_agree img size sh0 str i :
  mem_ok m -> NB_APP_LIMIT <= img -> NB_APP_LIMIT <= sh0 -> NB_APP_LIMIT <= str -> 0 <= i ->
  bss_section m' img size sh0 str i = bss_section m img size sh0 str i.
Proof using Ha.
  intros Hm Hi H0 H1 Hpos.
  destruct (shdr_agree (sh_at sh0 i)) as (E1 & E2 & E3 & E4 & E5 & E6);
    [unfold sh_at, sizeof_Shdr; lia|].
  destruct (shdr_agree str) as (F1 & F2 & F3 & F4 & F5 & F6); [lia|].
  unfold bss_section. rewrite E1, E2, E3, E4, E6, F5, F6.
  pose proof (ldm64_range m (str + 24) Hm). pose proof (ldm32_range m (sh_at sh0 i) Hm).
  fold (sh_offset m str) (sh_name m (sh_at sh0 i)) in *. unfold is_u64, is_u32 in *.
  rewrite !(cstr_agree m m') by (done || lia). done.
Qed.
End agreeing.

(** ** The copy loop *)

Definition place_inv (m : mem) (img i : Z) (st : es * Z) : Prop :=
  let ph0 := img + e_phoff m img in
  agree m (em st.1) /\ (forall a, em st.1 a = loaded_byte m img i a) /\
  (forall a, last_seg m ph0 i a <> None -> is_flushed st.1 a).

Lemma place_step_inv m img size i st :
  mem_ok m -> NB_APP_LIMIT <= img -> check_headers m img size = None -> no_hidden_load m img ->
  place_inv m img i st -> 0 <= i < e_phnum m img ->
  place_inv m img (i + 1) (place_step img (img + e_phoff m img) i st).
Proof.
  intros Hm Himg Hc Hh (Hag & Hem & Hfl) Hi. destruct st as [s n]. simpl in *.
  unfold place_step, place_inv, loaded_byte in *.
  assert (0 <= e_phoff m img) by (pose proof (ldm64_range m (img + 32) Hm); unfold is_u64 in *; unfold e_phoff; lia).
  set (ph0 := img + e_phoff m img) in *. set (ph := ph_at ph0 i).
  assert (NB_APP_LIMIT <= ph) as Hph by (unfold ph, ph_at, sizeof_Phdr; lia).
  destruct (phdr_agree m (em s) Hag ph Hph) as (E1 & E2 & E3 & E4). rewrite E1, E2, E3, E4.
  destruct (Z.eqb_spec (p_type m ph) PT_LOAD) as [Ht|Ht]; simpl; cycle 1.
  { assert (forall a, seg_covers m ph0 a i = false) as Hn.
    { intros a. unfold seg_covers. fold ph. apply andb_false_iff. left. lia. }
    split_and!; intros; rewrite ?last_seg_snoc, ?Hn by lia; auto.
    apply Hfl. rewrite last_seg_snoc, Hn in * by lia. done. }
  destruct (Z.eqb_spec (p_filesz m ph) 0) as [Hz|Hz]; simpl.
  { assert (forall a, seg_covers m ph0 a i = false) as Hn.
    { intros a. unfold seg_covers. fold ph. apply andb_false_iff. right.
      rewrite Hz. unfold in_span. lia. }
    split_and!; intros; rewrite ?last_seg_snoc, ?Hn by lia; auto.
    apply Hfl. rewrite last_seg_snoc, Hn in * by lia. done. }
  destruct (check_loads_ok m ph0 size (range 0 (e_phnum m img)) i) as (L1 & L2 & L3); auto.
  { unfold check_headers in Hc. repeat (case_match; try done). }
  { apply elem_of_seqZ. lia. }
  { intros H0. apply Hz. by apply (Hh i). }
  fold ph in L1, L2, L3.
  assert (agree m (mcpy (em s) (p_paddr m ph) (img + p_offset m ph) (p_filesz m ph))) as Hag'
    by (apply agree_mcpy; [done|lia]).
  destruct (phdr_agree m _ Hag' ph Hph) as (_ & _ & _ & ->).
  pose proof (ldm64_range m (ph + 8) Hm : is_u64 (p_offset m ph)) as R. unfold is_u64 in R.
  split_and!.
  - done.
  - intros a. rewrite last_seg_snoc by lia. unfold seg_covers. fold ph.
    replace (p_type m ph =? PT_LOAD) with true by lia. simpl. unfold mcpy. destruct (in_span a _ _) eqn:E; [|apply Hem].
    apply in_span_true in E. apply Hag. fold ph. lia.
  - intros a. rewrite last_seg_snoc by lia. unfold seg_covers. fold ph.
    replace (p_type m ph =? PT_LOAD) with true by lia. simpl. intros H1.
    apply (is_flushed_app _ _ (p_paddr m ph, p_filesz m ph)). simpl.
    destruct (in_span a _ _); [by right|left]. by apply Hfl.
Qed.

(** ** The bss loop *)

Definition zero_inv (m m1 : mem) (img size i : Z) (st : es * Z) : Prop :=
  agree m (em st.1) /\
  (forall a, em st.1 a = if bss_covers m img size i a then 0 else m1 a) /\
  (forall a, bss_covers m img size i a = true -> is_flushed st.1 a).

Lemma zero_bss_step_inv m m1 img size i st s0 :
  mem_ok m -> NB_APP_LIMIT <= img -> (forall a, is_flushed s0 a -> is_flushed st.1 a) ->
  zero_inv m m1 img size i st -> 0 <= i < e_shnum m img ->
  let sh0 := img + e_shoff m img in
  let st' := zero_bss_step img size sh0 (sh_at sh0 (e_shstrndx m img)) i st in
  zero_inv m m1 img size (i + 1) st' /\ (forall a, is_flushed s0 a -> is_flushed st'.1 a).
Proof.
  intros Hm Himg Hs0 (Hag & Hem & Hfl) Hi. destruct st as [s n]. cbv zeta. simpl in *.
  unfold zero_bss_step, zero_inv.
  assert (0 <= e_shoff m img) by (pose proof (ldm64_range m (img + 40) Hm); unfold is_u64 in *; unfold e_shoff; lia).
  assert (0 <= e_shstrndx m img) by (pose proof (ldm16_range m (img + 62) Hm); unfold is_u16 in *; unfold e_shstrndx; lia).
  pose proof (bss_covers_snoc m img size i) as Hsn. cbv zeta in Hsn.
  set (sh0 := img + e_shoff m img) in *. set (str := sh_at sh0 (e_shstrndx m img)) in *.
  assert (NB_APP_LIMIT <= str) by (unfold str, sh_at, sizeof_Shdr; lia).
  rewrite (bss_section_agree m (em s) Hag) by (done || lia).
  destruct (bss_section m img size sh0 str i) eqn:Eb; simpl; cycle 1.
  { split; [|done]. split_and!; [done|..]; intros a; rewrite Hsn, orb_false_r by lia; auto. }
  set (sh := sh_at sh0 i) in *.
  assert (NB_APP_LIMIT <= sh) as Hsh by (unfold sh, sh_at, sizeof_Shdr; lia).
  destruct (shdr_agree m (em s) Hag sh Hsh) as (_ & _ & _ & E4 & _ & E6). rewrite E4, E6.
  assert (sh_addr m sh + sh_size m sh <= NB_APP_LIMIT) as Hl.
  { unfold bss_section in Eb. fold sh in Eb. repeat (case_match; try done).
    pose proof (ldm64_range m (sh + 16) Hm). pose proof (ldm64_range m (sh + 32) Hm).
    fold (sh_addr m sh) (sh_size m sh) in *. unfold is_u64, u64, NB_APP_LIMIT in *.
    apply negb_true_iff, orb_false_iff in Eb as [Eb1 Eb2]. rewrite Z.ltb_ge in *.
    destruct (decide (sh_addr m sh + sh_size m sh < 2 ^ 64)).
    - rewrite Z.mod_small in Eb2 by lia. lia.
    - rewrite <- (Z.mod_add _ (-1)), Z.mod_small in Eb1 by lia. lia. }
  assert (agree m (mset (em s) (sh_addr m sh) 0 (sh_size m sh))) as Hag'
    by (apply agree_mset; [done|lia]).
  destruct (shdr_agree m _ Hag' sh Hsh) as (_ & _ & _ & _ & _ & ->).
  split; [split_and!|].
  - done.
  - intros a. rewrite Hsn by lia. simpl. unfold mset.
    destruct (in_span a _ _); [by rewrite orb_true_r|]. rewrite orb_false_r. apply Hem.
  - intros a. rewrite Hsn by lia. simpl. intros Hc%orb_true_iff.
    apply (is_flushed_app _ _ (sh_addr m sh, sh_size m sh)). simpl.
    destruct Hc; [left; by apply Hfl|by right].
  - intros a Hq. apply (is_flushed_app _ _ (sh_addr m sh, sh_size m sh)). left. by apply Hs0.
Qed.

Lemma zero_bss_spec m m1 img size s fuel :
  mem_ok m -> NB_APP_LIMIT <= img -> agree m m1 -> em s = m1 ->
  65536 < Z.of_nat fuel ->
  exists s' n, zero_bss fuel img size s = Some (s', n) /\ agree m (em s') /\
    (forall a, em s' a = if negb (no_sections m img size) && bss_covers m img size (e_shnum m img) a
                         then 0 else m1 a) /\
    (forall a, is_flushed s a \/ (no_sections m img size = false
       /\ bss_covers m img size (e_shnum m img) a = true) -> is_flushed s' a).
Proof.
  intros Hm Himg Hag <- Hf. unfold zero_bss.
  assert (forall m', agree m m' -> e_shoff m' img = e_shoff m img /\ e_shnum m' img = e_shnum m img
    /\ e_shstrndx m' img = e_shstrndx m img /\ e_shentsize m' img = e_shentsize m img) as Hhd.
  { intros m' H. unfold e_shoff, e_shnum, e_shstrndx, e_shentsize.
    rewrite (ldm64_agree m m'), !(ldm16_agree m m') by (done || lia). done. }
  destruct (Hhd _ Hag) as (E1 & E2 & E3 & E4).
  assert (no_sections (em s) img size = no_sections m img size) as ->.
  { unfold no_sections. by rewrite E1, E2, E3, E4. }
  destruct (no_sections m img size) eqn:En; simpl.
  { exists s, 0. split_and!; auto. intros a [H|[]]; done. }
  rewrite E1, E3.
  pose proof (ldm16_range m (img + 60) Hm) as Rn. fold (e_shnum m img) in Rn. unfold is_u16 in Rn.
  set (sh0 := img + e_shoff m img). set (str := sh_at sh0 (e_shstrndx m img)).
  destruct (up_to_spec (fun i st => zero_inv m (em s) img size i st /\ 0 <= i /\
      (forall a, is_flushed s a -> is_flushed st.1 a)) (e_shnum m img)
    (fun st => e_shnum (em st.1) img) (zero_bss_step img size sh0 str) fuel 0 (s, 0))
    as ([s' n] & E & HI & _ & Hfl).
  - intros i st ((H & _) & _). by apply Hhd.
  - intros i st (H & Hi0 & Hfl) Hi.
    destruct (zero_bss_step_inv m (em s) img size i st s) as [H1 H2]; auto.
    split_and!; [done|lia|done].
  - split_and!; [|lia|done]. split_and!; done.
  - lia.
  - lia.
  - destruct HI as (H1 & H2 & H3). exists s', n. split_and!; auto.
    intros a [H|[_ H]]; [by apply Hfl|by apply H3].
Qed.

(** ** Termination on every file, hostile ones included *)

Lemma up_to_total {S} (P : S -> Prop) B bound body fuel (i : Z) (s : S) :
  (forall s, P s -> bound s <= B) -> (forall i s, P s -> P (body i s)) ->
  P s -> i <= B -> B - i < Z.of_nat fuel ->
  exists s', up_to fuel bound body i s = Some s' /\ P s'.
Proof.
  intros Hb Hs. revert i s. induction fuel as [|fuel IH]; intros i s HP Hi Hf; [lia|].
  simpl up_to. destruct (Z.ltb_spec i (bound s)) as [H|H]; [|by eauto].
  pose proof (Hb s HP). destruct (decide (i + 1 <= B)); [|lia].
  apply IH; auto. lia.
Qed.

Lemma mem_ok_mcpy m d src n : mem_ok m -> mem_ok (mcpy m d src n).
Proof. intros H a. unfold mcpy. destruct (in_span _ _ _); apply H. Qed.
Lemma mem_ok_mset m d n : mem_ok m -> mem_ok (mset m d 0 n).
Proof. intros H a. unfold mset. destruct (in_span _ _ _); [unfold is_u8; lia|apply H]. Qed.
Lemma mem_ok_stm32 m a v : mem_ok m -> mem_ok (stm32 m a v).
Proof. intros H x. unfold stm32. destruct (in_span _ _ _); [apply u8_range|apply H]. Qed.

Lemma elf_place_total img size s :
  mem_ok (em s) ->
  exists s' r, elf_place elf_fuel img size s = Some (s', r) /\ mem_ok (em s').
Proof.
  intros Hm. unfold elf_place. destruct (check_headers _ _ _); [by eauto|].
  assert (forall m a, mem_ok m -> ldm16 m a <= 65535) as Hb.
  { intros m a H. pose proof (ldm16_range m a H). unfold is_u16 in *. lia. }
  edestruct (up_to_total (fun st : es * Z => mem_ok (em st.1)) 65535
    (fun st => e_phnum (em st.1) img) (place_step img (img + e_phoff (em s) img)) elf_fuel 0 (s, 0))
    as ([s1 n] & -> & H1); [intros; by apply Hb| |done|lia|unfold elf_fuel; lia|].
  { intros i [s0 n0] H. unfold place_step. destruct (_ || _); [done|]. simpl. by apply mem_ok_mcpy. }
  cbn [mbind option_bind]. unfold zero_bss. destruct (no_sections _ _ _).
  { cbn [mbind option_bind]. eauto. }
  edestruct (up_to_total (fun st : es * Z => mem_ok (em st.1)) 65535
    (fun st => e_shnum (em st.1) img)
    (zero_bss_step img size (img + e_shoff (em s1) img)
       (sh_at (img + e_shoff (em s1) img) (e_shstrndx (em s1) img))) elf_fuel 0 (s1, 0))
    as ([s2 z] & -> & H2); [intros; by apply Hb| |done|lia|unfold elf_fuel; lia|].
  { intros i [s0 n0] H. unfold zero_bss_step. destruct (bss_section _ _ _ _ _ _); [|done].
    simpl. by apply mem_ok_mset. }
  cbn [mbind option_bind]. eauto.
Qed.

(** ** Properties *)


(** A file in memory at [base]. *)
Definition mem_of (base : Z) (bytes : list Z) : mem :=
  fun a => if in_span a base (len bytes) then rd bytes (a - base) else 0.

Definition NB_STAGING_BASE : Z := 0x7A200000.

Definition le16 (v : Z) : list Z := [v mod 256; v / 256 mod 256].
Definition le32 (v : Z) : list Z := le16 (v mod 65536) ++ le16 (v / 65536).
Definition le64 (v : Z) : list Z := le32 (v mod 2 ^ 32) ++ le32 (v / 2 ^ 32).

(** An ELF64/AArch64 executable with one PT_LOAD and no sections. *)
Definition tiny_elf (paddr filesz memsz : Z) (content : list Z) : list Z :=
  [0x7f; 69; 76; 70; 2; 1; 1; 0; 0; 0; 0; 0; 0; 0; 0; 0]
  ++ le16 2 ++ le16 183 ++ le32 1 ++ le64 0x1000 ++ le64 64 ++ le64 0 ++ le32 0
  ++ le16 64 ++ le16 56 ++ le16 1 ++ le16 64 ++ le16 0 ++ le16 0
  ++ le32 1 ++ le32 5 ++ le64 120 ++ le64 paddr ++ le64 paddr ++ le64 filesz ++ le64 memsz ++ le64 8
  ++ content.

Lemma mem_of_ok base bytes : forallb (fun b => (0 <=? b) && (b <? 256)) bytes = true -> mem_ok (mem_of base bytes).
Proof.
  intros H a. unfold mem_of. destruct (in_span _ _ _); [|unfold is_u8; lia].
  apply rd_range. apply Forall_forall. intros x Hx%list_elem_of_In.
  rewrite forallb_forall in H. apply H in Hx. unfold is_u8. lia.
Qed.


(** ** The exit patch *)

(** Symbol [k] of section [i] is named [_exit]. *)
Definition is_exit_sym (m : mem) (img i k : Z) : Prop :=
  let sh0 := img + e_shoff m img in
  let sh := sh_at sh0 i in
  let st := sh_at sh0 (sh_link m sh) in
  let y := sym_at (img + sh_offset m sh) k in
  0 <= i < e_shnum m img /\ sh_type m sh = SHT_SYMTAB /\ sh_link m sh < e_shnum m img /\
  0 <= k < sh_size m sh / sizeof_Sym /\ st_name m y < sh_size m st /\
  cstr_is m (img + sh_offset m st + st_name m y) str_exit = true.

Definition exit_target (m : mem) (img i k : Z) : Z :=
  st_value m (sym_at (img + sh_offset m (sh_at (img + e_shoff m img) i)) k).

(** The BSP's [b .] and twelve bytes of padding, inside the application. *)
Definition patchable (m : mem) (a : Z) : Prop :=
  a +u64 16 <= NB_APP_LIMIT /\ Z.land a 3 = 0 /\
  ldm32 m a = 0x14000000 /\ ldm32 m (a + 4) = 0 /\ ldm32 m (a + 8) = 0 /\ ldm32 m (a + 12) = 0.

(** [ldr x16, #8; br x16; .quad park_addr] at [a], nothing else changed. *)
Definition patched (m m' : mem) (a park_addr : Z) : Prop :=
  ldm32 m' a = 0x58000050 /\ ldm32 m' (a + 4) = 0xD61F0200 /\ ldm64 m' (a + 8) = park_addr /\
  (forall x, in_span x a 16 = false -> m' x = m x).

(** Every symbol table and its string table lie in the file. *)
Definition symtabs_in_file (m : mem) (img size : Z) : Prop :=
  forall i, 0 <= i < e_shnum m img ->
    let sh0 := img + e_shoff m img in
    let sh := sh_at sh0 i in
    let st := sh_at sh0 (sh_link m sh) in
    sh_type m sh = SHT_SYMTAB -> sh_link m sh < e_shnum m img ->
    sh_offset m sh +u64 sh_size m sh <= size /\ sh_offset m st +u64 sh_size m st <= size.

Lemma ldm32_stm32 m a v : is_u32 v -> ldm32 (stm32 m a v) a = v.
Proof.
  intros H. unfold is_u32 in H. unfold ldm32, stm32.
  repeat match goal with
  | |- context [in_span ?x ?y 4] => replace (in_span x y 4) with true by (symmetry; apply in_span_true; lia)
  end.
  replace (8 * (a - a)) with 0 by lia. replace (8 * (a + 1 - a)) with 8 by lia.
  replace (8 * (a + 2 - a)) with 16 by lia. replace (8 * (a + 3 - a)) with 24 by lia.
  unfold u8. rewrite !Z.shiftr_div_pow2 by lia. rewrite Z.pow_0_r, Z.div_1_r.
  change (2 ^ 24) with (2 ^ 8 * 2 ^ 8 * 2 ^ 8). change (2 ^ 16) with (2 ^ 8 * 2 ^ 8).
  rewrite <- !Z.div_div by lia. Z.to_euclidean_division_equations. lia.
Qed.

Lemma stm32_other m a v x : in_span x a 4 = false -> stm32 m a v x = m x.
Proof. intros H. unfold stm32. by rewrite H. Qed.

Lemma ldm32_other m m' a :
  (forall x, in_span x a 4 = true -> m' x = m x) -> ldm32 m' a = ldm32 m a.
Proof. intros H. unfold ldm32. by rewrite !H by (apply in_span_true; lia). Qed.

Ltac spans := repeat match goal with
  | H : in_span _ _ _ = true |- _ => apply in_span_true in H
  | H : in_span _ _ _ = false |- _ => apply not_true_iff_false in H; rewrite in_span_true in H
  | |- in_span _ _ _ = true => apply in_span_true
  | |- in_span _ _ _ = false => apply not_true_iff_false; rewrite in_span_true
  end; lia.

Lemma patched_store m a park_addr :
  is_u64 park_addr ->
  patched m (stm32 (stm32 (stm32 (stm32 m a 0x58000050) (a + 4) 0xD61F0200) (a + 8) (u32 park_addr))
              (a + 12) (u32 (park_addr >> 32))) a park_addr.
Proof.
  intros Hp. unfold is_u64 in Hp. set (m1 := stm32 m _ _). set (m2 := stm32 m1 _ _).
  set (m3 := stm32 m2 _ _). set (m4 := stm32 m3 _ _). unfold patched. split_and!.
  - rewrite (ldm32_other m1); [by apply ldm32_stm32|].
    intros x Hx. unfold m4, m3, m2. rewrite !stm32_other by spans. done.
  - rewrite (ldm32_other m2); [by apply ldm32_stm32|].
    intros x Hx. unfold m4, m3. rewrite !stm32_other by spans. done.
  - unfold ldm64. replace (a + 8 + 4) with (a + 12) by lia.
    unfold m4 at 2. rewrite ldm32_stm32 by apply u32_range.
    rewrite (ldm32_other m3); [unfold m3; rewrite ldm32_stm32 by apply u32_range|].
    + unfold u32. rewrite Z.shiftr_div_pow2 by lia. Z.to_euclidean_division_equations. lia.
    + intros x Hx. unfold m4. rewrite !stm32_other by spans. done.
  - intros x Hx. unfold m4, m3, m2, m1. rewrite !stm32_other by spans. done.
Qed.

Lemma first_return_spec {S R} (body : Z -> S -> option R) idx s :
  match first_return body idx s with
  | Some r => exists i, i ∈ idx /\ body i s = Some r
  | None => forall i, i ∈ idx -> body i s = None
  end.
Proof.
  induction idx as [|i idx IH]; simpl; [intros i Hi; by apply elem_of_nil in Hi|].
  destruct (body i s) eqn:E; [exists i; split; [by constructor|done]|].
  destruct (first_return body idx s).
  - destruct IH as (j & ? & ?). exists j. split; [by constructor|done].
  - intros j [->|Hj]%elem_of_cons; auto.
Qed.

Lemma patch_sym_spec img st sym park_addr k s :
  is_u64 park_addr ->
  let m := em s in
  let y := sym_at sym k in
  let named := st_name m y < sh_size m st /\
               cstr_is m (img + sh_offset m st + st_name m y) str_exit = true in
  match patch_sym img st sym park_addr k s with
  | None => ~ named
  | Some (s', rc) => named /\
      ((rc = 0 /\ s' = s /\ ~ patchable m (st_value m y)) \/
       (rc = 1 /\ patchable m (st_value m y) /\ patched m (em s') (st_value m y) park_addr /\
        flushed s' = flushed s ++ [(st_value m y, 16)]))
  end.
Proof.
  intros Hp. cbv zeta. unfold patch_sym. set (y := sym_at sym k). set (a := st_value _ y).
  destruct (Z.leb_spec (sh_size (em s) st) (st_name (em s) y)) as [H1|H1]; cbn [orb negb]; [lia|].
  destruct (cstr_is (em s) (img + sh_offset (em s) st + st_name (em s) y) str_exit) eqn:E1; cbn [orb negb]; [|by intros [_ ?]].
  destruct (_ || _) eqn:E2.
  { split; [done|]. left. split_and!; [done..|]. intros (P1 & P2 & _).
    apply orb_true_iff in E2 as [E2|E2]; [lia|]. unfold z2b in E2. rewrite P2 in E2. done. }
  apply orb_false_iff in E2 as [E2 E3].
  destruct (_ || _ || _ || _) eqn:E4.
  { split; [done|]. left. split_and!; [done..|]. intros (P1 & P2 & P3 & P4 & P5 & P6).
    rewrite P3, P4, P5, P6 in E4. done. }
  repeat (apply orb_false_iff in E4 as [E4 ?]). unfold z2b in *.
  rewrite negb_false_iff in *. split; [done|]. right. split_and!; [done| |by apply patched_store|done].
  split_and!; lia.
Qed.

(** the exit patch.  [elf_patch_exit] answers 1 only after replacing
    exactly the sixteen bytes of a symbol [_exit] that were [b .] and padding
    by the jump to the park routine (and cleaning them from the cache); it
    answers 0 only with memory untouched, and then, if the file's tables are
    in range and an [_exit] exists, because one is not the expected stub. *)
Theorem elf_patch_exit_sound img size park_addr s :
  is_u64 park_addr ->
  let m := em s in
  let '(s', rc) := elf_patch_exit img size park_addr s in
  (rc = 1 /\ exists i k, is_exit_sym m img i k /\ patchable m (exit_target m img i k) /\
     patched m (em s') (exit_target m img i k) park_addr /\
     flushed s' = flushed s ++ [(exit_target m img i k, 16)]) \/
  (rc = 0 /\ s' = s /\
   (e_shoff m img <> 0 -> e_shoff m img +u64 e_shnum m img * sizeof_Shdr <= size ->
    symtabs_in_file m img size -> (exists i k, is_exit_sym m img i k) ->
    exists i k, is_exit_sym m img i k /\ ~ patchable m (exit_target m img i k))).
Proof.
  intros Hp m. unfold elf_patch_exit. fold m.
  destruct (_ || _) eqn:E0.
  { right. split_and!; [done..|]. intros. apply orb_true_iff in E0. lia. }
  clear E0. set (sh0 := img + e_shoff m img).
  pose proof (first_return_spec (patch_section img size sh0 park_addr) (range 0 (e_shnum m img)) s) as F.
  destruct (first_return _ _ s) as [[s' rc]|]; simpl.
  - destruct F as (i & Hi & F). apply elem_of_seqZ in Hi. unfold patch_section in F. fold m in F.
    destruct (_ || _) eqn:E1 in F; [done|]. apply orb_false_iff in E1 as [E1 E2].
    rewrite negb_false_iff, Z.eqb_eq in E1. rewrite Z.leb_gt in E2.
    destruct (_ || _) eqn:E3 in F.
    { injection F as <- <-. right. split_and!; [done..|]. intros _ _ Ht _.
      destruct (Ht i) as [T1 T2]; [lia|done..|]. fold sh0 in T1, T2.
      apply orb_true_iff in E3. lia. }
    clear E3. pose proof (first_return_spec (patch_sym img (sh_at sh0 (sh_link m (sh_at sh0 i)))
      (img + sh_offset m (sh_at sh0 i)) park_addr) (range 0 (sh_size m (sh_at sh0 i) / sizeof_Sym)) s) as G.
    rewrite F in G. destruct G as (k & Hk & G). apply elem_of_seqZ in Hk.
    pose proof (patch_sym_spec img (sh_at sh0 (sh_link m (sh_at sh0 i)))
      (img + sh_offset m (sh_at sh0 i)) park_addr k s Hp) as P.
    rewrite G in P. destruct P as [[N1 N2] P].
    cbv zeta in N1, N2. fold m in N1, N2.
    assert (is_exit_sym m img i k) as Hs.
    { unfold is_exit_sym. fold sh0. split_and!; (done || lia). }
    destruct P as [(-> & -> & P)|(-> & P1 & P2 & P3)].
    + right. split_and!; [done..|]. intros. by exists i, k.
    + left. split; [done|]. by exists i, k.
  - right. split_and!; [done..|]. intros _ _ Ht (i & k & Hs).
    destruct Hs as (H1 & H2 & H3 & H4 & H5 & H6).
    pose proof (F i ltac:(apply elem_of_seqZ; lia)) as G. unfold patch_section in G. fold m sh0 in G.
    fold sh0 in H2, H3, H4, H5, H6. rewrite H2 in G. simpl in G.
    destruct (Z.leb_spec (e_shnum m img) (sh_link m (sh_at sh0 i))); [lia|].
    destruct (Ht i) as [T1 T2]; [done..|]. fold sh0 in T1, T2.
    destruct (_ || _) eqn:E in G; [done|]. clear E.
    pose proof (first_return_spec (patch_sym img (sh_at sh0 (sh_link m (sh_at sh0 i)))
      (img + sh_offset m (sh_at sh0 i)) park_addr) (range 0 (sh_size m (sh_at sh0 i) / sizeof_Sym)) s) as Q.
    rewrite G in Q. specialize (Q k ltac:(apply elem_of_seqZ; lia)).
    pose proof (patch_sym_spec img (sh_at sh0 (sh_link m (sh_at sh0 i)))
      (img + sh_offset m (sh_at sh0 i)) park_addr k s Hp) as P.
    rewrite Q in P. exfalso. apply P. done.
Qed.

(** A file with one symbol table that names [_exit] at [0x2000], placed
    there as the BSP's [b .]. *)
Definition exit_elf : list Z :=
  [0x7f; 69; 76; 70; 2; 1; 1; 0; 0; 0; 0; 0; 0; 0; 0; 0]
  ++ le16 2 ++ le16 183 ++ le32 1 ++ le64 0x1000 ++ le64 0 ++ le64 64 ++ le32 0
  ++ le16 64 ++ le16 56 ++ le16 0 ++ le16 64 ++ le16 2 ++ le16 0
  ++ le32 0 ++ le32 2 ++ le64 0 ++ le64 0 ++ le64 192 ++ le64 24 ++ le32 1 ++ le32 0 ++ le64 8 ++ le64 24
  ++ le32 0 ++ le32 3 ++ le64 0 ++ le64 0 ++ le64 216 ++ le64 7 ++ le32 0 ++ le32 0 ++ le64 1 ++ le64 0
  ++ le32 1 ++ le32 0 ++ le64 0x2000 ++ le64 0
  ++ [0; 95; 101; 120; 105; 116; 0].

Lemma elf_patch_exit_sound_witness :
  let s := Es (stm32 (mem_of NB_STAGING_BASE exit_elf) 0x2000 0x14000000) [] in
  let r := elf_patch_exit NB_STAGING_BASE 223 0x78001000 s in
  is_u64 0x78001000 /\ r.2 = 1 /\
  exists i k, is_exit_sym (em s) NB_STAGING_BASE i k /\
              patched (em s) (em r.1) (exit_target (em s) NB_STAGING_BASE i k) 0x78001000.
Proof.
  set (s := Es _ _). cbv zeta.
  assert (is_u64 0x78001000) as Hp by (unfold is_u64; lia).
  pose proof (elf_patch_exit_sound NB_STAGING_BASE 223 0x78001000 s Hp) as H. cbv zeta in H.
  assert ((elf_patch_exit NB_STAGING_BASE 223 0x78001000 s).2 = 1) as E by (vm_compute; reflexivity).
  destruct (elf_patch_exit _ _ _ s) as [s' rc]. simpl in E. subst rc.
  split_and!; [done..|].
  destruct H as [(_ & i & k & H1 & _ & H2 & _)|[? _]]; [|done]. by exists i, k.
Defined.

(** the two header checks disagree.  [check_headers] skips a PT_LOAD
    with [p_memsz == 0], [elf_place] copies every PT_LOAD with
    [p_filesz != 0]: this 124-byte upload is accepted and overwrites the
    supervisor's buffer-descriptor ring at [0x7A000000], above
    [NB_APP_LIMIT]. *)
Theorem elf_place_hidden_load :
  let s := Es (mem_of NB_STAGING_BASE (tiny_elf 0x7A000000 4 0 [0xde; 0xad; 0xbe; 0xef])) [] in
  NB_APP_LIMIT <= 0x7A000000 /\ em s 0x7A000000 = 0 /\
  exists s' r, elf_place elf_fuel NB_STAGING_BASE 124 s = Some (s', r) /\
    pl_rc r = 0 /\ em s' 0x7A000000 = 0xde /\ em s' 0x7A000003 = 0xef.
Proof.
  set (s := Es _ _). cbv zeta. split; [by vm_compute|]. split; [by vm_compute|].
  assert (match elf_place elf_fuel NB_STAGING_BASE 124 s with
          | Some (s', r) => (pl_rc r =? 0) && (em s' 0x7A000000 =? 0xde) && (em s' 0x7A000003 =? 0xef)
          | None => false
          end = true) as H by (vm_compute; reflexivity).
  destruct (elf_place _ _ _ _) as [[s' r]|]; [|done]. exists s', r. split; [done|].
  repeat (apply andb_true_iff in H as [H ?]). lia.
Qed.
