(* ===== verification/Apu.v ===== *)
(** * The application core ([src/src/tool/netboot/supervisor/apu.c])

    The supervisor drives the second core through the platform manager (PLM)
    and, once an application has returned, through a mailbox shared with the
    park routine ([park.S]).  The PLM is not part of the repository: its
    answers are a parameter [plm] that may depend on every call made so far.
    The calls are kept in a log. *)

From stdpp Require Import base list list_numbers numbers gmap.
From S2P Require Import Prelude.

Local Open Scope Z_scope.

Definition XST_SUCCESS : Z := 0.

Inductive reset_line := RST_WARM | RST_COLD.
Inductive reset_action := ASSERT | RELEASE.
Inductive plm_call :=
| XIpiPsu_LookupConfig
| XIpiPsu_CfgInitialize
| XPm_InitXilpm
| XPm_RequestNode
| XPm_ForcePowerDown
| XPm_ResetAssert (l : reset_line) (a : reset_action)
| XPm_RequestWakeUp (entry : Z).

Inductive stop_how := STOP_NONE | STOP_POWER | STOP_RST_WARM | STOP_RST_COLD.

#[export] Instance stop_how_eq_dec : EqDecision stop_how.
Proof. solve_decision. Defined.

(** [struct nb_mbox]; [state] and [rc] are written by the parked core. *)
Record nb_mbox := Mbox { mb_state : Z; mb_rc : Z; mb_seq : Z; mb_entry : Z }.

(** The file's static variables, and the calls made to the PLM. *)
Record apu := Apu {
  s_ready : bool;
  s_powered : bool;
  s_stop : stop_how;
  s_can_stop : Z;
  mbox : nb_mbox;
  plm_log : list plm_call }.

Definition apu_boot : apu := Apu false false STOP_NONE 2 (Mbox 0 0 0 0) [].

Definition apu_available (a : apu) : bool := s_ready a.
Definition apu_can_stop (a : apu) : Z := s_can_stop a.
Definition apu_busy (a : apu) : bool := s_powered a.

(** [apu_parked]: [Some rc] for a core that sits in the park routine. *)
Definition apu_parked (a : apu) : option Z :=
  if negb (s_powered a) || negb (mb_state (mbox a) =? 1) then None else Some (mb_rc (mbox a)).

Definition parked (a : apu) : bool := bool_decide (is_Some (apu_parked a)).

Definition set_stop (h : stop_how) (a : apu) : apu :=
  Apu (s_ready a) (s_powered a) h (s_can_stop a) (mbox a) (plm_log a).
Definition set_powered (b : bool) (a : apu) : apu :=
  Apu (s_ready a) b (s_stop a) (s_can_stop a) (mbox a) (plm_log a).
Definition set_can_stop (v : Z) (a : apu) : apu :=
  Apu (s_ready a) (s_powered a) (s_stop a) v (mbox a) (plm_log a).
Definition set_mbox (b : nb_mbox) (a : apu) : apu :=
  Apu (s_ready a) (s_powered a) (s_stop a) (s_can_stop a) b (plm_log a).

Definition apu_release (entry : Z) (a : apu) : apu :=
  set_mbox (Mbox 0 (mb_rc (mbox a)) (u32 (mb_seq (mbox a) + 1)) entry) a.

(** What the parked core does ([park.S]): it leaves its exit status, then
    raises [state].  It happens on the other core, between two steps of the
    supervisor. *)
Definition core_parks (rc : Z) (a : apu) : apu :=
  set_mbox (Mbox 1 rc (mb_seq (mbox a)) (mb_entry (mbox a))) a.

Section plm.
Context (plm : list plm_call -> plm_call -> Z).

(** An [XStatus] is a 32-bit signed value, so the code's [(int)] casts keep
    it. *)
Definition plm_do (c : plm_call) (a : apu) : apu * Z :=
  (Apu (s_ready a) (s_powered a) (s_stop a) (s_can_stop a) (mbox a) (plm_log a ++ [c]),
   s32 (plm (plm_log a) c)).

Definition apu_init (a : apu) : apu * Z :=
  let '(a, cfg) := plm_do XIpiPsu_LookupConfig a in
  if cfg =? 0 then (a, -1)
  else
    let '(a, st) := plm_do XIpiPsu_CfgInitialize a in
    if negb (st =? XST_SUCCESS) then (a, -2)
    else
      let '(a, st) := plm_do XPm_InitXilpm a in
      if negb (st =? XST_SUCCESS) then (a, -3)
      else
        let '(a, _) := plm_do XPm_RequestNode a in
        (Apu true (s_powered a) (s_stop a) (s_can_stop a) (mbox a) (plm_log a), 0).

(** The three ways to stop the core, in the order they are tried. *)
Definition try_stop (a : apu) : apu * option stop_how :=
  let '(a, fp) := plm_do XPm_ForcePowerDown a in
  if fp =? XST_SUCCESS then (a, Some STOP_POWER)
  else
    let '(a, rw) := plm_do (XPm_ResetAssert RST_WARM ASSERT) a in
    if rw =? XST_SUCCESS then (a, Some STOP_RST_WARM)
    else
      let '(a, rc) := plm_do (XPm_ResetAssert RST_COLD ASSERT) a in
      if rc =? XST_SUCCESS then (a, Some STOP_RST_COLD) else (a, None).

Definition apu_kill (a : apu) : apu * Z :=
  if negb (s_ready a) then (a, -1)
  else if negb (s_powered a) then (a, 0)
  else
    match try_stop a with
    | (a, Some how) => (set_powered false (set_can_stop 1 (set_stop how a)), 0)
    | (a, None) => (set_can_stop 0 a, -1)
    end.

(** The reset still held by the last kill, if any. *)
Definition held_reset (a : apu) : option reset_line :=
  match s_stop a with
  | STOP_RST_WARM => Some RST_WARM
  | STOP_RST_COLD => Some RST_COLD
  | _ => None
  end.

(** The wake-up by the PLM. *)
Definition apu_wake (entry : Z) (a : apu) : apu * Z :=
  let '(a, st) := plm_do (XPm_RequestWakeUp entry) a in
  match held_reset a with
  | Some l =>
    let '(a, rel) := plm_do (XPm_ResetAssert l RELEASE) a in
    if negb (rel =? XST_SUCCESS) then (a, rel)
    else (set_powered true (set_stop STOP_NONE a), 0)
  | None =>
    if negb (st =? XST_SUCCESS) then (a, st)
    else (set_powered true (set_stop STOP_NONE a), 0)
  end.

Definition apu_start (entry : Z) (a : apu) : apu * Z :=
  if negb (s_ready a) then (a, -1)
  else if parked a then (apu_release entry a, 0)
  else if s_powered a then
    let '(a, rc) := apu_kill a in
    if negb (rc =? 0) then (a, -2) else apu_wake entry a
  else apu_wake entry a.

(** ** Lemmas *)

(** The consistency of the file's variables: only an available core is
    powered, a powered core is not held in a reset, and the flags keep
    their ranges. *)
Definition apu_ok (a : apu) : Prop :=
  (s_powered a = true -> s_ready a = true /\ s_stop a = STOP_NONE) /\
  (s_can_stop a = 0 \/ s_can_stop a = 1 \/ s_can_stop a = 2).

Lemma apu_init_ok a : apu_ok a -> s_stop a = STOP_NONE -> apu_ok (apu_init a).1.
Proof using.
  intros [H1 H2] Hs. unfold apu_init, plm_do. simpl.
  repeat case_match; simplify_eq/=; split; simpl; auto; intros H; by apply H1 in H as [? ?].
Qed.

Lemma try_stop_frame a :
  let a' := (try_stop a).1 in
  s_ready a' = s_ready a /\ s_powered a' = s_powered a /\ s_stop a' = s_stop a /\
  s_can_stop a' = s_can_stop a /\ mbox a' = mbox a.
Proof using. unfold try_stop, plm_do. simpl. by repeat case_match; simplify_eq/=. Qed.

Lemma apu_kill_ok a : apu_ok a -> apu_ok (apu_kill a).1.
Proof using.
  intros [H1 H2]. unfold apu_kill. pose proof (try_stop_frame a) as F.
  destruct (s_ready a) eqn:E1, (s_powered a) eqn:E2; simpl; try (by split; rewrite ?E1, ?E2).
  destruct (try_stop a) as [a' [how|]]; simpl in *; destruct F as (F1 & F2 & F3 & F4 & F5);
    split; simpl; auto; try done.
  intros _. rewrite F1, F3. by destruct H1.
Qed.

Lemma apu_kill_result a :
  s_ready a = true ->
  let '(a', rc) := apu_kill a in
  mbox a' = mbox a /\ s_ready a' = true /\
  ((rc = 0 /\ s_powered a' = false) \/ (rc <> 0 /\ s_powered a = true /\ s_powered a' = true /\ s_can_stop a' = 0)).
Proof using.
  intros Hr. unfold apu_kill. rewrite Hr. simpl. pose proof (try_stop_frame a) as F.
  destruct (s_powered a) eqn:E; simpl; [|by auto].
  destruct (try_stop a) as [a' [how|]]; simpl in *; destruct F as (F1 & F2 & F3 & F4 & F5);
    rewrite F5, F1; split_and!; auto.
Qed.

Lemma apu_wake_ok entry a : apu_ok a -> s_ready a = true -> s_powered a = false -> apu_ok (apu_wake entry a).1.
Proof using.
  intros [H1 H2] Hr Hp. unfold apu_wake, plm_do. simpl.
  repeat case_match; simplify_eq/=; split; simpl; auto; intros H; congruence.
Qed.

Lemma apu_wake_result entry a :
  s_powered a = false ->
  let '(a', rc) := apu_wake entry a in
  mbox a' = mbox a /\ s_ready a' = s_ready a /\
  (rc = 0 -> s_powered a' = true) /\ (s_powered a' = true -> rc = 0) /\
  XPm_RequestWakeUp entry ∈ plm_log a'.
Proof using.
  intros Hp. unfold apu_wake, plm_do. simpl.
  repeat case_match; simplify_eq/=; split_and!; auto; try congruence;
    rewrite ?negb_true_iff, ?Z.eqb_neq in *; try done;
    rewrite ?elem_of_app, ?list_elem_of_singleton; tauto.
Qed.
End plm.
