(* ===== verification/Supervisor.v ===== *)
(** * The netboot supervisor ([src/src/tool/netboot/supervisor/main.c])

    The resident core admits requests, places the staged ELF file, starts it
    on the application core and watches its run time.  The state is the
    global [g_nb], the application core's ([Apu]) and the memory
    ([ElfLoad]).  The platform manager [plm], the timer [XTime] (the value of
    its successive readings) and the link-time address [nb_park] are
    parameters.  Console output is left out, the clock readings in its
    arguments are kept. *)

From stdpp Require Import base list list_numbers numbers gmap.
From S2P Require Import Prelude ElfLoad Apu.

Local Open Scope Z_scope.
Local Open Scope c_scope.

(** ** State ([netboot.h], [netboot_proto.h]) *)

Definition NETBOOT_ST_IDLE : Z := 0.
Definition NETBOOT_ST_RUNNING : Z := 1.
Definition NETBOOT_ST_KILLED : Z := 2.
Definition NETBOOT_ST_TIMEOUT : Z := 3.
Definition NETBOOT_ST_EXITED : Z := 4.

Definition NETBOOT_ACK_OK : Z := 0.
Definition NETBOOT_ACK_BUSY : Z := 1.
Definition NETBOOT_ACK_OVERTIME : Z := 2.
Definition NETBOOT_ACK_STUCK : Z := 3.
Definition NETBOOT_ACK_SERVING : Z := 4.
Definition NETBOOT_ACK_REJECT : Z := -1.

Definition NETBOOT_CORE_FREE : Z := 0.
Definition NETBOOT_CORE_PARKED : Z := 1.
Definition NETBOOT_CORE_BUSY : Z := 2.

Definition NETBOOT_CMD_LOAD_RUN : Z := 1.
Definition NETBOOT_CMD_RERUN : Z := 2.
Definition NETBOOT_CMD_KILL : Z := 3.
Definition NETBOOT_CMD_STATUS : Z := 4.
Definition NETBOOT_F_FORCE : Z := 1.

Definition NETBOOT_ACK_MAGIC : Z := 0x3141424E.
Definition NB_DEFAULT_TIMEOUT_MS : Z := 60000.
Definition NB_STAGING_SIZE : Z := 0x80000000 - NB_STAGING_BASE.

Record nb_state := Nb {
  nb_st : Z;              (* state *)
  staged_size : Z;
  nb_entry : Z;           (* entry *)
  run_start_ms : Z;
  timeout_ms : Z;
  runs : Z }.

Record sv := Sv { sv_apu : apu; g_nb : nb_state; sv_es : es; sv_tick : nat }.

Definition nb_boot : nb_state := Nb 0 0 0 0 0 0.

Definition set_nb_st (v : Z) (n : nb_state) : nb_state :=
  Nb v (staged_size n) (nb_entry n) (run_start_ms n) (timeout_ms n) (runs n).
Definition set_staged (v : Z) (n : nb_state) : nb_state :=
  Nb (nb_st n) v (nb_entry n) (run_start_ms n) (timeout_ms n) (runs n).
Definition set_start (v : Z) (n : nb_state) : nb_state :=
  Nb (nb_st n) (staged_size n) (nb_entry n) v (timeout_ms n) (runs n).

(** The replies' texts, one constructor per format string. *)
Inductive nb_msg :=
| MEmpty
| MUnavailable
| MCoreStuck
| MElf (e : elf_msg)
| MLaunched (e : elf_msg) (patched : bool)
| MWakeFailed (e : elf_msg) (patched : bool) (rc : Z)
| MBusy (runs run_ms max_ms left_ms : Z)
| MOvertime (runs run_ms max_ms : Z)
| MTerminated (runs ran : Z)
| MStuck (runs ran : Z)
| MBadMagic
| MElfSize (elf_size : Z)
| MServing (age : Z)
| MShaMismatch
| MNothingStaged
| MPoweredDown
| MStatus (pm_ok : bool) (staged : Z) (exit_rc : option Z) (busy : bool) (ran : option (Z * Z * Z))
| MUnknownCmd.

Record netboot_ack := Ack {
  ak_magic : Z; ak_verdict : Z; ak_state : Z; ak_core : Z; ak_run_ms : Z; ak_max_run_ms : Z;
  ak_remaining_ms : Z; ak_retry_after_ms : Z; ak_can_stop : Z; ak_runs : Z; ak_park_addr : Z }.

Definition set_verdict (v : Z) (a : netboot_ack) : netboot_ack :=
  Ack (ak_magic a) v (ak_state a) (ak_core a) (ak_run_ms a) (ak_max_run_ms a)
    (ak_remaining_ms a) (ak_retry_after_ms a) (ak_can_stop a) (ak_runs a) (ak_park_addr a).
Definition set_retry (v : Z) (a : netboot_ack) : netboot_ack :=
  Ack (ak_magic a) (ak_verdict a) (ak_state a) (ak_core a) (ak_run_ms a) (ak_max_run_ms a)
    (ak_remaining_ms a) v (ak_can_stop a) (ak_runs a) (ak_park_addr a).

(** [core_view]. *)
Definition core_view (a : apu) : Z :=
  if parked a then NETBOOT_CORE_PARKED
  else if apu_busy a then NETBOOT_CORE_BUSY else NETBOOT_CORE_FREE.

Section supervisor.
Context (plm : list plm_call -> plm_call -> Z).
Context (XTime : nat -> Z) (COUNTS_PER_SECOND : Z).
Context (nb_park : Z).

Abbreviation M := (stE sv stop).

Definition ms_at (k : nat) : Z := u64 (XTime k) / (COUNTS_PER_SECOND / 1000).

Definition nb_now_ms : M Z := fun s =>
  (Sv (sv_apu s) (g_nb s) (sv_es s) (S (sv_tick s)), Ok (ms_at (sv_tick s))).

Definition on_apu {A} (f : apu -> apu * A) : M A := fun s =>
  let '(a, r) := f (sv_apu s) in (Sv a (g_nb s) (sv_es s) (sv_tick s), Ok r).
Definition on_nb (f : nb_state -> nb_state) : M unit :=
  modify (fun s => Sv (sv_apu s) (f (g_nb s)) (sv_es s) (sv_tick s)).
Definition on_es {A} (f : es -> option (es * A)) : M A := fun s =>
  match f (sv_es s) with
  | Some (e, r) => (Sv (sv_apu s) (g_nb s) e (sv_tick s), Ok r)
  | None => (s, Err NoFuel)
  end.

Definition nb_kill : M Z :=
  st ← gets (fun s => nb_st (g_nb s));
  if negb (st =? NETBOOT_ST_RUNNING) then mret 0
  else
    rc ← on_apu (apu_kill plm);
    when (rc =? 0) (on_nb (set_nb_st NETBOOT_ST_KILLED)) ;;
    nb_now_ms ;;
    mret rc.

(** [nb_launch] returns the code, [*place_ms] and the message; its second
    half places the staged file and starts the core. *)
Definition nb_start_staged (max_run_ms place_ms0 : Z) : M (Z * Z * nb_msg) :=
  t0 ← nb_now_ms;
  staged ← gets (fun s => staged_size (g_nb s));
  pl ← on_es (elf_place elf_fuel NB_STAGING_BASE staged);
  if negb (pl_rc pl =? 0) then
    on_nb (set_staged 0) ;; mret (-3, place_ms0, MElf (pl_msg pl))
  else
    let entry := default 0 (pl_entry pl) in
    patched ← on_es (fun e => Some (elf_patch_exit NB_STAGING_BASE staged nb_park e));
    t1 ← nb_now_ms;
    let place_ms := u32 (t1 - t0) in
    on_nb (fun n => Nb (nb_st n) (staged_size n) entry (run_start_ms n)
             (if negb (max_run_ms =? 0) then max_run_ms else NB_DEFAULT_TIMEOUT_MS)
             (u32 (runs n + 1))) ;;
    on_es (fun e => Some (Xil_DCacheFlushRange 0 (2 ^ 64) e, tt)) ;;
    rc ← on_apu (apu_start plm entry);
    if negb (rc =? 0) then
      on_nb (set_nb_st NETBOOT_ST_IDLE) ;;
      mret (-4, place_ms, MWakeFailed (pl_msg pl) (z2b patched) rc)
    else
      on_nb (set_nb_st NETBOOT_ST_RUNNING) ;;
      t ← nb_now_ms;
      on_nb (set_start t) ;;
      mret (0, place_ms, MLaunched (pl_msg pl) (z2b patched)).

Definition nb_launch (max_run_ms place_ms0 : Z) : M (Z * Z * nb_msg) :=
  a ← gets sv_apu;
  if negb (apu_available a) then mret (-10, place_ms0, MUnavailable)
  else
    when (negb (parked a)) (nb_kill ;; mret tt) ;;
    a ← gets sv_apu;
    if apu_busy a && negb (parked a) then mret (-5, place_ms0, MCoreStuck)
    else nb_start_staged max_run_ms place_ms0.

Definition nb_fill_ack : M netboot_ack :=
  a ← gets sv_apu;
  n ← gets g_nb;
  let core := core_view a in
  '(run_ms, remaining) ←
    (if negb (runs n =? 0) && (core =? NETBOOT_CORE_BUSY) then
       now ← nb_now_ms;
       let run_ms := if run_start_ms n <? now then u32 (now - run_start_ms n) else 0 in
       mret (run_ms, if run_ms <? timeout_ms n then timeout_ms n - run_ms else 0)
     else mret (0, 0));
  mret (Ack NETBOOT_ACK_MAGIC 0 (nb_st n) core run_ms (timeout_ms n) remaining 0
          (u32 (apu_can_stop a)) (runs n) (u32 nb_park)).

(** The ack (its verdict is the value returned) and the message. *)
Definition nb_admit (cmd flags : Z) : M (netboot_ack * nb_msg) :=
  ack ← nb_fill_ack;
  a ← gets sv_apu;
  n ← gets g_nb;
  if negb (cmd =? NETBOOT_CMD_LOAD_RUN) && negb (cmd =? NETBOOT_CMD_RERUN)
  then mret (set_verdict NETBOOT_ACK_OK ack, MEmpty)
  else if negb (apu_available a) then mret (set_verdict NETBOOT_ACK_REJECT ack, MUnavailable)
  else if negb (ak_core ack =? NETBOOT_CORE_BUSY) then mret (set_verdict NETBOOT_ACK_OK ack, MEmpty)
  else if 0 <? ak_remaining_ms ack then
    mret (set_verdict NETBOOT_ACK_BUSY (set_retry (ak_remaining_ms ack +u32 100) ack),
          MBusy (runs n) (ak_run_ms ack) (ak_max_run_ms ack) (ak_remaining_ms ack))
  else if negb (z2b (flags & NETBOOT_F_FORCE)) then
    mret (set_verdict NETBOOT_ACK_OVERTIME ack, MOvertime (runs n) (ak_run_ms ack) (ak_max_run_ms ack))
  else
    let ran := ak_run_ms ack in
    on_nb (set_nb_st NETBOOT_ST_RUNNING) ;;
    rc ← nb_kill;
    if rc =? 0 then
      ack ← nb_fill_ack;
      n ← gets g_nb;
      mret (set_verdict NETBOOT_ACK_OK ack, MTerminated (runs n) ran)
    else
      on_nb (set_nb_st NETBOOT_ST_TIMEOUT) ;;
      ack ← nb_fill_ack;
      n ← gets g_nb;
      mret (set_verdict NETBOOT_ACK_STUCK ack, MStuck (runs n) ran).

Definition watchdog : M unit :=
  n ← gets g_nb;
  a ← gets sv_apu;
  if ((nb_st n =? NETBOOT_ST_RUNNING) || (nb_st n =? NETBOOT_ST_TIMEOUT)) && parked a then
    when (nb_st n =? NETBOOT_ST_TIMEOUT) (nb_now_ms ;; mret tt) ;;
    on_nb (set_nb_st NETBOOT_ST_EXITED)
  else
    now ← nb_now_ms;
    if negb (nb_st n =? NETBOOT_ST_RUNNING) || (now <? run_start_ms n)
       || (now -u64 run_start_ms n <=? timeout_ms n)
    then mret tt
    else
      rc ← nb_kill;
      when (negb (rc =? 0)) (on_nb (set_nb_st NETBOOT_ST_TIMEOUT)).

(** ** The consistency of the supervisor's state *)

Context (HC : 1000 <= COUNTS_PER_SECOND).

Lemma ms_at_range k : is_u64 (ms_at k).
Proof using HC.
  unfold ms_at, is_u64. pose proof (u64_range (XTime k)) as R. unfold is_u64 in R.
  assert (1 <= COUNTS_PER_SECOND / 1000) by (apply Z.div_le_lower_bound; lia).
  split; [apply Z.div_pos; lia|]. apply Z.div_lt_upper_bound; nia.
Qed.

(** The core is powered exactly in the states that say an application was
    started and not stopped; sizes keep their bounds. *)
Definition sv_ok (s : sv) : Prop :=
  let n := g_nb s in
  apu_ok (sv_apu s) /\ mem_ok (em (sv_es s)) /\
  (s_powered (sv_apu s) = true <->
     nb_st n = NETBOOT_ST_RUNNING \/ nb_st n = NETBOOT_ST_TIMEOUT \/ nb_st n = NETBOOT_ST_EXITED) /\
  0 <= nb_st n <= 4 /\ is_u64 (run_start_ms n) /\ 0 <= staged_size n <= NB_STAGING_SIZE /\
  is_u32 (timeout_ms n) /\ is_u32 (runs n).

(** Runs the monadic code up to the next branch. *)
Ltac run :=
  unfold mbind, stE_bind, mret, stE_ret, gets, getS, modify, when, throw, on_nb, on_apu, nb_now_ms;
  cbn beta iota; cbn [negb sv_apu g_nb sv_es sv_tick].

Ltac sts := unfold NETBOOT_ST_IDLE, NETBOOT_ST_RUNNING, NETBOOT_ST_KILLED, NETBOOT_ST_TIMEOUT,
              NETBOOT_ST_EXITED in *.
Ltac ok := unfold sv_ok; sts; simpl; split_and!; auto; try lia; try (intuition (congruence || lia)).

Lemma nb_kill_spec s :
  sv_ok s ->
  exists s' rc, nb_kill s = (s', Ok rc) /\ sv_ok s' /\ sv_es s' = sv_es s /\
    mbox (sv_apu s') = mbox (sv_apu s) /\ s_ready (sv_apu s') = s_ready (sv_apu s) /\
    ((rc = 0 /\ nb_st (g_nb s) <> NETBOOT_ST_RUNNING /\ s' = s) \/
     (nb_st (g_nb s) = NETBOOT_ST_RUNNING /\ rc = 0 /\
      g_nb s' = set_nb_st NETBOOT_ST_KILLED (g_nb s) /\ s_powered (sv_apu s') = false) \/
     (nb_st (g_nb s) = NETBOOT_ST_RUNNING /\ rc <> 0 /\ g_nb s' = g_nb s /\
      s_powered (sv_apu s') = true /\ s_can_stop (sv_apu s') = 0)).
Proof using.
  intros Hok. pose proof Hok as (Ha & Hm & Hp & Hst & Hs0 & Hsz & Ht & Hr). unfold nb_kill. run.
  destruct (Z.eqb_spec (nb_st (g_nb s)) NETBOOT_ST_RUNNING) as [E|E]; run; cycle 1.
  { exists s, 0. split_and!; auto. }
  assert (s_powered (sv_apu s) = true) as Ep by (apply Hp; auto).
  assert (s_ready (sv_apu s) = true) as Er by (by apply Ha).
  pose proof (apu_kill_ok plm (sv_apu s) Ha) as Hk.
  pose proof (apu_kill_result plm (sv_apu s) Er) as K.
  destruct (apu_kill plm (sv_apu s)) as [a rc]. simpl in Hk. destruct K as (K1 & K2 & K).
  destruct K as [(-> & K)|(K3 & _ & K4 & K5)]; run.
  - eexists _, 0. split; [done|]. run. rewrite Er. split_and!; auto; [ok|].
    right. left. done.
  - destruct (Z.eqb_spec rc 0); [done|]. run. eexists _, rc. split; [done|]. run. rewrite Er.
    split_and!; auto; [ok|]. right. right. done.
Qed.

(** How long the current application has run at the clock reading [k], as
    the ack reports it. *)
Definition ran_ms (n : nb_state) (k : nat) : Z :=
  if run_start_ms n <? ms_at k then u32 (ms_at k - run_start_ms n) else 0.
Definition over_limit (n : nb_state) (k : nat) : Prop := runs n = 0 \/ timeout_ms n <= ran_ms n k.

Lemma nb_fill_ack_spec s :
  exists s' ack, nb_fill_ack s = (s', Ok ack) /\
    sv_apu s' = sv_apu s /\ g_nb s' = g_nb s /\ sv_es s' = sv_es s /\
    ak_core ack = core_view (sv_apu s) /\ ak_max_run_ms ack = timeout_ms (g_nb s) /\
    ak_can_stop ack = u32 (s_can_stop (sv_apu s)) /\ ak_state ack = nb_st (g_nb s) /\
    (ak_core ack = NETBOOT_CORE_BUSY -> 0 < ak_remaining_ms ack ->
       runs (g_nb s) <> 0 /\ ran_ms (g_nb s) (sv_tick s) < timeout_ms (g_nb s) /\
       ak_run_ms ack = ran_ms (g_nb s) (sv_tick s) /\
       ak_remaining_ms ack = timeout_ms (g_nb s) - ran_ms (g_nb s) (sv_tick s)) /\
    (ak_core ack = NETBOOT_CORE_BUSY -> ~ 0 < ak_remaining_ms ack ->
       over_limit (g_nb s) (sv_tick s)).
Proof using.
  unfold nb_fill_ack. run. unfold over_limit.
  destruct (Z.eqb_spec (runs (g_nb s)) 0) as [E|E]; cbn [negb andb]; run.
  { eexists _, _. split; [done|]. simpl. split_and!; auto. lia. }
  destruct (Z.eqb_spec (core_view (sv_apu s)) NETBOOT_CORE_BUSY) as [E2|E2]; run.
  - eexists _, _. split; [done|]. simpl. fold (ran_ms (g_nb s) (sv_tick s)).
    destruct (Z.ltb_spec (ran_ms (g_nb s) (sv_tick s)) (timeout_ms (g_nb s))).
    + split_and!; auto. lia.
    + split_and!; auto. lia.
  - eexists _, _. split; [done|]. simpl. split_and!; auto; done.
Qed.

Lemma core_view_busy a :
  core_view a = NETBOOT_CORE_BUSY <-> s_powered a = true /\ parked a = false.
Proof using.
  unfold core_view, apu_busy, NETBOOT_CORE_BUSY, NETBOOT_CORE_PARKED, NETBOOT_CORE_FREE.
  destruct (parked a), (s_powered a); split; try done; by intros [? ?].
Qed.

Lemma sv_ok_tick s k : sv_ok s -> sv_ok (Sv (sv_apu s) (g_nb s) (sv_es s) k).
Proof using. done. Qed.

Lemma sv_ok_st s v :
  sv_ok s -> s_powered (sv_apu s) = true -> v = NETBOOT_ST_RUNNING \/ v = NETBOOT_ST_TIMEOUT
    \/ v = NETBOOT_ST_EXITED ->
  sv_ok (Sv (sv_apu s) (set_nb_st v (g_nb s)) (sv_es s) (sv_tick s)).
Proof using.
  intros (Ha & Hm & Hp & Hst & Hs0 & Hsz & Ht & Hr) P Hv. ok.
Qed.

(** What [nb_admit] answers to a request to run an image, and what it has
    done to the core. *)
Definition admit_outcome (s s' : sv) (flags : Z) (ack : netboot_ack) : Prop :=
  let v := ak_verdict ack in
  let busy := core_view (sv_apu s) = NETBOOT_CORE_BUSY in
  let force := Z.land flags NETBOOT_F_FORCE <> 0 in
  let same := sv_apu s' = sv_apu s /\ g_nb s' = g_nb s in
  (v = NETBOOT_ACK_REJECT /\ s_ready (sv_apu s) = false /\ same) \/
  (v = NETBOOT_ACK_OK /\ ~ busy /\ s_ready (sv_apu s) = true /\ same) \/
  (v = NETBOOT_ACK_BUSY /\ busy /\ runs (g_nb s) <> 0 /\
     ran_ms (g_nb s) (sv_tick s) < timeout_ms (g_nb s) /\
     ak_retry_after_ms ack = u32 (timeout_ms (g_nb s) - ran_ms (g_nb s) (sv_tick s) + 100) /\ same) \/
  (v = NETBOOT_ACK_OVERTIME /\ busy /\ over_limit (g_nb s) (sv_tick s) /\ ~ force /\ same) \/
  (v = NETBOOT_ACK_OK /\ busy /\ over_limit (g_nb s) (sv_tick s) /\ force /\
     nb_st (g_nb s') = NETBOOT_ST_KILLED /\ s_powered (sv_apu s') = false /\
     ak_core ack = NETBOOT_CORE_FREE) \/
  (v = NETBOOT_ACK_STUCK /\ busy /\ over_limit (g_nb s) (sv_tick s) /\ force /\
     nb_st (g_nb s') = NETBOOT_ST_TIMEOUT /\ s_powered (sv_apu s') = true /\ ak_can_stop ack = 0).

Lemma nb_admit_spec s cmd flags :
  sv_ok s -> cmd = NETBOOT_CMD_LOAD_RUN \/ cmd = NETBOOT_CMD_RERUN ->
  exists s' ack msg, nb_admit cmd flags s = (s', Ok (ack, msg)) /\ sv_ok s' /\
    sv_es s' = sv_es s /\ s_ready (sv_apu s') = s_ready (sv_apu s) /\
    admit_outcome s s' flags ack.
Proof using.
  intros Hok Hcmd. unfold nb_admit.
  destruct (nb_fill_ack_spec s) as (s1 & ack & E1 & Ea & En & Ee & Ec & Ex & Es & Et & Hb1 & Hb2).
  erewrite bind_Ok by exact E1. run. rewrite Ea, En.
  assert (sv_ok s1) as Hok1 by (unfold sv_ok; rewrite Ea, En, Ee; exact Hok).
  destruct (negb _ && negb _) eqn:Ecmd.
  { destruct Hcmd as [-> | ->]; done. }
  clear Ecmd. unfold apu_available. unfold admit_outcome.
  destruct (s_ready (sv_apu s)) eqn:Er; cbn [negb]; cycle 1.
  { eexists _, _, _. split; [done|]. rewrite Ea, En. split_and!; auto. }
  rewrite Ec in *. destruct (Z.eqb_spec (core_view (sv_apu s)) NETBOOT_CORE_BUSY) as [Eb|Eb]; cycle 1.
  { eexists _, _, _. split; [done|]. rewrite Ea, En. split_and!; auto. right. left. simpl. auto. }
  specialize (Hb1 Eb). specialize (Hb2 Eb).
  destruct (Z.ltb_spec 0 (ak_remaining_ms ack)) as [Hr|Hr]; cbn [negb].
  { destruct Hb1 as (H1 & H2 & H3 & H4); [done|]. eexists _, _, _. split; [done|].
    rewrite Ea, En. split_and!; auto. right. right. left. simpl. rewrite H4. by split_and!. }
  assert (over_limit (g_nb s) (sv_tick s)) as Hov by (apply Hb2; lia).
  destruct (z2b _) eqn:Ef; unfold z2b in Ef; cbn [negb]; cycle 1.
  { eexists _, _, _. split; [done|]. rewrite Ea, En. split_and!; auto.
    do 3 right. left. simpl. rewrite negb_false_iff, Z.eqb_eq in Ef. split_and!; auto. }
  rewrite negb_true_iff, Z.eqb_neq in Ef.
  apply core_view_busy in Eb as Eb'. destruct Eb' as [Ep Epk].
  run. rewrite Ea, En, Ee in *. set (s2 := Sv _ _ _ _).
  assert (sv_ok s2) as Hok2.
  { unfold s2. rewrite <- Ea, <- En, <- Ee. apply sv_ok_st; [done| |auto]. by rewrite Ea. }
  destruct (nb_kill_spec s2 Hok2) as (s3 & rc & E3 & Hok3 & Ee3 & Em3 & Er3 & K). rewrite E3.
  destruct K as [(_ & Hn & _)|[(_ & -> & En3 & Ep3)|(_ & Hrc & En3 & Ep3 & Es3)]];
    [by destruct Hn| |]; cbn [Z.eqb].
  - destruct (nb_fill_ack_spec s3) as (s4 & ack4 & E4 & Ea4 & En4 & Ee4 & Ec4 & _).
    run. rewrite E4. run. eexists _, _, _. split; [done|].
    rewrite Ea4, En4, Ee4, Ee3, En3, Er3.
    split_and!; auto; [unfold sv_ok; rewrite Ea4, En4, Ee4; exact Hok3|].
    do 4 right. left. simpl. split_and!; auto. rewrite Ec4. unfold core_view, parked, apu_parked, apu_busy.
    by rewrite Ep3.
  - destruct (Z.eqb_spec rc 0); [done|]. run.
    set (s4 := Sv _ _ _ _). destruct (nb_fill_ack_spec s4) as (s5 & ack5 & E5 & Ea5 & En5 & Ee5 & Ec5 & _ & Es5 & _).
    rewrite E5. run. eexists _, _, _. split; [done|].
    assert (sv_ok s4) as Hok4 by (apply sv_ok_st; auto).
    rewrite Ea5, En5, Ee5. unfold s4; simpl. rewrite Ee3, Er3.
    split_and!; auto; [unfold sv_ok; rewrite Ea5, En5, Ee5; exact Hok4|].
    do 5 right. split_and!; auto. rewrite Es5. simpl. by rewrite Es3.
Qed.

Lemma nb_admit_total s cmd flags :
  sv_ok s ->
  exists s' ack msg, nb_admit cmd flags s = (s', Ok (ack, msg)) /\ sv_ok s'.
Proof using.
  intros Hok. destruct (decide (cmd = NETBOOT_CMD_LOAD_RUN \/ cmd = NETBOOT_CMD_RERUN)) as [H|H].
  { destruct (nb_admit_spec s cmd flags Hok H) as (s' & ack & msg & E & Hok' & _). by exists s', ack, msg. }
  unfold nb_admit.
  destruct (nb_fill_ack_spec s) as (s1 & ack & E1 & Ea & En & Ee & _).
  erewrite bind_Ok by exact E1. run.
  destruct (Z.eqb_spec cmd NETBOOT_CMD_LOAD_RUN); [by destruct H; left|].
  destruct (Z.eqb_spec cmd NETBOOT_CMD_RERUN); [by destruct H; right|]. cbn [negb andb].
  eexists _, _, _. split; [done|]. unfold sv_ok. by rewrite Ea, En, Ee.
Qed.

(** ** Launching *)

Lemma apu_start_spec entry a :
  apu_ok a -> s_ready a = true -> core_view a <> NETBOOT_CORE_BUSY ->
  let '(a', rc) := apu_start plm entry a in
  apu_ok a' /\ s_ready a' = true /\
  (rc = 0 -> s_powered a' = true /\
     ((parked a = true /\ mbox a' = Mbox 0 (mb_rc (mbox a)) (u32 (mb_seq (mbox a) + 1)) entry /\
       plm_log a' = plm_log a) \/
      (s_powered a = false /\ XPm_RequestWakeUp entry ∈ plm_log a'))) /\
  (rc <> 0 -> s_powered a = false /\ s_powered a' = false /\ mbox a' = mbox a).
Proof using.
  intros Ha Hr Hb. unfold apu_start. rewrite Hr. cbn [negb].
  destruct (parked a) eqn:Epk.
  - assert (s_powered a = true) as Hp.
    { unfold parked, apu_parked in Epk. by destruct (s_powered a). }
    split_and!; auto; try done.
  - destruct (s_powered a) eqn:Ep; [by destruct Hb; apply core_view_busy|].
    pose proof (apu_wake_ok plm entry a Ha Hr Ep) as H1.
    pose proof (apu_wake_result plm entry a Ep) as H2.
    destruct (apu_wake plm entry a) as [a' rc]. destruct H2 as (H2 & H3 & H4 & H5 & H6). simpl in H1.
    split_and!; auto; [by rewrite H3|]. intros Hrc. split_and!; auto.
    destruct (s_powered a'); [|done]. by destruct Hrc; apply H5.
Qed.

(** The image in memory after a launch that reached the core. *)
Definition placed_es (e : es) (staged : Z) : option (es * placed) :=
  '(e1, pl) ← elf_place elf_fuel NB_STAGING_BASE staged e;
  let '(e2, _) := elf_patch_exit NB_STAGING_BASE staged nb_park e1 in
  Some (Xil_DCacheFlushRange 0 (2 ^ 64) e2, pl).

Definition launch_limit (max_run_ms : Z) : Z :=
  if max_run_ms =? 0 then NB_DEFAULT_TIMEOUT_MS else max_run_ms.

(** What starting the staged file does; [am] is the core's state when the
    code decides to place it. *)
Definition start_outcome (am : apu) (s s' : sv) (max_run_ms rc : Z) : Prop :=
  let n := g_nb s in
  (rc = -3 /\ check_headers (em (sv_es s)) NB_STAGING_BASE (staged_size n) <> None /\
   sv_es s' = sv_es s /\ sv_apu s' = am /\ staged_size (g_nb s') = 0) \/
  (exists pl, placed_es (sv_es s) (staged_size n) = Some (sv_es s', pl) /\
     nb_entry (g_nb s') = default 0 (pl_entry pl) /\ staged_size (g_nb s') = staged_size n /\
     timeout_ms (g_nb s') = launch_limit max_run_ms /\ runs (g_nb s') = u32 (runs n + 1) /\
     ((rc = -4 /\ nb_st (g_nb s') = NETBOOT_ST_IDLE /\ s_powered (sv_apu s') = false) \/
      (rc = 0 /\ nb_st (g_nb s') = NETBOOT_ST_RUNNING /\
       run_start_ms (g_nb s') = ms_at (pred (sv_tick s')) /\
       ((parked am = true /\
         mbox (sv_apu s') = Mbox 0 (mb_rc (mbox am)) (u32 (mb_seq (mbox am) + 1)) (nb_entry (g_nb s'))) \/
        (s_powered am = false /\ XPm_RequestWakeUp (nb_entry (g_nb s')) ∈ plm_log (sv_apu s')))))).

Definition launch_outcome (s s' : sv) (max_run_ms rc : Z) : Prop :=
  (rc = -10 /\ s_ready (sv_apu s) = false /\ s' = s) \/
  (rc = -5 /\ core_view (sv_apu s) = NETBOOT_CORE_BUSY /\
   core_view (sv_apu s') = NETBOOT_CORE_BUSY /\ sv_es s' = sv_es s) \/
  (exists am, core_view am <> NETBOOT_CORE_BUSY /\ mbox am = mbox (sv_apu s) /\
     start_outcome am s s' max_run_ms rc).

Lemma mem_ok_patch img size park_addr e :
  mem_ok (em e) -> mem_ok (em (elf_patch_exit img size park_addr e).1).
Proof using.
  intros H. unfold elf_patch_exit. destruct (_ || _); [done|].
  pose proof (first_return_spec (patch_section img size (img + e_shoff (em e) img) park_addr)
                (range 0 (e_shnum (em e) img)) e) as F.
  destruct (first_return _ _ e) as [r|]; [|done]. simpl. destruct F as (i & _ & F).
  unfold patch_section in F. repeat case_match; simplify_eq/=; try done.
  match goal with F : first_return ?b ?l e = Some _ |- _ => pose proof (first_return_spec b l e) as G;
    rewrite F in G; destruct G as (k & _ & G) end.
  unfold patch_sym in G. repeat case_match; simplify_eq/=; try done.
  by repeat apply mem_ok_stm32.
Qed.

Lemma elf_place_rc img size e e' pl :
  elf_place elf_fuel img size e = Some (e', pl) ->
  (pl_rc pl = 0 /\ check_headers (em e) img size = None) \/
  (pl_rc pl = -1 /\ check_headers (em e) img size <> None /\ e' = e).
Proof using.
  unfold elf_place. destruct (check_headers _ _ _); intros H; [simplify_eq/=; auto|].
  left. split; [|done].
  destruct (up_to _ _ _ _ _) as [[e1 n1]|]; [|done]. cbn [mbind option_bind] in H.
  destruct (zero_bss _ _ _ _) as [[e2 n2]|]; [|done]. cbn [mbind option_bind] in H.
  by simplify_eq/=.
Qed.

Lemma nb_start_staged_spec s max_run_ms place_ms0 :
  sv_ok s -> is_u32 max_run_ms -> s_ready (sv_apu s) = true ->
  core_view (sv_apu s) <> NETBOOT_CORE_BUSY ->
  exists s' rc place_ms msg, nb_start_staged max_run_ms place_ms0 s = (s', Ok (rc, place_ms, msg)) /\
    sv_ok s' /\ start_outcome (sv_apu s) s s' max_run_ms rc.
Proof using HC.
  intros Hok Hu Hr Hb. pose proof Hok as (Ha & Hm & Hp & Hst & Hs0 & Hsz & Ht & Hrn).
  unfold nb_start_staged. run. unfold on_es. cbn [sv_apu g_nb sv_es sv_tick].
  destruct (elf_place_total NB_STAGING_BASE (staged_size (g_nb s)) (sv_es s) Hm)
    as (e1 & pl & E1 & Hm1).
  unfold start_outcome, placed_es. rewrite E1. cbn [mbind option_bind].
  destruct (elf_place_rc _ _ _ _ _ E1) as [[Erc Hc]|(Erc & Hc & ->)]; rewrite Erc; cbn [negb Z.eqb]; run; cycle 1.
  { eexists _, _, _, _. split; [done|]. simpl. split; [|left; by split_and!].
    ok. }
  pose proof (mem_ok_patch NB_STAGING_BASE (staged_size (g_nb s)) nb_park e1 Hm1) as Hm2.
  destruct (elf_patch_exit _ _ _ e1) as [e2 patched]. simpl in Hm2. cbn [sv_apu g_nb sv_es sv_tick].
  set (entry := default 0 (pl_entry pl)).
  pose proof (apu_start_spec entry (sv_apu s) Ha Hr Hb) as A.
  destruct (apu_start plm entry (sv_apu s)) as [a' rc]. destruct A as (A1 & A2 & A3 & A4).
  assert (is_u32 (if negb (max_run_ms =? 0) then max_run_ms else NB_DEFAULT_TIMEOUT_MS)) as Hlim.
  { destruct (negb _); [done|]. unfold is_u32, NB_DEFAULT_TIMEOUT_MS. lia. }
  assert ((if negb (max_run_ms =? 0) then max_run_ms else NB_DEFAULT_TIMEOUT_MS) = launch_limit max_run_ms) as El
    by (unfold launch_limit; by destruct (max_run_ms =? 0)).
  destruct (Z.eqb_spec rc 0) as [->|Hrc]; cbn [negb]; run.
  - destruct A3 as [A3 A5]; [done|]. eexists _, _, _, _. split; [done|]. simpl. rewrite El in *. split.
    + ok; try apply u32_range; try apply ms_at_range.
    + right. eexists. split_and!; try done. right. split_and!; try done.
      destruct A5 as [(? & ? & ?)|(? & ?)]; [by left|by right].
  - destruct A4 as (A4 & A5 & A6); [done|]. eexists _, _, _, _. split; [done|]. simpl. rewrite El in *. split.
    + ok; try apply u32_range.
    + right. eexists. split_and!; try done. by left.
Qed.

Lemma nb_launch_spec s max_run_ms place_ms0 :
  sv_ok s -> is_u32 max_run_ms ->
  exists s' rc place_ms msg, nb_launch max_run_ms place_ms0 s = (s', Ok (rc, place_ms, msg)) /\
    sv_ok s' /\ launch_outcome s s' max_run_ms rc.
Proof using HC.
  intros Hok Hu. unfold nb_launch. run. unfold apu_available.
  destruct (s_ready (sv_apu s)) eqn:Er; cbn [negb]; cycle 1.
  { eexists _, _, _, _. split; [done|]. split; [done|]. left. done. }
  destruct (parked (sv_apu s)) eqn:Epk; cbn [negb]; run.
  { rewrite Epk, andb_false_r.
    assert (core_view (sv_apu s) <> NETBOOT_CORE_BUSY) as Hnb
      by (intros [_ H]%core_view_busy; congruence).
    destruct (nb_start_staged_spec s max_run_ms place_ms0 Hok Hu Er Hnb) as (s' & rc & pm & msg & E & H1 & H2).
    exists s', rc, pm, msg. split_and!; [done..|]. right. right. eauto. }
  destruct (nb_kill_spec s Hok) as (s1 & k & E1 & Hok1 & Ee1 & Em1 & Er1 & K). rewrite E1. run.
  assert (nb_st (g_nb s) = NETBOOT_ST_RUNNING -> core_view (sv_apu s) = NETBOOT_CORE_BUSY) as Hrun.
  { intros H. apply core_view_busy. split; [|done]. destruct Hok as (_ & _ & Hp & _). by apply Hp; left. }
  assert (staged_size (g_nb s1) = staged_size (g_nb s) /\ runs (g_nb s1) = runs (g_nb s)) as [Es En].
  { destruct K as [(_ & _ & ->)|[(_ & _ & -> & _)|(_ & _ & -> & _)]]; done. }
  destruct (apu_busy (sv_apu s1) && negb (parked (sv_apu s1))) eqn:Eb.
  - eexists _, _, _, _. split; [done|]. split; [done|]. right. left.
    apply andb_true_iff in Eb as [Eb1 Eb2%negb_true_iff].
    split_and!; [done| |by apply core_view_busy|done].
    destruct K as [(_ & _ & ->)|[(K & _)|(K & _)]]; [by apply core_view_busy|auto..].
  - assert (core_view (sv_apu s1) <> NETBOOT_CORE_BUSY) as Hnb.
    { intros [H1 H2]%core_view_busy. unfold apu_busy in Eb. by rewrite H1, H2 in Eb. }
    destruct (nb_start_staged_spec s1 max_run_ms place_ms0 Hok1 Hu) as (s' & rc & pm & msg & E & H1 & H2);
      [congruence|done|].
    exists s', rc, pm, msg. split_and!; [done..|]. right. right. exists (sv_apu s1).
    split_and!; [done..|]. unfold start_outcome in *. by rewrite Es, En, Ee1 in H2.
Qed.

(** ** The watchdog *)

Lemma watchdog_spec s :
  sv_ok s ->
  exists s', watchdog s = (s', Ok tt) /\ sv_ok s' /\ sv_es s' = sv_es s /\
    let n := g_nb s in
    let live := nb_st n = NETBOOT_ST_RUNNING \/ nb_st n = NETBOOT_ST_TIMEOUT in
    ((live /\ parked (sv_apu s) = true /\ sv_apu s' = sv_apu s /\
      g_nb s' = set_nb_st NETBOOT_ST_EXITED n) \/
     (~ (live /\ parked (sv_apu s) = true) /\
      let now := ms_at (sv_tick s) in
      if bool_decide (nb_st n = NETBOOT_ST_RUNNING /\ timeout_ms n < now - run_start_ms n)
      then (nb_st (g_nb s') = NETBOOT_ST_KILLED /\ s_powered (sv_apu s') = false) \/
           (nb_st (g_nb s') = NETBOOT_ST_TIMEOUT /\ s_powered (sv_apu s') = true /\
            s_can_stop (sv_apu s') = 0)
      else sv_apu s' = sv_apu s /\ g_nb s' = n)).
Proof using HC.
  intros Hok. pose proof Hok as (Ha & Hm & Hp & Hst & Hs0 & Hsz & Ht & Hr).
  unfold watchdog. run.
  destruct (_ && parked (sv_apu s)) eqn:E.
  { apply andb_true_iff in E as [E1 E2]. apply orb_true_iff in E1.
    assert (nb_st (g_nb s) = NETBOOT_ST_RUNNING \/ nb_st (g_nb s) = NETBOOT_ST_TIMEOUT) as El by lia.
    assert (s_powered (sv_apu s) = true) as Ep by (apply Hp; tauto).
    exists (Sv (sv_apu s) (set_nb_st NETBOOT_ST_EXITED (g_nb s)) (sv_es s)
         (if nb_st (g_nb s) =? NETBOOT_ST_TIMEOUT then S (sv_tick s) else sv_tick s)).
    split; [destruct (nb_st (g_nb s) =? NETBOOT_ST_TIMEOUT); done|].
    split; [apply (sv_ok_st s); auto|]. split; [done|]. left. done. }
  assert (~ ((nb_st (g_nb s) = NETBOOT_ST_RUNNING \/ nb_st (g_nb s) = NETBOOT_ST_TIMEOUT)
             /\ parked (sv_apu s) = true)) as Hnl.
  { intros [H1 H2]. rewrite H2, andb_true_r in E. apply orb_false_iff in E. lia. }
  pose proof (ms_at_range (sv_tick s)) as Rn. unfold is_u64, is_u32 in *.
  set (now := ms_at (sv_tick s)) in *.
  case_bool_decide as Hd; destruct (_ || _ || _) eqn:E2.
  - exfalso. rewrite !orb_true_iff, negb_true_iff in E2. rewrite u64_small in E2 by lia. lia.
  - clear E2. set (s1 := Sv _ _ _ _). assert (sv_ok s1) as Hok1 by exact Hok.
    destruct (nb_kill_spec s1 Hok1) as (s2 & rc & -> & Hok2 & Ee & _ & _ & K).
    destruct K as [(_ & H & _)|[(_ & -> & H1 & H2)|(_ & Hrc & H1 & H2 & H3)]]; [by destruct H, Hd| |].
    + simpl. exists s2. split_and!; [done..|]. right. split; [done|]. left. by rewrite H1.
    + destruct (Z.eqb_spec rc 0); [done|]. run. eexists. split; [done|].
      split; [apply sv_ok_st; auto|]. split; [done|]. right. split; [done|]. right. done.
  - eexists. split; [done|]. split; [exact Hok|]. split; [done|]. right. done.
  - exfalso. apply Hd. rewrite !orb_false_iff, negb_false_iff in E2. destruct E2 as [[E2 E3] E4].
    rewrite u64_small in E4 by lia. lia.
Qed.

(** What a client does between the ack and the launch: the payload goes to
    the staging area, the core may park meanwhile. *)
Definition staged_with (s : sv) (m : mem) (size : Z) (k : nat) : sv :=
  Sv (sv_apu s) (set_staged size (g_nb s)) (Es m (flushed (sv_es s))) k.
End supervisor.

(** admission decides.  For a request to run an image, [nb_admit]
    answers REJECT exactly without a PLM, OK when the core is free or parked,
    BUSY (with the time left) only within the run's limit, OVERTIME only past
    it and without FORCE, and calls the PLM only past the limit with FORCE,
    ending in OK with the core stopped or in STUCK with every stop refused.
    After OK the launch of any payload is never refused for want of the PLM
    or because the core is busy. *)
Theorem admission_decides plm XTime cps nb_park s cmd flags :
  1000 <= cps -> sv_ok s -> cmd = NETBOOT_CMD_LOAD_RUN \/ cmd = NETBOOT_CMD_RERUN ->
  exists s' ack msg,
    nb_admit plm XTime cps nb_park cmd flags s = (s', Ok (ack, msg)) /\
    admit_outcome XTime cps s s' flags ack /\ sv_es s' = sv_es s /\
    (ak_verdict ack = NETBOOT_ACK_OK ->
     forall m size k max_run_ms, mem_ok m -> 0 <= size <= NB_STAGING_SIZE -> is_u32 max_run_ms ->
     exists s2 rc place_ms msg2,
       nb_launch plm XTime cps nb_park max_run_ms 0 (staged_with s' m size k)
       = (s2, Ok (rc, place_ms, msg2)) /\ (rc = 0 \/ rc = -3 \/ rc = -4)).
Proof.
  intros HC Hok Hcmd.
  destruct (nb_admit_spec plm XTime cps nb_park s cmd flags Hok Hcmd)
    as (s' & ack & msg & E & Hok' & Ee & Er & Ho).
  exists s', ack, msg. split_and!; [done..|]. intros Hv m size k lim Hm Hsz Hl.
  assert (s_ready (sv_apu s') = true /\ core_view (sv_apu s') <> NETBOOT_CORE_BUSY) as [Hr Hb].
  { unfold admit_outcome in Ho. rewrite Hv in Ho.
    destruct Ho as [(? & _)|[(_ & H1 & H2 & H3 & _)|[(? & _)|[(? & _)|[(_ & H1 & _ & _ & _ & H2 & _)|(? & _)]]]]];
      try done.
    - by rewrite Er, H3.
    - split; [|intros [H _]%core_view_busy; congruence].
      rewrite Er. apply core_view_busy in H1 as [H1 _]. destruct Hok as ([Ha _] & _). by apply Ha. }
  assert (sv_ok (staged_with s' m size k)) as Hok2.
  { destruct Hok' as (Ha & _ & Hp & Hst & Hs0 & _ & Ht & Hrn). unfold sv_ok. simpl. split_and!; auto; lia. }
  destruct (nb_launch_spec plm XTime cps nb_park HC _ lim 0 Hok2 Hl) as (s2 & rc & pm & msg2 & E2 & _ & L).
  exists s2, rc, pm, msg2. split; [done|].
  destruct L as [(_ & H & _)|[(_ & H & _)|(am & _ & _ & [(-> & _)|(pl & _ & _ & _ & _ & _ & [(-> & _)|(-> & _)])])]];
    simpl in *; auto; congruence.
Qed.


(** C27: the watchdog.  It ends a run that has parked by recording the exit,
    never touches the core of a run within its limit (nor when the clock
    reads before the start), and past the limit either stops the core or
    records the timeout with the PLM's refusal. *)
Theorem watchdog_sound plm XTime cps s :
  1000 <= cps -> sv_ok s ->
  exists s', watchdog plm XTime cps s = (s', Ok tt) /\ sv_ok s' /\ sv_es s' = sv_es s /\
    let n := g_nb s in
    let live := nb_st n = NETBOOT_ST_RUNNING \/ nb_st n = NETBOOT_ST_TIMEOUT in
    ((live /\ parked (sv_apu s) = true /\ sv_apu s' = sv_apu s /\
      g_nb s' = set_nb_st NETBOOT_ST_EXITED n) \/
     (~ (live /\ parked (sv_apu s) = true) /\
      let now := ms_at XTime cps (sv_tick s) in
      if bool_decide (nb_st n = NETBOOT_ST_RUNNING /\ timeout_ms n < now - run_start_ms n)
      then (nb_st (g_nb s') = NETBOOT_ST_KILLED /\ s_powered (sv_apu s') = false) \/
           (nb_st (g_nb s') = NETBOOT_ST_TIMEOUT /\ s_powered (sv_apu s') = true /\
            s_can_stop (sv_apu s') = 0)
      else sv_apu s' = sv_apu s /\ g_nb s' = n)).
Proof. intros HC. by apply watchdog_spec. Qed.

(** ** Concrete runs *)

(** A platform manager that grants everything, one that refuses to stop the
    core, and a clock of one millisecond per reading. *)
Definition plm_grants (_ : list plm_call) (c : plm_call) : Z :=
  match c with XIpiPsu_LookupConfig => 1 | _ => 0 end.
Definition plm_refuses (_ : list plm_call) (c : plm_call) : Z :=
  match c with
  | XIpiPsu_LookupConfig => 1
  | XPm_ForcePowerDown => 2
  | XPm_ResetAssert _ _ => 2002
  | _ => 0
  end.
Definition demo_time (k : nat) : Z := Z.of_nat k.

Definition demo_es : es := Es (mem_of NB_STAGING_BASE (tiny_elf 0x1000 4 4096 [1; 2; 3; 4])) [].
(** The supervisor with [st], a file staged, a run of at most [limit] ms. *)
Definition demo_sv (powered : bool) (st limit : Z) (k : nat) : sv :=
  Sv (Apu true powered STOP_NONE 2 (Mbox 0 0 0 0) []) (Nb st 124 0x1000 0 limit 1) demo_es k.

Lemma demo_es_ok : mem_ok (em demo_es).
Proof. by apply mem_of_ok. Qed.

Lemma demo_sv_ok powered st limit k :
  (powered = true <-> st = 1 \/ st = 3 \/ st = 4) -> 0 <= st <= 4 -> is_u32 limit ->
  sv_ok (demo_sv powered st limit k).
Proof.
  intros Hp Hst Hl. split_and!; simpl; auto; try lia; try (unfold is_u32, is_u64, NB_STAGING_SIZE, NB_STAGING_BASE; lia).
  - split; [done|]. auto.
  - apply demo_es_ok.
Qed.

(** A client that forces out an application past its limit gets the core. *)
Lemma admission_decides_witness :
  let s := demo_sv true NETBOOT_ST_RUNNING 100 500 in
  (1000 <= 1000 /\ sv_ok s) /\
  exists s' ack msg,
    nb_admit plm_grants demo_time 1000 0x78001000 NETBOOT_CMD_LOAD_RUN NETBOOT_F_FORCE s = (s', Ok (ack, msg)) /\
    ak_verdict ack = NETBOOT_ACK_OK /\ nb_st (g_nb s') = NETBOOT_ST_KILLED.
Proof.
  set (s := demo_sv _ _ _ _). cbv zeta.
  assert (sv_ok s) as Hok by (apply demo_sv_ok; unfold is_u32, NETBOOT_ST_RUNNING; [split; auto|lia|lia]).
  split; [split; [lia|done]|].
  destruct (admission_decides plm_grants demo_time 1000 0x78001000 s NETBOOT_CMD_LOAD_RUN NETBOOT_F_FORCE)
    as (s' & ack & msg & E & _); [lia|done|by left|].
  set (r := nb_admit plm_grants demo_time 1000 0x78001000 NETBOOT_CMD_LOAD_RUN NETBOOT_F_FORCE s) in *.
  assert (match r.2 with Ok (ack, _) => ak_verdict ack | Err _ => 1 end = NETBOOT_ACK_OK) as Hv
    by (vm_compute; reflexivity).
  assert (nb_st (g_nb r.1) = NETBOOT_ST_KILLED) as Hk by (vm_compute; reflexivity).
  rewrite E in Hv, Hk. by exists s', ack, msg.
Defined.


Lemma watchdog_sound_witness :
  let s := demo_sv true NETBOOT_ST_RUNNING 100 500 in
  (1000 <= 1000 /\ sv_ok s) /\
  exists s', watchdog plm_refuses demo_time 1000 s = (s', Ok tt) /\
    nb_st (g_nb s') = NETBOOT_ST_TIMEOUT.
Proof.
  set (s := demo_sv _ _ _ _). cbv zeta.
  assert (sv_ok s) as Hok by (apply demo_sv_ok; unfold is_u32, NETBOOT_ST_RUNNING; [split; auto|lia|lia]).
  split; [split; [lia|done]|].
  destruct (watchdog_sound plm_refuses demo_time 1000 s) as (s' & E & _); [lia|done|].
  exists s'. split; [done|]. assert ((watchdog plm_refuses demo_time 1000 s).1 = s') as <- by (by rewrite E).
  vm_compute. reflexivity.
Defined.

(** the parked flag outlives the run that set it.  When an application
    parks and is then killed by the client before the watchdog looks,
    [apu_kill] clears [s_powered] only; the next launch wakes the core through
    the PLM without clearing [nb_mbox.state], so the new run counts as parked
    the moment it starts: the watchdog records an exit and the next
    LOAD_RUN is admitted, unforced, over a running application. *)
Theorem stale_parked_flag :
  let run := demo_sv true NETBOOT_ST_RUNNING 1000 5 in
  let parks := Sv (core_parks 0 (sv_apu run)) (g_nb run) (sv_es run) (sv_tick run) in
  let killed := (nb_kill plm_grants demo_time 1000 parks).1 in
  let launched := nb_launch plm_grants demo_time 1000 0x78001000 1000 0 killed in
  let watched := (watchdog plm_grants demo_time 1000 launched.1).1 in
  let again := (nb_admit plm_grants demo_time 1000 0x78001000 NETBOOT_CMD_LOAD_RUN 0 watched).2 in
  nb_st (g_nb killed) = NETBOOT_ST_KILLED /\
  nb_st (g_nb launched.1) = NETBOOT_ST_RUNNING /\
  plm_log (sv_apu launched.1) = [XPm_ForcePowerDown; XPm_RequestWakeUp 0x1000] /\
  parked (sv_apu launched.1) = true /\
  nb_st (g_nb watched) = NETBOOT_ST_EXITED /\
  match again with Ok (ack, _) => ak_verdict ack = NETBOOT_ACK_OK | Err _ => False end.
Proof. cbv zeta. split_and!; vm_compute; reflexivity. Qed.
