(* ===== verification/Server.v ===== *)
(** * The netboot server ([src/src/tool/netboot/supervisor/server.c], [main])

    One TCP request at a time: lwIP's callbacks collect the 64-byte header
    and stream the payload into the staging area, and the main loop answers
    (admission ack, reply) and acts.  lwIP itself is not part of the
    repository: its callbacks are the operations' inputs, what the code sends
    is a log, and the result of [tcp_close] is a parameter.  The texts'
    rendering and the length field that goes with it are left out. *)

From stdpp Require Import base list list_numbers numbers gmap.
From S2P Require Import Prelude Sha256 ElfLoad Apu Supervisor.

Local Open Scope Z_scope.
Local Open Scope c_scope.

(** ** State *)

Definition NETBOOT_REQ_MAGIC : Z := 0x3154424E.
Definition NETBOOT_REP_MAGIC : Z := 0x3152424E.
Definition NETBOOT_VERSION : Z := 2.
Definition sizeof_req : Z := 64.

(** [struct conn]; [req] is the raw header. *)
Record conn := Conn {
  pcb : option Z;
  req : list Z;
  hdr_got : Z;
  payload_got : Z;
  t_first_ms : Z;
  ready : bool;
  acked : bool }.

Definition req_magic (r : list Z) : Z := ld32 r 0.
Definition req_version (r : list Z) : Z := ld32 r 4.
Definition req_cmd (r : list Z) : Z := ld32 r 8.
Definition req_flags (r : list Z) : Z := ld32 r 12.
Definition req_elf_size (r : list Z) : Z := ld64 r 16.
Definition req_max_run_ms (r : list Z) : Z := ld32 r 24.
Definition req_sha256 (r : list Z) : list Z := slice r 32 32.

Record netboot_rep := Rep {
  rp_magic : Z; rp_rc : Z; rp_bytes_rx : Z; rp_rx_ms : Z; rp_place_ms : Z;
  rp_entry : Z; rp_state : Z; rp_run_ms : Z; rp_runs : Z }.

(** What goes out on a connection. *)
Inductive tcp_out :=
| OutAck (p : Z) (a : netboot_ack) (m : nb_msg)
| OutRep (p : Z) (r : netboot_rep) (m : nb_msg)
| OutClose (p : Z)
| OutAbort (p : Z).

Record srv := Srv { sup : sv; s_c : conn; s_busy : bool; out : list tcp_out }.

Definition conn0 : conn := Conn None (replicate 64 0) 0 0 0 false false.

Definition conn_reset (s : srv) : srv := Srv (sup s) conn0 false (out s).

Definition set_conn (c : conn) (s : srv) : srv := Srv (sup s) c (s_busy s) (out s).
Definition emit (o : tcp_out) (s : srv) : srv := Srv (sup s) (s_c s) (s_busy s) (out s ++ [o]).

(** [memcpy] from a packet buffer into memory. *)
Definition mblit (m : mem) (dst : Z) (src : list Z) : mem :=
  fun a => if in_span a dst (len src) then rd src (a - dst) else m a.

Definition bytes_at (m : mem) (a n : Z) : list Z := m <$> seqZ a n.

Definition set_em (m : mem) (s : sv) : sv :=
  Sv (sv_apu s) (g_nb s) (Es m (flushed (sv_es s))) (sv_tick s).

(** ** Receiving *)

(** The part of one packet buffer that belongs to the header. *)
Definition recv_header (c : conn) (src : list Z) : conn * list Z :=
  if hdr_got c <? sizeof_req then
    let room := sizeof_req - hdr_got c in
    let take_ := if room <? len src then room else len src in
    (Conn (pcb c) (blit (req c) (hdr_got c) (take (Z.to_nat take_) src)) (hdr_got c + take_)
       (payload_got c) (t_first_ms c) (ready c) (acked c),
     drop (Z.to_nat take_) src)
  else (c, src).

(** The rest, when it is an upload's payload. *)
Definition recv_payload (c : conn) (m : mem) (src : list Z) : conn * mem :=
  if negb (len src =? 0) && (hdr_got c =? sizeof_req) && (req_cmd (req c) =? NETBOOT_CMD_LOAD_RUN) then
    let room := req_elf_size (req c) -u64 payload_got c in
    let take_ := u32 (if len src <? room then len src else room) in
    (Conn (pcb c) (req c) (hdr_got c) (payload_got c +u64 take_) (t_first_ms c) (ready c) (acked c),
     if req_elf_size (req c) <=? NB_STAGING_SIZE
     then mblit m (NB_STAGING_BASE + payload_got c) (take (Z.to_nat take_) src) else m)
  else (c, m).

Definition recv_pbuf (src : list Z) (cm : conn * mem) : conn * mem :=
  let '(c, src) := recv_header cm.1 src in recv_payload c cm.2 src.

Definition complete (c : conn) : bool :=
  (hdr_got c =? sizeof_req)
  && (negb (req_cmd (req c) =? NETBOOT_CMD_LOAD_RUN) || (req_elf_size (req c) <=? payload_got c)
      || (NB_STAGING_SIZE <? req_elf_size (req c))).

Section server.
Context (plm : list plm_call -> plm_call -> Z).
Context (XTime : nat -> Z) (COUNTS_PER_SECOND : Z).
Context (nb_park : Z).
Context (tcp_close : list tcp_out -> Z -> Z).

Abbreviation M := (stE srv stop).
Abbreviation ms := (ms_at XTime COUNTS_PER_SECOND).

(** A supervisor operation, a clock reading. *)
Definition on_sv {A} (m : stE sv stop A) : M A := fun s =>
  let '(v, r) := m (sup s) in (Srv v (s_c s) (s_busy s) (out s), r).
Definition busy : M bool := gets s_busy.
Definition now_ms : M Z := on_sv (nb_now_ms XTime COUNTS_PER_SECOND).

Definition close_pcb (p : Z) : M unit :=
  o ← gets out;
  modify (emit (OutClose p)) ;;
  when (negb (tcp_close o p =? 0)) (modify (emit (OutAbort p))).

Definition send_ack (p : Z) (a : netboot_ack) (m : nb_msg) : M unit := modify (emit (OutAck p a m)).

Definition reply (rc rx_ms place_ms : Z) (msg : nb_msg) : M unit :=
  n ← gets (fun s => g_nb (sup s));
  run_ms ← (if nb_st n =? NETBOOT_ST_RUNNING then t ← now_ms; mret (u32 (t - run_start_ms n)) else mret 0);
  c ← gets s_c;
  (match pcb c with
   | Some p =>
     modify (emit (OutRep p (Rep NETBOOT_REP_MAGIC rc (payload_got c) rx_ms place_ms (nb_entry n)
                               (nb_st n) run_ms (runs n)) msg)) ;;
     close_pcb p
   | None => mret tt
   end) ;;
  modify conn_reset.

Definition on_err : M unit := modify conn_reset.

(** [header_ok]: the message when the header is refused. *)
Definition header_ok (r : list Z) : option nb_msg :=
  if negb (req_magic r =? NETBOOT_REQ_MAGIC) || (req_version r <? 1) || (NETBOOT_VERSION <? req_version r)
  then Some MBadMagic
  else if (req_cmd r =? NETBOOT_CMD_LOAD_RUN)
          && ((req_elf_size r =? 0) || (NB_STAGING_SIZE <? req_elf_size r))
  then Some (MElfSize (req_elf_size r))
  else None.

(** [t_first_ms]: the time of the first bytes. *)
Definition stamp_first : M unit :=
  c ← gets s_c;
  when (t_first_ms c =? 0)
    (t ← now_ms;
     modify (set_conn (Conn (pcb c) (req c) (hdr_got c) (payload_got c) t (ready c) (acked c)))).

(** [on_recv] with the chain of packet buffers, [None] when the peer
    closed. *)
Definition on_recv (p : Z) (chain : option (list (list Z))) : M unit :=
  match chain with
  | None =>
    c ← gets s_c;
    when (negb (ready c)) ((modify (emit (OutClose p)) : M unit) ;; modify conn_reset)
  | Some q =>
    stamp_first ;;
    modify (fun s =>
      let '(c, m) := foldl (fun cm src => recv_pbuf src cm) (s_c s, em (sv_es (sup s))) q in
      Srv (set_em m (sup s)) c (s_busy s) (out s)) ;;
    modify (fun s =>
      let c := s_c s in
      set_conn (Conn (pcb c) (req c) (hdr_got c) (payload_got c) (t_first_ms c)
                  (complete c || ready c) (acked c)) s)
  end.

Definition refuse_serving (p : Z) : M unit :=
  ack ← on_sv (nb_fill_ack XTime COUNTS_PER_SECOND nb_park);
  c ← gets s_c;
  age ← (if negb (t_first_ms c =? 0) then t ← now_ms; mret (u64 (t - t_first_ms c)) else mret 0);
  send_ack p (set_retry 500 (set_verdict NETBOOT_ACK_SERVING ack)) (MServing age) ;;
  close_pcb p.

(** [on_accept] of a connection that lwIP delivers without error. *)
Definition on_accept (p : Z) : M unit :=
  b ← busy;
  if (b : bool) then refuse_serving p
  else modify (fun s => Srv (sup s) (Conn (Some p) (replicate 64 0) 0 0 0 false false) true (out s)).

(** ** The main loop's work *)

Definition handle_load_run (rx_ms : Z) : M unit :=
  c ← gets s_c;
  m ← gets (fun s => em (sv_es (sup s)));
  let n := req_elf_size (req c) in
  match nb_sha256 (Z.to_nat (n / 64 + 1)) (bytes_at m NB_STAGING_BASE n) n with
  | None => throw NoFuel
  | Some digest =>
    if negb (bool_decide (digest = req_sha256 (req c))) then reply (-2) rx_ms 0 MShaMismatch
    else
      on_sv (on_nb (set_staged n)) ;;
      '(rc, place_ms, msg) ← on_sv (nb_launch plm XTime COUNTS_PER_SECOND nb_park (req_max_run_ms (req c)) 0);
      reply rc rx_ms place_ms msg
  end.

(** The verdict of [admit]. *)
Definition admit_verdict (r : list Z) : M (netboot_ack * nb_msg) :=
  match header_ok r with
  | Some msg =>
    ack ← on_sv (nb_fill_ack XTime COUNTS_PER_SECOND nb_park);
    mret (set_verdict NETBOOT_ACK_REJECT ack, msg)
  | None => on_sv (nb_admit plm XTime COUNTS_PER_SECOND nb_park (req_cmd r) (req_flags r))
  end.

(** [admit]: whether the request goes on. *)
Definition server_admit : M bool :=
  c ← gets s_c;
  '(ack, msg) ← admit_verdict (req c);
  let p := default 0 (pcb c) in
  send_ack p ack msg ;;
  modify (fun s => let c := s_c s in
    set_conn (Conn (pcb c) (req c) (hdr_got c) (payload_got c) (t_first_ms c) (ready c) true) s) ;;
  if ak_verdict ack =? NETBOOT_ACK_OK then
    t ← now_ms;
    modify (fun s => let c := s_c s in
      set_conn (Conn (pcb c) (req c) (hdr_got c) (payload_got c) t (ready c) (acked c)) s) ;;
    mret true
  else
    close_pcb p ;; modify conn_reset ;; mret false.

Definition serve_request (c : conn) : M unit :=
  match header_ok (req c) with
  | Some msg => reply (-1) 0 0 msg
  | None =>
    t ← now_ms;
    let rx_ms := u32 (t - t_first_ms c) in
    let cmd := req_cmd (req c) in
    if cmd =? NETBOOT_CMD_LOAD_RUN then handle_load_run rx_ms
    else if cmd =? NETBOOT_CMD_RERUN then
      staged ← gets (fun s => staged_size (g_nb (sup s)));
      '(rc, place_ms, msg) ←
        (if negb (staged =? 0)
         then on_sv (nb_launch plm XTime COUNTS_PER_SECOND nb_park (req_max_run_ms (req c)) 0)
         else mret (-3, 0, MEmpty));
      staged ← gets (fun s => staged_size (g_nb (sup s)));
      reply rc 0 place_ms (if negb (staged =? 0) then msg else MNothingStaged)
    else if cmd =? NETBOOT_CMD_KILL then
      rc ← on_sv (nb_kill plm XTime COUNTS_PER_SECOND);
      reply rc 0 0 MPoweredDown
    else if cmd =? NETBOOT_CMD_STATUS then
      a ← gets (fun s => sv_apu (sup s));
      n ← gets (fun s => g_nb (sup s));
      ran ← ((if negb (parked a) && apu_busy a && negb (runs n =? 0)
              then t ← now_ms; mret (Some (runs n, u64 (t - run_start_ms n), timeout_ms n))
              else mret None) : M (option (Z * Z * Z)));
      reply 0 0 0 (MStatus (apu_available a) (staged_size n) (apu_parked a) (apu_busy a) ran)
    else reply (-1) 0 0 MUnknownCmd
  end.

Definition server_poll : M unit :=
  b ← busy;
  if negb b then mret tt
  else
    c ← gets s_c;
    go ← (if negb (acked c) && (hdr_got c =? sizeof_req) && (2 <=? req_version (req c))
          then server_admit else mret true);
    if negb go then mret tt
    else
      c ← gets s_c;
      if negb (ready c) then mret tt else serve_request c.
End server.

(** ** Reassembly *)

(** The request as the client sent it, cut where TCP pleased: its header and
    the part of the payload that is stored. *)
Definition st_header (st : list Z) : list Z := take 64 st.
Definition st_upload (st : list Z) : bool :=
  (64 <=? len st) && (req_cmd (st_header st) =? NETBOOT_CMD_LOAD_RUN).
Definition st_payload (st : list Z) : Z := Z.min (req_elf_size (st_header st)) (len st - 64).
Definition st_complete (st : list Z) : bool :=
  (64 <=? len st)
  && (negb (req_cmd (st_header st) =? NETBOOT_CMD_LOAD_RUN)
      || (req_elf_size (st_header st) <=? len st - 64)
      || (NB_STAGING_SIZE <? req_elf_size (st_header st))).
(** Memory once [st] has arrived over [m]. *)
Definition st_mem (st : list Z) (m : mem) : mem := fun a =>
  if st_upload st && (req_elf_size (st_header st) <=? NB_STAGING_SIZE)
     && in_span a NB_STAGING_BASE (st_payload st)
  then rd st (64 + (a - NB_STAGING_BASE)) else m a.

Definition stream_inv (m0 : mem) (st : list Z) (cm : conn * mem) : Prop :=
  let c := cm.1 in
  length (req c) = 64%nat /\
  hdr_got c = Z.min 64 (len st) /\
  take (Z.to_nat (hdr_got c)) (req c) = take 64 st /\
  payload_got c = (if st_upload st then st_payload st else 0) /\
  (forall a, cm.2 a = st_mem st m0 a).

Lemma st_header_app st src : 64 <= len st -> st_header (st ++ src) = st_header st.
Proof. intros H. unfold st_header. apply take_app_le. unfold len in *. lia. Qed.

Lemma elf_size_range st : bytes_ok st -> is_u64 (req_elf_size (st_header st)).
Proof. intros H. apply ld64_range. by apply Forall_take. Qed.

Lemma rd_drop l n i : 0 <= i -> rd (drop n l) i = rd l (Z.of_nat n + i).
Proof. intros. unfold rd. rewrite lookup_drop. do 2 f_equal. lia. Qed.

(** A header in place: the payload part of one packet buffer. *)
Lemma recv_payload_inv m0 st src c m :
  64 <= len st -> bytes_ok st -> len src < 2 ^ 32 ->
  stream_inv m0 st (c, m) -> stream_inv m0 (st ++ src) (recv_payload c m src).
Proof.
  intros Hl Hb Hs (Hlen & Hh & Hreq & Hp & Hm). simpl in *.
  rewrite Z.min_l in Hh by lia. rewrite Hh in Hreq.
  assert (req c = st_header st) as Er.
  { unfold st_header. rewrite <- Hreq, take_ge; [done|]. rewrite Hlen. done. }
  pose proof (elf_size_range st Hb) as Re. unfold is_u64 in Re.
  unfold recv_payload. rewrite Hh, Er. change (64 =? sizeof_req) with true. rewrite andb_true_r.
  assert (st_upload st = (req_cmd (st_header st) =? NETBOOT_CMD_LOAD_RUN)) as Eu.
  { unfold st_upload. by replace (64 <=? len st) with true by lia. }
  assert (st_upload (st ++ src) = st_upload st) as Eu'.
  { unfold st_upload. rewrite st_header_app by lia. rewrite len_app.
    pose proof (len_nonneg src). by replace (64 <=? len st + len src) with (64 <=? len st) by lia. }
  rewrite <- Eu. pose proof (len_nonneg src) as Hsn.
  destruct (Z.eqb_spec (len src) 0) as [E0|E0]; cbn [negb andb].
  { assert (src = []) as -> by (destruct src; [done|rewrite len_cons in E0; pose proof (len_nonneg src); lia]).
    rewrite app_nil_r. unfold stream_inv. simpl. rewrite Hh. by rewrite Z.min_l by lia. }
  destruct (st_upload st) eqn:Ec; cycle 1.
  { unfold stream_inv. simpl. rewrite Eu', Hh, len_app, Z.min_l, Hp by lia.
    rewrite take_app_le by (unfold len in *; lia). split_and!; auto.
    intros a. rewrite Hm. unfold st_mem. by rewrite Eu', Ec. }
  rewrite Hp. unfold st_payload in *. set (z := req_elf_size (st_header st)) in *.
  assert (0 <= Z.min z (len st - 64) <= z) as Hz by lia.
  rewrite (u64_small (z - _)) by lia.
  set (room := z - Z.min z (len st - 64)).
  set (t := if len src <? room then len src else room).
  assert (t = Z.min (len src) room) as Et by (unfold t; destruct (Z.ltb_spec (len src) room); lia).
  rewrite (u32_small t), u64_small by lia.
  unfold stream_inv. simpl. rewrite Eu', len_app, (Z.min_l 64) by lia.
  rewrite take_app_le by (unfold len in *; lia). unfold st_payload. rewrite st_header_app, len_app by lia.
  fold z. split_and!; auto.
  - by rewrite <- Er.
  - by rewrite <- Er.
  - lia.
  - intros a. unfold st_mem. rewrite Eu', st_header_app by lia. unfold st_payload.
    rewrite st_header_app, len_app by lia. fold z. cbn [andb].
    assert (m a = if (z <=? NB_STAGING_SIZE) && in_span a NB_STAGING_BASE (Z.min z (len st - 64))
                  then rd st (64 + (a - NB_STAGING_BASE)) else m0 a) as Ea.
    { rewrite Hm. unfold st_mem, st_payload. rewrite Ec. done. }
    destruct (z <=? NB_STAGING_SIZE) eqn:Ez; cbn [andb] in *; [|done].
    unfold mblit. assert (len (take (Z.to_nat t) src) = t) as Elt.
    { unfold len in *. rewrite length_take. lia. }
    rewrite Elt.
    destruct (in_span a (NB_STAGING_BASE + Z.min z (len st - 64)) t) eqn:E1.
    + apply in_span_true in E1. replace (in_span a NB_STAGING_BASE _) with true
        by (symmetry; apply in_span_true; lia).
      rewrite rd_take by lia. unfold rd. rewrite lookup_app_r by (unfold len in *; lia).
      do 2 f_equal. unfold len in *. lia.
    + apply not_true_iff_false in E1. rewrite in_span_true in E1. rewrite Ea.
      destruct (in_span a NB_STAGING_BASE (Z.min z (len st - 64))) eqn:E2.
      * apply in_span_true in E2. replace (in_span a NB_STAGING_BASE _) with true
          by (symmetry; apply in_span_true; lia).
        by rewrite rd_app_l by lia.
      * apply not_true_iff_false in E2. rewrite in_span_true in E2.
        replace (in_span a NB_STAGING_BASE _) with false
          by (symmetry; apply not_true_iff_false; rewrite in_span_true; lia). done.
Qed.

Lemma in_span_empty a lo : in_span a lo 0 = false.
Proof. unfold in_span. lia. Qed.

Lemma st_mem_header st m a : len st <= 64 -> st_mem st m a = m a.
Proof.
  intros H. unfold st_mem, st_upload, st_payload.
  destruct (Z.leb_spec 64 (len st)); [|done]. replace (len st - 64) with 0 by lia.
  destruct (in_span _ _ _) eqn:E; [|by rewrite andb_false_r].
  apply in_span_true in E. lia.
Qed.

Lemma st_payload_header st :
  bytes_ok st -> len st <= 64 -> (if st_upload st then st_payload st else 0) = 0.
Proof.
  intros Hb H. pose proof (elf_size_range st Hb) as R. unfold is_u64 in R. unfold st_upload, st_payload.
  destruct (Z.leb_spec 64 (len st)); [|done]. destruct (_ =? _); simpl; lia.
Qed.

(** The header part of one packet buffer. *)
Lemma recv_header_inv m0 st src c m :
  len st < 64 -> bytes_ok (st ++ src) -> stream_inv m0 st (c, m) ->
  let t := Z.to_nat (Z.min (64 - len st) (len src)) in
  (recv_header c src).2 = drop t src /\
  stream_inv m0 (st ++ take t src) ((recv_header c src).1, m).
Proof.
  intros Hl Hb (Hlen & Hh & Hreq & Hp & Hm). simpl in *.
  rewrite Z.min_r in Hh by lia. unfold recv_header. rewrite Hh. unfold sizeof_req.
  destruct (Z.ltb_spec (len st) 64); [|lia].
  pose proof (len_nonneg src). pose proof (len_nonneg st).
  set (t := if 64 - len st <? len src then 64 - len st else len src).
  assert (t = Z.min (64 - len st) (len src)) as Etm
    by (unfold t; destruct (Z.ltb_spec (64 - len st) (len src)); lia).
  rewrite <- Etm. split; [done|]. unfold stream_inv. simpl.
  assert (len (take (Z.to_nat t) src) = t) as Et by (unfold len in *; rewrite length_take; lia).
  assert (bytes_ok (st ++ take (Z.to_nat t) src)) as Hb'.
  { apply Forall_app in Hb as [? ?]. apply Forall_app; split; [done|by apply Forall_take]. }
  assert (len (st ++ take (Z.to_nat t) src) = len st + t) as El by (by rewrite len_app, Et).
  rewrite El, st_payload_header by (done || lia).
  split_and!.
  - by rewrite length_blit.
  - lia.
  - rewrite (take_ge (st ++ _)) by (unfold len in *; lia).
    rewrite (take_ge st) in Hreq by (unfold len in *; lia). rewrite Hh in Hreq.
    assert (Hfull : take (Z.to_nat (len st)) (blit (req c) (len st) (take (Z.to_nat t) src)) = st).
    { rewrite <- Hreq at 3. apply list_eq. intros i.
      destruct (decide (i < Z.to_nat (len st))%nat).
      - rewrite !lookup_take_lt by lia.
        replace i with (Z.to_nat (Z.of_nat i)) by lia. apply blit_outside; lia.
      - rewrite !lookup_ge_None_2; [done|rewrite length_take; lia..]. }
    pose proof (slice_blit (req c) (len st) (take (Z.to_nat t) src)) as Hsl.
    rewrite Et in Hsl. unfold slice in Hsl.
    replace (Z.to_nat (len st + t)) with (Z.to_nat (len st) + Z.to_nat t)%nat by lia.
    rewrite <- take_take_drop, Hfull, Hsl; [done|lia|unfold len in *; lia].
  - rewrite Hp. apply st_payload_header; [by apply Forall_app in Hb as [? _]|lia].
  - intros a. rewrite st_mem_header by lia. rewrite Hm. apply st_mem_header. lia.
Qed.

Lemma recv_pbuf_inv m0 st src cm :
  bytes_ok (st ++ src) -> len src < 2 ^ 32 ->
  stream_inv m0 st cm -> stream_inv m0 (st ++ src) (recv_pbuf src cm).
Proof.
  intros Hb Hs Hinv. destruct cm as [c m]. pose proof Hb as [Hb1 Hb2]%Forall_app.
  unfold recv_pbuf. simpl. destruct (decide (64 <= len st)) as [Hl|Hl].
  - assert (recv_header c src = (c, src)) as ->.
    { unfold recv_header, sizeof_req. destruct Hinv as (_ & Eh & _). simpl in Eh. rewrite Eh.
      destruct (Z.ltb_spec (Z.min 64 (len st)) 64); [lia|done]. }
    by apply recv_payload_inv.
  - pose proof (recv_header_inv m0 st src c m) as [E H]; [lia|done..|].
    set (t := Z.to_nat _) in *. destruct (recv_header c src) as [c1 rest]. simpl in E, H. subst rest.
    pose proof (len_nonneg src). pose proof (len_nonneg st).
    assert (len (take t src) = Z.min (64 - len st) (len src)) as Et
      by (unfold t, len in *; rewrite length_take; lia).
    assert (bytes_ok (st ++ take t src)) by (apply Forall_app; split; [done|by apply Forall_take]).
    destruct (decide (len st + len src < 64)) as [Hc|Hc].
    + assert (drop t src = [] /\ take t src = src) as [-> E2].
      { split; [apply drop_ge|apply take_ge]; unfold t, len in *; lia. }
      rewrite E2 in H. unfold recv_payload. by rewrite len_nil.
    + rewrite <- (take_drop t src) at 1. rewrite app_assoc. apply recv_payload_inv; [|done| |done].
      * rewrite len_app. lia.
      * unfold len in *. rewrite length_drop. lia.
Qed.

Lemma complete_stream m0 st cm :
  bytes_ok st -> stream_inv m0 st cm -> complete cm.1 = st_complete st.
Proof.
  intros Hb (Hlen & Hh & Hreq & Hp & _). unfold complete, st_complete, sizeof_req. rewrite Hh.
  destruct (Z.leb_spec 64 (len st)) as [Hl|Hl]; [|by replace (Z.min 64 (len st) =? 64) with false by lia].
  replace (Z.min 64 (len st) =? 64) with true by lia.
  assert (req cm.1 = st_header st) as ->.
  { unfold st_header. rewrite <- Hreq, Hh, take_ge; [done|]. rewrite Hlen. lia. }
  rewrite Hp. unfold st_upload, st_payload. replace (64 <=? len st) with true by lia. cbn [andb].
  destruct (_ =? NETBOOT_CMD_LOAD_RUN); cbn [negb orb]; [|done].
  f_equal. pose proof (elf_size_range st Hb) as R. unfold is_u64 in R. lia.
Qed.

Lemma st_complete_app st src :
  bytes_ok st -> st_complete st = true -> st_complete (st ++ src) = true.
Proof.
  intros Hb H. unfold st_complete in *. apply andb_true_iff in H as [H1 H2].
  rewrite st_header_app, len_app by lia. pose proof (len_nonneg src).
  apply andb_true_iff. split; [lia|]. rewrite !orb_true_iff in *. lia.
Qed.

Section receiving.
Context (XTime : nat -> Z) (cps : Z).

(** The server while request [st] arrives on connection [p], over memory
    [m0]. *)
Definition receiving (p : Z) (m0 : mem) (st : list Z) (s : srv) : Prop :=
  stream_inv m0 st (s_c s, em (sv_es (sup s))) /\ ready (s_c s) = st_complete st /\
  pcb (s_c s) = Some p.

Definition same_but_memory (s s' : srv) : Prop :=
  sv_apu (sup s') = sv_apu (sup s) /\ g_nb (sup s') = g_nb (sup s) /\
  flushed (sv_es (sup s')) = flushed (sv_es (sup s)) /\ s_busy s' = s_busy s /\ out s' = out s /\
  acked (s_c s') = acked (s_c s).

Lemma recv_chain_inv m0 q st cm :
  bytes_ok (st ++ concat q) -> Forall (fun b => len b < 2 ^ 16) q -> stream_inv m0 st cm ->
  let cm' := foldl (fun cm src => recv_pbuf src cm) cm q in
  stream_inv m0 (st ++ concat q) cm' /\ pcb cm'.1 = pcb cm.1 /\ acked cm'.1 = acked cm.1 /\
  t_first_ms cm'.1 = t_first_ms cm.1 /\ ready cm'.1 = ready cm.1.
Proof using.
  revert st cm. induction q as [|src q IH]; intros st cm Hb Hl Hinv; simpl.
  { by rewrite app_nil_r. }
  apply Forall_cons in Hl as [Hl1 Hl2]. simpl in Hb. rewrite app_assoc in Hb.
  pose proof Hb as [Hb1 _]%Forall_app.
  pose proof (recv_pbuf_inv m0 st src cm Hb1 ltac:(lia) Hinv) as H1.
  destruct (IH (st ++ src) _ Hb Hl2 H1) as (H2 & H3 & H4 & H5 & H6).
  rewrite <- app_assoc in H2. split; [done|]. rewrite H3, H4, H5, H6.
  unfold recv_pbuf, recv_header, recv_payload. destruct cm as [c m]. simpl.
  repeat case_match; simplify_eq/=; done.
Qed.

Lemma stamp_first_spec s :
  exists t k, stamp_first XTime cps s =
    (Srv (Sv (sv_apu (sup s)) (g_nb (sup s)) (sv_es (sup s)) k)
       (Conn (pcb (s_c s)) (req (s_c s)) (hdr_got (s_c s)) (payload_got (s_c s)) t (ready (s_c s))
          (acked (s_c s))) (s_busy s) (out s), Ok tt).
Proof using.
  unfold stamp_first, mbind, stE_bind, gets, when. destruct (_ =? 0).
  - exists (ms_at XTime cps (sv_tick (sup s))), (S (sv_tick (sup s))). done.
  - exists (t_first_ms (s_c s)), (sv_tick (sup s)). by destruct s as [[] []].
Qed.

Lemma on_recv_inv p m0 q st s :
  bytes_ok (st ++ concat q) -> Forall (fun b => len b < 2 ^ 16) q -> receiving p m0 st s ->
  exists s', on_recv XTime cps p (Some q) s = (s', Ok tt) /\
    receiving p m0 (st ++ concat q) s' /\ same_but_memory s s'.
Proof using.
  intros Hb Hl (Hinv & Hr & Hp). unfold on_recv.
  destruct (stamp_first_spec s) as (t & k & E). rewrite (bind_Ok _ _ _ _ _ E). clear E.
  unfold mbind, stE_bind, modify. cbn beta iota. cbn [s_c sup sv_es].
  set (c1 := Conn _ _ _ _ t _ _). set (m1 := em (sv_es (sup s))).
  assert (stream_inv m0 st (c1, m1)) as H1 by done.
  destruct (recv_chain_inv m0 q st (c1, m1) Hb Hl H1) as (H2 & H3 & H4 & H5 & H6).
  destruct (foldl _ (c1, m1) q) as [c2 m2]. simpl in H3, H4, H5, H6.
  eexists. split; [done|]. split; [|done]. unfold receiving. simpl.
  split; [done|]. split; [|by rewrite H3].
  pose proof (complete_stream m0 (st ++ concat q) (c2, m2) Hb H2) as Ecc. simpl in Ecc.
  rewrite Ecc, H6. unfold c1. simpl. rewrite Hr.
  destruct (st_complete st) eqn:Ec; [|by rewrite orb_false_r].
  rewrite st_complete_app; [done| |done]. by apply Forall_app in Hb as [? _].
Qed.

Lemma receiving_start p s :
  receiving p (em (sv_es (sup s))) []
    (Srv (sup s) (Conn (Some p) (replicate 64 0) 0 0 0 false false) true (out s)).
Proof using.
  split; [|done]. split_and!; try done.
Qed.
End receiving.

(** C15: reassembly.  However TCP cuts a request into callbacks and packet
    buffers, once the bytes [st] have arrived on a fresh connection the
    server holds the first 64 of them as the header and, for an upload that
    fits, the following [elf_size] at the start of the staging area; every
    other byte of memory is untouched (surplus bytes and uploads that do not
    fit are dropped), and the request counts as ready exactly when it is
    complete. *)
Theorem recv_reassembles XTime cps p chains s :
  let st := concat (concat chains) in
  bytes_ok st -> Forall (Forall (fun b => len b < 2 ^ 16)) chains ->
  let s0 := Srv (sup s) (Conn (Some p) (replicate 64 0) 0 0 0 false false) true (out s) in
  exists s', forM chains (fun q => on_recv XTime cps p (Some q)) s0 = (s', Ok tt) /\
    hdr_got (s_c s') = Z.min 64 (len st) /\
    take (Z.to_nat (hdr_got (s_c s'))) (req (s_c s')) = take 64 st /\
    ready (s_c s') = st_complete st /\
    (forall a, em (sv_es (sup s')) a = st_mem st (em (sv_es (sup s))) a) /\
    same_but_memory s0 s'.
Proof.
  intros st Hb Hl s0.
  assert (forall cs st0 s1, bytes_ok (st0 ++ concat (concat cs)) -> Forall (Forall (fun b => len b < 2 ^ 16)) cs ->
    receiving p (em (sv_es (sup s))) st0 s1 ->
    exists s', forM cs (fun q => on_recv XTime cps p (Some q)) s1 = (s', Ok tt) /\
      receiving p (em (sv_es (sup s))) (st0 ++ concat (concat cs)) s' /\ same_but_memory s1 s') as H.
  { clear. induction cs as [|q cs IH]; intros st0 s1 Hb Hl Hr; simpl.
    - exists s1. rewrite app_nil_r. split; [done|]. split; [done|]. by split_and!.
    - simpl in Hb. rewrite concat_app, app_assoc in Hb. apply Forall_cons in Hl as [Hl1 Hl2].
      destruct (on_recv_inv XTime cps p (em (sv_es (sup s))) q st0 s1) as (s2 & E & H1 & H2); [|done..|].
      { by apply Forall_app in Hb as [? _]. }
      destruct (IH (st0 ++ concat q) s2 Hb Hl2 H1) as (s3 & E3 & H3 & H4).
      exists s3. rewrite (bind_Ok _ _ _ _ _ E). split; [done|].
      rewrite concat_app, app_assoc. split; [done|].
      destruct H2 as (A1 & A2 & A3 & A4 & A5 & A6), H4 as (B1 & B2 & B3 & B4 & B5 & B6).
      split_and!; congruence. }
  destruct (H chains [] s0 Hb Hl (receiving_start p s)) as (s' & E & ((_ & H1 & H2 & _ & H3) & H4 & _) & H5).
  exists s'. split; [done|]. simpl in H1, H2, H3. by split_and!.
Qed.

(** ** Serving *)

Definition sup_eq (v v' : sv) : Prop :=
  sv_apu v' = sv_apu v /\ g_nb v' = g_nb v /\ sv_es v' = sv_es v.

(** What has been sent on connection [p] since [o]. *)
Definition replied (o o' : list tcp_out) (p : Z) (rc : Z) (msg : nb_msg) : Prop :=
  exists r tl, o' = o ++ OutRep p r msg :: OutClose p :: tl /\ (tl = [] \/ tl = [OutAbort p]) /\
               rp_rc r = rc /\ rp_magic r = NETBOOT_REP_MAGIC.

Section serving.
Context (plm : list plm_call -> plm_call -> Z).
Context (XTime : nat -> Z) (cps : Z) (nb_park : Z).
Context (tcp_close : list tcp_out -> Z -> Z).
Context (HC : 1000 <= cps).

Ltac run :=
  unfold mbind, stE_bind, mret, stE_ret, gets, getS, modify, when, throw;
  cbn beta iota; cbn [negb sup s_c s_busy out].

Lemma close_pcb_spec p s :
  exists tl, close_pcb tcp_close p s = (Srv (sup s) (s_c s) (s_busy s) (out s ++ OutClose p :: tl), Ok tt)
    /\ (tl = [] \/ tl = [OutAbort p]).
Proof using.
  unfold close_pcb. run. destruct (_ =? 0); run.
  - exists []. split; [done|auto].
  - exists [OutAbort p]. unfold emit. simpl. rewrite <- app_assoc. split; [done|auto].
Qed.

Lemma reply_spec rc rx pm msg s p :
  pcb (s_c s) = Some p ->
  exists s', reply XTime cps tcp_close rc rx pm msg s = (s', Ok tt) /\ sup_eq (sup s) (sup s') /\
    s_c s' = conn0 /\ s_busy s' = false /\ replied (out s) (out s') p rc msg.
Proof using.
  intros Hp. unfold reply. run. unfold now_ms, on_sv, nb_now_ms.
  destruct (nb_st (g_nb (sup s)) =? NETBOOT_ST_RUNNING); run; rewrite Hp; run.
  all: match goal with |- context [close_pcb _ _ ?s1] =>
         destruct (close_pcb_spec p s1) as (tl & E & Htl); rewrite E end.
  all: unfold emit, conn_reset; cbn [sup s_c s_busy out].
  all: eexists; split; [done|]; split; [done|]; split; [done|]; split; [done|];
    eexists _, tl; rewrite <- app_assoc; split_and!; [done|auto|done..].
Qed.

Lemma length_bytes_at m a n : 0 <= n -> len (bytes_at m a n) = n.
Proof using. intros. unfold bytes_at, len. rewrite length_fmap, length_seqZ. lia. Qed.

Lemma bytes_at_ok m a n : mem_ok m -> bytes_ok (bytes_at m a n).
Proof using. intros H. apply Forall_fmap, Forall_forall. intros x _. apply H. Qed.

(** The upload in staging is the one the client described. *)
Definition verified (s : srv) : Prop :=
  let r := req (s_c s) in
  Fips.sha256 (bytes_at (em (sv_es (sup s))) NB_STAGING_BASE (req_elf_size r)) = req_sha256 r.

Lemma handle_load_run_spec rx s p :
  sv_ok (sup s) -> pcb (s_c s) = Some p -> bytes_ok (req (s_c s)) ->
  header_ok (req (s_c s)) = None -> req_cmd (req (s_c s)) = NETBOOT_CMD_LOAD_RUN ->
  exists s', handle_load_run plm XTime cps nb_park tcp_close rx s = (s', Ok tt) /\ sv_ok (sup s') /\
    s_c s' = conn0 /\ s_busy s' = false /\
    ((~ verified s /\ sup_eq (sup s) (sup s') /\ replied (out s) (out s') p (-2) MShaMismatch) \/
     (verified s /\ exists v' rc place_ms msg,
        nb_launch plm XTime cps nb_park (req_max_run_ms (req (s_c s))) 0
          (Sv (sv_apu (sup s)) (set_staged (req_elf_size (req (s_c s))) (g_nb (sup s))) (sv_es (sup s))
             (sv_tick (sup s))) = (v', Ok (rc, place_ms, msg)) /\
        sup_eq v' (sup s') /\ replied (out s) (out s') p rc msg)).
Proof using HC.
  intros Hok Hp Hb Hh Hcmd. unfold handle_load_run. run.
  set (n := req_elf_size (req (s_c s))). set (m := em (sv_es (sup s))).
  assert (0 < n <= NB_STAGING_SIZE) as Hn.
  { unfold header_ok in Hh. rewrite Hcmd in Hh. repeat case_match; try done.
    pose proof (ld64_range (req (s_c s)) 16 Hb : is_u64 n) as R. unfold is_u64 in R.
    match goal with H : (_ && (_ || _)) = false |- _ => rename H into H0 end.
    simpl in H0. fold n in H0. apply orb_false_iff in H0. lia. }
  assert (mem_ok m) as Hm by (by destruct Hok as (_ & ? & _)).
  rewrite nb_sha256_correct; [|by apply bytes_at_ok|rewrite length_bytes_at; lia| |].
  2:{ unfold NB_STAGING_SIZE, NB_STAGING_BASE in Hn. lia. }
  2:{ assert (0 <= n / 64) by (apply Z.div_pos; lia). lia. }
  rewrite take_ge by (pose proof (length_bytes_at m NB_STAGING_BASE n); unfold len in *; lia).
  fold m. case_bool_decide as Hd; cbn [negb].
  - run. unfold on_sv at 1. unfold on_nb. run.
    set (v1 := Sv _ (set_staged _ _) _ _).
    assert (sv_ok v1) as Hok1.
    { destruct Hok as (H1 & H2 & H3 & H4 & H5 & H6 & H7 & H8). unfold sv_ok. simpl.
      split_and!; auto; lia. }
    assert (is_u32 (req_max_run_ms (req (s_c s)))) as Hu by (by apply ld32_range).
    destruct (nb_launch_spec plm XTime cps nb_park HC v1 _ 0 Hok1 Hu) as (v' & rc & pm & msg & E & Hok' & _).
    unfold on_sv. cbn [sup]. rewrite E. cbn [s_c s_busy out].
    set (s1 := Srv v' _ _ _). destruct (reply_spec rc rx pm msg s1 p Hp) as (s' & Er & Hs & H1 & H2 & H3).
    rewrite Er. exists s'. split; [done|].
    split; [destruct Hs as (E1 & E2 & E3); unfold sv_ok; rewrite E1, E2, E3; exact Hok'|].
    split_and!; [done..|]. right. split; [done|]. by exists v', rc, pm, msg.
  - destruct (reply_spec (-2) rx 0 MShaMismatch s p Hp) as (s' & Er & Hs & H1 & H2 & H3).
    rewrite Er. exists s'. split; [done|].
    split; [destruct Hs as (E1 & E2 & E3); unfold sv_ok; rewrite E1, E2, E3; exact Hok|].
    split_and!; [done..|]. left. done.
Qed.

(** ** The main loop *)

Definition conn_ok (s : srv) : Prop :=
  length (req (s_c s)) = 64%nat /\ bytes_ok (req (s_c s)) /\
  (s_busy s = true <-> is_Some (pcb (s_c s))).
Definition srv_ok (s : srv) : Prop := sv_ok (sup s) /\ conn_ok s.

(** A handler that returns and keeps the invariant. *)
Definition total (m : stE srv stop unit) (s : srv) : Prop :=
  exists s', m s = (s', Ok tt) /\ srv_ok s'.

Lemma sv_ok_eq v v' : sup_eq v v' -> sv_ok v -> sv_ok v'.
Proof using. intros (E1 & E2 & E3). unfold sv_ok. by rewrite E1, E2, E3. Qed.

Lemma zeros_ok : bytes_ok (replicate 64 0).
Proof using. apply Forall_replicate. unfold is_u8. lia. Qed.

Lemma conn0_ok s : s_c s = conn0 -> s_busy s = false -> conn_ok s.
Proof using.
  intros E1 E2. unfold conn_ok. rewrite E1, E2. split_and!; [done| |].
  - apply Forall_replicate. unfold is_u8. lia.
  - split; [done|]. intros [? ?]. done.
Qed.

Lemma reply_total rc rx pm msg s :
  srv_ok s -> s_busy s = true -> total (reply XTime cps tcp_close rc rx pm msg) s.
Proof using.
  intros [Hok (H1 & H2 & H3)] Hb. apply H3 in Hb as [p Hp].
  destruct (reply_spec rc rx pm msg s p Hp) as (s' & E & Hs & H4 & H5 & _).
  exists s'. split; [done|]. split; [by eapply sv_ok_eq|by apply conn0_ok].
Qed.

(** A supervisor operation inside a handler. *)
Lemma on_sv_total {A} (m : stE sv stop A) (k : A -> stE srv stop unit) s :
  srv_ok s ->
  (exists v' a, m (sup s) = (v', Ok a) /\ sv_ok v' /\ total (k a) (Srv v' (s_c s) (s_busy s) (out s))) ->
  total (on_sv m ≫= k) s.
Proof using.
  intros Hs (v' & a & E & Hok & s' & E2 & H). exists s'. split; [|done].
  unfold mbind, stE_bind, on_sv. by rewrite E.
Qed.

Lemma srv_ok_sup s v : sv_ok v -> srv_ok s -> srv_ok (Srv v (s_c s) (s_busy s) (out s)).
Proof using. intros Hv [_ Hc]. split; [done|exact Hc]. Qed.

Lemma serve_request_total s :
  srv_ok s -> s_busy s = true ->
  total (serve_request plm XTime cps nb_park tcp_close (s_c s)) s.
Proof using HC.
  intros Hs Hb. pose proof Hs as [Hok (H1 & H2 & H3)]. pose proof (proj1 H3 Hb) as [p Hp].
  unfold serve_request. destruct (header_ok (req (s_c s))) eqn:Eh; [by apply reply_total|].
  unfold now_ms. apply on_sv_total; [done|]. eexists _, _. split; [done|]. split; [exact Hok|].
  set (s1 := Srv _ _ _ _). assert (srv_ok s1) as Hs1 by (by split).
  destruct (Z.eqb_spec (req_cmd (req (s_c s))) NETBOOT_CMD_LOAD_RUN) as [Ec|Ec].
  { destruct (handle_load_run_spec (u32 (ms_at XTime cps (sv_tick (sup s)) - t_first_ms (s_c s))) s1 p)
      as (s' & E & Hok' & E1 & E2 & _); try done.
    exists s'. split; [done|]. split; [done|by apply conn0_ok]. }
  destruct (_ =? NETBOOT_CMD_RERUN).
  { unfold total. erewrite bind_Ok by done.
    assert (is_u32 (req_max_run_ms (req (s_c s)))) as Hu by (by apply ld32_range).
    destruct (negb (staged_size (g_nb (sup s1)) =? 0)).
    - change (total (on_sv (nb_launch plm XTime cps nb_park (req_max_run_ms (req (s_c s))) 0) ≫=
        fun '(rc, place_ms, msg) => staged ← gets (fun s => staged_size (g_nb (sup s)));
          reply XTime cps tcp_close rc 0 place_ms (if negb (staged =? 0) then msg else MNothingStaged)) s1).
      apply on_sv_total; [done|].
      destruct (nb_launch_spec plm XTime cps nb_park HC (sup s1) _ 0 Hok Hu) as (v' & rc & pm & msg & E & Hok' & _).
      exists v', (rc, pm, msg). split; [done|]. split; [done|]. unfold total. erewrite bind_Ok by done.
      apply reply_total; [by apply srv_ok_sup|done].
    - run. apply reply_total; [done|done]. }
  destruct (_ =? NETBOOT_CMD_KILL).
  { apply on_sv_total; [done|].
    destruct (nb_kill_spec plm XTime cps (sup s1) Hok) as (v' & rc & E & Hok' & _).
    exists v', rc. split; [done|]. split; [done|]. apply reply_total; [by apply srv_ok_sup|done]. }
  destruct (_ =? NETBOOT_CMD_STATUS); [|by apply reply_total].
  unfold total. erewrite bind_Ok by done. erewrite bind_Ok by done.
  destruct (_ && _ && _).
  - unfold now_ms, on_sv, nb_now_ms. run. apply reply_total; [by split|done].
  - run. by apply reply_total.
Qed.

Lemma server_admit_spec s :
  srv_ok s -> s_busy s = true ->
  exists s' b, server_admit plm XTime cps nb_park tcp_close s = (s', Ok b) /\ srv_ok s' /\
    (b = true -> s_busy s' = true).
Proof using HC.
  intros Hs Hb. pose proof Hs as [Hok (H1 & H2 & H3)]. pose proof (proj1 H3 Hb) as [p Hp].
  unfold server_admit. erewrite bind_Ok by done.
  assert (exists v1 ack msg, admit_verdict plm XTime cps nb_park (req (s_c s)) s
    = (Srv v1 (s_c s) (s_busy s) (out s), Ok (ack, msg)) /\ sv_ok v1) as (v1 & ack & msg & E & Hok1).
  { unfold admit_verdict. destruct (header_ok (req (s_c s))).
    - destruct (nb_fill_ack_spec XTime cps nb_park (sup s)) as (v & ack & E & Ea & En & Ee & _).
      exists v, (set_verdict NETBOOT_ACK_REJECT ack), n. unfold on_sv, mbind, stE_bind. rewrite E.
      split; [done|]. by eapply sv_ok_eq.
    - destruct (nb_admit_total plm XTime cps nb_park (sup s) (req_cmd (req (s_c s)))
        (req_flags (req (s_c s))) Hok) as (v & ack & msg & E & Hok').
      exists v, ack, msg. unfold on_sv. by rewrite E. }
  rewrite (bind_Ok _ _ _ _ _ E), Hp. change (default 0 (Some p)) with p. clear E. unfold send_ack, emit. run.
  destruct (ak_verdict ack =? NETBOOT_ACK_OK).
  - run. unfold now_ms, on_sv, nb_now_ms. run. eexists _, true. split; [done|].
    split; [|done]. split; [exact Hok1|]. by split_and!.
  - run. match goal with |- context [close_pcb _ _ ?s1] =>
      destruct (close_pcb_spec p s1) as (tl & E & _); rewrite E end.
    unfold conn_reset. run. eexists _, false. split; [done|]. split; [|done].
    split; [exact Hok1|by apply conn0_ok].
Qed.

Lemma server_poll_total s : srv_ok s -> total (server_poll plm XTime cps nb_park tcp_close) s.
Proof using HC.
  intros Hs. unfold server_poll, busy. unfold total. erewrite bind_Ok by done.
  destruct (s_busy s) eqn:Eb; cbn [negb]; [|by exists s].
  erewrite bind_Ok by done.
  destruct (_ && _ && _).
  - destruct (server_admit_spec s Hs Eb) as (s1 & b & E & Hs1 & Hb).
    rewrite (bind_Ok _ _ _ _ _ E). destruct b; cbn [negb]; [|by exists s1].
    erewrite bind_Ok by done. destruct (ready (s_c s1)); cbn [negb]; [|by exists s1].
    apply serve_request_total; auto.
  - run. destruct (ready (s_c s)); cbn [negb]; [|by exists s]. by apply serve_request_total.
Qed.

Lemma recv_pbuf_ok src c m :
  bytes_ok src -> length (req c) = 64%nat -> bytes_ok (req c) -> mem_ok m ->
  let cm := recv_pbuf src (c, m) in
  length (req cm.1) = 64%nat /\ bytes_ok (req cm.1) /\ mem_ok cm.2 /\ pcb cm.1 = pcb c.
Proof using.
  intros Hsrc Hl Hb Hm. unfold recv_pbuf. simpl.
  assert (let r := recv_header c src in length (req r.1) = 64%nat /\ bytes_ok (req r.1) /\
    bytes_ok r.2 /\ pcb r.1 = pcb c) as H.
  { unfold recv_header. destruct (_ <? _); simpl; [|done].
    rewrite length_blit. split_and!; [done| |by apply Forall_drop|done].
    apply Forall_lookup_2. intros i x Hx. unfold blit in Hx.
    apply list_lookup_inserts_Some in Hx as [[_ Hx]|(_ & _ & Hx)].
    - by eapply Forall_lookup_1 in Hb.
    - eapply Forall_lookup_1 in Hx; [done|]. by apply Forall_take. }
  destruct (recv_header c src) as [c1 rest]. simpl in H. destruct H as (H1 & H2 & H3 & H4).
  unfold recv_payload. destruct (_ && _ && _); simpl; [|done].
  split_and!; [done|done| |done]. destruct (_ <=? _); [|done].
  intros a. unfold mblit. destruct (in_span _ _ _); [|apply Hm].
  apply rd_range. by apply Forall_take.
Qed.

Lemma recv_chain_ok q c m :
  Forall bytes_ok q -> length (req c) = 64%nat -> bytes_ok (req c) -> mem_ok m ->
  let cm := foldl (fun cm src => recv_pbuf src cm) (c, m) q in
  length (req cm.1) = 64%nat /\ bytes_ok (req cm.1) /\ mem_ok cm.2 /\ pcb cm.1 = pcb c.
Proof using.
  revert c m. induction q as [|src q IH]; intros c m Hq Hl Hb Hm; simpl; [done|].
  apply Forall_cons in Hq as [H1 H2].
  destruct (recv_pbuf_ok src c m H1 Hl Hb Hm) as (E1 & E2 & E3 & E4).
  destruct (recv_pbuf src (c, m)) as [c1 m1]. simpl in *. rewrite <- E4. by apply IH.
Qed.

Lemma on_recv_total p q s :
  srv_ok s -> s_busy s = true -> match q with Some q => Forall bytes_ok q | None => True end ->
  total (on_recv XTime cps p q) s.
Proof using.
  intros Hs Hb Hq. pose proof Hs as [Hok (H1 & H2 & H3)]. destruct q as [q|]; unfold on_recv, total; cycle 1.
  { run. destruct (ready (s_c s)); run; [by exists s|]. eexists. split; [done|].
    split; [exact Hok|by apply conn0_ok]. }
  destruct (stamp_first_spec XTime cps s) as (t & k & E). rewrite (bind_Ok _ _ _ _ _ E). clear E. run.
  set (c1 := Conn _ _ _ _ t _ _). set (v1 := Sv _ _ _ k).
  assert (mem_ok (em (sv_es v1))) as Hm by (by destruct Hok as (_ & ? & _)).
  destruct (recv_chain_ok q c1 (em (sv_es v1)) Hq H1 H2 Hm) as (E1 & E2 & E3 & E4).
  destruct (foldl _ _ q) as [c2 m2]. simpl in *. eexists. split; [done|]. unfold set_conn. simpl.
  split; simpl.
  - destruct Hok as (G1 & G2 & G3 & G4 & G5 & G6 & G7 & G8). unfold sv_ok. simpl. split_and!; auto; lia.
  - unfold conn_ok. simpl. split_and!; [done..|]. rewrite E4. exact H3.
Qed.

Lemma on_accept_total p s : srv_ok s -> total (on_accept XTime cps nb_park tcp_close p) s.
Proof using.
  intros Hs. pose proof Hs as [Hok Hc]. unfold on_accept, busy, total. erewrite bind_Ok by done.
  destruct (s_busy s) eqn:Eb; cycle 1.
  { eexists. split; [done|]. split; [exact Hok|]. split_and!; simpl; [done|exact zeros_ok|by split]. }
  unfold refuse_serving, on_sv. run.
  destruct (nb_fill_ack_spec XTime cps nb_park (sup s)) as (v & ack & E & Ea & En & Ee & _).
  rewrite E. run. assert (sv_ok v) as Hv by (by eapply sv_ok_eq).
  assert (forall s1, sup s1 = v \/ (exists k, sup s1 = Sv (sv_apu v) (g_nb v) (sv_es v) k) ->
            s_c s1 = s_c s -> s_busy s1 = s_busy s ->
            total (close_pcb tcp_close p) s1) as Hcl.
  { intros s1 Hs1 E1 E2. destruct (close_pcb_spec p s1) as (tl & E3 & _).
    eexists. split; [exact E3|]. split; simpl.
    - destruct Hs1 as [-> | [k ->]]; [done|exact Hv].
    - unfold conn_ok. simpl. rewrite E1, E2. exact Hc. }
  destruct (t_first_ms (s_c s) =? 0); run.
  - apply Hcl; auto.
  - unfold now_ms, on_sv, nb_now_ms. run. apply Hcl; simpl; eauto.
Qed.

(** What can happen to the supervisor, in any order: lwIP's callbacks, the
    main loop's two steps, and the application core parking. *)
Inductive event :=
| EvAccept (p : Z)
| EvRecv (q : option (list (list Z)))
| EvError
| EvPoll
| EvWatchdog
| EvPark (exit_rc : Z).

Definition event_ok (e : event) : Prop :=
  match e with EvRecv (Some q) => Forall bytes_ok q | _ => True end.

Definition handle (e : event) : stE srv stop unit := fun s =>
  match e with
  | EvAccept p => on_accept XTime cps nb_park tcp_close p s
  | EvRecv q => match pcb (s_c s) with Some p => on_recv XTime cps p q s | None => (s, Ok tt) end
  | EvError => if s_busy s then on_err s else (s, Ok tt)
  | EvPoll => server_poll plm XTime cps nb_park tcp_close s
  | EvWatchdog => on_sv (watchdog plm XTime cps) s
  | EvPark rc =>
    if s_powered (sv_apu (sup s)) then
      (Srv (Sv (core_parks rc (sv_apu (sup s))) (g_nb (sup s)) (sv_es (sup s)) (sv_tick (sup s)))
         (s_c s) (s_busy s) (out s), Ok tt)
    else (s, Ok tt)
  end.

Lemma handle_total e s : srv_ok s -> event_ok e -> total (handle e) s.
Proof using HC.
  intros Hs He. pose proof Hs as [Hok Hc]. destruct e as [p|q| | | |rc]; unfold total, handle; simpl in He.
  - by apply on_accept_total.
  - destruct (pcb (s_c s)) as [p|] eqn:Ep; [|by exists s].
    apply on_recv_total; [done| |by destruct q]. destruct Hc as (_ & _ & H3). apply H3. eauto.
  - destruct (s_busy s); [|by exists s]. eexists. split; [done|]. split; [exact Hok|by apply conn0_ok].
  - by apply server_poll_total.
  - destruct (watchdog_spec plm XTime cps HC (sup s) Hok) as (v & E & Hv & _).
    unfold on_sv. rewrite E. eexists. split; [done|]. by apply srv_ok_sup.
  - destruct (s_powered (sv_apu (sup s))) eqn:Ep; [|by exists s]. eexists. split; [done|].
    apply srv_ok_sup; [|done]. destruct Hok as ([A1 A2] & G2 & G3 & G4 & G5 & G6 & G7 & G8).
    assert (apu_ok (core_parks rc (sv_apu (sup s)))) by (split; [exact A1|exact A2]).
    unfold sv_ok. simpl. split_and!; auto; lia.
Qed.
End serving.


(** C28: the supervisor keeps going.  From any consistent state and for any
    sequence of connections, packets, errors, polls, watchdog ticks and
    application exits, with any answers of the platform manager and of TCP,
    every handler returns and the state stays consistent: the core is powered
    exactly while the state says running, timed out or exited, it is never
    held in reset while powered, a connection is open exactly while the
    server is busy, and the staged size fits the staging area. *)
Theorem main_loop_invariant plm XTime cps nb_park tcp_close es s :
  1000 <= cps -> srv_ok s -> Forall event_ok es ->
  exists s', forM es (handle plm XTime cps nb_park tcp_close) s = (s', Ok tt) /\ srv_ok s'.
Proof.
  intros HC. revert s. induction es as [|e es IH]; intros s Hs He; simpl; [by exists s|].
  apply Forall_cons in He as [He1 He2].
  destruct (handle_total plm XTime cps nb_park tcp_close HC e s Hs He1) as (s1 & E & Hs1).
  destruct (IH s1 Hs1 He2) as (s2 & E2 & Hs2). exists s2. by rewrite (bind_Ok _ _ _ _ _ E).
Qed.

(** ** Concrete runs *)

Definition mk_req (version cmd flags elf_size max_run_ms : Z) (sha : list Z) : list Z :=
  le32 NETBOOT_REQ_MAGIC ++ le32 version ++ le32 cmd ++ le32 flags ++ le64 elf_size
  ++ le32 max_run_ms ++ le32 0 ++ sha.

Definition demo_elf : list Z := tiny_elf 0x1000 4 4096 [1; 2; 3; 4].
Definition demo_sha : list Z := default [] (nb_sha256 2 demo_elf 124).
Definition demo_srv : srv :=
  Srv (Sv (Apu true false STOP_NONE 2 (Mbox 0 0 0 0) []) nb_boot (Es (fun _ => 0) []) 1)
    conn0 false [].
Definition demo_close (_ : list tcp_out) (_ : Z) : Z := 0.

Lemma demo_srv_ok : srv_ok demo_srv.
Proof.
  split.
  - split_and!; simpl; try (unfold is_u32, is_u64, NB_STAGING_SIZE, NB_STAGING_BASE; lia).
    + split; [done|]. auto.
    + intros a. unfold is_u8. lia.
    + unfold NETBOOT_ST_RUNNING, NETBOOT_ST_TIMEOUT, NETBOOT_ST_EXITED. split; [done|lia].
  - by apply conn0_ok.
Qed.

Definition all_bytes (l : list Z) : bool := forallb (fun b => (0 <=? b) && (b <? 256)) l.
Lemma all_bytes_ok l : all_bytes l = true -> bytes_ok l.
Proof.
  intros H. apply Forall_forall. intros x Hx%list_elem_of_In.
  unfold all_bytes in H. rewrite forallb_forall in H. apply H in Hx. unfold is_u8. lia.
Qed.

Definition event_okb (e : event) : bool :=
  match e with EvRecv (Some q) => forallb all_bytes q | _ => true end.
Lemma events_ok es : forallb event_okb es = true -> Forall event_ok es.
Proof.
  intros H. apply Forall_forall. intros e He%list_elem_of_In. rewrite forallb_forall in H.
  apply H in He. destruct e as [|[q|]| | | |]; simpl in *; try exact I.
  apply Forall_forall. intros b Hb%list_elem_of_In. rewrite forallb_forall in He.
  by apply all_bytes_ok, He.
Qed.

(** An upload of four bytes and one to spare, in three callbacks. *)
Lemma recv_reassembles_witness :
  let r := mk_req 1 1 0 4 0 (replicate 32 7) in
  let chains := [[take 10 r]; [drop 10 r ++ [1; 2]; [3]]; [[4; 9]]] in
  (bytes_ok (concat (concat chains)) /\ Forall (Forall (fun b => len b < 2 ^ 16)) chains) /\
  exists s', forM chains (fun q => on_recv demo_time 1000 5 (Some q))
               (Srv (sup demo_srv) (Conn (Some 5) (replicate 64 0) 0 0 0 false false) true []) = (s', Ok tt) /\
    ready (s_c s') = true /\ em (sv_es (sup s')) (NB_STAGING_BASE + 2) = 3 /\
    em (sv_es (sup s')) (NB_STAGING_BASE + 4) = 0.
Proof.
  intros r chains.
  assert (bytes_ok (concat (concat chains))) as Hb by (apply all_bytes_ok; vm_compute; reflexivity).
  assert (Forall (Forall (fun b => len b < 2 ^ 16)) chains) as Hl.
  { repeat (apply Forall_cons; split || apply Forall_nil); try done; by vm_compute. }
  split; [done|].
  destruct (recv_reassembles demo_time 1000 5 chains demo_srv Hb Hl) as (s' & E & _ & _ & H1 & H2 & _).
  exists s'. split; [exact E|]. rewrite H1, !H2. split_and!; vm_compute; reflexivity.
Defined.


(** Upload, run, exit; then a second upload whose digest does not match, and
    a RERUN. *)
Definition demo_events : list event :=
  [EvAccept 1; EvRecv (Some [mk_req 1 1 0 124 0 demo_sha ++ demo_elf]); EvPoll; EvPark 0; EvWatchdog;
   EvAccept 2; EvRecv (Some [mk_req 1 1 0 124 0 demo_sha ++ tiny_elf 0x1000 4 4096 [9; 9; 9; 9]]); EvPoll;
   EvAccept 3; EvRecv (Some [mk_req 1 2 0 0 0 (replicate 32 0)]); EvPoll].

Lemma main_loop_invariant_witness :
  (1000 <= 1000 /\ srv_ok demo_srv /\ Forall event_ok demo_events) /\
  exists s', forM demo_events (handle plm_grants demo_time 1000 0x78001000 demo_close) demo_srv = (s', Ok tt)
             /\ srv_ok s'.
Proof.
  assert (Forall event_ok demo_events) as He by (apply events_ok; vm_compute; reflexivity).
  split; [split_and!; [lia|exact demo_srv_ok|exact He]|].
  apply main_loop_invariant; [lia|exact demo_srv_ok|exact He].
Defined.

Definition replies (s : srv) : list (Z * Z) :=
  omap (fun o => match o with OutRep p r _ => Some (p, rp_rc r) | _ => None end) (out s).

(** RERUN runs bytes that were never verified.  A corrupted upload is
    refused (reply -2) but has already replaced the staged file, and
    [staged_size] still says a validated ELF is there: the RERUN that follows
    succeeds and puts the corrupted bytes on the application core. *)
Theorem rerun_unverified :
  let s := (forM demo_events (handle plm_grants demo_time 1000 0x78001000 demo_close) demo_srv).1 in
  replies s = [(1, 0); (2, -2); (3, 0)] /\
  staged_size (g_nb (sup s)) = 124 /\ nb_st (g_nb (sup s)) = NETBOOT_ST_RUNNING /\
  em (sv_es (sup s)) 0x1000 = 9 /\
  nb_sha256 2 (bytes_at (em (sv_es (sup s))) NB_STAGING_BASE 124) 124 <> Some demo_sha.
Proof.
  cbv zeta. split_and!; [vm_compute; reflexivity..|]. vm_compute. discriminate.
Qed.
