(* ===== verification/Driver.v ===== *)
(** * Driver calls

    The runtime programs the array through the XAie driver, which is
    third-party code.  Code that does so keeps, besides its own state, the
    list of the calls it has made; what a call returns is a parameter that may
    depend on every call before it.  This file has the calls, the rules for
    code that makes a fixed sequence of them, and the types the driver's
    interface shares. *)

From stdpp Require Import base list numbers.
From S2P Require Import Prelude.

Local Open Scope Z_scope.

Definition XAIE_OK : Z := 0.
Definition XAIE_ERR : Z := 1.

Record XAie_LocType := Loc { loc_row : Z; loc_col : Z }.
Inductive XAie_DmaDirection := DMA_S2MM | DMA_MM2S.

#[export] Instance loc_eq_dec : EqDecision XAie_LocType.
Proof. solve_decision. Defined.
#[export] Instance dir_eq_dec : EqDecision XAie_DmaDirection.
Proof. solve_decision. Defined.

(** The code's own state and the calls made so far. *)
Record drv (F C : Type) := Drv { rest : F; calls : list C }.
Arguments Drv {F C} rest calls.
Arguments rest {F C} d.
Arguments calls {F C} d.

Definition upd_rest {F C} (f : F -> F) (s : drv F C) : drv F C := Drv (f (rest s)) (calls s).

Lemma take_app_min {A} (k : nat) (xs ys : list A) : take k xs = take (Nat.min k (length xs)) (xs ++ ys).
Proof.
  rewrite take_app_le by lia. destruct (Nat.le_gt_cases k (length xs)).
  - by rewrite Nat.min_l by lia.
  - rewrite Nat.min_r by lia. by rewrite !take_ge by lia.
Qed.

Lemma bind_gets {S E A B} (f : S -> A) (k : A -> stE S E B) s : (gets f ≫= k) s = k (f s) s.
Proof. done. Qed.

Section driver.
Context {F C X : Type}.
(** What a call returns, after the calls made so far. *)
Context (drive : list C -> C -> Z).
(** The part of the code's state the rules below speak of. *)
Context (view : F -> X).

Abbreviation M := (stE (drv F C) Z).

Definition call (c : C) : M Z := fun s =>
  (Drv (rest s) (calls s ++ [c]), Ok (drive (calls s) c)).
(** [rc = ...; if (rc != XAIE_OK) return rc;] *)
Definition must (c : C) : M unit :=
  rc ← call c; if rc =? XAIE_OK then mret tt else throw rc.
(** A call whose result is not looked at. *)
Definition ignore (c : C) : M unit := call c ;; mret tt.

(** ** Following a plan

    From state [s], the operation makes the calls [cs] and turns the view of
    its state into [f] of it, or stops after some of the calls with an error
    code and the view unchanged. *)
Definition finishes {A} (m : M A) (s : drv F C) (cs : list C) (f : X -> X) (Q : A -> Prop) : Prop :=
  match m s with
  | (s', Ok a) => calls s' = calls s ++ cs /\ view (rest s') = f (view (rest s)) /\ Q a
  | (s', Err e) => e <> XAIE_OK /\ view (rest s') = view (rest s) /\ exists k, calls s' = calls s ++ take k cs
  end.

Abbreviation follows m s cs Q := (finishes m s cs id Q).

Lemma follows_bind {A B} (m : M A) (k : A -> M B) s cs1 cs2 f Q R :
  follows m s cs1 Q ->
  (forall a s', Q a -> calls s' = calls s ++ cs1 -> view (rest s') = view (rest s) -> finishes (k a) s' cs2 f R) ->
  finishes (m ≫= k) s (cs1 ++ cs2) f R.
Proof using.
  unfold finishes. intros Hm Hk. unfold mbind, stE_bind.
  destruct (m s) as [s1 [a|e]].
  - destruct Hm as (E1 & E2 & Ha). simpl in E2. specialize (Hk a s1 Ha E1 E2).
    destruct (k a s1) as [s2 [b|e]].
    + destruct Hk as (E3 & E4 & Hb). by rewrite E3, E1, E4, E2, app_assoc.
    + destruct Hk as (He & E4 & n & E3). split; [done|]. split; [by rewrite E4|].
      exists (length cs1 + n)%nat. by rewrite E3, E1, take_app_add, app_assoc.
  - destruct Hm as (He & E2 & n & E1). split; [done|]. split; [done|].
    exists (Nat.min n (length cs1)). by rewrite E1, <- take_app_min.
Qed.

Lemma follows_ret {A} (a : A) s (Q : A -> Prop) : Q a -> follows (mret a) s [] Q.
Proof using. intros H. unfold finishes. simpl. by rewrite app_nil_r. Qed.

Lemma follows_must c s : follows (must c) s [c] (fun _ => True).
Proof using.
  unfold finishes, must, call, mbind, stE_bind, mret, stE_ret, throw.
  destruct (Z.eqb_spec (drive (calls s) c) XAIE_OK); simpl; [done|].
  split; [done|]. split; [done|]. by exists 1%nat.
Qed.

Lemma follows_ignore c s : follows (ignore c) s [c] (fun _ => True).
Proof using. done. Qed.

Lemma follows_when b (m : M unit) s cs :
  follows m s cs (fun _ => True) -> follows (when b m) s (if b then cs else []) (fun _ => True).
Proof using. intros H. destruct b; [done|]. by apply follows_ret. Qed.

(** A check that ends the operation with an error code. *)
Lemma follows_guard (b : bool) e s : e <> XAIE_OK -> follows (when b (throw e)) s [] (fun _ => b = false).
Proof using.
  intros He. destruct b; simpl; [|by apply follows_ret].
  split; [done|]. split; [done|]. exists 0%nat. by rewrite app_nil_r.
Qed.

Lemma follows_if {A} (b : bool) (m1 m2 : M A) s c1 c2 f Q :
  finishes m1 s c1 f Q -> finishes m2 s c2 f Q ->
  finishes (if b then m1 else m2) s (if b then c1 else c2) f Q.
Proof using. by destruct b. Qed.

Lemma follows_forM {Y} (xs : list Y) (body : Y -> M unit) (plan : Y -> list C) s :
  (forall x s, follows (body x) s (plan x) (fun _ => True)) ->
  follows (forM xs body) s (concat (plan <$> xs)) (fun _ => True).
Proof using.
  intros H. revert s. induction xs as [|x xs IH]; intros s; simpl; [by apply follows_ret|].
  eapply follows_bind; [apply H|]. intros ? s' _ _ _. apply IH.
Qed.

(** A call whose result the continuation looks at. *)
Lemma follows_call {A} (c : C) (k : Z -> M A) s cs f Q :
  finishes (k (drive (calls s) c)) (Drv (rest s) (calls s ++ [c])) cs f Q ->
  finishes (call c ≫= k) s (c :: cs) f Q.
Proof using.
  unfold finishes, mbind, stE_bind, call. set (s1 := Drv _ _).
  destruct (k _ s1) as [s2 [a|e]].
  - intros (E & ? & ?). rewrite E. unfold s1. simpl. by rewrite <- app_assoc.
  - intros (? & ? & n & E). split; [done|]. split; [done|]. exists (S n).
    rewrite E. unfold s1. simpl. by rewrite <- app_assoc.
Qed.

Lemma follows_throw {A} e s cs f (Q : A -> Prop) : e <> XAIE_OK -> finishes (throw e) s cs f Q.
Proof using.
  intros H. split; [done|]. split; [done|]. exists 0%nat. simpl. by rewrite app_nil_r.
Qed.

Lemma follows_app_nil {A} (m : M A) s cs f Q : finishes m s (cs ++ []) f Q -> finishes m s cs f Q.
Proof using. by rewrite app_nil_r. Qed.

(** A check that passes. *)
Lemma finishes_skip {A B} (m : M A) (k : A -> M B) s a cs f Q :
  m s = (s, Ok a) -> finishes (k a) s cs f Q -> finishes (m ≫= k) s cs f Q.
Proof using. intros H. unfold finishes. by erewrite bind_Ok by exact H. Qed.

(** A change of the code's own state. *)
Lemma finishes_modify (g : F -> F) (f : X -> X) s :
  view (g (rest s)) = f (view (rest s)) -> finishes (modify (upd_rest g)) s [] f (fun _ => True).
Proof using. intros H. unfold finishes, modify. simpl. by rewrite app_nil_r. Qed.
End driver.

Abbreviation follows view m s cs Q := (finishes view m s cs id Q).

(** Chains of calls, one per step. *)
Ltac follow :=
  repeat lazymatch goal with
  | |- finishes _ (must _ _ ≫= _) _ _ _ _ => eapply (follows_bind _ _ _ _ [_]); [apply follows_must|intros ? ? _ ? _]
  | |- finishes _ (ignore _ _ ≫= _) _ _ _ _ => eapply (follows_bind _ _ _ _ [_]); [apply follows_ignore|intros ? ? _ ? _]
  | |- finishes _ (must _ _) _ _ _ _ => apply follows_must
  | |- finishes _ (ignore _ _) _ _ _ _ => apply follows_ignore
  end.
