(* ===== verification/Movedata.v ===== *)
(** * DMA transfers ([src/src/mlir/runtime/aie_runtime_common.c])

    [Runtime_Movedata] and its many-to-one variants program DMA buffer
    descriptors and channels through the XAie driver, and keep a list of
    transfers to wait for.  The driver is third-party code: every call is
    logged, and its result is a parameter [xaie] that may depend on all calls
    made so far.  A descriptor under construction is the sequence of calls
    since its [DmaDescInit]. *)

From stdpp Require Import base list list_numbers numbers gmap.
From S2P Require Import Prelude.
From S2P Require Import Driver.

Local Open Scope Z_scope.
Local Open Scope c_scope.

Definition MOVEDATA_MODE_BLOCKING : Z := 0.
Definition MOVEDATA_MODE_OOO : Z := 1.
Definition MOVEDATA_MODE_OOO_STRIDE : Z := 2.
Definition MOVEDATA_MAX_PENDING : Z := 16.
Definition MOVEDATA_MAX_SOURCES : Z := 16.

(** Step size and wrap of one address dimension. *)
Definition dims_t := list (Z * Z).

Inductive xcall :=
| DmaDescInit (t : XAie_LocType)
| DmaSetAddrLen (addr len : Z)
| DmaSetMultiDimAddr (num_dims : Z) (dims : dims_t) (addr len : Z)
| DmaSetPkt (pkt_id : Z)
| DmaSetOutofOrderBdId (bd : Z)
| DmaSetBdIteration (step wrap : Z)
| DmaEnableBd
| DmaWriteBd (t : XAie_LocType) (bd : Z)
| DmaChannelPushBdToQueue (t : XAie_LocType) (ch : Z) (dir : XAie_DmaDirection) (bd : Z)
| DmaChannelEnable (t : XAie_LocType) (ch : Z) (dir : XAie_DmaDirection)
| DmaWaitForDone (t : XAie_LocType) (ch : Z) (dir : XAie_DmaDirection)
| MemAllocate (bytes : Z)
| MemFill (phy words : Z)      (* the DDR buffer set to 0xDEADBEEF *)
| MemSyncForDev (buf : Z)
| DmaChannelDescInit (t : XAie_LocType)
| DmaChannelEnOutofOrder
| DmaWriteChannel (t : XAie_LocType) (ch : Z) (dir : XAie_DmaDirection)
| DmaChannelSetStartQueue (t : XAie_LocType) (ch : Z) (dir : XAie_DmaDirection) (bd repeat_ : Z).

Record MovedataPending := Pending { pe_tile : XAie_LocType; pe_ch : Z; pe_dir : XAie_DmaDirection }.

(** The code's own state is [g_pending[0 .. g_pending_count)]. *)
Definition md := drv (list MovedataPending) xcall.
Abbreviation Md := Drv.
Abbreviation g_pending := rest.
Definition g_pending_count (s : md) : Z := len (g_pending s).

Record MovedataOpt := Opt { op_mode : Z; op_num_dims : Z; op_dims : dims_t }.

Record MovedataSrcDesc := Src {
  src_tile : XAie_LocType; src_addr : Z; src_ch : Z; src_bd : Z; dst_bd : Z; data_bytes : Z;
  dst_len : Z; src_pkt_id : Z; dst_num_dims : Z; dst_dims : dims_t; recv_phy : Z }.

Record BdGroupInfo := Group {
  gr_count : Z; gr_dst_len : Z; gr_recv_phy : Z; gr_num_dims : Z; gr_first : Z }.

Section movedata.
Context (xaie : list xcall -> xcall -> Z).
(** [XAie_MemGetDevAddr] of a buffer handle. *)
Context (dev_addr : Z -> Z).
(** The order in which an [unordered_map] is walked. *)
Context (visit : list (Z * BdGroupInfo) -> list (Z * BdGroupInfo)).

Abbreviation M := (stE md Z).

Definition record_pending (t : XAie_LocType) (ch : Z) (dir : XAie_DmaDirection) : M unit :=
  modify (upd_rest (fun ps => ps ++ [Pending t ch dir])).

Definition opt_mode (opt : option MovedataOpt) : Z :=
  match opt with Some o => op_mode o | None => MOVEDATA_MODE_BLOCKING end.

(** The address of the receive descriptor. *)
Definition set_dst_addr (opt : option MovedataOpt) (addr data_bytes : Z) : M unit :=
  match opt with
  | Some o =>
    if (op_mode o =? MOVEDATA_MODE_OOO_STRIDE) && (0 <? op_num_dims o)
    then must xaie (DmaSetMultiDimAddr (op_num_dims o) (op_dims o) addr data_bytes)
    else must xaie (DmaSetAddrLen addr data_bytes)
  | None => must xaie (DmaSetAddrLen addr data_bytes)
  end.

(** The destination: returns the DDR buffer and its address for a shim. *)
Definition movedata_dst (dst_tile : XAie_LocType) (dst_addr dst_ch dst_bd data_bytes : Z)
    (opt : option MovedataOpt) : M (option (Z * Z)) :=
  must xaie (DmaDescInit dst_tile) ;;
  out ← (if loc_row dst_tile =? 0 then
           buf ← call xaie (MemAllocate data_bytes);
           if buf =? 0 then throw XAIE_ERR
           else
             let phy := dev_addr buf in
             ignore xaie (MemFill phy (data_bytes / 4)) ;;
             ignore xaie (MemSyncForDev buf) ;;
             set_dst_addr opt phy data_bytes ;;
             mret (Some (buf, phy))
         else set_dst_addr opt dst_addr data_bytes ;; mret None);
  ignore xaie DmaEnableBd ;;
  must xaie (DmaWriteBd dst_tile dst_bd) ;;
  must xaie (DmaChannelPushBdToQueue dst_tile dst_ch DMA_S2MM dst_bd) ;;
  must xaie (DmaChannelEnable dst_tile dst_ch DMA_S2MM) ;;
  mret out.

Definition movedata_src (src_tile : XAie_LocType) (src_addr src_ch src_bd data_bytes pkt_id : Z) : M unit :=
  must xaie (DmaDescInit src_tile) ;;
  must xaie (DmaSetAddrLen src_addr data_bytes) ;;
  when (0 <=? pkt_id) (must xaie (DmaSetPkt pkt_id)) ;;
  ignore xaie DmaEnableBd ;;
  must xaie (DmaWriteBd src_tile src_bd) ;;
  must xaie (DmaChannelPushBdToQueue src_tile src_ch DMA_MM2S src_bd) ;;
  must xaie (DmaChannelEnable src_tile src_ch DMA_MM2S).

Definition movedata_finish (mode : Z) (dst_tile : XAie_LocType) (dst_ch : Z) : M unit :=
  if mode =? MOVEDATA_MODE_BLOCKING then must xaie (DmaWaitForDone dst_tile dst_ch DMA_S2MM)
  else
    n ← gets g_pending_count;
    if MOVEDATA_MAX_PENDING <=? n then throw XAIE_ERR else record_pending dst_tile dst_ch DMA_S2MM.

(** [Ok] is [XAIE_OK], with [*out_recv_buf], [*out_recv_phy]; on an error
    the caller's out-parameters are not modelled. *)
Definition Runtime_Movedata (src_tile : XAie_LocType) (src_addr src_ch src_bd : Z)
    (dst_tile : XAie_LocType) (dst_addr dst_ch dst_bd data_bytes pkt_id : Z) (opt : option MovedataOpt)
    : M (option (Z * Z)) :=
  out ← movedata_dst dst_tile dst_addr dst_ch dst_bd data_bytes opt;
  movedata_src src_tile src_addr src_ch src_bd data_bytes pkt_id ;;
  movedata_finish (opt_mode opt) dst_tile dst_ch ;;
  mret out.

(** The loop of [Runtime_Movedata_WaitAll]: every transfer is waited for,
    the first error is kept. *)
Fixpoint wait_pending (ps : list MovedataPending) (RC : Z) : M Z :=
  match ps with
  | [] => mret RC
  | p :: ps =>
    rc ← call xaie (DmaWaitForDone (pe_tile p) (pe_ch p) (pe_dir p));
    wait_pending ps (if negb (rc =? XAIE_OK) && (RC =? XAIE_OK) then rc else RC)
  end.

Definition Runtime_Movedata_WaitAll : M Z :=
  ps ← gets g_pending;
  RC ← wait_pending ps XAIE_OK;
  modify (upd_rest (fun _ => [])) ;;
  mret RC.

(** ** Many to one *)

Definition src_dst_len (s : MovedataSrcDesc) : Z := if 0 <? dst_len s then dst_len s else data_bytes s.

(** Pass 1, one source: [None] is the mismatch error. *)
Definition group_step (i : Z) (s : MovedataSrcDesc) (m : gmap Z BdGroupInfo) : option (gmap Z BdGroupInfo) :=
  match m !! dst_bd s with
  | Some g =>
    if negb (gr_dst_len g =? src_dst_len s) then None
    else if negb (gr_recv_phy g =? recv_phy s) then None
    else Some (<[dst_bd s := Group (gr_count g + 1) (gr_dst_len g) (gr_recv_phy g) (gr_num_dims g) (gr_first g)]> m)
  | None => Some (<[dst_bd s := Group 1 (src_dst_len s) (recv_phy s) (dst_num_dims s) i]> m)
  end.

Fixpoint group_srcs (i : Z) (srcs : list MovedataSrcDesc) (m : gmap Z BdGroupInfo) : option (gmap Z BdGroupInfo) :=
  match srcs with
  | [] => Some m
  | s :: srcs => m ← group_step i s m; group_srcs (i + 1) srcs m
  end.

(** Pass 2, one group. *)
Definition write_group (srcs : list MovedataSrcDesc) (dst_tile : XAie_LocType) (kv : Z * BdGroupInfo) : M unit :=
  let '(bd_id, g) := kv in
  must xaie (DmaDescInit dst_tile) ;;
  (if 0 <? gr_num_dims g
   then must xaie (DmaSetMultiDimAddr (gr_num_dims g)
                (from_option dst_dims [] (srcs !! Z.to_nat (gr_first g))) (gr_recv_phy g) (gr_dst_len g))
   else must xaie (DmaSetAddrLen (gr_recv_phy g) (gr_dst_len g))) ;;
  when (1 <? gr_count g) (must xaie (DmaSetBdIteration (gr_dst_len g / 4) (gr_count g))) ;;
  ignore xaie DmaEnableBd ;;
  must xaie (DmaWriteBd dst_tile bd_id).

(** The receive channel in out-of-order mode, started for [n] transfers on
    [bd]. *)
Definition start_ooo (dst_tile : XAie_LocType) (dst_ch bd n : Z) : M unit :=
  ignore xaie (DmaChannelDescInit dst_tile) ;;
  ignore xaie DmaChannelEnOutofOrder ;;
  must xaie (DmaWriteChannel dst_tile dst_ch DMA_S2MM) ;;
  must xaie (DmaChannelSetStartQueue dst_tile dst_ch DMA_S2MM bd n).

Definition start_source (ooo_bd : Z) (s : MovedataSrcDesc) : M unit :=
  must xaie (DmaDescInit (src_tile s)) ;;
  must xaie (DmaSetAddrLen (src_addr s) (data_bytes s)) ;;
  when (0 <=? src_pkt_id s) (must xaie (DmaSetPkt (src_pkt_id s))) ;;
  must xaie (DmaSetOutofOrderBdId ooo_bd) ;;
  ignore xaie DmaEnableBd ;;
  must xaie (DmaWriteBd (src_tile s) (src_bd s)) ;;
  must xaie (DmaChannelPushBdToQueue (src_tile s) (src_ch s) DMA_MM2S (src_bd s)) ;;
  must xaie (DmaChannelEnable (src_tile s) (src_ch s) DMA_MM2S).

(** The checks both variants start with. *)
Definition many_checks (num_srcs : Z) (dst_tile : XAie_LocType) : M unit :=
  when ((num_srcs <=? 0) || (MOVEDATA_MAX_SOURCES <? num_srcs)) (throw XAIE_ERR) ;;
  when (negb (loc_row dst_tile =? 0)) (throw XAIE_ERR) ;;
  n ← gets g_pending_count;
  when (MOVEDATA_MAX_PENDING <? n + 1) (throw XAIE_ERR).

Definition Runtime_Movedata_ManyToOne (srcs : list MovedataSrcDesc) (dst_tile : XAie_LocType) (dst_ch : Z) : M unit :=
  many_checks (len srcs) dst_tile ;;
  match group_srcs 0 srcs ∅ with
  | None => throw XAIE_ERR
  | Some groups =>
    forM (visit (map_to_list groups)) (write_group srcs dst_tile) ;;
    start_ooo dst_tile dst_ch 0 (len srcs) ;;
    forM srcs (fun s => start_source (dst_bd s) s) ;;
    record_pending dst_tile dst_ch DMA_S2MM
  end.

Definition Runtime_Movedata_ManyToOne_SingleDstBd (srcs : list MovedataSrcDesc) (dst_tile : XAie_LocType)
    (dst_ch dst_bd dst_addr per_src_bytes dst_num_dims : Z) (dst_dims : option dims_t) (iter_step_size : Z)
    : M unit :=
  many_checks (len srcs) dst_tile ;;
  let iter_step_size := if iter_step_size <=? 0 then s32 (per_src_bytes / 4) else iter_step_size in
  must xaie (DmaDescInit dst_tile) ;;
  (match dst_dims with
   | Some dims =>
     if 0 <? dst_num_dims then must xaie (DmaSetMultiDimAddr dst_num_dims dims dst_addr per_src_bytes)
     else must xaie (DmaSetAddrLen dst_addr per_src_bytes)
   | None => must xaie (DmaSetAddrLen dst_addr per_src_bytes)
   end) ;;
  must xaie (DmaSetBdIteration iter_step_size (len srcs)) ;;
  ignore xaie DmaEnableBd ;;
  must xaie (DmaWriteBd dst_tile dst_bd) ;;
  start_ooo dst_tile dst_ch dst_bd (len srcs) ;;
  forM srcs (start_source dst_bd) ;;
  record_pending dst_tile dst_ch DMA_S2MM.

(** ** The plans *)

Abbreviation follows m s cs Q := (finishes id m s cs id Q).
Abbreviation records m s cs ps Q := (finishes id m s cs (fun l => l ++ ps) Q).

(** The calls of each part, in order. *)
Definition addr_call (opt : option MovedataOpt) (addr n : Z) : xcall :=
  match opt with
  | Some o => if (op_mode o =? MOVEDATA_MODE_OOO_STRIDE) && (0 <? op_num_dims o)
              then DmaSetMultiDimAddr (op_num_dims o) (op_dims o) addr n else DmaSetAddrLen addr n
  | None => DmaSetAddrLen addr n
  end.

Definition dst_plan (t : XAie_LocType) (dst_addr ch bd n : Z) (opt : option MovedataOpt) (buf : Z)
    : list xcall :=
  [DmaDescInit t] ++
  (if loc_row t =? 0
   then [MemAllocate n] ++ [MemFill (dev_addr buf) (n / 4)] ++ [MemSyncForDev buf]
        ++ [addr_call opt (dev_addr buf) n]
   else [addr_call opt dst_addr n]) ++
  [DmaEnableBd] ++ [DmaWriteBd t bd] ++ [DmaChannelPushBdToQueue t ch DMA_S2MM bd]
  ++ [DmaChannelEnable t ch DMA_S2MM].

Definition src_plan (t : XAie_LocType) (addr ch bd n pkt_id : Z) : list xcall :=
  [DmaDescInit t] ++ [DmaSetAddrLen addr n] ++ (if 0 <=? pkt_id then [DmaSetPkt pkt_id] else []) ++
  [DmaEnableBd] ++ [DmaWriteBd t bd] ++ [DmaChannelPushBdToQueue t ch DMA_MM2S bd]
  ++ [DmaChannelEnable t ch DMA_MM2S].

(** The handle the driver gives for the receive buffer. *)
Definition dst_buf (s : md) (t : XAie_LocType) (n : Z) : Z :=
  xaie (calls s ++ [DmaDescInit t]) (MemAllocate n).

Lemma follows_dst_addr opt addr n s :
  follows (set_dst_addr opt addr n) s [addr_call opt addr n] (fun _ => True).
Proof using.
  unfold set_dst_addr, addr_call. destruct opt as [o|]; [|apply follows_must].
  destruct (_ && _); apply follows_must.
Qed.

Lemma movedata_dst_follows t dst_addr ch bd n opt s :
  let buf := dst_buf s t n in
  follows (movedata_dst t dst_addr ch bd n opt) s (dst_plan t dst_addr ch bd n opt buf)
    (fun out => out = if loc_row t =? 0 then Some (buf, dev_addr buf) else None).
Proof using.
  intros buf. unfold movedata_dst, dst_plan.
  eapply follows_bind; [apply follows_must|]. intros ? s1 _ E1 _.
  apply (follows_bind _ _ _ _ _ _ _ (fun out => out = if loc_row t =? 0 then Some (buf, dev_addr buf) else None)).
  - destruct (loc_row t =? 0).
    + apply follows_call. replace (xaie (calls s1) (MemAllocate n)) with buf by (by rewrite E1).
      destruct (buf =? 0); [by apply follows_throw|].
      follow. apply follows_app_nil.
      eapply follows_bind; [apply follows_dst_addr|]. intros ? ? _ _ _. by apply follows_ret.
    + apply follows_app_nil.
      eapply follows_bind; [apply follows_dst_addr|]. intros ? ? _ _ _. by apply follows_ret.
  - intros out s2 -> _ _. apply follows_app_nil. follow. by apply follows_ret.
Qed.

Lemma movedata_src_follows t addr ch bd n pkt_id s :
  follows (movedata_src t addr ch bd n pkt_id) s (src_plan t addr ch bd n pkt_id) (fun _ => True).
Proof using.
  unfold movedata_src, src_plan. follow.
  eapply follows_bind; [apply follows_when, follows_must|]. intros ? ? _ _ _. follow.
Qed.

Definition movedata_plan (src_tile : XAie_LocType) (src_addr src_ch src_bd : Z) (dst_tile : XAie_LocType)
    (dst_addr dst_ch dst_bd data_bytes pkt_id : Z) (opt : option MovedataOpt) (buf : Z) : list xcall :=
  dst_plan dst_tile dst_addr dst_ch dst_bd data_bytes opt buf ++
  src_plan src_tile src_addr src_ch src_bd data_bytes pkt_id ++
  (if opt_mode opt =? MOVEDATA_MODE_BLOCKING then [DmaWaitForDone dst_tile dst_ch DMA_S2MM] else []).

(** The group map and the sources it was built from. *)
Definition same_bd (bd : Z) (srcs : list MovedataSrcDesc) : list MovedataSrcDesc :=
  filter (fun x => dst_bd x = bd) srcs.

Definition groups_ok (srcs : list MovedataSrcDesc) (m : gmap Z BdGroupInfo) : Prop :=
  forall bd, match m !! bd with
  | None => same_bd bd srcs = []
  | Some g =>
    gr_count g = len (same_bd bd srcs) /\
    Forall (fun x => src_dst_len x = gr_dst_len g /\ recv_phy x = gr_recv_phy g) (same_bd bd srcs) /\
    exists x, srcs !! Z.to_nat (gr_first g) = Some x /\ dst_bd x = bd /\ dst_num_dims x = gr_num_dims g
  end.

(** Two sources that name the same descriptor and disagree on it. *)
Definition sources_clash (srcs : list MovedataSrcDesc) : Prop :=
  exists x y, x ∈ srcs /\ y ∈ srcs /\ dst_bd x = dst_bd y /\
    (src_dst_len x <> src_dst_len y \/ recv_phy x <> recv_phy y).

Lemma same_bd_snoc bd srcs x :
  same_bd bd (srcs ++ [x]) = same_bd bd srcs ++ (if decide (dst_bd x = bd) then [x] else []).
Proof using. unfold same_bd. rewrite filter_app, filter_cons, filter_nil. by case_decide. Qed.

Lemma same_bd_in bd srcs x : x ∈ same_bd bd srcs <-> dst_bd x = bd /\ x ∈ srcs.
Proof using. unfold same_bd. by rewrite list_elem_of_filter. Qed.

Lemma group_step_ok srcs x m :
  groups_ok srcs m ->
  match group_step (len srcs) x m with
  | Some m' => groups_ok (srcs ++ [x]) m'
  | None => sources_clash (srcs ++ [x])
  end.
Proof using.
  intros Hm. unfold group_step. pose proof (Hm (dst_bd x)) as Hx.
  assert ((srcs ++ [x]) !! Z.to_nat (len srcs) = Some x) as Hlast.
  { unfold len. rewrite Nat2Z.id. by apply list_lookup_middle. }
  destruct (m !! dst_bd x) as [g|] eqn:E.
  - destruct Hx as (Hc & Hf & y & Hy & Hyb & Hyd).
    assert (y ∈ same_bd (dst_bd x) srcs) as Hin.
    { apply same_bd_in. split; [done|]. by eapply list_elem_of_lookup_2. }
    rewrite Forall_forall in Hf. destruct (Hf y Hin) as [F1 F2].
    assert (y ∈ srcs ++ [x] /\ x ∈ srcs ++ [x]) as [Y X].
    { apply same_bd_in in Hin. rewrite !elem_of_app, !list_elem_of_singleton. split; [left; apply Hin|by right]. }
    destruct (Z.eqb_spec (gr_dst_len g) (src_dst_len x)) as [E1|E1]; cbn [negb]; cycle 1.
    { exists y, x. split_and!; [done..|]. left. congruence. }
    destruct (Z.eqb_spec (gr_recv_phy g) (recv_phy x)) as [E2|E2]; cbn [negb]; cycle 1.
    { exists y, x. split_and!; [done..|]. right. congruence. }
    intros bd. destruct (decide (bd = dst_bd x)) as [->|Hne].
    + rewrite lookup_insert_eq, same_bd_snoc, decide_True by done. simpl. split_and!.
      * rewrite len_app, Hc. by rewrite len_cons, len_nil.
      * apply Forall_app. split; [by apply Forall_forall|by apply Forall_singleton].
      * exists y. split; [|done]. rewrite lookup_app_l; [done|]. by eapply lookup_lt_Some.
    + rewrite lookup_insert_ne by done. rewrite same_bd_snoc, decide_False, app_nil_r by done.
      specialize (Hm bd). destruct (m !! bd) as [g'|]; [|done].
      destruct Hm as (? & ? & z & Hz & ?). split_and!; [done..|]. exists z.
      rewrite lookup_app_l; [done|]. by eapply lookup_lt_Some.
  - intros bd. destruct (decide (bd = dst_bd x)) as [->|Hne].
    + rewrite lookup_insert_eq, same_bd_snoc, decide_True, Hx by done. simpl. split_and!.
      * done.
      * by apply Forall_singleton.
      * by exists x.
    + rewrite lookup_insert_ne by done. rewrite same_bd_snoc, decide_False, app_nil_r by done.
      specialize (Hm bd). destruct (m !! bd) as [g'|]; [|done].
      destruct Hm as (? & ? & z & Hz & ?). split_and!; [done..|]. exists z.
      rewrite lookup_app_l; [done|]. by eapply lookup_lt_Some.
Qed.

Lemma clash_app srcs ys : sources_clash srcs -> sources_clash (srcs ++ ys).
Proof using.
  intros (x & y & H1 & H2 & H3). exists x, y. rewrite !elem_of_app. tauto.
Qed.

Lemma group_srcs_ok done_ srcs m :
  groups_ok done_ m ->
  match group_srcs (len done_) srcs m with
  | Some m' => groups_ok (done_ ++ srcs) m'
  | None => sources_clash (done_ ++ srcs)
  end.
Proof using.
  revert done_ m. induction srcs as [|x srcs IH]; intros d m Hm; simpl; [by rewrite app_nil_r|].
  pose proof (group_step_ok d x m Hm) as Hs.
  replace (d ++ x :: srcs) with ((d ++ [x]) ++ srcs) by (by rewrite <- app_assoc).
  destruct (group_step (len d) x m) as [m'|]; simpl; [|by apply clash_app].
  replace (len d + 1) with (len (d ++ [x])) by (rewrite len_app, len_cons, len_nil; lia).
  by apply IH.
Qed.

(** The transfers of all groups: as many as sources. *)
Definition total_count (m : gmap Z BdGroupInfo) : Z := map_fold (fun _ g acc => gr_count g + acc) 0 m.

Lemma total_insert bd g m :
  m !! bd = None -> total_count (<[bd := g]> m) = gr_count g + total_count m.
Proof using.
  intros H. unfold total_count. apply (map_fold_insert_L (fun (_ : Z) g acc => gr_count g + acc)); [intros; lia|done].
Qed.

Lemma group_srcs_total i srcs m m' :
  group_srcs i srcs m = Some m' -> total_count m' = total_count m + len srcs.
Proof using.
  revert i m. induction srcs as [|x srcs IH]; intros i m H; simpl in H.
  { simplify_eq. rewrite len_nil. lia. }
  apply bind_Some in H as (m1 & E & H). rewrite (IH _ _ H), len_cons.
  unfold group_step in E. destruct (m !! dst_bd x) as [g|] eqn:Eg.
  - repeat case_match; simplify_eq. rewrite <- insert_delete_eq.
    rewrite total_insert by apply lookup_delete_eq. simpl.
    rewrite <- (insert_delete_id m (dst_bd x) g) at 2 by done.
    rewrite (total_insert (dst_bd x) g) by apply lookup_delete_eq. lia.
  - simplify_eq. rewrite total_insert by done. simpl. lia.
Qed.

(** ** The operations *)

Definition pending_of (mode : Z) (t : XAie_LocType) (ch : Z) : list MovedataPending :=
  if mode =? MOVEDATA_MODE_BLOCKING then [] else [Pending t ch DMA_S2MM].

(** The list of pending transfers never outgrows its array. *)
Definition pending_ok (s : md) : Prop := g_pending_count s <= MOVEDATA_MAX_PENDING.

Lemma movedata_start_follows src_tile src_addr src_ch src_bd dst_tile dst_addr dst_ch dst_bd n pkt_id opt s :
  let buf := dst_buf s dst_tile n in
  follows (out ← movedata_dst dst_tile dst_addr dst_ch dst_bd n opt;
           movedata_src src_tile src_addr src_ch src_bd n pkt_id ;; mret out) s
    (dst_plan dst_tile dst_addr dst_ch dst_bd n opt buf ++ src_plan src_tile src_addr src_ch src_bd n pkt_id)
    (fun out => out = if loc_row dst_tile =? 0 then Some (buf, dev_addr buf) else None).
Proof using.
  intros buf. eapply follows_bind; [apply movedata_dst_follows|]. intros out s1 Hout _ _.
  apply follows_app_nil. eapply follows_bind; [apply movedata_src_follows|]. intros ? ? _ _ _.
  by apply follows_ret.
Qed.

Lemma movedata_split src_tile src_addr src_ch src_bd dst_tile dst_addr dst_ch dst_bd n pkt_id opt s :
  Runtime_Movedata src_tile src_addr src_ch src_bd dst_tile dst_addr dst_ch dst_bd n pkt_id opt s =
  (out ← (out ← movedata_dst dst_tile dst_addr dst_ch dst_bd n opt;
          movedata_src src_tile src_addr src_ch src_bd n pkt_id ;; mret out);
   movedata_finish (opt_mode opt) dst_tile dst_ch ;; mret out) s.
Proof using.
  unfold Runtime_Movedata, mbind, stE_bind, mret, stE_ret.
  destruct (movedata_dst _ _ _ _ _ _ s) as [s1 [out|e]]; [|done].
  by destruct (movedata_src _ _ _ _ _ _ s1) as [s2 [[]|e]].
Qed.

(** In a prefix of the plan, the source is pushed only once the destination
    is enabled. *)
Lemma dst_first src_tile src_addr src_ch src_bd dst_tile dst_addr dst_ch dst_bd n pkt_id opt buf k t ch bd :
  let done_ := take k (movedata_plan src_tile src_addr src_ch src_bd dst_tile dst_addr dst_ch dst_bd n pkt_id opt buf) in
  DmaChannelPushBdToQueue t ch DMA_MM2S bd ∈ done_ ->
  dst_plan dst_tile dst_addr dst_ch dst_bd n opt buf `prefix_of` done_.
Proof using.
  clear xaie visit. intros done_ Hin. unfold done_, movedata_plan in *. set (dp := dst_plan _ _ _ _ _ _ _) in *.
  destruct (decide (length dp <= k)%nat) as [Hk|Hk].
  - rewrite take_app_ge by done. by apply prefix_app_r.
  - rewrite take_app_le in Hin by lia. apply (subseteq_take k dp) in Hin as Hi.
    exfalso. revert Hi. unfold dp, dst_plan, addr_call.
    destruct opt as [o|]; repeat case_match; rewrite !elem_of_app, !list_elem_of_singleton;
      intuition discriminate.
Qed.

(** The waits of [Runtime_Movedata_WaitAll] and what they give. *)
Definition wait_of (p : MovedataPending) : xcall := DmaWaitForDone (pe_tile p) (pe_ch p) (pe_dir p).

Fixpoint wait_results (cs : list xcall) (ps : list MovedataPending) : list Z :=
  match ps with
  | [] => []
  | p :: ps => xaie cs (wait_of p) :: wait_results (cs ++ [wait_of p]) ps
  end.

Definition first_error (rcs : list Z) : Z := default XAIE_OK (head (filter (fun rc => rc <> XAIE_OK) rcs)).

Lemma wait_pending_run ps RC s :
  wait_pending ps RC s =
  (Md (g_pending s) (calls s ++ (wait_of <$> ps)),
   Ok (if RC =? XAIE_OK then first_error (wait_results (calls s) ps) else RC)).
Proof using.
  clear dev_addr visit. revert RC s. induction ps as [|p ps IH]; intros RC s; simpl.
  - rewrite app_nil_r. unfold mret, stE_ret. destruct s. do 2 f_equal. simpl.
    by destruct (Z.eqb_spec RC XAIE_OK).
  - unfold mbind, stE_bind, call. fold (wait_of p). rewrite IH. simpl.
    rewrite <- app_assoc. do 2 f_equal. unfold first_error. rewrite filter_cons.
    destruct (Z.eqb_spec (xaie (calls s) (wait_of p)) XAIE_OK) as [E|E]; simpl.
    + by rewrite decide_False by tauto.
    + rewrite decide_True by done. destruct (RC =? XAIE_OK) eqn:ER; simpl; [|by rewrite ER].
      by destruct (Z.eqb_spec (xaie (calls s) (wait_of p)) XAIE_OK).
Qed.

(** The descriptors of a many-to-one transfer. *)
Definition group_plan (srcs : list MovedataSrcDesc) (t : XAie_LocType) (kv : Z * BdGroupInfo) : list xcall :=
  let '(bd_id, g) := kv in
  [DmaDescInit t] ++
  [if 0 <? gr_num_dims g
   then DmaSetMultiDimAddr (gr_num_dims g) (from_option dst_dims [] (srcs !! Z.to_nat (gr_first g)))
          (gr_recv_phy g) (gr_dst_len g)
   else DmaSetAddrLen (gr_recv_phy g) (gr_dst_len g)] ++
  (if 1 <? gr_count g then [DmaSetBdIteration (gr_dst_len g / 4) (gr_count g)] else []) ++
  [DmaEnableBd] ++ [DmaWriteBd t bd_id].

Definition ooo_plan (t : XAie_LocType) (ch bd n : Z) : list xcall :=
  [DmaChannelDescInit t] ++ [DmaChannelEnOutofOrder] ++ [DmaWriteChannel t ch DMA_S2MM]
  ++ [DmaChannelSetStartQueue t ch DMA_S2MM bd n].

Definition source_plan (ooo_bd : Z) (s : MovedataSrcDesc) : list xcall :=
  [DmaDescInit (src_tile s)] ++ [DmaSetAddrLen (src_addr s) (data_bytes s)] ++
  (if 0 <=? src_pkt_id s then [DmaSetPkt (src_pkt_id s)] else []) ++
  [DmaSetOutofOrderBdId ooo_bd] ++ [DmaEnableBd] ++ [DmaWriteBd (src_tile s) (src_bd s)] ++
  [DmaChannelPushBdToQueue (src_tile s) (src_ch s) DMA_MM2S (src_bd s)] ++
  [DmaChannelEnable (src_tile s) (src_ch s) DMA_MM2S].

Lemma write_group_follows srcs t kv s :
  follows (write_group srcs t kv) s (group_plan srcs t kv) (fun _ => True).
Proof using.
  destruct kv as [bd g]. unfold write_group, group_plan. follow.
  eapply follows_bind; [destruct (0 <? gr_num_dims g); apply follows_must|]. intros ? ? _ _ _.
  eapply follows_bind; [apply follows_when, follows_must|]. intros ? ? _ _ _. follow.
Qed.

Lemma start_ooo_follows t ch bd n s :
  follows (start_ooo t ch bd n) s (ooo_plan t ch bd n) (fun _ => True).
Proof using. unfold start_ooo, ooo_plan. follow. Qed.

Lemma start_source_follows bd x s :
  follows (start_source bd x) s (source_plan bd x) (fun _ => True).
Proof using.
  unfold start_source, source_plan. follow.
  eapply follows_bind; [apply follows_when, follows_must|]. intros ? ? _ _ _. follow.
Qed.

(** What the checks let through. *)
Definition many_valid (srcs : list MovedataSrcDesc) (t : XAie_LocType) (s : md) : Prop :=
  1 <= len srcs <= MOVEDATA_MAX_SOURCES /\ loc_row t = 0 /\ g_pending_count s < MOVEDATA_MAX_PENDING.

Lemma many_checks_run srcs t s :
  (many_valid srcs t s /\ many_checks (len srcs) t s = (s, Ok tt)) \/
  (~ many_valid srcs t s /\ many_checks (len srcs) t s = (s, Err XAIE_ERR)).
Proof using.
  clear. unfold many_checks, many_valid, when, gets, throw, mbind, stE_bind, mret, stE_ret.
  destruct ((len srcs <=? 0) || (MOVEDATA_MAX_SOURCES <? len srcs)) eqn:E1; [right; split; [lia|done]|].
  destruct (negb (loc_row t =? 0)) eqn:E2; [right; split; [lia|done]|].
  destruct (MOVEDATA_MAX_PENDING <? g_pending_count s + 1) eqn:E3; [right; split; [lia|done]|].
  left. split; [lia|done].
Qed.

Lemma finishes_record t ch dir s :
  records (record_pending t ch dir) s [] [Pending t ch dir] (fun _ => True).
Proof using. by apply (finishes_modify id _ (fun l => l ++ [Pending t ch dir])). Qed.

(** The destination groups, the channel and the sources of
    [Runtime_Movedata_ManyToOne], the groups in the order [order]. *)
Definition many_plan (srcs : list MovedataSrcDesc) (t : XAie_LocType) (ch : Z)
    (order : list (Z * BdGroupInfo)) : list xcall :=
  concat (group_plan srcs t <$> order) ++ ooo_plan t ch 0 (len srcs) ++
  concat ((fun x => source_plan (dst_bd x) x) <$> srcs) ++ [].

Lemma many_run srcs t ch s :
  Runtime_Movedata_ManyToOne srcs t ch s = (s, Err XAIE_ERR) /\
    (many_valid srcs t s -> sources_clash srcs) \/
  exists groups, many_valid srcs t s /\ group_srcs 0 srcs ∅ = Some groups /\ groups_ok srcs groups /\
    records (Runtime_Movedata_ManyToOne srcs t ch) s (many_plan srcs t ch (visit (map_to_list groups)))
      [Pending t ch DMA_S2MM] (fun _ => True).
Proof using.
  pose proof (group_srcs_ok [] srcs ∅) as Hg. rewrite len_nil in Hg.
  destruct (many_checks_run srcs t s) as [[Hv Hc]|[Hv Hc]]; cycle 1.
  { left. split; [|done]. unfold Runtime_Movedata_ManyToOne. by erewrite bind_Err by exact Hc. }
  destruct (group_srcs 0 srcs ∅) as [groups|] eqn:Eg; [right|left; split; [|intros _; by apply Hg]].
  - exists groups. split; [done|]. split; [done|]. split; [by apply Hg|].
    eapply finishes_skip; [exact Hc|]. cbv beta. rewrite Eg.
    eapply follows_bind; [apply follows_forM, write_group_follows|]. intros ? s1 _ _ _.
    eapply follows_bind; [apply start_ooo_follows|]. intros ? s2 _ _ _.
    eapply follows_bind; [apply follows_forM; intros; apply start_source_follows|]. intros ? s3 _ _ _.
    apply finishes_record.
  - unfold Runtime_Movedata_ManyToOne. erewrite bind_Ok by exact Hc. by rewrite Eg.
Qed.

Definition single_plan (srcs : list MovedataSrcDesc) (t : XAie_LocType) (ch bd addr per_src num_dims : Z)
    (dims : option dims_t) (iter_step_size : Z) : list xcall :=
  [DmaDescInit t] ++
  [match dims with
   | Some dims => if 0 <? num_dims then DmaSetMultiDimAddr num_dims dims addr per_src
                  else DmaSetAddrLen addr per_src
   | None => DmaSetAddrLen addr per_src
   end] ++
  [DmaSetBdIteration (if iter_step_size <=? 0 then s32 (per_src / 4) else iter_step_size) (len srcs)] ++
  [DmaEnableBd] ++ [DmaWriteBd t bd] ++ ooo_plan t ch bd (len srcs) ++
  concat (source_plan bd <$> srcs) ++ [].

Lemma single_run srcs t ch bd addr per_src num_dims dims step s :
  many_valid srcs t s ->
  records (Runtime_Movedata_ManyToOne_SingleDstBd srcs t ch bd addr per_src num_dims dims step) s
    (single_plan srcs t ch bd addr per_src num_dims dims step) [Pending t ch DMA_S2MM] (fun _ => True).
Proof using.
  intros Hv. destruct (many_checks_run srcs t s) as [[_ Hc]|[Hn _]]; [|done].
  eapply finishes_skip; [exact Hc|]. cbv beta zeta.
  eapply (follows_bind _ _ _ _ [_]); [apply follows_must|]. intros ? ? _ _ _.
  eapply (follows_bind _ _ _ _ [_]).
  { destruct dims as [dims|]; [destruct (0 <? num_dims)|]; apply follows_must. }
  intros ? ? _ _ _. eapply (follows_bind _ _ _ _ [_]); [apply follows_must|]. intros ? ? _ _ _.
  eapply (follows_bind _ _ _ _ [_]); [apply follows_ignore|]. intros ? ? _ _ _.
  eapply (follows_bind _ _ _ _ [_]); [apply follows_must|]. intros ? ? _ _ _.
  eapply follows_bind; [apply start_ooo_follows|]. intros ? ? _ _ _.
  eapply follows_bind; [apply follows_forM; intros; apply start_source_follows|]. intros ? ? _ _ _.
  apply finishes_record.
Qed.

Lemma groups_no_clash srcs m : groups_ok srcs m -> ~ sources_clash srcs.
Proof using.
  clear. intros Hm (x & y & Hx & Hy & E & Hne). specialize (Hm (dst_bd x)).
  assert (x ∈ same_bd (dst_bd x) srcs) as X by (by apply same_bd_in).
  assert (y ∈ same_bd (dst_bd x) srcs) as Y by (by apply same_bd_in).
  destruct (m !! dst_bd x) as [g|]; [|rewrite Hm in X; by apply elem_of_nil in X].
  destruct Hm as (_ & Hf & _). rewrite Forall_forall in Hf.
  destruct (Hf x X), (Hf y Y). destruct Hne; congruence.
Qed.

Lemma groups_bds srcs m bd : groups_ok srcs m -> bd ∈ (map_to_list m).*1 <-> bd ∈ dst_bd <$> srcs.
Proof using.
  clear. intros Hm. specialize (Hm bd). rewrite !list_elem_of_fmap. split.
  - intros ([bd' g] & -> & H). apply elem_of_map_to_list in H. simpl in *. rewrite H in Hm.
    destruct Hm as (_ & _ & x & Hx & E & _). exists x. split; [done|]. by eapply list_elem_of_lookup_2.
  - intros (x & -> & Hx). destruct (m !! dst_bd x) as [g|] eqn:E.
    + exists (dst_bd x, g). split; [done|]. by apply elem_of_map_to_list.
    + assert (x ∈ same_bd (dst_bd x) srcs) as X by (by apply same_bd_in).
      rewrite Hm in X. by apply elem_of_nil in X.
Qed.

(** [Runtime_Movedata] makes the driver calls of its plan in order:
    the receive descriptor (on a shim, of a fresh DDR buffer) is written,
    queued and its channel enabled before anything of the source is
    touched, then the source, then in blocking mode the wait.  Success
    means that all of them were made, and that a non-blocking transfer was
    added to the pending list, within its bound; an error code other than
    [XAIE_OK] leaves a prefix of the plan and the pending list as it was,
    and if a source was pushed its destination is armed. *)
Theorem movedata_follows_plan src_tile src_addr src_ch src_bd dst_tile dst_addr dst_ch dst_bd n pkt_id opt s :
  let buf := dst_buf s dst_tile n in
  let plan := movedata_plan src_tile src_addr src_ch src_bd dst_tile dst_addr dst_ch dst_bd n pkt_id opt buf in
  match Runtime_Movedata src_tile src_addr src_ch src_bd dst_tile dst_addr dst_ch dst_bd n pkt_id opt s with
  | (s', Ok out) =>
    calls s' = calls s ++ plan /\
    out = (if loc_row dst_tile =? 0 then Some (buf, dev_addr buf) else None) /\
    g_pending s' = g_pending s ++ pending_of (opt_mode opt) dst_tile dst_ch /\
    (pending_ok s -> pending_ok s')
  | (s', Err e) =>
    e <> XAIE_OK /\ g_pending s' = g_pending s /\
    exists k, calls s' = calls s ++ take k plan /\
      forall t ch bd, DmaChannelPushBdToQueue t ch DMA_MM2S bd ∈ take k plan ->
        dst_plan dst_tile dst_addr dst_ch dst_bd n opt buf `prefix_of` take k plan
  end.
Proof using.
  intros buf plan. rewrite movedata_split.
  pose proof (movedata_start_follows src_tile src_addr src_ch src_bd dst_tile dst_addr dst_ch dst_bd
    n pkt_id opt s) as H. cbv zeta in H. fold buf in H. unfold finishes, id in H.
  set (cs := _ ++ src_plan _ _ _ _ _ _) in H.
  assert (plan = cs ++ (if opt_mode opt =? MOVEDATA_MODE_BLOCKING
                        then [DmaWaitForDone dst_tile dst_ch DMA_S2MM] else [])) as Hplan.
  { unfold plan, movedata_plan, cs. by rewrite <- app_assoc. }
  assert (forall k t ch bd, DmaChannelPushBdToQueue t ch DMA_MM2S bd ∈ take k plan ->
    dst_plan dst_tile dst_addr dst_ch dst_bd n opt buf `prefix_of` take k plan) as Hfirst.
  { intros k t ch bd. apply dst_first. }
  set (m := _ ≫= _) in H |- *. unfold mbind at 1, stE_bind at 1.
  destruct (m s) as [s1 [out|e]]; cycle 1.
  { destruct H as (He & Hp & k & Hk). split; [done|]. split; [done|].
    exists (Nat.min k (length cs)). split; [|apply Hfirst].
    by rewrite Hk, Hplan, <- take_app_min. }
  destruct H as (E1 & E2 & Hout). rewrite Hplan in Hfirst |- *. unfold movedata_finish, pending_of.
  destruct (opt_mode opt =? MOVEDATA_MODE_BLOCKING).
  - unfold must, call, throw, mbind, stE_bind, mret, stE_ret.
    destruct (Z.eqb_spec (xaie (calls s1) (DmaWaitForDone dst_tile dst_ch DMA_S2MM)) XAIE_OK); simpl.
    + unfold pending_ok, g_pending_count. simpl. rewrite E1, E2, app_nil_r, <- app_assoc. done.
    + split; [done|]. split; [done|]. exists (length (cs ++ [DmaWaitForDone dst_tile dst_ch DMA_S2MM])).
      split; [|apply Hfirst]. by rewrite firstn_all, E1, <- app_assoc.
  - unfold gets, record_pending, modify, throw, mbind, stE_bind, mret, stE_ret.
    destruct (Z.leb_spec MOVEDATA_MAX_PENDING (g_pending_count s1)); simpl.
    + split; [done|]. split; [done|]. exists (length (cs ++ [])).
      split; [|apply Hfirst]. by rewrite firstn_all, app_nil_r, E1.
    + rewrite E1, E2, app_nil_r. split_and!; [done..|]. intros _.
      unfold pending_ok, g_pending_count in *. simpl. rewrite E2 in *.
      rewrite len_app, len_cons, len_nil. lia.
Qed.

(** [Runtime_Movedata_WaitAll] waits once for every pending transfer,
    in the order they were started, whether or not an earlier wait failed;
    it returns the first error, [XAIE_OK] exactly if there was none, and
    leaves no transfer pending. *)
Theorem wait_all_waits s :
  let results := wait_results (calls s) (g_pending s) in
  Runtime_Movedata_WaitAll s =
    (Md [] (calls s ++ (wait_of <$> g_pending s)), Ok (first_error results)) /\
  (first_error results = XAIE_OK <-> Forall (fun rc => rc = XAIE_OK) results).
Proof using.
  clear dev_addr visit. intros results. split.
  - unfold Runtime_Movedata_WaitAll. unfold mbind at 1, stE_bind at 1, gets.
    erewrite bind_Ok by apply wait_pending_run. done.
  - unfold first_error. clear. induction results as [|r rs IH]; simpl; [by rewrite Forall_nil|].
    rewrite filter_cons, Forall_cons. case_decide as Hr; simpl; [tauto|].
    rewrite IH. destruct (decide (r = XAIE_OK)); tauto.
Qed.

(** C29.  [Runtime_Movedata_ManyToOne] succeeds only for one to sixteen
    sources, a shim destination, a free pending entry and sources that
    agree on every descriptor they share; then every receive descriptor
    that a source names is written once, with the length and address its
    sources agree on and, when several share it, an iteration over as many
    transfers as there are such sources; the counts add up to the number of
    sources, for which the channel is started, each source is sent to its
    descriptor, and one more transfer is pending.  Failure keeps the pending
    list, and if a condition is not met no driver call is made. *)
Theorem many_to_one_groups srcs t ch s :
  (forall l, visit l ≡ₚ l) ->
  match Runtime_Movedata_ManyToOne srcs t ch s with
  | (s', Ok _) =>
    many_valid srcs t s /\ ~ sources_clash srcs /\
    exists groups, groups_ok srcs groups /\ total_count groups = len srcs /\
      let order := visit (map_to_list groups) in
      order ≡ₚ map_to_list groups /\ NoDup order.*1 /\ (forall bd, bd ∈ order.*1 <-> bd ∈ dst_bd <$> srcs) /\
      calls s' = calls s ++ many_plan srcs t ch order /\
      g_pending s' = g_pending s ++ [Pending t ch DMA_S2MM] /\ pending_ok s'
  | (s', Err e) =>
    e <> XAIE_OK /\ g_pending s' = g_pending s /\
    (s' = s \/ many_valid srcs t s /\ ~ sources_clash srcs /\ exists k order, calls s' = calls s ++ take k (many_plan srcs t ch order))
  end.
Proof using.
  intros Hvisit. destruct (many_run srcs t ch s) as [[-> _]|(groups & Hv & Hg & Hok & H)]; [auto|].
  unfold finishes, id in H. pose proof (groups_no_clash _ _ Hok) as Hnc.
  destruct (Runtime_Movedata_ManyToOne srcs t ch s) as [s' [[]|e]].
  - destruct H as (E1 & E2 & _). split; [done|]. split; [done|]. exists groups. split; [done|].
    assert ((visit (map_to_list groups)).*1 ≡ₚ (map_to_list groups).*1) as Hp by (by rewrite Hvisit).
    cbv zeta. split_and!; [|apply Hvisit| | |done|done|].
    + rewrite (group_srcs_total _ _ _ _ Hg). unfold total_count. by rewrite map_fold_empty.
    + rewrite Hp. apply NoDup_fst_map_to_list.
    + intros bd. rewrite Hp. by apply groups_bds.
    + destruct Hv as (_ & _ & Hv). unfold pending_ok, g_pending_count in *.
      rewrite E2, len_app, len_cons, len_nil. lia.
  - destruct H as (He & Hpe & k & Hk). split; [done|]. split; [done|]. right.
    split; [done|]. split; [done|]. by exists k, (visit (map_to_list groups)).
Qed.

(** [Runtime_Movedata_ManyToOne_SingleDstBd] refuses invalid
    arguments before any driver call; otherwise it follows its plan: one
    receive descriptor that steps once per source (contiguously when no
    step is given), the channel started once per source, and each source
    sent to that descriptor. *)
Theorem single_dst_follows srcs t ch bd addr per_src num_dims dims step s :
  let r := Runtime_Movedata_ManyToOne_SingleDstBd srcs t ch bd addr per_src num_dims dims step s in
  (many_valid srcs t s /\
   match r with
   | (s', Ok _) => calls s' = calls s ++ single_plan srcs t ch bd addr per_src num_dims dims step /\
       g_pending s' = g_pending s ++ [Pending t ch DMA_S2MM] /\ pending_ok s'
   | (s', Err e) => e <> XAIE_OK /\ g_pending s' = g_pending s /\
       exists k, calls s' = calls s ++ take k (single_plan srcs t ch bd addr per_src num_dims dims step)
   end) \/ (~ many_valid srcs t s /\ r = (s, Err XAIE_ERR)).
Proof using.
  intros r. destruct (many_checks_run srcs t s) as [[Hv _]|[Hv Hc]]; [left|right]; (split; [done|]); cycle 1.
  { unfold r, Runtime_Movedata_ManyToOne_SingleDstBd. by erewrite bind_Err by exact Hc. }
  pose proof (single_run srcs t ch bd addr per_src num_dims dims step s Hv) as H.
  unfold finishes, id in H. fold r in H. destruct r as [s' [[]|e]]; [|done].
  destruct H as (? & E & _). split; [done|]. split; [done|]. destruct Hv as (_ & _ & Hv).
  unfold pending_ok, g_pending_count in *. rewrite E, len_app, len_cons, len_nil. lia.
Qed.
End movedata.

(** A driver whose calls all succeed and whose buffers are numbered 1. *)
Definition xaie_ok (cs : list xcall) (c : xcall) : Z :=
  match c with MemAllocate _ => 1 | _ => XAIE_OK end.

Definition example_srcs : list MovedataSrcDesc :=
  [Src (Loc 3 0) 0x400 0 1 4 64 0 5 0 [] 0x1000; Src (Loc 3 1) 0x400 0 1 4 64 0 6 0 [] 0x1000;
   Src (Loc 4 0) 0x400 0 1 7 32 0 (-1) 0 [] 0x2000].

Lemma many_to_one_groups_witness :
  match Runtime_Movedata_ManyToOne xaie_ok id example_srcs (Loc 0 2) 1 (Md [] []) with
  | (s', Ok _) => exists groups, groups_ok example_srcs groups /\ total_count groups = 3
  | (_, Err _) => False
  end.
Proof.
  pose proof (many_to_one_groups xaie_ok id example_srcs (Loc 0 2) 1 (Md [] []) (fun l => reflexivity l)) as H.
  assert (match snd (Runtime_Movedata_ManyToOne xaie_ok id example_srcs (Loc 0 2) 1 (Md [] [])) with
          | Ok _ => true | Err _ => false end = true) as E by (vm_compute; reflexivity).
  destruct (Runtime_Movedata_ManyToOne xaie_ok id example_srcs (Loc 0 2) 1 (Md [] [])) as [s' [[]|e]].
  - destruct H as (_ & _ & groups & Hg & Ht & _). exists groups. split; [exact Hg|exact Ht].
  - discriminate E.
Defined.

(** A non-blocking [Runtime_Movedata] with a full pending list starts
    the whole transfer and then reports an error: nothing will wait for a
    transfer that is running. *)
Theorem movedata_full_list dev_addr ps cs src_tile src_addr src_ch src_bd dst_tile dst_addr dst_ch dst_bd n pkt_id o :
  len ps = MOVEDATA_MAX_PENDING -> op_mode o <> MOVEDATA_MODE_BLOCKING ->
  exists s', Runtime_Movedata xaie_ok dev_addr src_tile src_addr src_ch src_bd dst_tile dst_addr dst_ch dst_bd n
      pkt_id (Some o) (Md ps cs) = (s', Err XAIE_ERR) /\
    g_pending s' = ps /\
    calls s' = cs ++ movedata_plan dev_addr src_tile src_addr src_ch src_bd dst_tile dst_addr dst_ch dst_bd n
      pkt_id (Some o) 1.
Proof.
  intros Hps Hm. apply Z.eqb_neq in Hm.
  unfold Runtime_Movedata, movedata_plan, movedata_dst, movedata_src, movedata_finish, set_dst_addr, dst_plan,
    src_plan, addr_call, opt_mode, when. rewrite Hm.
  destruct (loc_row dst_tile =? 0); destruct (_ && _); destruct (0 <=? pkt_id);
    unfold must, ignore, call, gets, throw, mbind, stE_bind, mret, stE_ret, g_pending_count; simpl; rewrite Hps;
    eexists; (split; [reflexivity|]); (split; [done|]); simpl; by rewrite <- !app_assoc.
Qed.

Lemma movedata_full_list_witness :
  let ps := replicate 16 (Pending (Loc 0 1) 0 DMA_S2MM) in
  len ps = 16 /\
  snd (Runtime_Movedata xaie_ok id (Loc 3 0) 0 0 0 (Loc 3 1) 0 0 0 64 (-1) (Some (Opt MOVEDATA_MODE_OOO 0 [])) (Md ps []))
    = Err XAIE_ERR.
Proof.
  intros ps. split; [reflexivity|].
  destruct (movedata_full_list id ps [] (Loc 3 0) 0 0 0 (Loc 3 1) 0 0 0 64 (-1) (Opt MOVEDATA_MODE_OOO 0 [])) as (s' & E & _).
  - reflexivity.
  - intros H. discriminate H.
  - rewrite E. reflexivity.
Defined.
