(* ===== verification/TraceRes.v ===== *)
(** * Trace resources ([src/src/mlir/runtime/aie_runtime.c], 431-748)

    Queries on the resource map that the routing pass generates, and the choice
    of a stream channel, memory-tile channel, packet id and arbiter for a core
    trace that neither the data plane nor an earlier trace uses.  Built with a
    resource map ([AIE_HAVE_RESOURCE_MAP]). *)

From stdpp Require Import base list list_numbers numbers strings.
From S2P Require Import Prelude.

Local Open Scope Z_scope.
Local Open Scope c_scope.

(** One tile's use of stream-switch resources; a direction may be [NULL]. *)
Record AieResourceEntry := Entry {
  e_col : Z; e_row : Z;
  recv_dir : option string; recv_idx : Z; recv_pktid : Z; recv_arbiter : Z;
  dma_dir : option string; dma_idx : Z; dma_pktid : Z; dma_arbiter : Z;
  fwd_dir : option string; fwd_idx : Z; fwd_arbiter : Z;
  slave_dir : option string; slave_idx : Z;
  master_dir : option string; master_idx : Z }.

(** [p && strcmp(p, dir) == 0 && idx == i]. *)
Definition port_is (p : option string) (idx : Z) (dir : string) (i : Z) : bool :=
  match p with Some d => String.eqb d dir && (idx =? i) | None => false end.

Definition on_tile (col row : Z) (e : AieResourceEntry) : bool := (e_col e =? col) && (e_row e =? row).

Definition resmap_master_used (rm : list AieResourceEntry) (col row : Z) (dir : string) (idx : Z) : bool :=
  existsb (fun e => on_tile col row e &&
    (port_is (fwd_dir e) (fwd_idx e) dir idx || port_is (master_dir e) (master_idx e) dir idx)) rm.

Definition resmap_slave_used (rm : list AieResourceEntry) (col row : Z) (dir : string) (idx : Z) : bool :=
  existsb (fun e => on_tile col row e &&
    (port_is (recv_dir e) (recv_idx e) dir idx || port_is (dma_dir e) (dma_idx e) dir idx ||
     port_is (slave_dir e) (slave_idx e) dir idx)) rm.

Definition resmap_pktid_used (rm : list AieResourceEntry) (col row id : Z) : bool :=
  existsb (fun e => on_tile col row e && ((recv_pktid e =? id) || (dma_pktid e =? id))) rm.

Definition resmap_arbiter_used (rm : list AieResourceEntry) (col row arb : Z) : bool :=
  existsb (fun e => on_tile col row e &&
    (((0 <=? recv_idx e) && (recv_arbiter e =? arb)) || ((0 <=? dma_idx e) && (dma_arbiter e =? arb)) ||
     ((0 <=? fwd_idx e) && (fwd_arbiter e =? arb)))) rm.

Definition resmap_dma_used (rm : list AieResourceEntry) (col row ch : Z) : bool :=
  existsb (fun e => on_tile col row e &&
    (port_is (recv_dir e) (recv_idx e) "DMA" ch || port_is (dma_dir e) (dma_idx e) "DMA" ch ||
     port_is (fwd_dir e) (fwd_idx e) "DMA" ch || port_is (slave_dir e) (slave_idx e) "DMA" ch ||
     port_is (master_dir e) (master_idx e) "DMA" ch)) rm.

Inductive StrmSwPortType :=
| CORE | DMA | CTRL | FIFO | SOUTH | WEST | NORTH | EAST | TRACE | SS_PORT_TYPE_MAX.
Inductive XAie_StrmPortIntf := XAIE_STRMSW_SLAVE | XAIE_STRMSW_MASTER.

#[export] Instance port_eq_dec : EqDecision StrmSwPortType.
Proof. solve_decision. Defined.
#[export] Instance intf_eq_dec : EqDecision XAie_StrmPortIntf.
Proof. solve_decision. Defined.

Definition resmap_dir_to_port_type (dir : option string) : StrmSwPortType :=
  match dir with
  | None => SS_PORT_TYPE_MAX
  | Some d =>
    if String.eqb d "CORE" then CORE else if String.eqb d "DMA" then DMA
    else if String.eqb d "CTRL" then CTRL else if String.eqb d "FIFO" then FIFO
    else if String.eqb d "SOUTH" then SOUTH else if String.eqb d "WEST" then WEST
    else if String.eqb d "NORTH" then NORTH else if String.eqb d "EAST" then EAST
    else if String.eqb d "TRACE" then TRACE else SS_PORT_TYPE_MAX
  end.

Definition AIE_TRACE_DMA_NONE : Z := 0.
Definition AIE_TRACE_DMA_S2MM : Z := 1.
Definition AIE_TRACE_DMA_MM2S : Z := 2.

(** The port of one entry that carries the watched DMA, or [idx = -1]. *)
Definition dma_port_of (kind ch : Z) (e : AieResourceEntry) : option string * Z :=
  if kind =? AIE_TRACE_DMA_MM2S then
    if port_is (dma_dir e) (dma_idx e) "DMA" ch && (0 <=? fwd_idx e) then (fwd_dir e, fwd_idx e)
    else if port_is (slave_dir e) (slave_idx e) "DMA" ch then (master_dir e, master_idx e)
    else (None, -1)
  else
    if port_is (master_dir e) (master_idx e) "DMA" ch then (slave_dir e, slave_idx e)
    else if port_is (dma_dir e) (dma_idx e) "DMA" ch && (0 <=? recv_idx e) then (recv_dir e, recv_idx e)
    else (None, -1).

(** [None]: the outputs are not written and 0 is returned. *)
Fixpoint resmap_lookup_dma_port (rm : list AieResourceEntry) (col row kind ch : Z)
    : option (XAie_StrmPortIntf * StrmSwPortType * Z) :=
  match rm with
  | [] => None
  | e :: rm' =>
    let next := resmap_lookup_dma_port rm' col row kind ch in
    if negb (on_tile col row e) then next
    else
      let intf := if kind =? AIE_TRACE_DMA_MM2S then XAIE_STRMSW_MASTER else XAIE_STRMSW_SLAVE in
      let '(dir, idx) := dma_port_of kind ch e in
      match dir with
      | None => next
      | Some _ =>
        if idx <? 0 then next
        else
          let t := resmap_dir_to_port_type dir in
          if decide (t = SS_PORT_TYPE_MAX) then next else Some (intf, t, idx)
      end
  end.

(** ** Claims of earlier traces *)

Definition AIE_TRACE_CLAIM_COLS : Z := 64.
(** [s_trace_strm_claim] and [s_trace_s2mm_claim]. *)
Record claims := Claims { strm_claim : list Z; s2mm_claim : list Z }.
Definition no_claims : claims := Claims (replicate 64 0) (replicate 64 0).

Definition claim_bit (cl : list Z) (col ch : Z) : bool :=
  if (0 <=? col) && (col <? AIE_TRACE_CLAIM_COLS) then negb (Z.land (rd cl col) (Z.shiftl 1 ch) =? 0) else false.
Definition resmap_strm_claimed (cl : claims) (col ch : Z) : bool := claim_bit (strm_claim cl) col ch.
Definition resmap_s2mm_claimed (cl : claims) (col ch : Z) : bool := claim_bit (s2mm_claim cl) col ch.

Definition set_claim (cl : list Z) (col ch : Z) : list Z := wr cl col (Z.lor (rd cl col) (u8 (Z.shiftl 1 ch))).
Definition resmap_claim_trace (cl : claims) (col strm s2mm : Z) : claims :=
  if (col <? 0) || (AIE_TRACE_CLAIM_COLS <=? col) then cl
  else Claims (set_claim (strm_claim cl) col strm) (set_claim (s2mm_claim cl) col s2mm).

(** ** The choice *)

(** [for (i in cands) if (ok(i)) { x = i; break; }]. *)
Fixpoint first_ok (ok : Z -> bool) (cands : list Z) : option Z :=
  match cands with
  | [] => None
  | i :: cands => if ok i then Some i else first_ok ok cands
  end.

Definition TRACE_STRM_CH_RANGE : Z := 4.
Definition TRACE_ARB_MAX : Z := 7.

(** [for (uint8_t r = srcRow - 1; r > mtRow; r--)]. *)
Definition thru_rows (srcRow mtRow : Z) : list Z := reverse (range (mtRow + 1) (u8 (srcRow - 1) + 1)).

Definition strm_free (cl : claims) (rm : list AieResourceEntry) (col srcRow mtRow ch : Z) : bool :=
  negb (resmap_strm_claimed cl col ch || resmap_master_used rm col srcRow "SOUTH" ch) &&
  forallb (fun r => negb (resmap_slave_used rm col r "NORTH" ch || resmap_master_used rm col r "SOUTH" ch))
    (thru_rows srcRow mtRow) &&
  negb (resmap_slave_used rm col mtRow "NORTH" ch).

Definition s2mm_free (cl : claims) (rm : list AieResourceEntry) (col mtRow ch : Z) : bool :=
  negb (resmap_s2mm_claimed cl col ch) && negb (resmap_dma_used rm col mtRow ch).

Record trace_pick := Pick {
  pk_strm : Z; pk_s2mm : Z; pk_bd : Z; pk_pkt : Z; pk_arb : Z; pk_msel : Z; pk_mselen : Z }.

Definition trace_bd (s2mm : Z) : Z := if s2mm mod 2 =? 0 then u8 (4 + s2mm) else u8 (24 + s2mm).

Definition resmap_pick_trace_resources (cl : claims) (rm : list AieResourceEntry) (col srcRow mtRow : Z)
    : option trace_pick :=
  strm ← first_ok (strm_free cl rm col srcRow mtRow) (range 0 TRACE_STRM_CH_RANGE);
  s2mm ← first_ok (s2mm_free cl rm col mtRow) (range 0 TRACE_STRM_CH_RANGE);
  pkt ← first_ok (fun id => negb (resmap_pktid_used rm col srcRow id)) (range 1 32);
  arb ← first_ok (fun a => negb (resmap_arbiter_used rm col srcRow a)) (range 0 (TRACE_ARB_MAX + 1));
  mret (Pick (u8 strm) (u8 s2mm) (trace_bd s2mm) (u8 pkt) (u8 arb) 0 (u8 (Z.shiftl 1 0))).

(** [resmap_apply_trace_resources]: a missing or empty map, or no free
    candidate, keeps the caller's values. *)
Definition resmap_apply_trace_resources (cl : claims) (rm : option (list AieResourceEntry)) (col srcRow mtRow : Z)
    (keep : trace_pick) : trace_pick :=
  match rm with
  | None | Some [] => keep
  | Some rm => default keep (resmap_pick_trace_resources cl rm col srcRow mtRow)
  end.

(** ** What the map says *)

(** A switch output ([true]) or input of tile [(col, row)] that the data plane
    uses. *)
Definition drives (rm : list AieResourceEntry) (col row : Z) (dir : string) (idx : Z) : Prop :=
  exists e, e ∈ rm /\ e_col e = col /\ e_row e = row /\
    ((fwd_dir e = Some dir /\ fwd_idx e = idx) \/ (master_dir e = Some dir /\ master_idx e = idx)).

Definition feeds (rm : list AieResourceEntry) (col row : Z) (dir : string) (idx : Z) : Prop :=
  exists e, e ∈ rm /\ e_col e = col /\ e_row e = row /\
    ((recv_dir e = Some dir /\ recv_idx e = idx) \/ (dma_dir e = Some dir /\ dma_idx e = idx) \/
     (slave_dir e = Some dir /\ slave_idx e = idx)).

(** Arbiters of the packet slots and outputs. *)
Definition arbitrates (rm : list AieResourceEntry) (col row arb : Z) : Prop :=
  exists e, e ∈ rm /\ e_col e = col /\ e_row e = row /\
    ((0 <= recv_idx e /\ recv_arbiter e = arb) \/ (0 <= dma_idx e /\ dma_arbiter e = arb) \/
     (0 <= fwd_idx e /\ fwd_arbiter e = arb)).

Definition carries_id (rm : list AieResourceEntry) (col row id : Z) : Prop :=
  exists e, e ∈ rm /\ e_col e = col /\ e_row e = row /\ (recv_pktid e = id \/ dma_pktid e = id).

Lemma port_is_spec p idx dir i : port_is p idx dir i = true <-> p = Some dir /\ idx = i.
Proof.
  unfold port_is. destruct p as [d|]; [|by split; [|intros [??]]].
  rewrite andb_true_iff, String.eqb_eq, Z.eqb_eq. split; intros [? ?]; split; congruence.
Qed.

Lemma on_tile_spec col row e : on_tile col row e = true <-> e_col e = col /\ e_row e = row.
Proof. unfold on_tile. rewrite andb_true_iff, !Z.eqb_eq. done. Qed.

(** The queries scan for one entry on the tile. *)
Lemma resmap_scan_spec {P : AieResourceEntry -> Prop} (q : AieResourceEntry -> bool) rm col row :
  (forall e, q e = true <-> P e) ->
  existsb (fun e => on_tile col row e && q e) rm = true <->
  exists e, e ∈ rm /\ e_col e = col /\ e_row e = row /\ P e.
Proof.
  intros H. rewrite existsb_exists. split; intros (e & He & Hq); exists e.
  - apply andb_true_iff in Hq as [Ht Hq]. apply on_tile_spec in Ht as [??]. rewrite list_elem_of_In, <- H. done.
  - rewrite list_elem_of_In in He. split; [done|]. rewrite andb_true_iff, on_tile_spec, H. tauto.
Qed.

Lemma master_used_spec rm col row dir idx : resmap_master_used rm col row dir idx = true <-> drives rm col row dir idx.
Proof. apply resmap_scan_spec. intros e. by rewrite orb_true_iff, !port_is_spec. Qed.

Lemma slave_used_spec rm col row dir idx : resmap_slave_used rm col row dir idx = true <-> feeds rm col row dir idx.
Proof. apply resmap_scan_spec. intros e. rewrite !orb_true_iff, !port_is_spec. tauto. Qed.

Lemma pktid_used_spec rm col row id : resmap_pktid_used rm col row id = true <-> carries_id rm col row id.
Proof. apply resmap_scan_spec. intros e. by rewrite orb_true_iff, !Z.eqb_eq. Qed.

Lemma arbiter_used_spec rm col row arb : resmap_arbiter_used rm col row arb = true <-> arbitrates rm col row arb.
Proof.
  apply resmap_scan_spec. intros e. rewrite !orb_true_iff, !andb_true_iff, !Z.leb_le, !Z.eqb_eq. tauto.
Qed.

Lemma dma_used_spec rm col row ch :
  resmap_dma_used rm col row ch = true <-> drives rm col row "DMA" ch \/ feeds rm col row "DMA" ch.
Proof.
  rewrite <- master_used_spec, <- slave_used_spec. unfold resmap_dma_used, resmap_master_used, resmap_slave_used.
  split.
  - intros H. apply existsb_exists in H as (e & He & Hq). apply andb_true_iff in Hq as [Ht Hq].
    rewrite !orb_true_iff in Hq.
    destruct Hq as [[[[H|H]|H]|H]|H]; [right|right|left|right|left]; apply existsb_exists; exists e;
      rewrite Ht, H, ?orb_true_r; done.
  - intros [H|H]; apply existsb_exists in H as (e & He & Hq); apply existsb_exists; exists e; (split; [done|]);
      revert Hq; destruct (on_tile col row e); repeat destruct (port_is _ _ _ _); done.
Qed.

Lemma first_ok_spec ok cands :
  match first_ok ok cands with
  | Some i => exists l k, cands = l ++ i :: k /\ ok i = true /\ Forall (fun j => ok j = false) l
  | None => Forall (fun j => ok j = false) cands
  end.
Proof.
  induction cands as [|i cands IH]; simpl; [done|].
  destruct (ok i) eqn:E; [by exists [], cands|].
  destruct (first_ok ok cands) as [j|]; [|by constructor].
  destruct IH as (l & k & -> & Hj & Hl). exists (i :: l), k. by repeat constructor.
Qed.

(** The lowest of an interval. *)
Lemma first_ok_range ok lo hi :
  match first_ok ok (range lo hi) with
  | Some i => lo <= i < hi /\ ok i = true /\ forall j, lo <= j < i -> ok j = false
  | None => forall j, lo <= j < hi -> ok j = false
  end.
Proof.
  pose proof (first_ok_spec ok (range lo hi)) as H. unfold range in *.
  destruct (first_ok ok (seqZ lo (hi - lo))) as [i|]; cycle 1.
  { intros j Hj. rewrite Forall_forall in H. apply H, elem_of_seqZ. lia. }
  destruct H as (l & k & E & Hi & Hl).
  assert (seqZ lo (hi - lo) !! length l = Some i) as Hk by (by rewrite E, list_lookup_middle).
  apply lookup_seqZ in Hk as [-> Hb]. split; [lia|]. split; [done|].
  intros j Hj. assert (seqZ lo (hi - lo) !! Z.to_nat (j - lo) = Some j) as Hjl.
  { apply lookup_seqZ. lia. }
  rewrite E, lookup_app_l in Hjl by lia. rewrite Forall_forall in Hl.
  by eapply Hl, list_elem_of_lookup_2.
Qed.

Lemma thru_rows_spec srcRow mtRow r :
  1 <= srcRow < 256 -> 0 <= mtRow -> r ∈ thru_rows srcRow mtRow <-> mtRow < r < srcRow.
Proof.
  intros Hs Hm. unfold thru_rows, range. rewrite elem_of_reverse, elem_of_seqZ. rewrite u8_small by lia. lia.
Qed.

(** The route of channel [ch] is free: no data-plane port on any hop, from the
    source core down to the memory tile. *)
Definition route_free (rm : list AieResourceEntry) (col srcRow mtRow ch : Z) : Prop :=
  ~ drives rm col srcRow "SOUTH" ch /\ ~ feeds rm col mtRow "NORTH" ch /\
  forall r, mtRow < r < srcRow -> ~ feeds rm col r "NORTH" ch /\ ~ drives rm col r "SOUTH" ch.

Lemma not_true_spec (b : bool) (P : Prop) : (b = true <-> P) -> b = false <-> ~ P.
Proof. intros H. destruct b; split; intros; try done; [tauto|]. intros HP. by apply H in HP. Qed.

Lemma strm_free_spec cl rm col srcRow mtRow ch :
  1 <= srcRow < 256 -> 0 <= mtRow ->
  strm_free cl rm col srcRow mtRow ch = true <->
  resmap_strm_claimed cl col ch = false /\ route_free rm col srcRow mtRow ch.
Proof.
  intros Hs Hm. unfold strm_free, route_free.
  rewrite !andb_true_iff, !negb_true_iff, orb_false_iff, forallb_forall.
  rewrite (not_true_spec _ _ (master_used_spec rm col srcRow "SOUTH" ch)).
  rewrite (not_true_spec _ _ (slave_used_spec rm col mtRow "NORTH" ch)).
  assert ((forall r, In r (thru_rows srcRow mtRow) ->
      negb (resmap_slave_used rm col r "NORTH" ch || resmap_master_used rm col r "SOUTH" ch) = true) <->
    (forall r, mtRow < r < srcRow -> ~ feeds rm col r "NORTH" ch /\ ~ drives rm col r "SOUTH" ch)) as ->; [|tauto].
  split; intros H r Hr.
  - rewrite <- (thru_rows_spec srcRow mtRow) in Hr by lia. rewrite list_elem_of_In in Hr. apply H in Hr.
    by rewrite negb_true_iff, orb_false_iff, (not_true_spec _ _ (slave_used_spec _ _ _ _ _)),
      (not_true_spec _ _ (master_used_spec _ _ _ _ _)) in Hr.
  - rewrite <- list_elem_of_In, thru_rows_spec in Hr by lia. apply H in Hr.
    by rewrite negb_true_iff, orb_false_iff, (not_true_spec _ _ (slave_used_spec _ _ _ _ _)),
      (not_true_spec _ _ (master_used_spec _ _ _ _ _)).
Qed.

Lemma s2mm_free_spec cl rm col mtRow ch :
  s2mm_free cl rm col mtRow ch = true <->
  resmap_s2mm_claimed cl col ch = false /\ ~ drives rm col mtRow "DMA" ch /\ ~ feeds rm col mtRow "DMA" ch.
Proof.
  unfold s2mm_free. rewrite andb_true_iff, !negb_true_iff, (not_true_spec _ _ (dma_used_spec rm col mtRow ch)). tauto.
Qed.

(** Even memory-tile channels take descriptors below 24, odd ones the rest. *)
Definition bd_fits (bd ch : Z) : Prop := if ch mod 2 =? 0 then 0 <= bd < 24 else 24 <= bd < 48.

Lemma trace_bd_fits ch : 0 <= ch < TRACE_STRM_CH_RANGE -> bd_fits (trace_bd ch) ch.
Proof.
  unfold TRACE_STRM_CH_RANGE, bd_fits, trace_bd. intros. destruct (ch mod 2 =? 0); rewrite u8_small; lia.
Qed.

Lemma pick_cases cl rm col srcRow mtRow :
  match resmap_pick_trace_resources cl rm col srcRow mtRow with
  | Some p =>
    (0 <= pk_strm p < 4 /\ strm_free cl rm col srcRow mtRow (pk_strm p) = true /\
      forall ch, 0 <= ch < pk_strm p -> strm_free cl rm col srcRow mtRow ch = false) /\
    (0 <= pk_s2mm p < 4 /\ s2mm_free cl rm col mtRow (pk_s2mm p) = true) /\
    (1 <= pk_pkt p < 32 /\ resmap_pktid_used rm col srcRow (pk_pkt p) = false) /\
    (0 <= pk_arb p < 8 /\ resmap_arbiter_used rm col srcRow (pk_arb p) = false) /\
    pk_bd p = trace_bd (pk_s2mm p) /\ pk_msel p = 0 /\ pk_mselen p = 1
  | None =>
    (forall ch, 0 <= ch < 4 -> strm_free cl rm col srcRow mtRow ch = false) \/
    (forall ch, 0 <= ch < 4 -> s2mm_free cl rm col mtRow ch = false) \/
    (forall id, 1 <= id < 32 -> resmap_pktid_used rm col srcRow id = true) \/
    (forall a, 0 <= a < 8 -> resmap_arbiter_used rm col srcRow a = true)
  end.
Proof.
  unfold resmap_pick_trace_resources, TRACE_STRM_CH_RANGE, TRACE_ARB_MAX.
  pose proof (first_ok_range (strm_free cl rm col srcRow mtRow) 0 4) as H1.
  destruct (first_ok _ (range 0 4)) as [strm|]; cbn [mbind option_bind]; [|by left].
  pose proof (first_ok_range (s2mm_free cl rm col mtRow) 0 4) as H2.
  destruct (first_ok _ (range 0 4)) as [s2mm|]; cbn [mbind option_bind]; [|right; by left].
  pose proof (first_ok_range (fun id => negb (resmap_pktid_used rm col srcRow id)) 1 32) as H3.
  destruct (first_ok _ (range 1 32)) as [pkt|]; cbn [mbind option_bind]; cycle 1.
  { right; right; left. intros id Hid. by apply negb_false_iff, H3. }
  pose proof (first_ok_range (fun a => negb (resmap_arbiter_used rm col srcRow a)) 0 (7 + 1)) as H4.
  destruct (first_ok _ (range 0 (7 + 1))) as [arb|]; cbn [mbind option_bind]; cycle 1.
  { right; right; right. intros a Ha. by apply negb_false_iff, H4. }
  cbn [mret option_ret pk_strm pk_s2mm pk_bd pk_pkt pk_arb pk_msel pk_mselen].
  destruct H1 as (B1 & H1 & L1), H2 as (B2 & H2 & _), H3 as (B3 & H3 & _), H4 as (B4 & H4 & _).
  apply negb_true_iff in H3, H4. rewrite !u8_small by lia. split_and!; try done; lia.
Qed.

(** The resources picked for a trace are in range and unused: the stream
    channel by any earlier trace of the column and by the data plane on every
    hop from the core down to the memory tile, the memory-tile channel and its
    descriptor by both, the packet id and the whole arbiter by the data plane
    on the source; the stream channel is the lowest such, and the descriptor
    obeys the channel's parity rule.  Nothing is picked only when one of the
    four kinds is exhausted. *)
Theorem trace_pick_sound cl rm col srcRow mtRow :
  1 <= srcRow < 256 -> 0 <= mtRow ->
  match resmap_pick_trace_resources cl rm col srcRow mtRow with
  | Some p =>
    (0 <= pk_strm p < 4 /\ resmap_strm_claimed cl col (pk_strm p) = false /\
      route_free rm col srcRow mtRow (pk_strm p) /\
      forall ch, 0 <= ch < pk_strm p -> route_free rm col srcRow mtRow ch -> resmap_strm_claimed cl col ch = true) /\
    (0 <= pk_s2mm p < 4 /\ resmap_s2mm_claimed cl col (pk_s2mm p) = false /\
      ~ drives rm col mtRow "DMA" (pk_s2mm p) /\ ~ feeds rm col mtRow "DMA" (pk_s2mm p) /\
      bd_fits (pk_bd p) (pk_s2mm p)) /\
    (1 <= pk_pkt p < 32 /\ ~ carries_id rm col srcRow (pk_pkt p)) /\
    (0 <= pk_arb p < 8 /\ ~ arbitrates rm col srcRow (pk_arb p))
  | None =>
    (forall ch, 0 <= ch < 4 -> route_free rm col srcRow mtRow ch -> resmap_strm_claimed cl col ch = true) \/
    (forall ch, 0 <= ch < 4 ->
      resmap_s2mm_claimed cl col ch = true \/ drives rm col mtRow "DMA" ch \/ feeds rm col mtRow "DMA" ch) \/
    (forall id, 1 <= id < 32 -> carries_id rm col srcRow id) \/
    (forall a, 0 <= a < 8 -> arbitrates rm col srcRow a)
  end.
Proof.
  intros Hs Hm.
  assert (forall ch, strm_free cl rm col srcRow mtRow ch = false ->
    route_free rm col srcRow mtRow ch -> resmap_strm_claimed cl col ch = true) as Hno.
  { intros ch Hf Hr. destruct (resmap_strm_claimed cl col ch) eqn:E; [done|].
    assert (strm_free cl rm col srcRow mtRow ch = true) as T by (by apply strm_free_spec). congruence. }
  pose proof (pick_cases cl rm col srcRow mtRow) as H.
  destruct (resmap_pick_trace_resources cl rm col srcRow mtRow) as [p|].
  - destruct H as ((B1 & H1 & L1) & (B2 & H2) & (B3 & H3) & (B4 & H4) & Hbd & _).
    apply strm_free_spec in H1 as [C1 R1]; [|done..]. apply s2mm_free_spec in H2 as (C2 & D2 & F2).
    apply (not_true_spec _ _ (pktid_used_spec rm col srcRow _)) in H3.
    apply (not_true_spec _ _ (arbiter_used_spec rm col srcRow _)) in H4.
    split_and!; auto; try lia. rewrite Hbd. by apply trace_bd_fits.
  - destruct H as [H|[H|[H|H]]].
    + left. auto.
    + right; left. intros ch Hch. apply H in Hch. unfold s2mm_free in Hch.
      rewrite <- dma_used_spec. destruct (resmap_s2mm_claimed cl col ch); [by left|].
      destruct (resmap_dma_used rm col mtRow ch); [by right|done].
    + right; right; left. intros id Hid. by apply pktid_used_spec, H.
    + right; right; right. intros a Ha. by apply arbiter_used_spec, H.
Qed.

(** A data plane that uses [SOUTH:0] of the source, on arbiter 0. *)
Definition example_map : list AieResourceEntry :=
  [Entry 2 4 (Some "CORE"%string) 0 1 0 None (-1) (-1) 0 (Some "SOUTH"%string) 0 0 None (-1) None (-1)].

Lemma trace_pick_sound_witness :
  resmap_pick_trace_resources no_claims example_map 2 4 2 = Some (Pick 1 0 4 2 1 0 1) /\
  route_free example_map 2 4 2 1.
Proof.
  pose proof (trace_pick_sound no_claims example_map 2 4 2 ltac:(lia) ltac:(lia)) as H.
  assert (resmap_pick_trace_resources no_claims example_map 2 4 2 = Some (Pick 1 0 4 2 1 0 1)) as E
    by (vm_compute; reflexivity).
  rewrite E in H. split; [exact E|]. apply H.
Defined.

(** ** Claims accumulate *)

Definition claims_ok (cl : claims) : Prop := length (strm_claim cl) = 64%nat /\ length (s2mm_claim cl) = 64%nat.

Lemma set_claim_bit l col ch c k :
  length l = 64%nat -> 0 <= col < 64 -> 0 <= ch < 8 -> 0 <= k ->
  claim_bit (set_claim l col ch) c k = claim_bit l c k || bool_decide (c = col /\ k = ch).
Proof.
  intros Hl Hc Hch Hk. unfold claim_bit, AIE_TRACE_CLAIM_COLS.
  assert (forall z, negb (Z.land z (Z.shiftl 1 k) =? 0) = Z.testbit z k) as Hbit.
  { intros z. destruct (Z.testbit z k) eqn:E.
    - apply negb_true_iff, Z.eqb_neq. intros H.
      assert (Z.testbit (Z.land z (Z.shiftl 1 k)) k = true) as T.
      { rewrite Z.land_spec, E, Z.shiftl_spec, Z.sub_diag by lia. done. }
      rewrite H, Z.bits_0 in T. done.
    - apply negb_false_iff, Z.eqb_eq, Z.bits_inj'. intros i Hi.
      rewrite Z.land_spec, Z.bits_0, Z.shiftl_spec by lia.
      destruct (decide (i = k)) as [->|Hne]; [by rewrite E|].
      destruct (Z.ltb_spec i k).
      + rewrite (Z.testbit_neg_r 1) by lia. by rewrite andb_false_r.
      + replace (i - k) with (Z.succ (Z.pred (i - k))) by lia.
        change 1 with (2 * 0 + 1). rewrite Z.testbit_odd_succ, Z.bits_0, andb_false_r by lia. done. }
  rewrite !Hbit. destruct ((0 <=? c) && (c <? 64)) eqn:Ec; cycle 1.
  { rewrite bool_decide_false; [done|]. intros [-> _]. lia. }
  assert (rd (set_claim l col ch) c = if decide (c = col) then Z.lor (rd l c) (u8 (Z.shiftl 1 ch)) else rd l c) as ->.
  { unfold set_claim. rewrite rd_wr by (unfold len; lia).
    destruct (Z.eqb_spec col c); case_decide; congruence. }
  case_decide as E; cycle 1.
  { by rewrite bool_decide_false, orb_false_r by (intros [? _]; done). }
  subst c. rewrite Z.lor_spec. f_equal.
  rewrite u8_small, Z.shiftl_1_l, Z.pow2_bits_eqb by
    (rewrite ?Z.shiftl_1_l; pose proof (Z.pow_pos_nonneg 2 ch ltac:(lia) ltac:(lia));
     pose proof (Z.pow_lt_mono_r 2 ch 8 ltac:(lia) ltac:(lia) ltac:(lia)); lia).
  destruct (Z.eqb_spec ch k); [rewrite bool_decide_true by done|rewrite bool_decide_false by (intros [_ ?]; congruence)]; done.
Qed.

(** After a claim: the two channels of its column, and all that was claimed. *)
Lemma claim_trace_strm cl col strm s2mm c k :
  claims_ok cl -> 0 <= col < 64 -> 0 <= strm < 8 -> 0 <= k ->
  resmap_strm_claimed (resmap_claim_trace cl col strm s2mm) c k =
  resmap_strm_claimed cl c k || bool_decide (c = col /\ k = strm).
Proof.
  intros [H _] Hc Hs Hk. unfold resmap_claim_trace, AIE_TRACE_CLAIM_COLS.
  rewrite (proj2 (Z.ltb_ge col 0)), (proj2 (Z.leb_gt 64 col)) by lia. by apply set_claim_bit.
Qed.

Lemma claim_trace_s2mm cl col strm s2mm c k :
  claims_ok cl -> 0 <= col < 64 -> 0 <= s2mm < 8 -> 0 <= k ->
  resmap_s2mm_claimed (resmap_claim_trace cl col strm s2mm) c k =
  resmap_s2mm_claimed cl c k || bool_decide (c = col /\ k = s2mm).
Proof.
  intros [_ H] Hc Hs Hk. unfold resmap_claim_trace, AIE_TRACE_CLAIM_COLS.
  rewrite (proj2 (Z.ltb_ge col 0)), (proj2 (Z.leb_gt 64 col)) by lia. by apply set_claim_bit.
Qed.

Lemma claim_trace_ok cl col strm s2mm : claims_ok cl -> claims_ok (resmap_claim_trace cl col strm s2mm).
Proof.
  intros [H1 H2]. unfold resmap_claim_trace. destruct (_ || _); [done|].
  unfold claims_ok, set_claim, wr. simpl. by rewrite !length_insert.
Qed.
