(* ===== verification/TraceSetup.v ===== *)
(** * Trace sessions ([src/src/mlir/runtime/aie_runtime.c], 805-1248, 1860-2153)

    Arming the trace units of a core, routing the trace stream down the
    column into the memory tile's DMA, and the registry of armed tiles.  What
    the code prints is not modelled; reading the trace back and decoding it is
    [TraceDecode]. *)

From stdpp Require Import base list list_numbers numbers strings.
From S2P Require Import Prelude.
From S2P Require Import Driver.
From S2P Require Import TraceRes.

Local Open Scope Z_scope.
Local Open Scope c_scope.

Inductive XAie_ModuleType := XAIE_MEM_MOD | XAIE_CORE_MOD.

Inductive XAie_Events :=
| ACTIVE_CORE | DISABLED_CORE | LOCK_STALL_CORE | STREAM_STALL_CORE | MEMORY_STALL_CORE
| PORT_IDLE_0_CORE | PORT_RUNNING_0_CORE | PORT_STALLED_0_CORE
| TRUE_MEM | NONE_MEM | LOCK_SEL0_ACQ_EQ_MEM | LOCK_SEL0_ACQ_GE_MEM | LOCK_0_REL_MEM
| DMA_MM2S_0_START_TASK_MEM | DMA_MM2S_0_FINISHED_BD_MEM | DMA_MM2S_0_STALLED_LOCK_MEM
| DMA_MM2S_0_STREAM_BACKPRESSURE_MEM | DMA_MM2S_0_MEMORY_STARVATION_MEM
| DMA_MM2S_1_START_TASK_MEM | DMA_MM2S_1_FINISHED_BD_MEM | DMA_MM2S_1_STALLED_LOCK_MEM
| DMA_MM2S_1_STREAM_BACKPRESSURE_MEM | DMA_MM2S_1_MEMORY_STARVATION_MEM
| DMA_S2MM_0_START_TASK_MEM | DMA_S2MM_0_FINISHED_BD_MEM | DMA_S2MM_0_STALLED_LOCK_MEM
| DMA_S2MM_0_STREAM_STARVATION_MEM | DMA_S2MM_0_MEMORY_BACKPRESSURE_MEM
| DMA_S2MM_1_START_TASK_MEM | DMA_S2MM_1_FINISHED_BD_MEM | DMA_S2MM_1_STALLED_LOCK_MEM
| DMA_S2MM_1_STREAM_STARVATION_MEM | DMA_S2MM_1_MEMORY_BACKPRESSURE_MEM.

(** The driver calls of a trace setup; a packet is its id (the type is 1). *)
Inductive tcall :=
| TraceControlConfigReset (t : XAie_LocType) (m : XAie_ModuleType)
| TracePktConfigReset (t : XAie_LocType) (m : XAie_ModuleType)
| TraceEventReset (t : XAie_LocType) (m : XAie_ModuleType) (n : Z)
| EventSelectStrmPort (t : XAie_LocType) (sel : Z) (intf : XAie_StrmPortIntf) (port : StrmSwPortType) (num : Z)
| TraceControlConfig (t : XAie_LocType) (m : XAie_ModuleType) (start stop : XAie_Events)  (* EVENT_TIME *)
| TraceEvent (t : XAie_LocType) (m : XAie_ModuleType) (ev : XAie_Events) (slot : Z)
| TracePktConfig (t : XAie_LocType) (m : XAie_ModuleType) (pkt : Z)
| TraceGetState (t : XAie_LocType) (m : XAie_ModuleType)
| StrmPktSwSlaveSlotEnable (t : XAie_LocType) (port : StrmSwPortType) (num slot pkt mask msel arb : Z)
| StrmPktSwSlavePortEnable (t : XAie_LocType) (port : StrmSwPortType) (num : Z)
| StrmPktSwMstrPortEnable (t : XAie_LocType) (port : StrmSwPortType) (num arb mselen : Z)  (* header kept *)
| StrmConnCctEnable (t : XAie_LocType) (sport : StrmSwPortType) (snum : Z) (mport : StrmSwPortType) (mnum : Z)
| DmaDescInit (t : XAie_LocType)
| DmaSetAddrLen (addr len : Z)
| DmaEnableBd
| DmaWriteBd (t : XAie_LocType) (bd : Z)
| DmaChannelSetStartQueue (t : XAie_LocType) (ch : Z) (dir : XAie_DmaDirection) (bd repeat_ : Z)
| DmaChannelEnable (t : XAie_LocType) (ch : Z) (dir : XAie_DmaDirection)
| DataMemBlockWrite (t : XAie_LocType) (addr len : Z)   (* zeroes *)
| DataMemBlockRead (t : XAie_LocType) (addr len : Z).

Definition AIE_TRACE_SESSION_CAP : Z := 16.
Definition AIE_TRACE_SLOTS_PER_COL : Z := 4.
Definition AIE_TRACE_BUF_LEN : Z := 0x4000.
Definition AIE_TRACE_REGION_BASE : Z := 0x8000.
Definition AIE_TRACE_DMA_HI : Z := 0x80000.
Definition AIE_TRACE_MAX_COLS : Z := 64.
Definition AIE_TRACE_STRM_CH_AUTO : Z := 0xFF.
Definition k_bd_for_slot : list Z := [4; 25; 6; 27].

Record AieTraceSessionEntry := Sess { se_col : Z; se_row : Z; se_mt_row : Z; se_addr : Z; se_len : Z }.

(** Claims, the armed tiles, the slots used per column, and the labels the
    decoder prints. *)
Record tst := Tst {
  ts_claims : claims;
  s_trace_session : list AieTraceSessionEntry;
  s_trace_col_used : list Z;
  s_core_trace_slot_event : list Z;
  s_mem_trace_slot_event : list Z;
  s_mem_trace_slot_dynname : list string }.

Definition tst0 : tst := Tst no_claims [] (replicate 64 0) (replicate 8 0) (replicate 8 0) (replicate 8 ""%string).

Definition trace_events : list XAie_Events :=
  [ACTIVE_CORE; LOCK_STALL_CORE; STREAM_STALL_CORE; MEMORY_STALL_CORE;
   PORT_IDLE_0_CORE; PORT_RUNNING_0_CORE; PORT_STALLED_0_CORE].
Definition AIE_CORE_TRACE_NSLOTS : Z := 7.
Definition AIE_MEM_TRACE_NSLOTS : Z := 8.

Definition mem_trace_events_for_chan (kind ch : Z) : list XAie_Events :=
  (if kind =? AIE_TRACE_DMA_MM2S then
     if 1 <=? ch
     then [DMA_MM2S_1_START_TASK_MEM; DMA_MM2S_1_FINISHED_BD_MEM; DMA_MM2S_1_STALLED_LOCK_MEM;
           DMA_MM2S_1_STREAM_BACKPRESSURE_MEM; DMA_MM2S_1_MEMORY_STARVATION_MEM]
     else [DMA_MM2S_0_START_TASK_MEM; DMA_MM2S_0_FINISHED_BD_MEM; DMA_MM2S_0_STALLED_LOCK_MEM;
           DMA_MM2S_0_STREAM_BACKPRESSURE_MEM; DMA_MM2S_0_MEMORY_STARVATION_MEM]
   else
     if 1 <=? ch
     then [DMA_S2MM_1_START_TASK_MEM; DMA_S2MM_1_FINISHED_BD_MEM; DMA_S2MM_1_STALLED_LOCK_MEM;
           DMA_S2MM_1_STREAM_STARVATION_MEM; DMA_S2MM_1_MEMORY_BACKPRESSURE_MEM]
     else [DMA_S2MM_0_START_TASK_MEM; DMA_S2MM_0_FINISHED_BD_MEM; DMA_S2MM_0_STALLED_LOCK_MEM;
           DMA_S2MM_0_STREAM_STARVATION_MEM; DMA_S2MM_0_MEMORY_BACKPRESSURE_MEM]) ++
  [LOCK_SEL0_ACQ_EQ_MEM; LOCK_SEL0_ACQ_GE_MEM; LOCK_0_REL_MEM].

(** Slot and event, in slot order. *)
Definition slotted (evs : list XAie_Events) : list (Z * XAie_Events) := zip (seqZ 0 (len evs)) evs.

Section setup.
(** [XAIE_AIE_TILE_ROW_START] and [XAIE_RES_TILE_NUM_ROWS] of the device, the
    driver's error code, and its event tables. *)
Context (row_start mem_rows XAIE_INVALID_ARGS : Z).
Context (event_hw : XAie_LocType -> XAie_ModuleType -> XAie_Events -> option Z).
Context (event_raw : XAie_Events -> Z) (event_string : XAie_Events -> string).
Context (xaie : list tcall -> tcall -> Z).
(** [__aie_resource_map]. *)
Context (resmap : option (list AieResourceEntry)).

Abbreviation M := (stE (drv tst tcall) Z).

Definition mt_row : Z := u8 (row_start - 1).

(** [evout[0 .. n)]; [nmout] is filled for the memory module only. *)
Definition trace_fill_event_labels (tile : XAie_LocType) (m : XAie_ModuleType) (evs : list XAie_Events) : M unit :=
  let ids := (fun e => u16 (default (event_raw e) (event_hw tile m e))) <$> evs in
  modify (upd_rest (fun s =>
    match m with
    | XAIE_CORE_MOD => Tst (ts_claims s) (s_trace_session s) (s_trace_col_used s)
        (blit (s_core_trace_slot_event s) 0 ids) (s_mem_trace_slot_event s) (s_mem_trace_slot_dynname s)
    | XAIE_MEM_MOD => Tst (ts_claims s) (s_trace_session s) (s_trace_col_used s)
        (s_core_trace_slot_event s) (blit (s_mem_trace_slot_event s) 0 ids)
        (blit (s_mem_trace_slot_dynname s) 0 (event_string <$> evs))
    end)).

Definition core_trace_program_unit (tile : XAie_LocType) (pkt : Z) (intf : XAie_StrmPortIntf)
    (port : StrmSwPortType) (port_num : Z) : M unit :=
  must xaie (TraceControlConfigReset tile XAIE_CORE_MOD) ;;
  must xaie (TracePktConfigReset tile XAIE_CORE_MOD) ;;
  must xaie (TraceEventReset tile XAIE_CORE_MOD AIE_CORE_TRACE_NSLOTS) ;;
  must xaie (EventSelectStrmPort tile 0 intf port port_num) ;;
  must xaie (TraceControlConfig tile XAIE_CORE_MOD ACTIVE_CORE DISABLED_CORE) ;;
  forM (slotted trace_events) (fun '(slot, ev) => must xaie (TraceEvent tile XAIE_CORE_MOD ev slot)) ;;
  trace_fill_event_labels tile XAIE_CORE_MOD trace_events ;;
  must xaie (TracePktConfig tile XAIE_CORE_MOD pkt) ;;
  must xaie (TraceGetState tile XAIE_CORE_MOD).

Definition mem_trace_program_unit (tile : XAie_LocType) (pkt kind ch : Z) : M unit :=
  must xaie (TraceControlConfigReset tile XAIE_MEM_MOD) ;;
  must xaie (TracePktConfigReset tile XAIE_MEM_MOD) ;;
  must xaie (TraceEventReset tile XAIE_MEM_MOD AIE_MEM_TRACE_NSLOTS) ;;
  must xaie (TraceControlConfig tile XAIE_MEM_MOD TRUE_MEM NONE_MEM) ;;
  let ev := mem_trace_events_for_chan kind ch in
  trace_fill_event_labels tile XAIE_MEM_MOD ev ;;
  forM (slotted ev) (fun '(slot, ev) => must xaie (TraceEvent tile XAIE_MEM_MOD ev slot)) ;;
  must xaie (TracePktConfig tile XAIE_MEM_MOD pkt) ;;
  must xaie (TraceGetState tile XAIE_MEM_MOD).

Definition Runtime_mem_trace_setup (tile : XAie_LocType) (kind ch arbiter msel : Z) : M unit :=
  if kind =? AIE_TRACE_DMA_NONE then mret tt
  else
    mem_trace_program_unit tile 2 kind ch ;;
    must xaie (StrmPktSwSlaveSlotEnable tile TRACE 1 0 2 0x1F msel arbiter) ;;
    must xaie (StrmPktSwSlavePortEnable tile TRACE 1).

(** The stream from the core's trace port down to the memory tile. *)
Definition trace_hops (tile : XAie_LocType) (p : trace_pick) (kind ch : Z) : M unit :=
  must xaie (StrmPktSwSlaveSlotEnable tile TRACE 0 0 1 0x1F (pk_msel p) (pk_arb p)) ;;
  must xaie (StrmPktSwSlavePortEnable tile TRACE 0) ;;
  let mem_enabled := negb (kind =? AIE_TRACE_DMA_NONE) in
  let mem_msel := if pk_msel p =? 0 then 1 else 0 in
  let master_mselen := if mem_enabled then u8 (Z.lor (Z.shiftl 1 (pk_msel p)) (Z.shiftl 1 mem_msel)) else pk_mselen p in
  must xaie (StrmPktSwMstrPortEnable tile SOUTH (pk_strm p) (pk_arb p) master_mselen) ;;
  when mem_enabled (Runtime_mem_trace_setup tile kind ch (pk_arb p) mem_msel) ;;
  forM (reverse (range (mt_row + 1) (u8 (loc_row tile - 1) + 1)))
    (fun r => must xaie (StrmConnCctEnable (Loc r (loc_col tile)) NORTH (pk_strm p) SOUTH (pk_strm p))).

(** The last hop, which lands the stream in the memory tile's channel. *)
Definition last_hop (tile : XAie_LocType) (p : trace_pick) : tcall :=
  StrmConnCctEnable (Loc mt_row (loc_col tile)) NORTH (pk_strm p) DMA (pk_s2mm p).

(** The memory tile's channel and descriptor. *)
Definition trace_drain (tile : XAie_LocType) (p : trace_pick) (buf_addr buf_len : Z) : M unit :=
  let mt := Loc mt_row (loc_col tile) in
  when (((pk_s2mm p mod 2 =? 0) && (24 <=? pk_bd p)) || ((pk_s2mm p mod 2 =? 1) && (pk_bd p <? 24)))
    (throw XAIE_INVALID_ARGS) ;;
  must xaie (DmaDescInit mt) ;;
  ignore xaie (DmaSetAddrLen buf_addr buf_len) ;;
  ignore xaie DmaEnableBd ;;
  must xaie (DmaWriteBd mt (pk_bd p)) ;;
  must xaie (DmaChannelSetStartQueue mt (pk_s2mm p) DMA_S2MM (pk_bd p) 1) ;;
  must xaie (DmaChannelEnable mt (pk_s2mm p) DMA_S2MM).

Definition claim_trace (col strm s2mm : Z) : M unit :=
  modify (upd_rest (fun s => Tst (resmap_claim_trace (ts_claims s) col strm s2mm) (s_trace_session s)
    (s_trace_col_used s) (s_core_trace_slot_event s) (s_mem_trace_slot_event s) (s_mem_trace_slot_dynname s))).

Definition Runtime_core_trace_setup (tile : XAie_LocType) (buf_addr buf_len strm_ch s2mm_ch bdnum : Z)
    (port_intf : XAie_StrmPortIntf) (port : StrmSwPortType) (port_num kind ch : Z) : M unit :=
  cl ← gets (fun s => ts_claims (rest s));
  let p := resmap_apply_trace_resources cl resmap (loc_col tile) (loc_row tile) mt_row
             (Pick strm_ch s2mm_ch bdnum 1 1 0 1) in
  core_trace_program_unit tile 1 port_intf port port_num ;;
  when (mem_rows =? 0) (throw XAIE_ERR) ;;
  trace_hops tile p kind ch ;;
  must xaie (last_hop tile p) ;;
  claim_trace (loc_col tile) (pk_strm p) (pk_s2mm p) ;;
  trace_drain tile p buf_addr buf_len.

(** The return code of a call that the caller looks at. *)
Definition rc_of (m : M unit) : M Z := fun s =>
  match m s with (s', Ok _) => (s', Ok XAIE_OK) | (s', Err rc) => (s', Ok rc) end.

Definition armed (col row : Z) (e : AieTraceSessionEntry) : bool := (se_col e =? col) && (se_row e =? row).

(** [dev]: the device pointer is not [NULL].  Nothing is returned. *)
Definition trace_begin_body (dev : bool) (col row strm_ch_arg kind ch : Z) : M unit :=
  if negb dev then mret tt
  else if row <? row_start then mret tt
  else if AIE_TRACE_MAX_COLS <=? col then mret tt
  else
    session ← gets (fun s => s_trace_session (rest s));
    if existsb (armed col row) session then mret tt
    else if AIE_TRACE_SESSION_CAP <=? len session then mret tt
    else
      slot ← gets (fun s => rd (s_trace_col_used (rest s)) col);
      if AIE_TRACE_SLOTS_PER_COL <=? slot then mret tt
      else
        let strm_ch := if strm_ch_arg =? AIE_TRACE_STRM_CH_AUTO then slot else strm_ch_arg in
        if AIE_TRACE_SLOTS_PER_COL <=? strm_ch then mret tt
        else
          let read_addr := AIE_TRACE_REGION_BASE +u32 (slot *u32 AIE_TRACE_BUF_LEN) in
          let setup_addr := Z.lor read_addr AIE_TRACE_DMA_HI in
          ignore xaie (DataMemBlockWrite (Loc mt_row col) read_addr AIE_TRACE_BUF_LEN) ;;
          let '(ev_intf, ev_port, ev_idx) :=
            default (XAIE_STRMSW_SLAVE, SOUTH, 0)
              (match resmap with Some rm => resmap_lookup_dma_port rm col row kind ch | None => None end) in
          rc ← rc_of (Runtime_core_trace_setup (Loc row col) setup_addr AIE_TRACE_BUF_LEN strm_ch slot
                        (rd k_bd_for_slot slot) ev_intf ev_port (u8 ev_idx) kind ch);
          if negb (rc =? XAIE_OK) then mret tt
          else
            modify (upd_rest (fun s => Tst (ts_claims s)
              (s_trace_session s ++ [Sess col row mt_row read_addr AIE_TRACE_BUF_LEN])
              (wr (s_trace_col_used s) col (u8 (slot + 1)))
              (s_core_trace_slot_event s) (s_mem_trace_slot_event s) (s_mem_trace_slot_dynname s))).

Definition Runtime_core_trace_begin (dev : bool) (col row : Z) : M unit :=
  trace_begin_body dev col row AIE_TRACE_STRM_CH_AUTO AIE_TRACE_DMA_S2MM 0.
Definition Runtime_core_trace_begin_ch (dev : bool) (col row strm_ch_arg : Z) : M unit :=
  trace_begin_body dev col row strm_ch_arg AIE_TRACE_DMA_S2MM 0.
Definition Runtime_core_trace_begin_dma (dev : bool) (col row kind ch : Z) : M unit :=
  trace_begin_body dev col row AIE_TRACE_STRM_CH_AUTO kind ch.

(** The end of a session: every armed tile's buffer is read (and decoded),
    then the registry is cleared. *)
Definition trace_clear : M unit :=
  modify (upd_rest (fun s => Tst (ts_claims s) [] (replicate 64 0)
    (s_core_trace_slot_event s) (s_mem_trace_slot_event s) (s_mem_trace_slot_dynname s))).

Definition Runtime_core_trace_end (dev : bool) : M unit :=
  session ← gets (fun s => s_trace_session (rest s));
  match session with
  | [] => mret tt
  | _ =>
    when dev (forM session (fun e =>
      ignore xaie (DataMemBlockRead (Loc (se_mt_row e) (se_col e)) (se_addr e)
                     (4 * Z.min (se_len e / 4) (AIE_TRACE_BUF_LEN / 4))))) ;;
    trace_clear
  end.

(** ** The calls of each part, in order *)

Definition core_plan (tile : XAie_LocType) (pkt : Z) (intf : XAie_StrmPortIntf) (port : StrmSwPortType)
    (num : Z) : list tcall :=
  [TraceControlConfigReset tile XAIE_CORE_MOD] ++ [TracePktConfigReset tile XAIE_CORE_MOD] ++
  [TraceEventReset tile XAIE_CORE_MOD AIE_CORE_TRACE_NSLOTS] ++ [EventSelectStrmPort tile 0 intf port num] ++
  [TraceControlConfig tile XAIE_CORE_MOD ACTIVE_CORE DISABLED_CORE] ++
  concat ((fun '(slot, ev) => [TraceEvent tile XAIE_CORE_MOD ev slot]) <$> slotted trace_events) ++
  [] ++ [TracePktConfig tile XAIE_CORE_MOD pkt] ++ [TraceGetState tile XAIE_CORE_MOD].

Definition mem_unit_plan (tile : XAie_LocType) (pkt kind ch : Z) : list tcall :=
  [TraceControlConfigReset tile XAIE_MEM_MOD] ++ [TracePktConfigReset tile XAIE_MEM_MOD] ++
  [TraceEventReset tile XAIE_MEM_MOD AIE_MEM_TRACE_NSLOTS] ++
  [TraceControlConfig tile XAIE_MEM_MOD TRUE_MEM NONE_MEM] ++ [] ++
  concat ((fun '(slot, ev) => [TraceEvent tile XAIE_MEM_MOD ev slot]) <$> slotted (mem_trace_events_for_chan kind ch)) ++
  [TracePktConfig tile XAIE_MEM_MOD pkt] ++ [TraceGetState tile XAIE_MEM_MOD].

Definition mem_plan (tile : XAie_LocType) (kind ch arbiter msel : Z) : list tcall :=
  if kind =? AIE_TRACE_DMA_NONE then []
  else mem_unit_plan tile 2 kind ch ++ [StrmPktSwSlaveSlotEnable tile TRACE 1 0 2 0x1F msel arbiter] ++
       [StrmPktSwSlavePortEnable tile TRACE 1].

Definition hops_plan (tile : XAie_LocType) (p : trace_pick) (kind ch : Z) : list tcall :=
  let mem := negb (kind =? AIE_TRACE_DMA_NONE) in
  let mem_msel := if pk_msel p =? 0 then 1 else 0 in
  [StrmPktSwSlaveSlotEnable tile TRACE 0 0 1 0x1F (pk_msel p) (pk_arb p)] ++ [StrmPktSwSlavePortEnable tile TRACE 0] ++
  [StrmPktSwMstrPortEnable tile SOUTH (pk_strm p) (pk_arb p)
     (if mem then u8 (Z.lor (Z.shiftl 1 (pk_msel p)) (Z.shiftl 1 mem_msel)) else pk_mselen p)] ++
  (if mem then mem_plan tile kind ch (pk_arb p) mem_msel else []) ++
  concat ((fun r => [StrmConnCctEnable (Loc r (loc_col tile)) NORTH (pk_strm p) SOUTH (pk_strm p)]) <$>
          thru_rows (loc_row tile) mt_row).

Definition drain_plan (tile : XAie_LocType) (p : trace_pick) (buf_addr buf_len : Z) : list tcall :=
  let mt := Loc mt_row (loc_col tile) in
  [] ++ [DmaDescInit mt] ++ [DmaSetAddrLen buf_addr buf_len] ++ [DmaEnableBd] ++ [DmaWriteBd mt (pk_bd p)] ++
  [DmaChannelSetStartQueue mt (pk_s2mm p) DMA_S2MM (pk_bd p) 1] ++ [DmaChannelEnable mt (pk_s2mm p) DMA_S2MM].

Context (INVALID_ne : XAIE_INVALID_ARGS <> XAIE_OK).

(** What the setup's calls leave alone, and a claim. *)
Definition kept (s : tst) : claims * (list AieTraceSessionEntry * list Z) :=
  (ts_claims s, (s_trace_session s, s_trace_col_used s)).
Abbreviation follows m s cs := (finishes kept m s cs id (fun _ => True)).

Lemma labels_follow tile m evs s : follows (trace_fill_event_labels tile m evs) s [].
Proof using. apply finishes_modify. by destruct m. Qed.

Lemma events_follow tile m evs s :
  follows (forM (slotted evs) (fun '(slot, ev) => must xaie (TraceEvent tile m ev slot))) s
    (concat ((fun '(slot, ev) => [TraceEvent tile m ev slot]) <$> slotted evs)).
Proof using. apply follows_forM. intros [slot ev] s'. apply follows_must. Qed.

Lemma core_unit_follows tile pkt intf port num s :
  follows (core_trace_program_unit tile pkt intf port num) s (core_plan tile pkt intf port num).
Proof using.
  unfold core_trace_program_unit, core_plan. follow.
  eapply follows_bind; [apply events_follow|]. intros ? ? _ _ _.
  eapply follows_bind; [apply labels_follow|]. intros ? ? _ _ _. follow.
Qed.

Lemma mem_unit_follows tile pkt kind ch s :
  follows (mem_trace_program_unit tile pkt kind ch) s (mem_unit_plan tile pkt kind ch).
Proof using.
  unfold mem_trace_program_unit, mem_unit_plan. follow.
  eapply follows_bind; [apply labels_follow|]. intros ? ? _ _ _.
  eapply follows_bind; [apply events_follow|]. intros ? ? _ _ _. follow.
Qed.

Lemma mem_setup_follows tile kind ch arb msel s :
  follows (Runtime_mem_trace_setup tile kind ch arb msel) s (mem_plan tile kind ch arb msel).
Proof using.
  unfold Runtime_mem_trace_setup, mem_plan. apply follows_if; [by apply follows_ret|].
  eapply follows_bind; [apply mem_unit_follows|]. intros ? ? _ _ _. follow.
Qed.

Lemma hops_follow tile p kind ch s : follows (trace_hops tile p kind ch) s (hops_plan tile p kind ch).
Proof using.
  unfold trace_hops, hops_plan. follow.
  eapply follows_bind; [apply follows_when, mem_setup_follows|]. intros ? ? _ _ _.
  apply follows_forM. intros. apply follows_must.
Qed.

Lemma drain_follows tile p addr n s : follows (trace_drain tile p addr n) s (drain_plan tile p addr n).
Proof using INVALID_ne.
  unfold trace_drain, drain_plan.
  eapply follows_bind; [by apply follows_guard|]. intros ? ? _ _ _. follow.
Qed.

(** What a claim does to the kept part. *)
Definition claimed (col strm s2mm : Z) (x : claims * (list AieTraceSessionEntry * list Z)) :
    claims * (list AieTraceSessionEntry * list Z) := (resmap_claim_trace x.1 col strm s2mm, x.2).

Definition connect_plan (tile : XAie_LocType) (p : trace_pick) (intf : XAie_StrmPortIntf) (port : StrmSwPortType)
    (num kind ch : Z) : list tcall :=
  core_plan tile 1 intf port num ++ [] ++ hops_plan tile p kind ch.

(** The resources a setup uses from state [s]. *)
Definition setup_pick (s : drv tst tcall) (tile : XAie_LocType) (strm_ch s2mm_ch bdnum : Z) : trace_pick :=
  resmap_apply_trace_resources (ts_claims (rest s)) resmap (loc_col tile) (loc_row tile) mt_row
    (Pick strm_ch s2mm_ch bdnum 1 1 0 1).

Definition trace_connect (tile : XAie_LocType) (p : trace_pick) (intf : XAie_StrmPortIntf) (port : StrmSwPortType)
    (num kind ch : Z) : M unit :=
  core_trace_program_unit tile 1 intf port num ;; when (mem_rows =? 0) (throw XAIE_ERR) ;; trace_hops tile p kind ch.

Lemma connect_follows tile p intf port num kind ch s :
  follows (trace_connect tile p intf port num kind ch) s (connect_plan tile p intf port num kind ch).
Proof using.
  unfold trace_connect, connect_plan.
  eapply follows_bind; [apply core_unit_follows|]. intros ? ? _ _ _.
  eapply follows_bind; [by apply follows_guard|]. intros ? ? _ _ _. apply hops_follow.
Qed.

Lemma setup_split tile addr n strm_ch s2mm_ch bdnum intf port num kind ch s :
  let p := setup_pick s tile strm_ch s2mm_ch bdnum in
  Runtime_core_trace_setup tile addr n strm_ch s2mm_ch bdnum intf port num kind ch s =
  (trace_connect tile p intf port num kind ch ;;
   must xaie (last_hop tile p) ;;
   claim_trace (loc_col tile) (pk_strm p) (pk_s2mm p) ;; trace_drain tile p addr n) s.
Proof using.
  intros p. unfold Runtime_core_trace_setup, trace_connect, gets, mbind, stE_bind. fold p.
  destruct (core_trace_program_unit _ _ _ _ _ s) as [s1 [[]|e]]; [|done].
  destruct (when _ _ s1) as [s2 [[]|e]]; [|done].
  by destruct (trace_hops _ _ _ _ s2) as [s3 [[]|e]].
Qed.

(** Either the stream was not landed and nothing of the kept state changed, or
    it was and its channels are claimed. *)
Lemma setup_run tile addr n strm_ch s2mm_ch bdnum intf port num kind ch s :
  let p := setup_pick s tile strm_ch s2mm_ch bdnum in
  let plan1 := connect_plan tile p intf port num kind ch in
  let plan2 := drain_plan tile p addr n in
  let landed := xaie (calls s ++ plan1) (last_hop tile p) = XAIE_OK in
  let claim := claimed (loc_col tile) (pk_strm p) (pk_s2mm p) in
  match Runtime_core_trace_setup tile addr n strm_ch s2mm_ch bdnum intf port num kind ch s with
  | (s', Ok _) =>
    calls s' = calls s ++ plan1 ++ last_hop tile p :: plan2 /\ landed /\ kept (rest s') = claim (kept (rest s))
  | (s', Err e) =>
    e <> XAIE_OK /\
    ((exists k, calls s' = calls s ++ take k plan1 /\ kept (rest s') = kept (rest s)) \/
     (calls s' = calls s ++ plan1 ++ [last_hop tile p] /\ ~ landed /\ kept (rest s') = kept (rest s)) \/
     (exists k, calls s' = calls s ++ plan1 ++ last_hop tile p :: take k plan2 /\ landed /\
        kept (rest s') = claim (kept (rest s))))
  end.
Proof using INVALID_ne.
  intros p plan1 plan2 landed claim. rewrite setup_split. fold p.
  pose proof (connect_follows tile p intf port num kind ch s) as H. fold plan1 in H.
  unfold finishes, id in H. unfold mbind at 1, stE_bind at 1.
  destruct (trace_connect _ _ _ _ _ _ _ s) as [s1 [[]|e]]; cycle 1.
  { destruct H as (He & Hk & k & E). split; [done|]. left. by exists k. }
  destruct H as (E1 & K1 & _). unfold landed. rewrite <- E1. clear landed. clearbody plan1.
  unfold mbind at 1, stE_bind at 1, must at 1, call, mbind at 1, stE_bind at 1.
  destruct (Z.eqb_spec (xaie (calls s1) (last_hop tile p)) XAIE_OK) as [Hok|Hno]; simpl; cycle 1.
  { split; [done|]. right; left. split; [|done]. by rewrite E1, <- app_assoc. }
  unfold mbind at 1, stE_bind at 1, claim_trace at 1, modify at 1. set (s2 := upd_rest _ _).
  assert (kept (rest s2) = claim (kept (rest s))) as K2 by (unfold claim, claimed; by rewrite <- K1).
  assert (calls s2 = calls s ++ plan1 ++ [last_hop tile p]) as E2.
  { unfold s2. simpl. by rewrite E1, <- app_assoc. }
  pose proof (drain_follows tile p addr n s2) as H. fold plan2 in H. unfold finishes, id in H.
  destruct (trace_drain tile p addr n s2) as [s3 [[]|e]].
  - destruct H as (E3 & K3 & _). split_and!; [by rewrite E3, E2, <- !app_assoc|done|congruence].
  - destruct H as (He & K3 & k & E3). split; [done|]. right; right. exists k.
    split_and!; [by rewrite E3, E2, <- !app_assoc|done|congruence].
Qed.

(** ** Established routes

    A route of column [col] into the memory tile: a successful last hop. *)
Definition est (cs : list tcall) (col a b : Z) : Prop :=
  exists pre post, cs = pre ++ StrmConnCctEnable (Loc mt_row col) NORTH a DMA b :: post /\
    xaie pre (StrmConnCctEnable (Loc mt_row col) NORTH a DMA b) = XAIE_OK.

Definition lands (c : tcall) : bool :=
  match c with StrmConnCctEnable _ _ _ DMA _ => true | _ => false end.
Definition quiet (cs : list tcall) : Prop := Forall (fun c => lands c = false) cs.

Lemma est_quiet cs ex col a b : quiet ex -> est (cs ++ ex) col a b -> est cs col a b.
Proof using.
  intros Hq (pre & post & E & Hok). apply app_eq_app in E as (l & [[-> E]|[-> E]]).
  - destruct l as [|c l].
    + simpl in E. subst ex. apply Forall_cons in Hq as [Hq _]. done.
    + injection E as <- ->. exists pre, l. done.
  - subst ex. apply Forall_app in Hq as [_ Hq]. apply Forall_cons in Hq as [Hq _]. done.
Qed.

Lemma est_snoc cs c col a b :
  est (cs ++ [c]) col a b ->
  est cs col a b \/ c = StrmConnCctEnable (Loc mt_row col) NORTH a DMA b /\ xaie cs c = XAIE_OK.
Proof using.
  intros (pre & post & E & Hok). induction post as [|y post _] using rev_ind.
  - apply app_inj_tail in E as [E1 E2]. subst pre c. by right.
  - rewrite app_comm_cons, app_assoc in E. apply app_inj_tail in E as [-> _]. left. by exists pre, post.
Qed.

Lemma quiet_take k cs : quiet cs -> quiet (take k cs).
Proof using. apply Forall_take. Qed.

Lemma quiet_mem_plan tile kind ch arb msel : quiet (mem_plan tile kind ch arb msel).
Proof using.
  unfold mem_plan. destruct (kind =? AIE_TRACE_DMA_NONE); [by constructor|].
  unfold mem_unit_plan, mem_trace_events_for_chan.
  destruct (kind =? AIE_TRACE_DMA_MM2S), (1 <=? ch); repeat constructor.
Qed.

Lemma quiet_connect tile p intf port num kind ch : quiet (connect_plan tile p intf port num kind ch).
Proof using.
  unfold connect_plan, quiet. rewrite !Forall_app. split_and!; [repeat constructor|constructor|].
  unfold hops_plan. rewrite !Forall_app. split_and!; [repeat constructor..| |].
  - destruct (negb _); [apply quiet_mem_plan|constructor].
  - apply Forall_concat, Forall_fmap, Forall_true. intros r. by repeat constructor.
Qed.

Lemma quiet_drain tile p addr n : quiet (drain_plan tile p addr n).
Proof using. unfold drain_plan. repeat constructor. Qed.

(** Every established route has claimed its two channels. *)
Definition claims_cover (s : drv tst tcall) : Prop :=
  claims_ok (ts_claims (rest s)) /\
  forall col a b, 0 <= col < 64 -> 0 <= a -> 0 <= b -> est (calls s) col a b ->
    resmap_strm_claimed (ts_claims (rest s)) col a = true /\ resmap_s2mm_claimed (ts_claims (rest s)) col b = true.

(** The channels of a setup are in range: picked, or the caller's. *)
Lemma setup_pick_range s tile strm_ch s2mm_ch bdnum :
  0 <= strm_ch < 4 -> 0 <= s2mm_ch < 4 ->
  let p := setup_pick s tile strm_ch s2mm_ch bdnum in 0 <= pk_strm p < 4 /\ 0 <= pk_s2mm p < 4.
Proof using.
  intros H1 H2 p. unfold p, setup_pick, resmap_apply_trace_resources.
  destruct resmap as [[|e rm]|]; [done| |done].
  pose proof (pick_cases (ts_claims (rest s)) (e :: rm) (loc_col tile) (loc_row tile) mt_row) as H.
  destruct (resmap_pick_trace_resources _ _ _ _ _) as [q|]; simpl; [|done].
  destruct H as ((B1 & _) & (B2 & _) & _). done.
Qed.

Lemma claims_cover_quiet s s' ex :
  claims_cover s -> ts_claims (rest s') = ts_claims (rest s) -> calls s' = calls s ++ ex -> quiet ex -> claims_cover s'.
Proof using.
  intros [H1 H2] Ec E Hq. unfold claims_cover. rewrite Ec, E. split; [done|].
  intros col a b Hc Ha Hb He. apply est_quiet in He; auto.
Qed.

Lemma claims_cover_landed s s' tile p ex :
  claims_cover s -> 0 <= loc_col tile < 64 -> 0 <= pk_strm p < 4 -> 0 <= pk_s2mm p < 4 ->
  ts_claims (rest s') = resmap_claim_trace (ts_claims (rest s)) (loc_col tile) (pk_strm p) (pk_s2mm p) ->
  calls s' = calls s ++ last_hop tile p :: ex -> quiet ex -> claims_cover s'.
Proof using.
  intros [H1 H2] Hcol Hs Hm Ec E Hq. unfold claims_cover. rewrite Ec, E. split; [by apply claim_trace_ok|].
  intros col a b Hc Ha Hb He. rewrite claim_trace_strm, claim_trace_s2mm by (done || lia).
  change (last_hop tile p :: ex) with ([last_hop tile p] ++ ex) in He. rewrite app_assoc in He.
  apply est_quiet in He; [|done]. apply est_snoc in He as [He|[He _]].
  - destruct (H2 col a b Hc Ha Hb He) as [-> ->]. done.
  - unfold last_hop in He. injection He as E1 E2 E3.
    rewrite !bool_decide_true by (split; congruence). by rewrite !orb_true_r.
Qed.

Lemma setup_claims_cover tile addr n strm_ch s2mm_ch bdnum intf port num kind ch :
  0 <= loc_col tile < 64 -> 0 <= strm_ch < 4 -> 0 <= s2mm_ch < 4 ->
  keeps claims_cover (Runtime_core_trace_setup tile addr n strm_ch s2mm_ch bdnum intf port num kind ch).
Proof using INVALID_ne.
  intros Hcol Hs Hm s Hc.
  pose proof (setup_run tile addr n strm_ch s2mm_ch bdnum intf port num kind ch s) as H. cbv zeta in H.
  pose proof (setup_pick_range s tile strm_ch s2mm_ch bdnum Hs Hm) as [P1 P2].
  set (p := setup_pick _ _ _ _ _) in *. set (plan1 := connect_plan _ _ _ _ _ _ _) in *.
  assert (quiet plan1) as Q1 by apply quiet_connect.
  assert (quiet (drain_plan tile p addr n)) as Q2 by apply quiet_drain.
  assert (claims_cover (Drv (rest s) (calls s ++ plan1))) as Hc1 by (by eapply claims_cover_quiet).
  clearbody plan1.
  destruct (Runtime_core_trace_setup _ _ _ _ _ _ _ _ _ _ _ s) as [s' [[]|e]]; simpl.
  - destruct H as (E & _ & K). apply (f_equal fst) in K.
    eapply (claims_cover_landed _ _ tile p); [exact Hc1|done|done|done|exact K| |exact Q2].
    rewrite E. cbn [calls]. by rewrite <- app_assoc.
  - destruct H as (_ & [(k & E & K)|[(E & Hno & K)|(k & E & _ & K)]]); apply (f_equal fst) in K.
    + eapply claims_cover_quiet; [exact Hc|exact K|exact E|]. by apply quiet_take.
    + destruct Hc1 as [O1 O2]. unfold claims_cover. simpl in *. rewrite K, E, app_assoc. split; [done|].
      intros col a b ? ? ? He. apply est_snoc in He as [He|[_ He]]; [by apply O2|done].
    + eapply (claims_cover_landed _ _ tile p); [exact Hc1|done|done|done|exact K| |apply (quiet_take k), Q2].
      rewrite E. cbn [calls]. by rewrite <- app_assoc.
Qed.

(** ** The registry of armed tiles *)

Definition tile_of (e : AieTraceSessionEntry) : Z * Z := (se_col e, se_row e).
Definition in_col (col : Z) (l : list AieTraceSessionEntry) : list AieTraceSessionEntry :=
  filter (fun e => se_col e = col) l.
Definition slot_addr (i : Z) : Z := AIE_TRACE_REGION_BASE + i * AIE_TRACE_BUF_LEN.

(** Tiles are armed once; the tiles of a column have the slots 0, 1, ... and
    their buffers. *)
Definition registry_ok (x : tst) : Prop :=
  length (s_trace_col_used x) = 64%nat /\ len (s_trace_session x) <= AIE_TRACE_SESSION_CAP /\
  NoDup (tile_of <$> s_trace_session x) /\
  forall col, 0 <= col < 64 ->
    0 <= rd (s_trace_col_used x) col <= AIE_TRACE_SLOTS_PER_COL /\
    se_addr <$> in_col col (s_trace_session x) = slot_addr <$> seqZ 0 (rd (s_trace_col_used x) col).

Definition register (col row addr slot : Z) (s : tst) : tst :=
  Tst (ts_claims s) (s_trace_session s ++ [Sess col row mt_row addr AIE_TRACE_BUF_LEN])
    (wr (s_trace_col_used s) col (u8 (slot + 1)))
    (s_core_trace_slot_event s) (s_mem_trace_slot_event s) (s_mem_trace_slot_dynname s).

Lemma register_ok x col row :
  registry_ok x -> 0 <= col < 64 ->
  existsb (armed col row) (s_trace_session x) = false -> len (s_trace_session x) < AIE_TRACE_SESSION_CAP ->
  let slot := rd (s_trace_col_used x) col in
  slot < AIE_TRACE_SLOTS_PER_COL -> registry_ok (register col row (slot_addr slot) slot x).
Proof using.
  clear. intros (Hl & Hn & Hd & Hc) Hcol Hnew Hcap slot Hslot.
  unfold AIE_TRACE_SESSION_CAP, AIE_TRACE_SLOTS_PER_COL in *. unfold registry_ok, AIE_TRACE_SESSION_CAP, AIE_TRACE_SLOTS_PER_COL.
  simpl. split_and!.
  - unfold wr. by rewrite length_insert.
  - rewrite len_app, len_cons, len_nil. lia.
  - rewrite fmap_app. apply NoDup_app. split; [done|]. split; [|by apply NoDup_singleton].
    intros t Ht Hin. apply list_elem_of_singleton in Hin as ->. apply list_elem_of_fmap in Ht as (e & Et & He).
    assert (existsb (armed col row) (s_trace_session x) = true) as T; [|congruence].
    apply existsb_exists. exists e. rewrite <- list_elem_of_In. split; [done|].
    unfold tile_of in Et. injection Et as E1 E2. unfold armed. simpl in *. lia.
  - intros c Hcc. destruct (Hc c Hcc) as [Hr Hm]. unfold in_col. rewrite filter_app, fmap_app.
    fold (in_col c (s_trace_session x)). rewrite Hm, filter_cons, filter_nil. simpl.
    rewrite rd_wr by (unfold len; lia). destruct (Z.eqb_spec col c) as [<-|E].
    + fold slot. rewrite decide_True, u8_small by (done || lia). split; [lia|].
      rewrite seqZ_app, fmap_app by lia.
      replace (seqZ (0 + slot) 1) with [slot] by (unfold seqZ; simpl; f_equal; lia). done.
    + rewrite decide_False by done. by rewrite app_nil_r.
Qed.

Lemma registry_kept x y : kept y = kept x -> registry_ok x -> registry_ok y.
Proof using. unfold kept, registry_ok. intros E. injection E as _ -> ->. done. Qed.

Lemma slot_addr_u32 z :
  0 <= z < 4 -> u32 (AIE_TRACE_REGION_BASE + u32 (z * AIE_TRACE_BUF_LEN)) = slot_addr z.
Proof using.
  intros. unfold slot_addr, AIE_TRACE_REGION_BASE, AIE_TRACE_BUF_LEN.
  rewrite (u32_small (z * 0x4000)) by lia. apply u32_small. lia.
Qed.

(** What [trace_begin_body] does: nothing, or a setup on the column's next
    slot, registered if it succeeds. *)
Lemma begin_run dev col row arg kind ch s :
  0 <= col -> 0 <= arg -> registry_ok (rest s) ->
  let slot := rd (s_trace_col_used (rest s)) col in
  let s1 := Drv (rest s) (calls s ++ [DataMemBlockWrite (Loc mt_row col) (slot_addr slot) AIE_TRACE_BUF_LEN]) in
  let s' := (trace_begin_body dev col row arg kind ch s).1 in
  s' = s \/
  (col < 64 /\ slot < 4 /\ existsb (armed col row) (s_trace_session (rest s)) = false /\
   len (s_trace_session (rest s)) < AIE_TRACE_SESSION_CAP /\
   exists strm intf port num, 0 <= strm < 4 /\
     match Runtime_core_trace_setup (Loc row col) (Z.lor (slot_addr slot) AIE_TRACE_DMA_HI) AIE_TRACE_BUF_LEN
             strm slot (rd k_bd_for_slot slot) intf port num kind ch s1 with
     | (s2, Ok _) => s' = upd_rest (register col row (slot_addr slot) slot) s2
     | (s2, Err _) => s' = s2
     end).
Proof using INVALID_ne.
  intros Hcol Harg Hreg slot s1 s'. unfold s', trace_begin_body.
  destruct dev; [|by left]. cbn [negb]. destruct (row <? row_start); [by left|].
  unfold AIE_TRACE_MAX_COLS. destruct (Z.leb_spec 64 col); [by left|].
  rewrite bind_gets.
  destruct (existsb (armed col row) (s_trace_session (rest s))) eqn:Enew; [by left|].
  destruct (Z.leb_spec AIE_TRACE_SESSION_CAP (len (s_trace_session (rest s)))); [by left|].
  rewrite bind_gets. fold slot. unfold AIE_TRACE_SLOTS_PER_COL. destruct (Z.leb_spec 4 slot); [by left|].
  set (strm := if arg =? AIE_TRACE_STRM_CH_AUTO then slot else arg).
  destruct (Z.leb_spec 4 strm); [by left|]. right.
  destruct Hreg as (_ & _ & _ & Hc). destruct (Hc col ltac:(lia)) as [Hr _]. fold slot in Hr.
  rewrite slot_addr_u32 by (unfold AIE_TRACE_SLOTS_PER_COL in *; lia).
  split_and!; [done..|].
  destruct (default _ _) as [[intf port] idx]. exists strm, intf, port, (u8 idx).
  split; [unfold strm in *; destruct (arg =? _); lia|].
  rewrite (bind_Ok (ignore xaie _) _ s s1 tt) by done. unfold mbind, stE_bind, rc_of.
  destruct (Runtime_core_trace_setup _ _ _ _ _ _ _ _ _ _ _ s1) as [s2 [[]|e]] eqn:Es; [done|].
  pose proof (setup_run (Loc row col) (Z.lor (slot_addr slot) AIE_TRACE_DMA_HI) AIE_TRACE_BUF_LEN strm slot
    (rd k_bd_for_slot slot) intf port (u8 idx) kind ch s1) as Hrun.
  cbv zeta in Hrun. rewrite Es in Hrun. destruct Hrun as [He _].
  destruct (Z.eqb_spec e XAIE_OK); [done|]. done.
Qed.

(** What holds between sessions' operations. *)
Definition sess_inv (s : drv tst tcall) : Prop := claims_cover s /\ registry_ok (rest s).

Lemma setup_registry tile addr n strm_ch s2mm_ch bdnum intf port num kind ch s :
  let s' := (Runtime_core_trace_setup tile addr n strm_ch s2mm_ch bdnum intf port num kind ch s).1 in
  (kept (rest s')).2 = (kept (rest s)).2.
Proof using INVALID_ne.
  intros s'. pose proof (setup_run tile addr n strm_ch s2mm_ch bdnum intf port num kind ch s) as H. cbv zeta in H.
  unfold s'. destruct (Runtime_core_trace_setup _ _ _ _ _ _ _ _ _ _ _ s) as [s2 [[]|e]]; cbn [fst].
  - destruct H as (_ & _ & ->). done.
  - destruct H as (_ & [(k & _ & ->)|[(_ & _ & ->)|(k & _ & _ & ->)]]); done.
Qed.

Lemma registry_part x y : (kept y).2 = (kept x).2 -> registry_ok x -> registry_ok y.
Proof using. unfold kept, registry_ok. simpl. intros E. injection E as -> ->. done. Qed.

Lemma claims_cover_ext s s' :
  ts_claims (rest s') = ts_claims (rest s) -> calls s' = calls s -> claims_cover s -> claims_cover s'.
Proof using. unfold claims_cover. by intros -> ->. Qed.

Lemma begin_inv dev col row arg kind ch :
  0 <= col -> 0 <= arg -> keeps sess_inv (trace_begin_body dev col row arg kind ch).
Proof using INVALID_ne.
  intros Hcol Harg s [Hc Hr]. pose proof (begin_run dev col row arg kind ch s Hcol Harg Hr) as H. cbv zeta in H.
  set (slot := rd (s_trace_col_used (rest s)) col) in *.
  destruct H as [->|(Hcol' & Hslot & Hnew & Hcap & strm & intf & port & num & Hstrm & H)]; [done|].
  set (s1 := Drv _ (calls s ++ _)) in H.
  assert (0 <= slot < 4) as Hs4 by (destruct Hr as (_ & _ & _ & Hr); destruct (Hr col); lia).
  assert (claims_cover s1) as Hc1.
  { eapply claims_cover_quiet; [exact Hc|done|done|by repeat constructor]. }
  pose proof (setup_claims_cover (Loc row col) (Z.lor (slot_addr slot) AIE_TRACE_DMA_HI) AIE_TRACE_BUF_LEN strm slot
    (rd k_bd_for_slot slot) intf port num kind ch ltac:(simpl; lia) Hstrm Hs4 s1 Hc1) as Hc2.
  pose proof (setup_registry (Loc row col) (Z.lor (slot_addr slot) AIE_TRACE_DMA_HI) AIE_TRACE_BUF_LEN strm slot
    (rd k_bd_for_slot slot) intf port num kind ch s1) as Hk. cbv zeta in Hk.
  destruct (Runtime_core_trace_setup _ _ _ _ _ _ _ _ _ _ _ s1) as [s2 [[]|e]]; cbn [fst] in *; rewrite H.
  - split; [by eapply claims_cover_ext|]. simpl. unfold kept in Hk. simpl in Hk. injection Hk as K1 K2.
    replace slot with (rd (s_trace_col_used (rest s2)) col) by (by rewrite K2).
    apply register_ok; rewrite ?K1, ?K2; [|lia|done|done|done].
    eapply registry_part; [|exact Hr]. unfold kept. simpl. by rewrite K1, K2.
  - split; [done|]. by eapply registry_part.
Qed.

Lemma registry_empty x : s_trace_session x = [] -> s_trace_col_used x = replicate 64 0 -> registry_ok x.
Proof using.
  intros E1 E2. unfold registry_ok. rewrite E1, E2. split_and!; [done|done|constructor|].
  intros col Hcol. unfold AIE_TRACE_SLOTS_PER_COL.
  assert (rd (replicate 64 0) col = 0) as ->; [|done].
  unfold rd. by rewrite lookup_replicate_2 by lia.
Qed.

Lemma end_inv dev : keeps sess_inv (Runtime_core_trace_end dev).
Proof using.
  intros s [Hc Hr]. unfold Runtime_core_trace_end. rewrite bind_gets.
  destruct (s_trace_session (rest s)) as [|e0 l]; [done|].
  set (body := fun e => ignore xaie _).
  assert (forall l s, exists s', forM l body s = (s', Ok tt) /\ rest s' = rest s /\
    exists ex, calls s' = calls s ++ ex /\ quiet ex) as Hread.
  { clear. intros l. induction l as [|e l IH]; intros s.
    - exists s. split; [done|]. split; [done|]. exists []. split; [by rewrite app_nil_r|constructor].
    - destruct (IH (Drv (rest s) (calls s ++ [DataMemBlockRead (Loc (se_mt_row e) (se_col e)) (se_addr e)
        (4 * Z.min (se_len e / 4) (AIE_TRACE_BUF_LEN / 4))]))) as (s' & E & R & ex & C & Q).
      exists s'. split; [exact E|]. split; [exact R|]. eexists. rewrite C. cbn [calls].
      rewrite <- app_assoc. split; [reflexivity|]. by constructor. }
  destruct (Hread (e0 :: l) s) as (s' & E & R & ex & C & Q).
  assert (exists s2, (when dev (forM (e0 :: l) body)) s = (s2, Ok tt) /\ rest s2 = rest s /\
    exists ex, calls s2 = calls s ++ ex /\ quiet ex) as (s2 & E2 & R2 & ex2 & C2 & Q2).
  { destruct dev; [eauto 10|]. exists s. split; [done|]. split; [done|]. exists [].
    split; [by rewrite app_nil_r|constructor]. }
  rewrite (bind_Ok _ _ _ _ _ E2). cbn [fst trace_clear modify]. split.
  - eapply claims_cover_quiet; [exact Hc| |exact C2|exact Q2]. simpl. by rewrite R2.
  - by apply registry_empty.
Qed.

Inductive session_reach : drv tst tcall -> Prop :=
| reach_start : session_reach (Drv tst0 [])
| reach_begin s dev col row arg kind ch :
    session_reach s -> 0 <= col < 256 -> 0 <= row < 256 -> 0 <= arg < 256 ->
    session_reach (trace_begin_body dev col row arg kind ch s).1
| reach_end s dev : session_reach s -> session_reach (Runtime_core_trace_end dev s).1.

Lemma reach_inv s : session_reach s -> sess_inv s.
Proof using INVALID_ne.
  induction 1 as [|s dev col row arg kind ch _ IH Hc Hr Ha|s dev _ IH].
  - split.
    + split; [done|]. intros col a b _ _ _ (pre & post & E & _). by destruct pre.
    + by apply registry_empty.
  - apply begin_inv; [lia|lia|done].
  - by apply end_inv.
Qed.

Lemma fmap_inj_in {A B} (f : A -> B) l x y : NoDup (f <$> l) -> x ∈ l -> y ∈ l -> f x = f y -> x = y.
Proof using.
  intros Hd Hx Hy E. apply list_elem_of_lookup_1 in Hx as [i Hi], Hy as [j Hj].
  assert (i = j) as ->; [|congruence]. eapply (NoDup_lookup _ i j (f x)); [exact Hd| |].
  - by rewrite list_lookup_fmap, Hi.
  - by rewrite list_lookup_fmap, Hj, E.
Qed.

Lemma registry_disjoint x e1 e2 :
  registry_ok x -> 0 <= se_col e1 < 64 -> e1 ∈ s_trace_session x -> e2 ∈ s_trace_session x -> e1 <> e2 ->
  se_col e1 = se_col e2 ->
  (se_addr e1 + AIE_TRACE_BUF_LEN <= se_addr e2 \/ se_addr e2 + AIE_TRACE_BUF_LEN <= se_addr e1) /\
  AIE_TRACE_REGION_BASE <= se_addr e1 /\ se_addr e1 + AIE_TRACE_BUF_LEN <= 0x18000.
Proof using.
  clear. intros (_ & _ & _ & Hc) Hcol H1 H2 Hne E. destruct (Hc (se_col e1) Hcol) as [Hr Hm].
  assert (e1 ∈ in_col (se_col e1) (s_trace_session x)) as I1 by (by apply list_elem_of_filter).
  assert (e2 ∈ in_col (se_col e1) (s_trace_session x)) as I2 by (by apply list_elem_of_filter).
  assert (NoDup (se_addr <$> in_col (se_col e1) (s_trace_session x))) as Hnd.
  { rewrite Hm. apply NoDup_fmap_2; [|apply NoDup_seqZ].
    intros i j. unfold slot_addr, AIE_TRACE_BUF_LEN. lia. }
  assert (se_addr e1 <> se_addr e2) as Hae by (intros Ea; by apply Hne, (fmap_inj_in _ _ _ _ Hnd)).
  apply (list_elem_of_fmap_2 se_addr) in I1, I2. rewrite Hm in I1, I2.
  apply list_elem_of_fmap in I1 as (i & Ei & Hi), I2 as (j & Ej & Hj).
  apply elem_of_seqZ in Hi, Hj. rewrite Ei, Ej in *.
  unfold slot_addr, AIE_TRACE_BUF_LEN, AIE_TRACE_REGION_BASE, AIE_TRACE_SLOTS_PER_COL in *. lia.
Qed.

(** [core_trace_setup] programs the trace unit and connects the stream
    hop by hop: the core's trace port into [SOUTH] of the picked channel, every
    core row below from [NORTH] to [SOUTH] of the same channel, then into the
    picked channel of the memory tile, whose descriptor and queue it starts.
    Success means that all these calls were made; on an error they stop
    somewhere.  The two channels are claimed exactly if the last hop was
    connected, and nothing else of the session changes. *)
Theorem trace_setup_routes tile addr n strm_ch s2mm_ch bdnum intf port num kind ch s :
  let p := setup_pick s tile strm_ch s2mm_ch bdnum in
  let plan1 := connect_plan tile p intf port num kind ch in
  let plan2 := drain_plan tile p addr n in
  let landed := xaie (calls s ++ plan1) (last_hop tile p) = XAIE_OK in
  let '(s', r) := Runtime_core_trace_setup tile addr n strm_ch s2mm_ch bdnum intf port num kind ch s in
  (forall e, r = Err e -> e <> XAIE_OK) /\
  (exists k, calls s' = calls s ++ take k (plan1 ++ last_hop tile p :: plan2) /\
     (r = Ok tt -> take k (plan1 ++ last_hop tile p :: plan2) = plan1 ++ last_hop tile p :: plan2) /\
     kept (rest s') = (if bool_decide (length plan1 < k)%nat && bool_decide landed
                       then claimed (loc_col tile) (pk_strm p) (pk_s2mm p) (kept (rest s)) else kept (rest s))).
Proof using INVALID_ne.
  intros p plan1 plan2 landed. pose proof (setup_run tile addr n strm_ch s2mm_ch bdnum intf port num kind ch s) as H.
  cbv zeta in H. fold p in H. fold plan1 in H. fold plan2 in H. fold landed in H.
  destruct (Runtime_core_trace_setup _ _ _ _ _ _ _ _ _ _ _ s) as [s' [[]|e]].
  - destruct H as (E & L & K). split; [done|]. exists (length (plan1 ++ last_hop tile p :: plan2)).
    rewrite firstn_all. split_and!; [done|done|].
    rewrite !bool_decide_true by (done || rewrite length_app; simpl; lia). done.
  - destruct H as (He & H). split; [intros ? [= <-]; done|].
    destruct H as [(k & E & K)|[(E & L & K)|(k & E & L & K)]].
    + exists (Nat.min k (length plan1)). rewrite <- take_app_min. split_and!; [done|done|].
      rewrite bool_decide_false by lia. done.
    + exists (length plan1 + 1)%nat. rewrite take_app_add. split_and!; [done|done|].
      rewrite (bool_decide_false landed) by done. by rewrite andb_false_r.
    + exists (length plan1 + S k)%nat. rewrite take_app_add. split_and!; [done|done|].
      by rewrite !bool_decide_true by (done || lia).
Qed.

(** C30.  In every state that arming and ending sessions can reach: no tile is
    armed twice, the buffers of two tiles of a column do not overlap and stay
    in the reserved band, and a channel that the picker gives out for a column
    is not one that any earlier trace connected there. *)
Theorem sessions_sound s :
  session_reach s ->
  NoDup (tile_of <$> s_trace_session (rest s)) /\ len (s_trace_session (rest s)) <= AIE_TRACE_SESSION_CAP /\
  (forall e1 e2, e1 ∈ s_trace_session (rest s) -> e2 ∈ s_trace_session (rest s) -> e1 <> e2 ->
     0 <= se_col e1 < 64 -> se_col e1 = se_col e2 ->
     (se_addr e1 + AIE_TRACE_BUF_LEN <= se_addr e2 \/ se_addr e2 + AIE_TRACE_BUF_LEN <= se_addr e1) /\
     AIE_TRACE_REGION_BASE <= se_addr e1 /\ se_addr e1 + AIE_TRACE_BUF_LEN <= 0x18000) /\
  (forall rm col row p a b, 0 <= col < 64 -> 0 <= a -> 0 <= b ->
     resmap_pick_trace_resources (ts_claims (rest s)) rm col row mt_row = Some p ->
     est (calls s) col a b -> pk_strm p <> a /\ pk_s2mm p <> b).
Proof using INVALID_ne.
  intros Hs. apply reach_inv in Hs as [[_ Hc] Hr].
  split; [apply Hr|]. split; [apply Hr|]. split.
  { intros e1 e2 H1 H2 Hne Hcol E. by apply (registry_disjoint (rest s)). }
  intros rm col row p a b Hcol Ha Hb Hp He. destruct (Hc col a b Hcol Ha Hb He) as [C1 C2].
  pose proof (pick_cases (ts_claims (rest s)) rm col row mt_row) as Hpick. rewrite Hp in Hpick.
  destruct Hpick as ((_ & F1 & _) & (_ & F2) & _). unfold strm_free, s2mm_free in F1, F2.
  rewrite !andb_true_iff, !negb_true_iff, orb_false_iff in F1. rewrite andb_true_iff, !negb_true_iff in F2.
  split; [intros E; destruct F1 as [[[F1 _] _] _]|intros E; destruct F2 as [F2 _]]; congruence.
Qed.
End setup.

(** ** A device with two memory rows, whose calls succeed *)

Definition ex_hw (t : XAie_LocType) (m : XAie_ModuleType) (e : XAie_Events) : option Z := None.
Definition ex_raw (e : XAie_Events) : Z := 0.
Definition ex_name (e : XAie_Events) : string := ""%string.
Definition ex_xaie (cs : list tcall) (c : tcall) : Z := XAIE_OK.

Definition ex_begin (col row : Z) : stE (drv tst tcall) Z unit :=
  Runtime_core_trace_begin 3 2 4 ex_hw ex_raw ex_name ex_xaie (Some example_map) true col row.
Definition ex_end : stE (drv tst tcall) Z unit := Runtime_core_trace_end ex_xaie true.
Abbreviation ex_reach := (session_reach 3 2 4 ex_hw ex_raw ex_name ex_xaie (Some example_map)).

Lemma trace_setup_routes_witness :
  let s := Drv tst0 [] in
  let '(s', r) := Runtime_core_trace_setup 3 2 4 ex_hw ex_raw ex_name ex_xaie (Some example_map)
    (Loc 4 2) 0x88000 0x4000 0 0 4 XAIE_STRMSW_SLAVE SOUTH 0 AIE_TRACE_DMA_NONE 0 s in
  r = Ok tt /\ calls s' !! 17%nat = Some (StrmConnCctEnable (Loc 3 2) NORTH 1 SOUTH 1) /\
  (forall e, r = Err e -> e <> XAIE_OK).
Proof.
  intros s. pose proof (trace_setup_routes 3 2 4 ex_hw ex_raw ex_name ex_xaie (Some example_map) ltac:(discriminate)
    (Loc 4 2) 0x88000 0x4000 0 0 4 XAIE_STRMSW_SLAVE SOUTH 0 AIE_TRACE_DMA_NONE 0 s) as H.
  cbv zeta in H.
  assert (match Runtime_core_trace_setup 3 2 4 ex_hw ex_raw ex_name ex_xaie (Some example_map)
    (Loc 4 2) 0x88000 0x4000 0 0 4 XAIE_STRMSW_SLAVE SOUTH 0 AIE_TRACE_DMA_NONE 0 s with
    | (s', r) => r = Ok tt /\ calls s' !! 17%nat = Some (StrmConnCctEnable (Loc 3 2) NORTH 1 SOUTH 1) end) as E
    by (vm_compute; split; reflexivity).
  destruct (Runtime_core_trace_setup _ _ _ _ _ _ _ _ _ _ _ _ _ _ _ _ _ _ _ s) as [s' r].
  destruct E as [E1 E2]. split; [exact E1|]. split; [exact E2|]. exact (proj1 H).
Defined.

Lemma ex_reach_begin col row s :
  ex_reach s -> 0 <= col < 256 -> 0 <= row < 256 -> ex_reach (ex_begin col row s).1.
Proof.
  intros H Hc Hr. unfold ex_begin, Runtime_core_trace_begin.
  apply reach_begin; [exact H|exact Hc|exact Hr|unfold AIE_TRACE_STRM_CH_AUTO; lia].
Qed.

Lemma ex_reach_end s : ex_reach s -> ex_reach (ex_end s).1.
Proof. intros H. unfold ex_end. apply reach_end. exact H. Qed.

Lemma sessions_sound_witness :
  let s := (ex_begin 2 4 (ex_begin 2 5 (Drv tst0 [])).1).1 in
  se_addr <$> s_trace_session (rest s) = [0x8000; 0xC000] /\ NoDup (tile_of <$> s_trace_session (rest s)).
Proof.
  intros s. split; [vm_compute; reflexivity|].
  refine (proj1 (sessions_sound 3 2 4 ex_hw ex_raw ex_name ex_xaie (Some example_map) _ s _)); [discriminate|].
  unfold s. apply ex_reach_begin; [apply ex_reach_begin; [apply reach_start|lia|lia]|lia|lia].
Defined.

(** Ending a session clears the registry but not the claims: after
    three traces of one tile the picker has nothing left, and the fourth
    drives the [SOUTH] port that the resource map records for the data plane,
    though the first trace's channel is free again. *)
Theorem claims_outlive_sessions :
  exists s, ex_reach s /\
    (exists s0, (ex_begin 2 4 ;; ex_end ;; ex_begin 2 4 ;; ex_end ;; ex_begin 2 4 ;; ex_end) (Drv tst0 []) = (s0, Ok tt) /\
       s_trace_session (rest s0) = [] /\ s = (ex_begin 2 4 s0).1) /\
    drives example_map 2 4 "SOUTH" 0 /\ route_free example_map 2 4 2 1 /\
    exists arb mselen, StrmPktSwMstrPortEnable (Loc 4 2) SOUTH 0 arb mselen ∈ calls s.
Proof.
  set (s0 := (ex_end (ex_begin 2 4 (ex_end (ex_begin 2 4 (ex_end (ex_begin 2 4 (Drv tst0 [])).1).1).1).1).1).1).
  exists (ex_begin 2 4 s0).1. split.
  { apply ex_reach_begin; [|lia|lia]. unfold s0. do 3 (apply ex_reach_end, ex_reach_begin; [|lia|lia]). apply reach_start. }
  split; [exists s0; split; [|split]; [vm_compute; reflexivity..|reflexivity]|].
  split; [apply master_used_spec; vm_compute; reflexivity|].
  split; [apply (strm_free_spec no_claims); [lia|lia|vm_compute; reflexivity]|].
  exists 1, 3. apply list_elem_of_lookup_2 with (i := 146%nat). vm_compute. reflexivity.
Qed.
