(* ===== verification/TraceDecode.v ===== *)
(** * Trace decoding ([src/src/mlir/runtime/aie_runtime.c], 1274-1784)

    A trace buffer holds 8-word packets, a header and seven payload words; the
    payload of one packet id is a stream of variable-width frames, which the
    decoder turns into a timeline of intervals with the same event mask.  What
    it prints is a list of lines; the text of the event names is not
    modelled. *)

From stdpp Require Import base list list_numbers numbers.
From S2P Require Import Prelude.

Local Open Scope Z_scope.
Local Open Scope c_scope.

Definition XAIE_TRACE_SYNC_CYCLES : Z := 0x3FFFF.
Definition AIE_TRACE_MAX_PKTS : Z := 256.
Definition AIE_TRACE_PROFILE_CAP : Z := 4096.
Definition AIE_TRACE_PROFILE_MIN_PER_STREAM : Z := 1024.
Definition AIE_TRACE_ANCHOR_CAP : Z := 8.
Definition AIE_TRACE_EVENT_CAP : Z := 64.

(** ** The profile *)

(** The name table of a stream: the memory module's or the core's. *)
Inductive names_t := s_core_trace_slot_name | s_mem_trace_slot_name.

Record AieTraceInterval := Interval {
  v_col : Z; v_row : Z; v_mask : Z; v_start : Z; v_end : Z; v_names : names_t }.
Record AieTraceAnchor := Anchor { a_col : Z; a_row : Z; aie0 : Z; aie1 : Z }.
Record AieTraceHostEvt := HostEvt { ev_iter : Z; ev_phase : Z; ev_host : Z }.

(** [iv[0 .. count)], [anchor[0 .. nanchor)] and [evt[0 .. nevt)]. *)
Record AieTraceProfile := Profile {
  iv : list AieTraceInterval; dropped : Z; reserve : Z; cur_col : Z; cur_row : Z; attached : bool;
  cps : Z; host0 : Z; host1 : Z; anchor : list AieTraceAnchor; evt : list AieTraceHostEvt; evt_dropped : Z;
  words_col : Z; words_row : Z; nwords : Z }.

Definition trace_profile_init : AieTraceProfile := Profile [] 0 0 0 0 false 0 0 0 [] [] 0 0 0 0.

Definition trace_profile_attach (col row : Z) (p : AieTraceProfile) : AieTraceProfile :=
  Profile (iv p) (dropped p) (reserve p) col row true (cps p) (host0 p) (host1 p) (anchor p) (evt p)
    (evt_dropped p) (words_col p) (words_row p) (nwords p).
Definition trace_profile_set_clock (c : Z) (p : AieTraceProfile) : AieTraceProfile :=
  Profile (iv p) (dropped p) (reserve p) (cur_col p) (cur_row p) (attached p) c (host0 p) (host1 p) (anchor p)
    (evt p) (evt_dropped p) (words_col p) (words_row p) (nwords p).
Definition trace_profile_set_trace_words (col row n : Z) (p : AieTraceProfile) : AieTraceProfile :=
  Profile (iv p) (dropped p) (reserve p) (cur_col p) (cur_row p) (attached p) (cps p) (host0 p) (host1 p)
    (anchor p) (evt p) (evt_dropped p) col row n.
Definition set_reserve (r : Z) (p : AieTraceProfile) : AieTraceProfile :=
  Profile (iv p) (dropped p) r (cur_col p) (cur_row p) (attached p) (cps p) (host0 p) (host1 p) (anchor p)
    (evt p) (evt_dropped p) (words_col p) (words_row p) (nwords p).

(** [__aie_trace_anchor_slot]: the anchors and the index of the tile's, if
    the table is not full. *)
Fixpoint anchor_find (l : list AieTraceAnchor) (col row : Z) : option nat :=
  match l with
  | [] => None
  | a :: l => if (a_col a =? col) && (a_row a =? row) then Some 0%nat else S <$> anchor_find l col row
  end.
Definition anchor_slot (l : list AieTraceAnchor) (col row : Z) : list AieTraceAnchor * option nat :=
  match anchor_find l col row with
  | Some i => (l, Some i)
  | None => if AIE_TRACE_ANCHOR_CAP <=? len l then (l, None) else (l ++ [Anchor col row 0 0], Some (length l))
  end.

Definition trace_profile_anchor (which col row aie host : Z) (p : AieTraceProfile) : AieTraceProfile :=
  let '(l, slot) := anchor_slot (anchor p) col row in
  let l := match slot with
           | Some i => alter (fun a => if which =? 0 then Anchor (a_col a) (a_row a) aie (aie1 a)
                                       else Anchor (a_col a) (a_row a) (aie0 a) aie) i l
           | None => l
           end in
  Profile (iv p) (dropped p) (reserve p) (cur_col p) (cur_row p) (attached p) (cps p)
    (if which =? 0 then host else host0 p) (if which =? 0 then host1 p else host)
    l (evt p) (evt_dropped p) (words_col p) (words_row p) (nwords p).

Definition trace_profile_event (iter phase host : Z) (p : AieTraceProfile) : AieTraceProfile :=
  let full := AIE_TRACE_EVENT_CAP <=? len (evt p) in
  Profile (iv p) (dropped p) (reserve p) (cur_col p) (cur_row p) (attached p) (cps p) (host0 p) (host1 p)
    (anchor p) (if full then evt p else evt p ++ [HostEvt iter phase host])
    (if full then evt_dropped p +u32 1 else evt_dropped p) (words_col p) (words_row p) (nwords p).

(** ** Bits of the payload *)

(** [bases]: the word indices of the stream's packet headers. *)
Definition core_trace_pw (bases : list Z) (pwi : Z) : Z := rd bases (pwi / 7) +u32 1 +u32 (pwi mod 7).

(** The value read; the caller advances [bitpos]. *)
Definition core_trace_bits (buf bases : list Z) (bitpos nbits : Z) : Z :=
  foldl (fun v i =>
    let bp := bitpos +u64 i in
    let w := core_trace_pw bases (u32 (bp >> 5)) in
    let off := bp & 31 in
    (v <<u32 1) |' ((rd buf w >> (31 - off)) & 1)) 0 (range 0 nbits).
Definition core_trace_peek8 (buf bases : list Z) (bitpos : Z) : Z := core_trace_bits buf bases bitpos 8.

(** ** Runs *)

Inductive line :=
| LInterval (s e mask : Z)
| LStart (timer overrun : Z)
| LStop (cycle : Z).

(** [r_open] is [Some] of start, end and mask while a run is open. *)
Record core_trace_run := Run {
  r_open : option (Z * Z * Z); r_timed : bool; r_prof : option AieTraceProfile; r_out : list line }.

Definition add_interval (names : names_t) (s e mask : Z) (p : AieTraceProfile) : AieTraceProfile :=
  let eff_cap := if reserve p <? AIE_TRACE_PROFILE_CAP then AIE_TRACE_PROFILE_CAP -u32 reserve p else 0 in
  let room := len (iv p) <? eff_cap in
  Profile (if room then iv p ++ [Interval (cur_col p) (cur_row p) mask s e names] else iv p)
    (if room then dropped p else dropped p +u32 1)
    (reserve p) (cur_col p) (cur_row p) (attached p) (cps p) (host0 p) (host1 p) (anchor p) (evt p)
    (evt_dropped p) (words_col p) (words_row p) (nwords p).

Definition core_trace_flush (quiet : bool) (names : names_t) (r : core_trace_run) : core_trace_run :=
  match r_open r with
  | None => r
  | Some (s, e, mask) =>
    if quiet then Run None (r_timed r) (r_prof r) (r_out r)
    else Run None (r_timed r) (if r_timed r then add_interval names s e mask <$> r_prof r else r_prof r)
           (r_out r ++ [LInterval s e mask])
  end.

Definition core_trace_mark (quiet : bool) (names : names_t) (cycle mask : Z) (r : core_trace_run) : core_trace_run :=
  if mask =? 0 then r
  else
    let fresh :=
      let r := core_trace_flush quiet names r in
      Run (Some (cycle, cycle, mask)) (r_timed r) (r_prof r) (r_out r) in
    match r_open r with
    | Some (s, e, m) =>
      if (cycle =? e +u64 1) && (mask =? m) then Run (Some (s, cycle, m)) (r_timed r) (r_prof r) (r_out r) else fresh
    | None => fresh
    end.

Definition say (quiet : bool) (l : line) (r : core_trace_run) : core_trace_run :=
  if quiet then r else Run (r_open r) (r_timed r) (r_prof r) (r_out r ++ [l]).

(** The decoder's locals: [last_kind] is 0 single, 1 multiple, 2 sync, -1
    none. *)
Record dec := Dec { d_bitpos : Z; d_cycle : Z; d_kind : Z; d_events : Z; d_run : core_trace_run }.

(** [rep] marks at the following cycles. *)
Definition repeat_marks (quiet : bool) (names : names_t) (rep mask : Z) (cr : Z * core_trace_run)
    : Z * core_trace_run :=
  foldl (fun '(c, r) _ => let c := c +u64 1 in (c, core_trace_mark quiet names c mask r)) cr (range 0 rep).

Definition core_trace_repeat (quiet : bool) (names : names_t) (rep kind events : Z) (cr : Z * core_trace_run)
    : Z * core_trace_run :=
  if kind =? 2 then (cr.1 +u64 u64 (rep * XAIE_TRACE_SYNC_CYCLES), cr.2)
  else if kind =? 0 then repeat_marks quiet names rep (1 <<u32 events) cr
  else if kind =? 1 then repeat_marks quiet names rep events cr
  else cr.

Section group.
Context (buf bases : list Z) (quiet : bool) (names : names_t).

Definition total_bits : Z := len bases * 7 * 32.

Definition marked (bitpos cycle kind events mask : Z) (d : dec) : dec :=
  Dec bitpos cycle kind events (core_trace_mark quiet names cycle mask (d_run d)).

(** One frame; [None] is [break]. *)
Definition decode_frame (d : dec) : option dec :=
  let bitpos := d_bitpos d in
  let b0 := core_trace_peek8 buf bases bitpos in
  let read n := core_trace_bits buf bases bitpos n in
  let short n := (bitpos +u64 n) >? total_bits in
  let cyc n := d_cycle d +u64 n in
  if (b0 & 0x80) =? 0 then
    let v := read 8 in
    let ev := (v >> 4) & 0x7 in
    Some (marked (bitpos +u64 8) (cyc (v & 0xF)) 0 ev (1 <<u32 ev) d)
  else if (b0 & 0x40) =? 0 then
    let nb := if negb ((b0 & 0x20) =? 0) then 24 else 16 in
    if short nb then None
    else
      let v := read nb in
      let sh := if nb =? 24 then 18 else 10 in
      let ev := (v >> sh) & 0x7 in
      Some (marked (bitpos +u64 nb) (cyc (v & ((1 <<u32 sh) -u32 1))) 0 ev (1 <<u32 ev) d)
  else if (b0 & 0x20) =? 0 then
    if (b0 & 0x10) =? 0 then
      if short 16 then None
      else
        let v := read 16 in
        let ev := (v >> 4) & 0xFF in
        Some (marked (bitpos +u64 16) (cyc (v & 0xF)) 1 ev ev d)
    else
      let sel := (b0 >> 2) & 0x3 in
      if sel =? 0 then
        if short 24 then None
        else
          let v := read 24 in
          let ev := (v >> 10) & 0xFF in
          Some (marked (bitpos +u64 24) (cyc (v & 0x3FF)) 1 ev ev d)
      else if sel =? 1 then
        if short 32 then None
        else
          let v := read 32 in
          let ev := (v >> 18) & 0xFF in
          Some (marked (bitpos +u64 32) (cyc (v & 0x3FFFF)) 1 ev ev d)
      else if sel =? 2 then
        if short 16 then None
        else
          let v := read 16 in
          let '(c, r) := core_trace_repeat quiet names (v & 0x3FF) (d_kind d) (d_events d) (d_cycle d, d_run d) in
          Some (Dec (bitpos +u64 16) c (d_kind d) (d_events d) r)
      else
        if short 32 then None
        else
          let v := read 32 in
          let c := cyc (v & 0x3FFFF) in
          Some (Dec (bitpos +u64 32) c (-1) (d_events d)
                  (say quiet (LStop c) (core_trace_flush quiet names (d_run d))))
  else if (b0 & 0x10) =? 0 then
    let v := read 8 in
    let '(c, r) := core_trace_repeat quiet names (v & 0xF) (d_kind d) (d_events d) (d_cycle d, d_run d) in
    Some (Dec (bitpos +u64 8) c (d_kind d) (d_events d) r)
  else if (b0 & 0x08) =? 0 then
    if short 64 then None
    else
      let w0 := read 32 in
      let w1 := core_trace_bits buf bases (bitpos +u64 32) 32 in
      let start_timer := Z.lor (Z.shiftl (w0 & 0x00FFFFFF) 32) w1 in
      let r := core_trace_flush quiet names (d_run d) in
      let r := Run (r_open r) true (r_prof r) (r_out r) in
      Some (Dec (bitpos +u64 32 +u64 32) start_timer (-1) (d_events d)
              (say quiet (LStart start_timer ((w0 >> 26) & 1)) r))
  else
    let v := read 8 in
    if v =? 0xFF
    then Some (Dec (bitpos +u64 8) (cyc XAIE_TRACE_SYNC_CYCLES) 2 (d_events d) (d_run d))
    else Some (Dec (bitpos +u64 8) (d_cycle d) (d_kind d) (d_events d) (d_run d)).

(** [while (bitpos + 8 <= total_bits)]; [None]: fuel. *)
Fixpoint decode_frames (fuel : nat) (d : dec) : option dec :=
  match fuel with
  | O => None
  | S fuel =>
    if (d_bitpos d +u64 8) <=? total_bits then
      match decode_frame d with
      | None => Some d
      | Some d => decode_frames fuel d
      end
    else Some d
  end.

(** [timed], the profile and the lines printed. *)
Definition core_trace_decode_group (prof : option AieTraceProfile)
    : option (bool * option AieTraceProfile * list line) :=
  d ← decode_frames (Z.to_nat (total_bits / 8 + 1)) (Dec 0 0 (-1) 0 (Run None false prof []));
  let r := core_trace_flush quiet names (d_run d) in
  Some (r_timed r, r_prof r, r_out r).
End group.

(** ** The buffer *)

Definition core_trace_table_for_id (id : Z) : names_t :=
  if id =? 2 then s_mem_trace_slot_name else s_core_trace_slot_name.

Definition core_trace_block_zero (buf : list Z) (p : Z) : bool :=
  forallb (fun k => rd buf (p + k) =? 0) (range 0 8).

(** The packets [p, p + 8, ...] up to the first empty one. *)
Fixpoint packets_from (fuel : nat) (buf : list Z) (nwords p : Z) : list Z :=
  match fuel with
  | O => []
  | S fuel =>
    if ((p +u32 8) <=? nwords) && negb (core_trace_block_zero buf p)
    then p :: packets_from fuel buf nwords (p +u32 8) else []
  end.
Definition packets (buf : list Z) (nwords p : Z) : list Z := packets_from (Z.to_nat (nwords / 8 + 1)) buf nwords p.

Definition not_id (w : Z) : Z := Z.land w 0xFFFFFFE0.

Definition phase_hits (buf : list Z) (nwords k : Z) : Z :=
  foldl (fun hits p => if negb (rd buf p =? 0) && (not_id (rd buf p) =? not_id (rd buf k)) then hits +u32 1 else hits)
    0 (packets buf nwords k).

Definition core_trace_header_phase (buf : list Z) (nwords : Z) : Z :=
  let '(best, best_hits) := foldl (fun '(best, best_hits) k =>
      let hits := phase_hits buf nwords k in
      if hits >? best_hits then (k, hits) else (best, best_hits)) (0, 0) (range 0 8) in
  if (2 <=? best_hits) && (best_hits >? phase_hits buf nwords 0) then best else 0.

Definition group_bases (buf bases : list Z) (id : Z) : list Z :=
  filter (fun p => Z.land (rd buf p) 0x1F = id) bases.

(** A bit set of packet ids; [1u << id]. *)
Definition set_bit (w id : Z) : Z := Z.lor w (1 <<u32 id).
Definition has_bit (w id : Z) : bool := Z.odd (w >> id).

Definition present_ids (buf bases : list Z) : Z := foldl (fun w p => set_bit w (Z.land (rd buf p) 0x1F)) 0 bases.

(** The streams to decode: those with a Start frame, or all. *)
Definition wanted_ids (buf bases : list Z) : option Z :=
  let present := present_ids buf bases in
  wanted ← foldl (fun acc id =>
      wanted ← acc;
      if negb (has_bit present id) then Some wanted
      else
        '(timed, _, _) ← core_trace_decode_group buf (group_bases buf bases id) true (core_trace_table_for_id id) None;
        Some (if (timed : bool) then set_bit wanted id else wanted)) (Some 0) (range 0 32);
  Some (if wanted =? 0 then present else wanted).

Definition count_ids (wanted : Z) : Z := foldl (fun n id => n +u32 b2z (has_bit wanted id)) 0 (range 0 32).

Definition decode_stream (buf bases : list Z) (wanted nstreams id : Z)
    (acc : option (Z * option AieTraceProfile * list line)) : option (Z * option AieTraceProfile * list line) :=
  '(decoded, prof, out) ← acc;
  let g := group_bases buf bases id in
  if (len g =? 0) || negb (has_bit wanted id) then Some (decoded, prof, out)
  else
    let remaining := nstreams -u32 decoded -u32 1 in
    let prof := set_reserve (remaining *u32 AIE_TRACE_PROFILE_MIN_PER_STREAM) <$> prof in
    '(_, prof, lines) ← core_trace_decode_group buf g false (core_trace_table_for_id id) prof;
    Some (decoded +u32 1, prof, out ++ lines).

(** The profile and the lines printed; [None]: fuel. *)
Definition Runtime_core_trace_decode (buf : list Z) (nwords : Z) (prof : option AieTraceProfile)
    : option (option AieTraceProfile * list line) :=
  let bases := take (Z.to_nat AIE_TRACE_MAX_PKTS) (packets buf nwords (core_trace_header_phase buf nwords)) in
  match wanted_ids buf bases with
  | None => None
  | Some wanted =>
    match foldl (fun acc id => decode_stream buf bases wanted (count_ids wanted) id acc)
            (Some (0, prof, [])) (range 0 32) with
    | None => None
    | Some (_, prof, out) => Some (set_reserve 0 <$> prof, out)
    end
  end.

(** ** Bit strings, most significant bit first *)

Definition num (l : list bool) : Z := foldl (fun v b => 2 * v + b2z b) 0 l.
Definition bits_of (n v : Z) : list bool := (fun i => Z.testbit v (n - 1 - i)) <$> seqZ 0 n.

(** The payload of a stream. *)
Definition payload_bit (buf bases : list Z) (j : Z) : bool :=
  Z.testbit (rd buf (core_trace_pw bases (j / 32))) (31 - j mod 32).
Definition payload (buf bases : list Z) : list bool := payload_bit buf bases <$> seqZ 0 (total_bits bases).

Lemma num_snoc l b : num (l ++ [b]) = 2 * num l + b2z b.
Proof. unfold num. by rewrite foldl_app. Qed.

Lemma num_range l : 0 <= num l < 2 ^ len l.
Proof.
  induction l as [|b l IH] using rev_ind; [done|].
  rewrite num_snoc. pose proof (len_nonneg l).
  replace (len (l ++ [b])) with (Z.succ (len l)) by (rewrite len_app; unfold len; simpl; lia).
  rewrite Z.pow_succ_r by lia. destruct b; simpl; lia.
Qed.

Lemma len_bits n v : 0 <= n -> length (bits_of n v) = Z.to_nat n.
Proof. intros. unfold bits_of. by rewrite length_fmap, length_seqZ. Qed.

Lemma bits_of_lookup n v i : 0 <= n -> (i < Z.to_nat n)%nat -> bits_of n v !! i = Some (Z.testbit v (n - 1 - Z.of_nat i)).
Proof.
  intros. unfold bits_of. rewrite list_lookup_fmap, lookup_seqZ_lt by lia. done.
Qed.

Lemma bits_of_app n m v : 0 <= n -> 0 <= m -> bits_of (n + m) v = bits_of n (v / 2 ^ m) ++ bits_of m v.
Proof.
  intros Hn Hm. apply list_eq. intros i. destruct (decide (i < Z.to_nat (n + m))%nat) as [Hi|Hi].
  2: { rewrite !lookup_ge_None_2; [done|rewrite length_app, !len_bits; lia|rewrite len_bits; lia]. }
  rewrite bits_of_lookup by lia. destruct (decide (i < Z.to_nat n)%nat).
  - rewrite lookup_app_l by (rewrite len_bits; lia). rewrite bits_of_lookup by lia. f_equal.
    rewrite Z.div_pow2_bits by lia. f_equal. lia.
  - rewrite lookup_app_r by (rewrite len_bits; lia). rewrite len_bits by lia. rewrite bits_of_lookup by lia.
    do 2 f_equal. lia.
Qed.

Lemma num_bits n v : 0 <= n -> num (bits_of n v) = v mod 2 ^ n.
Proof.
  intros Hn. revert v. pattern n. apply natlike_ind; [|clear n Hn; intros n Hn IH v|done].
  - intros v. rewrite Z.mod_1_r. done.
  - replace (Z.succ n) with (n + 1) by lia. rewrite bits_of_app by lia.
    replace (bits_of 1 v) with [Z.odd v] by (unfold bits_of; cbn; by destruct v).
    rewrite num_snoc, IH. replace (2 ^ (n + 1)) with (2 ^ 1 * 2 ^ n) by (rewrite Z.pow_add_r; lia).
    rewrite (Z.rem_mul_r v (2 ^ 1) (2 ^ n)) by lia. change (2 ^ 1) with 2.
    rewrite Zmod_odd. destruct (Z.odd v); simpl; lia.
Qed.

(** ** Reads *)

Section reads.
Context (buf bases : list Z).
Hypothesis few : len bases <= AIE_TRACE_MAX_PKTS.

Abbreviation P := (payload buf bases).

Lemma total_small : 0 <= total_bits bases < 2 ^ 16.
Proof. clear buf. unfold total_bits. pose proof (len_nonneg bases). unfold AIE_TRACE_MAX_PKTS in few. lia. Qed.

Lemma length_payload : length P = Z.to_nat (total_bits bases).
Proof. unfold payload. by rewrite length_fmap, length_seqZ. Qed.

Lemma trace_bits_take bp n :
  0 <= bp -> 0 <= n <= 32 -> bp + n <= total_bits bases ->
  core_trace_bits buf bases bp n = num (take (Z.to_nat n) (drop (Z.to_nat bp) P)).
Proof.
  pose proof total_small as Hs. intros Hbp [Hn H32]. revert H32. pattern n. apply natlike_ind; [done| |done].
  clear n Hn. intros n Hn IH H32 Hlen. specialize (IH ltac:(lia) ltac:(lia)).
  unfold core_trace_bits, range in *. rewrite Z.sub_0_r in *.
  unfold Z.succ at 1. rewrite seqZ_app by lia. rewrite foldl_app, IH. cbn [seqZ foldl].
  change (seqZ (0 + n) 1) with [0 + n]. cbn [foldl]. rewrite Z.add_0_l.
  replace (Z.to_nat (Z.succ n)) with (S (Z.to_nat n)) by lia.
  rewrite (take_S_r _ _ (payload_bit buf bases (bp + n))).
  2: { rewrite lookup_drop. unfold payload. rewrite list_lookup_fmap, lookup_seqZ_lt by lia. simpl. do 2 f_equal. lia. }
  rewrite num_snoc. pose proof (num_range (take (Z.to_nat n) (drop (Z.to_nat bp) P))) as Hr.
  assert (Hl : len (take (Z.to_nat n) (drop (Z.to_nat bp) P)) = n).
  { unfold len. rewrite length_take, length_drop, length_payload. lia. }
  rewrite Hl in Hr. set (x := num _) in *.
  assert (2 ^ n <= 2 ^ 31) by (apply Z.pow_le_mono_r; lia).
  rewrite Z.shiftl_mul_pow2 by lia. unwrap. rewrite (Z.shiftr_div_pow2 (bp + n) 5) by lia.
  change (2 ^ 5) with 32. unwrap. unfold payload_bit.
  replace (Z.land (bp + n) 31) with ((bp + n) mod 32) by (symmetry; apply (land_low _ 5); lia).
  rewrite (u32_small ((bp + n) / 32)) by (pose proof (Z.div_pos (bp + n) 32); pose proof (Z.div_le_upper_bound (bp + n) 32 (bp + n)); lia).
  pose proof (Z.mod_pos_bound (bp + n) 32 ltac:(lia)).
  rewrite (Z.land_ones _ 1) by lia. rewrite <- Z.bit0_mod, Z.shiftr_spec by lia. rewrite Z.add_0_l.
  replace (x * 2 ^ 1) with (Z.shiftl x 1) by (rewrite Z.shiftl_mul_pow2; lia).
  rewrite Z.lor_comm, lor_shift; [destruct (Z.testbit _ _); simpl; lia|lia|destruct (Z.testbit _ _); simpl; lia].
Qed.

(** A read of [n] bits that stand in the payload. *)
Lemma trace_read pre post n v :
  P = pre ++ bits_of n v ++ post -> 0 <= n <= 32 -> 0 <= v < 2 ^ n ->
  core_trace_bits buf bases (len pre) n = v.
Proof.
  intros HP Hn Hv. pose proof length_payload as HL. rewrite HP in HL.
  rewrite !length_app, len_bits in HL by lia. pose proof total_small.
  rewrite trace_bits_take by (unfold len; lia). rewrite HP. unfold len.
  rewrite Nat2Z.id, drop_app_length. rewrite take_app_length' by (rewrite len_bits; lia).
  rewrite num_bits by lia. apply Z.mod_small. lia.
Qed.
End reads.

(** ** Frames (the table of lines 1286-1302) *)

Inductive frame :=
| Single0 (ev c : Z) | Single1 (ev c : Z) | Single2 (ev c : Z)
| Multiple0 (m c : Z) | Multiple1 (m c : Z) | Multiple2 (m c : Z)
| Repeat0 (r : Z) | Repeat1 (r : Z)
| Start (overrun timer : Z) | Stop (x c : Z) | Filler | Sync.

Definition frame_len (f : frame) : Z :=
  match f with
  | Single0 _ _ | Repeat0 _ | Filler | Sync => 8
  | Single1 _ _ | Multiple0 _ _ | Repeat1 _ => 16
  | Single2 _ _ | Multiple1 _ _ => 24
  | Multiple2 _ _ | Stop _ _ => 32
  | Start _ _ => 64
  end.

Definition frame_val (f : frame) : Z :=
  match f with
  | Single0 ev c => ev * 0x10 + c
  | Single1 ev c => 0x8000 + ev * 0x400 + c
  | Single2 ev c => 0xA00000 + ev * 0x40000 + c
  | Multiple0 m c => 0xC000 + m * 0x10 + c
  | Multiple1 m c => 0xD00000 + m * 0x400 + c
  | Multiple2 m c => 0xD4000000 + m * 0x40000 + c
  | Repeat0 r => 0xE0 + r
  | Repeat1 r => 0xD800 + r
  | Start o t => (0xF0 + o * 4) * 2 ^ 56 + t
  | Stop x c => 0xDC000000 + x * 0x40000 + c
  | Filler => 0xFE
  | Sync => 0xFF
  end.

Definition frame_ok (f : frame) : Prop :=
  match f with
  | Single0 ev c => 0 <= ev < 8 /\ 0 <= c < 0x10
  | Single1 ev c => 0 <= ev < 8 /\ 0 <= c < 0x400
  | Single2 ev c => 0 <= ev < 8 /\ 0 <= c < 0x40000
  | Multiple0 m c => 0 <= m < 256 /\ 0 <= c < 0x10
  | Multiple1 m c => 0 <= m < 256 /\ 0 <= c < 0x400
  | Multiple2 m c | Stop m c => 0 <= m < 256 /\ 0 <= c < 0x40000
  | Repeat0 r => 0 <= r < 0x10
  | Repeat1 r => 0 <= r < 0x400
  | Start o t => 0 <= o < 2 /\ 0 <= t < 2 ^ 56
  | Filler | Sync => True
  end.

Definition frame_bits (f : frame) : list bool := bits_of (frame_len f) (frame_val f).
Definition frame_byte (f : frame) : Z := frame_val f / 2 ^ (frame_len f - 8).

Lemma frame_len_bound f : 8 <= frame_len f <= 64.
Proof. destruct f; simpl; lia. Qed.

Lemma frame_val_range f : frame_ok f -> 0 <= frame_val f < 2 ^ frame_len f.
Proof. destruct f; simpl; lia. Qed.

(** The tests of the type byte. *)
Lemma byte_tests b : 0 <= b < 256 ->
  ((b & 0x80) =? 0) = (b <? 0x80) /\ ((b & 0x40) =? 0) = (b mod 0x80 <? 0x40) /\
  ((b & 0x20) =? 0) = (b mod 0x40 <? 0x20) /\ ((b & 0x10) =? 0) = (b mod 0x20 <? 0x10) /\
  ((b & 0x08) =? 0) = (b mod 0x10 <? 0x08) /\ (b >> 2) & 0x3 = b / 4 mod 4.
Proof.
  assert (Forall (fun b => ((b & 0x80) =? 0) = (b <? 0x80) /\ ((b & 0x40) =? 0) = (b mod 0x80 <? 0x40) /\
    ((b & 0x20) =? 0) = (b mod 0x40 <? 0x20) /\ ((b & 0x10) =? 0) = (b mod 0x20 <? 0x10) /\
    ((b & 0x08) =? 0) = (b mod 0x10 <? 0x08) /\ (b >> 2) & 0x3 = b / 4 mod 4) (seqZ 0 256)) as H.
  { cbn -[Z.land Z.shiftr Z.div Z.modulo Z.ltb Z.eqb]. repeat constructor. }
  intros Hb. apply (Forall_lookup_1 _ _ (Z.to_nat b) _ H). rewrite lookup_seqZ_lt by lia. f_equal. lia.
Qed.

(** Resolves the chain of tests from the range of the type byte. *)
Ltac arith := Z.div_mod_to_equations; lia.
Ltac take_branch :=
  repeat match goal with
  | |- context [?x <? ?y] =>
    first [ replace (x <? y) with true by (symmetry; apply Z.ltb_lt; arith)
          | replace (x <? y) with false by (symmetry; apply Z.ltb_ge; arith) ]; cbn [negb]
  | |- context [?x =? ?y] =>
    first [ replace (x =? y) with true by (symmetry; apply Z.eqb_eq; arith)
          | replace (x =? y) with false by (symmetry; apply Z.eqb_neq; arith) ]; cbn [negb]
  end.

Section frames.
Context (buf bases : list Z) (quiet : bool) (names : names_t).
Hypothesis few : len bases <= AIE_TRACE_MAX_PKTS.
Abbreviation P := (payload buf bases).

(** What the decoder does with a frame. *)
Definition frame_effect (f : frame) (d : dec) : dec :=
  let bitpos := d_bitpos d + frame_len f in
  match f with
  | Single0 ev c | Single1 ev c | Single2 ev c => marked quiet names bitpos (d_cycle d +u64 c) 0 ev (1 <<u32 ev) d
  | Multiple0 m c | Multiple1 m c | Multiple2 m c => marked quiet names bitpos (d_cycle d +u64 c) 1 m m d
  | Repeat0 r | Repeat1 r =>
    let '(c, run) := core_trace_repeat quiet names r (d_kind d) (d_events d) (d_cycle d, d_run d) in
    Dec bitpos c (d_kind d) (d_events d) run
  | Start o t =>
    let r := core_trace_flush quiet names (d_run d) in
    Dec bitpos t (-1) (d_events d) (say quiet (LStart t o) (Run (r_open r) true (r_prof r) (r_out r)))
  | Stop _ c =>
    let c := d_cycle d +u64 c in
    Dec bitpos c (-1) (d_events d) (say quiet (LStop c) (core_trace_flush quiet names (d_run d)))
  | Filler => Dec bitpos (d_cycle d) (d_kind d) (d_events d) (d_run d)
  | Sync => Dec bitpos (d_cycle d +u64 XAIE_TRACE_SYNC_CYCLES) 2 (d_events d) (d_run d)
  end.

(** The first byte of a frame, its first word and the whole of it, where they
    stand in the payload. *)
Lemma frame_split f k : 0 <= k <= frame_len f -> frame_bits f =
  bits_of k (frame_val f / 2 ^ (frame_len f - k)) ++ bits_of (frame_len f - k) (frame_val f).
Proof. intros. unfold frame_bits. rewrite <- bits_of_app by lia. f_equal. lia. Qed.

Lemma read_prefix pre f post k :
  P = pre ++ frame_bits f ++ post -> frame_ok f -> 0 <= k <= 32 -> k <= frame_len f ->
  core_trace_bits buf bases (len pre) k = frame_val f / 2 ^ (frame_len f - k).
Proof.
  intros HP Hf Hk Hl. rewrite (frame_split f k), <- app_assoc in HP by lia.
  pose proof (frame_val_range f Hf) as Hr. eapply trace_read; [done|exact HP|done|].
  split; [apply Z.div_pos; lia|]. apply Z.div_lt_upper_bound; [lia|].
  rewrite <- Z.pow_add_r by lia. replace (frame_len f - k + k) with (frame_len f) by lia. lia.
Qed.

Lemma read_word2 pre o t post :
  P = pre ++ frame_bits (Start o t) ++ post -> frame_ok (Start o t) ->
  core_trace_bits buf bases (len pre + 32) 32 = t mod 2 ^ 32.
Proof.
  intros HP Hf. rewrite (frame_split _ 32), <- app_assoc in HP by (simpl; lia).
  rewrite app_assoc in HP. replace (len pre + 32) with (len (pre ++ bits_of 32 (frame_val (Start o t) / 2 ^ 32)))
    by (rewrite len_app; unfold len at 2; rewrite len_bits; lia).
  change (frame_len (Start o t) - 32) with 32 in HP.
  replace (bits_of 32 (frame_val (Start o t))) with (bits_of 32 (t mod 2 ^ 32)) in HP.
  - eapply trace_read; [done|exact HP|lia|apply Z.mod_pos_bound; lia].
  - unfold bits_of. apply list_fmap_ext. intros i j Hj. apply lookup_seqZ in Hj as [-> Hj].
    rewrite Z.mod_pow2_bits_low by lia. rewrite <- (Z.mod_pow2_bits_low _ 32) by lia.
    rewrite <- (Z.mod_pow2_bits_low (frame_val _) 32) by lia. f_equal. simpl in *. arith.
Qed.

(** A masked field of the frame read. *)
Ltac mask x :=
  repeat match goal with
  | |- context [Z.land ?v ?m] =>
    let k := eval vm_compute in (Z.log2 (m + 1)) in
    replace (Z.land v m) with x
      by (change m with (2 ^ k - 1); rewrite land_low, ?Z.shiftr_div_pow2 by lia; arith)
  end.

(** The test of a frame's end, resolved by its length. *)
Definition at_frame (pre : list bool) (f : frame) (d : dec) : Prop :=
  d_bitpos d = len pre /\ exists rest, P = pre ++ bits_of 8 (frame_byte f) ++ rest.

Lemma peek_frame pre f d : at_frame pre f d -> frame_ok f ->
  core_trace_peek8 buf bases (d_bitpos d) = frame_byte f /\ 0 <= frame_byte f < 256.
Proof.
  intros [-> [rest HP]] Hf. pose proof (frame_val_range f Hf) as Hr. pose proof (frame_len_bound f).
  assert (0 <= frame_byte f < 2 ^ 8) as Hb.
  { unfold frame_byte. split; [apply Z.div_pos; lia|]. apply Z.div_lt_upper_bound; [lia|].
    rewrite <- Z.pow_add_r by lia. replace (frame_len f - 8 + 8) with (frame_len f) by lia. lia. }
  split; [|lia]. unfold core_trace_peek8. eapply trace_read; [done|exact HP|lia|lia].
Qed.

Lemma frame_at pre f post d :
  P = pre ++ frame_bits f ++ post -> d_bitpos d = len pre -> at_frame pre f d.
Proof.
  intros HP Hd. split; [done|]. pose proof (frame_len_bound f). rewrite (frame_split f 8), <- app_assoc in HP by lia.
  eauto.
Qed.

(** Where the type byte is that of [f], the decoder takes [f]'s branch. *)
Lemma decode_branch pre f post d :
  P = pre ++ frame_bits f ++ post -> d_bitpos d = len pre -> frame_ok f ->
  decode_frame buf bases quiet names d = Some (frame_effect f d).
Proof.
  intros HP Hd Hf. pose proof (frame_at _ _ _ _ HP Hd) as Hat.
  destruct (peek_frame _ _ _ Hat Hf) as [Hp Hb]. pose proof (total_small bases few) as Hs.
  pose proof (length_payload buf bases) as HL. pose proof (len_nonneg pre) as H0.
  rewrite HP, !length_app in HL. pose proof (frame_len_bound f) as Hlb.
  unfold frame_bits in HL. rewrite len_bits in HL by lia.
  assert (len pre + frame_len f <= total_bits bases) as Hend by (unfold len; lia). clear HL.
  pose proof (fun k H1 H2 => read_prefix pre f post k HP Hf H1 H2) as Hread.
  unfold decode_frame. rewrite Hp, Hd.
  destruct (byte_tests (frame_byte f) Hb) as (-> & -> & -> & -> & -> & ->).
  destruct f; cbn [frame_len frame_ok] in *; (unfold frame_byte in *; cbn [frame_len frame_val] in *; take_branch);
    change (1 <<u32 10 -u32 1) with 0x3FF; change (1 <<u32 18 -u32 1) with 0x3FFFF; unwrap;
    rewrite ?Z.gtb_ltb; take_branch; cbn [frame_effect frame_len]; rewrite ?Hd.
  all: try (rewrite Hread by lia; try (mask ev; mask c; reflexivity); try (mask m; mask c; reflexivity);
            try (mask r; by destruct (core_trace_repeat _ _ _ _ _ _))).
  rewrite (read_word2 pre overrun timer post HP Hf).
  change (64 - 32) with 32.
  replace (_ & 0x00FFFFFF) with (timer / 2 ^ 32)
    by (change 0x00FFFFFF with (2 ^ 24 - 1); rewrite land_low by lia; arith).
  mask overrun. rewrite Z.lor_comm, lor_shift by (try apply Z.mod_pos_bound; lia).
  replace (timer mod 2 ^ 32 + timer / 2 ^ 32 * 2 ^ 32) with timer by arith.
  replace (len pre + 32 + 32) with (len pre + 64) by lia. done.
Qed.

(** A frame cut off by the end of the payload ends the decoding. *)
Lemma decode_cut pre f part d :
  P = pre ++ part -> part `prefix_of` frame_bits f -> part <> frame_bits f -> 8 <= len part ->
  d_bitpos d = len pre -> frame_ok f -> decode_frame buf bases quiet names d = None.
Proof.
  intros HP [miss Hpart] Hne H8 Hd Hf. pose proof (frame_len_bound f) as Hlb.
  assert (len part < frame_len f) as Hcut.
  { destruct miss as [|b miss]; [by rewrite app_nil_r in Hpart|].
    assert (len (frame_bits f) = frame_len f) as <- by (unfold len, frame_bits; rewrite len_bits; lia).
    rewrite Hpart, len_app, len_cons. pose proof (len_nonneg miss). lia. }
  assert (at_frame pre f d) as Hat.
  { split; [done|]. exists (drop 8 part). rewrite HP. f_equal. rewrite (frame_split f 8) in Hpart by lia.
    rewrite <- (take_drop 8 part) at 1. f_equal.
    rewrite <- (take_app_le part miss 8), <- Hpart by (unfold len in H8; lia).
    rewrite take_app_le, take_ge by (rewrite len_bits; lia). done. }
  destruct (peek_frame _ _ _ Hat Hf) as [Hp Hb]. pose proof (total_small bases few) as Hs.
  assert (total_bits bases = len pre + len part) as Htot.
  { rewrite <- len_app, <- HP. unfold len. rewrite length_payload. lia. }
  pose proof (len_nonneg pre) as H0. clear Hpart Hat Hne. unfold decode_frame. rewrite Hp, Hd.
  destruct (byte_tests (frame_byte f) Hb) as (-> & -> & -> & -> & -> & ->).
  destruct f; cbn [frame_len frame_ok] in *; try lia;
    (unfold frame_byte in *; cbn [frame_len frame_val] in *; take_branch); unwrap; rewrite Z.gtb_ltb; by take_branch.
Qed.
End frames.

(** ** What the frames mean *)

Inductive item := IMark (cycle mask : Z) | IStart (timer overrun : Z) | IStop (cycle : Z).
Inductive prev := PNone | PSingle (ev : Z) | PMultiple (m : Z) | PSync.

(** The event mask of a cycle, the empty mask not shown. *)
Definition marks (m : Z) (cycles : list Z) : list item :=
  if m =? 0 then [] else (fun c => IMark c m) <$> cycles.
Definition repeated (c : Z) (p : prev) (r : Z) : Z * list item :=
  match p with
  | PNone => (c, [])
  | PSingle ev => (c + r, marks (2 ^ ev) (range (c + 1) (c + r + 1)))
  | PMultiple m => (c + r, marks m (range (c + 1) (c + r + 1)))
  | PSync => (c + r * XAIE_TRACE_SYNC_CYCLES, [])
  end.

(** The cycle and the frame kept for a repeat, and what a frame shows. *)
Definition frame_meaning (f : frame) (c : Z) (p : prev) : Z * prev * list item :=
  match f with
  | Single0 ev n | Single1 ev n | Single2 ev n => (c + n, PSingle ev, marks (2 ^ ev) [c + n])
  | Multiple0 m n | Multiple1 m n | Multiple2 m n => (c + n, PMultiple m, marks m [c + n])
  | Repeat0 r | Repeat1 r => ((repeated c p r).1, p, (repeated c p r).2)
  | Start o t => (t, PNone, [IStart t o])
  | Stop _ n => (c + n, PNone, [IStop (c + n)])
  | Filler => (c, p, [])
  | Sync => (c + XAIE_TRACE_SYNC_CYCLES, PSync, [])
  end.

Fixpoint trace_meaning (fs : list frame) (c : Z) (p : prev) : list item :=
  match fs with
  | [] => []
  | f :: fs => let '(c, p, its) := frame_meaning f c p in its ++ trace_meaning fs c p
  end.

(** ** The lines printed *)

(** What a line stands for. *)
Definition expand (l : line) : list item :=
  match l with
  | LInterval s e m => (fun c => IMark c m) <$> range s (e + 1)
  | LStart t o => [IStart t o]
  | LStop c => [IStop c]
  end.
Definition joinable (a b : line) : bool :=
  match a, b with
  | LInterval _ e m, LInterval s _ m' => (s =? e + 1) && (m =? m')
  | _, _ => false
  end.

(** No two intervals that could be one. *)
Definition maximal (out : list line) : Prop :=
  forall i a b, out !! i = Some a -> out !! S i = Some b -> joinable a b = false.

(** The profile after a line: the intervals after the first Start. *)
Definition record (names : names_t) (tp : bool * option AieTraceProfile) (l : line) : bool * option AieTraceProfile :=
  match l with
  | LInterval s e m => (tp.1, if tp.1 then add_interval names s e m <$> tp.2 else tp.2)
  | LStart _ _ => (true, tp.2)
  | LStop _ => tp
  end.

Lemma maximal_snoc l b :
  maximal l -> (forall a, list.last l = Some a -> joinable a b = false) -> maximal (l ++ [b]).
Proof.
  intros Hl Hb i x y Hx Hy. apply lookup_snoc_Some in Hy as [[Hi Hy]|[Hi ->]].
  - rewrite lookup_app_l in Hx by lia. eauto.
  - apply Hb. rewrite last_lookup, <- Hi. simpl. by rewrite lookup_app_l in Hx by lia.
Qed.

Lemma maximal_swap l a b : maximal (l ++ [a]) -> (forall x, joinable x a = joinable x b) -> maximal (l ++ [b]).
Proof.
  intros H Hab. apply maximal_snoc.
  - intros i x y Hx Hy. apply (H i); rewrite lookup_app_l; eauto using lookup_lt_Some.
  - intros x Hx. rewrite <- Hab. destruct l as [|z l]; [done|]. rewrite last_lookup in Hx.
    apply (H (length l)); [rewrite lookup_app_l by (simpl; lia); exact Hx|by rewrite lookup_app_r, Nat.sub_diag by (simpl; lia)].
Qed.

Section runs.
Context (names : names_t) (prof : option AieTraceProfile).

(** The lines printed once the open run is flushed. *)
Definition open_line (r : core_trace_run) : list line :=
  match r_open r with Some (s, e, m) => [LInterval s e m] | None => [] end.
Definition printed (r : core_trace_run) : list line := r_out r ++ open_line r.

Record run_ok (r : core_trace_run) (its : list item) : Prop := {
  run_items : printed r ≫= expand = its;
  run_open : match r_open r with
             | Some (s, e, m) => 0 <= s <= e /\ e < 2 ^ 63
             | None => forall a s e m, list.last (r_out r) = Some a -> joinable a (LInterval s e m) = false
             end;
  run_maximal : maximal (printed r);
  run_record : foldl (record names) (false, prof) (r_out r) = (r_timed r, r_prof r) }.

(** The flush prints the open interval. *)
Lemma flush_spec r :
  foldl (record names) (false, prof) (r_out r) = (r_timed r, r_prof r) ->
  exists p, core_trace_flush false names r = Run None (r_timed r) p (printed r) /\
    foldl (record names) (false, prof) (printed r) = (r_timed r, p).
Proof.
  unfold core_trace_flush, printed, open_line. destruct r as [[[[s e] m]|] t p out]; simpl; intros Hr.
  - eexists; split; [done|]. by rewrite foldl_app, Hr.
  - rewrite app_nil_r. eauto.
Qed.

Lemma range_1 c : range c (c + 1) = [c].
Proof. unfold range. by replace (c + 1 - c) with 1 by lia. Qed.

(** A run opened after a flush. *)
Lemma open_ok t p out c m :
  maximal out -> foldl (record names) (false, prof) out = (t, p) -> 0 <= c < 2 ^ 63 ->
  (forall a, list.last out = Some a -> joinable a (LInterval c c m) = false) ->
  run_ok (Run (Some (c, c, m)) t p out) ((out ≫= expand) ++ [IMark c m]).
Proof.
  intros Hm Hr Hc Hj. split; unfold printed, open_line; cbn [r_open r_out r_timed r_prof].
  - rewrite bind_app. f_equal. simpl. by rewrite range_1.
  - lia.
  - by apply maximal_snoc.
  - done.
Qed.

Lemma mark_ok r its c m :
  run_ok r its -> 0 <= c < 2 ^ 63 -> run_ok (core_trace_mark false names c m r) (its ++ marks m [c]).
Proof.
  intros [Hi Ho Hm Hr] Hc. unfold core_trace_mark, marks. destruct (m =? 0); [by rewrite app_nil_r|].
  destruct (flush_spec r Hr) as (p & -> & Hp). cbn [r_timed r_prof r_out fmap list_fmap].
  destruct (r_open r) as [[[s e] m0]|] eqn:Eo.
  - rewrite u64_small by lia. destruct ((c =? e + 1) && (m =? m0)) eqn:Ej.
    + apply andb_true_iff in Ej as [->%Z.eqb_eq ->%Z.eqb_eq]. subst its. unfold printed, open_line in *. rewrite Eo in *.
      split; unfold printed, open_line; cbn [r_open r_out r_timed r_prof]; [|lia| |done].
      * rewrite !bind_app, <- app_assoc. f_equal. simpl. rewrite !app_nil_r. unfold range.
        replace (e + 1 + 1 - s) with ((e + 1 - s) + 1) by lia. rewrite seqZ_app, fmap_app by lia. do 2 f_equal.
        simpl. do 2 f_equal. lia.
      * eapply maximal_swap; [exact Hm|]. done.
    + rewrite <- Hi. apply open_ok; [done..|]. unfold printed, open_line. rewrite Eo. intros a.
      rewrite last_snoc. intros [= <-]. simpl. rewrite (Z.eqb_sym m0). done.
  - rewrite <- Hi. apply open_ok; [done..|]. unfold printed, open_line. rewrite Eo, app_nil_r. intros a Ha. eauto.
Qed.

(** A Start or Stop line after a flush. *)
Lemma say_ok r its l t :
  run_ok r its -> (forall a, joinable l a = false) -> (forall a, joinable a l = false) ->
  (forall p, record names (r_timed r, p) l = (t, p)) ->
  let r' := core_trace_flush false names r in
  run_ok (say false l (Run (r_open r') t (r_prof r') (r_out r'))) (its ++ expand l).
Proof.
  intros [Hi Ho Hm Hr] Hl Ha Ht. destruct (flush_spec r Hr) as (p & -> & Hp). unfold say.
  cbn [r_open r_out r_timed r_prof]. split; unfold printed, open_line in *; cbn [r_open r_out r_timed r_prof] in *;
    rewrite ?app_nil_r.
  - rewrite bind_app, Hi. f_equal. simpl. by rewrite app_nil_r.
  - intros a s e m. rewrite last_snoc. intros [= <-]. done.
  - apply maximal_snoc; auto.
  - rewrite foldl_app, Hp. apply Ht.
Qed.
End runs.

(** ** Decoding a stream *)

Section stream.
Context (names : names_t) (prof : option AieTraceProfile).

Definition prev_ok (p : prev) (kind events : Z) : Prop :=
  match p with
  | PNone => kind = -1
  | PSingle ev => kind = 0 /\ events = ev /\ 0 <= ev < 8
  | PMultiple m => kind = 1 /\ events = m
  | PSync => kind = 2
  end.

Record dec_ok (d : dec) (c : Z) (p : prev) (its : list item) : Prop := {
  dec_cycle : d_cycle d = c;
  dec_prev : prev_ok p (d_kind d) (d_events d);
  dec_run : run_ok names prof (d_run d) its }.

Lemma marks_app m l k : marks m (l ++ k) = marks m l ++ marks m k.
Proof. unfold marks. destruct (m =? 0); [done|apply fmap_app]. Qed.

Lemma bit_mask ev : 0 <= ev < 8 -> 1 <<u32 ev = 2 ^ ev.
Proof.
  intros. rewrite Z.shiftl_1_l, u32_small; [done|]. split; [lia|]. apply Z.pow_lt_mono_r; lia.
Qed.

Lemma repeat_marks_ok r m c run its :
  run_ok names prof run its -> 0 <= r -> 0 <= c -> c + r < 2 ^ 63 ->
  exists run', repeat_marks false names r m (c, run) = (c + r, run') /\
    run_ok names prof run' (its ++ marks m (range (c + 1) (c + r + 1))).
Proof.
  intros H Hr Hc. pattern r. apply natlike_ind; [| |done]; clear r Hr.
  - intros _. exists run. split; [by rewrite Z.add_0_r|]. replace (c + 0 + 1) with (c + 1) by lia.
    unfold range. rewrite Z.sub_diag. unfold marks. by destruct (m =? 0); rewrite app_nil_r.
  - intros r Hr IH Hb. destruct (IH ltac:(lia)) as (run' & E & H').
    exists (core_trace_mark false names (c + r + 1) m run'). unfold repeat_marks in *.
    unfold Z.succ at 1. rewrite range_snoc, foldl_app by lia. rewrite E. cbn [foldl]. rewrite u64_small by lia.
    split; [f_equal; lia|]. replace (c + Z.succ r + 1) with ((c + r + 1) + 1) by lia.
    unfold range in *. replace (c + r + 1 + 1 - (c + 1)) with ((c + r + 1 - (c + 1)) + 1) by lia.
    rewrite seqZ_app, marks_app, app_assoc by lia. replace (c + 1 + (c + r + 1 - (c + 1))) with (c + r + 1) by lia.
    apply mark_ok; [done|lia].
Qed.

Lemma repeat_ok d c p its r :
  dec_ok d c p its -> 0 <= r < 2 ^ 10 -> 0 <= c < 2 ^ 60 ->
  exists run, core_trace_repeat false names r (d_kind d) (d_events d) (d_cycle d, d_run d) = ((repeated c p r).1, run) /\
    run_ok names prof run (its ++ (repeated c p r).2).
Proof.
  intros [Ec Hp Hr] Hb Hc. rewrite Ec. unfold core_trace_repeat. destruct p; simpl in Hp.
  - rewrite Hp. exists (d_run d). by rewrite app_nil_r.
  - destruct Hp as (-> & -> & He). rewrite bit_mask by lia. apply repeat_marks_ok; [done|lia..].
  - destruct Hp as (-> & ->). apply repeat_marks_ok; [done|lia..].
  - rewrite Hp. exists (d_run d). rewrite app_nil_r. split; [|done]. unfold XAIE_TRACE_SYNC_CYCLES.
    simpl. f_equal. by unwrap.
Qed.

Lemma marked_ok d c p its n kind ev m bp p' :
  dec_ok d c p its -> 0 <= n < 2 ^ 18 -> 0 <= c < 2 ^ 60 -> prev_ok p' kind ev ->
  dec_ok (marked false names bp (d_cycle d +u64 n) kind ev m d) (c + n) p' (its ++ marks m [c + n]).
Proof.
  intros [-> Hp Hr] Hn Hc Hp'. rewrite u64_small by lia. split; [done..|]. apply mark_ok; [done|lia].
Qed.

Lemma frame_effect_ok f d c p its :
  dec_ok d c p its -> frame_ok f -> 0 <= c < 2 ^ 60 ->
  let '(c', p', its') := frame_meaning f c p in
  dec_ok (frame_effect false names f d) c' p' (its ++ its') /\ 0 <= c' <= Z.max (c + 2 ^ 28 * frame_len f) (2 ^ 56).
Proof.
  intros H Hf Hc. destruct f; cbn [frame_meaning frame_effect frame_ok frame_len] in *.
  1-3: rewrite bit_mask by lia; split; [apply (marked_ok _ _ p); [done|lia..|simpl; lia]|lia].
  1-3: split; [apply (marked_ok _ _ p); [done|lia..|simpl; lia]|lia].
  1-2: destruct (repeat_ok d c p its r H ltac:(lia) Hc) as (run & -> & Hrun); destruct H as [Ec Hp Hr];
    (split; [by split|]); unfold repeated, XAIE_TRACE_SYNC_CYCLES; destruct p; simpl; lia.
  all: destruct H as [Ec Hp Hr]; rewrite ?Ec.
  - split; [|lia]. split; [done..|]. by apply (say_ok names prof _ _ (LStart timer overrun)); try done; intros [].
  - rewrite u64_small by lia. split; [|lia]. split; [done..|]. cbn [d_run].
    pose proof (say_ok names prof _ _ (LStop (c + c0)) (r_timed (d_run d)) Hr) as Hs. simpl in Hs.
    replace (core_trace_flush false names (d_run d)) with (Run (r_open (core_trace_flush false names (d_run d)))
      (r_timed (d_run d)) (r_prof (core_trace_flush false names (d_run d))) (r_out (core_trace_flush false names (d_run d)))).
    + apply Hs; try done; by intros [].
    + unfold core_trace_flush. by destruct (d_run d) as [[[[? ?] ?]|] ? ? ?].
  - rewrite app_nil_r. split; [by split|lia].
  - unfold XAIE_TRACE_SYNC_CYCLES. rewrite app_nil_r, u64_small by lia. split; [by split|lia].
Qed.

Definition cut_frame (tail : list bool) : Prop :=
  exists f, frame_ok f /\ tail `prefix_of` frame_bits f /\ tail <> frame_bits f.

Lemma decode_frames_ok buf bases tail fs : forall fuel pre d c p its,
  len bases <= AIE_TRACE_MAX_PKTS -> Forall frame_ok fs -> cut_frame tail ->
  payload buf bases = pre ++ (fs ≫= frame_bits) ++ tail -> d_bitpos d = len pre ->
  dec_ok d c p its -> 0 <= c <= 2 ^ 56 + 2 ^ 28 * len pre -> total_bits bases - len pre < 8 * Z.of_nat fuel ->
  exists d', decode_frames buf bases false names fuel d = Some d' /\
    run_ok names prof (d_run d') (its ++ trace_meaning fs c p).
Proof.
  induction fs as [|f fs IH]; intros fuel pre d c p its Hfew Hok Hcut HP Hd H Hc Hfuel;
    pose proof (total_small bases Hfew) as Hs; pose proof (len_nonneg pre) as H0;
    pose proof (length_payload buf bases) as HL; rewrite HP, !length_app in HL.
  - simpl in HP, HL. assert (total_bits bases = len pre + len tail) as Ht by (unfold len; lia).
    pose proof (len_nonneg tail). destruct fuel as [|fuel]; [lia|]. cbn [decode_frames]. rewrite Hd, u64_small by lia.
    rewrite app_nil_r. exists d. split; [|by destruct H]. destruct (Z.leb_spec (len pre + 8) (total_bits bases)); [|done].
    destruct Hcut as (f & Hf & Hpre & Hne).
    rewrite (decode_cut buf bases false names Hfew pre f tail d); [done..|lia|done|done].
  - apply Forall_cons_1 in Hok as [Hf Hok]. simpl in HP, HL. rewrite <- app_assoc in HP.
    pose proof (frame_len_bound f) as Hlb. assert (len (frame_bits f) = frame_len f) as Hlf.
    { unfold len, frame_bits. rewrite len_bits; lia. }
    rewrite length_app in HL. destruct fuel as [|fuel]; [unfold len in *; lia|].
    cbn [decode_frames]. rewrite Hd, u64_small by (unfold len in *; lia).
    destruct (Z.leb_spec (len pre + 8) (total_bits bases)) as [_|]; [|unfold len in *; lia].
    rewrite (decode_branch buf bases false names Hfew pre f _ d HP Hd Hf).
    pose proof (frame_effect_ok f d c p its H Hf ltac:(unfold len in *; lia)) as He.
    cbn [trace_meaning]. destruct (frame_meaning f c p) as [[c' p'] its'] eqn:Em. destruct He as [He Hc'].
    rewrite app_assoc in HP. rewrite app_assoc.
    apply (IH fuel (pre ++ frame_bits f)); try done; rewrite ?len_app, ?Hlf; [|lia|lia].
    destruct f; cbn [frame_effect d_bitpos marked frame_len] in *; try lia;
      destruct (core_trace_repeat _ _ _ _ _ _); simpl; lia.
Qed.
End stream.

(** C31.  A stream whose payload is the encoding of a list of frames (the
    last one possibly cut off by the end of the payload) is decoded to lines
    that stand for exactly the marks, starts and stops the frames mean, every
    cycle of every event mask once, with no two intervals that could be one;
    and the profile receives the intervals printed after the first Start. *)
Theorem trace_decode_roundtrip buf bases names prof fs tail :
  len bases <= AIE_TRACE_MAX_PKTS -> Forall frame_ok fs -> cut_frame tail ->
  payload buf bases = (fs ≫= frame_bits) ++ tail ->
  exists timed p out, core_trace_decode_group buf bases false names prof = Some (timed, p, out) /\
    out ≫= expand = trace_meaning fs 0 PNone /\ maximal out /\ foldl (record names) (false, prof) out = (timed, p).
Proof.
  intros Hfew Hok Hcut HP. pose proof (total_small bases Hfew) as Hs. unfold core_trace_decode_group.
  destruct (decode_frames_ok names prof buf bases tail fs (Z.to_nat (total_bits bases / 8 + 1)) []
    (Dec 0 0 (-1) 0 (Run None false prof [])) 0 PNone []) as (d & -> & Hrun); try done.
  { rewrite len_nil. arith. }
  cbn [mbind option_bind]. destruct Hrun as [Hi Ho Hm Hr]. destruct (flush_spec names prof _ Hr) as (p & -> & Hp).
  eauto 10.
Qed.

(** ** Any payload *)

Section any.
Context (buf bases : list Z).

(** The decoder does to runs only what these four operations do, so a
    relation they preserve is preserved by it. *)
Definition begin_run (quiet : bool) (names : names_t) (t o : Z) (r : core_trace_run) : core_trace_run :=
  let r := core_trace_flush quiet names r in say quiet (LStart t o) (Run (r_open r) true (r_prof r) (r_out r)).
Definition end_run (quiet : bool) (names : names_t) (c : Z) (r : core_trace_run) : core_trace_run :=
  say quiet (LStop c) (core_trace_flush quiet names r).

Context (quiet : bool) (names : names_t) (R : core_trace_run -> core_trace_run -> Prop).
Hypothesis mark_rel : forall c m r r', R r r' -> R (core_trace_mark quiet names c m r) (core_trace_mark quiet names c m r').
Hypothesis begin_rel : forall t o r r', R r r' -> R (begin_run quiet names t o r) (begin_run quiet names t o r').
Hypothesis end_rel : forall c r r', R r r' -> R (end_run quiet names c r) (end_run quiet names c r').

Definition dec_rel (d d' : dec) : Prop :=
  d_bitpos d' = d_bitpos d /\ d_cycle d' = d_cycle d /\ d_kind d' = d_kind d /\ d_events d' = d_events d /\
  R (d_run d) (d_run d').

Lemma repeat_marks_rel r m c run run' : R run run' ->
  (repeat_marks quiet names r m (c, run')).1 = (repeat_marks quiet names r m (c, run)).1 /\
  R (repeat_marks quiet names r m (c, run)).2 (repeat_marks quiet names r m (c, run')).2.
Proof using mark_rel.
  unfold repeat_marks. revert c run run'. induction (range 0 r) as [|i l IH]; intros c run run' H; simpl; [done|].
  apply IH. by apply mark_rel.
Qed.

Lemma core_trace_repeat_rel r k e c run run' : R run run' ->
  (core_trace_repeat quiet names r k e (c, run')).1 = (core_trace_repeat quiet names r k e (c, run)).1 /\
  R (core_trace_repeat quiet names r k e (c, run)).2 (core_trace_repeat quiet names r k e (c, run')).2.
Proof using mark_rel.
  intros H. unfold core_trace_repeat. repeat case_match; simpl; auto using repeat_marks_rel.
Qed.

Lemma decode_frame_rel d d' : dec_rel d d' ->
  match decode_frame buf bases quiet names d, decode_frame buf bases quiet names d' with
  | Some e, Some e' => dec_rel e e'
  | None, None => True
  | _, _ => False
  end.
Proof using mark_rel begin_rel end_rel.
  intros (Eb & Ec & Ek & Ee & Hr). unfold decode_frame. rewrite Eb, Ec, Ek, Ee.
  set (b0 := core_trace_peek8 buf bases (d_bitpos d)). clearbody b0. cbv zeta.
  repeat lazymatch goal with
  | |- match (if ?c then _ else _) with Some _ => _ | None => _ end => destruct c
  end;
  lazymatch goal with
  | |- True => exact I
  | |- context [core_trace_repeat _ _ ?r ?k ?e (?c, d_run d)] =>
    destruct (core_trace_repeat_rel r k e c _ _ Hr) as [E1 E2];
    destruct (core_trace_repeat _ _ _ _ _ (_, d_run d)), (core_trace_repeat _ _ _ _ _ (_, d_run d')); simpl in *; subst;
    do 4 (split; [done|]); done
  | |- _ =>
    unfold dec_rel, marked; cbn [d_bitpos d_cycle d_kind d_events d_run];
    refine (conj eq_refl (conj eq_refl (conj eq_refl (conj eq_refl _))))
  end.
  all: first [by apply mark_rel | by apply begin_rel | by apply end_rel | exact Hr].
Qed.

Lemma decode_frames_rel fuel d d' : dec_rel d d' ->
  match decode_frames buf bases quiet names fuel d, decode_frames buf bases quiet names fuel d' with
  | Some e, Some e' => dec_rel e e'
  | None, None => True
  | _, _ => False
  end.
Proof using mark_rel begin_rel end_rel.
  revert d d'. induction fuel as [|fuel IH]; intros d d' H; cbn [decode_frames]; [exact I|].
  destruct H as (Eb & H). rewrite Eb. destruct (_ <=? _); [|exact (conj Eb H)].
  pose proof (decode_frame_rel d d' (conj Eb H)) as Hf.
  destruct (decode_frame buf bases quiet names d), (decode_frame buf bases quiet names d').
  - apply IH, Hf.
  - destruct Hf.
  - destruct Hf.
  - exact (conj Eb H).
Qed.
End any.

(** A frame moves the decoder forward, and not past the end. *)
Lemma decode_frame_advances buf bases quiet names d d' :
  len bases <= AIE_TRACE_MAX_PKTS -> 0 <= d_bitpos d -> d_bitpos d + 8 <= total_bits bases ->
  decode_frame buf bases quiet names d = Some d' -> d_bitpos d + 8 <= d_bitpos d' <= total_bits bases.
Proof.
  intros Hfew H0 H8. pose proof (total_small bases Hfew) as Hs. unfold decode_frame.
  set (b0 := core_trace_peek8 buf bases (d_bitpos d)). clearbody b0. cbv zeta.
  repeat lazymatch goal with
  | |- (if ?c then _ else _) = _ -> _ => destruct c eqn:?
  end; try discriminate;
  repeat match goal with H : (_ >? _) = false |- _ => rewrite Z.gtb_ltb in H; apply Z.ltb_ge in H end.
  all: try (destruct (core_trace_repeat _ _ _ _ _ _)); intros [= <-]; cbn [d_bitpos marked].
  all: repeat match goal with H : context [if ?c then 24 else 16] |- _ => destruct c end.
  all: repeat match goal with |- context [if ?c then 24 else 16] => destruct c end.
  all: repeat match goal with H : context [u64 ?z] |- _ => rewrite (u64_small z) in H by lia end; unwrap; lia.
Qed.

Lemma decode_frames_total buf bases quiet names fuel : forall d,
  len bases <= AIE_TRACE_MAX_PKTS -> 0 <= d_bitpos d <= total_bits bases ->
  total_bits bases - d_bitpos d < 8 * Z.of_nat fuel ->
  exists d', decode_frames buf bases quiet names fuel d = Some d'.
Proof.
  induction fuel as [|fuel IH]; intros d Hfew Hd Hf; [lia|]. cbn [decode_frames]. pose proof (total_small bases Hfew).
  rewrite u64_small by lia. destruct (Z.leb_spec (d_bitpos d + 8) (total_bits bases)) as [H8|]; [|eauto].
  destruct (decode_frame buf bases quiet names d) as [d'|] eqn:E; [|eauto].
  apply decode_frame_advances in E; [|done|lia|done]. apply IH; [done|lia..].
Qed.

Lemma group_total buf bases quiet names prof :
  len bases <= AIE_TRACE_MAX_PKTS -> exists x, core_trace_decode_group buf bases quiet names prof = Some x.
Proof.
  intros Hfew. unfold core_trace_decode_group. pose proof (total_small bases Hfew).
  destruct (decode_frames_total buf bases quiet names (Z.to_nat (total_bits bases / 8 + 1))
    (Dec 0 0 (-1) 0 (Run None false prof []))) as [d ->]; [done|cbn [d_bitpos]; lia|cbn [d_bitpos]; arith|].
  cbn [mbind option_bind]. eauto.
Qed.

(** The lines do not depend on the profile, which gets the timed intervals. *)
Definition without_profile (prof : option AieTraceProfile) (names : names_t) (r r' : core_trace_run) : Prop :=
  r' = Run (r_open r) (r_timed r) None (r_out r) /\
  foldl (record names) (false, prof) (r_out r) = (r_timed r, r_prof r).

Lemma wp_flush prof names r r' : without_profile prof names r r' ->
  without_profile prof names (core_trace_flush false names r) (core_trace_flush false names r').
Proof.
  intros [-> Hr]. unfold without_profile, core_trace_flush. destruct (r_open r) as [[[s e] m]|] eqn:Eo; simpl.
  - split; [by destruct (r_timed r)|]. by rewrite foldl_app, Hr.
  - by rewrite Eo.
Qed.

Lemma wp_mark prof names c m r r' : without_profile prof names r r' ->
  without_profile prof names (core_trace_mark false names c m r) (core_trace_mark false names c m r').
Proof.
  intros H. pose proof (wp_flush _ _ _ _ H) as Hf. destruct H as [-> Hr]. unfold core_trace_mark. cbn [r_open].
  destruct (m =? 0); [done|]. destruct Hf as [Ef Hf].
  destruct (r_open r) as [[[s e] m']|] eqn:Eo; [destruct (_ && _); [done|]|]; split; cbn [r_open r_timed r_prof r_out];
    rewrite ?Ef; auto.
Qed.

Lemma wp_say prof names r r' l t : without_profile prof names r r' ->
  (forall p, record names (r_timed r, p) l = (t, p)) ->
  without_profile prof names (say false l (Run (r_open r) t (r_prof r) (r_out r)))
    (say false l (Run (r_open r') t (r_prof r') (r_out r'))).
Proof.
  intros [-> Hr] Ht. split; [done|]. simpl. rewrite foldl_app, Hr. apply Ht.
Qed.

Lemma run_eta r : Run (r_open r) (r_timed r) (r_prof r) (r_out r) = r.
Proof. by destruct r. Qed.

Lemma group_without_profile buf bases names prof timed p out :
  core_trace_decode_group buf bases false names prof = Some (timed, p, out) ->
  core_trace_decode_group buf bases false names None = Some (timed, None, out) /\
  foldl (record names) (false, prof) out = (timed, p).
Proof.
  unfold core_trace_decode_group. set (fuel := Z.to_nat _). set (d0 := fun p => Dec 0 0 (-1) 0 (Run None false p [])).
  change (Dec 0 0 (-1) 0 (Run None false prof [])) with (d0 prof).
  change (Dec 0 0 (-1) 0 (Run None false None [])) with (d0 None).
  pose proof (decode_frames_rel buf bases false names (without_profile prof names)) as Hrel.
  specialize (Hrel (fun c m r r' H => wp_mark _ _ c m r r' H)).
  specialize (Hrel (fun t o r r' H => wp_say _ _ _ _ (LStart t o) true (wp_flush _ _ _ _ H) (fun _ => eq_refl))).
  assert (forall c r r', without_profile prof names r r' ->
    without_profile prof names (end_run false names c r) (end_run false names c r')) as Hend.
  { intros c r r' H. apply wp_flush in H. pose proof (wp_say _ _ _ _ (LStop c) (r_timed (core_trace_flush false names r)) H
      (fun _ => eq_refl)) as Hs. unfold end_run. pose proof H as [E _]. rewrite run_eta in Hs.
    rewrite E in Hs |- *. exact Hs. }
  specialize (Hrel Hend fuel (d0 prof) (d0 None) ltac:(by repeat split)).
  destruct (decode_frames buf bases false names fuel (d0 prof)) as [d|], (decode_frames buf bases false names fuel (d0 None)) as [d'|];
    try done; simpl. intros [= <- <- <-]. destruct Hrel as (_ & _ & _ & _ & H). apply wp_flush in H as [E Hf].
  rewrite E. done.
Qed.

(** ** The profile of a whole buffer *)

Fixpoint timed_intervals (col row : Z) (names : names_t) (timed : bool) (ls : list line) : list AieTraceInterval :=
  match ls with
  | [] => []
  | LInterval s e m :: ls =>
    (if timed then [Interval col row m s e names] else []) ++ timed_intervals col row names timed ls
  | LStart _ _ :: ls => timed_intervals col row names true ls
  | LStop _ :: ls => timed_intervals col row names timed ls
  end.

(** The intervals a stream may fill the profile with. *)
Definition prof_cap (p : AieTraceProfile) : Z :=
  if reserve p <? AIE_TRACE_PROFILE_CAP then AIE_TRACE_PROFILE_CAP -u32 reserve p else 0.

(** [p'] is [p] with the first of the intervals [vs], as many as fit, the
    others counted. *)
Record filled (p p' : AieTraceProfile) (vs : list AieTraceInterval) : Prop := {
  filled_iv : iv p' = iv p ++ take (Z.to_nat (prof_cap p - len (iv p))) vs;
  filled_dropped : dropped p' = u32 (dropped p + (len (iv p) + len vs - len (iv p')));
  filled_same : reserve p' = reserve p /\ cur_col p' = cur_col p /\ cur_row p' = cur_row p }.

Lemma take_S_app_nil {A} (x : A) k n : take n (x :: k) = match n with O => [] | S n => x :: take n k end.
Proof. by destruct n. Qed.

Lemma add_interval_filled names s e m p vs p' :
  filled (add_interval names s e m p) p' vs ->
  filled p p' (Interval (cur_col p) (cur_row p) m s e names :: vs).
Proof.
  intros [Hi Hd Hs]. change (prof_cap (add_interval names s e m p)) with (prof_cap p) in Hi.
  change (iv (add_interval names s e m p)) with
    (if len (iv p) <? prof_cap p then iv p ++ [Interval (cur_col p) (cur_row p) m s e names] else iv p) in Hi, Hd.
  change (dropped (add_interval names s e m p)) with (if len (iv p) <? prof_cap p then dropped p else dropped p +u32 1) in Hd.
  split; [| |exact Hs]; clear Hs.
  - rewrite Hi, take_S_app_nil. destruct (Z.ltb_spec (len (iv p)) (prof_cap p)) as [Hl|Hl].
    + rewrite <- app_assoc, len_app. f_equal. destruct (Z.to_nat (prof_cap p - len (iv p))) eqn:En; [lia|].
      simpl. do 2 f_equal. change (len [_]) with 1. lia.
    + f_equal. replace (Z.to_nat (prof_cap p - len (iv p))) with O by lia. by rewrite take_0.
  - rewrite Hd. destruct (_ <? _); autorewrite with len; [f_equal; lia|].
    unfold u32. rewrite Z.add_mod_idemp_l by lia. f_equal. lia.
Qed.

Lemma record_filled names ls : forall timed p,
  exists timed' p', foldl (record names) (timed, Some p) ls = (timed', Some p') /\
    (is_u32 (dropped p) -> filled p p' (timed_intervals (cur_col p) (cur_row p) names timed ls)).
Proof.
  induction ls as [|l ls IH]; intros timed p.
  - exists timed, p. split; [done|]. intros Hd. cbn [timed_intervals]. split; [by rewrite take_nil, app_nil_r| |done].
    change (len []) with 0. rewrite u32_small; [lia|]. unfold is_u32 in Hd. lia.
  - destruct l as [s e m|t o|c]; simpl; [|apply IH|apply IH]. destruct timed; simpl; [|apply IH].
    destruct (IH true (add_interval names s e m p)) as (t' & p' & E & H). exists t', p'. split; [done|].
    intros Hd. apply add_interval_filled, H. unfold add_interval. cbn [dropped].
    destruct (_ <? _); [done|apply u32_range].
Qed.

(** The lines of a stream, and the intervals it offers the profile. *)
Definition stream_lines (buf bases : list Z) (id : Z) : list line :=
  match core_trace_decode_group buf (group_bases buf bases id) false (core_trace_table_for_id id) None with
  | Some (_, _, out) => out
  | None => []
  end.
Definition stream_intervals (buf bases : list Z) (col row id : Z) : list AieTraceInterval :=
  timed_intervals col row (core_trace_table_for_id id) false (stream_lines buf bases id).

Definition is_stream (buf bases : list Z) (wanted id : Z) : bool :=
  negb (len (group_bases buf bases id) =? 0) && has_bit wanted id.
Definition streams (buf bases : list Z) (wanted : Z) (ids : list Z) : list Z :=
  List.filter (is_stream buf bases wanted) ids.

(** What the profile holds of a stream: its first intervals, and all of them
    or the guaranteed share. *)
Definition fair_part (buf bases : list Z) (col row id : Z) (part : list AieTraceInterval) : Prop :=
  part `prefix_of` stream_intervals buf bases col row id /\
  Z.min AIE_TRACE_PROFILE_MIN_PER_STREAM (len (stream_intervals buf bases col row id)) <= len part.

Section buffer.
Context (buf bases : list Z) (wanted nstreams : Z).
Hypothesis few : len bases <= AIE_TRACE_MAX_PKTS.
Hypothesis nstreams_small : 0 <= nstreams <= 32.

Lemma group_few id : len (group_bases buf bases id) <= AIE_TRACE_MAX_PKTS.
Proof using few.
  unfold group_bases. pose proof (length_filter (fun p => Z.land (rd buf p) 0x1F = id) bases). unfold len in *. lia.
Qed.


Lemma decode_stream_spec id decoded prof out :
  is_stream buf bases wanted id = true -> 0 <= decoded < nstreams ->
  decode_stream buf bases wanted nstreams id (Some (decoded, prof, out)) =
    Some (decoded + 1,
          (foldl (record (core_trace_table_for_id id))
             (false, set_reserve ((nstreams - decoded - 1) * AIE_TRACE_PROFILE_MIN_PER_STREAM) <$> prof)
             (stream_lines buf bases id)).2,
          out ++ stream_lines buf bases id).
Proof using few nstreams_small.
  intros Hid Hd. unfold decode_stream, is_stream in *. cbn [mbind option_bind].
  apply andb_true_iff in Hid as [Hg%negb_true_iff Hb]. rewrite Hg, Hb. cbn [orb negb].
  unfold AIE_TRACE_PROFILE_MIN_PER_STREAM. unwrap. unfold stream_lines.
  destruct (group_total buf (group_bases buf bases id) false (core_trace_table_for_id id)
    (set_reserve ((nstreams - decoded - 1) * 1024) <$> prof) (group_few id)) as [[[timed p] ls] E].
  rewrite E. apply group_without_profile in E as [-> Hr]. cbn [mbind option_bind]. by rewrite Hr.
Qed.

Lemma decode_stream_skip id acc :
  is_stream buf bases wanted id = false ->
  decode_stream buf bases wanted nstreams id (Some acc) = Some acc.
Proof using.
  unfold is_stream, decode_stream. destruct acc as [[decoded prof] out]. cbn [mbind option_bind].
  destruct (len _ =? 0); simpl; [done|]. by intros ->.
Qed.

(** One stream's part of the profile. *)
Lemma stream_part id p n :
  is_u32 (dropped p) -> 0 <= n < 32 ->
  let r := foldl (record (core_trace_table_for_id id)) (false, Some (set_reserve (n * AIE_TRACE_PROFILE_MIN_PER_STREAM) p))
             (stream_lines buf bases id) in
  exists p' part, r.2 = Some p' /\ iv p' = iv p ++ part /\ cur_col p' = cur_col p /\ cur_row p' = cur_row p /\
    dropped p' = u32 (dropped p + (len (stream_intervals buf bases (cur_col p) (cur_row p) id) - len part)) /\
    (len (iv p) + AIE_TRACE_PROFILE_MIN_PER_STREAM * (n + 1) <= AIE_TRACE_PROFILE_CAP ->
     fair_part buf bases (cur_col p) (cur_row p) id part /\
     len (iv p') + AIE_TRACE_PROFILE_MIN_PER_STREAM * n <= AIE_TRACE_PROFILE_CAP).
Proof using.
  intros Hd Hn r. set (q := set_reserve _ p) in r.
  destruct (record_filled (core_trace_table_for_id id) (stream_lines buf bases id) false q) as (t & p' & E & H).
  destruct (H Hd) as [Hi Hdr (_ & Hc & Hro)]. change (iv q) with (iv p) in *. change (dropped q) with (dropped p) in *.
  change (cur_col q) with (cur_col p) in *. change (cur_row q) with (cur_row p) in *.
  change (timed_intervals _ _ _ _ _) with (stream_intervals buf bases (cur_col p) (cur_row p) id) in *.
  set (vs := stream_intervals buf bases (cur_col p) (cur_row p) id) in *.
  exists p', (take (Z.to_nat (prof_cap q - len (iv p))) vs). subst r. rewrite E. split; [done|]. split; [done|].
  split; [done|]. split; [done|]. split.
  { rewrite Hdr, Hi, len_app. do 2 f_equal. lia. }
  unfold prof_cap, AIE_TRACE_PROFILE_CAP, AIE_TRACE_PROFILE_MIN_PER_STREAM in *. cbn [q set_reserve reserve] in *.
  intros Hroom. pose proof (len_nonneg (iv p)). rewrite (proj2 (Z.ltb_lt _ _)) in * by lia.
  rewrite u32_small in * by lia. split; [split; [apply prefix_take|]|rewrite Hi, len_app];
    unfold AIE_TRACE_PROFILE_MIN_PER_STREAM; fold vs; unfold len in *; rewrite length_take; lia.
Qed.

(** The streams are decoded in id order, each with its share. *)
Lemma decode_streams_spec ids : forall decoded p out,
  is_u32 (dropped p) -> 0 <= decoded -> len (streams buf bases wanted ids) <= nstreams - decoded ->
  exists decoded' p' parts,
    foldl (fun acc id => decode_stream buf bases wanted nstreams id acc) (Some (decoded, Some p, out)) ids =
      Some (decoded', Some p', out ++ (streams buf bases wanted ids ≫= stream_lines buf bases)) /\
    iv p' = iv p ++ concat parts /\
    dropped p' = u32 (dropped p + (len (streams buf bases wanted ids ≫=
                                        stream_intervals buf bases (cur_col p) (cur_row p)) - len (concat parts))) /\
    (len (iv p) + AIE_TRACE_PROFILE_MIN_PER_STREAM * (nstreams - decoded) <= AIE_TRACE_PROFILE_CAP ->
     Forall2 (fair_part buf bases (cur_col p) (cur_row p)) (streams buf bases wanted ids) parts /\
     len (iv p') <= AIE_TRACE_PROFILE_CAP).
Proof using few nstreams_small.
  induction ids as [|id ids IH]; intros decoded p out Hd H0 Hn; cbn [foldl streams List.filter].
  { exists decoded, p, []. cbn [mbind list_bind concat]. rewrite !app_nil_r. split; [done|]. split; [done|].
    change (len []) with 0. rewrite Z.sub_diag, Z.add_0_r. split; [by rewrite u32_small|].
    intros Hroom. split; [done|]. unfold AIE_TRACE_PROFILE_MIN_PER_STREAM in Hroom.
    change (len (streams buf bases wanted [])) with 0 in Hn. lia. }
  unfold streams in Hn. cbn [List.filter] in Hn. fold (streams buf bases wanted ids) in *.
  destruct (is_stream buf bases wanted id) eqn:Eid.
  2: { rewrite decode_stream_skip by done. apply IH; done. }
  rewrite len_cons in Hn. pose proof (len_nonneg (streams buf bases wanted ids)).
  rewrite decode_stream_spec by (done || lia). cbn [fmap option_fmap option_map].
  destruct (stream_part id p (nstreams - decoded - 1) Hd ltac:(lia)) as (p1 & part & -> & Hi & Hc & Hr & Hdr & Hfair).
  destruct (IH (decoded + 1) p1 (out ++ stream_lines buf bases id)) as (decoded' & p' & parts & E & Hi' & Hdr' & Hfair');
    [rewrite Hdr; apply u32_range|lia|lia|].
  rewrite Hc, Hr in *. exists decoded', p', (part :: parts). cbn [mbind list_bind concat].
  split; [by rewrite E, <- app_assoc|]. split; [by rewrite Hi', Hi, <- app_assoc|]. split.
  { rewrite Hdr', Hdr. unfold u32. rewrite Z.add_mod_idemp_l by lia. f_equal. rewrite !len_app. cbn [mbind]. lia. }
  intros Hroom. destruct Hfair as [Hpart Hlen]; [lia|]. destruct Hfair' as [Hparts Hall]; [lia|].
  split; [by constructor|done].
Qed.
End buffer.

Lemma count_ids_length wanted : count_ids wanted = len (List.filter (has_bit wanted) (range 0 32)) /\
  len (List.filter (has_bit wanted) (range 0 32)) <= 32.
Proof.
  assert (forall l n, 0 <= n -> n + len l < 2 ^ 32 ->
    foldl (fun n id => n +u32 b2z (has_bit wanted id)) n l = n + len (List.filter (has_bit wanted) l) /\
    len (List.filter (has_bit wanted) l) <= len l) as H.
  { induction l as [|x l IH]; intros n Hn Hl; cbn [foldl List.filter]; [change (len (@nil Z)) with 0; lia|]. rewrite len_cons in Hl.
    pose proof (len_nonneg l). rewrite u32_small by (unfold b2z; destruct (has_bit wanted x); lia).
    destruct (IH (n + b2z (has_bit wanted x))) as [-> Hle]; [destruct (has_bit wanted x); cbn [b2z]; lia..|].
    destruct (has_bit wanted x); cbn [b2z]; rewrite ?len_cons; lia. }
  destruct (H (range 0 32) 0 ltac:(lia)) as [E Hle]; [vm_compute; reflexivity|]. rewrite Z.add_0_l in E. split; [exact E|]. clear E. assert (len (range 0 32) = 32) as H32 by (vm_compute; reflexivity). lia.
Qed.

Lemma streams_le buf bases wanted ids :
  len (streams buf bases wanted ids) <= len (List.filter (has_bit wanted) ids).
Proof.
  unfold streams, is_stream. induction ids as [|x ids IH]; simpl; [done|].
  destruct (negb _), (has_bit wanted x); simpl; rewrite ?len_cons; lia.
Qed.

Lemma wanted_total buf bases : len bases <= AIE_TRACE_MAX_PKTS -> exists wanted, wanted_ids buf bases = Some wanted.
Proof.
  intros Hfew. unfold wanted_ids. set (f := fun (acc : option Z) (id : Z) => _).
  assert (forall l w, exists w', foldl f (Some w) l = Some w') as H.
  { induction l as [|id l IH]; intros w; cbn [foldl]; [eauto|].
    assert (exists w', f (Some w) id = Some w') as [w' ->]; [|apply IH]. unfold f. cbn [mbind option_bind].
    destruct (negb _); [eauto|].
    destruct (group_total buf (group_bases buf bases id) true (core_trace_table_for_id id) None) as [[[t p] ls] ->];
      [by apply group_few|]. cbn [mbind option_bind]. eauto. }
  destruct (H (range 0 32) 0) as [w ->]. cbn [mbind option_bind]. eauto.
Qed.

Definition trace_packets (buf : list Z) (nwords : Z) : list Z :=
  take (Z.to_nat AIE_TRACE_MAX_PKTS) (packets buf nwords (core_trace_header_phase buf nwords)).

Lemma trace_packets_few buf nwords : len (trace_packets buf nwords) <= AIE_TRACE_MAX_PKTS.
Proof. unfold trace_packets, len. rewrite length_take. unfold AIE_TRACE_MAX_PKTS. lia. Qed.



(** ** What is not decoded *)

Lemma phase_range buf nwords : 0 <= core_trace_header_phase buf nwords < 8.
Proof.
  unfold core_trace_header_phase. match goal with |- context [foldl ?g _ _] => set (f := g) end.
  assert (forall l b, Forall (fun k => 0 <= k < 8) l -> 0 <= b.1 < 8 -> 0 <= (foldl f b l).1 < 8) as H.
  { induction l as [|k l IH]; intros [b h] Hl Hb; cbn [foldl]; [done|]. apply Forall_cons_1 in Hl as [Hk Hl].
    apply IH; [done|]. unfold f. destruct (_ >? _); done. }
  specialize (H (range 0 8) (0, 0)). destruct (foldl f (0, 0) (range 0 8)) as [b h]. cbn [fst] in H.
  destruct (_ && _); [|lia]. apply H; [|lia].
  change (range 0 8) with [0; 1; 2; 3; 4; 5; 6; 7]. repeat (apply Forall_cons_2; [lia|]). constructor.
Qed.

Lemma packets_from_take j : forall fuel fuel' buf n m p,
  (j <= fuel)%nat -> (j <= fuel')%nat -> 0 <= p -> p + 8 * Z.of_nat j <= n < 2 ^ 32 - 8 ->
  p + 8 * Z.of_nat j <= m < 2 ^ 32 - 8 ->
  take j (packets_from fuel buf n p) = take j (packets_from fuel' buf m p).
Proof.
  induction j as [|j IH]; intros fuel fuel' buf n m p Hf Hf' Hp Hn Hm; [done|].
  destruct fuel as [|fuel], fuel' as [|fuel']; [lia..|]. cbn [packets_from]. rewrite u32_small by lia.
  rewrite !(proj2 (Z.leb_le _ _)) by lia. cbn [andb]. destruct (negb _); [|done].
  cbn [take]. f_equal. apply IH; lia.
Qed.

(** Only the first 256 packets of a buffer are decoded: what a longer
    buffer holds after them changes nothing. *)
Theorem trace_decode_first_packets buf n m prof :
  core_trace_header_phase buf m = core_trace_header_phase buf n ->
  core_trace_header_phase buf n + 8 * AIE_TRACE_MAX_PKTS <= n <= m -> m < 2 ^ 32 - 8 ->
  Runtime_core_trace_decode buf m prof = Runtime_core_trace_decode buf n prof.
Proof.
  intros Hph Hn Hm. pose proof (phase_range buf n). unfold AIE_TRACE_MAX_PKTS in *.
  assert (trace_packets buf m = trace_packets buf n) as Hp.
  { unfold trace_packets, packets, AIE_TRACE_MAX_PKTS. rewrite Hph. apply packets_from_take; arith. }
  unfold Runtime_core_trace_decode. fold (trace_packets buf m). fold (trace_packets buf n). by rewrite Hp.
Qed.

(** ** Witnesses *)

(** A core stream of one packet: a start at cycle 100, event 0 at cycle 105
    and the three after it, events 0 and 1 at cycle 110, a stop, and the
    beginning of a frame that the buffer does not hold. *)
Definition example_frames : list frame :=
  [Start 0 100; Single0 0 5; Repeat0 3; Multiple0 3 2; Stop 0 9; Sync] ++ replicate 10 Filler.
Definition example_buf : list Z := [0x00000001; 0xF0000000; 0x00000064; 0x05E3C032; 0xDC000009; 0xFFFEFEFE; 0xFEFEFEFE; 0xFEFEFEDC].

Example example_decoded :
  Runtime_core_trace_decode example_buf 8 None =
    Some (None, [LStart 100 0; LInterval 105 108 1; LInterval 110 110 3; LStop 119]).
Proof. vm_compute. reflexivity. Qed.

Lemma trace_decode_roundtrip_witness :
  exists timed p out, core_trace_decode_group example_buf [0] false s_core_trace_slot_name None = Some (timed, p, out) /\
    out ≫= expand = trace_meaning example_frames 0 PNone /\ maximal out /\
    foldl (record s_core_trace_slot_name) (false, None) out = (timed, p).
Proof.
  apply (trace_decode_roundtrip example_buf [0] s_core_trace_slot_name None example_frames (bits_of 8 0xDC)).
  - vm_compute. discriminate.
  - unfold example_frames. repeat (apply Forall_cons_2; [vm_compute; repeat split; discriminate|]). constructor.
  - exists (Stop 0 0). split; [vm_compute; repeat split; discriminate|]. split; [|vm_compute; discriminate].
    exists (bits_of 24 0). vm_compute. reflexivity.
  - vm_compute. reflexivity.
Defined.


(** 257 packets, none of them empty. *)
Lemma trace_decode_first_packets_witness :
  let buf := replicate 2056 1 in
  length (packets buf 2056 0) = 257%nat /\
  Runtime_core_trace_decode buf 2056 None = Runtime_core_trace_decode buf 2048 None.
Proof.
  intros buf. split; [vm_compute; reflexivity|].
  apply (trace_decode_first_packets buf 2048 2056 None); [vm_compute; reflexivity| |vm_compute; reflexivity].
  assert (core_trace_header_phase buf 2048 = 0) as -> by (vm_compute; reflexivity). vm_compute. split; discriminate.
Defined.
