(* ===== verification/ShimBatch.v ===== *)
(** * Batched shim writes ([src/src/mlir/runtime/aie_runtime.c], 5806-6435)

    In high-throughput mode the register writes that driver calls make to the
    shim tiles of a window of columns are captured, coalesced into control
    packets, one segment per column, and sent over the shim row.  A call that
    cannot be captured is undone, what was captured before it is sent, and the
    call runs on the device.

    The driver is third-party code: a driver call is any program over the
    backend's operations, and the driver functions the code itself calls are
    logged.  What the log does to the device (registers, the memory the DMA
    reads, buffer descriptors, the packets they stream) is the specification:
    the packets of a push are executed at the push.  The theorems are in
    [ShimBatchProps].
    The tables compiled ahead of time, and the setting up of the routes, are in
    [AotWindow]; statistics, diagnostics and console output are left out. *)

From stdpp Require Import base list list_numbers numbers gmap.
From S2P Require Import Prelude.
From S2P Require Import CtrlpktEncode.
From S2P Require Import RuntimePkt.
From S2P Require Import CtrlpktFormat.
From S2P Require Import CtrlpktSeg.
From S2P Require Import Resource.
From S2P Require Import ControlPlan.
From S2P Require Import Driver.

Local Open Scope Z_scope.
Local Open Scope c_scope.

Definition RT_RES_SHIMROW_CH : Z := 1.
Definition RT_RES_SHIMROW_ACK_BD : Z := 15.
Definition RT_SB_PKT_WORDS : Z := 4096.
Definition RT_SB_PAD_OFF : Z := 0x0007FF30.
Definition RT_SB_SEG_WORDS : Z := Z.land (RT_SB_PKT_WORDS / RT_RES_SHIMROW_MAX_COLS) (Z.lnot 3).
Definition RT_SB_NONE : Z := RT_CPE_NONE.

(** ** The driver *)

(** What a backend is asked for; [ConfigShimDmaBd] is [RunOp] with
    [XAIE_BACKEND_OP_CONFIG_SHIMDMABD], [RunOp] any other. *)
Inductive backend_op :=
| Write32 (regoff val : Z)
| BlockWrite32 (regoff : Z) (data : list Z)
| ConfigShimDmaBd (addr : Z) (words : list Z)
| RunOp (op : Z)
| Read32 (regoff : Z)
| MaskWrite32 (regoff mask val : Z)
| MaskPoll (regoff mask val tmo : Z)
| BlockSet32 (regoff data size : Z).

(** A driver call: it asks the backend and goes on with the return code and
    the value read. *)
Inductive driver_call :=
| Return (rc : Z)
| Do (op : backend_op) (k : Z -> Z -> driver_call).

(** The calls that reach the device.  [SyncForDev a ws] writes the words [ws]
    back to the memory at device address [a]. *)
Inductive sb_call :=
| BackendOp (op : backend_op)
| DrainInputs
| SyncForDev (addr : Z) (words : list Z)
| SyncForCpu (nwords : Z)
| GetPendingBdCount (dir : XAie_DmaDirection)
| GetChannelStatus (col ch : Z) (dir : XAie_DmaDirection)
| DescInit
| SetAddrLen (addr bytes : Z)
| SetNextBd (next : Z)
| EnableBd
| SetAxi
| DmaWriteBd (bd : Z)
| UpdateBdLen (bytes bd : Z)
| PushBd (dir : XAie_DmaDirection) (bd : Z).

(** ** The state

    [pkt[k]] is the segment of column [lo + k], the [RT_SB_SEG_WORDS] words at
    [rt_sb_seg_base(k)]. *)
Record rt_sb_state := Sb {
  active : bool; bad : bool; ack_pending : bool; armed : bool; lo : Z; hi : Z; ack_nseg : Z;
  seg : list rt_cpe_seg; pkt : list (list Z) }.

Definition set_bad (b : bool) (s : rt_sb_state) : rt_sb_state :=
  Sb (active s) b (ack_pending s) (armed s) (lo s) (hi s) (ack_nseg s) (seg s) (pkt s).
Definition set_active (b : bool) (s : rt_sb_state) : rt_sb_state :=
  Sb b (bad s) (ack_pending s) (armed s) (lo s) (hi s) (ack_nseg s) (seg s) (pkt s).
Definition set_armed (b : bool) (s : rt_sb_state) : rt_sb_state :=
  Sb (active s) (bad s) (ack_pending s) b (lo s) (hi s) (ack_nseg s) (seg s) (pkt s).
Definition set_ack (b : bool) (n : Z) (s : rt_sb_state) : rt_sb_state :=
  Sb (active s) (bad s) b (armed s) (lo s) (hi s) n (seg s) (pkt s).
Definition set_segs (sg : list rt_cpe_seg) (p : list (list Z)) (s : rt_sb_state) : rt_sb_state :=
  Sb (active s) (bad s) (ack_pending s) (armed s) (lo s) (hi s) (ack_nseg s) sg p.

Definition set_window (l h : Z) (s : rt_sb_state) : rt_sb_state :=
  Sb (active s) (bad s) (ack_pending s) (armed s) l h (ack_nseg s) (seg s) (pkt s).

Definition seg_at (s : rt_sb_state) (k : Z) : rt_cpe_seg := default (Seg 0 RT_SB_NONE 0) (seg s !! Z.to_nat k).
Definition pkt_at (s : rt_sb_state) (k : Z) : list Z := default [] (pkt s !! Z.to_nat k).
Definition put_seg (k : Z) (sp : rt_cpe_seg * list Z) (s : rt_sb_state) : rt_sb_state :=
  set_segs (wr (seg s) k sp.1) (wr (pkt s) k sp.2) s.

Definition ncols (s : rt_sb_state) : Z := u32 (hi s - lo s) +u32 1.

Definition rt_sb_reset_segs (s : rt_sb_state) : rt_sb_state := set_segs (rt_cpe_seg_reset <$> seg s) (pkt s) s.

Section shim_batch.
(** The device: the shifts of its register addresses and the device addresses
    of the buffers; whether a driver transaction is open; and the switch
    [RT_SB_KEEP_ARMED]. *)
Context (row_shift col_shift pkt_addr resp_addr shim_col : Z) (txn_open keep : bool).
(** The row fabric [f], for which the shim row is routed: the columns of its
    rows, [dedicated_shim], and [g_ctrl_high_throughput_ready]. *)
Context (fab_rows : list (Z * Z)) (dedicated_shim ready : bool).
(** The driver: what a call returns, the pending count it reports, and what
    the device's backend answers. *)
Context (xaie : list sb_call -> sb_call -> Z) (pending_bds : list sb_call -> XAie_DmaDirection -> Z).
Context (backend : list sb_call -> backend_op -> Z * Z).

Abbreviation M := (stE (drv rt_sb_state sb_call) Z).
Abbreviation ask c := (call xaie c).
Abbreviation upd f := (modify (upd_rest f)).
Abbreviation get f := (gets (fun s => f (rest s))).

(** ** Recording *)

Definition rt_sb_record (regoff : Z) (data : list Z) (s : rt_sb_state) : rt_sb_state * Z :=
  let '(col, row, off) := rt_ctrl_txn_decode_regoff row_shift col_shift regoff in
  if negb (row =? 0) || (col <? lo s) || (col >? hi s) then (set_bad true s, XAIE_ERR)
  else
    let k := u32 (col - lo s) in
    match rt_cpe_seg_write RT_SB_SEG_WORDS (acr_shim_row_id (u8 k)) off data (len data) (seg_at s k, pkt_at s k) with
    | (sp, Ok _) => (put_seg k sp s, XAIE_OK)
    | (sp, Err _) => (set_bad true (put_seg k sp s), XAIE_ERR)
    end.

(** [rt_sb_w32] and the other operations of the capturing backend. *)
Definition rt_sb_backend (op : backend_op) (s : rt_sb_state) : rt_sb_state * Z :=
  match op with
  | Write32 regoff val => rt_sb_record regoff [val] s
  | BlockWrite32 regoff data => rt_sb_record regoff data s
  | ConfigShimDmaBd addr words => rt_sb_record addr words s
  | RunOp _ | Read32 _ | MaskWrite32 _ _ _ | MaskPoll _ _ _ _ | BlockSet32 _ _ _ => (set_bad true s, XAIE_ERR)
  end.

(** A driver call on the capturing backend, and on the device's. *)
Fixpoint run_captured (c : driver_call) (s : rt_sb_state) : rt_sb_state * Z :=
  match c with
  | Return rc => (s, rc)
  | Do op k => let '(s, rc) := rt_sb_backend op s in run_captured (k rc 0) s
  end.

Fixpoint run_backend (c : driver_call) : M Z :=
  match c with
  | Return rc => mret rc
  | Do op k => fun s =>
    let '(rc, v) := backend (calls s) op in run_backend (k rc v) (Drv (rest s) (calls s ++ [BackendOp op]))
  end.

(** ** Sending *)

(** [if (rc == XAIE_OK) rc = ...;] *)
Definition andthen (a b : M Z) : M Z := rc ← a; if rc =? XAIE_OK then b else mret rc.

Definition rt_sb_write_bd (bd addr bytes : Z) (next : option Z) : M Z :=
  andthen (ask DescInit) (andthen (ask (SetAddrLen addr bytes))
    (andthen (match next with Some n => ask (SetNextBd n) | None => mret XAIE_OK end)
      (andthen (ask EnableBd) (andthen (ask SetAxi) (ask (DmaWriteBd bd)))))).

Definition seg_addr (k : Z) : Z := pkt_addr + k * RT_SB_SEG_WORDS * 4.

(** A loop whose body sets [rc], while it is [XAIE_OK]. *)
Fixpoint for_ok (ks : list Z) (body : Z -> M Z) : M Z :=
  match ks with
  | [] => mret XAIE_OK
  | k :: ks => andthen (body k) (for_ok ks body)
  end.

Definition rt_sb_arm : M Z :=
  n ← get ncols;
  rc ← andthen (rt_sb_write_bd RT_RES_SHIMROW_ACK_BD resp_addr (n *u32 4) None)
    (for_ok (range 0 n) (fun k =>
       rt_sb_write_bd (u8 (RT_RES_SHIMROW_BD_LO + k)) (seg_addr k) (RT_SB_SEG_WORDS * 4)
         (if k +u32 1 <? n then Some (RT_RES_SHIMROW_BD_LO + k + 1) else None)));
  upd (set_armed (rc =? XAIE_OK)) ;; mret rc.

(** The polls of [rt_sb_ack_wait]: the pending count last reported. *)
Fixpoint poll_pending (fuel : nat) : M Z :=
  match fuel with
  | O => mret 1
  | S fuel => fun s =>
    let s' := Drv (rest s) (calls s ++ [GetPendingBdCount DMA_S2MM]) in
    let p := pending_bds (calls s) DMA_S2MM in
    if p =? 0 then (s', Ok 0)
    else match fuel with O => (s', Ok p) | S _ => poll_pending fuel s' end
  end.

Definition rt_sb_ack_wait : M Z :=
  w ← get ack_pending;
  if negb w then mret XAIE_OK
  else
    n ← get ack_nseg;
    upd (set_ack false n) ;;
    p ← poll_pending (Z.to_nat 100000);
    if p =? 0 then mret XAIE_OK
    else
      ask (GetPendingBdCount DMA_MM2S) ;; ask (SyncForCpu n) ;;
      l ← get lo; h ← get hi;
      forM (range l (h + 1)) (fun c => forM [0; 1] (fun ch =>
        ask (GetChannelStatus c ch DMA_MM2S) ;; ask (GetChannelStatus c ch DMA_S2MM) ;; mret tt)) ;;
      mret XAIE_ERR.

(** The columns with a segment to send, each with its length. *)
Definition rt_sb_write_compact (lens : list (Z * Z)) : M Z :=
  let nseg := len lens in
  andthen (rt_sb_write_bd RT_RES_SHIMROW_ACK_BD resp_addr (nseg *u32 4) None)
    (for_ok (range 0 nseg) (fun i =>
       let '(k, n) := default (0, 0) (lens !! Z.to_nat i) in
       rt_sb_write_bd (u8 (RT_RES_SHIMROW_BD_LO + i)) (seg_addr k) (n *u32 4)
         (if i +u32 1 <? nseg then Some (RT_RES_SHIMROW_BD_LO + i + 1) else None))).

(** The pad write to an empty segment of an armed chain. *)
Definition rt_sb_pad (s : rt_sb_state) : rt_sb_state :=
  if keep && armed s then
    foldl (fun s k =>
      if seg_pw (seg_at s k) =? 0
      then put_seg k (rt_cpe_seg_write RT_SB_SEG_WORDS (acr_shim_row_id (u8 k)) RT_SB_PAD_OFF [0] 1
                        (seg_at s k, pkt_at s k)).1 s
      else s) s (range 0 (ncols s))
  else s.

(** [rt_sb_seg_finish] of every column: the state and the lengths. *)
Definition rt_sb_finish_all (s : rt_sb_state) : rt_sb_state * list (Z * Z) :=
  foldl (fun '(s, lens) k =>
    let '(sg, p, n) := rt_cpe_seg_finish (seg_at s k) (pkt_at s k) in
    (put_seg k (sg, p) s, if n =? 0 then lens else lens ++ [(k, n)])) (s, []) (range 0 (ncols s)).

Definition rt_sb_kick : M Z :=
  ask DrainInputs ;;
  rt_sb_ack_wait ;;
  s ← get (fun s => s);
  let '(s, lens) := rt_sb_finish_all (rt_sb_pad s) in
  upd (fun _ => rt_sb_reset_segs s) ;;
  let nseg := len lens in
  if nseg =? 0 then mret XAIE_OK
  else
    forM lens (fun '(k, n) => ask (SyncForDev (seg_addr k) (take (Z.to_nat n) (pkt_at s k))) ;; mret tt) ;;
    rk ← (if armed s && (nseg =? ncols s)
          then rc ← for_ok (range 0 nseg) (fun i =>
                   let '(k, n) := default (0, 0) (lens !! Z.to_nat i) in
                   ask (UpdateBdLen (n *u32 4) (u16 (RT_RES_SHIMROW_BD_LO + k))));
               mret (rc, keep && (rc =? XAIE_OK))
          else rc ← rt_sb_write_compact lens; mret (rc, false));
    upd (set_armed rk.2) ;;
    rc ← andthen (mret rk.1) (andthen (ask (PushBd DMA_S2MM RT_RES_SHIMROW_ACK_BD)) (ask (PushBd DMA_MM2S RT_RES_SHIMROW_BD_LO)));
    upd (set_ack (rc =? XAIE_OK) nseg) ;;
    mret rc.

Definition rt_sb_flush : M Z :=
  rc ← rt_sb_kick; ack ← rt_sb_ack_wait; mret (if rc =? XAIE_OK then ack else rc).

(** ** The window *)

(** The columns from the first of the rows' to the last. *)
Definition rows_span : Z * Z :=
  foldl (fun '(l, h) '(col_lo, col_hi) => (if col_lo <? l then col_lo else l, if col_hi >? h then col_hi else h))
    (0xFF, 0) fab_rows.

Definition rt_sb_prepare : M unit :=
  a ← get active;
  if a || negb dedicated_shim || (len fab_rows =? 0) || negb ready || txn_open then mret tt
  else
    let '(l, h) := rows_span in
    if negb (shim_col +u32 1 =? l) || (u32 (h - l) +u32 1 >? RT_RES_SHIMROW_MAX_COLS) then mret tt
    else
      rt_sb_ack_wait ;;
      upd (set_window l h) ;;
      upd rt_sb_reset_segs ;;
      rt_sb_arm ;;
      mret tt.

Definition rt_sb_begin : M unit :=
  a ← get active;
  when (negb a)
    (r ← get armed;
     when (negb r) rt_sb_prepare ;;
     upd (set_active true)).

Definition rt_sb_commit : M unit :=
  a ← get active;
  when a (rt_sb_kick ;; upd (set_active false)).

(** ** Capturing a call *)

(** The snapshot of the segments, with the word that a later write may
    change. *)
Definition rt_sb_snap (s : rt_sb_state) : list rt_cpe_seg :=
  imap (fun k sg => if seg_last sg =? RT_SB_NONE then sg
                    else Seg (seg_pw sg) (seg_last sg) (rd (pkt_at s (Z.of_nat k)) (seg_last sg))) (seg s).

Definition rt_sb_cap_on (tile : XAie_LocType) (s : rt_sb_state) : bool :=
  active s && (loc_row tile =? 0) && (lo s <=? loc_col tile) && (loc_col tile <=? hi s) && negb txn_open.

Definition rt_sb_restore (snap : list rt_cpe_seg) (s : rt_sb_state) : rt_sb_state :=
  set_segs snap
    (imap (fun k p => match snap !! k with
                      | Some sg => if seg_last sg =? RT_SB_NONE then p else wr p (seg_last sg) (seg_last_ctrl sg)
                      | None => p
                      end) (pkt s)) s.

Definition RT_SB_CALL (tile : XAie_LocType) (c : driver_call) : M Z :=
  on ← get (rt_sb_cap_on tile);
  if negb on then run_backend c
  else
    snap ← get rt_sb_snap;
    upd (set_bad false) ;;
    cap ← get (run_captured c);
    upd (fun _ => cap.1) ;;
    if (cap.2 =? XAIE_OK) && negb (bad cap.1) then mret cap.2
    else
      upd (rt_sb_restore snap) ;;
      rt_sb_flush ;;
      run_backend c.
End shim_batch.

(** ** What the calls do to the device *)

(** A buffer descriptor: bytes at an address, then the next one. *)
Record bd := Bd { bd_addr : Z; bd_bytes : Z; bd_next : option Z }.

(** The registers by register address, the memory the DMA reads, the
    descriptors of the spine's shim DMA and the one under construction. *)
Record device := Dev { regs : Z -> Z; ddr : Z -> Z; bds : Z -> bd; cur : bd }.

Section device.
Context (row_shift col_shift : Z).
(** The window of columns on the shim row. *)
Context (win_lo win_n : Z).
(** What an operation of the device's backend does to the registers. *)
Context (effect : backend_op -> (Z -> Z) -> Z -> Z).

Definition col_base (k : Z) : Z := Z.shiftl (win_lo + k) col_shift.

(** The column of the window whose shim tile has register [x]. *)
Definition window_col (x : Z) : option Z :=
  let k := (x >> col_shift) - win_lo in
  if (0 <=? k) && (k <? win_n) && (x - col_base k <? 2 ^ 20) then Some k else None.

(** Packets executed by the shim tiles. *)
Definition on_columns (accs : Z -> list access) (m : Z -> Z) : Z -> Z := fun x =>
  match window_col x with
  | Some k => run_accesses (fun y => m (col_base k + y)) (accs k) (x - col_base k)
  | None => m x
  end.

(** The shim row brings a packet to the column with its id
    ([ShimRow.shim_row_delivers]). *)
Definition packets_for (ps : list access) (k : Z) : list access :=
  List.filter (fun a => a_sid a =? acr_shim_row_id k) ps.
Definition deliver (ws : list Z) (m : Z -> Z) : Z -> Z :=
  match decode_stream (S (length ws)) ws with
  | Some ps => on_columns (packets_for ps) m
  | None => m
  end.

(** What a descriptor chain streams. *)
Fixpoint bd_stream (fuel : nat) (d : device) (i : Z) : list Z :=
  match fuel with
  | O => []
  | S fuel =>
    let b := bds d i in
    load_words (ddr d) (bd_addr b) (bd_bytes b / 4) ++
    match bd_next b with Some j => bd_stream fuel d j | None => [] end
  end.

Definition set_bd (d : device) (i : Z) (b : bd) : device :=
  Dev (regs d) (ddr d) (fun j => if j =? i then b else bds d j) (cur d).

Definition device_step (d : device) (c : sb_call) : device :=
  match c with
  | BackendOp op => Dev (effect op (regs d)) (ddr d) (bds d) (cur d)
  | SyncForDev a ws => Dev (regs d) (store_words (ddr d) a ws) (bds d) (cur d)
  | DescInit => Dev (regs d) (ddr d) (bds d) (Bd 0 0 None)
  | SetAddrLen a n => Dev (regs d) (ddr d) (bds d) (Bd a n (bd_next (cur d)))
  | SetNextBd j => Dev (regs d) (ddr d) (bds d) (Bd (bd_addr (cur d)) (bd_bytes (cur d)) (Some j))
  | DmaWriteBd i => set_bd d i (cur d)
  | UpdateBdLen n i => set_bd d i (Bd (bd_addr (bds d i)) n (bd_next (bds d i)))
  | PushBd DMA_MM2S i => Dev (deliver (bd_stream 16 d i) (regs d)) (ddr d) (bds d) (cur d)
  | _ => d
  end.
Definition device_run (d : device) (log : list sb_call) : device := foldl device_step d log.

(** ** Driver calls run directly *)

Context (answer : backend_op -> (Z -> Z) -> Z * Z).

Fixpoint direct (c : driver_call) (m : Z -> Z) : (Z -> Z) * Z :=
  match c with
  | Return rc => (m, rc)
  | Do op k => let '(rc, v) := answer op m in direct (k rc v) (effect op m)
  end.

Fixpoint direct_all (cs : list driver_call) (m : Z -> Z) : (Z -> Z) * list Z :=
  match cs with
  | [] => (m, [])
  | c :: cs =>
    let '(m, rc) := direct c m in
    let '(m, rcs) := direct_all cs m in (m, rc :: rcs)
  end.

(** Up to the spare registers that the pad write uses. *)
Definition spare (x : Z) : Prop := exists k, 0 <= k < win_n /\ x = col_base k + RT_SB_PAD_OFF.
Definition same_regs (m m' : Z -> Z) : Prop := forall x, ~ spare x -> m x = m' x.

(** A register write stays in the address range of the array and of its tile,
    and the spare registers are not read. *)
Definition block_ok (regoff : Z) (data : list Z) : Prop :=
  0 <= regoff < 2 ^ (col_shift + 8) /\ regoff mod 2 ^ 20 + 4 * len data <= 2 ^ 20.
Definition op_writes (op : backend_op) : option (Z * list Z) :=
  match op with
  | Write32 a v => Some (a, [v])
  | BlockWrite32 a ws | ConfigShimDmaBd a ws => Some (a, ws)
  | _ => None
  end.
Definition op_reads (op : backend_op) : option Z :=
  match op with Read32 a | MaskWrite32 a _ _ | MaskPoll a _ _ _ => Some a | _ => None end.
Definition op_ok (op : backend_op) : Prop :=
  match op_writes op with Some (a, ws) => block_ok a ws | None => True end /\
  match op_reads op with Some a => ~ spare a | None => True end.
Fixpoint call_ok (c : driver_call) : Prop :=
  match c with
  | Return _ => True
  | Do op k => op_ok op /\ forall rc v, call_ok (k rc v)
  end.

(** What is documented of the device's backend: a register write stores its
    words and succeeds; and no operation depends on the spare registers but
    one that reads them. *)
Record device_ok : Prop := {
  dev_write : forall op a ws m, op_writes op = Some (a, ws) ->
    (forall x, effect op m x = store_words m a ws x) /\ answer op m = (XAIE_OK, 0);
  dev_effect : forall op m m', op_ok op -> same_regs m m' -> same_regs (effect op m) (effect op m');
  dev_answer : forall op m m', op_ok op -> same_regs m m' -> answer op m = answer op m' }.
End device.
