(* ===== verification/ShimBatchProps.v ===== *)
(** * Batched shim writes are transparent

    The segments spell the packets captured so far; a capture is undone word
    for word; a kick brings every packet to its column; so a window of driver
    calls does what the calls do directly.  The model is in [ShimBatch]. *)

From stdpp Require Import base list list_numbers numbers gmap.
From S2P Require Import Prelude.
From S2P Require Import CtrlpktEncode.
From S2P Require Import RuntimePkt.
From S2P Require Import CtrlpktFormat.
From S2P Require Import CtrlpktSeg.
From S2P Require Import Resource.
From S2P Require Import ControlPlan.
From S2P Require Import Driver.
From S2P Require Import ShimBatch.

Local Open Scope Z_scope.
Local Open Scope c_scope.

(** ** Addresses *)

Section batch.
Context (col_shift win_lo win_n : Z).
Hypothesis shift_ok : 20 <= col_shift <= 28.
Hypothesis window_ok : 0 <= win_lo /\ 1 <= win_n <= 5 /\ win_lo + win_n <= 64.

Abbreviation base := (col_base col_shift win_lo).
Abbreviation column := (window_col col_shift win_lo win_n).
Abbreviation applied := (on_columns col_shift win_lo win_n).

Lemma seg_words_val : RT_SB_SEG_WORDS = 816.
Proof using. reflexivity. Qed.

Lemma shift_pow : 2 ^ col_shift = 2 ^ 20 * 2 ^ (col_shift - 20) /\ 1 <= 2 ^ (col_shift - 20) <= 2 ^ 8.
Proof.
  split; [rewrite <- Z.pow_add_r by lia; f_equal; lia|].
  split; [apply (Z.pow_le_mono_r 2 0); lia|apply Z.pow_le_mono_r; lia].
Qed.

Lemma base_val k : base k = (win_lo + k) * 2 ^ col_shift.
Proof. unfold col_base. apply Z.shiftl_mul_pow2. lia. Qed.

Lemma column_spec x k : column x = Some k <-> 0 <= k < win_n /\ base k <= x < base k + 2 ^ 20.
Proof.
  destruct shift_pow as [Hp Hq]. unfold window_col. rewrite Z.shiftr_div_pow2 by lia.
  set (j := x / 2 ^ col_shift - win_lo). rewrite (base_val k).
  assert (base j <= x < base j + 2 ^ col_shift) as Hj.
  { rewrite base_val. unfold j. pose proof (Z.div_mod x (2 ^ col_shift)). pose proof (Z.mod_pos_bound x (2 ^ col_shift)). nia. }
  destruct ((0 <=? j) && (j <? win_n) && (x - base j <? 2 ^ 20)) eqn:E; split.
  - intros [= <-]. rewrite <- base_val. lia.
  - intros [Hk Hx]. f_equal. assert (x / 2 ^ col_shift = win_lo + k); [|lia].
    symmetry. apply Z.div_unique with (x - (win_lo + k) * 2 ^ col_shift); nia.
  - done.
  - intros [Hk Hx]. assert (x / 2 ^ col_shift = win_lo + k) as Ej.
    { symmetry. apply Z.div_unique with (x - (win_lo + k) * 2 ^ col_shift); nia. }
    replace j with k in E by lia. rewrite base_val in E. lia.
Qed.

(** A register address of the array, taken apart. *)
Lemma decode_window a :
  0 <= a < 2 ^ (col_shift + 8) ->
  exists row, rt_ctrl_txn_decode_regoff 20 col_shift a = (a / 2 ^ col_shift, row, a mod 2 ^ 20) /\
    0 <= a / 2 ^ col_shift < 256 /\ (row = 0 -> a = a / 2 ^ col_shift * 2 ^ col_shift + a mod 2 ^ 20).
Proof.
  intros Ha. destruct shift_pow as [Hp Hq]. unfold rt_ctrl_txn_decode_regoff. cbv zeta.
  change (20 >=? 32) with false. cbn match. change ((1 <<u32 20) -u32 1) with (2 ^ 20 - 1).
  rewrite (u32_small (col_shift - 20)) by lia. replace (col_shift - 20 >=? 32) with false by lia. cbn match.
  rewrite Z.shiftl_1_l. rewrite (u32_small (2 ^ _)) by lia. rewrite (u32_small (2 ^ _ - 1)) by lia.
  rewrite !land_low, !Z.shiftr_div_pow2 by lia.
  rewrite Z.pow_add_r in Ha by lia.
  assert (0 <= a / 2 ^ col_shift < 256) as Hc.
  { split; [apply Z.div_pos; lia|]. apply Z.div_lt_upper_bound; lia. }
  rewrite (u8_small (a / 2 ^ col_shift)) by lia. eexists.
  pose proof (Z.mod_pos_bound a (2 ^ 20) ltac:(lia)).
  pose proof (Z.mod_pos_bound (a / 2 ^ 20) (2 ^ (col_shift - 20)) ltac:(lia)) as Hr.
  rewrite u32_small by lia. split; [done|]. split; [done|]. rewrite u8_small by lia. intros E0.
  pose proof (Z.div_mod a (2 ^ 20) ltac:(lia)) as E1.
  pose proof (Z.div_mod (a / 2 ^ 20) (2 ^ (col_shift - 20)) ltac:(lia)) as E2.
  rewrite Z.div_div in E2 by lia. rewrite <- Hp in E2. rewrite E0 in E2. nia.
Qed.

(** ** Segments *)

Record seg_ok (k : Z) (sg : rt_cpe_seg) (p : list Z) (accs : list access) : Prop := {
  so_spells : spells (acr_shim_row_id k) sg p accs;
  so_below : below accs;
  so_len : len p = RT_SB_SEG_WORDS;
  so_room : seg_pw sg + 2 <= RT_SB_SEG_WORDS }.

(** The segments spell the packets [accs]. *)
Record spelled (s : rt_sb_state) (accs : Z -> list access) : Prop := {
  sp_window : lo s = win_lo /\ hi s = win_lo + win_n - 1;
  sp_lengths : length (seg s) = 5%nat /\ length (pkt s) = 5%nat;
  sp_segs : forall k, 0 <= k < win_n -> seg_ok k (seg_at s k) (pkt_at s k) (accs k) }.

(** What capturing may have done to a segment since [sg0], [p0]. *)
Record grown (sg0 : rt_cpe_seg) (p0 : list Z) (sg : rt_cpe_seg) (p : list Z) : Prop := {
  gr_len : length p = length p0;
  gr_pw : seg_pw sg0 <= seg_pw sg;
  gr_last : seg_last sg = seg_last sg0 \/ seg_pw sg0 <= seg_last sg;
  gr_words : forall i, 0 <= i < seg_pw sg0 -> i <> seg_last sg0 -> rd p i = rd p0 i }.

Lemma grown_refl sg p : grown sg p sg p.
Proof using. split; [done|lia|by left|done]. Qed.

Lemma grown_trans sg0 p0 sg1 p1 sg2 p2 : grown sg0 p0 sg1 p1 -> grown sg1 p1 sg2 p2 -> grown sg0 p0 sg2 p2.
Proof using.
  intros [L1 P1 A1 W1] [L2 P2 A2 W2]. split; [congruence|lia|lia|].
  intros i Hi Hne. rewrite W2 by lia. by apply W1.
Qed.

Lemma rd_wr_ne l i j v : 0 <= i -> 0 <= j -> i <> j -> rd (wr l i v) j = rd l j.
Proof using. intros. unfold rd, wr. by rewrite list_lookup_insert_ne by lia. Qed.

Lemma push_grown sid sg p accs cap off v :
  spells sid sg p accs -> seg_pw sg + 8 < 2 ^ 32 ->
  let '((sg', p'), _) := cpe_seg_push (cpe_stream_hdr sid) cap off v (sg, p) in grown sg p sg' p'.
Proof using.
  intros Hs Hcap. unfold cpe_seg_push. pose proof (sp_pw _ _ _ _ Hs) as Hpw.
  pose proof (len_nonneg (stream_words accs)) as H0. pose proof (sp_last _ _ _ _ Hs) as Hlast.
  assert (seg_last sg = RT_CPE_NONE \/ 0 <= seg_last sg < seg_pw sg) as Hl.
  { destruct (last accs) as [a|] eqn:Hla; [right|by left].
    destruct (rd_last_ctrl sid sg p accs a Hs Hla) as (_ & _ & _ & Hlo & Hhi). lia. }
  destruct (_ >? cap); [apply grown_refl|]. unwrap. cbv zeta.
  assert (forall a b c, grown sg p (Seg (seg_pw sg + 1 + 2) (seg_pw sg + 1) (seg_last_ctrl sg))
    (wr (wr (wr p (seg_pw sg) a) (seg_pw sg + 1) b) (seg_pw sg + 1 + 1) c)) as Hfresh.
  { intros a b c. split; cbn [seg_pw seg_last]; [unfold wr; by rewrite !length_insert|lia|right; lia|].
    intros i Hi _. rewrite !rd_wr_ne by lia. done. }
  destruct (Z.eqb_spec (seg_last sg) RT_CPE_NONE) as [|Hne]; cbn [negb]; [apply Hfresh|].
  destruct (_ && _); [|apply Hfresh].
  split; cbn [seg_pw seg_last]; [unfold wr; by rewrite !length_insert|lia|by left|].
  intros i Hi Hil. rewrite !rd_wr_ne by lia. done.
Qed.

Lemma loop_grown sid cap data : forall sg p accs off,
  spells sid sg p accs -> cap <= len p -> len p < 2 ^ 32 - 16 -> seg_pw sg + 2 <= len p ->
  let '((sg', p'), _) := cpe_seg_write_loop (cpe_stream_hdr sid) cap off data (sg, p) in grown sg p sg' p'.
Proof using.
  induction data as [|v data IH]; intros sg p accs off Hs Hc Hl Hr; cbn [cpe_seg_write_loop]; [apply grown_refl|].
  pose proof (push_grown sid sg p accs cap off v Hs ltac:(lia)) as Hg.
  pose proof (seg_push_spec sid sg p accs cap off v Hs Hc ltac:(lia)) as Hp.
  destruct (Z.leb_spec (seg_pw sg + 5) cap).
  - destruct Hp as (sg1 & p1 & E & Hs1 & L1 & Hpw1). rewrite E in Hg. erewrite bind_Ok by exact E.
    specialize (IH sg1 p1 _ (off +u32 4) Hs1). destruct (cpe_seg_write_loop _ _ _ _ _) as [[sg' p'] rc].
    apply (grown_trans _ _ sg1 p1); [done|]. apply IH; unfold len in *; lia.
  - erewrite bind_Err by exact Hp. apply grown_refl.
Qed.

Lemma sid_land k : 0 <= k < 5 -> acr_shim_row_id k & 0x1F = acr_shim_row_id k /\ 0 <= acr_shim_row_id k < 32.
Proof using.
  intros H. assert (k = 0 \/ k = 1 \/ k = 2 \/ k = 3 \/ k = 4) as [-> | [-> | [-> | [-> | ->]]]] by lia;
    vm_compute; (split; [done|split; [discriminate|reflexivity]]).
Qed.

(** A write into a segment: appended, or refused for want of room. *)
Lemma seg_write_spec k sg p accs off data :
  seg_ok k sg p accs -> 0 <= off -> off + 4 * len data <= 2 ^ 20 ->
  exists sg' p' accs' rc, rt_cpe_seg_write RT_SB_SEG_WORDS (acr_shim_row_id k) off data (len data) (sg, p) = ((sg', p'), rc) /\
    seg_ok k sg' p' accs' /\ grown sg p sg' p' /\
    match rc with
    | Ok _ => accs' = add_writes (acr_shim_row_id k) accs off data
    | Err _ => exists n, accs' = add_writes (acr_shim_row_id k) accs off (take n data)
    end.
Proof using.
  intros [Hs Hb Hl Hr] Ho Hoff. unfold rt_cpe_seg_write.
  replace (Z.to_nat (len data)) with (length data) by (unfold len; lia). rewrite firstn_all.
  pose proof seg_words_val as H816.
  destruct (seg_write_loop_spec _ RT_SB_SEG_WORDS data sg p accs off Hs) as (sg' & p' & n & rc & E & Hs' & L' & Hpw & Hrc);
    [lia|lia|done|done|].
  pose proof (loop_grown (acr_shim_row_id k) RT_SB_SEG_WORDS data sg p accs off Hs ltac:(lia) ltac:(lia) ltac:(lia)) as Hg.
  rewrite E in Hg. exists sg', p', (add_writes (acr_shim_row_id k) accs off (take n data)), rc. split; [done|].
  split; [|split; [done|]].
  - split; [done| |unfold len in *; lia|lia]. apply add_writes_below; [apply (sp_write _ _ _ _ Hs)|done|done|].
    unfold len in *. rewrite length_take. lia.
  - destruct Hrc as [[-> ->]|(-> & _)]; [by rewrite firstn_all|by eexists].
Qed.

(** ** Recording and capturing *)

Lemma column_base k y : 0 <= k < win_n -> 0 <= y < 2 ^ 20 -> column (base k + y) = Some k.
Proof. intros Hk Hy. apply column_spec. lia. Qed.

(** The packets of one column, with a block appended. *)
Lemma applied_store accs accs' k off data m x :
  0 <= k < win_n -> Forall (write_access (acr_shim_row_id k)) (accs k) -> 0 <= off -> off + 4 * len data <= 2 ^ 20 ->
  (forall j, accs' j = if j =? k then add_writes (acr_shim_row_id k) (accs k) off data else accs j) ->
  applied accs' m x = store_words (applied accs m) (base k + off) data x.
Proof.
  intros Hk Hf Ho Hl Haccs. unfold applied. unfold store_words at 1. unfold on_columns.
  destruct (column x) as [j|] eqn:Ej.
  - apply column_spec in Ej as Hj. destruct Hj as [Hj Hx]. rewrite Haccs. destruct (Z.eqb_spec j k) as [->|Hne].
    + rewrite run_add_writes by done. unfold store_words. 
      replace (x - base k - off) with (x - (base k + off)) by lia.
      replace (off <=? x - base k) with (base k + off <=? x) by lia.
      replace (x - base k <? off + 4 * len data) with (x <? base k + off + 4 * len data) by lia. done.
    + replace ((base k + off <=? x) && (x <? base k + off + 4 * len data) && ((x - (base k + off)) mod 4 =? 0)) with false; [done|].
      symmetry. apply andb_false_iff. left. apply not_true_is_false. intros Hin.
      assert (column x = Some k) as Ek by (apply column_spec; lia). congruence.
  - replace ((base k + off <=? x) && (x <? base k + off + 4 * len data) && ((x - (base k + off)) mod 4 =? 0)) with false; [done|].
    symmetry. apply andb_false_iff. left. apply not_true_is_false. intros Hin.
    assert (column x = Some k) as Ek by (apply column_spec; lia). congruence.
Qed.

(** What a captured call leaves: everything but the segments' ends. *)
Record captured (s0 s : rt_sb_state) : Prop := {
  cap_fields : (active s, ack_pending s, armed s, lo s, hi s, ack_nseg s) =
               (active s0, ack_pending s0, armed s0, lo s0, hi s0, ack_nseg s0);
  cap_lengths : length (seg s) = length (seg s0) /\ length (pkt s) = length (pkt s0);
  cap_bad : bad s0 = true -> bad s = true;
  cap_segs : forall k, 0 <= k < win_n -> grown (seg_at s0 k) (pkt_at s0 k) (seg_at s k) (pkt_at s k) }.

Lemma captured_refl s : captured s s.
Proof. split; [done|done|done|]. intros. apply grown_refl. Qed.

Lemma captured_trans s0 s1 s2 : captured s0 s1 -> captured s1 s2 -> captured s0 s2.
Proof.
  intros [F1 [L1 P1] B1 G1] [F2 [L2 P2] B2 G2]. split; [congruence|split; congruence|auto|].
  intros k Hk. eapply grown_trans; eauto.
Qed.

Lemma spelled_bad s accs b : spelled s accs -> spelled (set_bad b s) accs.
Proof. intros [W L S]. split; [exact W|exact L|exact S]. Qed.

Lemma captured_bad s : captured s (set_bad true s).
Proof. split; [done|done|done|]. intros. apply grown_refl. Qed.

Lemma put_seg_at k sp s j : length (seg s) = 5%nat -> length (pkt s) = 5%nat -> 0 <= k < 5 -> 0 <= j ->
  seg_at (put_seg k sp s) j = (if j =? k then sp.1 else seg_at s j) /\
  pkt_at (put_seg k sp s) j = (if j =? k then sp.2 else pkt_at s j).
Proof.
  intros L1 L2 Hk Hj. unfold seg_at, pkt_at, put_seg, set_segs, wr. cbn [seg pkt].
  destruct (Z.eqb_spec j k) as [->|Hne].
  - rewrite !list_lookup_insert_eq by lia. done.
  - rewrite !list_lookup_insert_ne by lia. done.
Qed.

Lemma put_seg_captured k sp s :
  length (seg s) = 5%nat -> length (pkt s) = 5%nat -> 0 <= k < win_n ->
  grown (seg_at s k) (pkt_at s k) sp.1 sp.2 -> captured s (put_seg k sp s).
Proof.
  intros L1 L2 Hk Hg. split; [done|split; apply length_insert|done|].
  intros j Hj. destruct (put_seg_at k sp s j L1 L2) as [-> ->]; [lia..|].
  destruct (Z.eqb_spec j k) as [->|]; [done|apply grown_refl].
Qed.

Lemma put_seg_spelled k sg p a s accs :
  spelled s accs -> 0 <= k < win_n -> seg_ok k sg p a ->
  spelled (put_seg k (sg, p) s) (fun j => if j =? k then a else accs j).
Proof.
  intros [W [L1 L2] S] Hk Hs. split; [done|split; unfold put_seg, wr; cbn [seg pkt set_segs]; by rewrite length_insert|].
  intros j Hj. destruct (put_seg_at k (sg, p) s j L1 L2) as [-> ->]; [lia..|].
  destruct (Z.eqb_spec j k) as [->|]; [done|by apply S].
Qed.

(** One recorded write: what it does to the pending packets, or a refusal. *)
Lemma record_spec a data s accs :
  spelled s accs -> block_ok col_shift a data ->
  let '(s', rc) := rt_sb_record 20 col_shift a data s in
  exists accs', spelled s' accs' /\ captured s s' /\
    ((rc = XAIE_OK /\ bad s' = bad s /\
      forall m x, applied accs' m x = store_words (applied accs m) a data x) \/ bad s' = true).
Proof.
  intros Hs [Ha Hd]. destruct (decode_window a Ha) as (row & E & Hcol & Hrow). unfold rt_sb_record. rewrite E.
  destruct (sp_window _ _ Hs) as [Elo Ehi]. destruct (sp_lengths _ _ Hs) as [L1 L2].
  set (col := a / 2 ^ col_shift) in *. rewrite Elo, Ehi.
  destruct (negb (row =? 0) || (col <? win_lo) || (col >? win_lo + win_n - 1)) eqn:Eg.
  { exists accs. split; [by apply spelled_bad|]. split; [apply captured_bad|by right]. }
  assert (row = 0 /\ 0 <= col - win_lo < win_n) as [Hr Hk] by lia. specialize (Hrow Hr).
  rewrite u32_small, u8_small by lia. set (k := col - win_lo) in *.
  pose proof (Z.mod_pos_bound a (2 ^ 20) ltac:(lia)) as Hoff.
  destruct (seg_write_spec k (seg_at s k) (pkt_at s k) (accs k) (a mod 2 ^ 20) data (sp_segs _ _ Hs k Hk))
    as (sg' & p' & a' & rc & -> & Hs' & Hg & Hrc); [lia|done|].
  pose proof (put_seg_spelled k sg' p' a' s accs Hs Hk Hs') as Hsp.
  pose proof (put_seg_captured k (sg', p') s L1 L2 Hk Hg) as Hc.
  destruct rc as [[]|e].
  - eexists. split; [exact Hsp|]. split; [done|]. left. split; [done|]. split; [done|]. intros m x.
    assert (base k + a mod 2 ^ 20 = a) as Ea.
    { rewrite base_val. unfold k. replace (win_lo + (col - win_lo)) with col by lia. lia. }
    rewrite <- Ea at 1. apply applied_store; [done| |lia|done|].
    + apply (sp_write _ _ _ _ (so_spells _ _ _ _ (sp_segs _ _ Hs k Hk))).
    + intros j. by destruct (Z.eqb_spec j k) as [->|].
  - eexists. split; [by eapply spelled_bad|]. split; [|by right]. eapply captured_trans; [exact Hc|apply captured_bad].
Qed.

Section calls.
Context (effect : backend_op -> (Z -> Z) -> Z -> Z) (answer : backend_op -> (Z -> Z) -> Z * Z).
Hypothesis device : device_ok col_shift win_lo win_n effect answer.

Abbreviation same := (same_regs col_shift win_lo win_n).
Abbreviation run_direct := (direct effect answer).

Lemma capture_op op s accs :
  spelled s accs -> op_ok col_shift win_lo win_n op ->
  let '(s', rc) := rt_sb_backend 20 col_shift op s in
  exists accs', spelled s' accs' /\ captured s s' /\
    ((rc = XAIE_OK /\ bad s' = bad s /\
      forall m, answer op m = (XAIE_OK, 0) /\ forall x, applied accs' m x = effect op (applied accs m) x) \/ bad s' = true).
Proof using device shift_ok window_ok.
  intros Hs Hop. destruct (op_writes op) as [[a ws]|] eqn:Ew.
  - assert (rt_sb_backend 20 col_shift op s = rt_sb_record 20 col_shift a ws s) as ->.
    { destruct op; simpl in Ew; by simplify_eq. }
    unfold op_ok in Hop. rewrite Ew in Hop. pose proof (record_spec a ws s accs Hs (proj1 Hop)) as H.
    destruct (rt_sb_record _ _ _ _ _) as [s' rc]. destruct H as (accs' & Hs' & Hc & H).
    exists accs'. split; [done|]. split; [done|]. destruct H as [(-> & Hb & H)|H]; [left|by right].
    split; [done|]. split; [done|]. intros m. split; [by eapply dev_write|]. intros x.
    rewrite H. symmetry. by eapply dev_write.
  - assert (rt_sb_backend 20 col_shift op s = (set_bad true s, XAIE_ERR)) as -> by (by destruct op).
    exists accs. split; [by apply spelled_bad|]. split; [apply captured_bad|by right].
Qed.

Lemma run_captured_spec c : forall s accs m0 m,
  spelled s accs -> call_ok col_shift win_lo win_n c -> same (applied accs m0) m ->
  let '(s', rc) := run_captured 20 col_shift c s in
  exists accs', spelled s' accs' /\ captured s s' /\
    (bad s' = false -> same (applied accs' m0) (run_direct c m).1 /\ rc = (run_direct c m).2).
Proof using device shift_ok window_ok.
  induction c as [rc|op k IH]; intros s accs m0 m Hs Hok Hm; cbn [run_captured direct].
  { exists accs. split; [done|]. split; [apply captured_refl|done]. }
  destruct Hok as [Hop Hk]. pose proof (capture_op op s accs Hs Hop) as H.
  destruct (rt_sb_backend _ _ op s) as [s1 rc]. destruct H as (accs1 & Hs1 & Hc1 & [(-> & Hb & H)|Hb]).
  - specialize (IH XAIE_OK 0 s1 accs1 m0 (effect op m) Hs1 (Hk _ _)).
    destruct (run_captured _ _ _ _) as [s' rc']. destruct IH as (accs' & Hs' & Hc' & Hrc).
    { intros x Hx. rewrite (proj2 (H m0)). by apply (dev_effect _ _ _ _ _ device). }
    exists accs'. split; [done|]. split; [by eapply captured_trans|]. intros Hbad.
    rewrite (proj1 (H m)). auto.
  - specialize (IH rc 0 s1 accs1 m0 (applied accs1 m0) Hs1 (Hk _ _) (fun _ _ => eq_refl)).
    destruct (run_captured _ _ _ _) as [s' rc']. destruct IH as (accs' & Hs' & Hc' & _).
    exists accs'. split; [done|]. split; [by eapply captured_trans|]. intros Hbad.
    pose proof (cap_bad _ _ Hc' Hb). congruence.
Qed.
End calls.

(** ** Undoing a capture *)

Lemma spells_prefix sid sg p accs sg' p' :
  spells sid sg p accs -> seg_pw sg' = seg_pw sg -> seg_last sg' = seg_last sg -> length p' = length p ->
  (forall i, 0 <= i < seg_pw sg -> rd p' i = rd p i) -> spells sid sg' p' accs.
Proof using.
  intros [W P L F] Epw Elast Hl Hrd. split; [|by rewrite Epw|by rewrite Elast, Epw|done].
  transitivity (take (length (stream_words accs)) p); [|exact W]. apply list_eq. intros i. destruct (decide (i < length (stream_words accs))%nat) as [Hi|Hi].
  2: { rewrite !lookup_take_ge by lia. done. }
  rewrite !lookup_take_lt by lia.
  assert (i < length p)%nat as Hp.
  { apply (f_equal length) in W. rewrite length_take in W. lia. }
  specialize (Hrd (Z.of_nat i)). unfold len in P. specialize (Hrd ltac:(lia)). unfold rd in Hrd. rewrite !Nat2Z.id in Hrd.
  destruct (lookup_lt_is_Some_2 p i Hp) as [v Ev].
  destruct (lookup_lt_is_Some_2 p' i ltac:(lia)) as [v' Ev']. rewrite Ev, Ev' in *. simpl in Hrd. congruence.
Qed.

Lemma imap_lookup_default {A B} (f : nat -> A -> B) l k d d' :
  0 <= k -> (Z.to_nat k < length l)%nat ->
  default d (imap f l !! Z.to_nat k) = f (Z.to_nat k) (default d' (l !! Z.to_nat k)).
Proof using.
  intros Hk Hl. rewrite list_lookup_imap. destruct (lookup_lt_is_Some_2 l _ Hl) as [x ->]. done.
Qed.

Lemma restore_spelled s0 s accs :
  spelled s0 accs -> captured (set_bad false s0) s ->
  let s' := rt_sb_restore (rt_sb_snap s0) s in
  spelled s' accs /\ (active s', ack_pending s', armed s', ack_nseg s') = (active s0, ack_pending s0, armed s0, ack_nseg s0).
Proof.
  intros [[Wl Wh] [L1 L2] S] [F [L3 L4] _ G] s'. simpl in F, L3, L4. injection F as Fa Fk Fm Fl Fh Fn.
  split; [|unfold s'; simpl; congruence].
  split; [unfold s'; simpl; split; congruence| |].
  { unfold s', rt_sb_restore, rt_sb_snap. cbn [seg pkt set_segs]. rewrite !length_imap. split; congruence. }
  intros k Hk. specialize (S k Hk). specialize (G k Hk).
  assert (seg_at s' k = if seg_last (seg_at s0 k) =? RT_SB_NONE then seg_at s0 k
                        else Seg (seg_pw (seg_at s0 k)) (seg_last (seg_at s0 k)) (rd (pkt_at s0 k) (seg_last (seg_at s0 k)))) as Eseg.
  { unfold seg_at at 1. unfold s', rt_sb_restore, rt_sb_snap. cbn [seg set_segs].
    rewrite (imap_lookup_default _ _ _ _ (Seg 0 RT_SB_NONE 0)) by lia. rewrite Z2Nat.id by lia. done. }
  assert (pkt_at s' k = if seg_last (seg_at s0 k) =? RT_SB_NONE then pkt_at s k
                        else wr (pkt_at s k) (seg_last (seg_at s0 k)) (rd (pkt_at s0 k) (seg_last (seg_at s0 k)))) as Epkt.
  { unfold pkt_at at 1. unfold s', rt_sb_restore. cbn [pkt set_segs].
    rewrite (imap_lookup_default _ _ _ _ []) by lia. fold (pkt_at s k).
    replace (rt_sb_snap s0 !! Z.to_nat k) with (Some (seg_at s' k)).
    - rewrite Eseg. destruct (seg_last (seg_at s0 k) =? RT_SB_NONE) eqn:En; simpl; by rewrite En.
    - unfold s', rt_sb_restore, seg_at. cbn [seg set_segs].
      destruct (lookup_lt_is_Some_2 (rt_sb_snap s0) (Z.to_nat k)) as [x ->]; [|done].
      unfold rt_sb_snap. rewrite length_imap. lia. }
  rewrite Epkt, Eseg. destruct S as [Hs Hb Hlen Hroom]. destruct G as [GL GP GA GW].
  change (seg_at (set_bad false s0) k) with (seg_at s0 k) in *. change (pkt_at (set_bad false s0) k) with (pkt_at s0 k) in *.
  destruct (Z.eqb_spec (seg_last (seg_at s0 k)) RT_SB_NONE) as [En|En].
  - split; [|done|unfold len in *; lia|done]. eapply spells_prefix; [exact Hs|done..|].
    intros i Hi. apply GW; [done|]. rewrite En. unfold RT_SB_NONE, RT_CPE_NONE. pose proof seg_words_val. lia.
  - assert (0 <= seg_last (seg_at s0 k) < seg_pw (seg_at s0 k)) as Hl.
    { pose proof (sp_last _ _ _ _ Hs) as Hlast. destruct (last (accs k)) as [a|] eqn:Hla; [|done].
      destruct (rd_last_ctrl _ _ _ _ a Hs Hla) as (_ & _ & _ & Hlo & Hhi). lia. }
    split; cbn [seg_pw seg_last]; [|done|unfold len, wr in *; rewrite length_insert; lia|done].
    eapply spells_prefix; [exact Hs|done..|unfold wr; by rewrite length_insert|].
    intros i Hi. rewrite rd_wr by (unfold len in *; lia). destruct (Z.eqb_spec (seg_last (seg_at s0 k)) i) as [<-|]; [done|].
    apply GW; [done|congruence].
Qed.

(** ** Preparing the segments *)

(** The fields a kick keeps. *)
Definition kept (s s' : rt_sb_state) : Prop :=
  (active s', bad s', armed s', ack_pending s', ack_nseg s') = (active s, bad s, armed s, ack_pending s, ack_nseg s).

Lemma spelled_ncols s accs : spelled s accs -> ncols s = win_n.
Proof. intros [[El Eh] _ _]. unfold ncols. rewrite El, Eh. unwrap. lia. Qed.

(** A pad write only changes the spare register. *)
Lemma pad_segment k s accs :
  spelled s accs -> 0 <= k < win_n ->
  let s' := put_seg k (rt_cpe_seg_write RT_SB_SEG_WORDS (acr_shim_row_id (u8 k)) RT_SB_PAD_OFF [0] 1 (seg_at s k, pkt_at s k)).1 s in
  exists accs', spelled s' accs' /\ kept s s' /\
    forall m, same_regs col_shift win_lo win_n (applied accs' m) (applied accs m).
Proof.
  intros Hs Hk s'.
  pose proof (sp_segs _ _ Hs k Hk) as Hseg.
  destruct (seg_write_spec k (seg_at s k) (pkt_at s k) (accs k) RT_SB_PAD_OFF [0] Hseg)
    as (sg' & p' & a' & rc & E & Hs' & _ & Hrc); [vm_compute; discriminate..|].
  change (len [0]) with 1 in E. subst s'. rewrite (u8_small k) by lia. rewrite E. cbn [fst].
  eexists. split; [by apply put_seg_spelled|]. split; [done|]. intros m x Hx.
  assert (exists n, a' = add_writes (acr_shim_row_id k) (accs k) RT_SB_PAD_OFF (take n [0])) as [n ->].
  { destruct rc; [exists 1%nat; exact Hrc|exact Hrc]. }
  rewrite (applied_store accs _ k RT_SB_PAD_OFF (take n [0])); [|done|..].
  - unfold store_words. replace (_ && _) with false; [done|]. symmetry. apply not_true_is_false. intros Hin.
    apply Hx. exists k. split; [done|].
    assert (len (take n [0]) <= 1) by (unfold len; rewrite length_take; simpl; lia).
    assert (x - (base k + RT_SB_PAD_OFF) < 4) as H4 by lia. assert ((x - (base k + RT_SB_PAD_OFF)) mod 4 = 0) as Hm by lia.
    rewrite Z.mod_small in Hm by lia. lia.
  - apply (sp_write _ _ _ _ (so_spells _ _ _ _ Hseg)).
  - vm_compute. discriminate.
  - assert (len (take n [0]) <= 1) by (unfold len; rewrite length_take; simpl; lia). unfold RT_SB_PAD_OFF. lia.
  - intros j. by destruct (Z.eqb_spec j k) as [->|].
Qed.

Lemma kept_refl s : kept s s.
Proof using. done. Qed.
Lemma kept_trans s s1 s2 : kept s s1 -> kept s1 s2 -> kept s s2.
Proof using. unfold kept. congruence. Qed.

Lemma pad_spec keep s accs :
  spelled s accs ->
  exists accs', spelled (rt_sb_pad keep s) accs' /\ kept s (rt_sb_pad keep s) /\
    forall m, same_regs col_shift win_lo win_n (applied accs' m) (applied accs m).
Proof.
  intros Hs. unfold rt_sb_pad. destruct (keep && armed s); [|exists accs; by split_and!].
  rewrite (spelled_ncols s accs Hs).
  assert (Forall (fun k => 0 <= k < win_n) (range 0 win_n)) as Hks.
  { apply Forall_lookup. intros i k Hi. apply lookup_seqZ in Hi. lia. }
  revert s accs Hs. induction (range 0 win_n) as [|k ks IH]; intros s accs Hs; [exists accs; by split_and!|].
  apply Forall_cons in Hks as [Hk Hks]. cbn [foldl].
  destruct (seg_pw (seg_at s k) =? 0); [|by apply IH].
  destruct (pad_segment k s accs Hs Hk) as (accs1 & Hs1 & Hk1 & Hm1).
  destruct (IH Hks _ accs1 Hs1) as (accs' & Hs' & Hk' & Hm'). exists accs'. split; [done|].
  split; [by eapply kept_trans|]. intros m x Hx. rewrite Hm' by done. by apply Hm1.
Qed.

(** The words of a finished segment. *)
Definition finished (accs : Z -> list access) (k : Z) : list Z := stream_words (acked (acr_shim_row_id k) (accs k)).
Definition sends (accs : Z -> list access) (ks : list Z) : list (Z * Z) :=
  ks ≫= fun k => match accs k with [] => [] | _ => [(k, len (finished accs k))] end.

Lemma finish_one k sg p a :
  seg_ok k sg p a ->
  exists sg' p' n, rt_cpe_seg_finish sg p = (sg', p', n) /\ length p' = length p /\
    match a with
    | [] => n = 0
    | _ => n = len (stream_words (acked (acr_shim_row_id k) a)) /\ 0 < n <= RT_SB_SEG_WORDS /\
           take (Z.to_nat n) p' = stream_words (acked (acr_shim_row_id k) a)
    end.
Proof using.
  intros [Hs Hb Hl Hr]. destruct a as [|x a].
  - exists sg, p, 0. unfold rt_cpe_seg_finish. pose proof (sp_last _ _ _ _ Hs) as Hlast. simpl in Hlast.
    rewrite Hlast, Z.eqb_refl. done.
  - destruct (seg_finish_spec _ sg p (x :: a) Hs ltac:(done)) as (sg' & p' & n & E & En & Et & L);
      [lia|rewrite Hl; vm_compute; done|]. exists sg', p', n. split; [done|]. split; [done|]. split; [done|]. split; [|done].
    apply (f_equal length) in Et. rewrite length_take in Et. rewrite En in *. unfold len in *.
    split; [|lia]. unfold acked in *. destruct (last (x :: a)) eqn:Ela; [|by apply last_None in Ela].
    rewrite !stream_words_app, !length_app. cbn. lia.
Qed.

Lemma finish_all_spec accs ks : forall s lens,
  NoDup ks -> Forall (fun k => 0 <= k < win_n) ks -> length (seg s) = 5%nat -> length (pkt s) = 5%nat ->
  (forall k, k ∈ ks -> seg_ok k (seg_at s k) (pkt_at s k) (accs k)) ->
  let '(s', lens') := foldl (fun '(s, lens) k =>
    let '(sg, p, n) := rt_cpe_seg_finish (seg_at s k) (pkt_at s k) in
    (put_seg k (sg, p) s, if n =? 0 then lens else lens ++ [(k, n)])) (s, lens) ks in
  lens' = lens ++ sends accs ks /\ kept s s' /\ (lo s', hi s') = (lo s, hi s) /\
  length (seg s') = 5%nat /\ length (pkt s') = 5%nat /\
  (forall k, 0 <= k < win_n -> length (pkt_at s' k) = length (pkt_at s k)) /\
  (forall k, 0 <= k -> k ∉ ks -> pkt_at s' k = pkt_at s k) /\
  forall k, k ∈ ks -> accs k <> [] -> take (length (finished accs k)) (pkt_at s' k) = finished accs k /\
    0 < len (finished accs k) <= RT_SB_SEG_WORDS.
Proof.
  induction ks as [|k ks IH]; intros s lens Hnd Hks L1 L2 Hok; cbn [foldl].
  { rewrite app_nil_r. split_and!; [done..|]. intros k Hk. by apply not_elem_of_nil in Hk. }
  apply NoDup_cons in Hnd as [Hnk Hnd]. apply Forall_cons in Hks as [Hk Hks].
  destruct (finish_one k _ _ _ (Hok k ltac:(by left))) as (sg & p & n & -> & Lp & Hn).
  set (s1 := put_seg k (sg, p) s). set (lens1 := if n =? 0 then lens else lens ++ [(k, n)]).
  assert (forall j, 0 <= j -> seg_at s1 j = (if j =? k then sg else seg_at s j) /\
                    pkt_at s1 j = (if j =? k then p else pkt_at s j)) as Hat.
  { intros j Hj. apply (put_seg_at k (sg, p) s j L1 L2); lia. }
  specialize (IH s1 lens1 Hnd Hks).
  destruct (foldl _ (s1, lens1) ks) as [s' lens'].
  destruct IH as (El & Hkept & Elh & L1' & L2' & Hlen & Hout & Hin).
  { unfold s1, put_seg, wr. cbn [seg set_segs]. by rewrite length_insert. }
  { unfold s1, put_seg, wr. cbn [pkt set_segs]. by rewrite length_insert. }
  { intros j Hj. assert (0 <= j < win_n) by (eapply Forall_forall in Hks; eauto; by apply list_elem_of_In).
    destruct (Hat j ltac:(lia)) as [-> ->]. destruct (Z.eqb_spec j k) as [->|]; [done|]. apply Hok. by right. }
  split_and!; [| |by rewrite Elh|done|done| | |].
  - rewrite El. unfold lens1, sends. cbn [mbind list_bind]. destruct (accs k) eqn:Ek.
    + subst n. by rewrite Z.eqb_refl.
    + destruct Hn as (-> & Hpos & _). replace (_ =? 0) with false by lia. unfold finished. rewrite Ek. by rewrite <- app_assoc.
  - by eapply kept_trans; [|exact Hkept].
  - intros j Hj. rewrite Hlen by done. destruct (Hat j ltac:(lia)) as [_ ->]. by destruct (Z.eqb_spec j k) as [->|].
  - intros j Hj Hnj. apply not_elem_of_cons in Hnj as [Hjk Hnj]. rewrite Hout by done.
    destruct (Hat j Hj) as [_ ->]. by destruct (Z.eqb_spec j k) as [->|].
  - intros j Hj Hne. apply elem_of_cons in Hj as [->|Hj]; [|by apply Hin].
    rewrite Hout by (done || lia). destruct (Hat k ltac:(lia)) as [_ ->]. rewrite Z.eqb_refl.
    unfold finished. destruct (accs k) eqn:Ek; [done|]. rewrite <- Ek in *. destruct Hn as (-> & Hpos & Ht).
    unfold len in Ht. rewrite Nat2Z.id in Ht. done.
Qed.

(** ** Streaming the segments *)

Lemma load_store_other m a ws b n :
  a + 4 * len ws <= b \/ b + 4 * n <= a -> load_words (store_words m a ws) b n = load_words m b n.
Proof using.
  intros H. unfold load_words. apply map_ext_in. intros i Hi. apply list_elem_of_In, elem_of_seqZ in Hi.
  unfold store_words. replace (_ && _) with false; [done|]. lia.
Qed.

Definition chosen (accs : Z -> list access) (ks : list Z) : list Z :=
  List.filter (fun k => match accs k with [] => false | _ => true end) ks.

Lemma sends_chosen accs ks : sends accs ks = (fun k => (k, len (finished accs k))) <$> chosen accs ks.
Proof using.
  unfold sends, chosen. induction ks as [|k ks IH]; [done|]. cbn [mbind list_bind List.filter].
  rewrite IH. by destruct (accs k).
Qed.

Lemma chosen_elem accs ks k : k ∈ chosen accs ks <-> k ∈ ks /\ accs k <> [].
Proof using.
  unfold chosen. rewrite !list_elem_of_In, filter_In. destruct (accs k); split; intros [H1 H2]; (split; [done|congruence]).
Qed.

Section stream.
Context (pkt_addr : Z).
Context (effect : backend_op -> (Z -> Z) -> Z -> Z).
Abbreviation step := (device_step col_shift win_lo win_n effect).
Abbreviation run := (device_run col_shift win_lo win_n effect).
Abbreviation seg_at_addr := (seg_addr pkt_addr).

Lemma run_app d l l' : run d (l ++ l') = run (run d l) l'.
Proof using. apply foldl_app. Qed.

(** The write-backs of the segments [ks]. *)
Lemma syncs_spec (w : Z -> list Z) ks : forall d,
  NoDup ks -> (forall k, k ∈ ks -> len (w k) <= RT_SB_SEG_WORDS) ->
  let d' := run d ((fun k => SyncForDev (seg_at_addr k) (w k)) <$> ks) in
  regs d' = regs d /\ bds d' = bds d /\
  (forall k, k ∈ ks -> load_words (ddr d') (seg_at_addr k) (len (w k)) = w k) /\
  (forall k n, k ∉ ks -> 0 <= n <= RT_SB_SEG_WORDS ->
     load_words (ddr d') (seg_at_addr k) n = load_words (ddr d) (seg_at_addr k) n).
Proof using.
  induction ks as [|k ks IH]; intros d Hnd Hw; cbn [fmap list_fmap].
  { split_and!; [done|done| |done]. intros k Hk. by apply not_elem_of_nil in Hk. }
  apply NoDup_cons in Hnd as [Hnk Hnd]. unfold device_run. cbn [foldl].
  set (d1 := step d _). specialize (IH d1 Hnd (fun j Hj => Hw j ltac:(by right))). cbv zeta in IH.
  unfold device_run in IH. destruct IH as (Er & Eb & Hin & Hout). split_and!; [exact Er|exact Eb| |].
  - intros j Hj. apply elem_of_cons in Hj as [->|Hj]; [|by apply Hin].
    rewrite Hout by (done || (pose proof (len_nonneg (w k)); pose proof (Hw k ltac:(by left)); lia)). apply load_store.
  - intros j n Hj Hn. apply not_elem_of_cons in Hj as [Hjk Hj]. rewrite Hout by done. apply load_store_other.
    pose proof (Hw k ltac:(by left)). unfold seg_addr. pose proof seg_words_val. nia.
Qed.

(** Descriptors written one after the other. *)
Definition bd_calls (i a n : Z) (next : option Z) : list sb_call :=
  DescInit :: SetAddrLen a n :: match next with Some j => [SetNextBd j] | None => [] end ++ [EnableBd; SetAxi; DmaWriteBd i].

Lemma bd_calls_run d i a n next :
  let d' := run d (bd_calls i a n next) in
  regs d' = regs d /\ ddr d' = ddr d /\ forall j, bds d' j = if j =? i then Bd a n next else bds d j.
Proof using. by destruct next. Qed.

Lemma bds_written (f : Z -> list sb_call) (B : Z -> bd -> bd) n d :
  0 <= n ->
  (forall i d, 0 <= i < n -> regs (run d (f i)) = regs d /\ ddr (run d (f i)) = ddr d /\
     forall j, bds (run d (f i)) j = if j =? RT_RES_SHIMROW_BD_LO + i then B i (bds d j) else bds d j) ->
  let d' := run d (concat (f <$> range 0 n)) in
  regs d' = regs d /\ ddr d' = ddr d /\
  forall j, bds d' j = if (RT_RES_SHIMROW_BD_LO <=? j) && (j <? RT_RES_SHIMROW_BD_LO + n)
                       then B (j - RT_RES_SHIMROW_BD_LO) (bds d j) else bds d j.
Proof using.
  intros Hn. pattern n. apply natlike_ind; [| |exact Hn]; clear n Hn.
  - intros _. split_and!; [done..|]. intros j. replace (_ && _) with false by lia. done.
  - intros n Hn IH Hf d'. unfold d'. rewrite <- Z.add_1_r, range_snoc, fmap_app, concat_app, run_app by lia.
    cbn [fmap list_fmap concat]. rewrite app_nil_r.
    destruct IH as (Er & Ed & Eb); [intros i e Hi; apply Hf; lia|].
    destruct (Hf n (run d (concat (f <$> range 0 n))) ltac:(lia)) as (Er1 & Ed1 & Eb1).
    rewrite Er1, Ed1, Er, Ed. split_and!; [done..|]. intros j. rewrite Eb1, Eb.
    destruct (Z.eqb_spec j (RT_RES_SHIMROW_BD_LO + n)) as [->|Hj].
    + replace ((RT_RES_SHIMROW_BD_LO <=? RT_RES_SHIMROW_BD_LO + n) && (RT_RES_SHIMROW_BD_LO + n <? RT_RES_SHIMROW_BD_LO + n)) with false by lia.
      replace ((RT_RES_SHIMROW_BD_LO <=? RT_RES_SHIMROW_BD_LO + n) && (RT_RES_SHIMROW_BD_LO + n <? RT_RES_SHIMROW_BD_LO + (n + 1))) with true by lia.
      f_equal. lia.
    + by replace (j <? RT_RES_SHIMROW_BD_LO + (n + 1)) with (j <? RT_RES_SHIMROW_BD_LO + n) by lia.
Qed.

(** A chain of descriptors streams its segments in order. *)
Lemma chain_stream (w : Z -> list Z) d cs : forall i fuel,
  (length cs < fuel)%nat ->
  (forall j k, cs !! j = Some k ->
     bds d (RT_RES_SHIMROW_BD_LO + Z.of_nat (i + j)) =
       Bd (seg_at_addr k) (len (w k) * 4) (if (S j <? length cs)%nat then Some (RT_RES_SHIMROW_BD_LO + Z.of_nat (i + j) + 1) else None) /\
     load_words (ddr d) (seg_at_addr k) (len (w k)) = w k) ->
  cs <> [] -> bd_stream fuel d (RT_RES_SHIMROW_BD_LO + Z.of_nat i) = concat (w <$> cs).
Proof using.
  induction cs as [|k cs IH]; intros i fuel Hf Hc Hne; [done|]. destruct fuel as [|fuel]; [simpl in Hf; lia|].
  cbn [bd_stream fmap list_fmap concat]. destruct (Hc 0%nat k eq_refl) as [Eb Eload]. rewrite Nat.add_0_r in Eb.
  rewrite Eb. cbn [bd_addr bd_bytes bd_next]. rewrite Z.div_mul by lia. rewrite Eload. f_equal.
  destruct cs as [|k' cs]; [done|]. cbn [length Nat.ltb Nat.leb].
  replace (RT_RES_SHIMROW_BD_LO + Z.of_nat i + 1) with (RT_RES_SHIMROW_BD_LO + Z.of_nat (S i)) by lia.
  apply IH; [simpl in *; lia| |done]. intros j x Hj. specialize (Hc (S j) x Hj).
  replace (i + S j)%nat with (S i + j)%nat in Hc by lia. exact Hc.
Qed.
End stream.

(** ** Delivering the packets *)

Lemma decode_stream_words l : forall fuel, Forall access_ok l -> (length l < fuel)%nat ->
  decode_stream fuel (stream_words l) = Some l.
Proof using.
  induction l as [|a l IH]; intros fuel Hl Hf; (destruct fuel as [|fuel]; [simpl in Hf; lia|]); [done|].
  apply Forall_cons in Hl as [Ha Hl]. change (stream_words (a :: l)) with (access_words a ++ stream_words l).
  apply access_words_decode; [done|]. apply IH; [done|simpl in Hf; lia].
Qed.

Lemma acked_sid sid accs : Forall (write_access sid) accs -> Forall (fun a => a_sid a = sid & 0x1F) (acked sid accs).
Proof using.
  intros Hf. unfold acked. destruct (last accs) as [a|] eqn:Hla; [|constructor].
  pose proof (last_split accs a Hla) as E.
  assert (write_access sid a) as Ha by (rewrite E in Hf; by apply Forall_app in Hf as [_ [? _]%Forall_cons]).
  rewrite !Forall_app. split_and!.
  - apply Forall_take. eapply Forall_impl; [exact Hf|]. intros x Hx. apply (wa_sid _ _ Hx).
  - destruct (_ =? 0)%nat; [constructor|]. apply Forall_singleton. apply (wa_sid _ _ Ha).
  - apply Forall_singleton. apply (wa_sid _ _ Ha).
Qed.

Lemma sid_inj j k : 0 <= j < 5 -> 0 <= k < 5 -> acr_shim_row_id j = acr_shim_row_id k -> j = k.
Proof using.
  intros Hj Hk. assert (j = 0 \/ j = 1 \/ j = 2 \/ j = 3 \/ j = 4) as H1 by lia.
  assert (k = 0 \/ k = 1 \/ k = 2 \/ k = 3 \/ k = 4) as H2 by lia.
  repeat destruct H1 as [->|H1]; try subst j; repeat destruct H2 as [->|H2]; try subst k; vm_compute; congruence.
Qed.

Lemma packets_for_chosen accs cs k :
  NoDup cs -> Forall (fun j => 0 <= j < win_n) cs -> 0 <= k < win_n ->
  (forall j, 0 <= j < win_n -> Forall (write_access (acr_shim_row_id j)) (accs j)) ->
  packets_for (concat ((fun j => acked (acr_shim_row_id j) (accs j)) <$> cs)) k =
    if decide (k ∈ cs) then acked (acr_shim_row_id k) (accs k) else [].
Proof.
  intros Hnd Hcs Hk Hw. unfold packets_for. induction cs as [|j cs IH]; [done|].
  apply NoDup_cons in Hnd as [Hnj Hnd]. apply Forall_cons in Hcs as [Hj Hcs]. specialize (IH Hnd Hcs).
  cbn [fmap list_fmap concat]. rewrite List.filter_app, IH.
  pose proof (acked_sid _ _ (Hw j Hj)) as Hs. destruct (sid_land j ltac:(lia)) as [El _]. rewrite El in Hs.
  destruct (Z.eq_dec j k) as [->|Hne].
  - rewrite (filter_const _ _ true) by (eapply Forall_impl; [exact Hs|]; intros a ->; apply Z.eqb_refl).
    rewrite decide_False by done. rewrite app_nil_r. by rewrite decide_True by left.
  - rewrite (filter_const _ _ false).
    + destruct (decide (k ∈ cs)); [rewrite decide_True by (by right)|rewrite decide_False by (intros [?|?]%elem_of_cons; congruence)]; done.
    + eapply Forall_impl; [exact Hs|]. intros a ->. apply Z.eqb_neq. intros E. apply Hne.
      apply sid_inj; [lia..|done].
Qed.

Lemma deliver_spec accs ks m :
  NoDup ks -> Forall (fun k => 0 <= k < win_n) ks -> (forall k, 0 <= k < win_n -> k ∈ ks) ->
  (forall k, 0 <= k < win_n -> Forall (write_access (acr_shim_row_id k)) (accs k) /\ below (accs k)) ->
  forall x, deliver col_shift win_lo win_n (concat (finished accs <$> chosen accs ks)) m x = applied accs m x.
Proof.
  intros Hnd Hks Hall Hw x. set (cs := chosen accs ks).
  assert (NoDup cs) as Hndc by (unfold cs, chosen; apply NoDup_ListNoDup, List.NoDup_filter, NoDup_ListNoDup, Hnd).
  assert (Forall (fun k => 0 <= k < win_n) cs) as Hcs.
  { apply Forall_forall. intros k Hk. apply chosen_elem in Hk as [Hk _]. rewrite Forall_forall in Hks. by apply Hks. }
  set (l := concat ((fun j => acked (acr_shim_row_id j) (accs j)) <$> cs)).
  assert (concat (finished accs <$> cs) = stream_words l) as Ews.
  { unfold l. clear. induction cs as [|k cs IH]; [done|]. cbn [fmap list_fmap concat]. by rewrite stream_words_app, <- IH. }
  assert (Forall access_ok l) as Hok.
  { unfold l. apply Forall_concat, Forall_fmap. eapply Forall_impl; [exact Hcs|]. intros k Hk. apply acked_ok. by apply Hw. }
  unfold deliver. rewrite Ews, decode_stream_words; [|done|].
  2: { clear. induction l as [|a l IH]; [simpl; lia|]. change (stream_words (a :: l)) with (access_words a ++ stream_words l).
       rewrite length_app. cbn [length access_words]. simpl in *. lia. }
  unfold on_columns. destruct (column x) as [k|] eqn:Ek; [|done]. apply column_spec in Ek as [Hk _].
  unfold l. rewrite packets_for_chosen by (done || (intros j Hj; by apply Hw)).
  destruct (decide (k ∈ cs)) as [Hin|Hin].
  - apply run_acked; [by apply Hw|]. intros a Ha. destruct (Hw k Hk) as [_ Hb]. unfold below in Hb.
    pose proof (last_split _ _ Ha) as E. rewrite E in Hb. by apply Forall_app in Hb as [_ [? _]%Forall_cons].
  - destruct (accs k) eqn:Ea; [done|]. exfalso. apply Hin, chosen_elem. split; [by apply Hall|by rewrite Ea].
Qed.

(** ** A driver that succeeds *)

Section driver.
Context (pkt_addr resp_addr : Z) (keep : bool).
Context (xaie : list sb_call -> sb_call -> Z) (pending_bds : list sb_call -> XAie_DmaDirection -> Z).
Hypothesis xaie_ok : forall log c, xaie log c = XAIE_OK.
Hypothesis polls_ok : forall log dir, pending_bds log dir = 0.

Abbreviation state := (drv rt_sb_state sb_call).
Abbreviation adds s cs := (Drv (rest s) (calls s ++ cs)).

Lemma ask_ok c (s : state) : call xaie c s = (adds s [c], Ok XAIE_OK).
Proof using xaie_ok. unfold call. by rewrite xaie_ok. Qed.

Lemma andthen_ok (a b : stE state Z Z) s s1 : a s = (s1, Ok XAIE_OK) -> andthen a b s = b s1.
Proof using. intros E. unfold andthen. by erewrite bind_Ok by exact E. Qed.

Lemma write_bd_ok i a n next (s : state) :
  rt_sb_write_bd xaie i a n next s = (adds s (bd_calls i a n next), Ok XAIE_OK).
Proof using xaie_ok.
  unfold rt_sb_write_bd, bd_calls. do 2 erewrite andthen_ok by apply ask_ok.
  destruct next.
  - do 3 erewrite andthen_ok by apply ask_ok. rewrite ask_ok. cbn [calls rest]. by rewrite <- !app_assoc.
  - erewrite andthen_ok by done. do 2 erewrite andthen_ok by apply ask_ok. rewrite ask_ok. cbn [calls rest].
    by rewrite <- !app_assoc.
Qed.

Lemma for_ok_calls (f : Z -> list sb_call) ks body : forall s : state,
  (forall k s, k ∈ ks -> body k s = (adds s (f k), Ok XAIE_OK)) ->
  for_ok ks body s = (adds s (concat (f <$> ks)), Ok XAIE_OK).
Proof using.
  induction ks as [|k ks IH]; intros s H; cbn [for_ok fmap list_fmap concat].
  - rewrite app_nil_r. by destruct s.
  - erewrite andthen_ok by (apply H; by left). rewrite IH by (intros; apply H; by right). cbn [rest calls].
    by rewrite <- app_assoc.
Qed.

Lemma forM_calls {A} (f : A -> sb_call) (xs : list A) (body : A -> stE state Z unit) : forall s : state,
  (forall x s, body x s = (adds s [f x], Ok tt)) -> forM xs body s = (adds s (f <$> xs), Ok tt).
Proof using.
  induction xs as [|x xs IH]; intros s H; cbn [forM fmap list_fmap].
  - rewrite app_nil_r. by destruct s.
  - erewrite bind_Ok by apply H. rewrite IH by done. cbn [rest calls]. by rewrite <- app_assoc.
Qed.

Lemma set_ack_same s : ack_pending s = false -> set_ack false (ack_nseg s) s = s.
Proof using. destruct s. simpl. by intros ->. Qed.

Lemma ack_wait_ok (s : state) :
  rt_sb_ack_wait xaie pending_bds s =
    (Drv (set_ack false (ack_nseg (rest s)) (rest s))
       (calls s ++ if ack_pending (rest s) then [GetPendingBdCount DMA_S2MM] else []), Ok XAIE_OK).
Proof using polls_ok.
  unfold rt_sb_ack_wait. rewrite bind_gets. destruct (ack_pending (rest s)) eqn:Ep; cbn [negb].
  - rewrite bind_gets. erewrite bind_Ok by done. cbn [upd_rest rest calls].
    destruct (Z.to_nat 100000) as [|fuel] eqn:Ef; [lia|]. clear Ef.
    erewrite bind_Ok; [|cbn [poll_pending]; rewrite polls_ok; reflexivity]. done.
  - rewrite set_ack_same, app_nil_r by done. by destruct s.
Qed.

Context (effect : backend_op -> (Z -> Z) -> Z -> Z).
Abbreviation run := (device_run col_shift win_lo win_n effect).

(** An armed chain: every column's descriptor has its address and its
    successor. *)
Definition chain_ok (s : rt_sb_state) (d : device) : Prop :=
  armed s = true -> forall k, 0 <= k < win_n ->
    bd_addr (bds d (RT_RES_SHIMROW_BD_LO + k)) = seg_addr pkt_addr k /\
    bd_next (bds d (RT_RES_SHIMROW_BD_LO + k)) =
      if k + 1 <? win_n then Some (RT_RES_SHIMROW_BD_LO + k + 1) else None.

(** The descriptors of the segments to send. *)
Definition chain_of (cs : list Z) (w : Z -> list Z) (d : device) : Prop :=
  forall i k, cs !! i = Some k ->
    bds d (RT_RES_SHIMROW_BD_LO + Z.of_nat i) =
      Bd (seg_addr pkt_addr k) (len (w k) * 4)
        (if (S i <? length cs)%nat then Some (RT_RES_SHIMROW_BD_LO + Z.of_nat i + 1) else None).

Lemma update_lens_spec (w : Z -> list Z) (s : state) st d :
  chain_ok st d -> armed st = true -> (forall k, 0 <= k < win_n -> 0 <= len (w k) <= RT_SB_SEG_WORDS) ->
  let lens := (fun k => (k, len (w k))) <$> range 0 win_n in
  let cs := concat ((fun i => [UpdateBdLen (len (w i) * 4) (RT_RES_SHIMROW_BD_LO + i)]) <$> range 0 win_n) in
  for_ok (range 0 win_n) (fun i => let '(k, n) := default (0, 0) (lens !! Z.to_nat i) in
    call xaie (UpdateBdLen (n *u32 4) (u16 (RT_RES_SHIMROW_BD_LO + k)))) s = (adds s cs, Ok XAIE_OK) /\
  regs (run d cs) = regs d /\ ddr (run d cs) = ddr d /\
  chain_of (range 0 win_n) w (run d cs) /\ chain_ok st (run d cs).
Proof using xaie_ok shift_ok window_ok.
  intros Hc Ha Hw lens cs. unfold RT_RES_SHIMROW_BD_LO in *. split.
  - apply (for_ok_calls (fun i => [UpdateBdLen (len (w i) * 4) (7 + i)])). intros k s' Hk. apply elem_of_seqZ in Hk.
    unfold lens, range. rewrite list_lookup_fmap, lookup_seqZ_lt by lia. cbn [fmap option_fmap option_map from_option id].
    replace (0 + Z.of_nat (Z.to_nat k)) with k by lia. rewrite ask_ok. pose proof (Hw k ltac:(lia)). pose proof seg_words_val.
    by unwrap.
  - destruct (bds_written effect (fun i => [UpdateBdLen (len (w i) * 4) (7 + i)])
      (fun i b => Bd (bd_addr b) (len (w i) * 4) (bd_next b)) win_n d) as (Er & Ed & Eb); [lia| |].
    { intros i e Hi. split; [done|]. split; [done|]. intros j. unfold device_run. cbn. unfold RT_RES_SHIMROW_BD_LO.
      by destruct (Z.eqb_spec j (7 + i)) as [->|]. }
    unfold RT_RES_SHIMROW_BD_LO in Eb. split; [exact Er|]. split; [exact Ed|]. specialize (Hc Ha). fold cs in Eb. split.
    + intros i k Hi. apply lookup_seqZ in Hi as [-> Hi]. rewrite Z.add_0_l in *. unfold RT_RES_SHIMROW_BD_LO. rewrite Eb.
      replace ((7 <=? 7 + Z.of_nat i) && (7 + Z.of_nat i <? 7 + win_n)) with true by lia.
      destruct (Hc (Z.of_nat i) ltac:(lia)) as [E1 E2]. unfold RT_RES_SHIMROW_BD_LO in *. rewrite E1, E2.
      replace (7 + Z.of_nat i - 7) with (Z.of_nat i) by lia. f_equal. unfold range. rewrite length_seqZ.
      destruct (Nat.ltb_spec (S i) (Z.to_nat (win_n - 0))); [by replace (Z.of_nat i + 1 <? win_n) with true by lia|
        by replace (Z.of_nat i + 1 <? win_n) with false by lia].
    + intros _ k Hk. unfold RT_RES_SHIMROW_BD_LO. rewrite Eb.
      replace ((7 <=? 7 + k) && (7 + k <? 7 + win_n)) with true by lia. exact (Hc k Hk).
Qed.

Lemma write_compact_spec (w : Z -> list Z) cs (s : state) d :
  (1 <= length cs <= 5)%nat -> (forall k, k ∈ cs -> 0 <= len (w k) <= RT_SB_SEG_WORDS) ->
  exists log, rt_sb_write_compact pkt_addr resp_addr xaie ((fun k => (k, len (w k))) <$> cs) s = (adds s log, Ok XAIE_OK) /\
    regs (run d log) = regs d /\ ddr (run d log) = ddr d /\ chain_of cs w (run d log).
Proof using xaie_ok shift_ok window_ok.
  intros Hcs Hw. unfold rt_sb_write_compact. cbv zeta. set (n := Z.of_nat (length cs)).
  assert (len ((fun k => (k, len (w k))) <$> cs) = n) as -> by (unfold len at 1; by rewrite length_fmap).
  set (at_ := fun i => default 0 (cs !! Z.to_nat i)).
  set (f := fun i => bd_calls (7 + i) (seg_addr pkt_addr (at_ i)) (len (w (at_ i)) * 4)
                       (if i + 1 <? n then Some (7 + i + 1) else None)).
  set (ack := bd_calls RT_RES_SHIMROW_ACK_BD resp_addr (n * 4) None).
  exists (ack ++ concat (f <$> range 0 n)). split.
  - erewrite andthen_ok by apply write_bd_ok. rewrite (u32_small (n * 4)) by lia. fold ack.
    rewrite (for_ok_calls f); [cbn [rest calls]; rewrite (app_assoc (calls s) ack); reflexivity|]. intros i s' Hi. apply elem_of_seqZ in Hi.
    rewrite list_lookup_fmap. unfold f, at_. destruct (lookup_lt_is_Some_2 cs (Z.to_nat i)) as [k Ek]; [lia|]. rewrite Ek.
    cbn [fmap option_fmap option_map from_option id]. rewrite write_bd_ok.
    pose proof (Hw k ltac:(by eapply list_elem_of_lookup_2)). pose proof seg_words_val.
    unfold RT_RES_SHIMROW_BD_LO. by unwrap.
  - rewrite !run_app. destruct (bd_calls_run effect d RT_RES_SHIMROW_ACK_BD resp_addr (n * 4) None) as (Er & Ed & _).
    fold ack in Er, Ed. set (d1 := run d ack) in *.
    destruct (bds_written effect f (fun i _ => Bd (seg_addr pkt_addr (at_ i)) (len (w (at_ i)) * 4)
      (if i + 1 <? n then Some (7 + i + 1) else None)) n d1) as (Er1 & Ed1 & Eb1); [lia| |].
    { intros i e Hi. apply bd_calls_run. }
    rewrite Er1, Ed1. split; [exact Er|]. split; [exact Ed|]. intros i k Hi. rewrite Eb1. unfold RT_RES_SHIMROW_BD_LO.
    pose proof (lookup_lt_Some _ _ _ Hi). replace ((7 <=? 7 + Z.of_nat i) && (7 + Z.of_nat i <? 7 + n)) with true by lia.
    replace (7 + Z.of_nat i - 7) with (Z.of_nat i) by lia. unfold at_. rewrite Nat2Z.id, Hi. cbn [from_option id]. f_equal.
    destruct (Nat.ltb_spec (S i) (length cs)); [by replace (Z.of_nat i + 1 <? n) with true by lia|
      by replace (Z.of_nat i + 1 <? n) with false by lia].
Qed.

(** ** The kick *)

Lemma filter_full {A} (f : A -> bool) l : length (List.filter f l) = length l -> List.filter f l = l.
Proof using.
  induction l as [|x l IH]; [done|]. simpl. pose proof (List.filter_length_le f l).
  destruct (f x); simpl; [intros [= E]; f_equal; auto|lia].
Qed.

Lemma reset_spelled s : lo s = win_lo /\ hi s = win_lo + win_n - 1 ->
  length (seg s) = 5%nat /\ length (pkt s) = 5%nat -> (forall k, 0 <= k < win_n -> len (pkt_at s k) = RT_SB_SEG_WORDS) ->
  spelled (rt_sb_reset_segs s) (fun _ => []).
Proof using window_ok.
  intros Hw [L1 L2] Hp. split; [done|unfold rt_sb_reset_segs; cbn [seg pkt set_segs]; by rewrite length_fmap|]. intros k Hk.
  assert (seg_at (rt_sb_reset_segs s) k = rt_cpe_seg_reset (seg_at s k)) as ->.
  { unfold seg_at, rt_sb_reset_segs. cbn [seg set_segs]. rewrite list_lookup_fmap.
    destruct (lookup_lt_is_Some_2 (seg s) (Z.to_nat k)) as [sg ->]; [lia|done]. }
  split; [by split|constructor|by apply Hp|cbn; pose proof seg_words_val; lia].
Qed.

Lemma applied_nil accs m x : (forall k, 0 <= k < win_n -> accs k = []) -> applied accs m x = m x.
Proof.
  intros H. unfold on_columns. destruct (column x) as [k|] eqn:E; [|done].
  apply column_spec in E as [Hk _]. rewrite H by done. cbn. f_equal. lia.
Qed.

(** The descriptors of the kick, by either way of writing them. *)
Lemma kick_bds (w : Z -> list Z) cs (s : state) st d :
  (len cs = win_n -> cs = range 0 win_n) -> (forall k, k ∈ cs -> 0 <= k < win_n) ->
  (1 <= length cs <= 5)%nat -> (forall k, 0 <= k < win_n -> 0 <= len (w k) <= RT_SB_SEG_WORDS) -> chain_ok st d ->
  let lens := (fun k => (k, len (w k))) <$> cs in
  exists log b, (if armed st && (len lens =? win_n)
     then rc ← for_ok (range 0 (len lens)) (fun i =>
              let '(k, n) := default (0, 0) (lens !! Z.to_nat i) in
              call xaie (UpdateBdLen (n *u32 4) (u16 (RT_RES_SHIMROW_BD_LO + k))));
          mret (rc, keep && (rc =? XAIE_OK))
     else rc ← rt_sb_write_compact pkt_addr resp_addr xaie lens; mret (rc, false)) s = (adds s log, Ok (XAIE_OK, b)) /\
    regs (run d log) = regs d /\ ddr (run d log) = ddr d /\ chain_of cs w (run d log) /\
    (b = true -> chain_ok st (run d log) /\ armed st = true).
Proof.
  intros Hfull Hcs Hlen Hw Hc lens. assert (len lens = len cs) as El by (unfold lens, len; by rewrite length_fmap).
  rewrite El. destruct (armed st) eqn:Ha; cbn [andb].
  - destruct (Z.eqb_spec (len cs) win_n) as [En|_].
    + specialize (Hfull En). rewrite En. unfold lens. rewrite Hfull.
      destruct (update_lens_spec w s st d Hc Ha Hw) as (E & Er & Ed & Hch & Hok).
      eexists _, keep. split; [erewrite bind_Ok by exact E; by rewrite Z.eqb_refl, andb_true_r|]. done.
    + destruct (write_compact_spec w cs s d Hlen (fun k Hk => Hw k (Hcs k Hk))) as (log & E & Er & Ed & Hch).
      exists log, false. split; [by erewrite bind_Ok by exact E|]. done.
  - destruct (write_compact_spec w cs s d Hlen (fun k Hk => Hw k (Hcs k Hk))) as (log & E & Er & Ed & Hch).
    exists log, false. split; [by erewrite bind_Ok by exact E|]. done.
Qed.

(** What sending the finished segments does: the device executes the packets,
    and the segments are empty. *)
Lemma send_spec accs (w : Z -> list Z) cs (s : state) st d :
  (len cs = win_n -> cs = range 0 win_n) -> (forall k, k ∈ cs -> 0 <= k < win_n) -> NoDup cs ->
  (1 <= length cs <= 5)%nat -> (forall k, 0 <= k < win_n -> 0 <= len (w k) <= RT_SB_SEG_WORDS) -> chain_ok st (run d (calls s)) ->
  (forall k, k ∈ cs -> take (Z.to_nat (len (w k))) (pkt_at st k) = w k) ->
  (forall m x, deliver col_shift win_lo win_n (concat (w <$> cs)) m x = applied accs m x) ->
  let lens := (fun k => (k, len (w k))) <$> cs in
  exists log b, (forM lens (fun '(k, n) => call xaie (SyncForDev (seg_addr pkt_addr k) (take (Z.to_nat n) (pkt_at st k))) ;; mret tt) ;;
    rk ← (if armed st && (len lens =? win_n)
     then rc ← for_ok (range 0 (len lens)) (fun i =>
              let '(k, n) := default (0, 0) (lens !! Z.to_nat i) in
              call xaie (UpdateBdLen (n *u32 4) (u16 (RT_RES_SHIMROW_BD_LO + k))));
          mret (rc, keep && (rc =? XAIE_OK))
     else rc ← rt_sb_write_compact pkt_addr resp_addr xaie lens; mret (rc, false));
    modify (upd_rest (set_armed rk.2)) ;;
    rc ← andthen (mret rk.1) (andthen (call xaie (PushBd DMA_S2MM RT_RES_SHIMROW_ACK_BD)) (call xaie (PushBd DMA_MM2S RT_RES_SHIMROW_BD_LO)));
    modify (upd_rest (set_ack (rc =? XAIE_OK) (len lens))) ;;
    mret rc) s = (Drv (set_ack true (len lens) (set_armed b (rest s))) (calls s ++ log), Ok XAIE_OK) /\
    (forall x, regs (run d (calls s ++ log)) x = applied accs (regs (run d (calls s))) x) /\
    (b = true -> armed st = true /\ chain_ok st (run d (calls s ++ log))).
Proof.
  intros Hfull Hcs Hnd Hlen Hw Hc Ht Hdel lens.
  set (sync := fun k => SyncForDev (seg_addr pkt_addr k) (w k)).
  assert (forall s : state, forM lens (fun '(k, n) => call xaie (SyncForDev (seg_addr pkt_addr k) (take (Z.to_nat n) (pkt_at st k))) ;; mret tt) s =
    (adds s (sync <$> cs), Ok tt)) as Esync.
  { intros s'. unfold lens. clear lens Hlen Hfull Hnd Hcs Hdel. revert s'. induction cs as [|k cs IH]; intros s'; cbn [fmap list_fmap forM].
    - rewrite app_nil_r. by destruct s'.
    - erewrite bind_Ok; [|erewrite bind_Ok by apply ask_ok; reflexivity]. rewrite IH by (intros; apply Ht; by right).
      cbn [rest calls]. rewrite <- app_assoc. rewrite Ht by (by left). done. }
  erewrite bind_Ok by apply Esync. clear Esync. set (s1 := adds s (sync <$> cs)).
  destruct (syncs_spec pkt_addr effect w cs (run d (calls s)) Hnd) as (Er & Eb & Hload & _).
  { intros k Hk. by apply Hw, Hcs. }
  fold sync in Er, Eb, Hload. rewrite <- run_app in Er, Eb, Hload.
  assert (chain_ok st (run d (calls s1))) as Hc1 by (intros Ha k Hk; cbn [calls s1]; rewrite Eb; by apply Hc).
  destruct (kick_bds w cs s1 st (run d (calls s1)) Hfull Hcs Hlen Hw Hc1) as (log & b & E & Er1 & Ed1 & Hch & Hb).
  erewrite bind_Ok by exact E. clear E. cbn [fst snd]. erewrite bind_Ok by done.
  erewrite bind_Ok; [|erewrite andthen_ok by done; erewrite andthen_ok by apply ask_ok; apply ask_ok].
  erewrite bind_Ok by done. rewrite Z.eqb_refl. cbn [upd_rest rest calls s1]. rewrite <- !app_assoc.
  eexists _, b. split; [reflexivity|]. cbn [calls s1] in *. rewrite <- run_app in Er1, Ed1, Hch, Hb.
  rewrite (app_assoc (sync <$> cs) log), (app_assoc (calls s)), (app_assoc (calls s)), run_app.
  set (dev := run d ((calls s ++ (sync <$> cs)) ++ log)) in *.
  assert (bd_stream 16 dev RT_RES_SHIMROW_BD_LO = concat (w <$> cs)) as Est.
  { apply (chain_stream pkt_addr w dev cs 0 16); [lia| |intros ->; simpl in Hlen; lia].
    intros j k Hj. rewrite Nat.add_0_l. split; [by apply Hch|]. rewrite Ed1. apply Hload. by eapply list_elem_of_lookup_2. }
  unfold device_run. cbn [foldl device_step app]. rewrite Est. cbn [regs bds]. split.
  - intros x. rewrite Hdel. by rewrite Er1, Er.
  - intros ->. destruct (Hb eq_refl) as [Hok Ha]. split; [done|]. exact Hok.
Qed.

Lemma kick_spec accs (s : state) d :
  spelled (rest s) accs -> chain_ok (rest s) (run d (calls s)) ->
  exists s', rt_sb_kick pkt_addr resp_addr keep xaie pending_bds s = (s', Ok XAIE_OK) /\
    spelled (rest s') (fun _ => []) /\ chain_ok (rest s') (run d (calls s')) /\
    active (rest s') = active (rest s) /\
    same_regs col_shift win_lo win_n (regs (run d (calls s'))) (applied accs (regs (run d (calls s)))).
Proof.
  intros Hs Hc. unfold rt_sb_kick. erewrite bind_Ok by apply ask_ok. erewrite bind_Ok by apply ack_wait_ok.
  rewrite bind_gets. cbn [rest calls]. set (st0 := set_ack false _ _). rewrite <- app_assoc.
  set (s1 := Drv st0 _).
  assert (run d (calls s1) = run d (calls s)) as Erun1.
  { cbn [s1 calls]. rewrite run_app. by destruct (ack_pending (rest s)). }
  assert (spelled st0 accs) as Hs0 by (destruct Hs as [A B C]; split; [exact A|exact B|exact C]).
  destruct (pad_spec keep st0 accs Hs0) as (accs1 & Hs1 & Hk1 & Hm1).
  unfold rt_sb_finish_all. rewrite (spelled_ncols _ _ Hs1).
  set (ks := range 0 win_n).
  assert (NoDup ks) as Hnd by apply NoDup_seqZ.
  assert (Forall (fun k => 0 <= k < win_n) ks) as Hks.
  { apply Forall_lookup. intros i k Hi. apply lookup_seqZ in Hi. lia. }
  assert (forall k, 0 <= k < win_n -> k ∈ ks) as Hall by (intros k Hk; apply elem_of_seqZ; lia).
  destruct (sp_lengths _ _ Hs1) as [L1 L2].
  pose proof (finish_all_spec accs1 ks (rt_sb_pad keep st0) [] Hnd Hks L1 L2) as Hfin.
  destruct (foldl _ (rt_sb_pad keep st0, []) ks) as [st lens].
  destruct Hfin as (El & Hk2 & Elh & L1' & L2' & Hplen & _ & Hfin).
  { intros k Hk. apply (sp_segs _ _ Hs1). rewrite Forall_forall in Hks. by apply Hks. }
  assert (kept st0 st) as Hk by (by eapply kept_trans).
  assert (lo st = win_lo /\ hi st = win_lo + win_n - 1) as Hlh.
  { destruct (sp_window _ _ Hs1). injection Elh as -> ->. done. }
  cbn [app] in El. rewrite sends_chosen in El. set (cs := chosen accs1 ks) in *.
  assert (ncols st = win_n) as En by (unfold ncols; destruct Hlh as [-> ->]; unwrap; lia).
  assert (spelled (rt_sb_reset_segs st) (fun _ => [])) as Hreset.
  { apply reset_spelled; [done..|]. intros k Hkk. unfold len. rewrite Hplen by done.
    apply (so_len _ _ _ _ (sp_segs _ _ Hs1 k Hkk)). }
  erewrite bind_Ok by done. cbn [upd_rest rest calls].
  unfold kept in Hk. injection Hk as Ea Eb Em Ep Eq.
  assert (chain_ok st (run d (calls s1))) as Hc1.
  { rewrite Erun1. intros Harm. apply Hc. congruence. }
  destruct (Z.eqb_spec (len lens) 0) as [E0|E0].
  - exists (Drv (rt_sb_reset_segs st) (calls s1)). split; [reflexivity|]. cbn [rest]. cbn [calls].
    split; [done|]. split; [exact Hc1|]. split; [exact Ea|].
    rewrite Erun1. intros x Hx. rewrite <- Hm1 by done. symmetry. apply applied_nil. intros k Hk.
    destruct (accs1 k) eqn:Eacc; [done|]. exfalso.
    assert (k ∈ cs) as Hin by (apply chosen_elem; split; [by apply Hall|by rewrite Eacc]).
    rewrite El in E0. unfold len in E0. rewrite length_fmap in E0. destruct cs; [by apply not_elem_of_nil in Hin|simpl in E0; lia].
  - rewrite En. rewrite El in *.
    assert (length cs <= length ks)%nat as Lcs by apply List.filter_length_le.
    assert (length ks = Z.to_nat win_n) as Lks by (unfold ks, range; rewrite length_seqZ; f_equal; lia).
    assert (forall k, 0 <= k < win_n -> 0 <= len (finished accs1 k) <= RT_SB_SEG_WORDS) as Hw.
    { intros k Hk. destruct (accs1 k) eqn:Eacc; [unfold finished; rewrite Eacc; vm_compute; split; discriminate|].
      destruct (Hfin k (Hall k Hk)); [by rewrite Eacc|lia]. }
    destruct (send_spec accs1 (finished accs1) cs (Drv (rt_sb_reset_segs st) (calls s1)) st d)
      as (log & b & E & Hr & Hb).
    + intros Hl. apply filter_full. change (length cs = length ks). unfold len in Hl. lia.
    + intros k Hk. apply chosen_elem in Hk as [Hk _]. rewrite Forall_forall in Hks. by apply Hks.
    + unfold cs, chosen. apply NoDup_ListNoDup, List.NoDup_filter, NoDup_ListNoDup, Hnd.
    + unfold len in E0. rewrite length_fmap in E0. lia.
    + exact Hw.
    + exact Hc1.
    + intros k Hk. apply chosen_elem in Hk as [Hk Hne]. unfold len. rewrite Nat2Z.id. by apply Hfin.
    + intros m x. apply deliver_spec; [done..|]. intros k Hk. destruct (sp_segs _ _ Hs1 k Hk) as [A B _ _].
      split; [apply (sp_write _ _ _ _ A)|exact B].
    + eexists. split; [exact E|]. cbn [rest calls]. split; [|split; [|split]].
      * destruct Hreset as [A B C]. split; [exact A|exact B|exact C].
      * intros Harm. cbn in Harm. destruct (Hb Harm) as [Ha Hok]. exact (Hok Ha).
      * exact Ea.
      * intros x Hx. rewrite Hr. cbn [calls]. rewrite Erun1. by apply Hm1.
Qed.

Lemma sb_flush_spec accs (s : state) d :
  spelled (rest s) accs -> chain_ok (rest s) (run d (calls s)) ->
  exists s', rt_sb_flush pkt_addr resp_addr keep xaie pending_bds s = (s', Ok XAIE_OK) /\
    spelled (rest s') (fun _ => []) /\ chain_ok (rest s') (run d (calls s')) /\
    active (rest s') = active (rest s) /\
    same_regs col_shift win_lo win_n (regs (run d (calls s'))) (applied accs (regs (run d (calls s)))).
Proof.
  intros Hs Hc. destruct (kick_spec accs s d Hs Hc) as (s1 & E & Hs1 & Hc1 & Ha & Hr).
  unfold rt_sb_flush. erewrite bind_Ok by exact E. erewrite bind_Ok by apply ack_wait_ok. rewrite Z.eqb_refl.
  eexists. split; [reflexivity|]. cbn [rest calls].
  assert (forall l, run d (calls s1 ++ if ack_pending (rest s1) then [GetPendingBdCount DMA_S2MM] else l) =
                    run d (calls s1 ++ if ack_pending (rest s1) then [] else l)) as El.
  { intros l. rewrite !run_app. by destruct (ack_pending (rest s1)). }
  rewrite El. replace (if ack_pending (rest s1) then [] else []) with (@nil sb_call) by (by destruct (ack_pending _)).
  rewrite app_nil_r. split; [|done]. destruct Hs1 as [A B C]. split; [exact A|exact B|exact C].
Qed.

(** ** Calls *)

Context (answer : backend_op -> (Z -> Z) -> Z * Z) (backend : list sb_call -> backend_op -> Z * Z).
Hypothesis device_spec : device_ok col_shift win_lo win_n effect answer.
Context (d : device).
Hypothesis backend_ok : forall log op, backend log op = answer op (regs (run d log)).

Abbreviation same := (same_regs col_shift win_lo win_n).

(** A call on the device, with nothing pending. *)
Lemma run_backend_spec c : forall (s : state) m,
  call_ok col_shift win_lo win_n c -> same (regs (run d (calls s))) m ->
  exists log, run_backend backend c s = (adds s log, Ok (direct effect answer c m).2) /\
    same (regs (run d (calls s ++ log))) (direct effect answer c m).1 /\
    bds (run d (calls s ++ log)) = bds (run d (calls s)).
Proof using device_spec backend_ok.
  induction c as [rc|op k IH]; intros s m Hok Hm; cbn [run_backend direct].
  - exists []. rewrite app_nil_r. by destruct s.
  - destruct Hok as [Hop Hok]. rewrite backend_ok, (dev_answer _ _ _ _ _ device_spec op _ _ Hop Hm). destruct (answer op m) as [rc v].
    destruct (IH rc v (adds s [BackendOp op]) (effect op m) (Hok _ _)) as (log & E & Hr & Hb).
    { cbn [calls]. rewrite run_app. by apply (dev_effect _ _ _ _ _ device_spec). }
    exists (BackendOp op :: log). rewrite E. cbn [rest calls] in *. rewrite <- app_assoc in *. split; [done|].
    split; [exact Hr|]. etransitivity; [exact Hb|]. by rewrite run_app.
Qed.
(** What the captures have left: the window is open, the segments spell the
    packets whose effect is pending, and the device with them applied is [m]. *)
Definition tracks (s : state) (m : Z -> Z) : Prop :=
  exists accs, spelled (rest s) accs /\ chain_ok (rest s) (run d (calls s)) /\ active (rest s) = true /\
    same (applied accs (regs (run d (calls s)))) m.

(** [rt_sb_cap_on] holds of the window's tiles. *)
Definition tile_ok (tile : XAie_LocType) : Prop := loc_row tile = 0 /\ win_lo <= loc_col tile < win_lo + win_n.

Abbreviation sb_call_at := (RT_SB_CALL 20 col_shift pkt_addr resp_addr false keep xaie pending_bds backend).

Lemma call_spec tile c (s : state) m :
  tracks s m -> tile_ok tile -> call_ok col_shift win_lo win_n c ->
  exists s', sb_call_at tile c s = (s', Ok (direct effect answer c m).2) /\
    tracks s' (direct effect answer c m).1.
Proof using backend_ok device_spec polls_ok shift_ok window_ok xaie_ok.
  intros (accs & Hs & Hc & Ha & Hm) [Hr Ht] Hok. unfold RT_SB_CALL. rewrite bind_gets.
  assert (rt_sb_cap_on false tile (rest s) = true) as ->.
  { unfold rt_sb_cap_on. destruct (sp_window _ _ Hs) as [-> ->]. rewrite Ha. lia. }
  cbn [negb]. rewrite bind_gets. erewrite bind_Ok by done. rewrite bind_gets. erewrite bind_Ok by done.
  cbn [upd_rest rest calls].
  pose proof (run_captured_spec effect answer device_spec c (set_bad false (rest s)) accs _ m (spelled_bad _ _ _ Hs) Hok Hm) as H.
  destruct (run_captured 20 col_shift c (set_bad false (rest s))) as [s1 rc] eqn:Ecap. cbn [fst snd].
  destruct H as (accs' & Hs1 & Hcap & H).
  assert (chain_ok s1 (run d (calls s)) /\ active s1 = true) as [Hc1 Ha1].
  { pose proof (cap_fields _ _ Hcap) as F. cbn in F. injection F as F1 _ F2 _ _ _.
    split; [|congruence]. intros Harm. apply Hc. congruence. }
  destruct ((rc =? XAIE_OK) && negb (bad s1)) eqn:Eok.
  - apply andb_true_iff in Eok as [_ Hb]. apply negb_true_iff in Hb. destruct (H Hb) as [Hm' ->].
    eexists. split; [reflexivity|]. exists accs'. done.
  - destruct (restore_spelled (rest s) s1 accs Hs Hcap) as [Hs2 Hf]. set (s2 := rt_sb_restore _ s1) in *.
    cbv zeta in Hs2, Hf. injection Hf as F1 _ F2 _.
    erewrite bind_Ok by done. cbn [upd_rest rest calls]. fold s2.
    destruct (sb_flush_spec accs (Drv s2 (calls s)) d Hs2) as (s3 & E3 & Hs3 & Hc3 & Ha3 & Hm3).
    { intros Harm. apply Hc. change (armed s1 = true) in Harm. congruence. }
    erewrite bind_Ok by exact E3. cbn [calls rest] in *.
    destruct (run_backend_spec c s3 m Hok) as (log & E4 & Hm4 & Hb4).
    { intros x Hx. rewrite Hm3 by done. by apply Hm. }
    rewrite E4. eexists. split; [reflexivity|]. exists (fun _ => []). cbn [rest calls].
    split; [done|]. split; [|split; [rewrite Ha3; change (active s1 = true); congruence|]].
    + intros Harm k Hk. rewrite Hb4. by apply Hc3.
    + intros x Hx. rewrite applied_nil by done. by apply Hm4.
Qed.

(** The window: the calls, each with its tile, and what they return. *)
Fixpoint sb_calls (cs : list (XAie_LocType * driver_call)) : stE state Z (list Z) :=
  match cs with
  | [] => mret []
  | (tile, c) :: cs => rc ← sb_call_at tile c; rcs ← sb_calls cs; mret (rc :: rcs)
  end.

Lemma calls_spec cs : forall (s : state) m,
  tracks s m -> Forall (fun tc => tile_ok tc.1 /\ call_ok col_shift win_lo win_n tc.2) cs ->
  exists s', sb_calls cs s = (s', Ok (direct_all effect answer (snd <$> cs) m).2) /\
    tracks s' (direct_all effect answer (snd <$> cs) m).1.
Proof using backend_ok device_spec polls_ok shift_ok window_ok xaie_ok.
  induction cs as [|[tile c] cs IH]; intros s m Hs Hok; [by exists s|].
  apply Forall_cons in Hok as [[Ht Hc] Hok]. cbn [fst snd] in Ht, Hc.
  destruct (call_spec tile c s m Hs Ht Hc) as (s1 & E1 & H1).
  change (sb_calls ((tile, c) :: cs)) with (rc ← sb_call_at tile c; rcs ← sb_calls cs; mret (rc :: rcs)).
  erewrite bind_Ok by exact E1. destruct (IH s1 _ H1 Hok) as (s2 & E2 & H2).
  erewrite bind_Ok by exact E2. cbn [fmap list_fmap snd direct_all].
  destruct (direct effect answer c m) as [m1 rc]. cbn [fst snd] in *.
  destruct (direct_all effect answer _ m1) as [m2 rcs]. by exists s2.
Qed.

(** Between windows. *)
Record idle (s : state) : Prop := {
  id_active : active (rest s) = false;
  id_lengths : length (seg (rest s)) = 5%nat /\ length (pkt (rest s)) = 5%nat;
  id_words : forall k, 0 <= k < win_n -> len (pkt_at (rest s) k) = RT_SB_SEG_WORDS;
  id_armed : armed (rest s) = true -> spelled (rest s) (fun _ => []) /\ chain_ok (rest s) (run d (calls s)) }.

Lemma commit_spec (s : state) m :
  tracks s m ->
  exists s', rt_sb_commit pkt_addr resp_addr keep xaie pending_bds s = (s', Ok tt) /\
    idle s' /\ same (regs (run d (calls s'))) m.
Proof using polls_ok shift_ok window_ok xaie_ok.
  intros (accs & Hs & Hc & Ha & Hm). unfold rt_sb_commit. rewrite bind_gets, Ha. cbn [when].
  destruct (kick_spec accs s d Hs Hc) as (s1 & E & Hs1 & Hc1 & _ & Hr).
  erewrite bind_Ok by exact E. eexists. split; [reflexivity|]. split.
  - destruct Hs1 as [A B C]. split; [done|exact B| |].
    + intros k Hk. apply (so_len _ _ _ _ (C k Hk)).
    + intros Harm. split; [split; [exact A|exact B|exact C]|]. intros _. by apply Hc1.
  - cbn [upd_rest calls]. intros x Hx. rewrite Hr by done. by apply Hm.
Qed.

(** [rt_sb_arm] writes the chain of the window's segments. *)
Lemma arm_spec (s : state) :
  ncols (rest s) = win_n ->
  exists s', rt_sb_arm pkt_addr resp_addr xaie s = (s', Ok XAIE_OK) /\
    rest s' = set_armed true (rest s) /\ chain_ok (rest s') (run d (calls s')) /\
    regs (run d (calls s')) = regs (run d (calls s)).
Proof using xaie_ok shift_ok window_ok.
  intros Hn. unfold rt_sb_arm. rewrite bind_gets, Hn.
  set (f := fun k => bd_calls (7 + k) (seg_addr pkt_addr k) (RT_SB_SEG_WORDS * 4)
    (if k + 1 <? win_n then Some (RT_RES_SHIMROW_BD_LO + k + 1) else None)).
  set (ack := bd_calls RT_RES_SHIMROW_ACK_BD resp_addr (win_n *u32 4) None).
  erewrite bind_Ok; [|erewrite andthen_ok by apply write_bd_ok; apply (for_ok_calls f)].
  2: { intros k st Hk. apply elem_of_seqZ in Hk. rewrite write_bd_ok. unfold f, RT_RES_SHIMROW_BD_LO.
       rewrite (u8_small (7 + k)) by lia. replace (k +u32 1) with (k + 1) by (unwrap; lia). done. }
  erewrite bind_Ok by done. cbn [upd_rest rest calls]. rewrite Z.eqb_refl. eexists. split; [reflexivity|].
  cbn [rest calls]. split; [done|]. cbn [upd_rest rest calls]. rewrite !run_app. fold ack.
  destruct (bd_calls_run effect (run d (calls s)) RT_RES_SHIMROW_ACK_BD resp_addr (win_n *u32 4) None) as (Er & Ed & _).
  fold ack in Er, Ed. set (d1 := run (run d (calls s)) ack) in *.
  destruct (bds_written effect f (fun k _ => Bd (seg_addr pkt_addr k) (RT_SB_SEG_WORDS * 4)
      (if k + 1 <? win_n then Some (RT_RES_SHIMROW_BD_LO + k + 1) else None)) win_n d1) as (Er1 & _ & Eb1); [lia| |].
  { intros i e Hi. apply bd_calls_run. }
  split; [|by rewrite Er1].
  intros _ k Hk. rewrite Eb1. unfold RT_RES_SHIMROW_BD_LO.
  replace ((7 <=? 7 + k) && (7 + k <? 7 + win_n)) with true by lia. replace (7 + k - 7) with k by lia. done.
Qed.

(** ** Windows *)

Context (shim_col : Z) (fab_rows : list (Z * Z)).
Hypothesis rows_ok : fab_rows <> [] /\ rows_span fab_rows = (win_lo, win_lo + win_n - 1) /\ shim_col + 1 = win_lo.

Abbreviation begin := (rt_sb_begin pkt_addr resp_addr shim_col false fab_rows true true xaie pending_bds).

Lemma begin_spec (s : state) :
  idle s -> exists s', begin s = (s', Ok tt) /\ tracks s' (regs (run d (calls s))).
Proof using polls_ok rows_ok shift_ok window_ok xaie_ok.
  intros [Ha [L1 L2] Hw Hi]. destruct rows_ok as (Hne & Hspan & Hcol).
  unfold rt_sb_begin. rewrite bind_gets, Ha. cbn [negb when]. rewrite bind_gets. destruct (armed (rest s)) eqn:Harm; cbn [negb when].
  { destruct (Hi eq_refl) as [[A B C] Hc]. erewrite bind_Ok by done. eexists. split; [reflexivity|]. exists (fun _ => []).
    split; [split; [exact A|exact B|exact C]|]. split; [intros _; by apply Hc|]. split; [done|].
    intros x Hx. by rewrite applied_nil. }
  unfold rt_sb_prepare.
  assert ((len fab_rows =? 0) = false) as Hrows by (destruct fab_rows; [done|unfold len; simpl; lia]).
  set (s1 := Drv (rt_sb_reset_segs (set_window win_lo (win_lo + win_n - 1) (set_ack false (ack_nseg (rest s)) (rest s))))
    (calls s ++ if ack_pending (rest s) then [GetPendingBdCount DMA_S2MM] else [])).
  assert (spelled (rest s1) (fun _ => [])) as Hs1 by (apply reset_spelled; [done..|exact Hw]).
  destruct (arm_spec s1) as (s2 & E2 & Er2 & Hc2 & Hm2); [apply (spelled_ncols _ _ Hs1)|].
  erewrite bind_Ok.
  2: { rewrite bind_gets, Ha, Hrows. cbn [negb orb]. rewrite Hspan.
    replace (shim_col +u32 1) with win_lo by (unwrap; lia). replace (u32 (win_lo + win_n - 1 - win_lo) +u32 1) with win_n by (unwrap; lia).
    rewrite Z.eqb_refl. replace (win_n >? RT_RES_SHIMROW_MAX_COLS) with false by (change RT_RES_SHIMROW_MAX_COLS with 5; lia). cbn [negb orb].
    erewrite bind_Ok by apply ack_wait_ok. erewrite bind_Ok by done. erewrite bind_Ok by done.
    cbn [upd_rest rest calls]. erewrite bind_Ok by exact E2. reflexivity. }
  eexists. split; [reflexivity|]. exists (fun _ => []). cbn [upd_rest rest calls].
  destruct Hs1 as [A B C]. rewrite Er2 in *. split; [split; [exact A|exact B|exact C]|]. split; [exact Hc2|]. split; [done|].
  intros x Hx. rewrite applied_nil by done. rewrite Hm2. cbn [calls s1]. rewrite run_app. by destruct (ack_pending (rest s)).
Qed.

(** Windows of calls, one after the other. *)
Fixpoint sb_windows (ws : list (list (XAie_LocType * driver_call))) : stE state Z (list (list Z)) :=
  match ws with
  | [] => mret []
  | cs :: ws =>
    begin ;; rcs ← sb_calls cs; rt_sb_commit pkt_addr resp_addr keep xaie pending_bds ;;
    rcss ← sb_windows ws; mret (rcs :: rcss)
  end.

(** The same calls on the device, without capturing. *)
Fixpoint direct_windows (ws : list (list (XAie_LocType * driver_call))) (m : Z -> Z) : (Z -> Z) * list (list Z) :=
  match ws with
  | [] => (m, [])
  | cs :: ws =>
    let '(m, rcs) := direct_all effect answer (snd <$> cs) m in
    let '(m, rcss) := direct_windows ws m in (m, rcs :: rcss)
  end.

Definition windows_ok (ws : list (list (XAie_LocType * driver_call))) : Prop :=
  Forall (Forall (fun tc => tile_ok tc.1 /\ call_ok col_shift win_lo win_n tc.2)) ws.

Lemma tracks_same (s : state) m m' : tracks s m -> same m m' -> tracks s m'.
Proof using. intros (accs & Hs & Hc & Ha & Hm) H. exists accs. split_and!; [done..|]. intros x Hx. by rewrite Hm, H. Qed.

Lemma windows_spec ws : forall (s : state) m,
  idle s -> windows_ok ws -> same (regs (run d (calls s))) m ->
  exists s', sb_windows ws s = (s', Ok (direct_windows ws m).2) /\ idle s' /\
    same (regs (run d (calls s'))) (direct_windows ws m).1.
Proof using backend_ok device_spec polls_ok rows_ok shift_ok window_ok xaie_ok.
  induction ws as [|cs ws IH]; intros s m Hi Hok Hm; [by exists s|].
  apply Forall_cons in Hok as [Hcs Hok]. cbn [sb_windows direct_windows].
  destruct (begin_spec s Hi) as (s1 & E1 & H1). apply (tracks_same _ _ m) in H1; [|exact Hm].
  erewrite bind_Ok by exact E1. destruct (calls_spec cs s1 m H1 Hcs) as (s2 & E2 & H2).
  erewrite bind_Ok by exact E2. destruct (direct_all effect answer (snd <$> cs) m) as [m1 rcs]. cbn [fst snd] in *.
  destruct (commit_spec s2 m1 H2) as (s3 & E3 & Hi3 & Hm3). erewrite bind_Ok by exact E3.
  destruct (IH s3 m1 Hi3 Hok Hm3) as (s4 & E4 & H4). erewrite bind_Ok by exact E4.
  destruct (direct_windows ws m1) as [m2 rcss]. by exists s4.
Qed.

(** C3.  Batching is transparent.  Over any sequence of windows of driver
    calls on the window's shim tiles (some captured and sent as packets, some
    undone and run on the device in between), every call returns what it
    returns when it is run on the device directly, in order; after each
    commit the registers are what the direct calls leave, but for the spare
    register that padding writes; and the batch is idle again.  The driver's
    own calls succeed, the polls see the acks, and what a push streams is
    executed at the push. *)
Theorem shim_batch_transparent ws (s : state) :
  idle s -> windows_ok ws ->
  let m := regs (run d (calls s)) in
  exists s', sb_windows ws s = (s', Ok (direct_windows ws m).2) /\ idle s' /\
    same (regs (run d (calls s'))) (direct_windows ws m).1.
Proof using backend_ok device_spec polls_ok rows_ok shift_ok window_ok xaie_ok.
  intros Hi Hok m. by apply windows_spec.
Qed.
End driver.
End batch.

(** ** A window of two columns *)

Module Example.
Definition effect (op : backend_op) (m : Z -> Z) : Z -> Z :=
  match op_writes op, op with
  | Some (a, ws), _ => store_words m a ws
  | None, MaskWrite32 a mask val => fun x => if x =? a then Z.lor (Z.land (m a) (Z.lnot mask)) (Z.land val mask) else m x
  | None, _ => m
  end.
Definition answer (op : backend_op) (m : Z -> Z) : Z * Z :=
  match op with Read32 a => (XAIE_OK, m a) | _ => (XAIE_OK, 0) end.

Lemma device_ok_example : device_ok 25 1 2 effect answer.
Proof.
  split.
  - intros op a ws m E. unfold effect. rewrite E. split; [done|]. by destruct op.
  - intros op m m' [_ Hr] H x Hx. unfold effect. destruct (op_writes op) as [[a ws]|].
    + unfold store_words. destruct (_ && _); [done|]. by apply H.
    + destruct op; try (by apply H). cbn in Hr. destruct (x =? _); [|by apply H]. by rewrite (H _ Hr).
  - intros op m m' [_ Hr] H. destruct op; try done. cbn in *. by rewrite H.
Qed.

Definition bd0 : bd := Bd 0 0 None.
Definition dev0 : device := Dev (fun _ => 0) (fun _ => 0) (fun _ => bd0) bd0.
Definition st0 : drv rt_sb_state sb_call :=
  Drv (Sb false false false false 0 0 0 (replicate 5 (Seg 0 RT_SB_NONE 0)) (replicate 5 (replicate 816 0))) [].
Definition reg (col off : Z) : Z := col * 2 ^ 25 + off.
Definition write (a v : Z) : driver_call := Do (Write32 a v) (fun rc _ => Return rc).
Definition incr (a : Z) : driver_call := Do (Read32 a) (fun _ v => write a (v + 1)).
Definition windows : list (list (XAie_LocType * driver_call)) :=
  [[(Loc 0 1, write (reg 1 0x1D000) 41); (Loc 0 1, incr (reg 1 0x1D000)); (Loc 0 2, write (reg 2 0x1D004) 7)];
   [(Loc 0 2, incr (reg 2 0x1D004))]].
End Example.

Lemma shim_batch_transparent_witness :
  let xaie := fun _ _ => XAIE_OK in
  let run := device_run 25 1 2 Example.effect in
  let backend := fun log op => Example.answer op (regs (run Example.dev0 log)) in
  exists s', sb_windows 25 0x4000 0x8000 true xaie (fun _ _ => 0) backend 0 [(1, 2)] Example.windows Example.st0 =
    (s', Ok [[0; 0; 0]; [0]]) /\
  regs (run Example.dev0 (calls s')) (Example.reg 1 0x1D000) = 42 /\
  regs (run Example.dev0 (calls s')) (Example.reg 2 0x1D004) = 8.
Proof.
  intros xaie run backend.
  assert (forall c off, (c = 1 \/ c = 2) -> 0 <= off < 0x7FF30 -> ~ spare 25 1 2 (Example.reg c off)) as Hsp.
  { intros c off Hc Ho (k & Hk & E). unfold Example.reg, col_base, RT_SB_PAD_OFF in E.
    rewrite Z.shiftl_mul_pow2 in E by lia. change (2 ^ 25) with 33554432 in E. lia. }
  assert (idle 25 1 2 0x4000 Example.effect Example.dev0 Example.st0) as Hidle.
  { split; [done|done| |done]. intros k Hk. assert (k = 0 \/ k = 1) as [-> | ->] by lia; reflexivity. }
  assert (windows_ok 25 1 2 Example.windows) as Hok.
  {
    assert (forall c off v, (c = 1 \/ c = 2) -> 0 <= off < 0x7FF30 -> call_ok 25 1 2 (Example.write (Example.reg c off) v)) as Hw.
    { intros c off v Hc Ho. split; [|done]. split; [|done]. unfold Example.reg. cbn [op_writes]. unfold block_ok.
      change (2 ^ (25 + 8)) with 8589934592. change (2 ^ 25) with 33554432. change (2 ^ 20) with 1048576.
      assert ((c * 33554432 + off) mod 1048576 = off) as ->.
      { replace (c * 33554432 + off) with (off + c * 32 * 1048576) by lia. rewrite Z.mod_add, Z.mod_small by lia. done. }
      change (len [v]) with 1. lia. }
    assert (forall c off, (c = 1 \/ c = 2) -> 0 <= off < 0x7FF30 -> call_ok 25 1 2 (Example.incr (Example.reg c off))) as Hi.
    { intros c off Hc Ho. split; [|intros; by apply Hw]. split; [done|]. by apply Hsp. }
    repeat apply Forall_cons_2; repeat apply Forall_nil_2; (split; [split; [done|cbn; lia]|]);
      ((apply Hw; lia) || (apply Hi; lia)). }
  assert (20 <= 25 <= 28) as H1 by lia. assert (0 <= 1 /\ 1 <= 2 <= 5 /\ 1 + 2 <= 64) as H2 by lia.
  assert ([(1, 2)] <> [] /\ rows_span [(1, 2)] = (1, 1 + 2 - 1) /\ 0 + 1 = 1) as H3 by (split; [discriminate|split; reflexivity]).
  assert (forall log op, backend log op = Example.answer op (regs (device_run 25 1 2 Example.effect Example.dev0 log))) as H4 by reflexivity.
  pose proof (shim_batch_transparent 25 1 2 H1 H2 0x4000 0x8000 true xaie (fun _ _ => 0)
    (fun _ _ => eq_refl) (fun _ _ => eq_refl)) as H.
  specialize (H Example.effect Example.answer backend Example.device_ok_example Example.dev0 H4 0 [(1, 2)] H3).
  specialize (H Example.windows Example.st0 Hidle Hok).
  cbv zeta in H. destruct H as (s' & E & _ & Hm).
  exists s'. split; [exact E|]. split; (etransitivity; [apply Hm, Hsp; lia|reflexivity]).
Defined.
