(* ===== verification/CacheSync.v ===== *)
(** * Buffers and their cache maintenance ([src/src/mlir/runtime/aie_runtime.c])

    Three tables of the runtime: the blocks mapped non-cacheable
    ([__Runtime_alloc_uncached], 2407-2455), the ranges the array writes
    ([__Runtime_buffer_device_written], 2830-2863) and the queue of maintenance
    deferred until the host would spin ([rt_dsync_run], 2865-2937).  Each
    operation returns the calls it makes to the driver and the BSP.

    The second part says what the calls do: a cache of 64-byte lines over DDR,
    which may drop or fetch a line at any time, and the array, which reads and
    writes DDR.  The main theorem is that a launch's arguments are coherent. *)

From stdpp Require Import base list list_numbers numbers gmap.
From S2P Require Import Prelude.

Local Open Scope Z_scope.
Local Open Scope c_scope.

Definition RT_NC_BLOCK : Z := 0x200000.
Definition RT_NC_MAX : Z := 4.
Definition RT_DSYNC_MAX : Z := 16.
Definition RT_DSYNC_CHUNK : Z := 16384.
Definition RT_DEVWR_MAX : Z := 8.
(** [(size_t)-1]. *)
Definition SIZE_MAX : Z := 2 ^ 64 - 1.

(** The calls: the driver's [XAie_MemSync*VAddr], the BSP's [Xil_DCache*],
    [Xil_SetTlbAttributes] ([SetTlbNonCacheable] with [NORM_NONCACHE]),
    [free], and the [dsb] instruction. *)
Inductive mem_call :=
| MemSyncForDev (dev ptr size : Z)
| MemSyncForCpu (dev ptr size : Z)
| DCacheFlush (ptr size : Z)
| DCacheInvalidate (ptr size : Z)
| SetTlbNonCacheable (ptr : Z)
| SetTlbAttributes (ptr attr : Z)
| Dsb
| Free (ptr : Z).

(** ** Non-cacheable blocks *)

Record nc_block := Nc { nc_base : Z; nc_bytes : Z; nc_attr : Z }.

Definition rt_nc_covers (nc : list nc_block) (l h : Z) : bool :=
  existsb (fun b => (nc_base b <=? l) && (h <=? nc_base b +u64 nc_bytes b)) nc.

(** [p] is the block [aligned_alloc] returned, 0 when it failed, and [entry]
    its descriptor in the translation table; [fallback] is what
    [__Runtime_Alloc] returned.  [supported] is [RT_NC_SUPPORTED]. *)
Definition __Runtime_alloc_uncached (supported : bool) (p entry fallback bytes : Z) (nc : list nc_block) :
    list nc_block * list mem_call * Z :=
  if supported && (0 <? bytes) && (bytes <=? RT_NC_BLOCK) && (len nc <? RT_NC_MAX) then
    if negb (p =? 0) && (p +u64 RT_NC_BLOCK <=? 0x100000000) then
      (nc ++ [Nc p RT_NC_BLOCK (Z.ldiff entry 0x0000FFFFFFE00000)],
       [DCacheFlush p RT_NC_BLOCK; SetTlbNonCacheable p], p)
    else (nc, [Free p], fallback)
  else (nc, [], fallback).

(** [g_nc[i] = g_nc[--g_nc_n]]: the last entry takes the place of entry [i]. *)
Definition swap_remove {A} (l : list A) (i : nat) : list A :=
  match last l with
  | Some x => take (pred (length l)) (<[i := x]> l)
  | None => l
  end.

Definition __Runtime_free_uncached (supported : bool) (ptr : Z) (nc : list nc_block) : list nc_block * list mem_call :=
  match list_find (fun b => nc_base b = ptr) nc with
  | Some (i, b) => (swap_remove nc i, (if supported then [SetTlbAttributes ptr (nc_attr b)] else []) ++ [Free ptr])
  | None => (nc, [Free ptr])
  end.

(** ** Immediate maintenance *)

Definition __Runtime_sync_for_dev (nc : list nc_block) (dev ptr size : Z) : list mem_call :=
  if rt_nc_covers nc ptr (ptr +u64 size) then [Dsb]
  else if negb (dev =? 0) then [MemSyncForDev dev ptr size]
  else [DCacheFlush ptr size].

Definition __Runtime_sync_for_cpu (dev ptr size : Z) : list mem_call :=
  if negb (dev =? 0) then [MemSyncForCpu dev ptr size] else [DCacheInvalidate ptr size].

(** ** Ranges the array writes *)

Definition __Runtime_buffer_device_written (ptr size : Z) (devwr : list (Z * Z)) : list (Z * Z) * list mem_call :=
  if (ptr =? 0) || (size =? 0) then (devwr, [])
  else
    let l := ptr in let h := l +u64 size in
    if existsb (fun r => (r.1 =? l) && (r.2 =? h)) devwr then (devwr, [])
    else if len devwr =? RT_DEVWR_MAX then (devwr, [])
    else (devwr ++ [(l, h)], [DCacheFlush ptr size]).

Definition __Runtime_buffer_forget (ptr : Z) (devwr : list (Z * Z)) : list (Z * Z) :=
  List.filter (fun r => negb (r.1 =? ptr)) devwr.

Definition rt_devwr_covers (devwr : list (Z * Z)) (l h : Z) : bool :=
  existsb (fun r => (r.1 <=? l) && (h <=? r.2)) devwr.

(** ** The queue *)

Record rt_dsync_rng := Rng { r_dev : Z; cur : Z; end_ : Z; inval_only : bool }.

Definition advance (r : rt_dsync_rng) (n : Z) : rt_dsync_rng := Rng (r_dev r) (cur r + n) (end_ r) (inval_only r).

Definition maintain (r : rt_dsync_rng) (n : Z) : mem_call :=
  if inval_only r then MemSyncForCpu (r_dev r) (cur r) n else MemSyncForDev (r_dev r) (cur r) n.

(** One pass over the queue: the queue, the calls and the budget left. *)
Fixpoint dsync_pass (pass : bool) (q : list rt_dsync_rng) (budget : Z) : list rt_dsync_rng * list mem_call * Z :=
  match q with
  | [] => ([], [], budget)
  | r :: q' =>
    if budget =? 0 then (q, [], budget)
    else if negb (Bool.eqb (inval_only r) pass) || (end_ r <=? cur r) then
      let '(q', cs, b) := dsync_pass pass q' budget in (r :: q', cs, b)
    else
      let n := if end_ r - cur r <? budget then end_ r - cur r else budget in
      let '(q', cs, b) := dsync_pass pass q' (budget - n) in (advance r n :: q', maintain r n :: cs, b)
  end.

Definition rt_dsync_run (inputs_only : bool) (budget : Z) (q : list rt_dsync_rng) : list rt_dsync_rng * list mem_call :=
  let '(q, cs0, b) := dsync_pass false q budget in
  let '(q, cs1, _) := if inputs_only then (q, [], b) else dsync_pass true q b in
  (List.filter (fun r => cur r <? end_ r) q, cs0 ++ cs1).

Definition rt_dsync_step := rt_dsync_run false RT_DSYNC_CHUNK.
Definition rt_dsync_step_inputs := rt_dsync_run true RT_DSYNC_CHUNK.
Definition rt_dsync_drain_inputs := rt_dsync_run true SIZE_MAX.
Definition __Runtime_dsync_drain := rt_dsync_run false SIZE_MAX.

Section deferred.
Context (nc : list nc_block) (devwr : list (Z * Z)).

Definition __Runtime_sync_for_dev_deferred (dev ptr size : Z) (q : list rt_dsync_rng) :
    list rt_dsync_rng * list mem_call :=
  if (ptr =? 0) || (size =? 0) then (q, [])
  else if (dev =? 0) || (len q =? RT_DSYNC_MAX) then (q, __Runtime_sync_for_dev nc dev ptr size)
  else
    let l := ptr in let h := l +u64 size in
    if rt_nc_covers nc l h then (q, [Dsb])
    else (q ++ [Rng dev l h (rt_devwr_covers devwr l h)], []).

(** What the emitted [__aie_launch] does first, for each of its arguments. *)
Fixpoint defer_all (dev : Z) (args : list (Z * Z)) (q : list rt_dsync_rng) : list rt_dsync_rng * list mem_call :=
  match args with
  | [] => (q, [])
  | (ptr, size) :: args =>
    let '(q, cs0) := __Runtime_sync_for_dev_deferred dev ptr size q in
    let '(q, cs1) := defer_all dev args q in (q, cs0 ++ cs1)
  end.
End deferred.

(** ** What the calls do

    A line is in the cache with its bytes, dirty or not, or it is not.  Lines
    are fetched and dropped at any time ([Fill], [Evict]); a dirty line that is
    dropped is written back (as a flush of its bytes does).  The lines of a non-cacheable block are never in
    the cache. *)

Definition line (x : Z) : Z := x / 64.

Record mem := Mem { ddr : Z -> Z; cache : Z -> option (bool * (Z -> Z)) }.

(** What the CPU reads. *)
Definition view (m : mem) (x : Z) : Z :=
  match cache m (line x) with Some (_, c) => c x | None => ddr m x end.

(** DDR once the dirty lines of [ls] are written back. *)
Definition written_back (ls : Z -> bool) (m : mem) (x : Z) : Z :=
  match cache m (line x) with
  | Some (true, c) => if ls (line x) then c x else ddr m x
  | _ => ddr m x
  end.

Definition drop (ls : Z -> bool) (m : mem) (l : Z) : option (bool * (Z -> Z)) :=
  if ls l then None else cache m l.

Definition clean_invalidate (ls : Z -> bool) (m : mem) : mem := Mem (written_back ls m) (drop ls m).
Definition invalidate (ls : Z -> bool) (m : mem) : mem := Mem (ddr m) (drop ls m).

(** The lines of [size] bytes at [ptr]. *)
Definition lines_of (ptr size l : Z) : bool := (0 <? size) && (line ptr <=? l) && (l <=? line (ptr + size - 1)).

Definition do_call (m : mem) (c : mem_call) : mem :=
  match c with
  | MemSyncForDev _ p n | DCacheFlush p n => clean_invalidate (lines_of p n) m
  | MemSyncForCpu _ p n | DCacheInvalidate p n => invalidate (lines_of p n) m
  | SetTlbNonCacheable _ | SetTlbAttributes _ _ | Dsb | Free _ => m
  end.
Definition do_calls (m : mem) (cs : list mem_call) : mem := foldl do_call m cs.

Inductive event :=
| Fill (l : Z)
| Evict (l : Z)
| CpuWrite (x v : Z)
| DmaWrite (x v : Z)     (* the array writes DDR *)
| Step                   (* the runtime polls *)
| StepInputs.

Section launch.
Context (nc : list nc_block) (devwr : list (Z * Z)) (dev : Z).

Definition nc_line (l : Z) : bool :=
  existsb (fun b => (line (nc_base b) <=? l) && (l <? line (nc_base b + nc_bytes b))) nc.

Definition fill (m : mem) (l : Z) : mem :=
  if nc_line l then m
  else match cache m l with
       | Some _ => m
       | None => Mem (ddr m) (fun k => if k =? l then Some (false, ddr m) else cache m k)
       end.

Definition cpu_write (m : mem) (x v : Z) : mem :=
  if nc_line (line x) then Mem (fun y => if y =? x then v else ddr m y) (cache m)
  else Mem (ddr m) (fun k => if k =? line x then Some (true, fun y => if y =? x then v else view m y) else cache m k).

Definition machine : Type := mem * list rt_dsync_rng.

Definition polls (f : list rt_dsync_rng -> list rt_dsync_rng * list mem_call) (s : machine) : machine :=
  let '(q, cs) := f s.2 in (do_calls s.1 cs, q).

Definition happens (s : machine) (e : event) : machine :=
  match e with
  | Fill l => (fill s.1 l, s.2)
  | Evict l => (do_call s.1 (DCacheFlush (64 * l) 1), s.2)
  | CpuWrite x v => (cpu_write s.1 x v, s.2)
  | DmaWrite x v => (Mem (fun y => if y =? x then v else ddr s.1 y) (cache s.1), s.2)
  | Step => polls rt_dsync_step s
  | StepInputs => polls rt_dsync_step_inputs s
  end.
Definition happen (s : machine) (es : list event) : machine := foldl happens s es.

(** A launch: the arguments are queued, the kernel is loaded ([pre]), the
    first data-plane DMA starts, the array runs ([during]), and the queue is
    drained.  The memory when the DMA starts and at the end, and the queue. *)
Definition launch (args : list (Z * Z)) (pre during : list event) (m : mem) : mem * machine :=
  let '(q, cs) := defer_all nc devwr dev args [] in
  let s := polls rt_dsync_drain_inputs (happen (do_calls m cs, q) pre) in
  (s.1, polls __Runtime_dsync_drain (happen s during)).

(** The lines of the arguments. *)
Definition arg_line (args : list (Z * Z)) (l : Z) : bool :=
  existsb (fun a => negb (a.1 =? 0) && lines_of a.1 a.2 l) args.

(** What the array last wrote. *)
Definition dma_writes (es : list event) (d : Z -> Z) : Z -> Z :=
  foldl (fun d e => match e with DmaWrite x v => fun y => if y =? x then v else d y | _ => d end) d es.

(** While the kernel is loaded the array does not write the arguments' lines,
    and the CPU writes none of them throughout the launch. *)
Definition pre_ok (args : list (Z * Z)) (e : event) : Prop :=
  match e with
  | CpuWrite x _ | DmaWrite x _ => arg_line args (line x) = false
  | Step => False
  | _ => True
  end.
Definition during_ok (args : list (Z * Z)) (e : event) : Prop :=
  match e with CpuWrite x _ => arg_line args (line x) = false | _ => True end.
Definition no_fill (args : list (Z * Z)) (e : event) : Prop :=
  match e with Fill l => arg_line args l = false | _ => True end.

(** The arguments are ranges of the address space; the lines of those
    registered as written by the array are not dirty; clean lines agree with
    DDR; and no non-cacheable line is cached. *)
Record args_ok (args : list (Z * Z)) (m : mem) : Prop := {
  ao_range : Forall (fun a => 0 <= a.1 /\ 0 <= a.2 /\ a.1 + a.2 < 2 ^ 64) args;
  ao_total : foldr Z.add 0 (snd <$> args) < 2 ^ 64;
  ao_written : forall a l c, a ∈ args -> rt_devwr_covers devwr a.1 (a.1 +u64 a.2) = true -> lines_of a.1 a.2 l = true ->
    cache m l <> Some (true, c);
  ao_clean : forall x c, arg_line args (line x) = true -> cache m (line x) = Some (false, c) -> c x = ddr m x;
  ao_nc : forall l, nc_line l = true -> cache m l = None;
  ao_blocks : Forall (fun b => nc_base b mod 64 = 0 /\ nc_bytes b mod 64 = 0 /\ 0 <= nc_base b /\ 0 <= nc_bytes b /\ nc_base b + nc_bytes b < 2 ^ 64) nc }.
End launch.

(** ** Calls, line by line *)

Definition touches (l : Z) (c : mem_call) : bool :=
  match c with
  | MemSyncForDev _ p n | DCacheFlush p n | MemSyncForCpu _ p n | DCacheInvalidate p n => lines_of p n l
  | _ => false
  end.
Definition writes_back (c : mem_call) : bool :=
  match c with MemSyncForCpu _ _ _ | DCacheInvalidate _ _ => false | _ => true end.

Definition dirty (m : mem) (l : Z) : Prop := exists c, cache m l = Some (true, c).
Definition coherent_at (m : mem) (l : Z) : Prop :=
  forall x c, line x = l -> cache m l = Some (false, c) -> c x = ddr m x.

Lemma call_cache l m c : cache (do_call m c) l = if touches l c then None else cache m l.
Proof. by destruct c. Qed.

Lemma calls_cache l cs : forall m, cache (do_calls m cs) l = if existsb (touches l) cs then None else cache m l.
Proof.
  induction cs as [|c cs IH]; intros m; [done|]. cbn [do_calls foldl existsb]. unfold do_calls in IH.
  rewrite IH, call_cache. by destruct (touches l c), (existsb _ cs).
Qed.

Lemma calls_clean l cs m : ~ dirty m l -> ~ dirty (do_calls m cs) l.
Proof. intros H (c & E). rewrite calls_cache in E. apply H. exists c. by destruct (existsb _ cs). Qed.

Lemma call_view l m c :
  writes_back c = true -> coherent_at m l ->
  coherent_at (do_call m c) l /\ forall x, line x = l -> view (do_call m c) x = view m x.
Proof.
  intros Hw Hc.
  assert (forall ls, coherent_at (clean_invalidate ls m) l /\ forall x, line x = l -> view (clean_invalidate ls m) x = view m x) as H.
  { intros ls. unfold coherent_at, view, clean_invalidate, drop, written_back. cbn [ddr cache]. split.
    - intros x c' Hx E. rewrite Hx. destruct (ls l); [done|]. rewrite E. by apply Hc.
    - intros x Hx. rewrite Hx. destruct (ls l), (cache m l) as [[[] c']|] eqn:E; try done. symmetry. by apply Hc. }
  destruct c; try discriminate; cbn [do_call]; auto.
Qed.

Lemma calls_view l cs : forall m,
  Forall (fun c => writes_back c = true) cs -> coherent_at m l ->
  coherent_at (do_calls m cs) l /\ forall x, line x = l -> view (do_calls m cs) x = view m x.
Proof.
  induction cs as [|c cs IH]; intros m Hw Hc; [done|]. apply Forall_cons in Hw as [Hw Hws].
  destruct (call_view l m c Hw Hc) as [Hc1 Hv1]. destruct (IH _ Hws Hc1) as [Hc2 Hv2].
  split; [exact Hc2|]. intros x Hx. etransitivity; [by apply Hv2|by apply Hv1].
Qed.

Lemma call_ddr l m c x : line x = l -> ~ dirty m l -> ddr (do_call m c) x = ddr m x.
Proof.
  intros Hx Hd. assert (forall ls, written_back ls m x = ddr m x) as H; [|destruct c; cbn [do_call]; done || apply H].
  intros ls. unfold written_back. rewrite Hx. destruct (cache m l) as [[[] c']|] eqn:E; try done. destruct Hd. by exists c'.
Qed.

Lemma calls_ddr l cs x : line x = l -> forall m, ~ dirty m l -> ddr (do_calls m cs) x = ddr m x.
Proof.
  intros Hx. induction cs as [|c cs IH]; intros m Hd; [done|]. cbn [do_calls foldl]. unfold do_calls in IH.
  rewrite IH; [by apply (call_ddr l)|]. apply (calls_clean l [c] m Hd).
Qed.

Lemma view_ddr m x : coherent_at m (line x) -> ~ dirty m (line x) -> view m x = ddr m x.
Proof.
  intros Hc Hd. unfold view. destruct (cache m (line x)) as [[[] c]|] eqn:E; [|by apply Hc|done]. destruct Hd. by exists c.
Qed.

(** ** The queue *)

(** The lines still to be maintained, by kind. *)
Definition pending (f : bool) (l : Z) (q : list rt_dsync_rng) : bool :=
  existsb (fun r => Bool.eqb (inval_only r) f && lines_of (cur r) (end_ r - cur r) l) q.
(** The bytes. *)
Definition left_of (f : bool) (r : rt_dsync_rng) : Z :=
  if Bool.eqb (inval_only r) f then Z.max 0 (end_ r - cur r) else 0.
Definition left (f : bool) (q : list rt_dsync_rng) : Z := foldr (fun r n => left_of f r + n) 0 q.

Lemma left_of_nonneg f r : 0 <= left_of f r.
Proof. unfold left_of. destruct (Bool.eqb _ _); lia. Qed.

Lemma left_cons f r q : left f (r :: q) = left_of f r + left f q.
Proof. done. Qed.

Lemma left_snoc f q r : left f (q ++ [r]) = left f q + left_of f r.
Proof. induction q as [|r' q IH]; [cbn; lia|]. rewrite <- app_comm_cons, !left_cons, IH. lia. Qed.

Lemma left_nonneg f q : 0 <= left f q.
Proof. induction q as [|r q IH]; [done|]. rewrite left_cons. pose proof (left_of_nonneg f r). lia. Qed.

Lemma lines_split p n k l : 0 < n -> 0 <= k -> lines_of p (n + k) l = lines_of p n l || lines_of (p + n) k l.
Proof.
  intros Hn Hk. unfold lines_of, line. destruct (Z.eq_dec k 0) as [->|].
  { rewrite Z.add_0_r, orb_comm. done. }
  assert (p / 64 <= (p + n - 1) / 64 /\ (p + n) / 64 <= (p + n + k - 1) / 64 /\ (p + n - 1) / 64 <= (p + n) / 64 <= (p + n - 1) / 64 + 1).
  { pose proof (Z.div_mod p 64). pose proof (Z.mod_pos_bound p 64). pose proof (Z.div_mod (p + n - 1) 64). pose proof (Z.mod_pos_bound (p + n - 1) 64).
    pose proof (Z.div_mod (p + n) 64). pose proof (Z.mod_pos_bound (p + n) 64). pose proof (Z.div_mod (p + n + k - 1) 64). pose proof (Z.mod_pos_bound (p + n + k - 1) 64). lia. }
  replace (p + (n + k) - 1) with (p + n + k - 1) by lia. lia.
Qed.

(** What a pass over the queue has done. *)
Record passed (p : bool) (q : list rt_dsync_rng) (b : Z) (q' : list rt_dsync_rng) (cs : list mem_call) (b' : Z) : Prop := {
  pa_budget : 0 <= b' <= b /\ left p q' + b = left p q + b' ;
  pa_calls : Forall (fun c => writes_back c = negb p) cs;
  pa_other : forall f l, f <> p -> pending f l q' = pending f l q /\ left f q' = left f q;
  pa_pending : forall l, pending p l q = pending p l q' || existsb (touches l) cs;
  pa_enough : left p q <= b -> left p q' = 0 }.

Lemma pass_spec p q : forall b, 0 <= b ->
  let '(q', cs, b') := dsync_pass p q b in passed p q b q' cs b'.
Proof.
  induction q as [|r q IH]; intros b Hb; cbn [dsync_pass].
  { split; [cbn; lia|done|done|done|done]. }
  destruct (Z.eqb_spec b 0) as [->|Hb0].
  { split; [lia|done|done|by intros; rewrite orb_false_r|]. pose proof (left_nonneg p (r :: q)). lia. }
  destruct (negb (Bool.eqb (inval_only r) p) || (end_ r <=? cur r)) eqn:Eskip.
  - specialize (IH b Hb). destruct (dsync_pass p q b) as [[q' cs] b'].
    destruct IH as [Hbud Hcs Hoth Hpend Hen].
    assert (left_of p r = 0) as El by (unfold left_of; destruct (Bool.eqb _ _); cbn in Eskip; lia).
    split; cbn [left foldr pending existsb]; unfold left, pending in *; [rewrite El; lia|done| | |].
    + intros f l Hf. destruct (Hoth f l Hf) as [-> ->]. done.
    + intros l. rewrite Hpend. by rewrite orb_assoc.
    + rewrite El. lia.
  - apply orb_false_iff in Eskip as [Ep Ec]. apply negb_false_iff, Bool.eqb_prop in Ep.
    set (n := if end_ r - cur r <? b then end_ r - cur r else b).
    assert (0 < n <= b /\ n <= end_ r - cur r /\ (n = b \/ n = end_ r - cur r)) as (Hn & Hle & Heq) by (unfold n; destruct (Z.ltb_spec (end_ r - cur r) b); lia).
    specialize (IH (b - n) ltac:(lia)). destruct (dsync_pass p q (b - n)) as [[q' cs] b'].
    destruct IH as [Hbud Hcs Hoth Hpend Hen].
    assert (left_of p (advance r n) = left_of p r - n) as El.
    { unfold left_of, advance. cbn [inval_only end_ cur]. rewrite Ep, eqb_reflx. lia. }
    split; cbn [left foldr pending existsb]; unfold left, pending in *.
    + rewrite El. lia.
    + constructor; [|done]. unfold maintain. rewrite Ep. by destruct p.
    + intros f l Hf. destruct (Hoth f l Hf) as [-> ->]. unfold left_of, advance. cbn [inval_only end_ cur]. rewrite Ep.
      assert (Bool.eqb p f = false) as -> by (destruct p, f; done). done.
    + intros l. rewrite Hpend. cbn [advance inval_only cur end_]. rewrite Ep, eqb_reflx. cbn [andb].
      assert (touches l (maintain r n) = lines_of (cur r) n l) as -> by (unfold maintain; by destruct (inval_only r)).
      replace (end_ r - cur r) with (n + (end_ r - (cur r + n))) by lia. rewrite lines_split by lia.
      destruct (lines_of (cur r) n l), (lines_of (cur r + n) _ l), (existsb _ q'), (existsb _ cs); done.
    + rewrite El. intros Hl. pose proof (left_nonneg p q) as Hnn. unfold left in Hnn.
      assert (left_of p r = end_ r - cur r) by (unfold left_of; rewrite Ep, eqb_reflx; lia). lia.
Qed.

Lemma compact_pending f l q : pending f l (List.filter (fun r => cur r <? end_ r) q) = pending f l q.
Proof.
  unfold pending. induction q as [|r q IH]; [done|]. cbn [List.filter existsb]. destruct (Z.ltb_spec (cur r) (end_ r)) as [|H].
  - cbn [existsb]. by rewrite IH.
  - rewrite IH. assert (lines_of (cur r) (end_ r - cur r) l = false) as -> by (unfold lines_of; lia). by rewrite andb_false_r.
Qed.

Lemma compact_left f q : left f (List.filter (fun r => cur r <? end_ r) q) = left f q.
Proof.
  unfold left. induction q as [|r q IH]; [done|]. cbn [List.filter foldr]. destruct (Z.ltb_spec (cur r) (end_ r)) as [|H].
  - cbn [foldr]. by rewrite IH.
  - rewrite IH. assert (left_of f r = 0) as ->; [|lia]. unfold left_of. destruct (Bool.eqb _ _); lia.
Qed.

Lemma left_zero_pending f l q : left f q = 0 -> pending f l q = false.
Proof.
  induction q as [|r q IH]; [done|]. rewrite left_cons. intros H.
  pose proof (left_nonneg f q). pose proof (left_of_nonneg f r). unfold pending in *. cbn [existsb].
  rewrite IH by lia. assert (left_of f r = 0) as Hr by lia. unfold left_of in Hr.
  destruct (Bool.eqb _ _); [|done]. cbn [andb]. unfold lines_of. lia.
Qed.

(** A run of the maintenance, with a budget. *)
Lemma run_inputs_spec b q : 0 <= b ->
  let '(q', cs) := rt_dsync_run true b q in
  Forall (fun c => writes_back c = true) cs /\
  (forall l, pending true l q' = pending true l q) /\ left true q' = left true q /\
  (forall l, pending false l q = pending false l q' || existsb (touches l) cs) /\
  left false q' <= left false q /\ (left false q <= b -> left false q' = 0).
Proof.
  intros Hb. unfold rt_dsync_run. pose proof (pass_spec false q b Hb) as H.
  destruct (dsync_pass false q b) as [[q1 cs] b1]. destruct H as [Hbud Hcs Hoth Hpend Hen].
  rewrite app_nil_r, !compact_left. split_and!; [exact Hcs|..].
  - intros l. rewrite compact_pending. by apply Hoth.
  - by apply (Hoth true 0).
  - intros l. rewrite compact_pending. apply Hpend.
  - lia.
  - exact Hen.
Qed.

Lemma run_all_spec b q : 0 <= b ->
  let '(q', cs) := rt_dsync_run false b q in
  (forall f l, pending f l q = true -> pending f l q' = true \/ existsb (touches l) cs = true) /\
  (forall f, left f q' <= left f q) /\ (left false q + left true q <= b -> q' = []).
Proof.
  intros Hb. unfold rt_dsync_run. pose proof (pass_spec false q b Hb) as H0.
  destruct (dsync_pass false q b) as [[q1 cs0] b1]. destruct H0 as [Hbud0 _ Hoth0 Hpend0 Hen0].
  pose proof (pass_spec true q1 b1 ltac:(lia)) as H1.
  destruct (dsync_pass true q1 b1) as [[q2 cs1] b2]. destruct H1 as [Hbud1 _ Hoth1 Hpend1 Hen1].
  destruct (Hoth0 true 0 ltac:(done)) as [_ El1]. destruct (Hoth1 false 0 ltac:(done)) as [_ El2].
  split_and!.
  - intros [] l; rewrite compact_pending, existsb_app.
    + destruct (Hoth0 true l ltac:(done)) as [<- _]. rewrite Hpend1. intros [|]%orb_true_iff; rewrite ?orb_true_iff; auto.
    + destruct (Hoth1 false l ltac:(done)) as [-> _]. rewrite Hpend0. intros [|]%orb_true_iff; rewrite ?orb_true_iff; auto.
  - intros f. rewrite compact_left. destruct f; lia.
  - intros Hl. pose proof (left_nonneg false q). pose proof (left_nonneg true q).
    assert (left false q2 = 0 /\ left true q2 = 0) as [E0 E1] by lia.
    clear - E0 E1. induction q2 as [|r q2 IH]; [done|]. rewrite left_cons in E0, E1.
    pose proof (left_nonneg false q2). pose proof (left_nonneg true q2).
    pose proof (left_of_nonneg false r). pose proof (left_of_nonneg true r).
    assert (left_of false r = 0 /\ left_of true r = 0) as [F0 F1] by lia.
    cbn [List.filter]. assert ((cur r <? end_ r) = false) as ->; [|apply IH; lia].
    unfold left_of in F0, F1. destruct (inval_only r); cbn [Bool.eqb] in F0, F1; lia.
Qed.

(** ** A launch, line by line *)

Section launch.
Context (nc : list nc_block) (devwr : list (Z * Z)) (dev : Z).
Context (args : list (Z * Z)) (m0 : mem).
Hypothesis Hargs : args_ok nc devwr args m0.

Lemma nc_covers_line p n l :
  0 <= p -> 0 <= n -> p + n < 2 ^ 64 -> rt_nc_covers nc p (p +u64 n) = true -> lines_of p n l = true -> nc_line nc l = true.
Proof using Hargs.
  intros Hp Hn Hpn Hc Hl. rewrite u64_small in Hc by lia. unfold rt_nc_covers in Hc. apply existsb_exists in Hc as (b & Hb & Hc).
  pose proof (ao_blocks _ _ _ _ Hargs) as H. rewrite Forall_forall in H. apply list_elem_of_In in Hb as Hb'.
  destruct (H b Hb') as (M1 & M2 & B1 & B2 & B3). rewrite u64_small in Hc by lia.
  unfold nc_line. apply existsb_exists. exists b. split; [done|]. unfold lines_of, line in *.
  assert ((nc_base b + nc_bytes b) mod 64 = 0) by (rewrite Z.add_mod, M1, M2 by lia; done).
  pose proof (Z.div_le_mono (nc_base b) p 64 ltac:(lia) ltac:(lia)).
  assert ((p + n - 1) / 64 < (nc_base b + nc_bytes b) / 64); [|lia].
  pose proof (Z.div_mod (p + n - 1) 64). pose proof (Z.mod_pos_bound (p + n - 1) 64).
  pose proof (Z.div_mod (nc_base b + nc_bytes b) 64). lia.
Qed.

(** The bytes of a list of arguments. *)
Definition bytes_of (todo : list (Z * Z)) : Z := foldr Z.add 0 (snd <$> todo).

Section line.
Context (l : Z).

(** Before the first DMA: the CPU's view is kept, and a dirty line is still to
    be maintained. *)
Record queued (todo : list (Z * Z)) (s : machine) : Prop := {
  qu_view : forall x, line x = l -> view s.1 x = view m0 x;
  qu_coherent : coherent_at s.1 l;
  qu_dirty : dirty s.1 l -> dirty m0 l /\ (pending false l s.2 = true \/ arg_line todo l = true);
  qu_nc : nc_line nc l = true -> cache s.1 l = None }.

(** A line that nothing fetches is absent once it is maintained. *)
Definition absent_done (todo : list (Z * Z)) (s : machine) : Prop :=
  cache s.1 l <> None -> pending false l s.2 = true \/ pending true l s.2 = true \/ arg_line todo l = true.

Definition bounded (todo : list (Z * Z)) (q : list rt_dsync_rng) : Prop :=
  left false q + left true q + bytes_of todo <= bytes_of args.

Lemma queued_calls todo m q cs q' :
  queued todo (m, q) -> Forall (fun c => writes_back c = true) cs ->
  (forall f, pending f l q = true -> existsb (touches l) cs = false -> pending f l q' = true) ->
  queued todo (do_calls m cs, q').
Proof using.
  intros [Hv Hc Hd Hn] Hcs Hp. cbn [fst snd] in *. destruct (calls_view l cs m Hcs Hc) as [Hc' Hv']. split; cbn [fst snd].
  - intros x Hx. rewrite Hv' by done. by apply Hv.
  - exact Hc'.
  - intros (c & E). rewrite calls_cache in E. destruct (existsb (touches l) cs) eqn:Et; [done|].
    destruct (Hd ltac:(by exists c)) as [H0 [H|H]]; split; auto.
  - intros H. rewrite calls_cache, Hn by done. by destruct (existsb _ cs).
Qed.

Lemma absent_calls todo m q cs q' :
  absent_done todo (m, q) -> (forall f, pending f l q = true -> existsb (touches l) cs = false -> pending f l q' = true) ->
  absent_done todo (do_calls m cs, q').
Proof using.
  intros H Hp Hc. cbn [fst snd] in *. rewrite calls_cache in Hc. destruct (existsb (touches l) cs) eqn:Et; [done|].
  destruct (H Hc) as [H1|[H1|H1]]; auto.
Qed.

(** Queueing an argument. *)
Lemma defer_spec p n todo m q :
  0 <= p -> 0 <= n -> p + n < 2 ^ 64 -> (p, n) ∈ args ->
  let '(q', cs) := __Runtime_sync_for_dev_deferred nc devwr dev p n q in
  (queued ((p, n) :: todo) (m, q) -> queued todo (do_calls m cs, q')) /\
  (queued ((p, n) :: todo) (m, q) -> absent_done ((p, n) :: todo) (m, q) -> absent_done todo (do_calls m cs, q')) /\
  (bounded ((p, n) :: todo) q -> bounded todo q').
Proof using Hargs.
  intros Hp Hn Hpn Hin. unfold __Runtime_sync_for_dev_deferred.
  assert (arg_line ((p, n) :: todo) l = (negb (p =? 0) && lines_of p n l) || arg_line todo l) as Ea by done.
  assert (bounded ((p, n) :: todo) q -> bounded todo q) as Hb by (unfold bounded, bytes_of; cbn; lia).
  assert (forall cs, Forall (fun c => writes_back c = true) cs ->
    (negb (p =? 0) && lines_of p n l = true -> queued ((p, n) :: todo) (m, q) -> existsb (touches l) cs = true \/ cache m l = None) ->
    (queued ((p, n) :: todo) (m, q) -> queued todo (do_calls m cs, q)) /\
    (queued ((p, n) :: todo) (m, q) -> absent_done ((p, n) :: todo) (m, q) -> absent_done todo (do_calls m cs, q))) as Hnow.
  { intros cs Hcs Ht. split; intros Hq.
    - destruct (queued_calls _ m q cs q Hq Hcs ltac:(auto)) as [Hv Hc Hd Hnc]. split; [exact Hv|exact Hc| |exact Hnc].
      intros Hdirty. destruct (Hd Hdirty) as [H0 [H|H]]; [auto|]. split; [done|]. rewrite Ea in H. apply orb_true_iff in H as [H|H]; [|auto].
      destruct Hdirty as (c & E). cbn [fst] in E. rewrite calls_cache in E. destruct (Ht H Hq) as [Et|E0]; [by rewrite Et in E|].
      rewrite E0 in E. by destruct (existsb _ cs).
    - intros Hab Hc. pose proof (absent_calls _ m q cs q Hab ltac:(auto) Hc) as H. cbn [fst snd] in *.
      destruct H as [H|[H|H]]; auto. rewrite Ea in H. apply orb_true_iff in H as [H|H]; [|auto].
      rewrite calls_cache in Hc. destruct (Ht H Hq) as [Et|E0]; [by rewrite Et in Hc|]. rewrite E0 in Hc. by destruct (existsb _ cs). }
  assert (rt_nc_covers nc p (p +u64 n) = true -> lines_of p n l = true -> queued ((p, n) :: todo) (m, q) -> cache m l = None) as Hnc.
  { intros Hcov Hl Hq. apply (qu_nc _ _ Hq). by apply (nc_covers_line p n). }
  destruct ((p =? 0) || (n =? 0)) eqn:E0.
  { destruct (Hnow [] ltac:(done)) as [H1 H2]; [|split_and!; auto]. intros H. unfold lines_of in H. lia. }
  destruct ((dev =? 0) || (len q =? RT_DSYNC_MAX)).
  { unfold __Runtime_sync_for_dev. destruct (rt_nc_covers nc p (p +u64 n)) eqn:Ecov.
    { destruct (Hnow [Dsb]) as [H1 H2]; [by repeat constructor| |split_and!; auto]. intros [_ Hl]%andb_true_iff Hq. auto. }
    destruct (negb (dev =? 0)).
    - destruct (Hnow [MemSyncForDev dev p n]) as [H1 H2]; [by repeat constructor| |split_and!; auto].
      intros [_ Hl]%andb_true_iff Hq. left. cbn. by rewrite Hl.
    - destruct (Hnow [DCacheFlush p n]) as [H1 H2]; [by repeat constructor| |split_and!; auto].
      intros [_ Hl]%andb_true_iff Hq. left. cbn. by rewrite Hl. }
  cbv zeta. destruct (rt_nc_covers nc p (p +u64 n)) eqn:Ecov.
  { destruct (Hnow [Dsb]) as [H1 H2]; [by repeat constructor| |split_and!; auto]. intros [_ Hl]%andb_true_iff Hq. auto. }
  rewrite u64_small by lia. set (r := Rng dev p (p + n) (rt_devwr_covers devwr p (p + n))).
  assert (forall f, pending f l (q ++ [r]) = pending f l q || (Bool.eqb (inval_only r) f && lines_of p n l)) as Ep.
  { intros f. unfold pending. rewrite existsb_app. cbn [existsb r inval_only cur end_]. replace (p + n - p) with n by lia. by rewrite orb_false_r. }
  split_and!.
  - intros [Hv Hc Hd Hn']. split; cbn [fst snd do_calls foldl]; [exact Hv|exact Hc| |exact Hn'].
    intros Hdirty. destruct (Hd Hdirty) as [H0 H]. split; [done|]. rewrite Ep. destruct H as [H|H]; [cbn [snd] in H; rewrite H; auto|].
    rewrite Ea in H. apply orb_true_iff in H as [[_ H]%andb_true_iff|H]; [|auto].
    left. rewrite H. destruct (inval_only r) eqn:Er; [|by rewrite orb_true_r].
    destruct H0 as (c & E). exfalso. apply (ao_written _ _ _ _ Hargs (p, n) l c Hin); [|done|done].
    cbn [fst snd]. rewrite u64_small by lia. exact Er.
  - intros _ Hab Hc. cbn [fst snd do_calls foldl] in *. rewrite !Ep. destruct (Hab Hc) as [H|[H|H]]; cbn [snd] in H; rewrite ?H; auto.
    rewrite Ea in H. apply orb_true_iff in H as [[_ H]%andb_true_iff|H]; [|auto].
    rewrite H. destruct (inval_only r); cbn; rewrite orb_true_r; auto.
  - unfold bounded, bytes_of. cbn [fmap list_fmap foldr snd].
    rewrite !left_snoc.
    assert (left_of false r + left_of true r = n); [|lia].
    unfold left_of, r. cbn [inval_only end_ cur]. destruct (rt_devwr_covers _ _ _); cbn; lia.
Qed.

Lemma defer_all_spec todo : forall m q,
  todo ⊆ args ->
  let '(q', cs) := defer_all nc devwr dev todo q in
  (queued todo (m, q) -> queued [] (do_calls m cs, q')) /\
  (queued todo (m, q) -> absent_done todo (m, q) -> absent_done [] (do_calls m cs, q')) /\
  (bounded todo q -> bounded [] q').
Proof using Hargs.
  induction todo as [|[p n] todo IH]; intros m q Hsub; cbn [defer_all]; [by split_and!|].
  assert ((p, n) ∈ args) as Hin by (apply Hsub; by left).
  pose proof (ao_range _ _ _ _ Hargs) as Hr. rewrite Forall_forall in Hr. destruct (Hr _ Hin) as (R1 & R2 & R3).
  pose proof (defer_spec p n todo m q R1 R2 R3 Hin) as H.
  destruct (__Runtime_sync_for_dev_deferred _ _ _ _ _ _) as [q1 cs1]. destruct H as (A1 & A2 & A3).
  specialize (IH (do_calls m cs1) q1 ltac:(intros x Hx; apply Hsub; by right)).
  destruct (defer_all nc devwr dev todo q1) as [q2 cs2]. destruct IH as (B1 & B2 & B3).
  unfold do_calls in *. rewrite foldl_app. split_and!; auto.
Qed.
(** Events on other lines. *)
Definition elsewhere (m m' : mem) : Prop :=
  cache m' l = cache m l /\ forall x, line x = l -> ddr m' x = ddr m x.

Lemma fill_line m k :
  ddr (fill nc m k) = ddr m /\
  (cache (fill nc m k) l = cache m l \/
   (k = l /\ nc_line nc l = false /\ cache m l = None /\ cache (fill nc m k) l = Some (false, ddr m))).
Proof using.
  unfold fill. destruct (nc_line nc k) eqn:En; [auto|]. destruct (cache m k) eqn:Ek; [auto|]. split; [done|]. cbn [cache].
  destruct (Z.eqb_spec l k) as [->|]; auto.
Qed.

Lemma cpu_write_elsewhere m x v : line x <> l -> elsewhere m (cpu_write nc m x v).
Proof using.
  intros H. unfold cpu_write. destruct (nc_line nc (line x)); split; cbn [cache ddr]; try done.
  - intros y Hy. destruct (Z.eqb_spec y x) as [->|]; done.
  - destruct (Z.eqb_spec l (line x)) as [E|]; [by rewrite E in H|done].
Qed.

Lemma dma_elsewhere m x v : line x <> l -> elsewhere m (Mem (fun y => if y =? x then v else ddr m y) (cache m)).
Proof using. intros H. split; [done|]. intros y Hy. cbn [ddr]. destruct (Z.eqb_spec y x) as [->|]; done. Qed.

Lemma elsewhere_queued todo m m' q : elsewhere m m' -> queued todo (m, q) -> queued todo (m', q).
Proof using.
  intros [Ec Ed] [Hv Hc Hd Hn]. cbn [fst snd] in *. split; cbn [fst snd].
  - intros x Hx. rewrite <- Hv by done. unfold view. rewrite Hx, Ec, Ed by done. done.
  - intros x c Hx E. rewrite Ed by done. apply Hc; [done|congruence].
  - intros (c & E). apply Hd. exists c. congruence.
  - intros H. rewrite Ec. auto.
Qed.

Context (Hl : arg_line args l = true).

Lemma poll_bounds f b q :
  0 <= b -> let '(q', _) := rt_dsync_run f b q in bounded [] q -> bounded [] q'.
Proof using.
  intros Hb. destruct f.
  - pose proof (run_inputs_spec b q Hb) as H. destruct (rt_dsync_run true b q) as [q' cs].
    destruct H as (_ & _ & H1 & _ & H2 & _). unfold bounded. lia.
  - pose proof (run_all_spec b q Hb) as H. destruct (rt_dsync_run false b q) as [q' cs].
    destruct H as (_ & H & _). pose proof (H true). pose proof (H false). unfold bounded. lia.
Qed.

Lemma run_bounded s f : bounded [] s.2 -> bounded [] (polls (rt_dsync_run f SIZE_MAX) s).2.
Proof using.
  unfold polls. pose proof (poll_bounds f SIZE_MAX s.2 ltac:(done)) as P. destruct (rt_dsync_run f _ _). auto.
Qed.

Lemma happens_bounded s e : bounded [] s.2 -> bounded [] (happens nc s e).2.
Proof using.
  intros H. destruct e; cbn [happens snd]; try exact H; unfold polls, rt_dsync_step, rt_dsync_step_inputs.
  - pose proof (poll_bounds false RT_DSYNC_CHUNK s.2 ltac:(done)) as P. destruct (rt_dsync_run false _ _). auto.
  - pose proof (poll_bounds true RT_DSYNC_CHUNK s.2 ltac:(done)) as P. destruct (rt_dsync_run true _ _). auto.
Qed.

(** The maintenance of inputs, any budget. *)
Lemma poll_inputs b s :
  0 <= b -> queued [] s ->
  queued [] (polls (rt_dsync_run true b) s) /\ (absent_done [] s -> absent_done [] (polls (rt_dsync_run true b) s)).
Proof using.
  intros Hb Hq. destruct s as [m q]. unfold polls. cbn [fst snd]. pose proof (run_inputs_spec b q Hb) as H.
  destruct (rt_dsync_run true b q) as [q' cs]. destruct H as (Hcs & Ht & _ & Hf & _).
  assert (forall f, pending f l q = true -> existsb (touches l) cs = false -> pending f l q' = true) as Hp.
  { intros [] P Et; [by rewrite Ht|]. rewrite Hf, Et, orb_false_r in P. done. }
  split; [by eapply queued_calls|]. intros Hab. by eapply absent_calls.
Qed.

Lemma happens_queued s e : pre_ok args e -> queued [] s -> queued [] (happens nc s e).
Proof using Hl.
  intros He Hq. destruct s as [m q]. destruct e; cbn [happens fst snd pre_ok] in *.
  - destruct (fill_line m l0) as [Ed [Ec|(-> & En & E0 & Ec)]].
    + apply (elsewhere_queued _ m); [|done]. split; [done|]. intros. by rewrite Ed.
    + destruct Hq as [Hv Hc Hd Hn]. cbn [fst snd] in *. split; cbn [fst snd].
      * intros x Hx. rewrite <- Hv by done. unfold view. by rewrite Hx, Ec, E0.
      * intros x c Hx E. rewrite Ec in E. injection E as <-. by rewrite Ed.
      * intros (c & E). rewrite Ec in E. discriminate.
      * congruence.
  - apply (queued_calls [] m q [DCacheFlush (64 * l0) 1] q Hq); [by repeat constructor|auto].
  - apply (elsewhere_queued _ m); [|done]. apply cpu_write_elsewhere. congruence.
  - apply (elsewhere_queued _ m); [|done]. apply dma_elsewhere. congruence.
  - done.
  - apply poll_inputs; [done|exact Hq].
Qed.

Lemma happens_absent s e :
  no_fill args e -> during_ok args e -> absent_done [] s -> absent_done [] (happens nc s e).
Proof using Hl.
  intros Hf Hw Hab. destruct s as [m q].
  destruct e; cbn [happens fst snd no_fill during_ok] in *.
  - intros Hc. apply Hab. cbn [fst snd] in *. destruct (fill_line m l0) as [_ [Ec|(-> & _)]]; congruence.
  - apply (absent_calls [] m q [DCacheFlush (64 * l0) 1] q Hab). auto.
  - intros Hc. apply Hab. cbn [fst snd] in *. destruct (cpu_write_elsewhere m x v) as [Ec _]; congruence.
  - exact Hab.
  - unfold polls, rt_dsync_step. cbn [fst snd]. pose proof (run_all_spec RT_DSYNC_CHUNK q ltac:(done)) as H.
    destruct (rt_dsync_run _ _ _) as [q' cs]. destruct H as (H & _). apply (absent_calls [] m q); [done|].
    intros f P Et. destruct (H f l P); congruence.
  - unfold polls, rt_dsync_step_inputs. cbn [fst snd]. pose proof (run_inputs_spec RT_DSYNC_CHUNK q ltac:(done)) as H.
    destruct (rt_dsync_run _ _ _) as [q' cs]. destruct H as (_ & Ht & _ & Hp & _). apply (absent_calls [] m q); [done|].
    intros [] P Et; [by rewrite Ht|]. rewrite Hp, Et, orb_false_r in P. done.
Qed.

(** While the array runs: the line is not dirty, so DDR changes only by the
    array's writes. *)
Lemma happens_running s e :
  during_ok args e -> ~ dirty s.1 l ->
  ~ dirty (happens nc s e).1 l /\ forall x, line x = l -> ddr (happens nc s e).1 x = dma_writes [e] (ddr s.1) x.
Proof using Hl.
  intros He Hd. destruct s as [m q].
  assert (forall cs, ~ dirty (do_calls m cs) l /\ forall x, line x = l -> ddr (do_calls m cs) x = ddr m x) as Hcalls.
  { intros cs. split; [by apply calls_clean|]. intros x Hx. by apply (calls_ddr l). }
  destruct e; cbn [happens fst snd during_ok dma_writes foldl] in *.
  - destruct (fill_line m l0) as [Ed Ec]. split; [|intros; by rewrite Ed].
    intros (c & E). destruct Ec as [Ec|(_ & _ & _ & Ec)]; [|congruence]. apply Hd. exists c. congruence.
  - exact (Hcalls [DCacheFlush (64 * l0) 1]).
  - destruct (cpu_write_elsewhere m x v ltac:(congruence)) as [Ec Ed]. split; [|exact Ed].
    intros (c & E). apply Hd. exists c. congruence.
  - split; [exact Hd|]. intros y Hy. done.
  - unfold polls. cbn [fst snd]. destruct (rt_dsync_step q). apply Hcalls.
  - unfold polls. cbn [fst snd]. destruct (rt_dsync_step_inputs q). apply Hcalls.
Qed.

Lemma happen_pre es : forall s,
  Forall (pre_ok args) es -> queued [] s -> bounded [] s.2 ->
  queued [] (happen nc s es) /\ bounded [] (happen nc s es).2 /\
  (Forall (no_fill args) es -> absent_done [] s -> absent_done [] (happen nc s es)).
Proof using Hl.
  induction es as [|e es IH]; intros s Hes Hq Hb; [by split_and!|]. apply Forall_cons in Hes as [He Hes].
  cbn [happen foldl]. destruct (IH (happens nc s e)) as (A & B & C); [done|by apply happens_queued|by apply happens_bounded|].
  split; [exact A|]. split; [exact B|]. intros [Hf Hfs]%Forall_cons Hab. apply C; [done|].
  apply happens_absent; [done| |done]. destruct e; cbn in *; auto.
Qed.

Lemma dma_writes_ext es : forall d d' x, d x = d' x -> dma_writes es d x = dma_writes es d' x.
Proof using.
  induction es as [|e es IH]; intros d d' x H; [done|]. cbn [dma_writes foldl]. apply IH. destruct e; try done. by case_match.
Qed.

Lemma happen_during es : forall s,
  Forall (during_ok args) es -> ~ dirty s.1 l -> bounded [] s.2 ->
  ~ dirty (happen nc s es).1 l /\ bounded [] (happen nc s es).2 /\
  (forall x, line x = l -> ddr (happen nc s es).1 x = dma_writes es (ddr s.1) x) /\
  (Forall (no_fill args) es -> absent_done [] s -> absent_done [] (happen nc s es)).
Proof using Hl.
  induction es as [|e es IH]; intros s Hes Hd Hb; [by split_and!|]. apply Forall_cons in Hes as [He Hes].
  destruct (happens_running s e He Hd) as [Hd1 Hx1].
  cbn [happen foldl]. destruct (IH (happens nc s e) Hes Hd1 (happens_bounded s e Hb)) as (A & B & C & D).
  split; [exact A|]. split; [exact B|]. split.
  - intros x Hx. rewrite C by done. apply (dma_writes_ext es). by apply Hx1.
  - intros [Hf Hfs]%Forall_cons Hab. apply D; [done|]. by apply happens_absent.
Qed.

(** The line once the first DMA may start, and at the end. *)
Lemma launch_line pre during :
  Forall (pre_ok args) pre -> Forall (during_ok args) during ->
  let '(m1, (m2, _)) := launch nc devwr dev args pre during m0 in
  (forall x, line x = l -> ddr m1 x = view m0 x /\ ddr m2 x = dma_writes during (ddr m1) x) /\
  (Forall (no_fill args) (pre ++ during) -> cache m2 l = None).
Proof using Hl Hargs.
  intros Hpre Hdur. unfold launch. pose proof (defer_all_spec args m0 [] ltac:(done)) as H.
  destruct (defer_all nc devwr dev args []) as [q0 cs0]. destruct H as (Hq & Hab & Hb).
  assert (queued args (m0, [])) as Hq0.
  { split; cbn [fst snd]; [done| | |].
    - intros x c Hx E. apply (ao_clean _ _ _ _ Hargs x c); by rewrite Hx.
    - intros H. split; auto.
    - apply (ao_nc _ _ _ _ Hargs). }
  specialize (Hq Hq0). specialize (Hab Hq0 ltac:(right; right; exact Hl)).
  specialize (Hb ltac:(unfold bounded; cbn; lia)). set (s0 := (do_calls m0 cs0, q0) : machine) in *.
  destruct (happen_pre pre s0 Hpre Hq Hb) as (Hq1 & Hb1 & Hab1). set (s1 := happen nc s0 pre) in *.
  assert (bytes_of args <= SIZE_MAX) as Htot.
  { pose proof (ao_total _ _ _ _ Hargs). unfold bytes_of, SIZE_MAX. lia. }
  destruct (poll_inputs SIZE_MAX s1 ltac:(done) Hq1) as [Hq2 Hab2].
  unfold rt_dsync_drain_inputs. set (s2 := polls (rt_dsync_run true SIZE_MAX) s1) in *.
  assert (bounded [] s2.2 /\ left false s2.2 = 0) as [Hb2 Hleft2].
  { pose proof (poll_bounds true SIZE_MAX s1.2 ltac:(done)) as P. pose proof (run_inputs_spec SIZE_MAX s1.2 ltac:(done)) as R.
    unfold s2, polls. destruct (rt_dsync_run true SIZE_MAX s1.2) as [q' cs]. cbn [snd]. destruct R as (_ & _ & _ & _ & _ & R).
    split; [auto|]. apply R. pose proof (left_nonneg true s1.2). unfold bounded in Hb1. change (bytes_of []) with 0 in Hb1. lia. }
  assert (~ dirty s2.1 l) as Hd2.
  { intros Hd. destruct (qu_dirty _ _ Hq2 Hd) as [_ [H|H]]; [|done]. by rewrite left_zero_pending in H. }
  destruct (happen_during during s2 Hdur Hd2 Hb2) as (Hd3 & Hb3 & Hx3 & Hab3).
  unfold polls at 1, __Runtime_dsync_drain. set (s3 := happen nc s2 during) in *.
  pose proof (run_all_spec SIZE_MAX s3.2 ltac:(done)) as R.
  destruct (rt_dsync_run false SIZE_MAX s3.2) as [q' cs]. destruct R as (Hp & _ & Hnil).
  assert (q' = []) as ->.
  { apply Hnil. unfold bounded in Hb3. change (bytes_of []) with 0 in Hb3. lia. }
  cbn [fst snd]. split.
  - intros x Hx. split.
    + rewrite <- (qu_view _ _ Hq2 x Hx). symmetry. apply view_ddr; rewrite Hx; [apply Hq2|exact Hd2].
    + rewrite (calls_ddr l) by done. by apply Hx3.
  - intros [Hf1 Hf2]%Forall_app. specialize (Hab3 Hf2 (Hab2 (Hab1 Hf1 Hab))). rewrite calls_cache.
    destruct (existsb (touches l) cs) eqn:Et; [done|]. destruct (cache s3.1 l) eqn:Ec; [|done]. exfalso.
    assert (cache s3.1 l <> None) as Hne by congruence.
    destruct (Hab3 Hne) as [H|[H|H]]; [| |done]; destruct (Hp _ l H) as [H1|H1]; [done|congruence|done|congruence].
Qed.
End line.

Lemma happen_bounded es : forall s, bounded [] s.2 -> bounded [] (happen nc s es).2.
Proof using.
  induction es as [|e es IH]; intros s Hb; [done|]. apply IH. by apply happens_bounded.
Qed.

Lemma launch_drained pre during : (launch nc devwr dev args pre during m0).2.2 = [].
Proof using Hargs.
  unfold launch. pose proof (defer_all_spec 0 args m0 [] ltac:(done)) as H.
  destruct (defer_all nc devwr dev args []) as [q0 cs0]. destruct H as (_ & _ & Hb).
  specialize (Hb ltac:(unfold bounded; cbn; lia)). cbn [snd].
  apply (happen_bounded pre (do_calls m0 cs0, q0)), (run_bounded _ true), (happen_bounded during) in Hb.
  unfold __Runtime_dsync_drain, rt_dsync_drain_inputs. set (s3 := happen nc _ during) in *.
  unfold polls at 1. pose proof (run_all_spec SIZE_MAX s3.2 ltac:(done)) as R.
  destruct (rt_dsync_run false SIZE_MAX s3.2) as [q' cs]. destruct R as (_ & _ & Hnil). cbn [snd]. apply Hnil.
  pose proof (ao_total _ _ _ _ Hargs). unfold bounded in Hb. change (bytes_of []) with 0 in Hb. unfold bytes_of, SIZE_MAX in *. lia.
Qed.

(** C33.  The arguments of a launch are coherent, whatever the cache fetches
    and drops meanwhile and however the maintenance is cut into chunks: when
    the first data-plane DMA may start, DDR holds every argument as the CPU
    sees it; at the end DDR holds what the array last wrote, and nothing
    queued is left.  If no line of the arguments was fetched during the
    launch, the CPU then reads what is in DDR. *)
Theorem launch_coherent pre during :
  Forall (pre_ok args) pre -> Forall (during_ok args) during ->
  let '(m1, (m2, q)) := launch nc devwr dev args pre during m0 in
  q = [] /\
  forall x, arg_line args (line x) = true ->
    ddr m1 x = view m0 x /\ ddr m2 x = dma_writes during (ddr m1) x /\
    (Forall (no_fill args) (pre ++ during) -> view m2 x = ddr m2 x).
Proof using Hargs.
  intros Hpre Hdur. pose proof (fun l Hl => launch_line l Hl pre during Hpre Hdur) as H.
  pose proof (launch_drained pre during) as Hq. destruct (launch nc devwr dev args pre during m0) as [m1 [m2 q]].
  split; [exact Hq|]. intros x Hx. destruct (H (line x) Hx) as [Hd Hc]. destruct (Hd x eq_refl) as [H1 H2].
  split; [exact H1|]. split; [exact H2|]. intros Hf. unfold view. by rewrite (Hc Hf).
Qed.
End launch.

(** ** Examples *)

Module Example.
Definition nc : list nc_block := [Nc 0x200000 0x200000 0x711].
Definition devwr : list (Z * Z) := [(0x20000, 0x20100)].
(** An input with a dirty line, an output the array writes, and a staging
    buffer in a non-cacheable block. *)
Definition args : list (Z * Z) := [(0x10000, 100); (0x20000, 0x100); (0x200040, 64)].
Definition m0 : mem :=
  Mem (fun _ => 1) (fun l => if l =? 0x400 then Some (true, fun _ => 5) else None).
Definition pre : list event := [Fill 0x401; Evict 0x400; CpuWrite 0x30000 8; StepInputs].
Definition during : list event := [Step; DmaWrite 0x20010 9; Evict 0x800; Fill 0x801].

Lemma args_ok_example : args_ok nc devwr args m0.
Proof.
  split.
  - repeat constructor; cbn; lia.
  - cbn. lia.
  - intros a l c Ha Hw Hl. cbn. destruct (Z.eqb_spec l 0x400) as [->|]; [|done].
    unfold args in Ha. rewrite !elem_of_cons in Ha. destruct Ha as [-> |[-> |[-> |Ha]]]; [done..|by apply not_elem_of_nil in Ha].
  - intros x c _. cbn. by destruct (line x =? 0x400).
  - intros l Hl. cbn. destruct (Z.eqb_spec l 0x400) as [->|]; done.
  - repeat constructor; cbn; lia.
Qed.
End Example.

Lemma launch_coherent_witness :
  let '(m1, (m2, q)) := launch Example.nc Example.devwr 1 Example.args Example.pre Example.during Example.m0 in
  q = [] /\ ddr m1 0x10000 = 5 /\ ddr m2 0x10000 = 5 /\ ddr m2 0x20010 = 9.
Proof.
  pose proof (launch_coherent Example.nc Example.devwr 1 Example.args Example.m0 Example.args_ok_example
    Example.pre Example.during ltac:(repeat constructor) ltac:(repeat constructor)) as H.
  destruct (launch _ _ _ _ _ _ _) as [m1 [m2 q]]. destruct H as [Hq H]. split; [exact Hq|].
  destruct (H 0x10000 eq_refl) as (H1 & H2 & _). destruct (H 0x20010 eq_refl) as (_ & H3 & _).
  rewrite H2, H3, H1. by split_and!.
Defined.

(** An output the array writes is invalidated while the array still
    writes it, and not again: a line fetched in between is stale when the
    launch returns, and the CPU does not read the array's result. *)
Theorem early_invalidate_stale :
  let during := [Step; Fill 0x800; DmaWrite 0x20010 9] in
  let '(_, (m, q)) := launch Example.nc Example.devwr 1 Example.args Example.pre during Example.m0 in
  q = [] /\ ddr m 0x20010 = 9 /\ view m 0x20010 = 1.
Proof. vm_compute. done. Qed.
