(* ===== verification/Partitions.v ===== *)
(** * Partitions ([src/src/mlir/runtime/aie_runtime.c], 3000-3419)

    A partition of the array is one device instance, allocated on the heap and
    set up through the driver in a fixed order; the registry keeps one per mesh,
    so that launches on the same mesh reuse it.  The driver and the heap are
    third-party code: calls are logged, and what they return is a parameter.
    Logging, the debug dumps of a teardown and [__Runtime_free_all_allocs], which
    only logs, are left out; the build is the
    bare-metal one of a second or later generation device ([AIE_GEN >= 2]). *)

From stdpp Require Import base list list_numbers numbers gmap.
From S2P Require Import Prelude.
From S2P Require Import Driver.

Local Open Scope Z_scope.
Local Open Scope c_scope.

Definition PARTITION_REGISTRY_MAX : Z := 16.

(** A device instance is its address, 0 for [NULL]; so is a routing function.
    [Calloc p] is a [calloc] that returned [p].  The option of
    [PartitionInitialize] says whether the control packets' TLAST error is
    disabled. *)
Inductive part_call :=
| Calloc (p : Z)
| SetupPartitionConfig (dev base startCol numCols : Z)
| SetXprodEnable (dev : Z)
| CfgInitialize (dev : Z)
| SetIOBackend (dev : Z)
| UpdateNpiAddr (dev addr : Z)
| PartitionInitialize (dev : Z) (tlasterror_disable : bool)
| CoreProcessorBusEnable (dev : Z) (tile : XAie_LocType)
| InitRoutingHandler (dev : Z)
| Route (route dev : Z)
| PartitionTeardown (dev : Z)
| FreeDev (dev : Z).

Record PartitionRegistryEntry := Entry { meshId : Z; e_dev : Z; e_route : Z }.

(** [g_partition_registry], [g_pending_routing], [g_partition_gen],
    [g_ctrl_high_throughput_ready], [g_DevInst]. *)
Record parts := Parts {
  registry : list PartitionRegistryEntry; pending_routing : Z; partition_gen : Z; ht_ready : bool; DevInst : Z }.

Definition set_registry (r : list PartitionRegistryEntry) (s : parts) : parts :=
  Parts r (pending_routing s) (partition_gen s) (ht_ready s) (DevInst s).
Definition set_pending (p : Z) (s : parts) : parts :=
  Parts (registry s) p (partition_gen s) (ht_ready s) (DevInst s).
Definition bump_gen (s : parts) : parts :=
  Parts (registry s) (pending_routing s) (partition_gen s +u32 1) (ht_ready s) (DevInst s).
Definition set_ready (b : bool) (s : parts) : parts :=
  Parts (registry s) (pending_routing s) (partition_gen s) b (DevInst s).
Definition set_DevInst (d : Z) (s : parts) : parts :=
  Parts (registry s) (pending_routing s) (partition_gen s) (ht_ready s) d.

Section partitions.
(** [AIE_GEN == 5]; the driver's backend is the bare-metal one; the linked
    [routing()], 0 when there is none; [g_ctrl_high_throughput]; the debug flag
    that skips teardowns; and the base addresses and the column shift. *)
Context (gen5 baremetal : bool) (routing : Z) (high_throughput skip_teardown : bool) (base_addr col_shift : Z).
(** The driver's return codes, the heap, and the geometry an instance gets. *)
Context (xaie : list part_call -> part_call -> Z) (heap : list part_call -> Z).
Context (row_start num_rows num_cols : Z -> Z).

Abbreviation M := (stE (drv parts part_call) Z).
Abbreviation ask c := (call xaie c).
Abbreviation upd f := (modify (upd_rest f)).
Abbreviation get f := (gets (fun s => f (rest s))).

Definition calloc : M Z := fun s =>
  let p := heap (calls s) in (Drv (rest s) (calls s ++ [Calloc p]), Ok p).

(** Freeing the instance on an error path. *)
Definition fail_free (dev : Z) : M Z := ask (FreeDev dev) ;; mret 0.

Definition __Runtime_partition_initialize (dev : Z) : M Z :=
  upd (set_ready false) ;;
  if gen5 && high_throughput then
    rc ← ask (PartitionInitialize dev true);
    when (rc =? XAIE_OK) (upd (set_ready true)) ;;
    mret rc
  else ask (PartitionInitialize dev false).

(** The last failure, if any. *)
Fixpoint enable_buses (dev rc : Z) (tiles : list XAie_LocType) : M Z :=
  match tiles with
  | [] => mret rc
  | t :: tiles => r ← ask (CoreProcessorBusEnable dev t); enable_buses dev (if negb (r =? XAIE_OK) then r else rc) tiles
  end.

Definition __Runtime_enable_core_proc_bus (dev : Z) : M Z :=
  if gen5 then
    enable_buses dev XAIE_OK
      (range 0 (num_cols dev) ≫= fun col =>
         (fun row => Loc row col) <$> range (row_start dev) (u8 (row_start dev + num_rows dev)))
  else mret XAIE_OK.

Definition __Runtime_routing_init (dev : Z) : M unit :=
  ask (InitRoutingHandler dev) ;;
  p ← get pending_routing;
  let route := if negb (p =? 0) then p else routing in
  when (negb (route =? 0)) (ask (Route route dev) ;; mret tt).

(** From [CfgInitialize] on, the same for the whole array and a partition. *)
Definition init_rest (dev : Z) : M Z :=
  when gen5 (ask (SetXprodEnable dev) ;; mret tt) ;;
  rc ← ask (CfgInitialize dev);
  if negb (rc =? XAIE_OK) then fail_free dev
  else
    ask (SetIOBackend dev) ;;
    rc ← (if baremetal then ask (UpdateNpiAddr dev (if gen5 then 0xf6d50000 else 0xF6D10000)) else mret XAIE_OK);
    if negb (rc =? XAIE_OK) then fail_free dev
    else
      rc ← __Runtime_partition_initialize dev;
      if negb (rc =? XAIE_OK) then fail_free dev
      else
        __Runtime_enable_core_proc_bus dev ;;
        __Runtime_routing_init dev ;;
        upd (set_DevInst dev) ;;
        mret dev.

Definition __Runtime_explicit_init : M Z :=
  upd bump_gen ;;
  dev ← calloc;
  if dev =? 0 then mret 0 else init_rest dev.

Definition __Runtime_explicit_init_partition (startCol numCols : Z) : M Z :=
  upd bump_gen ;;
  dev ← calloc;
  if dev =? 0 then mret 0
  else
    rc ← ask (SetupPartitionConfig dev (base_addr +u64 u64 (Z.shiftl startCol col_shift)) startCol numCols);
    if negb (rc =? XAIE_OK) then fail_free dev else init_rest dev.

Definition __Runtime_device_teardown (dev : Z) : M unit :=
  when (negb skip_teardown) (ask (PartitionTeardown dev) ;; mret tt).

Definition __Runtime_explicit_teardown (dev : Z) : M unit :=
  when (negb (dev =? 0))
    (upd bump_gen ;;
     __Runtime_device_teardown dev ;;
     ask (FreeDev dev) ;;
     mret tt).

(** ** The registry *)

Definition has_mesh (m : Z) (e : PartitionRegistryEntry) : bool := meshId e =? m.

Definition __Runtime_partition_is_initialized (m : Z) (s : parts) : bool := existsb (has_mesh m) (registry s).

Definition __Runtime_get_partition_dev (m : Z) (s : parts) : Z :=
  match List.find (has_mesh m) (registry s) with Some e => e_dev e | None => 0 end.

Definition __Runtime_register_partition (m dev : Z) (s : parts) : parts :=
  if len (registry s) >=? PARTITION_REGISTRY_MAX then s
  else set_registry (registry s ++ [Entry m dev (pending_routing s)]) s.

(** The first entry of the mesh, replaced by the last entry. *)
Fixpoint registry_remove (m : Z) (r : list PartitionRegistryEntry) : list PartitionRegistryEntry :=
  match r with
  | [] => []
  | e :: r =>
    if has_mesh m e then match last r with Some x => x :: take (pred (length r)) r | None => [] end
    else e :: registry_remove m r
  end.

Definition init_new (m startCol numCols route : Z) : M Z :=
  upd (set_pending route) ;;
  dev ← __Runtime_explicit_init_partition startCol numCols;
  when (negb (dev =? 0)) (upd (__Runtime_register_partition m dev)) ;;
  upd (set_pending 0) ;;
  mret dev.

Definition __Runtime_init_mesh_partition_with (m startCol numCols route : Z) : M Z :=
  r ← get registry;
  match List.find (has_mesh m) r with
  | Some e =>
    if e_route e =? route then mret (e_dev e)
    else
      __Runtime_explicit_teardown (e_dev e) ;;
      upd (set_registry (registry_remove m r)) ;;
      init_new m startCol numCols route
  | None => init_new m startCol numCols route
  end.

Definition __Runtime_init_mesh_partition (m startCol numCols : Z) : M Z :=
  __Runtime_init_mesh_partition_with m startCol numCols 0.

Definition __Runtime_teardown_all : M unit :=
  r ← get registry;
  forM (e_dev <$> r) __Runtime_explicit_teardown ;;
  upd (set_registry []).
End partitions.

(** ** The life of an instance *)

Inductive stage := Fresh | Configured | Ready | TornDown.

#[export] Instance stage_eq_dec : EqDecision stage.
Proof. solve_decision. Defined.

(** What the driver and the heap ask of their caller: the instances allocated
    and not freed, each with its stage, before and after a call that returned
    [rc].  A partition is set up before the instance is configured, initialised
    after, routed once it is ready, and torn down before it is freed. *)
Inductive step (rc : Z) : part_call -> gmap Z stage -> gmap Z stage -> Prop :=
| step_calloc p st : p <> 0 -> st !! p = None -> step rc (Calloc p) st (<[p := Fresh]> st)
| step_calloc_fails st : step rc (Calloc 0) st st
| step_setup dev b l n st : st !! dev = Some Fresh -> step rc (SetupPartitionConfig dev b l n) st st
| step_xprod dev st : st !! dev = Some Fresh -> step rc (SetXprodEnable dev) st st
| step_cfg dev st : st !! dev = Some Fresh -> rc = XAIE_OK -> step rc (CfgInitialize dev) st (<[dev := Configured]> st)
| step_cfg_fails dev st : st !! dev = Some Fresh -> rc <> XAIE_OK -> step rc (CfgInitialize dev) st st
| step_backend dev st : st !! dev = Some Configured -> step rc (SetIOBackend dev) st st
| step_npi dev a st : st !! dev = Some Configured -> step rc (UpdateNpiAddr dev a) st st
| step_init dev b st : st !! dev = Some Configured -> rc = XAIE_OK -> step rc (PartitionInitialize dev b) st (<[dev := Ready]> st)
| step_init_fails dev b st : st !! dev = Some Configured -> rc <> XAIE_OK -> step rc (PartitionInitialize dev b) st st
| step_bus dev t st : st !! dev = Some Ready -> step rc (CoreProcessorBusEnable dev t) st st
| step_handler dev st : st !! dev = Some Ready -> step rc (InitRoutingHandler dev) st st
| step_route r dev st : st !! dev = Some Ready -> step rc (Route r dev) st st
| step_teardown dev st : st !! dev = Some Ready -> step rc (PartitionTeardown dev) st (<[dev := TornDown]> st)
| step_free dev g st : st !! dev = Some g -> g <> Ready -> step rc (FreeDev dev) st (delete dev st).

(** A log of calls, from the empty heap. *)
Inductive valid (xaie : list part_call -> part_call -> Z) : list part_call -> gmap Z stage -> Prop :=
| valid_nil : valid xaie [] ∅
| valid_snoc log c st st' : valid xaie log st -> step (xaie log c) c st st' -> valid xaie (log ++ [c]) st'.

(** ** Rules *)

Section rules.
Context (xaie : list part_call -> part_call -> Z).
Abbreviation M := (stE (drv parts part_call) Z).

(** From a valid log and [P] of the state, the log stays valid and [Q] holds. *)
Definition triple {A} (P : parts -> gmap Z stage -> Prop) (m : M A) (Q : A -> parts -> gmap Z stage -> Prop) : Prop :=
  forall s st, valid xaie (calls s) st -> P (rest s) st ->
  match m s with
  | (s', Ok a) => exists st', valid xaie (calls s') st' /\ Q a (rest s') st'
  | (_, Err _) => False
  end.

Lemma triple_bind {A B} P (m : M A) Q (k : A -> M B) R :
  triple P m Q -> (forall a, triple (Q a) (k a) R) -> triple P (m ≫= k) R.
Proof using.
  intros Hm Hk s st Hv Hp. specialize (Hm s st Hv Hp). unfold mbind, stE_bind. destruct (m s) as [s1 [a|e]]; [|done].
  destruct Hm as (st1 & Hv1 & Hq). by apply (Hk a s1 st1).
Qed.

Lemma triple_ret {A} (a : A) (P : parts -> gmap Z stage -> Prop) Q : (forall ps st, P ps st -> Q a ps st) -> triple P (mret a) Q.
Proof using. intros H s st Hv Hp. exists st. auto. Qed.

Lemma triple_upd f (P : parts -> gmap Z stage -> Prop) Q :
  (forall ps st, P ps st -> Q tt (f ps) st) -> triple P (modify (upd_rest f)) Q.
Proof using. intros H s st Hv Hp. exists st. split; [exact Hv|]. by apply H. Qed.

Lemma triple_get {A} (f : parts -> A) (P : parts -> gmap Z stage -> Prop) Q :
  (forall ps st, P ps st -> Q (f ps) ps st) -> triple P (gets (fun s => f (rest s))) Q.
Proof using. intros H s st Hv Hp. exists st. auto. Qed.

Lemma triple_call c (P : parts -> gmap Z stage -> Prop) Q :
  (forall rc ps st, P ps st -> exists st', step rc c st st' /\ Q rc ps st') -> triple P (call xaie c) Q.
Proof using.
  intros H s st Hv Hp. destruct (H (xaie (calls s) c) _ _ Hp) as (st' & Hs & Hq). exists st'. split; [|exact Hq].
  by econstructor.
Qed.

Lemma triple_pre {A} (P P' : parts -> gmap Z stage -> Prop) (m : M A) Q :
  (forall ps st, P ps st -> P' ps st) -> triple P' m Q -> triple P m Q.
Proof using. intros H Ht s st Hv Hp. exact (Ht s st Hv (H _ _ Hp)). Qed.

Lemma triple_post {A} P (m : M A) (Q Q' : A -> parts -> gmap Z stage -> Prop) :
  (forall a ps st, Q a ps st -> Q' a ps st) -> triple P m Q -> triple P m Q'.
Proof using.
  intros H Ht s st Hv Hp. specialize (Ht s st Hv Hp). destruct (m s) as [s' [a|e]]; [|done].
  destruct Ht as (st' & Hv' & Hq). eauto.
Qed.

(** The precondition as facts about a fixed state. *)
Lemma triple_fix {A} (P : parts -> gmap Z stage -> Prop) (m : M A) Q :
  (forall ps st, P ps st -> triple (fun ps' st' => ps' = ps /\ st' = st) m Q) -> triple P m Q.
Proof using. intros H s st Hv Hp. exact (H _ _ Hp s st Hv (conj eq_refl eq_refl)). Qed.

Lemma triple_when (b : bool) P (m : M unit) Q :
  (b = true -> triple P m Q) -> (b = false -> forall ps st, P ps st -> Q tt ps st) -> triple P (when b m) Q.
Proof using. intros Ht Hf. destruct b; [by apply Ht|]. apply triple_ret. auto. Qed.
End rules.

(** ** Setting a partition up and tearing it down *)

Section setup.
Context (gen5 baremetal : bool) (routing : Z) (high_throughput : bool) (base_addr col_shift : Z).
Context (xaie : list part_call -> part_call -> Z) (heap : list part_call -> Z).
Context (row_start num_rows num_cols : Z -> Z).
(** The heap returns no address that is in use. *)
Hypothesis heap_ok : forall log st, valid xaie log st -> heap log <> 0 -> st !! heap log = None.

Abbreviation Triple := (triple xaie).

(** Only the fields of the registry matter below. *)
Definition same_registry (ps ps' : parts) : Prop :=
  registry ps' = registry ps /\ pending_routing ps' = pending_routing ps.

Abbreviation at_ ps0 st0 := (fun ps st => same_registry ps0 ps /\ st = st0).

Ltac same := intros; repeat match goal with H : _ /\ _ |- _ => destruct H end; subst; split; [done|]; by simplify_map_eq.

(** A call that needs the instance in some stage and changes nothing. *)
Lemma call_keeps ps0 st0 c :
  (forall rc, step rc c st0 st0) -> Triple (at_ ps0 st0) (call xaie c) (fun _ => at_ ps0 st0).
Proof using. intros H. apply triple_call. intros rc ps st [Hs ->]. exists st0. auto. Qed.

Lemma calloc_spec ps0 st0 :
  Triple (at_ ps0 st0) (calloc heap)
    (fun p ps st => same_registry ps0 ps /\
       ((p = 0 /\ st = st0) \/ (p <> 0 /\ st0 !! p = None /\ st = <[p := Fresh]> st0))).
Proof using heap_ok.
  intros s st Hv [Hs ->]. unfold calloc. cbn [calls rest]. destruct (Z.eq_dec (heap (calls s)) 0) as [E|E].
  - exists st0. split; [|split; [exact Hs|left; auto]]. eapply valid_snoc; [exact Hv|]. rewrite E. constructor.
  - pose proof (heap_ok _ _ Hv E) as Hn. exists (<[heap (calls s) := Fresh]> st0).
    split; [|split; [exact Hs|right; auto]]. eapply valid_snoc; [exact Hv|]. by constructor.
Qed.

Lemma fail_free_spec ps0 st0 dev g :
  st0 !! dev = None -> g <> Ready ->
  Triple (at_ ps0 (<[dev := g]> st0)) (fail_free xaie dev) (fun p ps st => same_registry ps0 ps /\ p = 0 /\ st = st0).
Proof using.
  intros Hn Hg. unfold fail_free. eapply triple_bind.
  - apply triple_call with (Q := fun _ => at_ ps0 st0). intros rc ps st [Hs ->]. eexists. split.
    + econstructor; [apply lookup_insert_eq|done].
    + split; [done|]. by rewrite delete_insert_id.
  - intros ?. cbn beta. apply triple_ret. intros ps st [Hs ->]. auto.
Qed.

Lemma buses_spec ps0 st0 dev tiles : forall rc,
  st0 !! dev = Some Ready -> Triple (at_ ps0 st0) (enable_buses xaie dev rc tiles) (fun _ => at_ ps0 st0).
Proof using.
  induction tiles as [|t tiles IH]; intros rc Hr; cbn [enable_buses]; [by apply triple_ret|].
  eapply triple_bind; [apply call_keeps; by constructor|]. intros r. by apply IH.
Qed.

Lemma partition_initialize_spec ps0 st0 dev :
  st0 !! dev = Some Configured ->
  Triple (at_ ps0 st0) (__Runtime_partition_initialize gen5 high_throughput xaie dev)
    (fun rc ps st => same_registry ps0 ps /\ st = if decide (rc = XAIE_OK) then <[dev := Ready]> st0 else st0).
Proof using.
  intros Hc. unfold __Runtime_partition_initialize.
  eapply triple_bind; [apply triple_upd with (Q := fun _ => at_ ps0 st0); by intros ps st [[] ->]|]. intros ?. cbn beta.
  assert (forall b, Triple (at_ ps0 st0) (call xaie (PartitionInitialize dev b))
    (fun rc ps st => same_registry ps0 ps /\ st = if decide (rc = XAIE_OK) then <[dev := Ready]> st0 else st0)) as H.
  { intros b. apply triple_call. intros rc ps st [Hs ->]. case_decide.
    - eexists. split; [by constructor|]. auto.
    - exists st0. split; [by constructor|]. auto. }
  destruct (gen5 && high_throughput); [|apply H].
  eapply triple_bind; [apply H|]. intros rc. eapply triple_bind.
  - apply triple_when with (Q := fun _ ps st => same_registry ps0 ps /\ st = if decide (rc = XAIE_OK) then <[dev := Ready]> st0 else st0); [|auto].
    intros ?. cbn beta. apply triple_upd. by intros ps st [[] ->].
  - intros ?. cbn beta. by apply triple_ret.
Qed.

Lemma routing_init_spec ps0 st0 dev :
  st0 !! dev = Some Ready -> Triple (at_ ps0 st0) (__Runtime_routing_init routing xaie dev) (fun _ => at_ ps0 st0).
Proof using.
  intros Hr. unfold __Runtime_routing_init. eapply triple_bind; [apply call_keeps; by constructor|]. intros ?. cbn beta.
  eapply triple_bind; [by apply triple_get with (Q := fun _ => at_ ps0 st0)|]. intros p.
  apply triple_when; [|auto]. intros _. eapply triple_bind; [apply call_keeps; by constructor|]. intros ?. cbn beta. by apply triple_ret.
Qed.

(** What setting up leaves: the instance is ready, or it is freed. *)
Definition set_up (ps0 : parts) (st0 : gmap Z stage) (p : Z) (ps : parts) (st : gmap Z stage) : Prop :=
  same_registry ps0 ps /\ ((p = 0 /\ st = st0) \/ (p <> 0 /\ st0 !! p = None /\ st = <[p := Ready]> st0)).

Lemma init_rest_spec ps0 st0 dev :
  dev <> 0 -> st0 !! dev = None ->
  Triple (at_ ps0 (<[dev := Fresh]> st0))
    (init_rest gen5 baremetal routing high_throughput xaie row_start num_rows num_cols dev) (set_up ps0 st0).
Proof using.
  intros Hd Hn. unfold init_rest.
  assert (forall g, g <> Ready -> Triple (at_ ps0 (<[dev := g]> st0)) (fail_free xaie dev) (set_up ps0 st0)) as Hfail.
  { intros g Hg. eapply triple_post; [|by apply fail_free_spec]. intros p ps st (Hs & -> & ->). split; auto. }
  eapply triple_bind with (Q := fun _ => at_ ps0 (<[dev := Fresh]> st0)).
  { apply triple_when; [|auto]. intros _. eapply triple_bind; [apply call_keeps; intros; constructor; apply lookup_insert_eq|].
    intros ?. cbn beta. by apply triple_ret. }
  intros ?. cbn beta. eapply triple_bind with (Q := fun rc => at_ ps0 (<[dev := if decide (rc = XAIE_OK) then Configured else Fresh]> st0)).
  { apply triple_call. intros rc ps st [Hs ->]. case_decide.
    - eexists. split; [constructor; [apply lookup_insert_eq|done]|]. by rewrite insert_insert_eq.
    - eexists. split; [constructor; [apply lookup_insert_eq|done]|]. auto. }
  intros rc. destruct (Z.eqb_spec rc XAIE_OK) as [->|Hrc]; cbn [negb]; rewrite ?decide_True, ?decide_False by done; [|by apply Hfail].
  eapply triple_bind; [apply call_keeps; intros; constructor; apply lookup_insert_eq|]. intros ?. cbn beta.
  eapply triple_bind with (Q := fun _ => at_ ps0 (<[dev := Configured]> st0)).
  { destruct baremetal; [|by apply triple_ret]. apply call_keeps; intros; constructor; apply lookup_insert_eq. }
  intros rc. destruct (Z.eqb_spec rc XAIE_OK) as [->|Hrc]; cbn [negb]; [|by apply Hfail].
  eapply triple_bind; [apply partition_initialize_spec, lookup_insert_eq|].
  intros rc. cbn beta. destruct (Z.eqb_spec rc XAIE_OK) as [->|Hrc]; cbn [negb]; rewrite ?decide_True, ?decide_False by done; [|by apply Hfail].
  rewrite insert_insert_eq. set (st1 := <[dev := Ready]> st0). assert (st1 !! dev = Some Ready) as Hr by apply lookup_insert_eq.
  eapply triple_bind with (Q := fun _ => at_ ps0 st1).
  { unfold __Runtime_enable_core_proc_bus. destruct gen5; [by apply buses_spec|by apply triple_ret]. }
  intros ?. cbn beta. eapply triple_bind; [by apply routing_init_spec|]. intros ?. cbn beta.
  eapply triple_bind; [apply triple_upd with (Q := fun _ => at_ ps0 st1); by intros ps st [[] ->]|]. intros ?. cbn beta.
  apply triple_ret. intros ps st [Hs ->]. split; auto.
Qed.

Abbreviation init_partition :=
  (__Runtime_explicit_init_partition gen5 baremetal routing high_throughput base_addr col_shift xaie heap row_start num_rows num_cols).

Lemma explicit_init_partition_spec ps0 st0 startCol numCols :
  Triple (at_ ps0 st0) (init_partition startCol numCols) (set_up ps0 st0).
Proof using heap_ok.
  unfold __Runtime_explicit_init_partition.
  eapply triple_bind; [apply triple_upd with (Q := fun _ => at_ ps0 st0); by intros ps st [[] ->]|]. intros ?. cbn beta.
  eapply triple_bind; [apply calloc_spec|]. intros p. destruct (Z.eqb_spec p 0) as [->|Hp].
  { apply triple_ret. intros ps st [Hs [[_ ->]|[Hne _]]]; [|done]. split; auto. }
  apply triple_fix. intros ps st [Hs [[-> _]|(_ & Hn & ->)]]; [done|].
  eapply triple_pre with (P' := at_ ps0 (<[p := Fresh]> st0)); [by intros ? ? [-> ->]|].
  eapply triple_bind; [apply call_keeps; intros; constructor; apply lookup_insert_eq|]. intros rc.
  destruct (negb (rc =? XAIE_OK)); [|by apply init_rest_spec].
  eapply triple_post; [|by apply fail_free_spec]. intros q ? ? (? & -> & ->). split; auto.
Qed.

Lemma explicit_teardown_spec ps0 st0 dev :
  st0 !! dev = Some Ready -> dev <> 0 ->
  Triple (at_ ps0 st0) (__Runtime_explicit_teardown false xaie dev) (fun _ => at_ ps0 (delete dev st0)).
Proof using.
  intros Hr Hd. unfold __Runtime_explicit_teardown. replace (dev =? 0) with false by lia. cbn [negb when].
  eapply triple_bind; [apply triple_upd with (Q := fun _ => at_ ps0 st0); by intros ps st [[] ->]|]. intros ?. cbn beta.
  eapply triple_bind with (Q := fun _ => at_ ps0 (<[dev := TornDown]> st0)).
  { cbn [__Runtime_device_teardown negb when]. eapply triple_bind with (Q := fun _ => at_ ps0 (<[dev := TornDown]> st0)).
    - apply triple_call. intros rc ps st [Hs ->]. eexists. split; [by constructor|]. auto.
    - intros ?. cbn beta. by apply triple_ret. }
  intros ?. cbn beta. eapply triple_bind with (Q := fun _ => at_ ps0 (delete dev st0)).
  - apply triple_call. intros rc ps st [Hs ->]. eexists. split; [econstructor; [apply lookup_insert_eq|done]|].
    by rewrite delete_insert_eq.
  - intros ?. cbn beta. by apply triple_ret.
Qed.
End setup.

(** ** The registry is a map *)

Definition entry_of (e : PartitionRegistryEntry) : Z * (Z * Z) := (meshId e, (e_dev e, e_route e)).

(** The registry [r] holds the map [A] from a mesh to its instance and routing;
    its instances are the live ones, all ready. *)
Record holds (r : list PartitionRegistryEntry) (st : gmap Z stage) (A : gmap Z (Z * Z)) : Prop := {
  ho_map : A = list_to_map (entry_of <$> r);
  ho_meshes : NoDup (meshId <$> r);
  ho_devs : NoDup (e_dev <$> r);
  ho_live : st = gset_to_gmap Ready (list_to_set (e_dev <$> r));
  ho_null : 0 ∉ (e_dev <$> r) }.

Lemma entry_keys r : (entry_of <$> r).*1 = meshId <$> r.
Proof. induction r; [done|]. cbn. by f_equal. Qed.

Lemma holds_perm r r' st A : r ≡ₚ r' -> holds r st A -> holds r' st A.
Proof.
  intros Hp [-> Hm Hd -> H0]. split.
  - apply list_to_map_proper; [by rewrite entry_keys|by rewrite Hp].
  - by rewrite <- Hp.
  - by rewrite <- Hp.
  - f_equal. apply leibniz_equiv. by rewrite Hp.
  - by rewrite <- Hp.
Qed.

Lemma holds_cons e r st A :
  holds (e :: r) st A <->
  A !! meshId e = Some (e_dev e, e_route e) /\ st !! e_dev e = Some Ready /\ e_dev e <> 0 /\
  holds r (delete (e_dev e) st) (delete (meshId e) A).
Proof.
  split.
  - intros [-> Hm Hd -> H0]. rewrite fmap_cons in Hm, Hd, H0.
    apply NoDup_cons in Hm as [Hm1 Hm2]. apply NoDup_cons in Hd as [Hd1 Hd2]. apply not_elem_of_cons in H0 as [H0 H1].
    rewrite !fmap_cons, list_to_set_cons, gset_to_gmap_union_singleton.
    change (entry_of e) with (meshId e, (e_dev e, e_route e)). rewrite list_to_map_cons, !lookup_insert_eq, !delete_insert_eq.
    split; [done|]. split; [done|]. split; [done|]. rewrite !delete_id; [by split| |].
    + apply not_elem_of_list_to_map_1. by rewrite entry_keys.
    + apply lookup_gset_to_gmap_None. by rewrite elem_of_list_to_set.
  - intros (Ha & Hs & Hd & [HA Hm1 Hd1 Hst H0]). 
    assert (A = <[meshId e := (e_dev e, e_route e)]> (delete (meshId e) A)) as EA by (by rewrite insert_delete_id).
    assert (st = <[e_dev e := Ready]> (delete (e_dev e) st)) as ES by (by rewrite insert_delete_id).
    split.
    + rewrite EA, HA. done.
    + apply NoDup_cons. split; [|done]. rewrite <- entry_keys. intros Hin.
      assert (delete (meshId e) A !! meshId e = None) as Hn by apply lookup_delete_eq.
      rewrite HA in Hn. by apply not_elem_of_list_to_map_2 in Hn.
    + apply NoDup_cons. split; [|done]. intros Hin.
      assert (delete (e_dev e) st !! e_dev e = None) as Hn by apply lookup_delete_eq.
      rewrite Hst in Hn. apply lookup_gset_to_gmap_None in Hn. apply Hn. by apply elem_of_list_to_set.
    + rewrite ES, Hst. cbn [fmap list_fmap list_to_set]. by rewrite gset_to_gmap_union_singleton.
    + apply not_elem_of_cons. auto.
Qed.

Lemma find_remove m r e :
  List.find (has_mesh m) r = Some e -> meshId e = m /\ r ≡ₚ e :: registry_remove m r.
Proof.
  induction r as [|x r IH]; [done|]. cbn [List.find registry_remove].
  destruct (has_mesh m x) eqn:E; [apply Z.eqb_eq in E|].
  - intros [= <-]. split; [done|]. f_equiv. destruct r as [|y r] using rev_ind; [done|]. rewrite last_snoc, length_app.
    cbn [length]. rewrite Nat.add_1_r. cbn [pred]. rewrite take_app_length. apply Permutation_app_comm.
  - intros H. destruct (IH H) as [Hm Hp]. split; [done|]. rewrite Hp at 1. apply perm_swap.
Qed.

Lemma registry_find_none m r st A : holds r st A -> List.find (has_mesh m) r = None -> A !! m = None.
Proof.
  intros Hh Hf. rewrite (ho_map _ _ _ Hh). apply not_elem_of_list_to_map_1. rewrite entry_keys.
  intros (e & -> & He)%list_elem_of_fmap. apply list_elem_of_In in He. pose proof (find_none _ _ Hf e He) as H.
  unfold has_mesh in H. by rewrite Z.eqb_refl in H.
Qed.

Lemma holds_find m r st A e : holds r st A -> List.find (has_mesh m) r = Some e -> A !! m = Some (e_dev e, e_route e).
Proof.
  intros Hh Hf. destruct (find_remove m r e Hf) as [<- Hp]. apply (holds_perm _ _ _ _ Hp) in Hh. by apply holds_cons in Hh as [H _].
Qed.

(** ** What the registry promises *)

Inductive op :=
| InitMesh (m startCol numCols route : Z)
| GetDev (m : Z)
| TeardownAll.

Definition op_mesh (o : op) : list Z :=
  match o with InitMesh m _ _ _ => [m] | _ => [] end.

(** The partitions as a map from a mesh to its instance and routing: an
    instance is reused exactly by the routing it was set up with; otherwise the
    mesh gets one that no other mesh has, or none if the setup fails. *)
Inductive spec_step : op -> Z -> gmap Z (Z * Z) -> gmap Z (Z * Z) -> Prop :=
| spec_reuse m l n r d A : A !! m = Some (d, r) -> spec_step (InitMesh m l n r) d A A
| spec_new m l n r d A :
    (forall d', A !! m <> Some (d', r)) -> d <> 0 -> (forall m' r', delete m A !! m' <> Some (d, r')) ->
    spec_step (InitMesh m l n r) d A (<[m := (d, r)]> A)
| spec_fails m l n r A : (forall d', A !! m <> Some (d', r)) -> spec_step (InitMesh m l n r) 0 A (delete m A)
| spec_get m d r A : A !! m = Some (d, r) -> spec_step (GetDev m) d A A
| spec_get_none m A : A !! m = None -> spec_step (GetDev m) 0 A A
| spec_teardown A : spec_step TeardownAll 0 A ∅.

Inductive spec_steps : list op -> list Z -> gmap Z (Z * Z) -> gmap Z (Z * Z) -> Prop :=
| spec_nil A : spec_steps [] [] A A
| spec_cons o os v vs A A1 A2 : spec_step o v A A1 -> spec_steps os vs A1 A2 -> spec_steps (o :: os) (v :: vs) A A2.

Section operations.
Context (gen5 baremetal : bool) (routing : Z) (high_throughput : bool) (base_addr col_shift : Z).
Context (xaie : list part_call -> part_call -> Z) (heap : list part_call -> Z).
Context (row_start num_rows num_cols : Z -> Z).

Abbreviation M := (stE (drv parts part_call) Z).
Abbreviation init_with :=
  (__Runtime_init_mesh_partition_with gen5 baremetal routing high_throughput false base_addr col_shift xaie heap row_start num_rows num_cols).

Definition run_op (o : op) : M Z :=
  match o with
  | InitMesh m startCol numCols route => init_with m startCol numCols route
  | GetDev m => gets (fun s => __Runtime_get_partition_dev m (rest s))
  | TeardownAll => __Runtime_teardown_all false xaie ;; mret 0
  end.

Fixpoint run_ops (os : list op) : M (list Z) :=
  match os with
  | [] => mret []
  | o :: os => v ← run_op o; vs ← run_ops os; mret (v :: vs)
  end.

Hypothesis heap_ok : forall log st, valid xaie log st -> heap log <> 0 -> st !! heap log = None.
(** The meshes in use fit the registry. *)
Context (ids : list Z).
Hypothesis ids_ok : len ids <= PARTITION_REGISTRY_MAX.

Abbreviation Triple := (triple xaie).

(** The state between operations, for the map [A]. *)
Definition keeps_map (A : gmap Z (Z * Z)) (ps : parts) (st : gmap Z stage) : Prop :=
  pending_routing ps = 0 /\ holds (registry ps) st A /\ meshId <$> registry ps ⊆ ids.

Lemma holds_snoc r st A m d route :
  holds r st A -> A !! m = None -> st !! d = None -> d <> 0 ->
  holds (r ++ [Entry m d route]) (<[d := Ready]> st) (<[m := (d, route)]> A).
Proof using.
  intros Hh Hm Hd H0. apply (holds_perm (Entry m d route :: r)); [apply Permutation_cons_append|]. apply holds_cons.
  cbn [meshId e_dev e_route]. rewrite !lookup_insert_eq, !delete_insert_id by done. done.
Qed.

Lemma init_new_spec m l n route r st A ps :
  holds r st A -> m ∉ meshId <$> r -> m :: (meshId <$> r) ⊆ ids ->
  registry ps = r ->
  Triple (fun ps' st' => ps' = ps /\ st' = st)
    (init_new gen5 baremetal routing high_throughput base_addr col_shift xaie heap row_start num_rows num_cols m l n route)
    (fun d ps' st' => (d = 0 /\ keeps_map A ps' st') \/
       (d <> 0 /\ (forall m' r', A !! m' <> Some (d, r')) /\ keeps_map (<[m := (d, route)]> A) ps' st')).
Proof using heap_ok ids_ok.
  intros Hh Hm Hsub Er. unfold init_new.
  assert (A !! m = None) as HAm by (rewrite (ho_map _ _ _ Hh); apply not_elem_of_list_to_map_1; by rewrite entry_keys).
  assert (len r < PARTITION_REGISTRY_MAX) as Hlen.
  { assert (length (m :: (meshId <$> r)) <= length ids)%nat as H.
    { apply submseteq_length, NoDup_submseteq; [|done]. apply NoDup_cons. split; [done|apply Hh]. }
    cbn [length] in H. rewrite length_fmap in H. unfold len in *. lia. }
  set (ps1 := set_pending route ps).
  eapply triple_bind with (Q := fun _ ps' st' => same_registry ps1 ps' /\ st' = st).
  { apply triple_upd. intros ? ? [-> ->]. done. }
  intros _. eapply triple_bind; [by apply explicit_init_partition_spec|]. intros d.
  eapply triple_bind with (Q := fun _ ps' st' =>
    (d = 0 /\ registry ps' = r /\ st' = st) \/
    (d <> 0 /\ st !! d = None /\ registry ps' = r ++ [Entry m d route] /\ st' = <[d := Ready]> st)).
  { apply triple_when.
    - intros Hd. apply triple_upd. intros ps' st' [[Hr Hp] [[-> _]|(Hd0 & Hn & ->)]]; [done|]. right. split; [done|]. split; [done|].
      split; [|done]. unfold __Runtime_register_partition. cbn in Hr, Hp. rewrite Hr, Er, Hp.
      replace (len r >=? PARTITION_REGISTRY_MAX) with false by lia. done.
    - intros Hd ps' st' [[Hr _] [[-> ->]|(Hd0 & _)]]; [|lia]. left. cbn in Hr. by rewrite Hr. }
  intros _. eapply triple_bind with (Q := fun _ ps' st' => pending_routing ps' = 0 /\
    ((d = 0 /\ registry ps' = r /\ st' = st) \/
     (d <> 0 /\ st !! d = None /\ registry ps' = r ++ [Entry m d route] /\ st' = <[d := Ready]> st))).
  { apply triple_upd. intros ps' st' H. done. }
  intros _. apply triple_ret. intros ps' st' [Hp [(-> & Hr & ->)|(Hd & Hn & Hr & ->)]]; [left|right]; (split; [done|]).
  - split; [done|]. rewrite Hr. split; [done|]. intros x Hx. apply Hsub. by right.
  - split; [|split; [done|rewrite Hr; split; [by apply holds_snoc|]]].
    + intros m' r' HA. rewrite (ho_map _ _ _ Hh) in HA. apply elem_of_list_to_map_2 in HA.
      apply list_elem_of_fmap in HA as (e & Ee & He). injection Ee as _ -> _.
      rewrite (ho_live _ _ _ Hh) in Hn. apply lookup_gset_to_gmap_None in Hn. apply Hn, elem_of_list_to_set.
      by apply list_elem_of_fmap_2.
    + rewrite fmap_app. intros x [Hx|Hx]%elem_of_app; apply Hsub; [by right|]. cbn in Hx. apply list_elem_of_singleton in Hx as ->. by left.
Qed.

Lemma init_spec A m l n route :
  m ∈ ids ->
  Triple (keeps_map A) (init_with m l n route) (fun d ps st => exists A', spec_step (InitMesh m l n route) d A A' /\ keeps_map A' ps st).
Proof using heap_ok ids_ok.
  intros Hm. apply triple_fix. intros ps st (Hp & Hh & Hsub). unfold __Runtime_init_mesh_partition_with.
  eapply triple_bind; [apply triple_get with (Q := fun r ps' st' => r = registry ps /\ ps' = ps /\ st' = st); by intros ? ? [-> ->]|].
  intros r. apply triple_fix. intros ? ? (-> & -> & ->).
  destruct (List.find (has_mesh m) (registry ps)) as [e|] eqn:Ef.
  - pose proof (holds_find _ _ _ _ _ Hh Ef) as HA. destruct (Z.eqb_spec (e_route e) route) as [Er|Er].
    { apply triple_ret. intros ? ? [-> ->]. exists A. split; [apply spec_reuse; by rewrite HA, Er|done]. }
    destruct (find_remove _ _ _ Ef) as [Em Hperm]. pose proof (holds_perm _ _ _ _ Hperm Hh) as Hh1.
    pose proof (ho_meshes _ _ _ Hh1) as Hnd. rewrite fmap_cons in Hnd. apply NoDup_cons in Hnd as [Hni _].
    apply holds_cons in Hh1 as (_ & Hst & Hd & Hh1). rewrite Em in *.
    set (r' := registry_remove m (registry ps)) in *. set (st1 := delete (e_dev e) st) in *.
    eapply triple_bind with (Q := fun _ ps' st' => same_registry ps ps' /\ st' = st1).
    { eapply triple_pre; [|by apply explicit_teardown_spec]. by intros ? ? [-> ->]. }
    intros _. eapply triple_bind with (Q := fun _ ps' st' => registry ps' = r' /\ st' = st1).
    { apply triple_upd. by intros ? ? [_ ->]. }
    intros _. apply triple_fix. intros ps1 ? [Er1 ->].
    assert (forall d', A !! m <> Some (d', route)) as Hno by (intros d' E; rewrite HA in E; by injection E).
    assert (meshId <$> r' ⊆ ids) as Hsub'.
    { intros x Hx. apply Hsub. rewrite Hperm, fmap_cons. by right. }
    eapply triple_post; [|apply (init_new_spec m l n route r' st1 (delete m A) ps1); auto].
    + intros d ps' st' [[-> H]|(Hd0 & Hfr & H)].
      * exists (delete m A). split; [by apply spec_fails|done].
      * exists (<[m := (d, route)]> A). split; [by apply spec_new|]. by rewrite insert_delete_eq in H.
    + intros x [->|Hx]%elem_of_cons; auto.
  - pose proof (registry_find_none _ _ _ _ Hh Ef) as HA.
    eapply triple_post; [|apply (init_new_spec m l n route (registry ps) st A ps); auto].
    + intros d ps' st' [[-> H]|(Hd0 & Hfr & H)].
      * exists (delete m A). rewrite delete_id in * by done. split; [|done]. rewrite <- (delete_id A m HA) at 2. apply spec_fails. congruence.
      * exists (<[m := (d, route)]> A). split; [apply spec_new; [congruence|done|]|done]. by rewrite delete_id.
    + rewrite (ho_map _ _ _ Hh) in HA. apply not_elem_of_list_to_map in HA. by rewrite entry_keys in HA.
    + intros x [->|Hx]%elem_of_cons; auto.
Qed.

Lemma teardown_loop ds : forall ps st,
  NoDup ds -> 0 ∉ ds -> st = gset_to_gmap Ready (list_to_set ds) ->
  Triple (fun ps' st' => same_registry ps ps' /\ st' = st) (forM ds (__Runtime_explicit_teardown false xaie))
    (fun _ ps' st' => same_registry ps ps' /\ st' = ∅).
Proof using.
  induction ds as [|d ds IH]; intros ps st Hnd H0 ->; cbn [forM].
  - apply triple_ret. intros ? ? [? ->]. split; [done|]. by rewrite list_to_set_nil, gset_to_gmap_empty.
  - apply NoDup_cons in Hnd as [Hd Hnd]. apply not_elem_of_cons in H0 as [Hne H0].
    rewrite list_to_set_cons, gset_to_gmap_union_singleton.
    eapply triple_bind; [apply explicit_teardown_spec; [apply lookup_insert_eq|done]|]. intros ?. cbn beta.
    rewrite delete_insert_id by (apply lookup_gset_to_gmap_None; by rewrite elem_of_list_to_set).
    by apply IH.
Qed.

Lemma op_spec o A :
  op_mesh o ⊆ ids -> Triple (keeps_map A) (run_op o) (fun v ps st => exists A', spec_step o v A A' /\ keeps_map A' ps st).
Proof using heap_ok ids_ok.
  destruct o as [m l n route|m|]; intros Hsub; cbn [run_op].
  - apply init_spec, Hsub. by left.
  - apply triple_get. intros ps st (Hp & Hh & Hs). exists A. split; [|done]. unfold __Runtime_get_partition_dev.
    destruct (List.find (has_mesh m) (registry ps)) as [e|] eqn:Ef.
    + apply (spec_get m _ (e_route e)). by apply (holds_find _ _ _ _ _ Hh).
    + apply spec_get_none. by apply (registry_find_none _ _ _ _ Hh).
  - apply triple_fix. intros ps st (Hp & [-> Hm Hd Hst H0] & Hs).
    unfold __Runtime_teardown_all.
    eapply triple_bind with (Q := fun _ => keeps_map ∅).
    + eapply triple_bind; [apply triple_get with (Q := fun r ps' st' => r = registry ps /\ same_registry ps ps' /\ st' = st); by intros ? ? [-> ->]|].
      intros r. apply triple_fix. intros ps' ? (-> & Hr & ->).
      eapply triple_bind with (Q := fun _ ps'' st'' => same_registry ps' ps'' /\ st'' = ∅).
      * eapply triple_pre; [|by apply teardown_loop]. by intros ? ? [-> ->].
      * intros _. apply triple_upd. intros ps'' st'' [[E1 E2] ->]. split; [cbn; destruct Hr; congruence|]. split; [|cbn; set_solver].
        split; [done|constructor|constructor| |]; cbn; [by rewrite gset_to_gmap_empty|apply not_elem_of_nil].
    + intros _. apply triple_ret. intros ps' st' H. exists ∅. split; [constructor|done].
Qed.

Lemma ops_spec os : forall A,
  Forall (fun o => op_mesh o ⊆ ids) os ->
  Triple (keeps_map A) (run_ops os) (fun vs ps st => exists A', spec_steps os vs A A' /\ keeps_map A' ps st).
Proof using heap_ok ids_ok.
  induction os as [|o os IH]; intros A Hos; cbn [run_ops].
  - apply triple_ret. intros ps st H. exists A. split; [constructor|done].
  - apply Forall_cons in Hos as [Ho Hos]. eapply triple_bind; [by apply op_spec|]. intros v. apply triple_fix.
    intros ps st (A1 & H1 & H2). eapply triple_pre with (P' := keeps_map A1); [by intros ? ? [-> ->]|].
    eapply triple_bind; [by apply IH|]. intros vs. apply triple_ret. intros ps' st' (A2 & H3 & H4).
    exists A2. split; [by econstructor|done].
Qed.

End operations.

(** ** Examples *)

Module Example.
Definition xaie : list part_call -> part_call -> Z := fun _ _ => XAIE_OK.
(** Above every address handed out. *)
Definition top (log : list part_call) : Z :=
  foldr (fun c n => match c with Calloc p => Z.max p n | _ => n end) 0 log.
Definition heap (log : list part_call) : Z := top log + 64.

Lemma top_Calloc log p : Calloc p ∈ log -> p <= top log.
Proof.
  induction log as [|c log IH]; intros H; [by apply not_elem_of_nil in H|]. unfold top. cbn [foldr].
  fold (top log). apply elem_of_cons in H as [<-|H]; [lia|]. specialize (IH H). destruct c; lia.
Qed.

Lemma live_allocated log st d g : valid xaie log st -> st !! d = Some g -> Calloc d ∈ log.
Proof.
  intros Hv. revert g. induction Hv as [|log c st st' Hv IH Hs]; intros g Hd; [by rewrite lookup_empty in Hd|].
  apply elem_of_app. inversion Hs; subst; try (left; by eapply IH);
    try (destruct (decide (d = dev)) as [->|]; [left; by eapply IH|rewrite lookup_insert_ne in Hd by done; left; by eapply IH]).
  - destruct (decide (d = p)) as [->|]; [right; by left|]. rewrite lookup_insert_ne in Hd by done. left. by eapply IH.
  - apply lookup_delete_Some in Hd as [_ Hd]. left. by eapply IH.
Qed.

Lemma heap_ok log st : valid xaie log st -> heap log <> 0 -> st !! heap log = None.
Proof.
  intros Hv _. destruct (st !! heap log) as [g|] eqn:E; [|done]. pose proof (live_allocated _ _ _ _ Hv E) as H.
  apply top_Calloc in H. unfold heap in H. lia.
Qed.

Abbreviation run := (run_ops true true 0 true 0 25 xaie heap (fun _ => 3) (fun _ => 2) (fun _ => 2)).
Definition ps0 : parts := Parts [] 0 1 false 0.
Definition ops : list op :=
  [InitMesh 1 0 4 7; InitMesh 2 4 4 0; InitMesh 1 0 4 7; InitMesh 1 0 4 8; GetDev 1; GetDev 3; TeardownAll; GetDev 1].
(** One mesh more than the registry holds. *)
Definition many : list op := ((fun m => InitMesh m m 1 0) <$> range 1 18) ++ [GetDev 17; TeardownAll].
Definition gives_back (d : Z) (c : part_call) : bool :=
  match c with PartitionTeardown p | FreeDev p => p =? d | _ => false end.
End Example.


(** With sixteen partitions registered the next mesh's setup succeeds and
    returns its instance, which the registry does not keep: it is not found,
    and [teardown_all] neither tears it down nor frees it. *)
Theorem registry_full_leaks :
  match Example.run Example.many (Drv Example.ps0 []) with
  | (s', Ok vs) =>
    let d := rd vs 16 in
    d = 1088 /\ rd vs 17 = 0 /\ len (registry (rest s')) = 0 /\ existsb (Example.gives_back d) (calls s') = false
  | _ => False
  end.
Proof. vm_compute. done. Qed.
