(* ===== verification/RowFabric.v ===== *)
(** * The row fabric ([src/src/mlir/runtime/aie_runtime.c], 4548-5053, and
      [aie_runtime_xaie_seq.c], 77-123)

    [ControlPlan] decides the stream-switch operations of every row; this file
    has the code that emits them.  In high-throughput mode the return-route
    operations of a row's consumer tiles are withheld: the register writes the
    driver would make for them are captured, the ones that are the same on every
    consumer are kept for one broadcast, and the rest is written at the end.
    The last successful plan is cached.

    The driver's stream-switch functions are third-party code: each is a program
    over the backend, as in [ShimBatch].  The tables compiled ahead of time are
    absent, and the provenance map and the console output are left out. *)

From stdpp Require Import base list list_numbers numbers gmap.
From S2P Require Import Prelude.
From S2P Require Import CtrlpktEncode.
From S2P Require Import RuntimePkt.
From S2P Require Import CtrlpktSplit.
From S2P Require Import Resource.
From S2P Require Import ControlPlan.
From S2P Require Import ControlPlanProps.
From S2P Require Import Driver.
From S2P Require Import TraceRes.
From S2P Require Import ShimBatch.

Local Open Scope Z_scope.
Local Open Scope c_scope.

Definition RT_CTRL_RET_DEFER_MAX_WR : Z := 512.
Definition RT_CTRL_RET_BCAST_MAX : Z := 16.
Definition RT_RES_VFWD_PORT : Z := 4.
Definition RT_RES_VRET_PORT : Z := 3.
Definition RT_CTRL_VFWD : Z := RT_RES_VFWD_PORT.
Definition RT_CTRL_VRET : Z := RT_RES_VRET_PORT.
Definition RT_CTRL_SHIM_NORTH_MSTRS : Z := 6.

(** ** The driver's calls *)

Inductive strm_call :=
| StrmPktSwSlaveSlotEnable (t : XAie_LocType) (p : StrmSwPortType) (idx slot pkt_id mask msel arb : Z)
| StrmPktSwSlavePortEnable (t : XAie_LocType) (p : StrmSwPortType) (idx : Z)
| StrmPktSwMstrPortEnable (t : XAie_LocType) (p : StrmSwPortType) (idx : Z) (drop_header : bool) (arb mselen : Z)
| StrmConnCctEnable (t : XAie_LocType) (sp : StrmSwPortType) (sidx : Z) (mp : StrmSwPortType) (midx : Z)
| StrmConnCctDisable (t : XAie_LocType) (sp : StrmSwPortType) (sidx : Z) (mp : StrmSwPortType) (midx : Z)
| EnableAieToShimDmaStrmPort (t : XAie_LocType) (port : Z)
| EnableShimDmaToAieStrmPort (t : XAie_LocType) (port : Z).

Definition strm_tile (c : strm_call) : Z * Z :=
  match c with
  | StrmPktSwSlaveSlotEnable t _ _ _ _ _ _ _ | StrmPktSwSlavePortEnable t _ _ | StrmPktSwMstrPortEnable t _ _ _ _ _
  | StrmConnCctEnable t _ _ _ _ | StrmConnCctDisable t _ _ _ _ | EnableAieToShimDmaStrmPort t _
  | EnableShimDmaToAieStrmPort t _ => (loc_col t, loc_row t)
  end.

Definition rt_seq_acr_port (p : acr_port) : StrmSwPortType :=
  match p with ACR_WEST => WEST | ACR_EAST => EAST | ACR_NORTH => NORTH | ACR_SOUTH => SOUTH | ACR_CTRL => CTRL end.

Definition rt_seq_acr_chan (p : acr_port) (is_master : bool) (idx : Z) : Z :=
  match p with
  | ACR_NORTH => if is_master then RT_RES_VFWD_PORT else RT_RES_VRET_PORT
  | ACR_SOUTH => if is_master then RT_RES_VRET_PORT else RT_RES_VFWD_PORT
  | _ => idx
  end.

Definition rt_seq_row_op (op : acr_op) : strm_call :=
  let t := Loc (o_row op) (o_col op) in
  let sidx := rt_seq_acr_chan (o_sport op) false (o_sidx op) in
  let midx := rt_seq_acr_chan (o_mport op) true (o_midx op) in
  match o_kind op with
  | ACR_OP_SLOT =>
    StrmPktSwSlaveSlotEnable t (rt_seq_acr_port (o_sport op)) sidx (o_slot op) (o_pkt_id op) (o_mask op) (o_msel op) (o_arbiter op)
  | ACR_OP_SLAVE_EN => StrmPktSwSlavePortEnable t (rt_seq_acr_port (o_sport op)) sidx
  | ACR_OP_MASTER_EN =>
    StrmPktSwMstrPortEnable t (rt_seq_acr_port (o_mport op)) midx (negb (z2b (o_keep_header op))) (o_arbiter op) (o_mselen op)
  | ACR_OP_CCT => StrmConnCctEnable t (rt_seq_acr_port (o_sport op)) sidx (rt_seq_acr_port (o_mport op)) midx
  end.

(** ** The state *)

Record row_chain := Chain { c_row : Z; c_lo : Z; c_hi : Z }.

#[export] Instance row_chain_eq_dec : EqDecision row_chain.
Proof. solve_decision. Defined.

(** [__Runtime_CtrlRowFabric]. *)
Record fabric := Fab {
  f_shim_col : Z; f_dedicated : bool; f_ctrl_id : Z; f_resp_s2mm_ch : Z; f_spine : acr_state; f_book : acr_portbook;
  f_rows : list row_chain; ret_bcast_off : list Z; ret_bcast_val : list Z; ret_bcast_n : Z; ret_bcast_pending : bool }.

(** [g_ctrl_ret_defer], [g_ctrl_ret_wr] with its count, [g_ctrl_ret_defer_on]. *)
Record ret_state := Ret { ret_defer : list acr_op; ret_wr : list rt_cpe_wr; ret_defer_on : bool }.

Record state := St { fab : fabric; ret : ret_state; mmio : Z -> Z }.

Definition fabric0 : fabric :=
  Fab 0 false 0 0 (State 0 []) book0 [] (replicate 16 0) (replicate 16 0) 0 false.
Definition ret0 : ret_state := Ret [] [] false.

Definition set_fab (f : fabric) (s : state) : state := St f (ret s) (mmio s).
Definition set_ret (r : ret_state) (s : state) : state := St (fab s) r (mmio s).
Definition set_mmio (m : Z -> Z) (s : state) : state := St (fab s) (ret s) m.
Definition set_plan (sp : acr_state) (b : acr_portbook) (f : fabric) : fabric :=
  Fab (f_shim_col f) (f_dedicated f) (f_ctrl_id f) (f_resp_s2mm_ch f) sp b (f_rows f)
    (ret_bcast_off f) (ret_bcast_val f) (ret_bcast_n f) (ret_bcast_pending f).
Definition set_rows (r : list row_chain) (f : fabric) : fabric :=
  Fab (f_shim_col f) (f_dedicated f) (f_ctrl_id f) (f_resp_s2mm_ch f) (f_spine f) (f_book f) r
    (ret_bcast_off f) (ret_bcast_val f) (ret_bcast_n f) (ret_bcast_pending f).
Definition set_dedicated (d : bool) (f : fabric) : fabric :=
  Fab (f_shim_col f) d (f_ctrl_id f) (f_resp_s2mm_ch f) (f_spine f) (f_book f) (f_rows f)
    (ret_bcast_off f) (ret_bcast_val f) (ret_bcast_n f) (ret_bcast_pending f).
Definition set_bcast (off val : list Z) (n : Z) (pending : bool) (f : fabric) : fabric :=
  Fab (f_shim_col f) (f_dedicated f) (f_ctrl_id f) (f_resp_s2mm_ch f) (f_spine f) (f_book f) (f_rows f) off val n pending.

Section fabric.
(** The device's backend, as in [ShimBatch]; what a driver call does with it;
    [XAie_GetTileAddr]; the address shifts; whether a transaction is open; and
    whether the device is an AIE2PS. *)
Context (effect : backend_op -> (Z -> Z) -> Z -> Z) (answer : backend_op -> (Z -> Z) -> Z * Z).
Context (prog : strm_call -> driver_call) (tile_addr : Z -> Z -> Z).
Context (row_shift col_shift XAIE_INVALID_ARGS : Z) (txn_open aie2ps : bool).

Abbreviation M := (stE state Z).
Abbreviation get f := (gets f).

(** A driver call on the device; [XAie_Write32]. *)
Definition drive (c : driver_call) : M Z := fun s =>
  let '(m, rc) := direct effect answer c (mmio s) in (set_mmio m s, Ok rc).
Definition ok (m : M Z) : M unit := rc ← m; if rc =? XAIE_OK then mret tt else throw rc.
Definition write32 (a v : Z) : M Z := drive (Do (Write32 a v) (fun rc _ => Return rc)).

Definition __Runtime_ctrl_row_emit (ops : list acr_op) : M unit :=
  forM ops (fun op => ok (drive (prog (rt_seq_row_op op)))).

(** ** Withholding return routes *)

Definition deferred (row lo hi : Z) (op : acr_op) : bool :=
  z2b (o_is_ret op) && (o_row op =? row) && (lo <=? o_col op) && (o_col op <=? hi).

(** The ops kept and the list of those withheld. *)
Fixpoint defer_take (row lo hi : Z) (ops d : list acr_op) : list acr_op * list acr_op :=
  match ops with
  | [] => ([], d)
  | op :: ops =>
    if deferred row lo hi op && (len d <? ACR_MAX_OPS) then defer_take row lo hi ops (d ++ [op])
    else let '(keep, d) := defer_take row lo hi ops d in (op :: keep, d)
  end.

Definition rt_ctrl_ret_defer_take (ops : list acr_op) (row lo hi : Z) : M (list acr_op) := fun s =>
  if negb (ret_defer_on (ret s)) then (s, Ok ops)
  else
    let '(keep, d) := defer_take row lo hi ops (ret_defer (ret s)) in
    (set_ret (Ret d (ret_wr (ret s)) (ret_defer_on (ret s))) s, Ok keep).

(** A driver call on the capturing backend: the writes captured, whether it
    went bad, and the device, which the operations that are not replaced still
    reach. *)
Fixpoint capture (c : driver_call) (ws : list rt_cpe_wr) (bad : bool) (m : Z -> Z) : list rt_cpe_wr * bool * (Z -> Z) * Z :=
  match c with
  | Return rc => (ws, bad, m, rc)
  | Do op k =>
    match op with
    | Write32 a v =>
      if len ws >=? RT_CTRL_RET_DEFER_MAX_WR then capture (k XAIE_ERR 0) ws true m
      else
        let '(col, row, off) := rt_ctrl_txn_decode_regoff row_shift col_shift a in
        capture (k XAIE_OK 0) (ws ++ [Wr col row off v RT_CPE_WR_UNDECIDED]) bad m
    | MaskWrite32 _ _ _ | BlockWrite32 _ _ => capture (k XAIE_ERR 0) ws true m
    | _ => let '(rc, v) := answer op m in capture (k rc v) ws bad (effect op m)
    end
  end.

Fixpoint capture_ops (ops : list acr_op) (ws : list rt_cpe_wr) (bad : bool) (m : Z -> Z) : list rt_cpe_wr * bool * (Z -> Z) * Z :=
  match ops with
  | [] => (ws, bad, m, XAIE_OK)
  | op :: ops =>
    let '(ws, bad, m, rc) := capture (prog (rt_seq_row_op op)) ws bad m in
    if negb (rc =? XAIE_OK) then (ws, bad, m, rc) else capture_ops ops ws bad m
  end.

Definition clear_defer (s : state) : state := set_ret (Ret [] (ret_wr (ret s)) (ret_defer_on (ret s))) s.
Definition set_wr (ws : list rt_cpe_wr) (s : state) : state := set_ret (Ret (ret_defer (ret s)) ws (ret_defer_on (ret s))) s.

(** The withheld ops are dropped whether or not emitting them fails. *)
Definition finally {A} (m : M A) (f : state -> state) : M A := fun s => let '(s', r) := m s in (f s', r).

Definition rt_ctrl_ret_capture_row : M unit :=
  d ← get (fun s => ret_defer (ret s));
  if len d =? 0 then mret tt
  else if txn_open then finally (__Runtime_ctrl_row_emit d) clear_defer
  else fun s =>
    let '(ws, bad, m, rc) := capture_ops d (ret_wr (ret s)) false (mmio s) in
    if (rc =? XAIE_OK) && negb bad then (clear_defer (set_wr ws (set_mmio m s)), Ok tt)
    else finally (__Runtime_ctrl_row_emit d) clear_defer (set_mmio m s).

Definition rt_ctrl_fabric_tiles (f : fabric) : Z :=
  foldl (fun n r => n +u32 u32 (u32 (c_hi r - c_lo r) + 1)) 0 (f_rows f).

Definition rt_ctrl_ret_split : M unit :=
  f ← get fab; ws ← get (fun s => ret_wr (ret s));
  let '(ws, off, val, nb) :=
    rt_cpe_ret_split ws (rt_ctrl_fabric_tiles f) (ret_bcast_off f) (ret_bcast_val f) RT_CTRL_RET_BCAST_MAX in
  modify (fun s => set_wr ws (set_fab (set_bcast off val (ret_bcast_n (fab s)) (ret_bcast_pending (fab s)) (fab s)) s)) ;;
  forM ws (fun w =>
    when (negb (wr_state w =? RT_CPE_WR_BCAST)) (ok (write32 (tile_addr (wr_row w) (wr_col w) +u64 wr_off w) (wr_val w)))) ;;
  modify (fun s => set_fab (set_bcast off val (u8 nb) (0 <? u8 nb) (fab s)) s).

Definition set_defer_on (b : bool) (s : state) : state := set_ret (Ret (ret_defer (ret s)) (ret_wr (ret s)) b) s.

Definition rt_ctrl_ret_defer_finish : M unit :=
  modify (set_defer_on false) ;;
  ws ← get (fun s => ret_wr (ret s));
  finally (when (negb (len ws =? 0)) rt_ctrl_ret_split) (set_wr []).

(** The tiles of a row's chain. *)
Definition chain_tiles (r : row_chain) : list (Z * Z) := (fun c => (c, c_row r)) <$> range (c_lo r) (c_hi r + 1).

Definition rt_ctrl_ret_flush_mmio : M unit :=
  f ← get fab;
  when (ret_bcast_pending f)
    (modify (fun s => set_fab (set_bcast (ret_bcast_off f) (ret_bcast_val f) (ret_bcast_n f) false (fab s)) s) ;;
     forM (f_rows f) (fun r => forM (chain_tiles r) (fun t =>
       forM (range 0 (ret_bcast_n f)) (fun k =>
         write32 (tile_addr t.2 t.1 +u64 rd (ret_bcast_off f) k) (rd (ret_bcast_val f) k) ;; mret tt)))).

(** ** Planning *)

Definition rt_shim_mm2s_port (ch : Z) : Z := if ch =? 0 then 3 else 7.
Definition rt_shim_s2mm_port (ch : Z) : Z :=
  if aie2ps then (if ch =? 0 then 1 else 3) else (if ch =? 0 then 2 else 3).

Definition rt_ctrl_plan_add_row (row lo hi : Z) (is_top : bool) : M unit :=
  f ← get fab;
  if len (f_rows f) >=? ACR_MAX_ROWS then throw XAIE_INVALID_ARGS
  else
    let before := nrows (f_spine f) in
    let '((sp, (ops, b)), prc) :=
      acr_plan_row_add (f_shim_col f) row lo hi (f_ctrl_id f) is_top (f_spine f, ([], f_book f)) in
    modify (fun s => set_fab (set_plan sp b (fab s)) s) ;;
    match prc with
    | Err _ => throw XAIE_INVALID_ARGS
    | Ok _ =>
      keep ← rt_ctrl_ret_defer_take ops row lo hi;
      __Runtime_ctrl_row_emit keep ;;
      rt_ctrl_ret_capture_row ;;
      when (before <? nrows sp) (modify (fun s => set_fab (set_rows (f_rows (fab s) ++ [Chain row lo hi]) (fab s)) s))
    end.

Definition top_row (rows : list row_chain) : Z :=
  match rows with
  | [] => 0
  | r :: rows => foldl (fun t r => if c_row r >? t then c_row r else t) (c_row r) rows
  end.

Definition rt_ctrl_plan_add_rows (rows : list row_chain) : M unit :=
  if (len rows =? 0) || (len rows >? ACR_MAX_ROWS) then throw XAIE_INVALID_ARGS
  else forM rows (fun r => rt_ctrl_plan_add_row (c_row r) (c_lo r) (c_hi r) (c_row r =? top_row rows)).

Definition rt_ctrl_row_shim_return_route (s2mm_ch : Z) : M unit :=
  rt_ctrl_ret_flush_mmio ;;
  f ← get fab;
  let shim := Loc 0 (f_shim_col f) in
  let rport := rt_shim_s2mm_port s2mm_ch in
  ok (drive (prog (StrmConnCctEnable shim NORTH RT_CTRL_VRET SOUTH rport))) ;;
  ok (drive (prog (EnableAieToShimDmaStrmPort shim rport))).

(** The error path of the caller. *)
Definition on_error {A} (m : M A) (f : state -> state) : M A :=
  fun s => match m s with (s', Err e) => (f s', Err e) | r => r end.

Definition fabric_init (shim_col resp_s2mm_ch ctrl_id : Z) : fabric :=
  Fab shim_col false ctrl_id resp_s2mm_ch (State 0 []) book0 [] (replicate 16 0) (replicate 16 0) 0 false.

Definition is_dedicated (f : fabric) : bool :=
  (0 <? len (f_rows f)) && forallb (fun r => f_shim_col f <? c_lo r) (f_rows f).

(** The end of a plan: the first failure of the two steps, which both run. *)
Definition plan_finish (resp_s2mm_ch : Z) : M unit := fun s =>
  let '(s, rc) := when (0 <=? resp_s2mm_ch) (rt_ctrl_row_shim_return_route resp_s2mm_ch) s in
  let '(s, drc) := rt_ctrl_ret_defer_finish s in
  (s, match rc with Err _ => rc | Ok _ => drc end).

Definition rt_ctrl_plan_init (ht_ready : bool) (shim_col resp_s2mm_ch ctrl_id : Z) (rows : list row_chain) : M unit :=
  modify (fun s => St (fabric_init shim_col resp_s2mm_ch ctrl_id) (Ret [] [] (ht_ready && (0 <=? resp_s2mm_ch))) (mmio s)) ;;
  on_error (rt_ctrl_plan_add_rows rows) (set_ret (Ret [] [] false)) ;;
  modify (fun s => set_fab (set_dedicated (is_dedicated (fab s)) (fab s)) s) ;;
  plan_finish resp_s2mm_ch.

(** ** The cached plan *)

(** The arguments of a plan: the fabric and the device by their addresses,
    then as in [rt_ctrl_plan_init]; and [g_partition_gen] and
    [g_ctrl_high_throughput_ready] when it was made. *)
Record plan_key := Key {
  k_gen : Z; k_f : Z; k_dev : Z; k_shim_col : Z; k_resp : Z; k_ctrl_id : Z; k_rows : list row_chain; k_ready : bool }.

#[export] Instance plan_key_eq_dec : EqDecision plan_key.
Proof. solve_decision. Defined.

(** [g_plan_cache]: the key, and the fabric and the return state after the
    plan. *)
Definition plan_cache : Type := option (plan_key * fabric * ret_state).

Definition run_plan (k : plan_key) : M unit :=
  rt_ctrl_plan_init (k_ready k) (k_shim_col k) (k_resp k) (k_ctrl_id k) (k_rows k).

(** Planning, and what is cached of it. *)
Definition replan (k : plan_key) (s : state) : plan_cache * state * res Z unit :=
  let '(s, rc) := run_plan k s in
  let keep := match rc with Ok _ => f_dedicated (fab s) && (len (k_rows k) <=? ACR_MAX_ROWS) | Err _ => false end in
  (if keep then Some (k, fab s, ret s) else None, s, rc).

Definition __Runtime_ctrl_plan_init (k : plan_key) (cache : plan_cache) (s : state) : plan_cache * state * res Z unit :=
  match cache with
  | Some (k', snap, r) => if bool_decide (k = k') then (cache, St snap r (mmio s), Ok tt) else replan k s
  | None => replan k s
  end.

(** ** The shim *)

Definition rt_ctrl_shim_park_data_masters (f : fabric) (fport : Z) : M unit :=
  forM (range 0 RT_CTRL_SHIM_NORTH_MSTRS) (fun m =>
    drive (prog (StrmConnCctDisable (Loc 0 (f_shim_col f)) SOUTH fport NORTH m)) ;; mret tt).

(** [routing] is the data plane's. *)
Definition __Runtime_ctrl_plan_release (routing : M unit) (mm2s_ch : Z) : M unit :=
  f ← get fab;
  if f_dedicated f then mret tt
  else
    drive (prog (StrmConnCctDisable (Loc 0 (f_shim_col f)) SOUTH (rt_shim_mm2s_port mm2s_ch) NORTH RT_CTRL_VFWD)) ;;
    routing.

Definition __Runtime_ctrl_plan_set_exclusive (on : bool) : M unit :=
  modify (fun s => set_fab (set_dedicated on (fab s)) s).

Definition __Runtime_ctrl_row_close : M unit := modify (set_fab fabric0).

Definition rt_ctrl_row_shim_entry (mm2s_ch : Z) : M unit :=
  f ← get fab;
  let fport := rt_shim_mm2s_port mm2s_ch in
  when (negb (f_dedicated f)) (rt_ctrl_shim_park_data_masters f fport) ;;
  ok (drive (prog (EnableShimDmaToAieStrmPort (Loc 0 (f_shim_col f)) fport))) ;;
  ok (drive (prog (StrmConnCctEnable (Loc 0 (f_shim_col f)) SOUTH fport NORTH RT_CTRL_VFWD))).
End fabric.

(** ** Addressing rows *)

(** The index of a row in the order added, and its chain. *)
Definition rt_ctrl_row_index (f : fabric) (row : Z) : option (Z * row_chain) :=
  match list_find (fun r => c_row r = row) (f_rows f) with
  | Some (i, r) => if Z.of_nat i >? ACR_MAX_ROW_IDX then None else Some (Z.of_nat i, r)
  | None => None
  end.

(** The destination tile and the stream id of a transaction: every row's
    tiles ([row < 0]), or one row's. *)
Definition rt_ctrl_push_dest (f : fabric) (row : Z) : option (Z * Z * Z) :=
  if row <? 0 then
    match last (f_rows f) with Some r => Some (c_lo r, c_row r, RT_RES_ID_BCAST) | None => None end
  else
    match rt_ctrl_row_index f (u8 row) with
    | Some (i, r) => Some (c_lo r, u8 row, u8 ((ACR_CLASS_WHOLE_ROW <<u32 2) |' (i & 3)))
    | None => None
    end.

(** The stream id and the diagnostic column of a class write. *)
Definition class_sid (cls rowidx : Z) : Z := u8 (((cls & 3) <<u32 2) |' (rowidx & 3)).
Definition class_dest (cls : Z) (r : row_chain) : Z := if cls =? ACR_CLASS_ONLY_LAST then c_hi r else c_lo r.
