(* ===== verification/RowFabricProps.v ===== *)
(** * Theorems on the row fabric

    Withholding the return routes is transparent: once the withheld writes are
    flushed, the registers are those that planning without it leaves.

    A computation on the registers that reads and writes only a set of
    addresses is [local_to] that set, and two such computations on disjoint sets
    commute.  The driver's calls are local to a tile, and so are pending writes;
    planning with and without withholding is compared row by row, with the
    invariant that the registers differ by exactly the writes captured so far. *)

From stdpp Require Import base list list_numbers numbers gmap.
From S2P Require Import Prelude.
From S2P Require Import CtrlpktEncode.
From S2P Require Import RuntimePkt.
From S2P Require Import CtrlpktSplit.
From S2P Require Import Resource.
From S2P Require Import ControlPlan.
From S2P Require Import ControlPlanProps.
From S2P Require Import Driver.
From S2P Require Import TraceRes.
From S2P Require Import ShimBatch.
From S2P Require Import RowFabric.

Local Open Scope Z_scope.
Local Open Scope c_scope.

(** ** Computations on part of the registers *)

Definition eqm (m m' : Z -> Z) : Prop := forall x, m x = m' x.

#[export] Instance eqm_equivalence : Equivalence eqm.
Proof. split; [by intros m x|by intros m m' H x|]. intros a b c H1 H2 x. by rewrite H1. Qed.

(** A step: the registers and a return code. *)
Definition reg_step : Type := (Z -> Z) -> (Z -> Z) * Z.

Definition agree (T : Z -> bool) (m m' : Z -> Z) : Prop := forall x, T x = true -> m x = m' x.

Record local_to (T : Z -> bool) (F : reg_step) : Prop := {
  lt_frame : forall m x, T x = false -> (F m).1 x = m x;
  lt_rc : forall m m', agree T m m' -> (F m).2 = (F m').2;
  lt_regs : forall m m', agree T m m' -> agree T (F m).1 (F m').1 }.

(** One step and then, if it succeeded, the next. *)
Definition seq_step (F G : reg_step) : reg_step := fun m =>
  let '(m', rc) := F m in if rc =? XAIE_OK then G m' else (m', rc).

Definition disjoint_sets (T U : Z -> bool) : Prop := forall x, T x = true -> U x = false.

Lemma disjoint_sets_sym T U : disjoint_sets T U -> disjoint_sets U T.
Proof. intros H x Hu. destruct (T x) eqn:E; [|done]. by rewrite H in Hu. Qed.

Lemma local_eqm T F m m' : local_to T F -> eqm m m' -> (F m).2 = (F m').2 /\ eqm (F m).1 (F m').1.
Proof.
  intros [Hf Hr Hm] E. split; [apply Hr; by intros x _|]. intros x.
  destruct (T x) eqn:Tx; [|by rewrite !Hf]. apply (Hm m m'); [by intros y _|done].
Qed.

Lemma local_weaken T U F : (forall x, T x = true -> U x = true) -> local_to T F -> local_to U F.
Proof.
  intros Hs [Hf Hr Hm]. split.
  - intros m x Hx. apply Hf. destruct (T x) eqn:E; [|done]. by rewrite Hs in Hx.
  - intros m m' H. apply Hr. intros x Hx. by apply H, Hs.
  - intros m m' H x Hx. destruct (T x) eqn:E; [|rewrite !Hf by done; by apply H].
    apply (Hm m m'); [|done]. intros y Hy. by apply H, Hs.
Qed.

Lemma local_seq T F G : local_to T F -> local_to T G -> local_to T (seq_step F G).
Proof.
  intros [Hf Hr Hm] [Gf Gr Gm]. unfold seq_step. split.
  - intros m x Hx. specialize (Hf m x Hx). destruct (F m) as [m1 rc]. cbn in Hf.
    destruct (rc =? XAIE_OK); [by rewrite Gf|done].
  - intros m m' H. specialize (Hr _ _ H). specialize (Hm _ _ H).
    destruct (F m) as [m1 rc], (F m') as [m1' rc']. cbn in *. subst rc'. destruct (rc =? XAIE_OK); [by apply Gr|done].
  - intros m m' H. specialize (Hr _ _ H). specialize (Hm _ _ H).
    destruct (F m) as [m1 rc], (F m') as [m1' rc']. cbn in *. subst rc'. destruct (rc =? XAIE_OK); [by apply Gm|done].
Qed.

Lemma local_skip T : local_to T (fun m => (m, XAIE_OK)).
Proof. by split. Qed.

(** Disjoint computations commute. *)
Lemma local_commute T U F G m :
  local_to T F -> local_to U G -> disjoint_sets T U ->
  (F (G m).1).2 = (F m).2 /\ (G (F m).1).2 = (G m).2 /\ eqm (F (G m).1).1 (G (F m).1).1.
Proof.
  intros [Ff Fr Fm] [Gf Gr Gm] D. pose proof (disjoint_sets_sym _ _ D) as D'.
  assert (agree T (G m).1 m) as A1 by (intros x Hx; apply Gf; auto).
  assert (agree U (F m).1 m) as A2 by (intros x Hx; apply Ff; auto).
  split_and!; [by apply Fr|by apply Gr|]. intros x. destruct (T x) eqn:Tx.
  - rewrite (Fm _ _ A1 x Tx). rewrite Gf; [done|auto].
  - rewrite Ff by done. destruct (U x) eqn:Ux; [by rewrite (Gm _ _ A2 x Ux)|]. rewrite !Gf by done. by rewrite Ff.
Qed.

Lemma seq_step_assoc F G H m : seq_step F (seq_step G H) m = seq_step (seq_step F G) H m.
Proof. unfold seq_step. destruct (F m) as [m1 rc]. destruct (rc =? XAIE_OK) eqn:E; [done|]. by rewrite E. Qed.

Lemma seq_step_Ok F G m m' :
  seq_step F G m = (m', XAIE_OK) <-> exists m1, F m = (m1, XAIE_OK) /\ G m1 = (m', XAIE_OK).
Proof.
  unfold seq_step. destruct (F m) as [m1 rc]. destruct (Z.eqb_spec rc XAIE_OK) as [->|Hne].
  - split; [intros E; by exists m1|]. by intros (? & [= <-] & E).
  - split; [intros [= -> ->]; done|]. intros (? & [= <- ->] & _). done.
Qed.

(** Success with registers equal to given ones. *)
Definition reaches (F : reg_step) (m m' : Z -> Z) : Prop := (F m).2 = XAIE_OK /\ eqm (F m).1 m'.

Lemma reaches_seq T F G m m1 m' :
  local_to T G -> reaches F m m1 -> reaches G m1 m' -> reaches (seq_step F G) m m'.
Proof.
  intros HG [E1 E2] [E3 E4]. unfold reaches, seq_step. destruct (F m) as [m1' rc]. cbn in *. subst rc.
  change (XAIE_OK =? XAIE_OK) with true. cbv iota. destruct (local_eqm T G _ _ HG E2) as [H1 H2].
  split; [congruence|]. by rewrite H2.
Qed.

Lemma reaches_seq_inv F G m m' :
  reaches (seq_step F G) m m' -> exists m1, reaches F m m1 /\ reaches G m1 m'.
Proof.
  unfold reaches, seq_step. destruct (F m) as [m1 rc]. cbn. destruct (Z.eqb_spec rc XAIE_OK) as [->|Hne].
  - intros H. by exists m1.
  - intros [? _]. done.
Qed.

Lemma reaches_swap T U F G m m' :
  local_to T F -> local_to U G -> disjoint_sets T U -> reaches (seq_step G F) m m' -> reaches (seq_step F G) m m'.
Proof.
  intros HF HG D (m1 & [E1 E2] & [E3 E4])%reaches_seq_inv. destruct (local_commute T U F G m HF HG D) as (C1 & C2 & C3).
  destruct (local_eqm T F _ _ HF E2) as [F1 F2].
  assert ((F m).2 = XAIE_OK) as HFm by congruence.
  unfold reaches, seq_step. destruct (F m) as [mf rcf] eqn:EF. cbn in *. rewrite HFm.
  change (XAIE_OK =? XAIE_OK) with true. cbv iota. split; [congruence|]. by rewrite <- C3, F2.
Qed.

Lemma reaches_eqm T F m n m' : local_to T F -> eqm m n -> reaches F m m' -> reaches F n m'.
Proof. intros HF E [H1 H2]. destruct (local_eqm T F _ _ HF E) as [F1 F2]. split; [congruence|]. by rewrite <- F2. Qed.

(** ** The device *)

Section rows.
Context (effect : backend_op -> (Z -> Z) -> Z -> Z) (answer : backend_op -> (Z -> Z) -> Z * Z).
Context (prog : strm_call -> driver_call) (tile_addr : Z -> Z -> Z).
Context (row_shift col_shift XAIE_INVALID_ARGS : Z) (txn_open aie2ps : bool).

(** Tiles are given as (column, row). *)
Definition valid_tile (t : Z * Z) : Prop := 0 <= t.1 < 64 /\ 0 <= t.2 < 32.
Definition in_tile (t : Z * Z) (x : Z) : bool := (tile_addr t.2 t.1 <=? x) && (x <? tile_addr t.2 t.1 + 2 ^ 20).
Definition in_tiles (ts : list (Z * Z)) (x : Z) : bool := existsb (fun t => in_tile t x) ts.

(** A register write of a stream-switch function, in a tile. *)
Definition op_in (t : Z * Z) (op : backend_op) : Prop :=
  match op with
  | Write32 a _ | MaskWrite32 a _ _ => in_tile t a = true
  | BlockWrite32 a ws => Forall (fun i => in_tile t (a + 4 * i) = true) (range 0 (len ws))
  | _ => False
  end.
Fixpoint prog_in (t : Z * Z) (c : driver_call) : Prop :=
  match c with
  | Return _ => True
  | Do op k => op_in t op /\ forall rc v, prog_in t (k rc v)
  end.

Fixpoint only_writes (c : driver_call) : Prop :=
  match c with
  | Return _ => True
  | Do op k => (match op with Write32 _ _ | MaskWrite32 _ _ _ | BlockWrite32 _ _ => True | _ => False end) /\
               forall rc v, only_writes (k rc v)
  end.

(** The register space: tiles have their own megabyte, and
    [rt_ctrl_txn_decode_regoff] is the inverse of [XAie_GetTileAddr].  The
    backend: [Write32] stores its word and succeeds; a masked or block write
    changes, and its outcome depends on, nothing outside its tile.  The
    stream-switch functions only write registers, those of the tile they are
    given. *)
Record fabric_device : Prop := {
  fd_decode : forall t o, valid_tile t -> 0 <= o < 2 ^ 20 ->
    rt_ctrl_txn_decode_regoff row_shift col_shift (tile_addr t.2 t.1 + o) = (t.1, t.2, o);
  fd_range : forall t, valid_tile t -> 0 <= tile_addr t.2 t.1 <= 2 ^ 64 - 2 ^ 20;
  fd_write : forall a v m, answer (Write32 a v) m = (XAIE_OK, 0) /\
    effect (Write32 a v) m = fun x => if x =? a then v else m x;
  fd_local : forall t op, valid_tile t -> op_in t op ->
    local_to (in_tile t) (fun m => (effect op m, (answer op m).1)) /\
    forall m m', agree (in_tile t) m m' -> (answer op m).2 = (answer op m').2;
  fd_prog : forall c, valid_tile (strm_tile c) -> prog_in (strm_tile c) (prog c);
  fd_writes : forall c, only_writes (prog c) }.

Hypothesis Hdev : fabric_device.

Abbreviation step c := (direct effect answer c).
Abbreviation op_step op := (step (prog (rt_seq_row_op op))).

(** ** Tiles *)

Lemma in_tile_addr t o : 0 <= o < 2 ^ 20 -> in_tile t (tile_addr t.2 t.1 + o) = true.
Proof using. intros H. unfold in_tile. lia. Qed.

Lemma in_tile_inv t x : in_tile t x = true -> exists o, 0 <= o < 2 ^ 20 /\ x = tile_addr t.2 t.1 + o.
Proof using. unfold in_tile. intros H. exists (x - tile_addr t.2 t.1). lia. Qed.

Lemma in_tile_inj t t' x : valid_tile t -> valid_tile t' -> in_tile t x = true -> in_tile t' x = true -> t = t'.
Proof using Hdev.
  intros Ht Ht' (o & Ho & ->)%in_tile_inv (o' & Ho' & E)%in_tile_inv.
  pose proof (fd_decode Hdev t o Ht Ho) as D. rewrite E, (fd_decode Hdev t' o' Ht' Ho') in D.
  destruct t, t'; cbn in *. congruence.
Qed.

Lemma addr_inj t t' o o' : valid_tile t -> valid_tile t' -> 0 <= o < 2 ^ 20 -> 0 <= o' < 2 ^ 20 ->
  tile_addr t.2 t.1 + o = tile_addr t'.2 t'.1 + o' -> t = t' /\ o = o'.
Proof using Hdev.
  intros Ht Ht' Ho Ho' E. pose proof (fd_decode Hdev t o Ht Ho) as D. rewrite E, (fd_decode Hdev t' o' Ht' Ho') in D.
  destruct t, t'; cbn in *. split; congruence.
Qed.

Lemma addr_u64 t o : valid_tile t -> 0 <= o < 2 ^ 20 -> tile_addr t.2 t.1 +u64 o = tile_addr t.2 t.1 + o.
Proof using Hdev. intros Ht Ho. apply u64_small. pose proof (fd_range Hdev t Ht). lia. Qed.

Lemma tiles_disjoint ts us :
  Forall valid_tile ts -> Forall valid_tile us -> (forall t, t ∈ ts -> t ∉ us) -> disjoint_sets (in_tiles ts) (in_tiles us).
Proof using Hdev.
  intros Hts Hus H x Hx. unfold in_tiles in *. apply existsb_exists in Hx as (t & Ht & Etx).
  apply not_true_iff_false. intros (u & Hu & Eux)%existsb_exists. apply list_elem_of_In in Ht, Hu.
  rewrite Forall_forall in Hts, Hus. apply (H t Ht). by rewrite (in_tile_inj t u x) by auto.
Qed.

Lemma in_tiles_sub ts us x : ts ⊆ us -> in_tiles ts x = true -> in_tiles us x = true.
Proof using.
  intros H (t & Ht & E)%existsb_exists. apply existsb_exists. exists t. split; [|done].
  apply list_elem_of_In, H. by apply list_elem_of_In.
Qed.

(** ** Driver calls are local *)

Lemma step_local t c : valid_tile t -> prog_in t c -> local_to (in_tile t) (step c).
Proof using Hdev.
  intros Ht. induction c as [rc|op k IH]; intros Hc; [by split|]. destruct Hc as [Hop Hk].
  destruct (fd_local Hdev t op Ht Hop) as [Hl Hv]. cbn [direct].
  assert (forall m m', agree (in_tile t) m m' -> answer op m = answer op m') as Ha.
  { intros m m' H. rewrite (surjective_pairing (answer op m)), (surjective_pairing (answer op m')).
    f_equal; [by apply (lt_rc _ _ Hl)|by apply Hv]. }
  split.
  - intros m x Hx. destruct (answer op m) as [rc v]. rewrite (lt_frame _ _ (IH rc v (Hk rc v))) by done.
    by apply (lt_frame _ _ Hl).
  - intros m m' H. rewrite (Ha m m' H). destruct (answer op m') as [rc v].
    apply (lt_rc _ _ (IH rc v (Hk rc v))). by apply (lt_regs _ _ Hl).
  - intros m m' H. rewrite (Ha m m' H). destruct (answer op m') as [rc v].
    apply (lt_regs _ _ (IH rc v (Hk rc v))). by apply (lt_regs _ _ Hl).
Qed.

(** ** Emitting operations *)

Definition op_tile (op : acr_op) : Z * Z := (o_col op, o_row op).

Fixpoint run_ops (ops : list acr_op) : reg_step :=
  match ops with
  | [] => fun m => (m, XAIE_OK)
  | op :: ops => seq_step (op_step op) (run_ops ops)
  end.

Definition rc_result (rc : Z) : res Z unit := if rc =? XAIE_OK then Ok tt else Err rc.

Lemma ok_drive c s : ok (drive effect answer c) s = (set_mmio (step c (mmio s)).1 s, rc_result (step c (mmio s)).2).
Proof using.
  unfold ok, drive, mbind, stE_bind, rc_result. destruct (step c (mmio s)) as [m rc]. cbn [fst snd].
  by destruct (rc =? XAIE_OK).
Qed.

Lemma emit_run ops s :
  __Runtime_ctrl_row_emit effect answer prog ops s =
  (set_mmio (run_ops ops (mmio s)).1 s, rc_result (run_ops ops (mmio s)).2).
Proof using.
  unfold __Runtime_ctrl_row_emit. revert s. induction ops as [|op ops IH]; intros s; cbn [forM run_ops].
  { by destruct s. }
  unfold mbind, stE_bind, seq_step. rewrite ok_drive. destruct (op_step op (mmio s)) as [m rc]. cbn [fst snd].
  unfold rc_result at 1. destruct (rc =? XAIE_OK) eqn:E; [by rewrite IH|]. cbn [fst snd]. unfold rc_result. by rewrite E.
Qed.

Lemma op_tile_call op : strm_tile (rt_seq_row_op op) = op_tile op.
Proof using. unfold rt_seq_row_op, op_tile. by destruct (o_kind op). Qed.

Lemma op_local op : valid_tile (op_tile op) -> local_to (in_tile (op_tile op)) (op_step op).
Proof using Hdev.
  intros H. apply step_local; [done|]. rewrite <- op_tile_call in *. by apply (fd_prog Hdev).
Qed.

Lemma ops_local ops ts : Forall valid_tile ts -> op_tile <$> ops ⊆ ts -> local_to (in_tiles ts) (run_ops ops).
Proof using Hdev.
  intros Hts. induction ops as [|op ops IH]; intros H; [apply local_skip|]. cbn [run_ops].
  assert (op_tile op ∈ ts) as Hin by (apply H; rewrite fmap_cons; apply elem_of_cons; by left).
  apply local_seq; [|apply IH; intros t Ht; apply H; rewrite fmap_cons; apply elem_of_cons; by right].
  eapply local_weaken; [|apply op_local; by apply (proj1 (Forall_forall _ _) Hts)].
  intros x Hx. apply existsb_exists. exists (op_tile op). split; [by apply list_elem_of_In|done].
Qed.

Lemma run_ops_app ops ops' m : run_ops (ops ++ ops') m = seq_step (run_ops ops) (run_ops ops') m.
Proof using.
  revert m. induction ops as [|op ops IH]; intros m; [done|]. cbn [app run_ops]. rewrite <- seq_step_assoc.
  unfold seq_step at 1 2. destruct (op_step op m) as [m1 rc]. destruct (rc =? XAIE_OK); [apply IH|done].
Qed.

(** ** Operations on different tiles can be reordered *)

Definition tiles_of (ops : list acr_op) : list (Z * Z) := op_tile <$> ops.
Definition valid_ops (ops : list acr_op) : Prop := Forall valid_tile (tiles_of ops).

(** No chosen operation comes before one of its tile that is not chosen. *)
Fixpoint movable (p : acr_op -> bool) (ops : list acr_op) : Prop :=
  match ops with
  | [] => True
  | a :: ops => (p a = true -> Forall (fun b => p b = false -> op_tile a <> op_tile b) ops) /\ movable p ops
  end.

Definition chosen (p : acr_op -> bool) (ops : list acr_op) : list acr_op := List.filter p ops.
Definition others (p : acr_op -> bool) (ops : list acr_op) : list acr_op := List.filter (fun op => negb (p op)) ops.

Lemma elem_of_others p ops op : op ∈ others p ops <-> op ∈ ops /\ p op = false.
Proof using. unfold others. rewrite !list_elem_of_In, filter_In, negb_true_iff. done. Qed.

Lemma elem_of_chosen p ops op : op ∈ chosen p ops <-> op ∈ ops /\ p op = true.
Proof using. unfold chosen. by rewrite !list_elem_of_In, filter_In. Qed.

Lemma tiles_split p ops t : t ∈ tiles_of (others p ops ++ chosen p ops) -> t ∈ tiles_of ops.
Proof using.
  unfold tiles_of. intros (op & -> & [H|H]%elem_of_app)%list_elem_of_fmap; apply list_elem_of_fmap_2.
  - by apply elem_of_others in H as [? _].
  - by apply elem_of_chosen in H as [? _].
Qed.

Lemma run_reorder p ops : forall m m', valid_ops ops -> movable p ops ->
  reaches (run_ops (others p ops ++ chosen p ops)) m m' -> reaches (run_ops ops) m m'.
Proof using Hdev.
  induction ops as [|a ops IH]; intros m m' Hv Hm H; [done|]. destruct Hm as [Ha Hm].
  unfold valid_ops in *. cbn [tiles_of fmap list_fmap] in Hv. fold (tiles_of ops) in Hv.
  apply Forall_cons in Hv as [Hva Hv]. pose proof (ops_local ops (tiles_of ops) Hv (fun _ H => H)) as Hl.
  unfold others, chosen in *. cbn [List.filter app run_ops] in *. destruct (p a) eqn:Pa; cbn [negb app] in H.
  - set (K := others p ops). set (D := chosen p ops).
    change (reaches (run_ops (K ++ a :: D)) m m') in H.
    assert (Forall valid_tile (tiles_of K)) as HK.
    { apply Forall_forall. intros t (op & -> & Hop)%list_elem_of_fmap. apply elem_of_others in Hop as [Hop _].
      apply (proj1 (Forall_forall _ _) Hv). by apply list_elem_of_fmap_2. }
    assert (reaches (seq_step (seq_step (run_ops K) (op_step a)) (run_ops D)) m m') as H2.
    { unfold reaches in *. rewrite <- seq_step_assoc. rewrite run_ops_app in H. exact H. }
    apply reaches_seq_inv in H2 as (m1 & H1 & H2).
    apply (reaches_swap (in_tiles [op_tile a]) (in_tiles (tiles_of K))) in H1.
    + assert (reaches (seq_step (op_step a) (seq_step (run_ops K) (run_ops D))) m m') as H3.
      { unfold reaches. rewrite seq_step_assoc. apply (reaches_seq (in_tiles (tiles_of ops)) _ _ _ m1); [|done|done].
        apply ops_local; [done|]. intros t (op & -> & Hop)%list_elem_of_fmap. apply list_elem_of_fmap_2.
        by apply elem_of_chosen in Hop as [? _]. }
      apply reaches_seq_inv in H3 as (m2 & H3 & H4).
      apply (reaches_seq (in_tiles (tiles_of ops)) _ _ _ m2); [done|done|]. apply IH; [done|done|].
      unfold reaches in *. fold (others p ops) (chosen p ops). fold K D. by rewrite run_ops_app.
    + eapply local_weaken; [|by apply op_local]. intros x Hx. unfold in_tiles. cbn [existsb]. by rewrite Hx.
    + by apply ops_local.
    + apply tiles_disjoint; [by apply Forall_singleton|done|].
      intros t ->%list_elem_of_singleton (op & E & [Hop Hp]%elem_of_others)%list_elem_of_fmap.
      specialize (Ha eq_refl). rewrite Forall_forall in Ha. by apply (Ha op Hop Hp).
  - apply reaches_seq_inv in H as (m1 & H1 & H2).
    apply (reaches_seq (in_tiles (tiles_of ops)) _ _ _ m1); [done|done|]. by apply IH.
Qed.

(** ** Pending writes *)

Definition wr_addr (w : rt_cpe_wr) : Z := tile_addr (wr_row w) (wr_col w) + wr_off w.
Definition apply_wr (ws : list rt_cpe_wr) (m : Z -> Z) : Z -> Z :=
  foldl (fun m w x => if x =? wr_addr w then wr_val w else m x) m ws.
Definition wr_in (w : rt_cpe_wr) : Prop := valid_tile (tile_of w) /\ 0 <= wr_off w < 2 ^ 20.

Lemma apply_app ws ws' m : apply_wr (ws ++ ws') m = apply_wr ws' (apply_wr ws m).
Proof using. apply foldl_app. Qed.

Lemma apply_local ws ts :
  Forall wr_in ws -> map tile_of ws ⊆ ts -> local_to (in_tiles ts) (fun m => (apply_wr ws m, XAIE_OK)).
Proof using Hdev.
  induction ws as [|w ws IH] using rev_ind; intros Hw Hts; [by split|].
  apply Forall_app in Hw as [Hw [Hin _]%Forall_cons].
  assert (map tile_of ws ⊆ ts) as Hts1 by (intros t Ht; apply Hts; rewrite map_app; apply elem_of_app; by left).
  assert (in_tiles ts (wr_addr w) = true) as Hx.
  { apply existsb_exists. exists (tile_of w). split; [|by apply (in_tile_addr (tile_of w)), Hin].
    apply list_elem_of_In, Hts. rewrite map_app. apply elem_of_app. right. by left. }
  specialize (IH Hw Hts1). destruct IH as [If Ir Ig]. cbn [fst snd] in *.
  split; cbn [fst snd].
  - intros m x H. rewrite apply_app. cbn. destruct (Z.eqb_spec x (wr_addr w)) as [->|]; [congruence|by apply If].
  - done.
  - intros m m' H x Hxt. rewrite !apply_app. cbn. destruct (x =? wr_addr w); [done|]. by apply Ig.
Qed.

(** As register writes of [CtrlpktSplit]. *)
Lemma apply_after ws m t o : Forall wr_in ws -> valid_tile t -> 0 <= o < 2 ^ 20 ->
  apply_wr ws m (tile_addr t.2 t.1 + o) = after_writes ws (m (tile_addr t.2 t.1 + o)) t o.
Proof using Hdev.
  intros Hw Ht Ho. induction Hw as [|w ws [Hw1 Hw2] _ IH] in m |- *; [done|].
  unfold apply_wr, after_writes in *. cbn [foldl]. rewrite IH. f_equal.
  destruct (Z.eqb_spec (tile_addr t.2 t.1 + o) (wr_addr w)) as [E|E].
  - apply (addr_inj t (tile_of w) o (wr_off w)) in E as [-> ->]; try done.
    rewrite Z.eqb_refl, bool_decide_true by done. done.
  - destruct ((wr_off w =? o) && bool_decide (tile_of w = t)) eqn:E2; [|done].
    apply andb_true_iff in E2 as [E2 <-%bool_decide_eq_true]. exfalso. apply E. unfold wr_addr. cbn. f_equal. lia.
Qed.

(** ** Capturing *)

(** What a captured call leaves: nothing changed on the device, and the
    writes it makes of tile [t]. *)
Record captured (t : Z * Z) (F : reg_step) (ws : list rt_cpe_wr) (rc : Z) (new : list rt_cpe_wr) : Prop := {
  cp_tile : Forall (fun w => tile_of w = t /\ 0 <= wr_off w < 2 ^ 20 /\ wr_state w = RT_CPE_WR_UNDECIDED) new;
  cp_len : len (ws ++ new) <= RT_CTRL_RET_DEFER_MAX_WR;
  cp_run : forall m, (F m).2 = rc /\ eqm (F m).1 (apply_wr new m) }.

Lemma capture_bad t c : forall ws m, valid_tile t -> prog_in t c ->
  let '(_, bad, m', _) := capture effect answer row_shift col_shift c ws true m in bad = true /\ m' = m.
Proof using.
  induction c as [rc|op k IH]; intros ws m Ht Hc; [done|]. destruct Hc as [Hop Hk].
  destruct op; try by destruct Hop.
  - cbn [capture]. destruct (_ >=? _); [by apply IH|].
    destruct (rt_ctrl_txn_decode_regoff row_shift col_shift regoff) as [[col row] off]. by apply IH.
  - by apply IH.
  - by apply IH.
Qed.

Lemma capture_spec t c : forall ws m, valid_tile t -> prog_in t c -> len ws <= RT_CTRL_RET_DEFER_MAX_WR ->
  let '(ws', bad, m', rc) := capture effect answer row_shift col_shift c ws false m in
  m' = m /\ (bad = false -> exists new, ws' = ws ++ new /\ captured t (step c) ws rc new).
Proof using Hdev.
  induction c as [rc|op k IH]; intros ws m Ht Hc Hlen.
  { split; [done|]. intros _. exists []. rewrite app_nil_r. split; [done|]. split; [constructor|by rewrite app_nil_r|done]. }
  destruct Hc as [Hop Hk]. destruct op; try by destruct Hop.
  - cbn [capture]. destruct (Z.geb_spec (len ws) RT_CTRL_RET_DEFER_MAX_WR) as [Hge|Hlt].
    { pose proof (capture_bad t (k XAIE_ERR 0) ws m Ht (Hk _ _)) as Hb.
      destruct (capture _ _ _ _ _ _ true m) as [[[ws' bad] m'] rc]. destruct Hb as [-> ->]. done. }
    cbn [op_in] in Hop. apply in_tile_inv in Hop as (o & Ho & ->). rewrite (fd_decode Hdev t o Ht Ho).
    set (w := Wr t.1 t.2 o val RT_CPE_WR_UNDECIDED).
    specialize (IH XAIE_OK 0 (ws ++ [w]) m Ht (Hk _ _)). rewrite len_app in IH. change (len [w]) with 1 in IH.
    specialize (IH ltac:(lia)).
    destruct (capture _ _ _ _ _ (ws ++ [w]) false m) as [[[ws' bad] m'] rc]. destruct IH as [-> IH]. split; [done|].
    intros Hb. destruct (IH Hb) as (new & -> & [C1 C2 C3]). exists (w :: new). rewrite <- app_assoc in *. split; [done|].
    split; [constructor; [by destruct t|done]|done|].
    intros m1. cbn [direct]. destruct (fd_write Hdev (tile_addr t.2 t.1 + o) val m1) as [-> Hw].
    destruct (C3 (effect (Write32 (tile_addr t.2 t.1 + o) val) m1)) as [E1 E2]. split; [done|].
    intros x. rewrite E2. cbn [apply_wr foldl].
    refine (lt_regs _ _ (local_weaken _ (fun _ => true) _ (fun _ _ => eq_refl) (apply_local new (map tile_of new) _ (fun _ H => H))) _ _ _ x eq_refl).
    + eapply Forall_impl; [exact C1|]. intros w' (E & ? & _). split; [by rewrite E|done].
    + intros y _. by rewrite Hw.
  - cbn [capture]. pose proof (capture_bad t (k XAIE_ERR 0) ws m Ht (Hk _ _)) as Hb.
    destruct (capture _ _ _ _ _ _ true m) as [[[ws' bad] m'] rc]. by destruct Hb as [-> ->].
  - cbn [capture]. pose proof (capture_bad t (k XAIE_ERR 0) ws m Ht (Hk _ _)) as Hb.
    destruct (capture _ _ _ _ _ _ true m) as [[[ws' bad] m'] rc]. by destruct Hb as [-> ->].
Qed.

Lemma capture_ops_bad ops : forall ws m, valid_ops ops ->
  let '(_, bad, m', _) := capture_ops effect answer prog row_shift col_shift ops ws true m in bad = true /\ m' = m.
Proof using Hdev.
  induction ops as [|op ops IH]; intros ws m Hv; [done|]. apply Forall_cons in Hv as [Ht Hv]. cbn [capture_ops].
  pose proof (capture_bad (op_tile op) (prog (rt_seq_row_op op)) ws m Ht) as Hb.
  destruct (capture _ _ _ _ _ ws true m) as [[[ws1 bad] m1] rc].
  destruct Hb as [-> ->]; [rewrite <- op_tile_call in *; by apply (fd_prog Hdev)|].
  destruct (rc =? XAIE_OK); cbn [negb]; [by apply IH|done].
Qed.

Definition pending_wr (w : rt_cpe_wr) : Prop := wr_in w /\ wr_state w = RT_CPE_WR_UNDECIDED.

Lemma capture_ops_spec ops : forall ws m, valid_ops ops -> len ws <= RT_CTRL_RET_DEFER_MAX_WR ->
  let '(ws', bad, m', rc) := capture_ops effect answer prog row_shift col_shift ops ws false m in
  m' = m /\ (bad = false -> rc = XAIE_OK ->
    exists new, ws' = ws ++ new /\ Forall (fun w => pending_wr w /\ tile_of w ∈ tiles_of ops) new /\
      len ws' <= RT_CTRL_RET_DEFER_MAX_WR /\ forall m, reaches (run_ops ops) m (apply_wr new m)).
Proof using Hdev.
  induction ops as [|op ops IH]; intros ws m Hv Hlen.
  { split; [done|]. intros _ _. exists []. rewrite app_nil_r. split_and!; [done|constructor|done|done]. }
  apply Forall_cons in Hv as [Ht Hv]. cbn [capture_ops].
  pose proof (capture_spec (op_tile op) (prog (rt_seq_row_op op)) ws m Ht) as Hc.
  assert (prog_in (op_tile op) (prog (rt_seq_row_op op))) as Hp
    by (rewrite <- op_tile_call in *; by apply (fd_prog Hdev)).
  specialize (Hc Hp Hlen). destruct (capture _ _ _ _ _ ws false m) as [[[ws1 bad] m1] rc]. destruct Hc as [-> Hc].
  destruct (Z.eqb_spec rc XAIE_OK) as [->|Hne]; cbn [negb]; [|split; [done|by intros _ ->]].
  destruct bad.
  { pose proof (capture_ops_bad ops ws1 m Hv) as Hb.
    destruct (capture_ops _ _ _ _ _ ops ws1 true m) as [[[ws2 bad] m2] rc]. by destruct Hb as [-> ->]. }
  destruct (Hc eq_refl) as (new & -> & [C1 C2 C3]). specialize (IH (ws ++ new) m Hv C2).
  destruct (capture_ops _ _ _ _ _ ops (ws ++ new) false m) as [[[ws2 bad] m2] rc]. destruct IH as [-> IH].
  split; [done|]. intros Hb Hrc. destruct (IH Hb Hrc) as (new2 & -> & D1 & D2 & D3).
  exists (new ++ new2). split_and!; [by rewrite app_assoc| |done|].
  - apply Forall_app. split.
    + eapply Forall_impl; [exact C1|]. intros w (E & Ho & Eu). unfold pending_wr, wr_in. rewrite E.
      split; [done|]. left.
    + eapply Forall_impl; [exact D1|]. intros w [? Hin]. split; [done|]. by right.
  - intros m3. cbn [run_ops]. apply (reaches_seq (in_tiles (tiles_of ops)) _ _ _ (apply_wr new m3)); [|by apply C3|].
    + by apply ops_local.
    + rewrite apply_app. apply D3.
Qed.

(** ** What is withheld *)

Lemma defer_take_spec row lo hi ops : forall d, len d + len ops <= ACR_MAX_OPS ->
  defer_take row lo hi ops d = (others (deferred row lo hi) ops, d ++ chosen (deferred row lo hi) ops).
Proof using.
  induction ops as [|op ops IH]; intros d Hd; cbn [defer_take]; unfold others, chosen in *; cbn [List.filter].
  { by rewrite app_nil_r. }
  rewrite len_cons in Hd. pose proof (len_nonneg ops).
  destruct (deferred row lo hi op); cbn [negb andb].
  - replace (len d <? ACR_MAX_OPS) with true by lia. rewrite IH by (rewrite len_app; change (len [op]) with 1; lia).
    by rewrite <- app_assoc.
  - by rewrite IH by lia.
Qed.

Lemma movable_app p A B :
  Forall (fun a => p a = false) A -> (forall a b, a ∈ B -> b ∈ B -> op_tile a = op_tile b -> p a = p b) ->
  movable p (A ++ B).
Proof using.
  intros HA HB. induction HA as [|a A Ha _ IH]; cbn [app movable].
  - induction B as [|b B IH]; cbn [movable]; [done|]. split.
    + intros Hb. apply Forall_forall. intros c Hc Pc E. rewrite (HB b c) in Hb; [congruence|by left|by right|done].
    + apply IH. intros x y Hx Hy. apply HB; by right.
  - split; [congruence|done].
Qed.

Lemma chain_tile_ops row rowidx lo tlo hi id shim top c :
  Forall (fun op => op_tile op = (c, row) /\ o_is_ret op = 0) (emits (chain_acts row rowidx lo tlo hi id shim ACR_SOUTH top c)).
Proof using.
  unfold chain_acts, if_acts, master_acts. destruct (c =? lo), ((shim >=? 0) && (c =? u8 shim)), top, (c >=? tlo), (c =? hi);
    cbn; repeat constructor.
Qed.

Lemma return_tile_ops row lo tlo hi top c :
  Forall (fun op => op_tile op = (c, row) /\ o_is_ret op = 1) (emits (return_acts row lo tlo hi top c)).
Proof using.
  unfold return_acts, if_acts, master_acts, ret_slot_acts. destruct (c =? lo), top, (c >=? tlo), (c <? hi);
    cbn; repeat constructor.
Qed.

(** The operations of a new row. *)
Record row_ops (s : acr_state) (row lo hi : Z) (ops : list acr_op) : Prop := {
  ro_valid : valid_ops ops;
  ro_new : Forall (fun op => 1 <= o_row op /\ o_row op ∉ rows s) ops;
  ro_movable : movable (deferred row lo hi) ops }.

Lemma row_ops_shape s shim row lo hi id top :
  row_args_ok s shim row lo hi -> row <= 16 -> 0 <= spine_top s < 255 ->
  row_ops s row lo hi (emits (row_acts s shim row lo hi id top)).
Proof using.
  intros (H1 & H2 & H3 & _ & Hh) Hrow Hsp. unfold row_acts. rewrite (u8_small (row - 1)), (u8_small (spine_top s + 1)) by lia.
  assert (forall r, acr_row_is_head s r = false -> r ∉ rows s) as Hhead.
  { intros r E Hr. apply not_true_iff_false in E. apply E. apply existsb_exists. exists r.
    split; [by apply list_elem_of_In|apply Z.eqb_refl]. }
  set (p := deferred row lo hi).
  assert (forall r, Forall (fun op => op_tile op = (shim, r) /\ r ∉ rows s) (emits (hop_acts s shim r))) as Hhop.
  { intros r. unfold hop_acts, if_acts. destruct (acr_row_is_head s r) eqn:E; cbn; [constructor|].
    repeat (apply Forall_cons; split; [split; [done|by apply Hhead]|]). constructor. }
  assert (Forall (fun op => valid_tile (op_tile op) /\ 1 <= o_row op < row /\ o_row op ∉ rows s)
            (concat (map (fun x => emits (hop_acts s shim x)) (range (spine_top s + 1) (row - 1 + 1))))) as A1.
  { apply Forall_concat_map, Forall_forall. intros r Hr%elem_of_seqZ. eapply Forall_impl; [apply Hhop|].
    intros op [E Hn]. unfold op_tile in E. injection E as Ec Er. unfold valid_tile, op_tile. cbn. rewrite Er, Ec.
    split_and!; [lia..|done]. }
  assert (Forall (fun op => valid_tile (op_tile op) /\ o_row op = row /\ o_is_ret op = 0)
            (concat (map (fun c => emits (chain_acts row (nrows s) shim lo hi id shim ACR_SOUTH top c)) (range shim (hi + 1))))) as A2.
  { apply Forall_concat_map, Forall_forall. intros c Hc%elem_of_seqZ. eapply Forall_impl; [apply chain_tile_ops|].
    intros op [E Hn]. unfold op_tile in E. injection E as Ec Er. unfold valid_tile, op_tile. cbn. rewrite Er, Ec.
    split_and!; [lia..|done]. }
  assert (Forall (fun op => valid_tile (op_tile op) /\ o_row op = row /\ o_is_ret op = 1)
            (concat (map (fun c => emits (return_acts row shim lo hi top c)) (range shim (hi + 1))))) as A3.
  { apply Forall_concat_map, Forall_forall. intros c Hc%elem_of_seqZ. eapply Forall_impl; [apply return_tile_ops|].
    intros op [E Hn]. unfold op_tile in E. injection E as Ec Er. unfold valid_tile, op_tile. cbn. rewrite Er, Ec.
    split_and!; [lia..|done]. }
  rewrite !emits_app, !emits_concat. split.
  - unfold valid_ops, tiles_of. rewrite !fmap_app, !Forall_app, !Forall_fmap.
    split_and!; (eapply Forall_impl; [eassumption|]); by intros op (? & _).
  - rewrite !Forall_app. split_and!; (eapply Forall_impl; [eassumption|]).
    + intros op (_ & ? & ?). split; [lia|done].
    + intros op (_ & -> & _). split; [lia|by apply Hhead].
    + intros op (_ & -> & _). split; [lia|by apply Hhead].
  - rewrite app_assoc. apply movable_app.
    + apply Forall_app. split; (eapply Forall_impl; [eassumption|]); intros op; unfold p, deferred.
      * intros (_ & ? & _). replace (o_row op =? row) with false by lia. by rewrite andb_false_r.
      * by intros (_ & _ & ->).
    + intros a b Ha Hb E. rewrite Forall_forall in A3. destruct (A3 a Ha) as (_ & Ra & Ia), (A3 b Hb) as (_ & Rb & Ib).
      unfold p, deferred. rewrite Ra, Rb, Ia, Ib. injection E as -> _. done.
Qed.

Lemma run_acts_keys l : forall o b o' b', run_acts l (o, b) = ((o', b'), Ok tt) -> Forall (fun k => key_ok k = true) (books l).
Proof using.
  induction l as [|a l IH]; intros o b o' b' H; [constructor|].
  unfold run_acts in H. cbn [forM] in H. apply bind_inv_Ok in H as ([o1 b1] & [] & H1 & H2).
  destruct a as [k|op].
  - rewrite book_port_spec in H1. destruct (key_ok k) eqn:E; [|done]. constructor; [done|]. eapply IH. exact H2.
  - eapply IH. exact H2.
Qed.

Lemma row_bound s o b o' b' shim row lo hi id top :
  row_args_ok s shim row lo hi -> run_acts (row_acts s shim row lo hi id top) (o, b) = ((o', b'), Ok tt) -> row <= 16.
Proof using.
  intros (H1 & H2 & H3 & _) H. apply run_acts_keys in H. rewrite Forall_forall in H.
  specialize (H (false, (row, shim), ACR_SOUTH)). cbn [key_ok] in H. unfold ACR_MAX_ROWS in H.
  assert ((row <=? 16) && (shim <? 64) = true) as E; [|lia]. apply H. rewrite row_books. apply elem_of_app. left.
  apply list_elem_of_In, in_concat. eexists. split.
  - apply in_map_iff. exists shim. split; [done|]. apply list_elem_of_In, elem_of_seqZ. lia.
  - apply list_elem_of_In. unfold chain_acts. cbn [app books omap list_omap]. rewrite Z.eqb_refl. left.
Qed.

(** ** Emitting a row with and without withholding *)

Abbreviation emit_row row lo hi ops :=
  (keep ← rt_ctrl_ret_defer_take ops row lo hi;
   __Runtime_ctrl_row_emit effect answer prog keep ;;
   rt_ctrl_ret_capture_row effect answer prog row_shift col_shift txn_open).

Lemma emit_row_direct row lo hi ops s : ret s = Ret [] [] false ->
  emit_row row lo hi ops s = (set_mmio (run_ops ops (mmio s)).1 s, rc_result (run_ops ops (mmio s)).2).
Proof using.
  intros Hr. unfold rt_ctrl_ret_defer_take, mbind at 1, stE_bind at 1. rewrite Hr. cbn [negb ret_defer_on].
  unfold mbind, stE_bind. rewrite emit_run. unfold rc_result. destruct (_ =? XAIE_OK); [|done].
  unfold rt_ctrl_ret_capture_row, mbind, stE_bind, gets. unfold set_mmio. cbn [fab ret mmio]. rewrite Hr. by cbn.
Qed.

(** The writes withheld of a row: either they were captured, or they were
    made at once. *)
Definition withheld (p : acr_op -> bool) (ops : list acr_op) (ws ws' : list rt_cpe_wr) (m m' : Z -> Z) : Prop :=
  (exists new, ws' = ws ++ new /\ Forall (fun w => pending_wr w /\ tile_of w ∈ tiles_of (chosen p ops)) new /\
     reaches (run_ops (others p ops)) m m' /\ forall m, reaches (run_ops (chosen p ops)) m (apply_wr new m)) \/
  (ws' = ws /\ reaches (run_ops (others p ops ++ chosen p ops)) m m').

Lemma rc_result_Ok rc : rc_result rc = Ok tt -> rc = XAIE_OK.
Proof using. unfold rc_result. destruct (Z.eqb_spec rc XAIE_OK); [done|]. done. Qed.

Lemma emit_defer s s' : finally (__Runtime_ctrl_row_emit effect answer prog (ret_defer (ret s))) clear_defer s = (s', Ok tt) ->
  s' = St (fab s) (Ret [] (ret_wr (ret s)) (ret_defer_on (ret s))) (run_ops (ret_defer (ret s)) (mmio s)).1 /\
  (run_ops (ret_defer (ret s)) (mmio s)).2 = XAIE_OK.
Proof using. unfold finally. rewrite emit_run. intros [= <- H]. split; [done|by apply rc_result_Ok]. Qed.

Lemma emit_row_deferred row lo hi ops ws s s' :
  ret s = Ret [] ws true -> len ops <= ACR_MAX_OPS -> valid_ops ops -> len ws <= RT_CTRL_RET_DEFER_MAX_WR ->
  emit_row row lo hi ops s = (s', Ok tt) ->
  exists ws' m', s' = St (fab s) (Ret [] ws' true) m' /\ len ws' <= RT_CTRL_RET_DEFER_MAX_WR /\
    withheld (deferred row lo hi) ops ws ws' (mmio s) m'.
Proof using Hdev.
  intros Hr Hlen Hv Hw H. set (p := deferred row lo hi).
  apply bind_inv_Ok in H as (s1 & keep & H1 & H). unfold rt_ctrl_ret_defer_take in H1. rewrite Hr in H1.
  cbn [ret_defer_on ret_defer ret_wr negb] in H1. rewrite defer_take_spec in H1 by (unfold len in *; simpl length; lia).
  injection H1 as <- <-. fold p in H. cbn [app] in H.
  apply bind_inv_Ok in H as (s2 & [] & H2 & H). rewrite emit_run in H2. injection H2 as <- H2%rc_result_Ok.
  cbn [set_ret mmio] in *. unfold set_mmio, set_ret in H. cbn [fab ret mmio] in H.
  assert (valid_ops (chosen p ops)) as HvD.
  { apply Forall_forall. intros t (op & -> & [Hop _]%elem_of_chosen)%list_elem_of_fmap.
    apply (proj1 (Forall_forall _ _) Hv). by apply list_elem_of_fmap_2. }
  set (m1 := (run_ops (others p ops) (mmio s)).1) in *.
  assert (reaches (run_ops (others p ops)) (mmio s) m1) as HK by done.
  assert (forall m2, (run_ops (chosen p ops) m1).2 = XAIE_OK -> m2 = (run_ops (chosen p ops) m1).1 ->
            reaches (run_ops (others p ops ++ chosen p ops)) (mmio s) m2) as Hnow.
  { intros m2 E ->. unfold reaches. rewrite run_ops_app.
    apply (reaches_seq (in_tiles (tiles_of (chosen p ops))) _ _ _ m1); [by apply ops_local|done|done]. }
  unfold rt_ctrl_ret_capture_row in H. apply bind_inv_Ok in H as (s3 & d & H3 & H). injection H3 as <- <-.
  cbn [ret ret_defer] in H. destruct (Z.eqb_spec (len (chosen p ops)) 0) as [El|El].
  { assert (chosen p ops = []) as E0 by (destruct (chosen p ops); [done|by rewrite len_cons in El; pose proof (len_nonneg l); lia]).
    injection H as <-. exists ws, m1. split_and!; [by rewrite E0|done|].
    - left. exists []. rewrite app_nil_r, E0.
      split_and!; [done|constructor|done|done]. }
  destruct txn_open.
  { apply (emit_defer (St _ (Ret _ _ _) _)) in H as [-> E]. cbn [fab ret ret_wr ret_defer ret_defer_on mmio] in *.
    exists ws, (run_ops (chosen p ops) m1).1. split_and!; [done|done|]. right. split; [done|by apply Hnow]. }
  cbn [ret ret_wr mmio] in H.
  pose proof (capture_ops_spec (chosen p ops) ws m1 HvD Hw) as Hc.
  destruct (capture_ops _ _ _ _ _ (chosen p ops) ws false m1) as [[[ws1 bad] m2] rc]. destruct Hc as [-> Hc].
  destruct ((rc =? XAIE_OK) && negb bad) eqn:E.
  - injection H as <-. apply andb_true_iff in E as [->%Z.eqb_eq ->%negb_true_iff].
    destruct (Hc eq_refl eq_refl) as (new & -> & C1 & C2 & C3). exists (ws ++ new), m1.
    split_and!; [done|done|]. left. by exists new.
  - apply (emit_defer (St _ (Ret _ _ _) _)) in H as [-> E2]. cbn [fab ret ret_wr ret_defer ret_defer_on mmio] in *.
    exists ws, (run_ops (chosen p ops) m1).1. split_and!; [done|done|]. right. split; [done|by apply Hnow].
Qed.

(** The same row emitted at once, when some writes of earlier rows are still
    pending. *)
Lemma withheld_direct p ops ws ws' m m' :
  valid_ops ops -> movable p ops -> Forall wr_in ws -> (forall t, t ∈ map tile_of ws -> t ∉ tiles_of ops) ->
  withheld p ops ws ws' m m' -> reaches (run_ops ops) (apply_wr ws m) (apply_wr ws' m').
Proof using Hdev.
  intros Hv Hm Hws Hdis H. apply (run_reorder p ops); [done|done|].
  set (O := others p ops ++ chosen p ops).
  assert (tiles_of O ⊆ tiles_of ops) as HO by (intros t; apply tiles_split).
  assert (Forall valid_tile (map tile_of ws)) as Hwt.
  { apply Forall_forall. intros t (w & -> & Hw)%list_elem_of_fmap. rewrite Forall_forall in Hws. by apply Hws. }
  assert (forall L n n', tiles_of L ⊆ tiles_of ops -> reaches (run_ops L) n n' ->
            reaches (run_ops L) (apply_wr ws n) (apply_wr ws n')) as Hcomm.
  { intros L n n' HL [E1 E2]. pose proof (apply_local ws _ Hws (fun _ H => H)) as Hl.
    destruct (local_commute _ _ (run_ops L) (fun m => (apply_wr ws m, XAIE_OK)) n (ops_local L (tiles_of ops) Hv HL) Hl)
      as (C1 & _ & C3).
    - apply disjoint_sets_sym. by apply tiles_disjoint.
    - cbn [fst snd] in *. split; [congruence|]. rewrite C3. by apply (local_eqm _ _ _ _ Hl). }
  destruct H as [(new & -> & Hn & H1 & H2)|[-> H]]; [|by apply Hcomm].
  unfold reaches, O. rewrite run_ops_app. apply (reaches_seq (in_tiles (tiles_of ops)) _ _ _ (apply_wr ws m')).
  - apply ops_local; [done|]. intros t Ht. apply HO. unfold O, tiles_of. rewrite fmap_app. apply elem_of_app. by right.
  - apply Hcomm; [|done]. intros t Ht. apply HO. unfold O, tiles_of. rewrite fmap_app. apply elem_of_app. by left.
  - rewrite apply_app. apply H2.
Qed.

(** ** The invariant of planning *)

Abbreviation add_row row lo hi top :=
  (rt_ctrl_plan_add_row effect answer prog row_shift col_shift XAIE_INVALID_ARGS txn_open row lo hi top).

Definition record_row (before : Z) (sp : acr_state) (row lo hi : Z) : stE state Z unit :=
  when (before <? nrows sp) (modify (fun s => set_fab (set_rows (f_rows (fab s) ++ [Chain row lo hi]) (fab s)) s)).

Lemma add_row_run row lo hi top s sp ops b :
  len (f_rows (fab s)) < ACR_MAX_ROWS ->
  acr_plan_row_add (f_shim_col (fab s)) row lo hi (f_ctrl_id (fab s)) top (f_spine (fab s), ([], f_book (fab s))) =
    ((sp, (ops, b)), Ok tt) ->
  add_row row lo hi top s =
  (emit_row row lo hi ops ;; record_row (nrows (f_spine (fab s))) sp row lo hi) (set_fab (set_plan sp b (fab s)) s).
Proof using.
  intros Hl Hp. unfold rt_ctrl_plan_add_row. erewrite bind_Ok by done.
  replace (len (f_rows (fab s)) >=? ACR_MAX_ROWS) with false by lia. rewrite Hp. erewrite bind_Ok by done.
  unfold mbind, stE_bind. destruct (rt_ctrl_ret_defer_take ops row lo hi _) as [s1 [keep|e]]; [|done].
  destruct (__Runtime_ctrl_row_emit effect answer prog keep s1) as [s2 [[]|e]]; [|done]. done.
Qed.

Lemma add_row_inv row lo hi top s s' :
  add_row row lo hi top s = (s', Ok tt) ->
  len (f_rows (fab s)) < ACR_MAX_ROWS /\
  exists sp ops b,
    acr_plan_row_add (f_shim_col (fab s)) row lo hi (f_ctrl_id (fab s)) top (f_spine (fab s), ([], f_book (fab s))) =
    ((sp, (ops, b)), Ok tt).
Proof using.
  unfold rt_ctrl_plan_add_row. erewrite bind_Ok by done.
  destruct (Z.geb_spec (len (f_rows (fab s))) ACR_MAX_ROWS) as [|Hl]; [done|].
  destruct (acr_plan_row_add _ _ _ _ _ _ _) as [[sp [ops b]] [[]|e]].
  - intros _. split; [lia|]. by exists sp, ops, b.
  - intros H. by apply bind_inv_Ok in H as (? & ? & ? & ?).
Qed.

(** The rows of the fabric are the planner's. *)
Record fab_ok (f : fabric) : Prop := {
  fo_rows : rows (f_spine f) = c_row <$> f_rows f;
  fo_nodup : NoDup (c_row <$> f_rows f);
  fo_chain : Forall (fun r => 1 <= c_row r <= 16 /\ 0 <= c_lo r <= c_hi r /\ c_hi r < 64) (f_rows f);
  fo_spine : 0 <= spine_top (f_spine f) < 255;
  fo_len : len (f_rows f) <= ACR_MAX_ROWS;
  fo_shim : 0 <= f_shim_col f;
  fo_bcast : len (ret_bcast_off f) = RT_CTRL_RET_BCAST_MAX /\ len (ret_bcast_val f) = RT_CTRL_RET_BCAST_MAX;
  fo_none : ret_bcast_pending f = false }.

(** A write to a consumer tile of the fabric. *)
Definition covered (f : fabric) (w : rt_cpe_wr) : Prop :=
  exists r, r ∈ f_rows f /\ c_row r = wr_row w /\ c_lo r <= wr_col w <= c_hi r.

(** Planning with ([sd]) and without ([si]) withholding, while the writes
    [ws] are withheld. *)
Record sim (ws : list rt_cpe_wr) (sd si : state) : Prop := {
  sim_fab : fab si = fab sd;
  sim_ret : ret sd = Ret [] ws true /\ ret si = Ret [] [] false;
  sim_ok : fab_ok (fab sd);
  sim_wr : Forall (fun w => pending_wr w /\ covered (fab sd) w) ws;
  sim_len : len ws <= RT_CTRL_RET_DEFER_MAX_WR;
  sim_mmio : eqm (mmio si) (apply_wr ws (mmio sd)) }.

Lemma fab_ok_step f s' b row lo hi :
  fab_ok f -> len (f_rows f) < ACR_MAX_ROWS -> row_args_ok (f_spine f) (f_shim_col f) row lo hi -> row <= 16 ->
  s' = State (top_after (f_spine f) row) (rows (f_spine f) ++ [row]) ->
  fab_ok (set_rows (f_rows f ++ [Chain row lo hi]) (set_plan s' b f)).
Proof using.
  intros [F1 F2 F3 F4 FL F5 F6 F7] Hlen (A1 & A2 & A3 & A4 & A5) Hr ->. split; cbn [f_spine f_rows set_rows set_plan f_shim_col ret_bcast_off ret_bcast_val ret_bcast_pending rows spine_top]; try done.
  - by rewrite fmap_app, F1.
  - rewrite fmap_app. apply NoDup_app. split_and!; [done| |apply NoDup_singleton].
    intros x Hx ->%list_elem_of_singleton. rewrite <- F1 in Hx. apply not_true_iff_false in A5. apply A5.
    apply existsb_exists. exists row. split; [by apply list_elem_of_In|apply Z.eqb_refl].
  - apply Forall_app. split; [done|]. apply Forall_singleton. cbn. lia.
  - unfold top_after. lia.
  - rewrite len_app. change (len [Chain row lo hi]) with 1. lia.
Qed.

Lemma run_acts_len l : forall o b o' b', run_acts l (o, b) = ((o', b'), Ok tt) -> len o <= ACR_MAX_OPS -> len o' <= ACR_MAX_OPS.
Proof using.
  induction l as [|a l IH]; intros o b o' b' H Hl; [by injection H as <- _|].
  unfold run_acts in H. cbn [forM] in H. apply bind_inv_Ok in H as ([o1 b1] & [] & H1 & H2).
  apply IH in H2; [done|]. destruct a as [k|op].
  - rewrite book_port_spec in H1. destruct (key_ok k), (booked b k); try done. by injection H1 as <- _.
  - cbn [run_act acr_emit_op] in H1. destruct (Z.geb_spec (len o) ACR_MAX_OPS); [done|]. injection H1 as <- _.
    rewrite len_app. change (len [op]) with 1. lia.
Qed.

Lemma pending_in ws f : Forall (fun w => pending_wr w /\ covered f w) ws -> Forall wr_in ws.
Proof using. intros H. eapply Forall_impl; [exact H|]. by intros w [[? _] _]. Qed.

Lemma apply_eqm ws m m' : Forall wr_in ws -> eqm m m' -> eqm (apply_wr ws m) (apply_wr ws m').
Proof using Hdev.
  intros Hw E. by apply (local_eqm _ _ m m' (apply_local ws (map tile_of ws) Hw (fun _ H => H))).
Qed.

Lemma add_row_step ws sd si row lo hi top sd' :
  sim ws sd si -> 0 <= row < 256 -> add_row row lo hi top sd = (sd', Ok tt) ->
  exists ws' si', add_row row lo hi top si = (si', Ok tt) /\ sim ws' sd' si' /\ f_shim_col (fab sd') = f_shim_col (fab sd).
Proof using Hdev.
  destruct si as [fi ri mi]. intros [Sf [Srd Sri] So Sw Sl Sm] Hrow H. cbn [fab ret mmio] in *. subst fi ri.
  apply add_row_inv in H as Hp. destruct Hp as (Hlen & sp & ops & b & Hp). rewrite (add_row_run _ _ _ _ _ _ _ _ Hlen Hp) in H.
  apply bind_inv_Ok in H as (s1 & [] & H1 & H2). destruct So as [F1 F2 F3 F4 FL F5 F6 F7].
  rewrite (add_row_run row lo hi top (St _ _ _) sp ops b Hlen Hp). cbn [fab].
  apply row_add_cases in Hp as Hc; [|done..]. destruct Hc as [(Hh & -> & -> & ->)|(Hargs & -> & Hacts)].
  - apply (emit_row_deferred _ _ _ _ ws) in H1 as (ws' & m' & -> & Hl' & Hw'); [|done|done|constructor|done].
    assert (ws' = ws /\ eqm (mmio sd) m') as [-> Em].
    { destruct Hw' as [(new & -> & Hn & [_ Hr] & _)|[-> [_ Hr]]]; [|done].
      destruct new as [|w new]; [by rewrite app_nil_r|]. apply Forall_cons in Hn as [[_ Hn] _]. by apply elem_of_nil in Hn. }
    unfold record_row in *. rewrite Z.ltb_irrefl in *. cbn [when] in *. injection H2 as <-.
    exists ws. eexists. erewrite bind_Ok by (rewrite emit_row_direct by done; reflexivity). split; [reflexivity|].
    split; [|done]. split; cbn [fab ret mmio set_mmio set_fab set_plan]; try done.
    transitivity (apply_wr ws (mmio sd)); [exact Sm|]. apply apply_eqm; [|done]. by eapply pending_in.
  - pose proof (row_bound _ _ _ _ _ _ _ _ _ _ _ Hargs Hacts) as Hr16.
    pose proof (run_acts_len _ _ _ _ _ Hacts ltac:(done)) as Hol.
    apply run_acts_inv in Hacts as (Hops & _). cbn [app] in Hops.
    pose proof (row_ops_shape (f_spine (fab sd)) (f_shim_col (fab sd)) row lo hi (f_ctrl_id (fab sd)) top Hargs Hr16 F4) as Hshape.
    rewrite <- Hops in Hshape. destruct Hshape as [R1 R2 R3].
    apply (emit_row_deferred _ _ _ _ ws) in H1 as (ws' & m' & -> & Hl' & Hw'); [|done..].
    assert (forall t, t ∈ map tile_of ws -> t ∉ tiles_of ops) as Hdis.
    { intros t (w & -> & Hw)%list_elem_of_fmap (op & E & Hop)%list_elem_of_fmap. 
      destruct (proj1 (Forall_forall _ _) Sw w Hw) as [_ (r & Hr & Er & _)], (proj1 (Forall_forall _ _) R2 op Hop) as [_ Hno]. apply Hno. rewrite F1. injection E as _ <-.
      rewrite <- Er. by apply list_elem_of_fmap_2. }
    pose proof (withheld_direct _ _ _ _ _ _ R1 R3 (pending_in _ _ Sw) Hdis Hw') as Hd.
    apply (reaches_eqm (in_tiles (tiles_of ops)) _ _ mi) in Hd; [|by apply ops_local|by symmetry].
    unfold record_row in *. cbn [nrows rows] in *.
    replace (nrows (f_spine (fab sd)) <? nrows (State (top_after (f_spine (fab sd)) row) (rows (f_spine (fab sd)) ++ [row])))
      with true in * by (unfold nrows; cbn [rows]; rewrite len_app; change (len [row]) with 1; lia).
    cbn [when] in *. injection H2 as <-. exists ws'. eexists.
    erewrite bind_Ok by (rewrite emit_row_direct by done; cbn [mmio set_fab]; rewrite (proj1 Hd); reflexivity).
    split; [reflexivity|]. split; [|done]. split; cbn [fab ret mmio set_mmio set_fab set_plan set_rows f_rows]; try done.
    + by apply (fab_ok_step (fab sd)).
    + destruct Hw' as [(new & -> & Hn & _)|[-> _]].
      * apply Forall_app. split.
        -- eapply Forall_impl; [exact Sw|]. intros w [? (r & Hr & ?)]. split; [done|]. exists r. split; [|done].
           apply elem_of_app. by left.
        -- eapply Forall_impl; [exact Hn|]. intros w [? (op & E & [_ Hop]%elem_of_chosen)%list_elem_of_fmap]. split; [done|].
           exists (Chain row lo hi). split; [apply elem_of_app; right; left|]. unfold deferred in Hop. injection E as -> ->. cbn. lia.
      * eapply Forall_impl; [exact Sw|]. intros w [? (r & Hr & ?)]. split; [done|]. exists r. split; [|done].
        apply elem_of_app. by left.
    + by destruct Hd as [_ Hd].
Qed.

Abbreviation add_rows rows :=
  (rt_ctrl_plan_add_rows effect answer prog row_shift col_shift XAIE_INVALID_ARGS txn_open rows).

Lemma add_rows_sim top rows : forall ws sd si sd',
  sim ws sd si -> Forall (fun r => 0 <= c_row r < 256) rows ->
  forM rows (fun r => add_row (c_row r) (c_lo r) (c_hi r) (c_row r =? top)) sd = (sd', Ok tt) ->
  exists ws' si', forM rows (fun r => add_row (c_row r) (c_lo r) (c_hi r) (c_row r =? top)) si = (si', Ok tt) /\
    sim ws' sd' si' /\ f_shim_col (fab sd') = f_shim_col (fab sd).
Proof using Hdev.
  induction rows as [|r rows IH]; intros ws sd si sd' Hsim Hrows H; cbn [forM] in *.
  { injection H as <-. by exists ws, si. }
  apply Forall_cons in Hrows as [Hr Hrows]. apply bind_inv_Ok in H as (s1 & [] & H1 & H).
  destruct (add_row_step _ _ _ _ _ _ _ _ Hsim Hr H1) as (ws1 & si1 & E1 & S1 & C1).
  destruct (IH _ _ _ _ S1 Hrows H) as (ws2 & si2 & E2 & S2 & C2). exists ws2, si2.
  erewrite bind_Ok by exact E1. by rewrite C2.
Qed.

(** ** Single writes and broadcasts *)

Lemma write32_run w s : wr_in w ->
  ok (write32 effect answer (tile_addr (wr_row w) (wr_col w) +u64 wr_off w) (wr_val w)) s =
    (set_mmio (apply_wr [w] (mmio s)) s, Ok tt) /\
  write32 effect answer (tile_addr (wr_row w) (wr_col w) +u64 wr_off w) (wr_val w) s =
    (set_mmio (apply_wr [w] (mmio s)) s, Ok XAIE_OK).
Proof using Hdev.
  intros [Ht Ho]. pose proof (addr_u64 (tile_of w) (wr_off w) Ht Ho) as E. cbn [tile_of fst snd] in E. rewrite E. unfold write32, ok, drive, mbind, stE_bind. cbn [direct].
  destruct (fd_write Hdev (tile_addr (wr_row w) (wr_col w) + wr_off w) (wr_val w) (mmio s)) as [-> ->]. done.
Qed.

Lemma writes_run ws s : Forall wr_in ws ->
  forM ws (fun w => when (negb (wr_state w =? RT_CPE_WR_BCAST))
    (ok (write32 effect answer (tile_addr (wr_row w) (wr_col w) +u64 wr_off w) (wr_val w)))) s =
  (set_mmio (apply_wr (singles ws) (mmio s)) s, Ok tt).
Proof using Hdev.
  intros H. induction H as [|w ws Hw _ IH] in s |- *; cbn [forM]; [by destruct s|].
  unfold singles in *. rewrite filter_cons. destruct (decide (wr_state w <> RT_CPE_WR_BCAST)) as [E|E].
  - replace (wr_state w =? RT_CPE_WR_BCAST) with false by lia. cbn [negb when].
    erewrite bind_Ok by (by apply write32_run). rewrite IH. destruct s. reflexivity.
  - replace (wr_state w =? RT_CPE_WR_BCAST) with true by lia. cbn [negb when].
    erewrite bind_Ok by reflexivity. apply IH.
Qed.

(** The tiles of a fabric, and the writes of a flush. *)
Definition fabric_tiles (f : fabric) : list (Z * Z) := concat (map chain_tiles (f_rows f)).
Definition bcasts (f : fabric) : list (Z * Z) :=
  map (fun k => (rd (ret_bcast_off f) k, rd (ret_bcast_val f) k)) (range 0 (ret_bcast_n f)).
Definition bcast_wr (bs : list (Z * Z)) (t : Z * Z) : list rt_cpe_wr := map (fun b => Wr t.1 t.2 b.1 b.2 0) bs.
Definition flush_wr (bs : list (Z * Z)) (ts : list (Z * Z)) : list rt_cpe_wr := concat (map (bcast_wr bs) ts).

Lemma flush_loops {A} (g : A -> list rt_cpe_wr) (xs : list A) (body : A -> stE state Z unit) :
  (forall x s, x ∈ xs -> body x s = (set_mmio (apply_wr (g x) (mmio s)) s, Ok tt)) ->
  forall s, forM xs body s = (set_mmio (apply_wr (concat (map g xs)) (mmio s)) s, Ok tt).
Proof using.
  induction xs as [|x xs IH]; intros Hb s; cbn [forM map concat]; [by destruct s|].
  erewrite bind_Ok by (apply Hb; left). rewrite IH by (intros; apply Hb; by right).
  rewrite apply_app. by destruct s.
Qed.

Lemma concat_map_concat {A B} (g : A -> list B) (ls : list (list A)) :
  concat (map g (concat ls)) = concat (map (fun l => concat (map g l)) ls).
Proof using. induction ls as [|l ls IH]; [done|]. cbn [map concat]. by rewrite map_app, concat_app, IH. Qed.

Lemma concat_map_single {A B} (f : A -> B) xs : concat (map (fun x => [f x]) xs) = map f xs.
Proof using. induction xs as [|x xs IH]; [done|]. cbn. by rewrite IH. Qed.

Lemma chain_tiles_valid f t : fab_ok f -> t ∈ fabric_tiles f -> valid_tile t.
Proof using.
  intros [_ _ F3 _ _ _ _ _] Ht. apply list_elem_of_In, in_concat in Ht as (l & (r & <- & Hr)%in_map_iff & Ht).
  apply list_elem_of_In in Hr, Ht. destruct (proj1 (Forall_forall _ _) F3 r Hr) as (H1 & H2 & H3).
  unfold chain_tiles in Ht. apply list_elem_of_fmap in Ht as (c & -> & Hc%elem_of_seqZ). unfold valid_tile. cbn. lia.
Qed.

Lemma flush_run s : ret_bcast_pending (fab s) = true ->
  (forall t, t ∈ fabric_tiles (fab s) -> valid_tile t) -> Forall (fun b => 0 <= b.1 < 2 ^ 20) (bcasts (fab s)) ->
  rt_ctrl_ret_flush_mmio effect answer tile_addr s =
  (St (set_bcast (ret_bcast_off (fab s)) (ret_bcast_val (fab s)) (ret_bcast_n (fab s)) false (fab s)) (ret s)
     (apply_wr (flush_wr (bcasts (fab s)) (fabric_tiles (fab s))) (mmio s)), Ok tt).
Proof using Hdev.
  intros Hp Ht Hb. unfold rt_ctrl_ret_flush_mmio. erewrite bind_Ok by reflexivity. rewrite Hp. cbn [when].
  erewrite bind_Ok by reflexivity. unfold flush_wr, fabric_tiles. rewrite concat_map_concat, map_map.
  rewrite (flush_loops (fun r => concat (map (bcast_wr (bcasts (fab s))) (chain_tiles r)))); [done|].
  intros r s1 Hr. apply flush_loops. intros t s2 Htr. unfold bcast_wr, bcasts. rewrite map_map.
  rewrite <- concat_map_single. apply flush_loops. intros k s3 Hk.
  erewrite bind_Ok; [reflexivity|].
  refine (proj2 (write32_run (Wr t.1 t.2 (rd (ret_bcast_off (fab s)) k) (rd (ret_bcast_val (fab s)) k) 0) s3 _)).
  split; unfold tile_of; cbn [wr_col wr_row wr_off].
  - rewrite <- surjective_pairing. apply Ht. unfold fabric_tiles. apply list_elem_of_In, in_concat. exists (chain_tiles r).
    split; [apply in_map|]; by apply list_elem_of_In.
  - apply (proj1 (Forall_forall _ _) Hb (rd (ret_bcast_off (fab s)) k, rd (ret_bcast_val (fab s)) k)).
    unfold bcasts. by apply (list_elem_of_fmap_2 (fun k => (rd (ret_bcast_off (fab s)) k, rd (ret_bcast_val (fab s)) k))).
Qed.

Lemma foldl_same {A B} (f g : A -> B -> A) l a : (forall x y, f x y = g x y) -> foldl f a l = foldl g a l.
Proof using. intros H. induction l as [|b l IH] in a |- *; [done|]. cbn [foldl]. by rewrite H, IH. Qed.

(** The writes of a flush are broadcasts to the tiles. *)
Lemma flush_after bs ts x t o : NoDup ts -> after_writes (flush_wr bs ts) x t o = after_bcasts bs ts x t o.
Proof using.
  assert (forall u l y, after_writes (bcast_wr l u) y t o = if bool_decide (u = t) then after_bcasts l [t] y t o else y) as Hone.
  { intros u l. unfold after_writes, after_bcasts, bcast_wr. induction l as [|b l IH]; intros y; [by case_bool_decide|].
    cbn [map foldl]. rewrite IH. unfold tile_of. cbn [wr_col wr_row wr_off wr_val]. rewrite <- (surjective_pairing u).
    case_bool_decide as E; [|by rewrite andb_false_r]. rewrite !andb_true_r.
    rewrite (bool_decide_true (t ∈ [t])) by left. by rewrite andb_true_r. }
  intros Hnd. unfold flush_wr. induction Hnd as [|u ts Hu Hnd IH] in x |- *; cbn [map concat].
  { unfold after_bcasts. induction bs as [|b bs IH]; [done|]. cbn [foldl].
    rewrite bool_decide_false by apply not_elem_of_nil. by rewrite andb_false_r. }
  unfold after_writes. rewrite foldl_app. fold (after_writes (bcast_wr bs u) x t o). rewrite Hone.
  fold (after_writes (concat (map (bcast_wr bs) ts)) (if bool_decide (u = t) then after_bcasts bs [t] x t o else x) t o). rewrite IH.
  case_bool_decide as E.
  - subst u. rewrite after_bcasts_miss by (by left). unfold after_bcasts. apply foldl_same.
    intros y b. rewrite !bool_decide_true; [done|left|left].
  - unfold after_bcasts. apply foldl_same. intros y b.
    rewrite (bool_decide_ext (t ∈ ts) (t ∈ u :: ts)); [done|]. rewrite elem_of_cons. split; [by right|]. by intros [->|?].
Qed.

(** ** The end of a plan *)

Lemma tiles_count f : fab_ok f -> rt_ctrl_fabric_tiles f = len (fabric_tiles f).
Proof using.
  intros [_ _ F3 _ FL _ _ _]. unfold rt_ctrl_fabric_tiles, fabric_tiles.
  assert (forall l n, Forall (fun r => 1 <= c_row r <= 16 /\ 0 <= c_lo r <= c_hi r /\ c_hi r < 64) l -> 0 <= n ->
            n + 64 * len l < 2 ^ 32 ->
            foldl (fun n r => n +u32 u32 (u32 (c_hi r - c_lo r) + 1)) n l = n + len (concat (map chain_tiles l))) as H.
  { induction l as [|r l IH]; intros n Hl Hn Hb; cbn [foldl map concat]; [unfold len; cbn; lia|].
    apply Forall_cons in Hl as [Hr Hl]. rewrite len_cons in Hb. pose proof (len_nonneg l).
    rewrite (u32_small (c_hi r - c_lo r)), !u32_small by (rewrite ?u32_small; lia).
    rewrite IH by (done || lia). rewrite len_app.
    replace (len (chain_tiles r)) with (c_hi r - c_lo r + 1); [lia|].
    unfold chain_tiles, len. rewrite length_fmap. unfold range. rewrite length_seqZ. lia. }
  rewrite H; [lia|done|done|]. unfold ACR_MAX_ROWS in FL. lia.
Qed.

Lemma tiles_nodup f : fab_ok f -> NoDup (fabric_tiles f).
Proof using.
  intros [_ F2 _ _ _ _ _ _]. unfold fabric_tiles. induction (f_rows f) as [|r l IH]; cbn [map concat]; [constructor|].
  cbn [fmap list_fmap] in F2. apply NoDup_cons in F2 as [Hr F2]. apply NoDup_app. split_and!; [| |by apply IH].
  - unfold chain_tiles. apply NoDup_fmap_2; [intros a b [= E]; done|]. apply NoDup_seqZ.
  - intros t (c & -> & _)%list_elem_of_fmap Hin. apply Hr. apply list_elem_of_In, in_concat in Hin as (l' & (r' & <- & Hr')%in_map_iff & Ht).
    apply list_elem_of_In in Hr', Ht. unfold chain_tiles in Ht. apply list_elem_of_fmap in Ht as (c' & E & _). injection E as _ ->.
    by apply list_elem_of_fmap_2.
Qed.

Lemma covered_tile f w : covered f w -> tile_of w ∈ fabric_tiles f.
Proof using.
  intros (r & Hr & Er & Hc). unfold fabric_tiles. apply list_elem_of_In, in_concat. exists (chain_tiles r).
  split; [apply in_map; by apply list_elem_of_In|]. apply list_elem_of_In. unfold chain_tiles. apply list_elem_of_fmap.
  exists (wr_col w). split; [unfold tile_of; by rewrite Er|]. apply elem_of_seqZ. lia.
Qed.

Lemma take_zip (bo bv : list Z) n : 0 <= n <= len bo -> n <= len bv ->
  map (fun k => (rd bo k, rd bv k)) (range 0 n) = take (Z.to_nat n) (zip bo bv).
Proof using.
  intros H1 H2. unfold len in *. apply list_eq. intros i. rewrite list_lookup_fmap. destruct (decide (i < Z.to_nat n)%nat) as [Hi|Hi].
  - rewrite lookup_take_lt by done. unfold range. rewrite lookup_seqZ_lt by lia. cbn [fmap option_fmap option_map].
    rewrite lookup_zip_with. unfold rd. rewrite Z.add_0_l, Nat2Z.id.
    destruct (lookup_lt_is_Some_2 bo i ltac:(lia)) as [a Ea], (lookup_lt_is_Some_2 bv i ltac:(lia)) as [b Eb].
    by rewrite Ea, Eb.
  - rewrite lookup_take_ge by lia. unfold range. rewrite lookup_seqZ_ge by lia. done.
Qed.

(** What the split leaves: single writes now, broadcasts later, together the
    withheld writes. *)
Lemma split_regs f ws m :
  fab_ok f -> Forall (fun w => pending_wr w /\ covered f w) ws -> len ws <= RT_CTRL_RET_DEFER_MAX_WR ->
  let '(ws', bo, bv, nb) :=
    rt_cpe_ret_split ws (rt_ctrl_fabric_tiles f) (ret_bcast_off f) (ret_bcast_val f) RT_CTRL_RET_BCAST_MAX in
  let bs := map (fun k => (rd bo k, rd bv k)) (range 0 nb) in
  Forall wr_in ws' /\ 0 <= nb <= RT_CTRL_RET_BCAST_MAX /\ Forall (fun b => 0 <= b.1 < 2 ^ 20) bs /\
  eqm (apply_wr (flush_wr bs (fabric_tiles f)) (apply_wr (singles ws') m)) (apply_wr ws m).
Proof using Hdev.
  intros Hf Hw Hlen. pose proof (tiles_count f Hf) as Hcnt. pose proof (tiles_nodup f Hf) as Hnd.
  destruct (fo_bcast f Hf) as [Hbo Hbv]. rewrite Hcnt. set (nt := len (fabric_tiles f)).
  assert (Forall tile_ok ws) as A1.
  { eapply Forall_impl; [exact Hw|]. intros w [[[Hv _] _] _]. unfold valid_tile, tile_of, tile_ok in *. cbn in Hv. lia. }
  assert (Forall (fun w => wr_state w = RT_CPE_WR_UNDECIDED) ws) as A2 by (eapply Forall_impl; [exact Hw|]; by intros w [[_ ?] _]).
  assert (len ws < 2 ^ 32) as A3 by (unfold RT_CTRL_RET_DEFER_MAX_WR in Hlen; lia).
  pose proof (split_inv ws nt (ret_bcast_off f) (ret_bcast_val f) RT_CTRL_RET_BCAST_MAX A1 A2 A3 ltac:(done) ltac:(lia) ltac:(lia)) as Hinv.
  pose proof (split_sound ws nt (ret_bcast_off f) (ret_bcast_val f) RT_CTRL_RET_BCAST_MAX A1 A2 A3 ltac:(done) ltac:(lia) ltac:(lia)
                (fabric_tiles f) Hnd eq_refl) as Hs.
  destruct (rt_cpe_ret_split _ _ _ _ _) as [[[ws' bo] bv] nb]. destruct Hinv as [I1 [I2 [I3 I4]] _ _ _ _ I5].
  cbn [fst snd] in *. cbv zeta.
  assert (Forall wr_in ws' /\ map tile_of ws' = map tile_of ws) as [Hin' Htl].
  { rewrite <- I1, map_map. split; [|done]. apply Forall_forall. intros w Hw'.
    assert (strip w ∈ ws) as Hs' by (rewrite <- I1; by apply list_elem_of_fmap_2).
    by destruct (proj1 (Forall_forall _ _) Hw _ Hs') as [[? _] _]. }
  assert (RT_CTRL_RET_BCAST_MAX = len bo /\ RT_CTRL_RET_BCAST_MAX = len bv) as [Lo Lv] by (unfold len in *; lia).
  rewrite take_zip by lia. set (bs := take (Z.to_nat nb) (zip bo bv)) in *.
  assert (Forall (fun b => 0 <= b.1 < 2 ^ 20) bs) as Hbs.
  { apply Forall_forall. intros b Hb. destruct (I5 b Hb) as (w & Hw' & <- & _).
    by destruct (proj1 (Forall_forall _ _) Hin' w Hw'). }
  split_and!; [done|lia|lia|done|].
  assert (forall w, w ∈ ws -> tile_of w ∈ fabric_tiles f) as Hcov.
  { intros w Hw'. apply covered_tile. by apply (proj1 (Forall_forall _ _) Hw w Hw'). }
  destruct (Hs Hcov) as [_ Hregs].
  assert (Forall wr_in ws) as Hwi by by eapply pending_in.
  assert (Forall wr_in (singles ws')) as Hsi.
  { apply Forall_forall. intros w [_ Hw']%list_elem_of_filter. by apply (proj1 (Forall_forall _ _) Hin'). }
  assert (Forall wr_in (flush_wr bs (fabric_tiles f))) as Hfi.
  { unfold flush_wr. apply Forall_concat_map, Forall_forall. intros t Ht. apply Forall_forall.
    intros w (b & -> & Hb)%list_elem_of_fmap. split; [|by apply (proj1 (Forall_forall _ _) Hbs)].
    unfold tile_of. cbn [wr_col wr_row]. rewrite <- surjective_pairing. by apply (chain_tiles_valid f). }
  intros x. destruct (in_tiles (fabric_tiles f) x) eqn:Ex.
  - apply existsb_exists in Ex as (t & Ht%list_elem_of_In & Ex). apply in_tile_inv in Ex as (o & Ho & ->).
    pose proof (chain_tiles_valid f t Hf Ht) as Hvt. rewrite !apply_after by done. rewrite flush_after by done. apply Hregs.
  - assert (forall l m, Forall wr_in l -> map tile_of l ⊆ fabric_tiles f -> apply_wr l m x = m x) as Hout.
    { intros l m1 Hl Hsub. exact (lt_frame _ _ (apply_local l (fabric_tiles f) Hl Hsub) m1 x Ex). }
    rewrite !Hout; [done|done| |done| |done|].
    + intros t (w & -> & Hw')%list_elem_of_fmap. by apply Hcov.
    + intros t (w & -> & [_ Hw']%list_elem_of_filter)%list_elem_of_fmap.
      assert (tile_of w ∈ map tile_of ws) as (w2 & -> & H2)%list_elem_of_fmap by (rewrite <- Htl; by apply list_elem_of_fmap_2).
      by apply Hcov.
    + intros t (w & -> & Hw')%list_elem_of_fmap. unfold flush_wr in Hw'.
      apply list_elem_of_In, in_concat in Hw' as (l & (t & <- & Ht)%in_map_iff & Hw').
      apply list_elem_of_In in Ht, Hw'. apply list_elem_of_fmap in Hw' as (b & -> & _).
      unfold tile_of. cbn [wr_col wr_row]. by rewrite <- surjective_pairing.
Qed.

Abbreviation finish := (rt_ctrl_ret_defer_finish effect answer tile_addr).
Abbreviation flush := (rt_ctrl_ret_flush_mmio effect answer tile_addr).

(** Two fabrics that differ at most in what is to be broadcast. *)
Definition same_plan (f g : fabric) : Prop := set_bcast [] [] 0 false f = set_bcast [] [] 0 false g.

Lemma flush_nothing s : ret_bcast_pending (fab s) = false -> flush s = (s, Ok tt).
Proof using. intros H. unfold rt_ctrl_ret_flush_mmio. erewrite bind_Ok by reflexivity. by rewrite H. Qed.

Lemma finish_none f d m : finish (St f (Ret [] [] d) m) = (St f (Ret [] [] false) m, Ok tt).
Proof using. done. Qed.

Lemma finish_flush f ws m :
  fab_ok f -> Forall (fun w => pending_wr w /\ covered f w) ws -> len ws <= RT_CTRL_RET_DEFER_MAX_WR ->
  exists s' sf, finish (St f (Ret [] ws true) m) = (s', Ok tt) /\ flush s' = (sf, Ok tt) /\
    eqm (mmio sf) (apply_wr ws m) /\ same_plan (fab sf) f /\ ret sf = Ret [] [] false /\ ret_bcast_pending (fab sf) = false.
Proof using Hdev.
  intros Hf Hw Hlen. destruct (decide (ws = [])) as [->|Hne].
  { exists (St f (Ret [] [] false) m), (St f (Ret [] [] false) m). rewrite finish_none. rewrite flush_nothing by apply Hf.
    split_and!; try done. apply Hf. }
  pose proof (split_regs f ws m Hf Hw Hlen) as Hs.
  assert ((len ws =? 0) = false) as El by (destruct ws; [done|]; rewrite len_cons; pose proof (len_nonneg ws); lia).
  unfold rt_ctrl_ret_defer_finish. erewrite bind_Ok by reflexivity. erewrite bind_Ok by reflexivity.
  unfold finally. cbn [ret set_defer_on set_ret ret_wr fab mmio]. rewrite El. cbn [negb when].
  unfold rt_ctrl_ret_split. erewrite bind_Ok by reflexivity. erewrite bind_Ok by reflexivity.
  cbn [fab ret ret_wr ret_defer ret_defer_on set_defer_on set_ret mmio].
  destruct (rt_cpe_ret_split _ _ _ _ _) as [[[ws' bo] bv] nb]. cbv zeta in Hs. destruct Hs as (H1 & H2 & H3 & H4).
  unfold RT_CTRL_RET_BCAST_MAX in H2.
  erewrite bind_Ok by reflexivity. erewrite bind_Ok by (by apply writes_run). unfold modify.
  rewrite (u8_small nb) by lia. destruct (Z.ltb_spec 0 nb) as [Hnb|Hnb].
  - eexists _, _. split; [reflexivity|]. split; [apply flush_run; [done| |]|].
    + intros t Ht. by apply (chain_tiles_valid f).
    + exact H3.
    + by split_and!.
  - assert (nb = 0) as -> by lia. eexists _, _. split; [reflexivity|]. split; [by apply flush_nothing|]. split_and!; try done.
    intros x. rewrite <- H4. cbn [mmio set_wr set_ret set_fab set_mmio].
    assert (forall ts, flush_wr [] ts = []) as -> by (intros ts; unfold flush_wr; induction ts; done). done.
Qed.

(** ** Planning *)

Abbreviation plan_init := (rt_ctrl_plan_init effect answer prog tile_addr row_shift col_shift XAIE_INVALID_ARGS txn_open aie2ps).
Abbreviation return_route := (rt_ctrl_row_shim_return_route effect answer prog tile_addr aie2ps).

(** The return leg through the shim. *)
Definition route_step (shim_col resp : Z) : reg_step :=
  let shim := Loc 0 shim_col in let rport := rt_shim_s2mm_port aie2ps resp in
  seq_step (step (prog (StrmConnCctEnable shim NORTH RT_CTRL_VRET SOUTH rport)))
    (step (prog (EnableAieToShimDmaStrmPort shim rport))).

Lemma return_route_run resp s : ret_bcast_pending (fab s) = false ->
  let F := route_step (f_shim_col (fab s)) resp in
  return_route resp s = (set_mmio (F (mmio s)).1 s, rc_result (F (mmio s)).2).
Proof using.
  intros Hp F. unfold rt_ctrl_row_shim_return_route. erewrite bind_Ok by (by apply flush_nothing).
  erewrite bind_Ok by reflexivity. unfold mbind at 1, stE_bind at 1. rewrite ok_drive. unfold F, route_step, seq_step.
  destruct (step (prog (StrmConnCctEnable _ _ _ _ _)) (mmio s)) as [m rc]. cbn [fst snd].
  unfold rc_result at 1. destruct (rc =? XAIE_OK) eqn:E; [by rewrite ok_drive|].
  cbn [fst snd]. unfold rc_result. by rewrite E.
Qed.

Lemma route_local shim_col resp : 0 <= shim_col < 64 -> local_to (in_tile (shim_col, 0)) (route_step shim_col resp).
Proof using Hdev.
  intros H. assert (valid_tile (shim_col, 0)) as Hv by (unfold valid_tile; cbn; lia).
  apply local_seq; apply step_local; try exact Hv.
  - by apply (fd_prog Hdev (StrmConnCctEnable (Loc 0 shim_col) NORTH RT_CTRL_VRET SOUTH (rt_shim_s2mm_port aie2ps resp))).
  - by apply (fd_prog Hdev (EnableAieToShimDmaStrmPort (Loc 0 shim_col) (rt_shim_s2mm_port aie2ps resp))).
Qed.

(** It does not touch a consumer tile, so the withheld writes do not matter. *)
Lemma route_sim f ws m mi resp :
  fab_ok f -> 0 <= f_shim_col f < 64 -> Forall (fun w => pending_wr w /\ covered f w) ws -> eqm mi (apply_wr ws m) ->
  let F := route_step (f_shim_col f) resp in
  (F m).2 = XAIE_OK -> reaches F mi (apply_wr ws (F m).1).
Proof using Hdev.
  intros Hf Hcol Sw Sm F E. pose proof (route_local (f_shim_col f) resp Hcol) as HF. fold F in HF.
  apply (reaches_eqm (in_tile (f_shim_col f, 0)) _ (apply_wr ws m)); [done|by symmetry|].
  pose proof (apply_local ws (map tile_of ws) (pending_in _ _ Sw) (fun _ H => H)) as Hl.
  destruct (local_commute (in_tile (f_shim_col f, 0)) _ F _ m HF Hl) as (D1 & _ & D3).
  - intros x Hx. apply not_true_iff_false. intros (t & Ht & Etx)%existsb_exists. apply list_elem_of_In in Ht.
    apply list_elem_of_fmap in Ht as (w & -> & Hw). destruct (proj1 (Forall_forall _ _) Sw w Hw) as [[[Hvw _] _] (r & Hr & Er & _)].
    destruct (proj1 (Forall_forall _ _) (fo_chain _ Hf) r Hr) as [Hr1 _].
    assert ((f_shim_col f, 0) = tile_of w) as E0 by (apply (in_tile_inj _ _ x); try done; unfold valid_tile; cbn; lia).
    injection E0 as _ E0. lia.
  - cbn [fst snd] in *. split; [congruence|exact D3].
Qed.

Lemma fab_ok_dedicated f d : fab_ok f -> fab_ok (set_dedicated d f).
Proof using. by intros [F1 F2 F3 F4 F5 F6 F7 F8]. Qed.

Lemma fab_ok_init shim_col resp ctrl_id : 0 <= shim_col -> fab_ok (fabric_init shim_col resp ctrl_id).
Proof using. intros H. split; cbn; (done || apply NoDup_nil_2 || by apply Forall_nil). Qed.

(** C6.  Withholding the return routes is transparent.  Whatever rows are
    planned and however the planner orders their operations, if planning in
    high-throughput mode succeeds then so does planning without it, the two
    fabrics differ only in what is to be broadcast, and flushing the withheld
    writes leaves every register as planning without withholding does.  The
    shim's column and a response channel are given. *)
Theorem withholding_transparent shim_col resp ctrl_id rows s sd :
  0 <= shim_col < 64 -> 0 <= resp -> Forall (fun r => 0 <= c_row r < 256) rows ->
  plan_init true shim_col resp ctrl_id rows s = (sd, Ok tt) ->
  exists si sf, plan_init false shim_col resp ctrl_id rows s = (si, Ok tt) /\ flush sd = (sf, Ok tt) /\
    eqm (mmio sf) (mmio si) /\ same_plan (fab sf) (fab si) /\ ret sf = ret si /\ ret_bcast_pending (fab si) = false.
Proof using Hdev.
  intros Hcol Hresp Hrows H. unfold rt_ctrl_plan_init in *. unfold modify at 1 in H. unfold modify at 1.
  erewrite bind_Ok in H |- * by reflexivity. replace (0 <=? resp) with true in * by lia. cbn [andb] in *.
  set (f0 := fabric_init shim_col resp ctrl_id) in *.
  assert (sim [] (St f0 (Ret [] [] true) (mmio s)) (St f0 (Ret [] [] false) (mmio s))) as Hsim.
  { split; try done. apply fab_ok_init. lia. }
  apply bind_inv_Ok in H as (s1 & [] & H1 & H).
  assert (add_rows rows (St f0 (Ret [] [] true) (mmio s)) = (s1, Ok tt)) as H1'.
  { unfold on_error in H1. destruct (add_rows rows _) as [s1' [[]|e]]; congruence. }
  unfold rt_ctrl_plan_add_rows in H1'. 
  destruct ((len rows =? 0) || (len rows >? ACR_MAX_ROWS)) eqn:Elen; [done|].
  destruct (add_rows_sim (top_row rows) rows _ _ _ _ Hsim Hrows H1') as (ws & si1 & E1 & [Sf [Srd Sri] So Sw Sl Sm] & C1).
  destruct s1 as [f1 r1 m1], si1 as [fi ri mi]. cbn [fab ret mmio] in *. subst.
  apply bind_inv_Ok in H as (s2 & [] & H2 & H). injection H2 as <-.
  erewrite bind_Ok.
  2: { unfold on_error, rt_ctrl_plan_add_rows. rewrite Elen, E1. reflexivity. }
  erewrite bind_Ok by reflexivity. set (f2 := set_dedicated _ _) in *.
  assert (fab_ok f2) as Hf2 by by apply fab_ok_dedicated.
  unfold plan_finish in *. replace (0 <=? resp) with true in * by lia. cbn [when] in *.
  cbn [set_fab fab ret mmio] in *. rewrite return_route_run in H |- * by apply Hf2.
  assert (f_shim_col f2 = shim_col) as C2 by exact C1.
  unfold set_fab, set_mmio in H |- *. cbn [fab ret mmio] in H |- *. set (F := route_step (f_shim_col f2) resp) in *.
  destruct (finish_flush f2 ws (F m1).1 Hf2) as (s' & sf & G1 & G2 & G3 & G4 & G5 & G6).
  { eapply Forall_impl; [exact Sw|]. done. }
  { done. }
  rewrite G1 in H. destruct (rc_result (F m1).2) as [[]|e] eqn:ER; [|done]. injection H as <-.
  apply rc_result_Ok in ER. destruct (route_sim f2 ws m1 mi resp Hf2 ltac:(lia) Sw Sm ER) as [R1 R2]. fold F in R1, R2.
  rewrite finish_none, R1. eexists. exists sf. split; [reflexivity|]. split_and!; [done| |done|done|apply Hf2].
  cbn [mmio]. rewrite G3. by symmetry.
Qed.

(** ** The cached plan *)

Definition same_soft (s s' : state) : Prop := fab s = fab s' /\ ret s = ret s'.

(** Two successful runs from the same fabric and return state leave the same,
    and give the same answer. *)
Definition det {A} (m : stE state Z A) : Prop :=
  forall s t s' t' a b, same_soft s t -> m s = (s', Ok a) -> m t = (t', Ok b) -> same_soft s' t' /\ a = b.

Lemma det_ret {A} (a : A) : det (mret a).
Proof using. intros s t s' t' x y H [= <- <-] [= <- <-]. done. Qed.
Lemma det_throw {A} e : det (A := A) (throw e).
Proof using. by intros s t s' t' x y H. Qed.
Lemma det_gets {A} (f : state -> A) : (forall s t, same_soft s t -> f s = f t) -> det (gets f).
Proof using. intros Hf s t s' t' x y H [= <- <-] [= <- <-]. split; [done|by apply Hf]. Qed.
Lemma det_modify f : (forall s t, same_soft s t -> same_soft (f s) (f t)) -> det (modify f).
Proof using. intros Hf s t s' t' x y H [= <- <-] [= <- <-]. split; [by apply Hf|done]. Qed.
Lemma det_bind {A B} (m : stE state Z A) (k : A -> stE state Z B) : det m -> (forall a, det (k a)) -> det (m ≫= k).
Proof using.
  intros Hm Hk s t s' t' x y H (s1 & a & H1 & H2)%bind_inv_Ok (t1 & b & H3 & H4)%bind_inv_Ok.
  destruct (Hm _ _ _ _ _ _ H H1 H3) as [H5 <-]. by apply (Hk a s1 t1).
Qed.
Lemma det_when c m : det m -> det (when c m).
Proof using. destruct c; [done|]. intros _. apply det_ret. Qed.
Lemma det_forM {A} (xs : list A) (body : A -> stE state Z unit) : (forall x, det (body x)) -> det (forM xs body).
Proof using. intros H. induction xs; [apply det_ret|]. by apply det_bind. Qed.
Lemma det_ok c : det (ok (drive effect answer c)).
Proof using.
  intros s t s' t' [] [] [H1 H2]. rewrite !ok_drive. intros [= <- _] [= <- _]. split; [|done]. by split.
Qed.
Lemma det_drive c : det (drive effect answer c ;; mret tt).
Proof using.
  intros s t s' t' [] [] [H1 H2]. unfold drive, mbind, stE_bind. destruct (step c (mmio s)), (step c (mmio t)).
  intros [= <-] [= <-]. split; [|done]. by split.
Qed.
Lemma det_emit ops : det (__Runtime_ctrl_row_emit effect answer prog ops).
Proof using. apply det_forM. intros op. apply det_ok. Qed.
Lemma det_finally {A} (m : stE state Z A) f : det m -> (forall s t, same_soft s t -> same_soft (f s) (f t)) -> det (finally m f).
Proof using.
  intros Hm Hf s t s' t' x y H. unfold finally. destruct (m s) as [s1 r1] eqn:E1, (m t) as [t1 r2] eqn:E2.
  intros [= <- ->] [= <- ->]. destruct (Hm _ _ _ _ _ _ H E1 E2). split; [by apply Hf|done].
Qed.
Create HintDb det.
#[local] Hint Resolve det_ret det_throw det_bind det_when det_forM det_ok det_drive det_emit det_finally : det.

(** A capture does not depend on the registers. *)
Lemma capture_indep c : forall ws bad m m', only_writes c ->
  (capture effect answer row_shift col_shift c ws bad m).1.1 = (capture effect answer row_shift col_shift c ws bad m').1.1 /\
  (capture effect answer row_shift col_shift c ws bad m).2 = (capture effect answer row_shift col_shift c ws bad m').2.
Proof using.
  induction c as [rc|op k IH]; intros ws bad m m' Hc; [done|]. destruct Hc as [Hop Hk].
  destruct op; try by destruct Hop.
  - cbn [capture]. destruct (_ >=? _); [by apply IH|].
    destruct (rt_ctrl_txn_decode_regoff row_shift col_shift regoff) as [[col row] off]. by apply IH.
  - by apply IH.
  - by apply IH.
Qed.

Lemma capture_ops_indep ops : forall ws bad m m',
  (capture_ops effect answer prog row_shift col_shift ops ws bad m).1.1 =
    (capture_ops effect answer prog row_shift col_shift ops ws bad m').1.1 /\
  (capture_ops effect answer prog row_shift col_shift ops ws bad m).2 =
    (capture_ops effect answer prog row_shift col_shift ops ws bad m').2.
Proof using Hdev.
  induction ops as [|op ops IH]; intros ws bad m m'; [done|]. cbn [capture_ops].
  destruct (capture_indep (prog (rt_seq_row_op op)) ws bad m m' (fd_writes Hdev _)) as [E1 E2].
  destruct (capture _ _ _ _ _ ws bad m) as [[[ws1 bad1] m1] rc], (capture _ _ _ _ _ ws bad m') as [[[ws2 bad2] m2] rc2].
  cbn [fst snd] in *. injection E1 as -> ->. subst rc2. destruct (rc =? XAIE_OK); cbn [negb]; [by apply IH|done].
Qed.

Lemma det_capture_row : det (rt_ctrl_ret_capture_row effect answer prog row_shift col_shift txn_open).
Proof using Hdev.
  unfold rt_ctrl_ret_capture_row. apply det_bind; [apply det_gets; by intros s t [_ ->]|]. intros d.
  destruct (len d =? 0); [auto with det|]. assert (forall s t, same_soft s t -> same_soft (clear_defer s) (clear_defer t)) as Hc
    by (intros s t [H1 H2]; unfold clear_defer, same_soft; cbn; by rewrite H1, H2).
  destruct txn_open; [auto with det|]. intros s t s' t' [] [] [Hf Hr] H1 H2. rewrite Hr in H1.
  destruct (capture_ops_indep d (ret_wr (ret t)) false (mmio s) (mmio t)) as [E1 E2].
  destruct (capture_ops _ _ _ _ _ d (ret_wr (ret t)) false (mmio s)) as [[[ws1 bad1] m1] rc],
    (capture_ops _ _ _ _ _ d (ret_wr (ret t)) false (mmio t)) as [[[ws2 bad2] m2] rc2].
  cbn [fst snd] in *. injection E1 as -> ->. subst rc2. destruct ((rc =? XAIE_OK) && negb bad2).
  - injection H1 as <-. injection H2 as <-. unfold same_soft. cbn. by rewrite Hf, Hr.
  - refine (det_finally _ _ (det_emit d) Hc (set_mmio m1 s) (set_mmio m2 t) _ _ _ _ _ H1 H2). by split.
Qed.

Lemma det_add_row row lo hi top : det (add_row row lo hi top).
Proof using Hdev.
  unfold rt_ctrl_plan_add_row. apply det_bind; [apply det_gets; by intros s t [-> _]|]. intros f.
  destruct (_ >=? _); [auto with det|]. destruct (acr_plan_row_add _ _ _ _ _ _ _) as [[sp [ops b]] prc].
  apply det_bind; [apply det_modify; intros s t [H1 H2]; unfold same_soft; cbn; by rewrite H1|]. intros _.
  destruct prc as [|]; [|auto with det].
  apply det_bind.
  { intros s t s' t' x y [H1 H2]. unfold rt_ctrl_ret_defer_take. rewrite H2. destruct (negb _).
    - intros [= <- <-] [= <- <-]. done.
    - destruct (defer_take _ _ _ _ _). intros [= <- <-] [= <- <-]. unfold same_soft. cbn. by rewrite H1. }
  intros keep. apply det_bind; [auto with det|]. intros _. apply det_bind; [apply det_capture_row|]. intros _.
  apply det_when, det_modify. intros s t [H1 H2]. unfold same_soft. cbn. by rewrite H1.
Qed.

Lemma det_flush : det flush.
Proof using.
  unfold rt_ctrl_ret_flush_mmio. apply det_bind; [apply det_gets; by intros s t [-> _]|]. intros f. apply det_when.
  apply det_bind; [apply det_modify; intros s t [H1 H2]; unfold same_soft; cbn; by rewrite H1|]. intros _.
  apply det_forM. intros r. apply det_forM. intros t. apply det_forM. intros k. apply det_drive.
Qed.

Lemma det_return_route resp : det (return_route resp).
Proof using.
  unfold rt_ctrl_row_shim_return_route. apply det_bind; [apply det_flush|]. intros _.
  apply det_bind; [apply det_gets; by intros s t [-> _]|]. intros f. auto with det.
Qed.

Lemma det_finish : det finish.
Proof using.
  unfold rt_ctrl_ret_defer_finish. apply det_bind; [apply det_modify; intros s t [H1 H2]; unfold same_soft; cbn; by rewrite H1, H2|].
  intros _. apply det_bind; [apply det_gets; by intros s t [_ ->]|]. intros ws.
  apply det_finally; [|intros s t [H1 H2]; unfold same_soft; cbn; by rewrite H1, H2]. apply det_when.
  unfold rt_ctrl_ret_split. apply det_bind; [apply det_gets; by intros s t [-> _]|]. intros f.
  apply det_bind; [apply det_gets; by intros s t [_ ->]|]. intros ws2.
  destruct (rt_cpe_ret_split _ _ _ _ _) as [[[ws' bo] bv] nb].
  apply det_bind; [apply det_modify; intros s t [H1 H2]; unfold same_soft; cbn; by rewrite H1, H2|]. intros _.
  apply det_bind; [apply det_forM; intros w; apply det_when, det_ok|]. intros _.
  apply det_modify. intros s t [H1 H2]. unfold same_soft. cbn. by rewrite H1.
Qed.

Lemma det_plan_finish resp : det (plan_finish effect answer prog tile_addr aie2ps resp).
Proof using.
  intros s t s' t' [] [] H. unfold plan_finish.
  destruct (when (0 <=? resp) (return_route resp) s) as [s1 [[]|]] eqn:E1, (when (0 <=? resp) (return_route resp) t) as [t1 [[]|]] eqn:E2;
    destruct (finish s1) as [s2 r1] eqn:E3, (finish t1) as [t2 r2] eqn:E4; try done.
  intros [= <- ->] [= <- ->]. destruct (det_when (0 <=? resp) _ (det_return_route resp) _ _ _ _ _ _ H E1 E2) as [H1 _].
  by apply (det_finish _ _ _ _ _ _ H1 E3 E4).
Qed.

(** The software state after a successful plan depends on its arguments only. *)
Lemma plan_det k s t s' t' :
  run_plan effect answer prog tile_addr row_shift col_shift XAIE_INVALID_ARGS txn_open aie2ps k s = (s', Ok tt) ->
  run_plan effect answer prog tile_addr row_shift col_shift XAIE_INVALID_ARGS txn_open aie2ps k t = (t', Ok tt) ->
  same_soft s' t'.
Proof using Hdev.
  unfold run_plan, rt_ctrl_plan_init. intros H1 H2. unfold modify at 1 in H1. unfold modify at 1 in H2.
  erewrite bind_Ok in H1, H2 by reflexivity. revert H1 H2.
  assert (forall m : stE state Z unit, det m -> det (on_error m (set_ret (Ret [] [] false)))) as He.
  { intros m Hm u v u' v' x y H. unfold on_error. destruct (m u) as [u1 [a|]] eqn:Eu; [|done]. destruct (m v) as [v1 [b|]] eqn:Ev; [|done].
    intros [= <- <-] [= <- <-]. by apply (Hm u v). }
  set (F := _ ≫= _). assert (det F) as HF; [|intros H1 H2; refine (proj1 (HF _ _ _ _ _ _ _ H1 H2)); by split].
  unfold F. apply det_bind.
  - apply He. unfold rt_ctrl_plan_add_rows. destruct (_ || _); [auto with det|]. apply det_forM. intros r. apply det_add_row.
  - intros _. apply det_bind; [|intros _; apply det_plan_finish].
    apply det_modify. intros u v [H1 H2]. unfold same_soft. cbn. by rewrite H1.
Qed.

Abbreviation cached_plan := (__Runtime_ctrl_plan_init effect answer prog tile_addr row_shift col_shift XAIE_INVALID_ARGS txn_open aie2ps).
Abbreviation plan_again := (replan effect answer prog tile_addr row_shift col_shift XAIE_INVALID_ARGS txn_open aie2ps).

Abbreviation replay := (run_plan effect answer prog tile_addr row_shift col_shift XAIE_INVALID_ARGS txn_open aie2ps).

(** C35.  The plan cache is sound.  A plan is cached only for a shim of its
    own.  Asking for the cached plan again, in whatever state, writes no
    register and leaves the fabric and the return state that planning again
    leaves if it succeeds; for other arguments, another device or fabric, or
    once the partitions have changed, the plan is made anew. *)
Theorem plan_cache_sound k s0 c s0' :
  plan_again k s0 = (Some c, s0', Ok tt) ->
  c = (k, fab s0', ret s0') /\ f_dedicated (fab s0') = true /\
  forall s, cached_plan k (Some c) s = (Some c, St (fab s0') (ret s0') (mmio s), Ok tt) /\
    (forall s', replay k s = (s', Ok tt) -> fab s' = fab s0' /\ ret s' = ret s0') /\
    (forall k', k' <> k -> cached_plan k' (Some c) s = plan_again k' s).
Proof using Hdev.
  unfold replan. destruct (replay k s0) as [s1 [[]|e]] eqn:E; [|done].
  destruct (f_dedicated (fab s1) && _) eqn:Ed; [|done]. intros [= <- <-]. apply andb_true_iff in Ed as [Ed _].
  split_and!; [done|done|]. intros s. split_and!.
  - cbn. by rewrite bool_decide_true by done.
  - intros s' H. destruct (plan_det k _ _ _ _ H E) as [-> ->]. done.
  - intros k' Hk. cbn. by rewrite bool_decide_false by done.
Qed.
End rows.

(** ** An example device *)

Module Example.
Definition tile_addr (row col : Z) : Z := Z.shiftl col 25 + Z.shiftl row 20.

Definition effect (op : backend_op) (m : Z -> Z) : Z -> Z :=
  match op with
  | Write32 a v => fun x => if x =? a then v else m x
  | MaskWrite32 a k v => fun x => if x =? a then Z.lor (Z.ldiff (m a) k) (Z.land v k) else m x
  | _ => m
  end.
Definition answer (op : backend_op) (m : Z -> Z) : Z * Z := (XAIE_OK, 0).

(** A call writes one register of its tile. *)
Definition reg (t : XAie_LocType) (off : Z) : Z := tile_addr (loc_row t) (loc_col t) + off mod 2 ^ 20.
Definition once (op : backend_op) : driver_call := Do op (fun rc _ => Return rc).
Definition port_num (p : StrmSwPortType) : Z :=
  match p with SOUTH => 1 | WEST => 2 | NORTH => 3 | EAST => 4 | CTRL => 5 | _ => 0 end.
Definition prog (c : strm_call) : driver_call :=
  match c with
  | StrmPktSwSlaveSlotEnable t p idx slot id mask msel arb =>
    once (Write32 (reg t (0x3F200 + 0x40 * port_num p + 4 * slot)) (0x100 + 16 * msel + arb + Z.shiftl mask 16 + Z.shiftl id 24))
  | StrmPktSwSlavePortEnable t p idx => once (Write32 (reg t (0x3F100 + 4 * port_num p)) 0xC0000000)
  | StrmPktSwMstrPortEnable t p idx _ arb mselen => once (Write32 (reg t (0x3F000 + 4 * port_num p)) (0xC0000000 + 8 * mselen + arb))
  | StrmConnCctEnable t sp sidx mp midx => once (Write32 (reg t (0x3F000 + 4 * (8 * port_num mp + midx))) (0x80000000 + 8 * port_num sp + sidx))
  | StrmConnCctDisable t sp sidx mp midx => once (Write32 (reg t (0x3F000 + 4 * (8 * port_num mp + midx))) 0)
  | EnableAieToShimDmaStrmPort t p | EnableShimDmaToAieStrmPort t p => once (MaskWrite32 (reg t 0x1F004) 3 1)
  end.

Lemma decode t o : valid_tile t -> 0 <= o < 2 ^ 20 -> rt_ctrl_txn_decode_regoff 20 25 (tile_addr t.2 t.1 + o) = (t.1, t.2, o).
Proof.
  intros [H1 H2] Ho. unfold rt_ctrl_txn_decode_regoff, tile_addr. destruct t as [c r]. cbn [fst snd] in *.
  rewrite !Z.shiftl_mul_pow2 by lia. change (20 >=? 32) with false. change (u32 (25 - 20) >=? 32) with false. cbv iota.
  change ((1 <<u32 20) -u32 1) with (Z.ones 20). change ((1 <<u32 u32 (25 - 20)) -u32 1) with (Z.ones 5).
  rewrite !Z.shiftr_div_pow2, !Z.land_ones by lia.
  replace ((c * 2 ^ 25 + r * 2 ^ 20 + o) / 2 ^ 25) with c by (apply (Z.div_unique _ _ _ (r * 2 ^ 20 + o)); lia).
  replace ((c * 2 ^ 25 + r * 2 ^ 20 + o) / 2 ^ 20) with (c * 2 ^ 5 + r) by (apply (Z.div_unique _ _ _ o); lia).
  replace ((c * 2 ^ 5 + r) mod 2 ^ 5) with r by (apply (Z.mod_unique _ _ c); lia).
  replace ((c * 2 ^ 25 + r * 2 ^ 20 + o) mod 2 ^ 20) with o by (apply (Z.mod_unique _ _ (c * 2 ^ 5 + r)); lia).
  by rewrite !u8_small, u32_small by lia.
Qed.

Lemma device : fabric_device effect answer prog tile_addr 20 25.
Proof.
  split.
  - exact decode.
  - intros t [H1 H2]. unfold tile_addr. rewrite !Z.shiftl_mul_pow2 by lia. lia.
  - done.
  - intros t op Ht Hop. split; [|done]. split; cbn [fst snd].
    + intros m x Hx. destruct op; try done; cbn [effect op_in] in *;
        (destruct (Z.eqb_spec x regoff) as [->|]; [congruence|done]).
    + done.
    + intros m m' H x Hx. destruct op; try by apply H; cbn [effect op_in] in *.
      * cbn [effect]. destruct (x =? regoff); [done|]. by apply H.
      * cbn [effect op_in] in *. destruct (x =? regoff); [by rewrite H|by apply H].
  - assert (forall t off, in_tile tile_addr (loc_col t, loc_row t) (reg t off) = true) as Hr.
    { intros t off. unfold reg. apply (in_tile_addr tile_addr (loc_col t, loc_row t)). by apply Z.mod_pos_bound. }
    intros c _. destruct c; (split; [apply Hr|done]).
  - intros c. by destruct c.
Qed.

Abbreviation plan_init := (rt_ctrl_plan_init effect answer prog tile_addr 20 25 (-1) false true).
Definition rows : list row_chain := [Chain 1 1 3; Chain 3 1 2].
Definition s0 : state := St fabric0 ret0 (fun _ => 0).
Definition sd : state := (plan_init true 0 0 2 rows s0).1.
Lemma with_result {A B} (p : A * B) b : p.2 = b -> p = (p.1, b).
Proof. by destruct p as [a b']; intros <-. Qed.

Lemma planned : plan_init true 0 0 2 rows s0 = (sd, Ok tt).
Proof. unfold sd. apply with_result. vm_compute. reflexivity. Qed.
Definition k0 : plan_key := Key 1 0x100 0x200 0 0 2 rows true.
End Example.

Lemma withholding_transparent_witness :
  ret_bcast_n (fab Example.sd) = 3 /\
  exists si sf, Example.plan_init false 0 0 2 Example.rows Example.s0 = (si, Ok tt) /\
    rt_ctrl_ret_flush_mmio Example.effect Example.answer Example.tile_addr Example.sd = (sf, Ok tt) /\
    eqm (mmio sf) (mmio si) /\ same_plan (fab sf) (fab si) /\ ret sf = ret si /\ ret_bcast_pending (fab si) = false.
Proof.
  split; [vm_compute; reflexivity|].
  apply (withholding_transparent _ _ _ _ _ _ (-1) false true Example.device 0 0 2 Example.rows Example.s0 Example.sd).
  - lia.
  - lia.
  - repeat (apply Forall_cons; split; [cbn; lia|]). by apply Forall_nil.
  - exact Example.planned.
Defined.

Lemma plan_cache_sound_witness :
  let again := replan Example.effect Example.answer Example.prog Example.tile_addr 20 25 (-1) false true in
  let c := (Example.k0, fab Example.sd, ret Example.sd) in
  exists s0', again Example.k0 Example.s0 = (Some c, s0', Ok tt) /\
  c = (Example.k0, fab s0', ret s0') /\ f_dedicated (fab s0') = true /\
  forall s,
    __Runtime_ctrl_plan_init Example.effect Example.answer Example.prog Example.tile_addr 20 25 (-1) false true Example.k0 (Some c) s =
      (Some c, St (fab s0') (ret s0') (mmio s), Ok tt) /\
    (forall s', run_plan Example.effect Example.answer Example.prog Example.tile_addr 20 25 (-1) false true Example.k0 s = (s', Ok tt) ->
      fab s' = fab s0' /\ ret s' = ret s0') /\
    (forall k', k' <> Example.k0 ->
      __Runtime_ctrl_plan_init Example.effect Example.answer Example.prog Example.tile_addr 20 25 (-1) false true k' (Some c) s = again k' s).
Proof.
  intros again c. exists Example.sd.
  assert (again Example.k0 Example.s0 = (Some c, Example.sd, Ok tt)) as H.
  { unfold again, replan, c.
    assert (run_plan Example.effect Example.answer Example.prog Example.tile_addr 20 25 (-1) false true Example.k0 Example.s0 =
              (Example.sd, Ok tt)) as ->; [|by vm_compute].
    exact Example.planned. }
  split; [exact H|].
  apply (plan_cache_sound _ _ _ _ _ _ (-1) false true Example.device Example.k0 Example.s0 c Example.sd H).
Defined.
