(* ===== verification/RowSend.v ===== *)
(** * Sending control packets ([src/src/mlir/runtime/aie_runtime.c])

    Buffers for the DMA (2232-2250, 2545-2590), pushes of control packets from
    a shim (4011-4146), the route of a single column (4300-4500), and the sends
    of the row fabric (5048-5805): writes to classes of tiles, acknowledged
    writes, and reads, whose answers merge on their way back to the shim.

    The driver is third-party code.  Stream-switch calls are programs over the
    backend, as in [RowFabric]; the calls for memory and DMA are answered by
    [xaie], which may change the memory the CPU and the DMA share and whatever
    else the device keeps.  Cache maintenance is the subject of [CacheSync]:
    here memory is coherent, and the calls are made.  The ahead-of-time tables
    are absent; the writes of the simulator build, the provenance map and the
    console output are left out; [out_vals] and [out_data] are not null. *)

From stdpp Require Import base list list_numbers numbers gmap.
From S2P Require Import Prelude.
From S2P Require Import CtrlpktEncode.
From S2P Require Import RuntimePkt.
From S2P Require Import CtrlpktFormat.
From S2P Require Import Resource.
From S2P Require Import ControlPlan.
From S2P Require Import Driver.
From S2P Require Import TraceRes.
From S2P Require Import ShimBatch.
From S2P Require Import CacheSync.
From S2P Require Import RowFabric.

Local Open Scope Z_scope.
Local Open Scope c_scope.

Definition MAX_ALLOC_BUFFERS : Z := 64.
Definition RT_CTRL_SEL_FWD : Z := 0.
Definition RT_CTRL_SEL_RET : Z := 1.
Definition AIERT_DMA_CHANNEL_RUNNING_MASK : Z := 0x00080000.
Definition AIERT_DMA_TASK_Q_SIZE_MASK : Z := 0x00700000.
Definition AIERT_DMA_TASK_Q_SIZE_LSB : Z := 20.

(** ** The driver's calls *)

(** A stream-switch event of a tile's module: what happened, and on which
    selected port. *)
Inductive port_module := PL_MOD | MEM_TILE_MOD | CORE_MOD.
Inductive port_event := PORT_IDLE | PORT_RUNNING | PORT_STALLED.

Inductive dma_call :=
| MemCall (c : mem_call)
| MemAllocate (size : Z)
| MemFreeVAddr (ptr : Z)
| DmaDescInit (t : XAie_LocType)
| DmaSetAddrLen (addr len : Z)
| DmaEnableBd
| DmaSetAxi (smid burst qos cache secure : Z)
| DmaWriteBd (t : XAie_LocType) (bd : Z)
| DmaChannelPushBdToQueue (t : XAie_LocType) (ch : Z) (dir : XAie_DmaDirection) (bd : Z)
| DmaChannelEnable (t : XAie_LocType) (ch : Z) (dir : XAie_DmaDirection)
| DmaChannelDescInit (t : XAie_LocType)
| DmaChannelSetFoTMode_NO_COUNTS
| DmaChannelSetFoTMode_DISABLED
| DmaWriteChannel (t : XAie_LocType) (ch : Z) (dir : XAie_DmaDirection)
| DmaGetNumBds (t : XAie_LocType)
| DmaGetPendingBdCount (t : XAie_LocType) (ch : Z) (dir : XAie_DmaDirection)
| DmaGetChannelStatus (t : XAie_LocType) (ch : Z) (dir : XAie_DmaDirection)
| Read32_ (addr : Z)
| EventSelectStrmPort (t : XAie_LocType) (sel : Z) (intf : XAie_StrmPortIntf) (p : StrmSwPortType) (idx : Z)
| EventReadStatus (t : XAie_LocType) (md : port_module) (ev : port_event) (sel : Z)
| StartTransaction
| ClearTransaction
| ExportSerializedTransaction.

(** ** The state *)

Record AllocEntry := Alloc { al_vaddr : Z; al_mem : Z; al_size : Z }.

#[export] Instance alloc_eq_dec : EqDecision AllocEntry.
Proof. solve_decision. Defined.

(** The row fabric, [s_alloc_map], [g_dsync], the fabric's [txn_row], the
    words of memory by byte address, and the rest of the device. *)
Record send (W : Type) := Send {
  net : RowFabric.state; allocs : list AllocEntry; queue : list rt_dsync_rng; txn_row : Z;
  words : Z -> Z; world : W }.
Arguments Send {W} net allocs queue txn_row words world.
Arguments net {W} s.
Arguments allocs {W} s.
Arguments queue {W} s.
Arguments txn_row {W} s.
Arguments words {W} s.
Arguments world {W} s.

(** Why an operation stops: a return code, an access through a null pointer,
    or (only in the model) a packetizer out of fuel. *)
Inductive fault := Code (rc : Z) | NullDeref | OutOfFuel.

(** [__Runtime_CtrlInstance], whose device is the fabric's. *)
Record CtrlInstance := Inst {
  i_shim_col : Z; i_dest_col : Z; i_dest_row : Z; i_stream_id : Z; i_bd_id : Z; i_mm2s_ch : Z; i_s2mm_ch : Z;
  i_token : Z; i_resp_words : Z }.

Definition set_token (p : Z) (c : CtrlInstance) : CtrlInstance :=
  Inst (i_shim_col c) (i_dest_col c) (i_dest_row c) (i_stream_id c) (i_bd_id c) (i_mm2s_ch c) (i_s2mm_ch c) p
    (i_resp_words c).

(** The entry whose range holds an address, and the offset in it. *)
Definition __vaddr_to_mem_offset (v : Z) (al : list AllocEntry) : option (Z * Z) :=
  match list_find (fun e => al_vaddr e <= v /\ v < al_vaddr e +u64 al_size e) al with
  | Some (_, e) => Some (al_mem e, v - al_vaddr e)
  | None => None
  end.

Definition rt_alloc_map_remove (v : Z) (al : list AllocEntry) : list AllocEntry :=
  match list_find (fun e => al_vaddr e = v) al with
  | Some (i, _) => swap_remove al i
  | None => al
  end.

Section send.
Context {W : Type}.
(** What the driver answers (a code and an out-value) and does to memory and
    the device; it sees the registers. *)
Context (xaie : dma_call -> (Z -> Z) -> (Z -> Z) -> W -> (Z -> Z) * W * (Z * Z)).
(** [XAie_MemGetVAddr], [XAie_MemGetDevAddr]; the operations of an exported
    transaction. *)
Context (MemGetVAddr MemGetDevAddr : Z -> Z) (exported : W -> option (list txn_op)).
(** The backend and the stream-switch calls, as in [RowFabric]. *)
Context (effect : backend_op -> (Z -> Z) -> Z -> Z) (answer_ : backend_op -> (Z -> Z) -> Z * Z).
Context (prog : strm_call -> driver_call) (tile_addr : Z -> Z -> Z) (tile_type : Z -> Z -> Z).
(** The device ([dev], 0 for [NULL]), its geometry, the non-cacheable
    blocks. *)
Context (dev AIETILE row_shift col_shift XAIE_INVALID_ARGS MemTileRowStart MemTileNumRows : Z) (aie2ps : bool).
Context (nc : list nc_block).

Abbreviation M := (stE (send W) fault).

Definition set_net (n : RowFabric.state) (s : send W) : send W := Send n (allocs s) (queue s) (txn_row s) (words s) (world s).
Definition set_allocs (a : list AllocEntry) (s : send W) : send W := Send (net s) a (queue s) (txn_row s) (words s) (world s).
Definition set_queue (q : list rt_dsync_rng) (s : send W) : send W := Send (net s) (allocs s) q (txn_row s) (words s) (world s).
Definition set_txn_row (r : Z) (s : send W) : send W := Send (net s) (allocs s) (queue s) r (words s) (world s).
Definition set_words (m : Z -> Z) (s : send W) : send W := Send (net s) (allocs s) (queue s) (txn_row s) m (world s).

Definition fail {A} (rc : Z) : M A := throw (Code rc).

(** A call, and one whose code must be [XAIE_OK]. *)
Definition dma (c : dma_call) : M (Z * Z) := fun s =>
  let '(m, w, r) := xaie c (mmio (net s)) (words s) (world s) in
  (Send (net s) (allocs s) (queue s) (txn_row s) m w, Ok r).
Definition dma_ok (c : dma_call) : M unit := r ← dma c; if r.1 =? XAIE_OK then mret tt else fail r.1.
Definition dma_ig (c : dma_call) : M unit := dma c ;; mret tt.

(** An operation of the row fabric. *)
Definition net_op {A} (m : stE RowFabric.state Z A) : M A := fun s =>
  match m (net s) with
  | (n, Ok a) => (set_net n s, Ok a)
  | (n, Err e) => (set_net n s, Err (Code e))
  end.
Definition strm (c : strm_call) : M unit := net_op (RowFabric.ok (RowFabric.drive effect answer_ (prog c))).

(** The CPU's accesses. *)
Definition load (p n : Z) : M (list Z) := gets (fun s => load_words (words s) p n).
Definition store (p : Z) (ws : list Z) : M unit := modify (fun s => set_words (store_words (words s) p ws) s).

(** [if (rc != XAIE_OK) { cleanup; return rc; }] *)
Definition on_fail {A} (m : M A) (cleanup : M unit) : M A := fun s =>
  match m s with
  | (s', Err (Code rc)) => ((cleanup s').1, Err (Code rc))
  | r => r
  end.

(** A bounded poll: [inr] leaves the loop. *)
Fixpoint poll {A R} (n : nat) (body : A -> M (A + R)) (a : A) : M (A + R) :=
  match n with
  | O => mret (inl a)
  | S n => r ← body a; match r with inl a => poll n body a | inr r => mret (inr r) end
  end.

(** ** Buffers *)

Definition __Runtime_alloc_buffer (size_bytes : Z) : M Z :=
  if dev =? 0 then mret 0
  else
    r ← dma (MemAllocate size_bytes);
    if r.2 =? 0 then mret 0
    else
      let v := MemGetVAddr r.2 in
      modify (fun s => if len (allocs s) <? MAX_ALLOC_BUFFERS
                       then set_allocs (allocs s ++ [Alloc v r.2 size_bytes]) s else s) ;;
      mret v.

Definition __Runtime_free_buffer (ptr : Z) : M unit :=
  if ptr =? 0 then mret tt
  else if dev =? 0 then mret tt
  else
    modify (fun s => set_allocs (rt_alloc_map_remove ptr (allocs s)) s) ;;
    dma_ig (MemFreeVAddr ptr).

Definition sync_for_dev (ptr size : Z) : M unit :=
  forM (__Runtime_sync_for_dev nc dev ptr size) (fun c => dma_ig (MemCall c)).
Definition sync_for_cpu (ptr size : Z) : M unit :=
  forM (__Runtime_sync_for_cpu dev ptr size) (fun c => dma_ig (MemCall c)).
Definition dsync_step_inputs : M unit :=
  q ← gets queue;
  let '(q, cs) := rt_dsync_step_inputs q in
  modify (set_queue q) ;; forM cs (fun c => dma_ig (MemCall c)).

(** The device address of a buffer. *)
Definition dev_addr_of (ptr : Z) : M Z :=
  al ← gets allocs;
  match __vaddr_to_mem_offset ptr al with
  | None => fail XAIE_ERR
  | Some (mem, offset) => mret (MemGetDevAddr mem +u64 offset)
  end.

(** ** Buffer descriptors and channels *)

(** A descriptor for [len] bytes at [addr], in slot [bd]. *)
Definition write_bd (t : XAie_LocType) (addr len_ bd : Z) : M unit :=
  dma_ok (DmaDescInit t) ;;
  dma_ok (DmaSetAddrLen addr len_) ;;
  dma_ok DmaEnableBd ;;
  dma_ok (DmaSetAxi 0 16 0 0 0) ;;
  dma_ok (DmaWriteBd t (u8 bd)).

Definition push_bd (t : XAie_LocType) (ch : Z) (dir : XAie_DmaDirection) (bd : Z) : M unit :=
  dma_ok (DmaChannelPushBdToQueue t (u8 ch) dir (u8 bd)).

(** A receive channel whose descriptors end with a packet's TLAST. *)
Definition finish_on_tlast (t : XAie_LocType) (ch : Z) : M unit :=
  dma_ok (DmaChannelDescInit t) ;;
  dma_ok DmaChannelSetFoTMode_NO_COUNTS ;;
  dma_ok (DmaWriteChannel t (u8 ch) DMA_S2MM).

(** The out-value of a call, if it succeeds. *)
Definition out_value (c : dma_call) (old : Z) : M Z :=
  r ← dma c; mret (if r.1 =? XAIE_OK then r.2 else old).

(** Polling the receive channel until nothing is pending. *)
Definition __Runtime_ctrl_ack_poll (inst : CtrlInstance) : M Z :=
  let shim := Loc 0 (i_shim_col inst) in
  let rwords := if z2b (i_resp_words inst) then i_resp_words inst else 1 in
  poll (Z.to_nat 100000) (fun pending =>
    v ← out_value (DmaGetPendingBdCount shim (u8 (i_s2mm_ch inst)) DMA_S2MM) pending;
    mret (if v =? 0 then inr tt else inl v)) 1 ;;
  sync_for_cpu (i_token inst) (rwords * 4) ;;
  if i_token inst =? 0 then throw NullDeref
  else tv ← load (i_token inst) 1; mret (rd tv 0).

(** ** Diagnostics of a push *)

Definition rt_port_evt_base (row : Z) : port_module :=
  if row =? 0 then PL_MOD
  else if (MemTileRowStart <=? row) && (row <? u8 (MemTileRowStart + MemTileNumRows)) then MEM_TILE_MOD
  else CORE_MOD.

Definition rt_ctrl_dump_path_ports (c : CtrlInstance) : M unit :=
  forM (range 0 (i_dest_row c)) (fun row =>
    let rds := (fun sel ev => dma_ig (EventReadStatus (Loc row (i_shim_col c)) (rt_port_evt_base row) ev sel)) in
    rds RT_CTRL_SEL_FWD PORT_RUNNING ;; rds RT_CTRL_SEL_FWD PORT_STALLED ;; rds RT_CTRL_SEL_FWD PORT_IDLE ;;
    rds RT_CTRL_SEL_RET PORT_RUNNING ;; rds RT_CTRL_SEL_RET PORT_STALLED ;; rds RT_CTRL_SEL_RET PORT_IDLE).

(** What a push with [log] does: drains the channel, for at most 100000
    polls, and reads the ports' events. *)
Definition push_log (inst : CtrlInstance) : M unit :=
  let dloc := Loc (i_dest_row inst) (i_dest_col inst) in
  poll (Z.to_nat 100000) (fun pending =>
    v ← out_value (DmaGetPendingBdCount (Loc 0 (i_shim_col inst)) (u8 (i_mm2s_ch inst)) DMA_MM2S) pending;
    mret (if v =? 0 then inr tt else inl v)) 1 ;;
  dma_ig (EventReadStatus dloc CORE_MOD PORT_RUNNING 0) ;;
  dma_ig (EventReadStatus dloc CORE_MOD PORT_IDLE 0) ;;
  dma_ig (EventReadStatus dloc CORE_MOD PORT_RUNNING 1) ;;
  dma_ig (EventReadStatus dloc CORE_MOD PORT_STALLED 1) ;;
  dma_ig (EventReadStatus dloc CORE_MOD PORT_IDLE 1) ;;
  rt_ctrl_dump_path_ports inst.

(** ** Pushing packets *)

Definition __Runtime_ctrl_push (inst : CtrlInstance) (buf nwords : Z) (block log : bool) : M unit :=
  let loc := Loc 0 (i_shim_col inst) in
  dev_addr ← dev_addr_of buf;
  write_bd loc dev_addr (nwords *u32 4) (i_bd_id inst) ;;
  push_bd loc (i_mm2s_ch inst) DMA_MM2S (i_bd_id inst) ;;
  dma_ok (DmaChannelEnable loc (u8 (i_mm2s_ch inst)) DMA_MM2S) ;;
  when log (push_log inst) ;;
  when block (__Runtime_ctrl_ack_poll inst ;; mret tt).

Definition rt_ctrl_mm2s_wait_below (shim_col channel below : Z) : M unit :=
  r ← poll (Z.to_nat 100000) (fun pending =>
        r ← dma (DmaGetPendingBdCount (Loc 0 shim_col) (u8 channel) DMA_MM2S);
        mret (if negb (r.1 =? XAIE_OK) then inr r.1 else if r.2 <? below then inr XAIE_OK else inl r.2)) 0xFF;
  match r with
  | inr rc => if rc =? XAIE_OK then mret tt else fail rc
  | inl _ => fail XAIE_ERR
  end.

Definition rt_ctrl_mm2s_wait (shim_col channel : Z) : M unit :=
  r ← poll (Z.to_nat 1000000) (fun status =>
        r ← dma (DmaGetChannelStatus (Loc 0 shim_col) (u8 channel) DMA_MM2S);
        mret (if negb (r.1 =? XAIE_OK) then inr r.1
              else
                let queued := (r.2 & AIERT_DMA_TASK_Q_SIZE_MASK) >> AIERT_DMA_TASK_Q_SIZE_LSB in
                if ((r.2 & AIERT_DMA_CHANNEL_RUNNING_MASK) =? 0) && (queued =? 0) then inr XAIE_OK else inl r.2)) 0;
  match r with
  | inr rc => if rc =? XAIE_OK then mret tt else fail rc
  | inl _ => fail XAIE_ERR
  end.

(** ** A single column: routes, buffer and receive descriptor *)

Definition rt_ctrl_col_return_route (c : CtrlInstance) (port_evt : bool) : M unit :=
  let col := i_shim_col c in
  let shim := Loc 0 col in let dst := Loc (i_dest_row c) col in
  let rport := rt_shim_s2mm_port aie2ps (i_s2mm_ch c) in
  let vret := RT_CTRL_VRET in
  strm (StrmPktSwSlaveSlotEnable dst CTRL 0 0 (i_stream_id c) 0 0 0) ;;
  strm (StrmPktSwSlavePortEnable dst CTRL 0) ;;
  strm (StrmPktSwMstrPortEnable dst SOUTH vret false 0 1) ;;
  forM (reverse (range 1 (i_dest_row c))) (fun r =>
    strm (StrmConnCctEnable (Loc r col) NORTH vret SOUTH vret) ;;
    when port_evt (dma_ig (EventSelectStrmPort (Loc r col) RT_CTRL_SEL_RET XAIE_STRMSW_MASTER SOUTH vret))) ;;
  strm (StrmConnCctEnable shim NORTH vret SOUTH rport) ;;
  when port_evt (dma_ig (EventSelectStrmPort shim RT_CTRL_SEL_RET XAIE_STRMSW_MASTER SOUTH rport)) ;;
  strm (EnableAieToShimDmaStrmPort shim rport).

Definition rt_ctrl_route_setup_col (c : CtrlInstance) (port_evt : bool) : M unit :=
  let col := i_shim_col c in
  let shim := Loc 0 col in let dst := Loc (i_dest_row c) col in
  let fport := rt_shim_mm2s_port (i_mm2s_ch c) in
  let vfwd := RT_CTRL_VFWD in
  strm (EnableShimDmaToAieStrmPort shim fport) ;;
  strm (StrmConnCctEnable shim SOUTH fport NORTH vfwd) ;;
  when port_evt (dma_ig (EventSelectStrmPort shim RT_CTRL_SEL_FWD XAIE_STRMSW_MASTER NORTH vfwd)) ;;
  forM (range 1 (i_dest_row c)) (fun r =>
    strm (StrmConnCctEnable (Loc r col) SOUTH vfwd NORTH vfwd) ;;
    when port_evt (dma_ig (EventSelectStrmPort (Loc r col) RT_CTRL_SEL_FWD XAIE_STRMSW_MASTER NORTH vfwd))) ;;
  strm (StrmConnCctEnable dst SOUTH vfwd CTRL 0) ;;
  when port_evt
    (dma_ig (EventSelectStrmPort dst RT_CTRL_SEL_FWD XAIE_STRMSW_MASTER CTRL 0) ;;
     dma_ig (EventSelectStrmPort dst RT_CTRL_SEL_RET XAIE_STRMSW_SLAVE CTRL 0)).

(** The receive descriptor: next to the one of the send, and in range. *)
Definition tct_bd (bd_id num_bds : Z) : Z := if bd_id + 1 <? num_bds then bd_id + 1 else bd_id - 1.

Definition rt_tct_s2mm_arm (c : CtrlInstance) : M unit :=
  let shim := Loc 0 (i_shim_col c) in
  let s2mm_ch := i_s2mm_ch c in
  num_bds ← out_value (DmaGetNumBds shim) 16;
  let bd_id := tct_bd (i_bd_id c) num_bds in
  dev_addr ← dev_addr_of (i_token c);
  let rwords := if z2b (i_resp_words c) then i_resp_words c else 1 in
  write_bd shim dev_addr (rwords *u32 4) bd_id ;;
  finish_on_tlast shim s2mm_ch ;;
  dma_ig (Read32_ (tile_addr 0 (i_shim_col c) +u64 0x9300 +u64 u64 (s2mm_ch * 8))) ;;
  push_bd shim s2mm_ch DMA_S2MM bd_id ;;
  dma_ok (DmaChannelEnable shim (u8 s2mm_ch) DMA_S2MM).

(** The instance with its response buffer. *)
Definition __Runtime_ctrl_setup_routing (inst : CtrlInstance) (port_evt : bool) : M CtrlInstance :=
  if negb (i_dest_col inst =? i_shim_col inst) then fail XAIE_ERR
  else
    rt_ctrl_route_setup_col inst port_evt ;;
    rt_ctrl_col_return_route inst port_evt ;;
    let rwords := if z2b (i_resp_words inst) then i_resp_words inst else 1 in
    token ← __Runtime_alloc_buffer (rwords * 4);
    if token =? 0 then fail XAIE_ERR
    else
      store token (replicate (Z.to_nat rwords) 0) ;;
      on_fail (rt_tct_s2mm_arm (set_token token inst)) (__Runtime_free_buffer token) ;;
      mret (set_token token inst).

Definition __Runtime_ctrl_push_target (shim_col dest_col dest_row stream_id buf nwords bd_id mm2s_ch s2mm_ch : Z) : M Z :=
  inst ← __Runtime_ctrl_setup_routing (Inst shim_col dest_col dest_row stream_id bd_id mm2s_ch s2mm_ch 0 0) false;
  on_fail (__Runtime_ctrl_push inst buf nwords false false) (__Runtime_free_buffer (i_token inst)) ;;
  tv ← __Runtime_ctrl_ack_poll inst;
  __Runtime_free_buffer (i_token inst) ;;
  mret tv.

(** Making packets in a buffer of [cap] words: the number of words (0: they do
    not fit) and the length of the response. *)
Definition pktize_read_into (pkt cap req_sid ret_sid ta nwords : Z) : M (Z * Z) :=
  buf ← load pkt cap;
  match Runtime_ctrl_pktize_read buf cap req_sid ret_sid ta nwords with
  | None => throw OutOfFuel
  | Some (buf, r) => store pkt buf ;; mret (default (0, 0) r)
  end.

Definition pktize_write_into (pkt cap sid ta : Z) (data : list Z) (ack : bool) : M (Z * Z) :=
  buf ← load pkt cap;
  match Runtime_ctrl_pktize_write buf 0 cap sid ta (Some data) (len data) ack 0 with
  | None => throw OutOfFuel
  | Some (buf, pw, resp) => store pkt buf ;; mret (pw, resp)
  end.

(** [out_data] is a buffer of [nwords] words. *)
Definition __Runtime_ctrl_read_target (shim_col dest_col dest_row req_sid ret_sid ta nwords : Z)
    (out_data : list Z) (bd_id mm2s_ch s2mm_ch : Z) : M (list Z) :=
  if nwords =? 0 then mret out_data
  else
    let cap := nwords *u32 2 +u32 8 in
    pkt ← __Runtime_alloc_buffer (cap * 4);
    if pkt =? 0 then fail XAIE_ERR
    else
      '(pw, resp_words) ← pktize_read_into pkt cap req_sid ret_sid ta nwords;
      if pw =? 0 then __Runtime_free_buffer pkt ;; fail XAIE_ERR
      else
        sync_for_dev pkt (pw * 4) ;;
        inst ← on_fail (__Runtime_ctrl_setup_routing
                          (Inst shim_col dest_col dest_row req_sid bd_id mm2s_ch s2mm_ch 0 resp_words) false)
                 (__Runtime_free_buffer pkt);
        on_fail (__Runtime_ctrl_push inst pkt pw false false)
          (__Runtime_free_buffer (i_token inst) ;; __Runtime_free_buffer pkt) ;;
        __Runtime_ctrl_ack_poll inst ;;
        resp ← load (i_token inst) resp_words;
        match rt_ctrl_read_extract resp ta nwords out_data with
        | None => throw OutOfFuel
        | Some out =>
          __Runtime_free_buffer (i_token inst) ;; __Runtime_free_buffer pkt ;; mret out
        end.

(** ** Transactions *)

Definition __Runtime_control_start_transaction (row : Z) : M unit :=
  modify (set_txn_row row) ;;
  r ← dma StartTransaction;
  if r.1 =? XAIE_OK then mret tt else fail (-1).

Definition rt_ctrl_txn_cast_sid (f : fabric) (row : Z) : option Z :=
  if row <? 0 then Some RT_RES_ID_BCAST
  else match rt_ctrl_row_index f (u8 row) with
       | Some (i, _) => Some (u8 ((ACR_CLASS_WHOLE_ROW <<u32 2) |' (i & 3)))
       | None => None
       end.

(** [out] and what is left in it, with the number of words or why there is
    none. *)
Definition __Runtime_control_write_pkt_commit_transaction (out : list Z) (out_cap : Z) : M (list Z * res fault Z) :=
  if dev =? 0 then fail (-1)
  else
    f ← gets (fun s => fab (net s)); row ← gets txn_row;
    match rt_ctrl_txn_cast_sid f row with
    | None => dma_ig ClearTransaction ;; fail (-1)
    | Some sid =>
      dma_ig ExportSerializedTransaction ;;
      ops ← gets (fun s => exported (world s));
      match ops with
      | None => dma_ig ClearTransaction ;; fail (-1)
      | Some ops =>
        let '(out, r) := rt_ctrl_txn_translate tile_type AIETILE row_shift col_shift ops sid row out out_cap true 0 in
        dma_ig ClearTransaction ;;
        mret (out, match r with Ok n => Ok n | Err (RetCode rc) => Err (Code rc) | Err NoFuel => Err OutOfFuel end)
      end
    end.

(** ** Sends over the row fabric *)

Abbreviation shim_entry := (rt_ctrl_row_shim_entry effect answer_ prog).
Abbreviation shim_return_route := (rt_ctrl_row_shim_return_route effect answer_ prog tile_addr aie2ps).
Abbreviation flush_mmio := (rt_ctrl_ret_flush_mmio effect answer_ tile_addr).

(** A request without a response: the instance that pushes it. *)
Definition one_way (f : fabric) (dest_col dest_row sid bd_id mm2s_ch : Z) : CtrlInstance :=
  Inst (f_shim_col f) dest_col dest_row sid bd_id mm2s_ch 0 0 0.

Definition __Runtime_ctrl_row_broadcast_write (ta : Z) (data : list Z) (bd_id mm2s_ch : Z) (log : bool) : M unit :=
  f ← gets (fun s => fab (net s));
  if (dev =? 0) || (len data =? 0) then fail XAIE_INVALID_ARGS
  else match last (f_rows f) with
  | None => fail XAIE_INVALID_ARGS
  | Some last =>
    net_op (shim_entry mm2s_ch) ;;
    let cap := len data *u32 2 +u32 8 in
    pkt ← __Runtime_alloc_buffer (cap * 4);
    if pkt =? 0 then fail XAIE_ERR
    else
      r ← pktize_write_into pkt cap RT_RES_ID_BCAST ta data false;
      let pw := r.1 in
      if pw =? 0 then __Runtime_free_buffer pkt ;; fail XAIE_ERR
      else
        sync_for_dev pkt (pw * 4) ;;
        let inst := one_way f (c_lo last) (c_row last) RT_RES_ID_BCAST bd_id mm2s_ch in
        on_fail (__Runtime_ctrl_push inst pkt pw false log ;; rt_ctrl_mm2s_wait (f_shim_col f) mm2s_ch)
          (__Runtime_free_buffer pkt) ;;
        __Runtime_free_buffer pkt
  end.

Definition rt_ctrl_row_class_write (cls row ta : Z) (data : list Z) (bd_id mm2s_ch : Z) (log : bool) : M unit :=
  f ← gets (fun s => fab (net s));
  if (dev =? 0) || (len data =? 0) || (len (f_rows f) =? 0) then fail XAIE_INVALID_ARGS
  else match rt_ctrl_row_index f row with
  | None => fail XAIE_INVALID_ARGS
  | Some (rowidx, chain) =>
    net_op (shim_entry mm2s_ch) ;;
    let sid := class_sid cls rowidx in
    let cap := len data *u32 2 +u32 8 in
    pkt ← __Runtime_alloc_buffer (cap * 4);
    if pkt =? 0 then fail XAIE_ERR
    else
      r ← pktize_write_into pkt cap sid ta data false;
      let pw := r.1 in
      if pw =? 0 then __Runtime_free_buffer pkt ;; fail XAIE_ERR
      else
        sync_for_dev pkt (pw * 4) ;;
        let inst := one_way f (class_dest cls chain) row sid bd_id mm2s_ch in
        on_fail (__Runtime_ctrl_push inst pkt pw false log) (__Runtime_free_buffer pkt) ;;
        __Runtime_free_buffer pkt
  end.

Definition __Runtime_ctrl_row_all_but_last_write := rt_ctrl_row_class_write ACR_CLASS_ALL_BUT_LAST.
Definition __Runtime_ctrl_row_only_last_write := rt_ctrl_row_class_write ACR_CLASS_ONLY_LAST.
Definition __Runtime_ctrl_row_whole_row_write := rt_ctrl_row_class_write ACR_CLASS_WHOLE_ROW.

Definition __Runtime_control_push (out : list Z) (bd_id mm2s_ch : Z) (block log : bool) : M unit :=
  f ← gets (fun s => fab (net s)); row ← gets txn_row;
  if (dev =? 0) || (len out =? 0) || (len (f_rows f) =? 0) then fail XAIE_INVALID_ARGS
  else match rt_ctrl_push_dest f row with
  | None => fail XAIE_INVALID_ARGS
  | Some (dest_col, dest_row, sid) =>
    net_op flush_mmio ;;
    net_op (shim_entry mm2s_ch) ;;
    pkt ← __Runtime_alloc_buffer (len out * 4);
    if pkt =? 0 then fail XAIE_ERR
    else
      store pkt out ;;
      sync_for_dev pkt (len out * 4) ;;
      let inst := one_way f dest_col dest_row sid bd_id mm2s_ch in
      on_fail (__Runtime_ctrl_push inst pkt (len out) block log) (__Runtime_free_buffer pkt) ;;
      __Runtime_free_buffer pkt
  end.

(** ** Answers of a row *)

(** One receive descriptor per answer, in a run of buffers from [token]. *)
Definition rt_ctrl_row_shim_return (s2mm_ch base_bd npkt pkt_words token : Z) : M unit :=
  net_op (shim_return_route s2mm_ch) ;;
  f ← gets (fun s => fab (net s));
  let shim := Loc 0 (f_shim_col f) in
  base_addr ← dev_addr_of token;
  let len_ := pkt_words *u32 4 in
  num_bds ← out_value (DmaGetNumBds shim) 16;
  if (base_bd <? 0) || (num_bds <? base_bd + npkt) then fail XAIE_INVALID_ARGS
  else
    finish_on_tlast shim s2mm_ch ;;
    forM (range 0 npkt) (fun k =>
      write_bd shim (base_addr +u64 u64 (k * len_)) len_ (base_bd + k) ;;
      push_bd shim s2mm_ch DMA_S2MM (base_bd + k)) ;;
    dma_ok (DmaChannelEnable shim (u8 s2mm_ch) DMA_S2MM).

Definition rt_ctrl_row_return_poll (s2mm_ch npkt pkt_words token : Z) : M Z :=
  f ← gets (fun s => fab (net s));
  r ← poll (Z.to_nat 200000) (fun pending =>
        dsync_step_inputs ;;
        r ← dma (DmaGetPendingBdCount (Loc 0 (f_shim_col f)) (u8 s2mm_ch) DMA_S2MM);
        mret (if negb (r.1 =? XAIE_OK) then inr false else if r.2 =? 0 then inr true else inl r.2)) (u8 npkt);
  match r with
  | inr false => mret 0xFF
  | inr true => sync_for_cpu token (npkt * pkt_words * 4) ;; mret 0
  | inl pending => sync_for_cpu token (npkt * pkt_words * 4) ;; mret pending
  end.

(** A landed packet goes to the part of the result for the column it came
    from. *)
Definition place_packet (lo ncols ta nwords : Z) (out p : list Z) : list Z :=
  let ci := pf_src_col (Runtime_ctrl_parse_pkt_hdr (rd p 0)) - lo in
  if (0 <=? ci) && (ci <? ncols) then
    match rt_ctrl_read_extract p ta nwords (slice out (ci * nwords) nwords) with
    | Some vals => blit out (ci * nwords) vals
    | None => out
    end
  else out.

Definition row_cols (chain : row_chain) : Z := s32 (u32 (u32 (c_hi chain - c_lo chain) + 1)).

(** The code and [out_vals], which is written whether or not every answer
    came. *)
Definition __Runtime_ctrl_row_read (row ta nwords : Z) (out_vals : list Z) (bd_id mm2s_ch : Z) : M (Z * list Z) :=
  f ← gets (fun s => fab (net s));
  if (dev =? 0) || (nwords =? 0) || (len (f_rows f) =? 0) then fail XAIE_INVALID_ARGS
  else match rt_ctrl_row_index f row with
  | None => fail XAIE_INVALID_ARGS
  | Some (rowidx, chain) =>
    let ncols := row_cols chain in
    net_op (shim_entry mm2s_ch) ;;
    let sid := class_sid ACR_CLASS_WHOLE_ROW rowidx in
    let cap := nwords *u32 2 +u32 8 in
    pkt ← __Runtime_alloc_buffer (cap * 4);
    if pkt =? 0 then fail XAIE_ERR
    else
      '(pw, per_pkt) ← pktize_read_into pkt cap sid 0 ta nwords;
      if (pw =? 0) || (per_pkt =? 0) then __Runtime_free_buffer pkt ;; fail XAIE_ERR
      else
        sync_for_dev pkt (pw * 4) ;;
        let total := per_pkt *u32 u32 ncols in
        token ← __Runtime_alloc_buffer (total * 4);
        if token =? 0 then __Runtime_free_buffer pkt ;; fail XAIE_ERR
        else
          let cleanup := (__Runtime_free_buffer token ;; __Runtime_free_buffer pkt) in
          store token (replicate (Z.to_nat total) 0) ;;
          on_fail (rt_ctrl_row_shim_return (f_resp_s2mm_ch f) (bd_id + 1) ncols per_pkt token) cleanup ;;
          let inst := Inst (f_shim_col f) (c_lo chain) row sid bd_id mm2s_ch (f_resp_s2mm_ch f) token total in
          on_fail (__Runtime_ctrl_push inst pkt pw false false) cleanup ;;
          pending ← rt_ctrl_row_return_poll (f_resp_s2mm_ch f) ncols per_pkt token;
          pkts ← gets (fun s => (fun k => load_words (words s) (token + 4 * (k * per_pkt)) per_pkt) <$> range 0 ncols);
          let out := foldl (place_packet (c_lo chain) ncols ta nwords) out_vals pkts in
          __Runtime_free_buffer token ;;
          __Runtime_free_buffer pkt ;;
          mret (if pending =? 0 then XAIE_OK else XAIE_ERR, out)
  end.

Definition __Runtime_ctrl_row_write_ack (row ta : Z) (data : list Z) (bd_id mm2s_ch : Z) : M unit :=
  f ← gets (fun s => fab (net s));
  if (dev =? 0) || (len data =? 0) || (len (f_rows f) =? 0) then fail XAIE_INVALID_ARGS
  else match rt_ctrl_row_index f row with
  | None => fail XAIE_INVALID_ARGS
  | Some (rowidx, chain) =>
    let ncols := row_cols chain in
    net_op (shim_entry mm2s_ch) ;;
    let sid := class_sid ACR_CLASS_WHOLE_ROW rowidx in
    let cap := len data *u32 2 +u32 8 in
    let token_off := u32 (u32 (cap + 3) & Z.lnot 3) in
    pkt ← __Runtime_alloc_buffer (u32 (token_off + ncols) * 4);
    if pkt =? 0 then fail XAIE_ERR
    else
      '(pw, per_pkt) ← pktize_write_into pkt cap sid ta data true;
      if (pw =? 0) || (per_pkt =? 0) then __Runtime_free_buffer pkt ;; fail XAIE_ERR
      else
        sync_for_dev pkt (pw * 4) ;;
        let total := per_pkt *u32 u32 ncols in
        let token := pkt + 4 * token_off in
        store token (replicate (Z.to_nat total) 0) ;;
        on_fail (rt_ctrl_row_shim_return (f_resp_s2mm_ch f) (bd_id + 1) ncols per_pkt token) (__Runtime_free_buffer pkt) ;;
        let inst := Inst (f_shim_col f) (c_lo chain) row sid bd_id mm2s_ch (f_resp_s2mm_ch f) token total in
        on_fail (__Runtime_ctrl_push inst pkt pw false false) (__Runtime_free_buffer pkt) ;;
        pending ← rt_ctrl_row_return_poll (f_resp_s2mm_ch f) ncols per_pkt token;
        __Runtime_free_buffer pkt ;;
        if pending =? 0 then mret tt else fail XAIE_ERR
  end.
End send.
