(* ===== verification/RowDevice.v ===== *)
(** * What the device does with control packets

    The specification side of [RowSend]: tiles that execute the accesses they
    receive in order, at a pace nobody controls; stream switches that bring a
    request to the tiles its stream id selects, and the answers to one receive
    channel of the shim, in the order they are made; and the shim's DMA, whose
    receive descriptors are retired by the end of a packet.  An answer with no
    descriptor to receive it waits, and so does its tile. *)

From stdpp Require Import base list list_numbers numbers gmap.
From S2P Require Import Prelude.
From S2P Require Import CtrlpktEncode.
From S2P Require Import RuntimePkt.
From S2P Require Import CtrlpktFormat.
From S2P Require Import Driver.
From S2P Require Import CacheSync.
From S2P Require Import RowSend.

Local Open Scope Z_scope.
Local Open Scope c_scope.

(** A tile's column and row; a channel of a shim tile. *)
Abbreviation tile := (Z * Z)%type (only parsing).
Abbreviation channel := (XAie_LocType * Z)%type (only parsing).

Definition upd {K V} `{EqDecision K} (f : K -> V) (k : K) (v : V) : K -> V :=
  fun x => if decide (x = k) then v else f x.

(** ** The state *)

(** The heap's live blocks, the descriptor and channel descriptor under
    construction, the buffer descriptors, the channels' modes, those that are
    enabled to receive, and the descriptors queued in either direction.  A
    descriptor is an address and a number of bytes. *)
Record shim_dma := Shim {
  heap : list (Z * Z); desc : Z * Z; fot_new : bool; bds : channel -> Z * Z;
  on_tlast : channel -> bool; receives : channel -> bool; s2mm : channel -> list (Z * Z);
  mm2s : channel -> list (Z * Z) }.

(** The shim, the tiles' memories, the accesses each has received and not
    executed, and the time. *)
Record array := Array { shim : shim_dma; mem_of : tile -> tile_mem; work : tile -> list access; clock : nat }.

(** ** Answers *)

Definition returns (a : access) : bool := negb (a_op a =? OP_WRITE).

(** The header of an answer: its stream id, where it comes from, parity. *)
Definition response_hdr (ret : Z) (t : tile) : Z :=
  let h := (ret & 0x1F) + t.2 * 2 ^ 16 + t.1 * 2 ^ 21 in h + cpe_parity h * 2 ^ 31.

Definition response (t : tile) (a : access) (m : tile_mem) : list Z :=
  response_hdr (a_ret a) t :: (if a_op a =? OP_READ then load_words m (a_addr a) (a_beats a) else []).

(** A packet's words go to the queued descriptors; [None]: they end before
    the packet does. *)
Fixpoint land (tlast : bool) (q : list (Z * Z)) (p : list Z) (m : Z -> Z) : option (list (Z * Z) * (Z -> Z)) :=
  match q with
  | [] => None
  | (a, n) :: q' =>
    if len p * 4 <=? n then
      Some (if tlast || (len p * 4 =? n) then q' else (a + 4 * len p, n - 4 * len p) :: q', store_words m a p)
    else land tlast q' (slice p (n / 4) (len p)) (store_words m a (slice p 0 (n / 4)))
  end.

Section array.
(** The allocator, the tiles that move at each moment, the tiles a stream id
    reaches (by the registers), and the channel that the answers reach. *)
Context (pick : list (Z * Z) -> Z -> Z) (schedule : nat -> list tile).
Context (targets : (Z -> Z) -> Z -> list tile) (home : channel).

Definition set_s2mm (q : list (Z * Z)) (s : shim_dma) : shim_dma :=
  Shim (heap s) (desc s) (fot_new s) (bds s) (on_tlast s) (receives s) (upd (s2mm s) home q) (mm2s s).

(** A tile executes its next access. *)
Definition move (st : array * (Z -> Z)) (t : tile) : array * (Z -> Z) :=
  let '(w, m) := st in
  match work w t with
  | [] => st
  | a :: todo =>
    let mem' := upd (mem_of w) t (run_access (mem_of w t) a) in
    if returns a then
      if receives (shim w) home then
        match land (on_tlast (shim w) home) (s2mm (shim w) home) (response t a (mem_of w t)) m with
        | Some (q, m) => (Array (set_s2mm q (shim w)) mem' (upd (work w) t todo) (clock w), m)
        | None => st
        end
      else st
    else (Array (shim w) mem' (upd (work w) t todo) (clock w), m)
  end.

Definition tick (w : array) (m : Z -> Z) : array * (Z -> Z) :=
  let '(w', m) := foldl move (w, m) (schedule (clock w)) in
  (Array (shim w') (mem_of w') (work w') (S (clock w)), m).

(** The words of a transfer reach the tiles they are for. *)
Definition deliver (regs : Z -> Z) (m : Z -> Z) (wk : tile -> list access) (b : Z * Z) : tile -> list access :=
  let ws := load_words m b.1 (b.2 / 4) in
  let accs := default [] (decode_stream (S (length ws)) ws) in
  fun t => wk t ++ List.filter (fun a => bool_decide (t ∈ targets regs (a_sid a))) accs.

(** What a call does to the shim, but for the start of a send. *)
Definition shim_call (c : dma_call) (s : shim_dma) : shim_dma :=
  match c with
  | MemAllocate n =>
    let p := pick (heap s) n in
    if p =? 0 then s
    else Shim ((p, n) :: heap s) (desc s) (fot_new s) (bds s) (on_tlast s) (receives s) (s2mm s) (mm2s s)
  | MemFreeVAddr p =>
    Shim (List.filter (fun b => negb (b.1 =? p)) (heap s)) (desc s) (fot_new s) (bds s) (on_tlast s) (receives s)
      (s2mm s) (mm2s s)
  | DmaDescInit _ => Shim (heap s) (0, 0) (fot_new s) (bds s) (on_tlast s) (receives s) (s2mm s) (mm2s s)
  | DmaSetAddrLen a n => Shim (heap s) (a, n) (fot_new s) (bds s) (on_tlast s) (receives s) (s2mm s) (mm2s s)
  | DmaWriteBd t bd =>
    Shim (heap s) (desc s) (fot_new s) (upd (bds s) (t, bd) (desc s)) (on_tlast s) (receives s) (s2mm s) (mm2s s)
  | DmaChannelPushBdToQueue t ch DMA_S2MM bd =>
    Shim (heap s) (desc s) (fot_new s) (bds s) (on_tlast s) (receives s)
      (upd (s2mm s) (t, ch) (s2mm s (t, ch) ++ [bds s (t, bd)])) (mm2s s)
  | DmaChannelPushBdToQueue t ch DMA_MM2S bd =>
    Shim (heap s) (desc s) (fot_new s) (bds s) (on_tlast s) (receives s) (s2mm s)
      (upd (mm2s s) (t, ch) (mm2s s (t, ch) ++ [bds s (t, bd)]))
  | DmaChannelDescInit _ => Shim (heap s) (desc s) false (bds s) (on_tlast s) (receives s) (s2mm s) (mm2s s)
  | DmaChannelSetFoTMode_NO_COUNTS =>
    Shim (heap s) (desc s) true (bds s) (on_tlast s) (receives s) (s2mm s) (mm2s s)
  | DmaChannelSetFoTMode_DISABLED =>
    Shim (heap s) (desc s) false (bds s) (on_tlast s) (receives s) (s2mm s) (mm2s s)
  | DmaWriteChannel t ch _ =>
    Shim (heap s) (desc s) (fot_new s) (bds s) (upd (on_tlast s) (t, ch) (fot_new s)) (receives s) (s2mm s) (mm2s s)
  | DmaChannelEnable t ch DMA_S2MM =>
    Shim (heap s) (desc s) (fot_new s) (bds s) (on_tlast s) (upd (receives s) (t, ch) true) (s2mm s) (mm2s s)
  | DmaChannelEnable t ch DMA_MM2S =>
    Shim (heap s) (desc s) (fot_new s) (bds s) (on_tlast s) (receives s) (s2mm s) (upd (mm2s s) (t, ch) [])
  | _ => s
  end.

Definition shim_answer (c : dma_call) (s : shim_dma) : Z :=
  match c with
  | MemAllocate n => pick (heap s) n
  | DmaGetNumBds _ => 16
  | DmaGetPendingBdCount t ch DMA_S2MM => len (s2mm s (t, ch))
  | _ => 0
  end.

(** A call: the tiles move, then the call is done.  A send starts when its
    channel is enabled. *)
Definition array_call (c : dma_call) (regs m : Z -> Z) (w : array) : (Z -> Z) * array * (Z * Z) :=
  let '(w, m) := tick w m in
  let wk := match c with
            | DmaChannelEnable t ch DMA_MM2S => foldl (deliver regs m) (work w) (mm2s (shim w) (t, ch))
            | _ => work w
            end in
  (m, Array (shim_call c (shim w)) (mem_of w) wk (clock w), (XAIE_OK, shim_answer c (shim w))).
End array.

(** What moving leaves alone. *)
Lemma move_shim home w m t :
  let w' := (move home (w, m) t).1 in
  heap (shim w') = heap (shim w) /\ bds (shim w') = bds (shim w) /\ mm2s (shim w') = mm2s (shim w) /\ clock w' = clock w.
Proof. unfold move. destruct (work w t); [done|]. repeat case_match; done. Qed.

Lemma moves_shim home l : forall w m,
  let w' := (foldl (move home) (w, m) l).1 in
  heap (shim w') = heap (shim w) /\ bds (shim w') = bds (shim w) /\ mm2s (shim w') = mm2s (shim w) /\ clock w' = clock w.
Proof.
  induction l as [|t l IH]; intros w m; [done|]. cbn [foldl].
  pose proof (move_shim home w m t) as (H1 & H2 & H3 & H4). destruct (move home (w, m) t) as [w1 m1].
  destruct (IH w1 m1) as (H5 & H6 & H7 & H8). cbn [fst] in *. by rewrite H5, H6, H7, H8.
Qed.

(** Without descriptors nothing is received. *)
Lemma moves_drained home l : forall w m,
  s2mm (shim w) home = [] -> s2mm (shim (foldl (move home) (w, m) l).1) home = [].
Proof.
  induction l as [|t l IH]; intros w m H; [done|]. cbn [foldl]. destruct (move home (w, m) t) as [w1 m1] eqn:E.
  apply IH. unfold move in E. destruct (work w t) as [|b todo]; [by injection E as <- <-|].
  destruct (returns b); [|by injection E as <- <-]. destruct (receives (shim w) home); [|by injection E as <- <-].
  rewrite H in E. by injection E as <- <-.
Qed.

(** ** Memory *)

Lemma store_outside m a ws x : x < a \/ a + 4 * len ws <= x -> store_words m a ws x = m x.
Proof. intros H. unfold store_words. by replace ((a <=? x) && (x <? a + 4 * len ws)) with false by lia. Qed.

Lemma load_ext m m' a n :
  (forall x, a <= x < a + 4 * n -> m x = m' x) -> load_words m a n = load_words m' a n.
Proof.
  intros H. unfold load_words. apply map_ext_in. intros k Hk%list_elem_of_In%elem_of_seqZ. apply H. lia.
Qed.

Lemma load_store_outside m a ws b n :
  b + 4 * n <= a \/ a + 4 * len ws <= b -> load_words (store_words m a ws) b n = load_words m b n.
Proof. intros H. apply load_ext. intros x Hx. apply store_outside. lia. Qed.

(** ** Gathering answers *)

Lemma upd_same {K V} `{EqDecision K} (f : K -> V) k v : upd f k v k = v.
Proof. unfold upd. by rewrite decide_True. Qed.
Lemma upd_other {K V} `{EqDecision K} (f : K -> V) k v x : x <> k -> upd f k v x = f x.
Proof. intros. unfold upd. by rewrite decide_False. Qed.

(** How often a tile moved. *)
Definition moves_of (t : tile) (past : list tile) : nat := length (filter (fun u => u = t) past).

Lemma moves_of_app t l k : moves_of t (l ++ k) = (moves_of t l + moves_of t k)%nat.
Proof. unfold moves_of. by rewrite filter_app, length_app. Qed.
Lemma moves_of_one t u : moves_of t [u] = if decide (u = t) then 1%nat else 0%nat.
Proof. unfold moves_of. rewrite filter_cons. by destruct (decide (u = t)). Qed.

(** The tiles [T] received the accesses [pre ++ [a]], of which only the last
    one is answered, with [pp] words.  The answers fill the memory from [tok]
    on; [queue_at k] is queued on the channel when [k] of them have landed. *)
Section gathering.
Context (home : channel) (tl : bool) (queue_at : nat -> list (Z * Z)).
Context (T : list tile) (pre : list access) (a : access) (tok pp : Z).
Context (M0 : tile -> tile_mem) (m0 : Z -> Z).

Record queues : Prop := {
  q_lands : forall k p m, (k < length T)%nat -> len p = pp ->
    land tl (queue_at k) p m = Some (queue_at (S k), store_words m (tok + 4 * (Z.of_nat k * pp)) p);
  q_end : forall k, queue_at k = [] <-> (length T <= k)%nat }.
Hypothesis queues_ok : queues.
Hypothesis T_nodup : NoDup T.
Hypothesis pre_silent : Forall (fun b => returns b = false) pre.
Hypothesis a_returns : returns a = true.
Hypothesis answer_len : pp = 1 + (if a_op a =? OP_READ then a_beats a else 0).
Hypothesis beats_pos : 0 <= a_beats a.

Definition answer_of (t : tile) : list Z := response t a (run_accesses (M0 t) pre).

(** [order]: the tiles that have answered, and [past]: the moves so far. *)
Record gathered (w : array) (m : Z -> Z) (order past : list tile) : Prop := {
  g_nodup : NoDup order;
  g_sub : order ⊆ T;
  g_queue : s2mm (shim w) home = queue_at (length order);
  g_tlast : on_tlast (shim w) home = tl;
  g_recv : receives (shim w) home = true;
  g_tile : forall t, t ∈ T -> exists done, pre ++ [a] = done ++ work w t /\
    mem_of w t = run_accesses (M0 t) done /\ (t ∈ order <-> work w t = []);
  g_other : forall t, t ∉ T -> work w t = [] /\ mem_of w t = M0 t;
  g_landed : forall k t, order !! k = Some t -> load_words m (tok + 4 * (Z.of_nat k * pp)) pp = answer_of t;
  g_frame : forall x, x < tok \/ tok + 4 * (len T * pp) <= x -> m x = m0 x;
  g_pace : forall t, t ∈ T -> (length (work w t) <= length (pre ++ [a]) - moves_of t past)%nat }.

Lemma len_answer t mm : len (response t a mm) = pp.
Proof using answer_len beats_pos.
  unfold response. rewrite len_cons, answer_len. case_match; [|done].
  unfold load_words, len. rewrite length_map, length_seqZ. lia.
Qed.

Lemma order_bound w m order past : gathered w m order past -> (length order <= length T)%nat.
Proof using. intros G. apply submseteq_length, NoDup_submseteq; [apply G|]. intros x Hx. by apply G. Qed.

Lemma order_room w m order past t :
  gathered w m order past -> t ∈ T -> t ∉ order -> (length order < length T)%nat.
Proof using.
  intros G Ht Hn. apply (submseteq_length (t :: order)), NoDup_submseteq.
  - constructor; [done|apply G].
  - intros x [->|Hx]%elem_of_cons; [done|]. by apply G.
Qed.

(** The next access of a tile with work left. *)
Lemma next_access w m order past t b todo :
  gathered w m order past -> t ∈ T -> work w t = b :: todo ->
  exists done, pre ++ [a] = done ++ b :: todo /\ mem_of w t = run_accesses (M0 t) done /\ (t ∉ order) /\
    (todo <> [] /\ returns b = false \/ todo = [] /\ b = a /\ done = pre).
Proof using pre_silent a_returns answer_len beats_pos.
  intros G Ht E. destruct (g_tile _ _ _ _ G t Ht) as (done & Ea & Em & Eo).
  rewrite E in Ea, Eo. exists done. split; [done|]. split; [done|]. split; [intros H; by apply Eo in H|].
  destruct todo as [|x l _] using rev_ind.
  - right. apply app_inj_tail in Ea as [-> ->]. done.
  - left. split; [by destruct l|]. rewrite app_comm_cons, app_assoc in Ea.
    apply app_inj_tail in Ea as [Ep _]. rewrite Ep in pre_silent.
    apply Forall_app in pre_silent as [_ [H _]%Forall_cons]. exact H.
Qed.

(** Changing a tile's part of the state. *)
Lemma g_tile_step w m order past t b todo (order' : list tile) done :
  gathered w m order past -> t ∈ T -> pre ++ [a] = done ++ b :: todo -> mem_of w t = run_accesses (M0 t) done ->
  (forall u, u ∈ order' <-> u ∈ order \/ (u = t /\ todo = [])) -> t ∉ order ->
  forall u, u ∈ T -> exists done, pre ++ [a] = done ++ upd (work w) t todo u /\
    upd (mem_of w) t (run_access (mem_of w t) b) u = run_accesses (M0 u) done /\
    (u ∈ order' <-> upd (work w) t todo u = []).
Proof using.
  intros G Ht Ea Em Ho Hn u Hu. destruct (decide (u = t)) as [->|Hne].
  - exists (done ++ [b]). rewrite !upd_same, <- app_assoc. split; [done|]. split.
    + rewrite Em, run_accesses_app. done.
    + rewrite Ho. split; [by intros [?|[_ ?]]|by right].
  - rewrite !upd_other by done. destruct (g_tile _ _ _ _ G u Hu) as (d & E1 & E2 & E3).
    exists d. split; [done|]. split; [done|]. rewrite Ho, <- E3. tauto.
Qed.

Lemma move_gathered w m order past t :
  gathered w m order past -> exists order', gathered (move home (w, m) t).1 (move home (w, m) t).2 order' (past ++ [t]).
Proof using queues_ok T_nodup pre_silent a_returns answer_len beats_pos.
  intros G. unfold move. destruct (work w t) as [|b todo] eqn:E.
  { exists order. cbn [fst snd]. destruct G. constructor; auto. intros u Hu. rewrite moves_of_app, moves_of_one.
    case_decide as Hut; [|specialize (g_pace0 u Hu); lia]. subst u. rewrite E. cbn. lia. }
  assert (t ∈ T) as Ht.
  { destruct (decide (t ∈ T)); [done|]. destruct (g_other _ _ _ _ G t) as [E' _]; [done|]. congruence. }
  assert (forall u, u ∈ T -> (length (upd (work w) t todo u) <= length (pre ++ [a]) - moves_of u (past ++ [t]))%nat) as Hpace.
  { intros u Hu. pose proof (g_pace _ _ _ _ G u Hu) as Hp. rewrite moves_of_app, moves_of_one.
    case_decide as Hut; [subst u|rewrite upd_other by done; lia]. rewrite upd_same. rewrite E in Hp. cbn in Hp. lia. }
  destruct (next_access w m order past t b todo G Ht E) as (done & Ea & Em & Hn & [[Hne Hb]|(-> & -> & ->)]).
  - rewrite Hb. exists order. pose proof (g_tile_step w m order past t b todo order done G Ht Ea Em) as Hs.
    destruct G. constructor; auto. + apply Hs; [|done]. tauto.
    + intros u Hu. cbn. rewrite !upd_other by (intros ->; done). auto.
  - rewrite a_returns, (g_recv _ _ _ _ G), (g_queue _ _ _ _ G), (g_tlast _ _ _ _ G).
    pose proof (order_room w m order past t G Ht Hn) as Hroom.
    rewrite (q_lands queues_ok _ _ _ Hroom (len_answer t (mem_of w t))). cbn [fst snd].
    exists (order ++ [t]). pose proof (g_tile_step w m order past t a [] (order ++ [t]) pre G Ht Ea Em) as Hs.
    assert (0 < pp) as Hpp by (rewrite answer_len; case_match; lia).
    destruct G. constructor; auto; cbn [shim mem_of work s2mm on_tlast receives set_s2mm].
    + apply NoDup_app. split; [done|]. split; [|apply NoDup_singleton].
      intros x Hx Hx'%list_elem_of_singleton. by subst x.
    + intros x [Hx|Hx%list_elem_of_singleton]%elem_of_app; [auto|by subst x].
    + rewrite upd_same, length_app. cbn. f_equal. lia.
    + apply Hs; [|done]. intros u. rewrite elem_of_app, list_elem_of_singleton.
      split; [intros [?|?]; auto|intros [?|[? _]]; auto].
    + intros u Hu. rewrite !upd_other by (intros ->; done). auto.
    + intros k u Hk. rewrite Em. apply lookup_app_Some in Hk as [Hk|[Hk1 Hk2]].
      * pose proof (lookup_lt_Some _ _ _ Hk). rewrite load_store_outside; [by apply g_landed0|].
        rewrite len_answer. nia.
      * apply list_lookup_singleton_Some in Hk2 as [Hk2 <-]. replace k with (length order) by lia.
        pose proof (load_store m (tok + 4 * (Z.of_nat (length order) * pp)) (answer_of t)) as L.
        unfold answer_of in L at 2. by rewrite len_answer in L.
    + intros x Hx. rewrite store_outside; [by apply g_frame0|]. rewrite len_answer. unfold len in *. nia.
Qed.

Lemma moves_gathered l : forall w m order past,
  gathered w m order past -> exists order', gathered (foldl (move home) (w, m) l).1 (foldl (move home) (w, m) l).2 order' (past ++ l).
Proof using queues_ok T_nodup pre_silent a_returns answer_len beats_pos.
  induction l as [|t l IH]; intros w m order past G; [exists order; by rewrite app_nil_r|].
  destruct (move_gathered w m order past t G) as (o & G1). cbn [foldl].
  destruct (move home (w, m) t) as [w1 m1]. destruct (IH w1 m1 o _ G1) as (o' & G2).
  exists o'. by rewrite <- app_assoc in G2.
Qed.

Lemma gathered_start w :
  (forall t, t ∈ T -> work w t = pre ++ [a]) -> (forall t, t ∉ T -> work w t = []) -> (forall t, mem_of w t = M0 t) ->
  s2mm (shim w) home = queue_at 0 -> on_tlast (shim w) home = tl -> receives (shim w) home = true ->
  gathered w m0 [] [].
Proof using.
  intros Hw Hw' HM Hq Ht Hr. constructor; auto.
  - constructor.
  - intros x Hx. by apply not_elem_of_nil in Hx.
  - intros t HT. exists []. rewrite Hw by done. split; [done|]. split; [apply HM|]. split; [by intros ?%not_elem_of_nil|].
    intros E. by apply app_nil in E as [_ ?].
  - done.
  - intros t HT. rewrite Hw by done. unfold moves_of. cbn. lia.
Qed.

(** Once nothing is queued, every tile has answered and done its work. *)
Lemma gathered_all w m order past :
  gathered w m order past -> s2mm (shim w) home = [] -> order ≡ₚ T.
Proof using queues_ok.
  intros G E. rewrite (g_queue _ _ _ _ G) in E. apply (q_end queues_ok) in E.
  apply submseteq_length_Permutation; [|done].
  apply NoDup_submseteq; [apply G|]. intros x Hx. by apply G.
Qed.

Lemma gathered_done w m order past t :
  gathered w m order past -> s2mm (shim w) home = [] -> t ∈ T -> work w t = [] /\ mem_of w t = run_accesses (M0 t) (pre ++ [a]).
Proof using queues_ok.
  intros G E Ht. destruct (g_tile _ _ _ _ G t Ht) as (done & Ea & Em & Eo).
  assert (work w t = []) as Ew. { apply Eo. by rewrite (gathered_all w m order past G E). }
  split; [done|]. rewrite Ew, app_nil_r in Ea. by rewrite Ea.
Qed.

(** Tiles that move often enough all answer. *)
Lemma gathered_fair w m order past :
  gathered w m order past -> (forall t, t ∈ T -> (length (pre ++ [a]) <= moves_of t past)%nat) -> s2mm (shim w) home = [].
Proof using queues_ok T_nodup.
  intros G Hf. rewrite (g_queue _ _ _ _ G). apply (q_end queues_ok).
  apply submseteq_length, NoDup_submseteq; [done|]. intros t Ht.
  destruct (g_tile _ _ _ _ G t Ht) as (done & _ & _ & Eo). apply Eo.
  pose proof (g_pace _ _ _ _ G t Ht) as Hp. specialize (Hf t Ht). apply length_zero_iff_nil. lia.
Qed.

Lemma gathered_pending w m order past :
  gathered w m order past -> (len (s2mm (shim w) home) =? 0) = bool_decide (s2mm (shim w) home = []).
Proof using.
  intros _. destruct (s2mm (shim w) home) as [|b q]; [done|]. rewrite bool_decide_false by done.
  rewrite len_cons. pose proof (len_nonneg q). lia.
Qed.

Section calls.
Context (pick : list (Z * Z) -> Z -> Z) (schedule : nat -> list tile) (targets : (Z -> Z) -> Z -> list tile).

(** The moves from time [n0] on. *)
Definition past_since (n0 c : nat) : list tile := concat (schedule <$> seq n0 (c - n0)).

Lemma past_since_S n0 c : (n0 <= c)%nat -> past_since n0 (S c) = past_since n0 c ++ schedule c.
Proof using.
  intros H. unfold past_since. replace (S c - n0)%nat with (S (c - n0)) by lia.
  rewrite seq_S, fmap_app, concat_app. cbn. rewrite app_nil_r. do 2 f_equal. lia.
Qed.

Definition quiet (c : dma_call) : bool :=
  match c with
  | MemCall _ | MemFreeVAddr _ | DmaGetPendingBdCount _ _ _ | DmaGetChannelStatus _ _ _ | Read32_ _ => true
  | _ => false
  end.

Definition going (n0 : nat) (w : array) (m : Z -> Z) (order : list tile) : Prop :=
  gathered w m order (past_since n0 (clock w)) /\ (n0 <= clock w)%nat.

(** A call that leaves the queues and the modes alone. *)
Lemma quiet_call c regs m w order n0 :
  quiet c = true -> going n0 w m order ->
  exists w' m' order', array_call pick schedule targets home c regs m w = (m', w', (XAIE_OK, shim_answer pick c (shim w'))) /\
    going n0 w' m' order' /\ heap (shim w') = heap (shim_call pick c (shim w)) /\ clock w' = S (clock w) /\
    (s2mm (shim w) home = [] -> s2mm (shim w') home = []).
Proof using queues_ok T_nodup pre_silent a_returns answer_len beats_pos.
  intros Hq [G Hn]. unfold array_call, tick.
  destruct (moves_gathered (schedule (clock w)) w m order _ G) as (order' & G').
  pose proof (moves_shim home (schedule (clock w)) w m) as (H1 & H2 & H3 & H4).
  pose proof (moves_drained home (schedule (clock w)) w m) as H5.
  destruct (foldl _ _ _) as [w1 m1]. cbn [fst snd] in *.
  exists (Array (shim_call pick c (shim w1)) (mem_of w1) (work w1) (S (clock w))), m1, order'.
  split; [by destruct c|]. split; [split; [|cbn; lia]|split; [|split; [done|by destruct c]]].
  - cbn [clock]. rewrite past_since_S by done. destruct c; try discriminate; destruct G'; by constructor.
  - destruct c; try discriminate; cbn; by rewrite ?H1.
Qed.
End calls.
End gathering.

(** ** Descriptors for the answers *)

(** One descriptor for each answer, which its TLAST ends. *)
Definition slot (tok pp k : Z) : Z * Z := (tok + 4 * (k * pp), 4 * pp).
Definition slots (T : list tile) (tok pp : Z) : list (Z * Z) := slot tok pp <$> range 0 (len T).
Definition slots_at (T : list tile) (tok pp : Z) (k : nat) : list (Z * Z) := list.drop k (slots T tok pp).

Lemma length_slots T tok pp : length (slots T tok pp) = length T.
Proof. unfold slots, range, len. rewrite length_fmap, length_seqZ. lia. Qed.

Lemma slots_queues T tok pp : queues true (slots_at T tok pp) T tok pp.
Proof.
  constructor.
  - intros k p m Hk Hp. unfold slots_at. rewrite (drop_S _ (slot tok pp (Z.of_nat k))).
    + cbn [land slot]. rewrite Hp. by replace (pp * 4 <=? 4 * pp) with true by lia.
    + unfold slots. rewrite list_lookup_fmap. unfold range. rewrite lookup_seqZ_lt by (unfold len; lia). done.
  - intros k. unfold slots_at. split; intros H; [|apply drop_ge; by rewrite length_slots].
    apply (f_equal length) in H. rewrite length_drop, length_slots in H. cbn in H. lia.
Qed.

(** One descriptor for all the words, which their number ends. *)
Definition run_at (T : list tile) (tok pp : Z) (k : nat) : list (Z * Z) :=
  if (k <? length T)%nat then [(tok + 4 * (Z.of_nat k * pp), 4 * ((len T - Z.of_nat k) * pp))] else [].

Lemma run_queues T tok pp : 0 < pp -> queues false (run_at T tok pp) T tok pp.
Proof.
  intros Hpp. assert (len T = Z.of_nat (length T)) as E by done. constructor; unfold run_at.
  - intros k p m Hk Hp. replace (k <? length T)%nat with true by (symmetry; by apply Nat.ltb_lt). cbn [land].
    rewrite Hp. replace (pp * 4 <=? 4 * ((len T - Z.of_nat k) * pp)) with true by nia.
    cbn [orb]. destruct (Nat.ltb_spec (S k) (length T)).
    + replace (pp * 4 =? _) with false by nia. do 4 f_equal; lia.
    + by replace (pp * 4 =? _) with true by nia.
  - intros k. destruct (Nat.ltb_spec k (length T)); split; intros; first [done|lia|congruence].
Qed.
