(* ===== verification/RowSendProps.v ===== *)
(** * Theorems on sending control packets

    On the device of [RowDevice], a read of a row brings every column's words
    to its place in the result, in whatever order the answers merge; an
    acknowledged write has reached every tile when it returns; both complete
    when the tiles keep moving.  For any device, the buffers that an operation
    allocates are freed on every path.

    Until a request is sent, the tiles are idle and what the code does is the
    list of its calls ([does]); from then on the invariant is [going]. *)

From stdpp Require Import base list list_numbers numbers gmap.
From S2P Require Import Prelude.
From S2P Require Import CtrlpktEncode.
From S2P Require Import RuntimePkt.
From S2P Require Import CtrlpktFormat.
From S2P Require Import CtrlpktWrite.
From S2P Require Import CtrlpktRead.
From S2P Require Import Resource.
From S2P Require Import ControlPlan.
From S2P Require Import Driver.
From S2P Require Import TraceRes.
From S2P Require Import ShimBatch.
From S2P Require Import CacheSync.
From S2P Require Import RowFabric.
From S2P Require Import RowSend.
From S2P Require Import RowDevice.

Local Open Scope Z_scope.
Local Open Scope c_scope.

(** ** Before a request is sent *)

Section idle.
Context (pick : list (Z * Z) -> Z -> Z) (schedule : nat -> list (Z * Z)).
Context (targets : (Z -> Z) -> Z -> list (Z * Z)) (home : XAie_LocType * Z).
Context (M0 : Z * Z -> tile_mem) (wk0 : Z * Z -> list access) (q0 : list rt_dsync_rng) (tr : Z).
Hypothesis idle : forall t, wk0 t = [].

Abbreviation xaie := (array_call pick schedule targets home).
Abbreviation state := (send array).
Abbreviation M := (stE state fault).

(** An idle state. *)
Definition mk (nt : RowFabric.state) (al : list AllocEntry) (m : Z -> Z) (sh : shim_dma) (n : nat) : state :=
  Send nt al q0 tr m (Array sh M0 wk0 n).

Definition dos (cs : list dma_call) (sh : shim_dma) : shim_dma := foldl (fun sh c => shim_call pick c sh) sh cs.

Definition starts (c : dma_call) : bool := match c with DmaChannelEnable _ _ DMA_MM2S => true | _ => false end.

Lemma idle_moves l m sh n : foldl (move home) (Array sh M0 wk0 n, m) l = (Array sh M0 wk0 n, m).
Proof using idle.
  induction l as [|t l IH]; [done|]. cbn [foldl].
  replace (move home (Array sh M0 wk0 n, m) t) with (Array sh M0 wk0 n, m); [done|].
  unfold move. cbn [work]. by rewrite idle.
Qed.

Lemma idle_tick m sh n : tick schedule home (Array sh M0 wk0 n) m = (Array sh M0 wk0 (S n), m).
Proof using idle. unfold tick. by rewrite idle_moves. Qed.

Lemma mk_dma c nt al m sh n :
  starts c = false ->
  dma xaie c (mk nt al m sh n) = (mk nt al m (shim_call pick c sh) (S n), Ok (XAIE_OK, shim_answer pick c sh)).
Proof using idle.
  intros Hs. unfold dma, mk, array_call. cbn [net allocs queue txn_row words world]. rewrite idle_tick.
  cbn [shim mem_of work clock]. by destruct c as [| | | | | | | | |? ? []| | | | | | | | | | | | |].
Qed.

(** From an idle state with the buffers [al], an operation makes the calls
    [cs] and gives [a]. *)
Definition does {A} (al : list AllocEntry) (m : M A) (cs : list dma_call) (a : A) : Prop :=
  forall nt ms sh n, exists n', m (mk nt al ms sh n) = (mk nt al ms (dos cs sh) n', Ok a).

Lemma does_ret {A} al (a : A) : does al (mret a) [] a.
Proof using. intros nt ms sh n. by exists n. Qed.

Lemma does_bind {A B} al (m : M A) (k : A -> M B) cs1 cs2 a b :
  does al m cs1 a -> does al (k a) cs2 b -> does al (m ≫= k) (cs1 ++ cs2) b.
Proof using.
  intros H1 H2 nt ms sh n. destruct (H1 nt ms sh n) as (n1 & E1). destruct (H2 nt ms (dos cs1 sh) n1) as (n2 & E2).
  exists n2. rewrite (bind_Ok _ _ _ _ _ E1), E2. unfold dos. by rewrite foldl_app.
Qed.

Lemma does_ok al c : starts c = false -> does al (dma_ok xaie c) [c] tt.
Proof using idle.
  intros Hs nt ms sh n. exists (S n). unfold dma_ok. by rewrite (bind_Ok _ _ _ _ _ (mk_dma c nt al ms sh n Hs)).
Qed.

Lemma does_ig al c : starts c = false -> does al (dma_ig xaie c) [c] tt.
Proof using idle.
  intros Hs nt ms sh n. exists (S n). unfold dma_ig. by rewrite (bind_Ok _ _ _ _ _ (mk_dma c nt al ms sh n Hs)).
Qed.

Lemma does_forM {X} al (xs : list X) (body : X -> M unit) (plan : X -> list dma_call) :
  (forall x, x ∈ xs -> does al (body x) (plan x) tt) -> does al (forM xs body) (concat (plan <$> xs)) tt.
Proof using.
  induction xs as [|x xs IH]; intros H; [apply does_ret|]. cbn [forM fmap list_fmap concat].
  eapply does_bind; [apply H; left|]. apply IH. intros y Hy. apply H. by right.
Qed.

Lemma does_gets_allocs al : does al (gets allocs) [] al.
Proof using. intros nt ms sh n. by exists n. Qed.

Lemma does_num_bds al t : does al (out_value xaie (DmaGetNumBds t) 16) [DmaGetNumBds t] 16.
Proof using idle.
  intros nt ms sh n. exists (S n). unfold out_value.
  by rewrite (bind_Ok _ _ _ _ _ (mk_dma (DmaGetNumBds t) nt al ms sh n eq_refl)).
Qed.

(** The calls of the helpers. *)
Definition bd_calls (t : XAie_LocType) (addr n bd : Z) : list dma_call :=
  [DmaDescInit t; DmaSetAddrLen addr n; DmaEnableBd; DmaSetAxi 0 16 0 0 0; DmaWriteBd t (u8 bd)].
Definition push_call (t : XAie_LocType) (ch : Z) (dir : XAie_DmaDirection) (bd : Z) : dma_call :=
  DmaChannelPushBdToQueue t (u8 ch) dir (u8 bd).
Definition fot_calls (t : XAie_LocType) (ch : Z) : list dma_call :=
  [DmaChannelDescInit t; DmaChannelSetFoTMode_NO_COUNTS; DmaWriteChannel t (u8 ch) DMA_S2MM].

Lemma does_write_bd al t addr n bd : does al (write_bd xaie t addr n bd) (bd_calls t addr n bd) tt.
Proof using idle.
  unfold write_bd, bd_calls. do 4 (eapply (does_bind al _ _ [_]); [by apply does_ok|]). by apply does_ok.
Qed.

Lemma does_push_bd al t ch dir bd : does al (push_bd xaie t ch dir bd) [push_call t ch dir bd] tt.
Proof using idle. by apply does_ok. Qed.

Lemma does_fot al t ch : does al (finish_on_tlast xaie t ch) (fot_calls t ch) tt.
Proof using idle.
  unfold finish_on_tlast, fot_calls. do 2 (eapply (does_bind al _ _ [_]); [by apply does_ok|]). by apply does_ok.
Qed.

Lemma does_mem_calls al (cs : list mem_call) :
  does al (forM cs (fun c => dma_ig xaie (MemCall c))) (MemCall <$> cs) tt.
Proof using idle.
  replace (MemCall <$> cs) with (concat ((fun c => [MemCall c]) <$> cs)).
  - apply does_forM. intros c _. by apply does_ig.
  - induction cs as [|c cs IH]; [done|]. cbn. by rewrite <- IH.
Qed.

Lemma dos_mem_calls (cs : list mem_call) sh : dos (MemCall <$> cs) sh = sh.
Proof using. induction cs; [done|]. by cbn. Qed.

Lemma dos_app cs1 cs2 sh : dos (cs1 ++ cs2) sh = dos cs2 (dos cs1 sh).
Proof using. unfold dos. by rewrite foldl_app. Qed.

(** A descriptor queued on a receive channel. *)
Lemma dos_arm t ch addr n bd sh :
  let sh' := dos (bd_calls t addr n bd ++ [push_call t ch DMA_S2MM bd]) sh in
  s2mm sh' = upd (s2mm sh) (t, u8 ch) (s2mm sh (t, u8 ch) ++ [(addr, n)]) /\
  heap sh' = heap sh /\ mm2s sh' = mm2s sh /\ on_tlast sh' = on_tlast sh /\ receives sh' = receives sh.
Proof using.
  unfold dos, bd_calls, push_call. cbn. rewrite upd_same. done.
Qed.

Lemma dos_arms t ch (f : Z -> Z * Z) (bd : Z -> Z) ks : forall sh,
  let sh' := dos (concat ((fun k => bd_calls t (f k).1 (f k).2 (bd k) ++ [push_call t ch DMA_S2MM (bd k)]) <$> ks)) sh in
  s2mm sh' (t, u8 ch) = s2mm sh (t, u8 ch) ++ (f <$> ks) /\
  heap sh' = heap sh /\ mm2s sh' = mm2s sh /\ on_tlast sh' = on_tlast sh /\ receives sh' = receives sh.
Proof using.
  induction ks as [|k ks IH]; intros sh; [by rewrite app_nil_r|].
  cbn [fmap list_fmap concat]. rewrite dos_app.
  destruct (dos_arm t ch (f k).1 (f k).2 (bd k) sh) as (E1 & E2 & E3 & E4 & E5).
  destruct (IH (dos (bd_calls t (f k).1 (f k).2 (bd k) ++ [push_call t ch DMA_S2MM (bd k)]) sh)) as (F1 & F2 & F3 & F4 & F5).
  rewrite F1, F2, F3, F4, F5, E1, E2, E3, E4, E5, upd_same, <- app_assoc. cbn. by destruct (f k).
Qed.
End idle.

(** ** Buffers *)

(** The live blocks, and the tracked ones among them. *)
Record heap_ok (al : list AllocEntry) (hp : list (Z * Z)) : Prop := {
  ho_tracked : Forall (fun e => (al_vaddr e, al_size e) ∈ hp) al;
  ho_range : Forall (fun b => 0 < b.1 /\ 0 < b.2 /\ b.1 + b.2 < 2 ^ 64) hp }.

(** A block of [n] bytes at [p] that overlaps no live one. *)
Definition fresh (hp : list (Z * Z)) (p n : Z) : Prop :=
  0 < p /\ 0 < n /\ p + n < 2 ^ 64 /\ Forall (fun b => b.1 + b.2 <= p \/ p + n <= b.1) hp.

Lemma heap_ok_push al hp p n : heap_ok al hp -> fresh hp p n -> heap_ok (al ++ [Alloc p p n]) ((p, n) :: hp).
Proof.
  intros [H1 H2] (Hp & Hn & Hend & _). constructor.
  - apply Forall_app. split; [|by repeat constructor]. eapply Forall_impl; [exact H1|]. intros e He. by right.
  - by constructor.
Qed.

Lemma tracked_apart al hp p n e : heap_ok al hp -> fresh hp p n -> e ∈ al ->
  (al_vaddr e + al_size e <= p \/ p + n <= al_vaddr e) /\ 0 < al_vaddr e /\ 0 < al_size e /\ al_vaddr e + al_size e < 2 ^ 64.
Proof.
  intros [H1 H2] (_ & _ & _ & Hf) He. rewrite Forall_forall in H1. specialize (H1 e He).
  rewrite Forall_forall in H2, Hf. specialize (H2 _ H1). specialize (Hf _ H1). cbn in *. tauto.
Qed.

Lemma find_not {A} (P : A -> Prop) `{forall x, Decision (P x)} (l : list A) : (forall x, x ∈ l -> ~ P x) -> list_find P l = None.
Proof. intros HP. apply list_find_None, Forall_forall. exact HP. Qed.

(** The address of a word of a block just allocated, among later ones. *)
Lemma lookup_fresh al hp p n v later :
  heap_ok al hp -> fresh hp p n -> p <= v < p + n ->
  __vaddr_to_mem_offset v ((al ++ [Alloc p p n]) ++ later) = Some (p, v - p).
Proof.
  intros Ho Hf Hv. unfold __vaddr_to_mem_offset. rewrite <- app_assoc.
  rewrite list_find_app_r.
  - cbn [app list_find al_vaddr al_size]. destruct Hf as (Hp & Hn & Hend & _).
    rewrite decide_True by (rewrite u64_small by lia; lia). done.
  - apply find_not. intros e He. destruct (tracked_apart al hp p n e Ho Hf He) as (Ha & ? & ? & ?).
    rewrite u64_small by lia. lia.
Qed.

Lemma remove_last al hp p n : heap_ok al hp -> fresh hp p n -> rt_alloc_map_remove p (al ++ [Alloc p p n]) = al.
Proof.
  intros Ho Hf. unfold rt_alloc_map_remove. rewrite list_find_app_r.
  - cbn [list_find al_vaddr]. rewrite decide_True by done. cbn [fmap option_fmap option_map prod_map fst snd].
    unfold swap_remove. rewrite last_snoc, length_app. cbn [length].
    replace (pred (length al + 1)) with (length al) by lia.
    rewrite Nat.add_0_l, insert_app_r_alt, Nat.sub_diag by lia. cbn. by rewrite take_app_length.
  - apply find_not. intros e He E. destruct (tracked_apart al hp p n e Ho Hf He) as (Ha & ? & ? & ?).
    destruct Hf as (? & ? & ? & _). lia.
Qed.

Lemma heap_filter al hp p n : heap_ok al hp -> fresh hp p n ->
  List.filter (fun b => negb (b.1 =? p)) ((p, n) :: hp) = hp.
Proof.
  intros [_ Hr] (Hp & Hn & _ & Hf). cbn [List.filter fst]. rewrite Z.eqb_refl. cbn [negb].
  clear -Hr Hf Hn. induction hp as [|b hp IH]; [done|].
  apply Forall_cons in Hr as [Hb Hr]. apply Forall_cons in Hf as [Hbf Hf]. cbn [List.filter].
  replace (b.1 =? p) with false by lia. cbn [negb]. f_equal. auto.
Qed.

Section alloc.
Context (pick : list (Z * Z) -> Z -> Z) (schedule : nat -> list (Z * Z)).
Context (targets : (Z -> Z) -> Z -> list (Z * Z)) (home : XAie_LocType * Z) (dev : Z).
Context (M0 : Z * Z -> tile_mem) (wk0 : Z * Z -> list access) (q0 : list rt_dsync_rng) (tr : Z).
Hypothesis idle : forall t, wk0 t = [].
Hypothesis dev_ok : dev <> 0.

Abbreviation xaie := (array_call pick schedule targets home).
Abbreviation mk' := (mk M0 wk0 q0 tr).

Lemma alloc_ok nt al m sh n size p :
  pick (heap sh) size = p -> p <> 0 -> len al < MAX_ALLOC_BUFFERS ->
  exists n', __Runtime_alloc_buffer xaie id dev size (mk' nt al m sh n) =
    (mk' nt (al ++ [Alloc p p size]) m (dos pick [MemAllocate size] sh) n', Ok p).
Proof using idle dev_ok.
  intros Hp Hp0 Hal. exists (S n). unfold __Runtime_alloc_buffer. replace (dev =? 0) with false by lia.
  rewrite (bind_Ok _ _ _ _ _ (mk_dma pick schedule targets home M0 wk0 q0 tr idle (MemAllocate size) nt al m sh n eq_refl)).
  cbn [shim_answer snd]. rewrite Hp. replace (p =? 0) with false by lia.
  erewrite bind_Ok by reflexivity. unfold mk at 1. cbn [allocs]. replace (len al <? MAX_ALLOC_BUFFERS) with true by lia.
  done.
Qed.

(** A buffer is freed: the entry and the block go, whatever the tiles do. *)
Lemma free_ok s p :
  p <> 0 -> exists w' m',
    __Runtime_free_buffer xaie dev p s = (Send (net s) (rt_alloc_map_remove p (allocs s)) (queue s) (txn_row s) m' w', Ok tt) /\
    array_call pick schedule targets home (MemFreeVAddr p) (mmio (net s)) (words s) (world s) = (m', w', (XAIE_OK, 0)) /\
    heap (shim w') = List.filter (fun b => negb (b.1 =? p)) (heap (shim (world s))).
Proof using dev_ok.
  intros Hp. destruct (array_call pick schedule targets home (MemFreeVAddr p) (mmio (net s)) (words s) (world s)) as [[m' w'] r] eqn:E.
  exists w', m'. assert (r = (XAIE_OK, 0) /\ heap (shim w') = List.filter (fun b => negb (b.1 =? p)) (heap (shim (world s)))) as [-> Eh].
  { unfold array_call, tick in E. pose proof (moves_shim home (schedule (clock (world s))) (world s) (words s)) as (H1 & _).
    destruct (foldl (move home) _ _) as [w1 m1]. cbn in H1. injection E as <- <- <-. cbn. by rewrite H1. }
  split; [|done]. unfold __Runtime_free_buffer. replace (p =? 0) with false by lia. replace (dev =? 0) with false by lia.
  erewrite bind_Ok by reflexivity. unfold dma_ig. erewrite bind_Ok; [|unfold dma; cbn [set_allocs net words world]; rewrite E; reflexivity].
  done.
Qed.
End alloc.

Lemma on_fail_Ok {W A} (m : stE (send W) fault A) c s s' a : m s = (s', Ok a) -> on_fail m c s = (s', Ok a).
Proof. intros H. unfold on_fail. by rewrite H. Qed.

(** ** A request and its answers *)

Section exchange.
Context (pick : list (Z * Z) -> Z -> Z) (schedule : nat -> list (Z * Z)).
Context (targets : (Z -> Z) -> Z -> list (Z * Z)) (dev : Z).
Context (effect : backend_op -> (Z -> Z) -> Z -> Z) (answer_ : backend_op -> (Z -> Z) -> Z * Z).
Context (prog : strm_call -> driver_call) (tile_addr : Z -> Z -> Z) (XAIE_INVALID_ARGS : Z) (aie2ps : bool).
Context (MemTileRowStart MemTileNumRows : Z) (nc : list nc_block).
Context (M0 : Z * Z -> tile_mem) (wk0 : Z * Z -> list access) (q0 : list rt_dsync_rng) (tr : Z).
Hypothesis idle : forall t, wk0 t = [].
Hypothesis dev_ok : dev <> 0.

(** The request goes from the shim of column [col], on channel [mm2s_ch], to
    the tiles [T]; the answers come back on [s2mm_ch], for which [queue_at]
    is queued as they land. *)
Context (tl : bool) (queue_at : nat -> list (Z * Z)).
Context (col s2mm_ch mm2s_ch sid bd_id : Z) (T : list (Z * Z)) (pre : list access) (a : access) (tok pp pkt : Z).
Context (nt nt' : RowFabric.state) (al : list AllocEntry).

Abbreviation home := (Loc 0 col, u8 s2mm_ch).
Abbreviation xaie := (array_call pick schedule targets home).
Abbreviation mk' := (mk M0 wk0 q0 tr).
Abbreviation does' := (does pick M0 wk0 q0 tr).
Abbreviation dos' := (dos pick).
Abbreviation slots' := (slots T tok pp).
Abbreviation state_ := (send array).

Record request_ok : Prop := {
  ro_tiles : NoDup T;
  ro_silent : Forall (fun b => returns b = false) pre;
  ro_answered : returns a = true;
  ro_len : pp = 1 + (if a_op a =? OP_READ then a_beats a else 0);
  ro_beats : 0 <= a_beats a <= 4;
  ro_targets : targets (mmio nt') sid = T;
  ro_sid : Forall (fun b => a_sid b = sid) (pre ++ [a]);
  ro_accs : Forall access_ok (pre ++ [a]);
  ro_col : f_shim_col (fab nt') = col;
  ro_queues : queues tl queue_at T tok pp;
  ro_pkt : exists b, __vaddr_to_mem_offset pkt al = Some (b, pkt - b) /\ 0 <= pkt < 2 ^ 64 }.

(** What arming a descriptor for each answer needs. *)
Record return_ok : Prop := {
  rt_route : rt_ctrl_row_shim_return_route effect answer_ prog tile_addr aie2ps s2mm_ch nt = (nt', Ok tt);
  rt_bd : 0 <= bd_id /\ bd_id + 1 + len T <= 16;
  rt_tok : exists b, __vaddr_to_mem_offset tok al = Some (b, tok - b) /\ 0 <= tok - b;
  rt_tok_range : 0 < tok /\ tok + 4 * (len T * pp) < 2 ^ 64 }.

Lemma does_dev_addr ptr b : __vaddr_to_mem_offset ptr al = Some (b, ptr - b) -> 0 <= ptr < 2 ^ 64 ->
  does' al (dev_addr_of id ptr) [] ptr.
Proof using.
  intros E Hr ns ms sh n. exists n. unfold dev_addr_of. erewrite bind_Ok by reflexivity. cbn [mk allocs]. rewrite E.
  unfold id. replace (b + (ptr - b)) with ptr by lia. by rewrite u64_small by lia.
Qed.

Lemma arm_ok (m : Z -> Z) sh n :
  request_ok -> return_ok -> s2mm sh home = [] ->
  exists n' sh', rt_ctrl_row_shim_return xaie id effect answer_ prog tile_addr XAIE_INVALID_ARGS aie2ps
      s2mm_ch (bd_id + 1) (len T) pp tok (mk' nt al m sh n) = (mk' nt' al m sh' n', Ok tt) /\
    s2mm sh' home = slots' /\ on_tlast sh' home = true /\ receives sh' home = true /\ heap sh' = heap sh /\ mm2s sh' = mm2s sh.
Proof using idle.
  intros R [rt_route0 rt_bd0 rt_tok0 rt_tok_range0] Hq. destruct R. destruct rt_tok0 as (b & Eb & Hb).
  assert (0 < pp <= 5) as Hpp by (rewrite ro_len0; case_match; lia).
  unfold rt_ctrl_row_shim_return. erewrite bind_Ok by (unfold net_op; cbn [mk net]; rewrite rt_route0; reflexivity).
  erewrite bind_Ok by reflexivity. cbn [mk set_net net]. rewrite ro_col0. pose proof (len_nonneg T).
  set (plan := fun k => bd_calls (Loc 0 col) (slot tok pp k).1 (slot tok pp k).2 (bd_id + 1 + k) ++
                        [push_call (Loc 0 col) s2mm_ch DMA_S2MM (bd_id + 1 + k)]).
  assert (does' al (dev_addr_of id tok ≫= fun base_addr =>
      let len_ := pp *u32 4 in
      num_bds ← out_value xaie (DmaGetNumBds (Loc 0 col)) 16;
      if (bd_id + 1 <? 0) || (num_bds <? bd_id + 1 + len T) then fail XAIE_INVALID_ARGS
      else
        finish_on_tlast xaie (Loc 0 col) s2mm_ch ;;
        forM (range 0 (len T)) (fun k =>
          write_bd xaie (Loc 0 col) (base_addr +u64 u64 (k * len_)) len_ (bd_id + 1 + k) ;;
          push_bd xaie (Loc 0 col) s2mm_ch DMA_S2MM (bd_id + 1 + k)) ;;
        dma_ok xaie (DmaChannelEnable (Loc 0 col) (u8 s2mm_ch) DMA_S2MM))
      ([] ++ [DmaGetNumBds (Loc 0 col)] ++ fot_calls (Loc 0 col) s2mm_ch ++ concat (plan <$> range 0 (len T)) ++
       [DmaChannelEnable (Loc 0 col) (u8 s2mm_ch) DMA_S2MM]) tt) as D.
  { apply (does_bind pick M0 wk0 q0 tr al _ _ _ _ tok); [apply (does_dev_addr _ b); [done|lia]|]. cbv zeta.
    apply (does_bind pick M0 wk0 q0 tr al _ _ _ _ 16); [by apply does_num_bds|].
    replace ((bd_id + 1 <? 0) || (16 <? bd_id + 1 + len T)) with false by lia.
    eapply does_bind; [by apply does_fot|]. eapply does_bind; [|by apply does_ok].
    apply does_forM. intros k Hk%elem_of_seqZ. unfold plan, slot. cbn [fst snd].
    rewrite (u32_small (pp * 4)) by lia. rewrite (u64_small (k * (pp * 4))), u64_small by nia.
    replace (tok + k * (pp * 4)) with (tok + 4 * (k * pp)) by lia. replace (pp * 4) with (4 * pp) by lia.
    eapply does_bind; [by apply does_write_bd|by apply does_push_bd]. }
  specialize (D nt' m sh n) as (n' & E). eexists n', _. split; [exact E|]. clear E.
  rewrite app_nil_l, !dos_app. set (sh1 := dos' (fot_calls _ _) _).
  destruct (dos_arms pick (Loc 0 col) s2mm_ch (slot tok pp) (fun k => bd_id + 1 + k) (range 0 (len T)) sh1) as (F1 & F2 & F3 & F4 & F5).
  fold plan in F1, F2, F3, F4, F5. set (sh2 := dos' (concat _) sh1) in *.
  cbn. rewrite upd_same, F1, F2, F3, F4. subst sh1. cbn. rewrite upd_same. rewrite Hq. done.
Qed.

Abbreviation accs := (pre ++ [a]).
Abbreviation packets := (concat (map access_words accs)).
Abbreviation going' := (going home tl queue_at T pre a tok pp M0).

(** The tiles receive the packets. *)
Lemma deliver_packets (m : Z -> Z) wk t :
  request_ok -> load_words m pkt (len packets) = packets ->
  deliver targets (mmio nt') m wk (pkt, len packets * 4) t = wk t ++ (if bool_decide (t ∈ T) then accs else []).
Proof using.
  intros R Hm. destruct R. unfold deliver. cbn [fst snd]. rewrite Z.div_mul, Hm by lia.
  assert (decode_stream (S (length packets)) packets = Some accs) as ->.
  { assert (forall l, Forall access_ok l -> forall k, (length l <= k)%nat ->
      decode_stream (S k) (concat (map access_words l)) = Some l) as Hd.
    { clear. induction 1 as [|b l Hb Hl IH]; intros k Hk; [done|]. cbn in Hk. destruct k as [|k]; [lia|].
      cbn [map concat]. apply access_words_decode; [done|]. apply IH. lia. }
    apply Hd; [done|]. clear. generalize accs as l. induction l as [|b l IH]; [done|].
    cbn [map concat length]. rewrite length_app. change (length (access_words b)) with (S (S (length (a_data b)))). lia. }
  cbn [default]. f_equal. apply filter_const. eapply Forall_impl; [exact ro_sid0|]. intros b Hb. cbn. by rewrite Hb, ro_targets0.
Qed.

Lemma push_ok (m : Z -> Z) sh n inst cl :
  request_ok -> load_words m pkt (len packets) = packets -> len packets * 4 < 2 ^ 32 ->
  s2mm sh home = queue_at 0 -> on_tlast sh home = tl -> receives sh home = true -> mm2s sh (Loc 0 col, u8 mm2s_ch) = [] ->
  i_shim_col inst = col -> i_bd_id inst = bd_id -> i_mm2s_ch inst = mm2s_ch ->
  exists w, on_fail (__Runtime_ctrl_push xaie id dev MemTileRowStart MemTileNumRows inst pkt (len packets) false false) cl
      (mk' nt' al m sh n) = (Send nt' al q0 tr m w, Ok tt) /\
    going' m schedule (clock w) w m [] /\ heap (shim w) = heap sh.
Proof using idle.
  intros R Hm Hlen Hq Ht Hr Hmm Hc Hb Hch. pose proof R as R'. destruct R'. destruct ro_pkt0 as (b & Eb & Hbr).
  pose proof (len_nonneg packets) as Hp0.
  assert (does' al (dev_addr ← dev_addr_of id pkt; write_bd xaie (Loc 0 col) dev_addr (len packets *u32 4) bd_id ;;
            push_bd xaie (Loc 0 col) mm2s_ch DMA_MM2S bd_id)
      ([] ++ bd_calls (Loc 0 col) pkt (len packets * 4) bd_id ++ [push_call (Loc 0 col) mm2s_ch DMA_MM2S bd_id]) tt) as D.
  { apply (does_bind pick M0 wk0 q0 tr al _ _ _ _ pkt); [by apply (does_dev_addr _ b)|].
    rewrite u32_small by lia. eapply does_bind; [by apply does_write_bd|by apply does_push_bd]. }
  destruct (D nt' m sh n) as (n' & E). clear D.
  set (sh1 := dos' _ sh) in E.
  assert (mm2s sh1 (Loc 0 col, u8 mm2s_ch) = [(pkt, len packets * 4)] /\ s2mm sh1 = s2mm sh /\ on_tlast sh1 = on_tlast sh /\
    receives sh1 = receives sh /\ heap sh1 = heap sh) as (E1 & E2 & E3 & E4 & E5).
  { subst sh1. unfold dos, bd_calls, push_call. cbn. rewrite !upd_same, Hmm. done. }
  clearbody sh1.
  set (sh2 := shim_call pick (DmaChannelEnable (Loc 0 col) (u8 mm2s_ch) DMA_MM2S) sh1).
  set (w := Array sh2 M0 (deliver targets (mmio nt') m wk0 (pkt, len packets * 4)) (S n')).
  exists w. split; [|split].
  - apply on_fail_Ok. unfold __Runtime_ctrl_push. rewrite Hc, Hb, Hch.
    assert (dma_ok xaie (DmaChannelEnable (Loc 0 col) (u8 mm2s_ch) DMA_MM2S) (mk' nt' al m sh1 n') = (Send nt' al q0 tr m w, Ok tt)) as Ee.
    { unfold dma_ok. rewrite (bind_Ok _ _ _ (Send nt' al q0 tr m w) (XAIE_OK, 0)); [reflexivity|]. unfold dma, mk, array_call. cbn [net words world].
      rewrite idle_tick by done. cbn [shim mem_of work clock]. by rewrite E1. }
    revert E. unfold mbind, stE_bind. destruct (dev_addr_of id pkt _) as [s0 [ad|?]]; [|discriminate].
    destruct (write_bd _ _ _ _ _ s0) as [s1 [[]|?]]; [|discriminate]. intros ->. by rewrite Ee.
  - split; [|lia]. unfold past_since. rewrite Nat.sub_diag. cbn [seq fmap list_fmap concat].
    apply gathered_start; cbn [w sh2 shim work mem_of shim_call s2mm on_tlast receives]; rewrite ?E2, ?E3, ?E4; try done.
    + intros t HT. rewrite deliver_packets by done. by rewrite idle, bool_decide_true.
    + intros t HT. rewrite deliver_packets by done. by rewrite idle, bool_decide_false.
  - cbn. done.
Qed.

(** ** While the tiles work *)

(** Operations that leave the queues alone, from a state whose answers are
    gathered since [n0]: what is kept of the state, and that time passes. *)
Definition kept (s s' : state_) : Prop :=
  net s' = net s /\ allocs s' = allocs s /\ txn_row s' = txn_row s /\ heap (shim (world s')) = heap (shim (world s)) /\
  (clock (world s) <= clock (world s'))%nat /\
  (s2mm (shim (world s)) home = [] -> s2mm (shim (world s')) home = []).

Lemma send_kept_refl s : kept s s.
Proof using. by repeat split. Qed.
Lemma send_kept_trans s1 s2 s3 : kept s1 s2 -> kept s2 s3 -> kept s1 s3.
Proof using.
  intros (A1 & A2 & A3 & A4 & A5 & A6) (B1 & B2 & B3 & B4 & B5 & B6). split_and!; try (by etransitivity); auto.
Qed.

Definition live (m0 : Z -> Z) (n0 : nat) (s : state_) : Prop := exists order, going' m0 schedule n0 (world s) (words s) order.

Lemma live_dma c m0 n0 s :
  request_ok -> quiet c = true -> (forall p, c <> MemFreeVAddr p) -> live m0 n0 s ->
  exists s', dma xaie c s = (s', Ok (XAIE_OK, shim_answer pick c (shim (world s')))) /\ queue s' = queue s /\
    kept s s' /\ (S (clock (world s)) <= clock (world s'))%nat /\ live m0 n0 s'.
Proof using.
  intros R Hq Hf (order & G). destruct R.
  destruct (quiet_call home tl queue_at T pre a tok pp M0 m0 ro_queues0 ro_tiles0 ro_silent0 ro_answered0 ro_len0 ltac:(lia)
    pick schedule targets c (mmio (net s)) (words s) (world s) order n0 Hq G) as (w' & m' & order' & E & G' & Hh & Hc & Hd).
  exists (Send (net s) (allocs s) (queue s) (txn_row s) m' w'). unfold dma. rewrite E.
  split; [done|]. split; [done|]. split; [split_and!; try done; cbn [world]|split; [cbn; lia|by exists order']].
  - rewrite Hh. destruct c; try discriminate; try done. by destruct (Hf ptr).
  - lia.
Qed.

Lemma live_mem_calls (cs : list mem_call) m0 n0 : forall s,
  request_ok -> live m0 n0 s ->
  exists s', forM cs (fun c => dma_ig xaie (MemCall c)) s = (s', Ok tt) /\ queue s' = queue s /\ kept s s' /\ live m0 n0 s'.
Proof using.
  induction cs as [|c cs IH]; intros s R L; [exists s; by split_and!; auto using send_kept_refl|].
  destruct (live_dma (MemCall c) m0 n0 s R eq_refl ltac:(done) L) as (s1 & E1 & Hq1 & K1 & _ & L1).
  destruct (IH s1 R L1) as (s2 & E2 & Hq2 & K2 & L2). exists s2. split_and!; [|congruence|by eapply send_kept_trans|done].
  cbn [forM]. rewrite (bind_Ok _ _ _ s1 tt); [exact E2|]. unfold dma_ig. by rewrite (bind_Ok _ _ _ _ _ E1).
Qed.

Lemma live_sync_for_cpu ptr size m0 n0 s :
  request_ok -> live m0 n0 s -> exists s', sync_for_cpu xaie dev ptr size s = (s', Ok tt) /\ kept s s' /\ live m0 n0 s'.
Proof using.
  intros R L. destruct (live_mem_calls (__Runtime_sync_for_cpu dev ptr size) m0 n0 s R L) as (s' & E & _ & K & L').
  by exists s'.
Qed.

Lemma live_dsync m0 n0 s :
  request_ok -> live m0 n0 s -> exists s', dsync_step_inputs xaie s = (s', Ok tt) /\ kept s s' /\ live m0 n0 s'.
Proof using.
  intros R L. unfold dsync_step_inputs. erewrite bind_Ok by reflexivity. destruct (rt_dsync_step_inputs (queue s)) as [q cs].
  erewrite bind_Ok by reflexivity.
  destruct (live_mem_calls cs m0 n0 (set_queue q s) R) as (s' & E & _ & K & L'); [exact L|].
  exists s'. split; [exact E|]. split; [exact K|done].
Qed.

(** One iteration of the poll: nothing pending ends it. *)
Definition poll_body (pending : Z) : stE state_ fault (Z + bool) :=
  dsync_step_inputs xaie ;;
  r ← dma xaie (DmaGetPendingBdCount (Loc 0 col) (u8 s2mm_ch) DMA_S2MM);
  mret (if negb (r.1 =? XAIE_OK) then inr false else if r.2 =? 0 then inr true else inl r.2).

Lemma live_poll_body pending m0 n0 s :
  request_ok -> live m0 n0 s ->
  exists s' r, poll_body pending s = (s', Ok r) /\ kept s s' /\ (S (clock (world s)) <= clock (world s'))%nat /\ live m0 n0 s' /\
    r = if bool_decide (s2mm (shim (world s')) home = []) then inr true else inl (len (s2mm (shim (world s')) home)).
Proof using.
  intros R L. destruct (live_dsync m0 n0 s R L) as (s1 & E1 & K1 & L1).
  destruct (live_dma (DmaGetPendingBdCount (Loc 0 col) (u8 s2mm_ch) DMA_S2MM) m0 n0 s1 R eq_refl ltac:(done) L1)
    as (s2 & E2 & _ & K2 & Hc & L2).
  exists s2. eexists. unfold poll_body. rewrite (bind_Ok _ _ _ _ _ E1), (bind_Ok _ _ _ _ _ E2).
  split; [reflexivity|]. split; [by eapply send_kept_trans|]. split; [destruct K1 as (_ & _ & _ & _ & ? & _); lia|]. split; [done|].
  cbn [fst snd shim_answer]. replace (negb (XAIE_OK =? XAIE_OK)) with false by done.
  destruct L2 as (order & G & _). by rewrite (gathered_pending _ _ _ _ _ _ _ _ _ _ _ _ _ _ G).
Qed.

Lemma live_poll n m0 n0 : forall pending s,
  request_ok -> live m0 n0 s ->
  exists s' r, poll n poll_body pending s = (s', Ok r) /\ kept s s' /\ live m0 n0 s' /\
    ((r = inr true /\ s2mm (shim (world s')) home = []) \/
     (exists p, r = inl p /\ (n <> 0%nat -> p <> 0 /\ s2mm (shim (world s')) home <> []) /\ (clock (world s) + n <= clock (world s'))%nat)).
Proof using.
  induction n as [|n IH]; intros pending s R L.
  { exists s, (inl pending). split; [done|]. split; [apply send_kept_refl|]. split; [done|]. right. exists pending. split; [done|]. split; [done|lia]. }
  destruct (live_poll_body pending m0 n0 s R L) as (s1 & r & E1 & K1 & Hc1 & L1 & Hr). cbn [poll].
  rewrite (bind_Ok _ _ _ _ _ E1). case_bool_decide as Hq; subst r.
  { exists s1, (inr true). split_and!; auto. }
  destruct (IH (len (s2mm (shim (world s1)) home)) s1 R L1) as (s2 & r & E2 & K2 & L2 & Hr).
  exists s2, r. split; [exact E2|]. split; [by eapply send_kept_trans|]. split; [done|].
  destruct Hr as [Hr|(p & -> & Hp & Hc2)]; [by left|]. right. exists p. split; [done|]. split; [|lia]. intros _.
  destruct n as [|n]; [|by apply Hp]. cbn [poll] in E2. injection E2 as <- <-. split; [|done].
  destruct (s2mm (shim (world s1)) home) as [|b q]; [done|]. rewrite len_cons. pose proof (len_nonneg q). lia.
Qed.

(** In any 200000 consecutive moments every tile moves often enough to do its
    accesses. *)
Definition keep_moving : Prop := forall n t, t ∈ T ->
  (length accs <= moves_of t (concat (schedule <$> seq n (Z.to_nat 200000))))%nat.

Lemma moves_of_segment n0 c1 c2 k t : (n0 <= c1)%nat -> (c1 + k <= c2)%nat ->
  (moves_of t (concat (schedule <$> seq c1 k)) <= moves_of t (past_since schedule n0 c2))%nat.
Proof using.
  intros H1 H2. unfold past_since. replace (c2 - n0)%nat with ((c1 - n0) + (k + (c2 - c1 - k)))%nat by lia.
  rewrite !seq_app, !fmap_app, !concat_app, !moves_of_app. replace (n0 + (c1 - n0))%nat with c1 by lia. lia.
Qed.

Lemma live_return_poll npkt pw m0 n0 s :
  request_ok -> live m0 n0 s -> f_shim_col (fab (net s)) = col ->
  exists s' p, rt_ctrl_row_return_poll xaie dev s2mm_ch npkt pw tok s = (s', Ok p) /\ kept s s' /\ live m0 n0 s' /\
    (p = 0 -> s2mm (shim (world s')) home = []) /\ (keep_moving -> p = 0).
Proof using.
  intros R L Hc. unfold rt_ctrl_row_return_poll. erewrite bind_Ok by reflexivity. rewrite Hc. fold poll_body.
  destruct (live_poll (Z.to_nat 200000) m0 n0 (u8 npkt) s R L) as (s1 & r & E1 & K1 & L1 & Hr).
  rewrite (bind_Ok _ _ _ _ _ E1).
  destruct (live_sync_for_cpu tok (npkt * pw * 4) m0 n0 s1 R L1) as (s2 & E2 & K2 & L2).
  destruct Hr as [(-> & Hd)|(p & -> & Hp & Hk)].
  - exists s2, 0. rewrite (bind_Ok _ _ _ _ _ E2). split; [done|]. split; [by eapply send_kept_trans|]. split; [done|].
    split; [|done]. intros _. by apply K2.
  - exists s2, p. rewrite (bind_Ok _ _ _ _ _ E2). destruct (Hp ltac:(lia)) as [Hp0 Hne].
    split; [done|]. split; [by eapply send_kept_trans|]. split; [done|]. split; [done|]. intros Hm. destruct Hne.
    destruct L1 as (order & G & Hn). destruct L as (order0 & _ & Hn0). destruct R.
    eapply (gathered_fair home tl queue_at T pre a tok pp M0 m0 ro_queues0 ro_tiles0 _ _ _ _ G). intros t Ht.
    etransitivity; [by apply (Hm (clock (world s)))|]. by apply moves_of_segment.
Qed.

(** A buffer is freed while the tiles may still work. *)
Lemma live_free p m0 n0 s :
  request_ok -> live m0 n0 s -> p <> 0 ->
  exists s', __Runtime_free_buffer xaie dev p s = (s', Ok tt) /\ live m0 n0 s' /\ net s' = net s /\
    allocs s' = rt_alloc_map_remove p (allocs s) /\
    heap (shim (world s')) = List.filter (fun b => negb (b.1 =? p)) (heap (shim (world s))) /\
    (s2mm (shim (world s)) home = [] -> s2mm (shim (world s')) home = []).
Proof using dev_ok.
  intros R (order & G) Hp. destruct (free_ok pick schedule targets home dev dev_ok s p Hp) as (w' & m' & E & Ea & Eh).
  destruct R. destruct (quiet_call home tl queue_at T pre a tok pp M0 m0 ro_queues0 ro_tiles0 ro_silent0 ro_answered0 ro_len0 ltac:(lia)
    pick schedule targets (MemFreeVAddr p) (mmio (net s)) (words s) (world s) order n0 eq_refl G)
    as (w1 & m1 & order' & E1 & G' & _ & _ & Hd).
  rewrite Ea in E1. injection E1 as <- <-. eexists. split; [exact E|]. split; [by exists order'|]. by split_and!.
Qed.

(** The words that have landed, once nothing is queued. *)
Lemma live_landed m0 n0 s :
  request_ok -> live m0 n0 s -> s2mm (shim (world s)) home = [] ->
  exists order, order ≡ₚ T /\
    (fun k => load_words (words s) (tok + 4 * (k * pp)) pp) <$> range 0 (len T) = answer_of pre a M0 <$> order.
Proof using.
  intros R (order & G & _) Hd. exists order. pose proof (gathered_all _ _ _ _ _ _ _ _ _ _ (ro_queues R) _ _ _ _ G Hd) as Hp. split; [done|].
  apply list_eq. intros i. rewrite !list_lookup_fmap. unfold range. rewrite Z.sub_0_r.
  assert (len T = Z.of_nat (length order)) as El by (unfold len; by rewrite Hp).
  rewrite El. destruct (decide (i < length order)%nat) as [Hi|Hi].
  - rewrite lookup_seqZ_lt by lia. cbn. destruct (lookup_lt_is_Some_2 order i Hi) as [t Et]. rewrite Et. cbn.
    rewrite Z.add_0_l. f_equal. by apply (g_landed _ _ _ _ _ _ _ _ _ _ _ _ _ _ G).
  - rewrite lookup_seqZ_ge by lia. cbn. by rewrite lookup_ge_None_2 by lia.
Qed.

(** What the tiles have done, once nothing is queued. *)
Lemma live_tiles m0 n0 s t :
  request_ok -> live m0 n0 s -> s2mm (shim (world s)) home = [] ->
  mem_of (world s) t = if bool_decide (t ∈ T) then run_accesses (M0 t) accs else M0 t.
Proof using.
  intros R (order & G & _) Hd. case_bool_decide as Ht.
  - by apply (gathered_done _ _ _ _ _ _ _ _ _ _ (ro_queues R) _ _ _ _ _ G Hd).
  - by apply (g_other _ _ _ _ _ _ _ _ _ _ _ _ _ _ G).
Qed.

(** Arming, sending and polling, with [inst] for the send and [cl] what
    failures would free. *)
Lemma exchange_ok (m : Z -> Z) sh n inst cl :
  request_ok -> return_ok -> tl = true -> queue_at 0%nat = slots' ->
  load_words m pkt (len packets) = packets -> len packets * 4 < 2 ^ 32 ->
  s2mm sh home = [] -> mm2s sh (Loc 0 col, u8 mm2s_ch) = [] ->
  i_shim_col inst = col -> i_bd_id inst = bd_id -> i_mm2s_ch inst = mm2s_ch ->
  exists s1 s2 s3 p n0,
    on_fail (rt_ctrl_row_shim_return xaie id effect answer_ prog tile_addr XAIE_INVALID_ARGS aie2ps
      s2mm_ch (bd_id + 1) (len T) pp tok) cl (mk' nt al m sh n) = (s1, Ok tt) /\
    on_fail (__Runtime_ctrl_push xaie id dev MemTileRowStart MemTileNumRows inst pkt (len packets) false false) cl s1 = (s2, Ok tt) /\
    rt_ctrl_row_return_poll xaie dev s2mm_ch (len T) pp tok s2 = (s3, Ok p) /\
    net s3 = nt' /\ allocs s3 = al /\ txn_row s3 = tr /\ heap (shim (world s3)) = heap sh /\ live m n0 s3 /\
    (p = 0 -> s2mm (shim (world s3)) home = []) /\ (keep_moving -> p = 0).
Proof using idle dev_ok.
  intros R RO Htl Hq0 Hm Hlen Hq Hmm Hc Hb Hch.
  destruct (arm_ok m sh n R RO Hq) as (n1 & sh1 & E1 & A1 & A2 & A3 & A4 & A5).
  destruct (push_ok m sh1 n1 inst cl R Hm Hlen ltac:(by rewrite A1, Hq0) ltac:(by rewrite A2, Htl) A3 ltac:(by rewrite A5) Hc Hb Hch) as (w & E2 & G & Hh).
  destruct (live_return_poll (len T) pp m (clock w) (Send nt' al q0 tr m w) R) as (s3 & p & E3 & K & L & Hd & Hp);
    [by exists []|apply R|].
  eexists _, _, s3, p, (clock w). split; [by apply on_fail_Ok|]. split; [exact E2|]. split; [exact E3|].
  destruct K as (K1 & K2 & K3 & K4 & _). cbn in K1, K2, K3, K4. split_and!; try done. by rewrite K4, Hh.
Qed.
End exchange.

(** ** Placing the answers *)

Lemma response_src_col ret (t : Z * Z) :
  0 <= t.1 < 128 -> 0 <= t.2 < 32 -> pf_src_col (Runtime_ctrl_parse_pkt_hdr (response_hdr ret t)) = t.1.
Proof.
  intros Hc Hr. unfold response_hdr, Runtime_ctrl_parse_pkt_hdr. cbn [pf_src_col].
  pose proof (sid_land_range ret). revert H. generalize (ret & 0x1F) as h. intros h Hh.
  pose proof (cpe_parity_range (h + t.2 * 2 ^ 16 + t.1 * 2 ^ 21)) as Hp.
  revert Hp. generalize (cpe_parity (h + t.2 * 2 ^ 16 + t.1 * 2 ^ 21)) as p. intros p Hp.
  rewrite Z.shiftr_div_pow2 by lia. change 0x7F with (2 ^ 7 - 1). rewrite land_low by lia.
  Z.div_mod_to_equations. lia.
Qed.

(** An answer of a single access is its header and the words. *)
Lemma extract_single ta nw h vals out :
  rt_ctrl_chunk_words ta nw 0 = nw -> 0 < nw <= 4 -> len vals = nw -> len out = nw ->
  rt_ctrl_read_extract (h :: vals) ta nw out = Some vals.
Proof.
  intros Hc Hn Hv Ho. unfold rt_ctrl_read_extract. replace (Z.to_nat nw) with (S (Z.to_nat (nw - 1))) by lia.
  cbn [rt_ctrl_read_extract_loop]. replace (0 <? nw) with true by lia. rewrite Hc.
  replace (0 +u32 nw <? nw) with false by (rewrite u32_small by lia; lia). f_equal.
  transitivity (copy_words out 0 0 (Some (h :: vals)) (0 +u32 1) nw); [reflexivity|].
  rewrite (u32_small (0 + 1)), Z.add_0_l by lia.
  rewrite copy_words_blit by (rewrite ?len_cons; lia). rewrite Z.add_0_l.
  assert (slice (h :: vals) 1 nw = vals) as ->.
  { unfold slice. change (Z.to_nat 1) with 1%nat. cbn. apply take_ge. unfold len in Hv. lia. }
  apply blit_full. unfold len in *. lia.
Qed.

(** An array by its parts of equal length. *)
Lemma slices_concat (f : Z -> list Z) (nw : Z) : forall n out, 0 <= nw ->
  len out = Z.of_nat n * nw -> (forall c, 0 <= c < Z.of_nat n -> len (f c) = nw /\ slice out (c * nw) nw = f c) ->
  out = concat (f <$> seqZ 0 (Z.of_nat n)).
Proof.
  induction n as [|n IH]; intros out Hnw Hl Hs.
  { unfold len in Hl. destruct out; [done|]. cbn in Hl. lia. }
  rewrite Nat2Z.inj_succ, <- Z.add_1_r, seqZ_app by lia. rewrite fmap_app, concat_app.
  rewrite Z.add_0_l, (seqZ_cons (Z.of_nat n)) by lia. cbn [fmap list_fmap concat].
  change (seqZ _ _) with (@nil Z) at 2. cbn [fmap list_fmap concat]. rewrite app_nil_r.
  destruct (Hs (Z.of_nat n)) as [Lf Ef]; [lia|]. rewrite <- Ef.
  rewrite <- (take_drop (Z.to_nat (Z.of_nat n * nw)) out) at 1. f_equal.
  - apply IH; [done| |].
    + unfold len in *. rewrite length_take. lia.
    + intros c Hc. destruct (Hs c) as [L E]; [lia|]. split; [done|]. rewrite <- E. unfold slice.
      apply list_eq. intros i. destruct (decide (i < Z.to_nat nw)%nat).
      * rewrite !lookup_take_lt by lia. rewrite !lookup_drop, lookup_take_lt by nia. done.
      * rewrite !lookup_ge_None_2; [done| |]; rewrite length_take; lia.
  - unfold slice. rewrite take_ge; [done|]. unfold len in *. rewrite length_drop. lia.
Qed.

Lemma slice_blit_ne (out : list Z) o xs p n :
  0 <= o -> 0 <= p -> p + n <= o \/ o + len xs <= p -> slice (blit out o xs) p n = slice out p n.
Proof.
  intros Ho Hp H. apply list_eq. intros i. unfold slice. destruct (decide (i < Z.to_nat n)%nat) as [Hi|Hi].
  - rewrite !lookup_take_lt, !lookup_drop by done.
    replace (Z.to_nat p + i)%nat with (Z.to_nat (p + Z.of_nat i)) by lia. apply blit_outside; lia.
  - rewrite !lookup_ge_None_2; [done| |]; rewrite length_take; lia.
Qed.

Section placing.
Context (lo hi row ta nw : Z) (M0 : Z * Z -> tile_mem) (ret : Z) (sid : Z).
Hypothesis cols : 0 <= lo /\ lo <= hi /\ hi < 128.
Hypothesis row_ok : 0 <= row < 32.
Hypothesis single : rt_ctrl_chunk_words ta nw 0 = nw.
Hypothesis nw_ok : 0 < nw <= 4.

Definition row_tiles : list (Z * Z) := (fun c => (c, row)) <$> range lo (hi + 1).
Definition read_acc : access := Acc sid ta OP_READ ret nw [].

Lemma row_tiles_nodup : NoDup row_tiles.
Proof using. unfold row_tiles. apply NoDup_fmap; [by intros ?? [= ->]|]. apply NoDup_seqZ. Qed.

Lemma len_row_tiles : len row_tiles = hi - lo + 1.
Proof using cols. unfold row_tiles, range, len. rewrite length_fmap, length_seqZ. lia. Qed.

Lemma elem_row_tiles t : t ∈ row_tiles <-> t.2 = row /\ lo <= t.1 <= hi.
Proof using.
  unfold row_tiles, range. rewrite list_elem_of_fmap. setoid_rewrite elem_of_seqZ. destruct t as [c r]. cbn. split.
  - intros (c' & [= -> ->] & ?). lia.
  - intros [-> ?]. exists c. split; [done|lia].
Qed.

(** Placing one answer. *)
Lemma place_answer t out :
  t ∈ row_tiles -> len out = (hi - lo + 1) * nw ->
  place_packet lo (hi - lo + 1) ta nw out (answer_of [] read_acc M0 t) = blit out ((t.1 - lo) * nw) (load_words (M0 t) ta nw).
Proof using cols row_ok single nw_ok.
  intros [Hr Hc]%elem_row_tiles Hl. unfold place_packet, answer_of, response, read_acc. cbn [a_ret a_op a_addr a_beats].
  rewrite Z.eqb_refl. change (rd (?h :: _) 0) with h. rewrite response_src_col by lia.
  replace ((0 <=? t.1 - lo) && (t.1 - lo <? hi - lo + 1)) with true by lia.
  rewrite (extract_single ta nw); [done|done|lia|by apply len_load_words; lia|]. apply len_slice; nia.
Qed.

(** Placing the answers of some tiles. *)
Lemma place_answers order : forall out,
  order ⊆ row_tiles -> NoDup order -> len out = (hi - lo + 1) * nw ->
  let out' := foldl (place_packet lo (hi - lo + 1) ta nw) out (answer_of [] read_acc M0 <$> order) in
  len out' = len out /\
  forall c, 0 <= c <= hi - lo ->
    slice out' (c * nw) nw = if bool_decide ((c + lo, row) ∈ order) then load_words (M0 (c + lo, row)) ta nw else slice out (c * nw) nw.
Proof using cols row_ok single nw_ok.
  induction order as [|t order IH]; intros out Hs Hn Hl; [done|]. cbn [fmap list_fmap foldl].
  apply NoDup_cons in Hn as [Hnt Hn]. assert (t ∈ row_tiles) as Ht by (apply Hs; left).
  rewrite place_answer by done. apply elem_row_tiles in Ht as [Hr Hc].
  pose proof (len_load_words (M0 t) ta nw ltac:(lia)) as Lv.
  destruct (IH (blit out ((t.1 - lo) * nw) (load_words (M0 t) ta nw))) as [L1 S1].
  { intros x Hx. apply Hs. by right. } { done. } { unfold len in *. by rewrite length_blit. }
  split; [rewrite L1; unfold len; by rewrite length_blit|]. intros c Hcc. rewrite S1 by done.
  destruct (decide ((c + lo, row) = t)) as [E|E].
  - subst t. rewrite (bool_decide_false ((c + lo, row) ∈ order)) by done. rewrite bool_decide_true by left.
    cbn [fst]. replace (c + lo - lo) with c by lia.
    pose proof (slice_blit out (c * nw) (load_words (M0 (c + lo, row)) ta nw)) as B. rewrite Lv in B. apply B; nia.
  - assert (bool_decide ((c + lo, row) ∈ t :: order) = bool_decide ((c + lo, row) ∈ order)) as ->.
    { apply bool_decide_ext. rewrite elem_of_cons. tauto. }
    case_bool_decide; [done|]. apply slice_blit_ne; [nia|nia|]. rewrite Lv.
    assert (c <> t.1 - lo) by (intros ->; apply E; destruct t; cbn in *; f_equal; lia). nia.
Qed.

(** All of them, in whatever order. *)
Lemma place_all order out :
  order ≡ₚ row_tiles -> len out = (hi - lo + 1) * nw ->
  foldl (place_packet lo (hi - lo + 1) ta nw) out (answer_of [] read_acc M0 <$> order) =
  concat ((fun c => load_words (M0 (c, row)) ta nw) <$> range lo (hi + 1)).
Proof using cols row_ok single nw_ok.
  intros Hp Hl. destruct (place_answers order out) as [L S]; [|by rewrite Hp; apply row_tiles_nodup|done|].
  { intros x Hx. by rewrite <- Hp. }
  set (out' := foldl _ _ _) in *.
  rewrite (slices_concat (fun c => load_words (M0 (c + lo, row)) ta nw) nw (Z.to_nat (hi - lo + 1)) out'); [|lia|rewrite L, Hl; f_equal; lia|].
  - rewrite Z2Nat.id by lia. unfold range. replace (hi + 1 - lo) with (hi - lo + 1) by lia.
    f_equal. rewrite <- (Z.add_0_r lo) at 2. rewrite <- fmap_add_seqZ, <- list_fmap_compose.
    apply list_fmap_ext. intros i c _. unfold compose. do 3 f_equal. lia.
  - intros c Hc. split; [apply len_load_words; lia|]. rewrite S by lia. rewrite bool_decide_true; [done|].
    rewrite Hp. apply elem_row_tiles. cbn. lia.
Qed.
End placing.
