(* ===== verification/RowReadWrite.v ===== *)
(** * Row reads and acknowledged writes

    The theorems on [__Runtime_ctrl_row_read] and [__Runtime_ctrl_row_write_ack],
    from the pieces of [RowSendProps]. *)

From stdpp Require Import base list list_numbers numbers gmap.
From S2P Require Import Prelude.
From S2P Require Import CtrlpktEncode.
From S2P Require Import RuntimePkt.
From S2P Require Import CtrlpktFormat.
From S2P Require Import CtrlpktWrite.
From S2P Require Import CtrlpktRead.
From S2P Require Import Resource.
From S2P Require Import ControlPlan.
From S2P Require Import Driver.
From S2P Require Import TraceRes.
From S2P Require Import ShimBatch.
From S2P Require Import CacheSync.
From S2P Require Import RowFabric.
From S2P Require Import RowSend.
From S2P Require Import RowDevice.
From S2P Require Import RowSendProps.

Local Open Scope Z_scope.
Local Open Scope c_scope.

(** ** The fabric *)

Section fabric.
Context (effect : backend_op -> (Z -> Z) -> Z -> Z) (answer_ : backend_op -> (Z -> Z) -> Z * Z).
Context (prog : strm_call -> driver_call) (tile_addr : Z -> Z -> Z) (aie2ps : bool).

Lemma keeps_drive {P : RowFabric.state -> Prop} c : (forall s m, P s -> P (set_mmio m s)) -> keeps P (RowFabric.drive effect answer_ c).
Proof using. intros H s Hs. unfold drive. destruct (direct _ _ _ _) as [m rc]. by apply H. Qed.

Ltac keep_steps :=
  repeat match goal with
  | |- keeps _ _ =>
    first [apply keeps_bind|apply keeps_if|apply keeps_throw|apply keeps_when|apply keeps_forM|apply keeps_gets|apply keeps_ret
          |apply keeps_drive|apply keeps_modify]
  | |- forall _, _ => intro
  | H : ?P |- _ => exact H
  end.

(** The legs of the shim keep the fabric's column. *)
Lemma return_route_col col ch :
  keeps (fun s => f_shim_col (fab s) = col) (rt_ctrl_row_shim_return_route effect answer_ prog tile_addr aie2ps ch).
Proof using.
  unfold rt_ctrl_row_shim_return_route, rt_ctrl_ret_flush_mmio, write32.
  keep_steps.
Qed.

Lemma entry_fab f ch : keeps (fun s => fab s = f) (rt_ctrl_row_shim_entry effect answer_ prog ch).
Proof using.
  unfold rt_ctrl_row_shim_entry, rt_ctrl_shim_park_data_masters.
  keep_steps.
Qed.
End fabric.

Lemma row_index_found f row i r : rt_ctrl_row_index f row = Some (i, r) -> 0 <= i <= 3 /\ f_rows f <> [].
Proof.
  unfold rt_ctrl_row_index. destruct (list_find _ _) as [[k r']|] eqn:E; [|done].
  destruct (Z.gtb_spec (Z.of_nat k) ACR_MAX_ROW_IDX); [done|]. intros [= <- <-].
  split; [unfold ACR_MAX_ROW_IDX, RT_RES_MAX_ROW_IDX in *; lia|]. intros H0. by rewrite H0 in E.
Qed.

(** A whole-row stream id has five bits. *)
Lemma whole_row_sid i : 0 <= i <= 3 -> class_sid ACR_CLASS_WHOLE_ROW i & 0x1F = class_sid ACR_CLASS_WHOLE_ROW i.
Proof. intros H. assert (i = 0 \/ i = 1 \/ i = 2 \/ i = 3) as [->|[->|[->| ->]]] by lia; done. Qed.

Lemma row_cols_eq row lo hi : 0 <= lo /\ lo <= hi /\ hi < 128 -> row_cols (Chain row lo hi) = hi - lo + 1.
Proof. intros H. unfold row_cols. cbn [c_hi c_lo]. unwrap. done. Qed.

Lemma load_store_slice m p ws n : 0 <= n <= len ws -> load_words (store_words m p ws) p n = slice ws 0 n.
Proof.
  intros Hn. rewrite <- (load_store m p ws) at 2. unfold load_words, slice. change (Z.to_nat 0) with 0%nat.
  replace (len ws) with (n + (len ws - n)) by lia. rewrite seqZ_app, map_app by lia. rewrite drop_0.
  rewrite take_app_length'; [done|]. rewrite length_map, length_seqZ. lia.
Qed.

(** A request for a single access. *)
Lemma pktize_read_single buf ta nw sid :
  0 <= ta -> ta + 4 * nw <= 2 ^ 20 -> rt_ctrl_chunk_words ta nw 0 = nw -> 0 < nw <= 4 -> sid & 0x1F = sid ->
  let ws := concat (map access_words [read_acc ta nw 0 sid]) in
  len ws = 2 /\ Runtime_ctrl_pktize_read buf (2 * nw + 8) sid 0 ta nw = Some (blit buf 0 ws, Some (2, 1 + nw)).
Proof.
  intros Hta Hend Hc Hn Hs. split; [done|]. unfold Runtime_ctrl_pktize_read.
  assert (read_plan (S (Z.to_nat nw)) ta nw 0 = [(0, nw)]) as Ep.
  { cbn [read_plan]. replace (0 <? nw) with true by lia. rewrite Hc, Z.add_0_l. by rewrite read_plan_end by lia. }
  rewrite read_loop_spec by lia. rewrite Ep. cbn [map foldr concat fst snd]. change (len [(0, nw)]) with 1.
  assert (read_access sid 0 ta (0, nw) = read_acc ta nw 0 sid) as ->.
  { unfold read_access, read_acc. cbn [fst snd]. rewrite Hs, Z.mul_0_r, Z.add_0_r, Z.mod_small by lia. done. }
  do 3 f_equal; f_equal; lia.
Qed.

Lemma length_write_accesses sid ta cs : length (write_accesses sid ta cs) = length cs.
Proof. revert ta. induction cs as [|c cs IH]; intros ta; [done|]. cbn [write_accesses length]. by rewrite IH. Qed.

(** An acknowledged write that fits. *)
Lemma rt_write_ack_resp out base cap sid ta data n ret o k r :
  Runtime_ctrl_pktize_write out base cap sid ta data n true ret = Some (o, k, r) -> 0 < n -> k <> 0 -> r = 1.
Proof.
  intros E Hn Hk. unfold Runtime_ctrl_pktize_write in E. cbn [andb] in E. replace (n >? 0) with true in E by lia.
  destruct (rt_pktize_chunks _ _ _ _ _ _ _ _ _ _) as [[o' [idx|]]|]; [|congruence|done].
  destruct (idx +u32 3 >? cap); [congruence|]. cbv zeta in E. congruence.
Qed.

Lemma pktize_write_ack buf ta data sid :
  0 < len data -> len data < 2 ^ 20 -> len buf = 2 * len data + 8 ->
  let ws := pktize_words sid ta data true 0 in
  len ws <= 2 * len data + 8 /\ 0 < len ws /\
  Runtime_ctrl_pktize_write buf 0 (2 * len data + 8) sid ta (Some data) (len data) true 0 = Some (blit buf 0 ws, len ws, 1).
Proof.
  intros Hd Hd2 Hb ws. assert (len ws = pktize_size (len data) true) as El by apply len_pktize_words.
  unfold pktize_size in El. replace (len data =? 0) with false in El by lia.
  assert (0 < len ws <= 2 * len data + 8) as [H1 H2] by (rewrite El; Z.div_mod_to_equations; lia).
  split_and!; [done|done|].
  destruct (cpe_pktize_result buf 0 (2 * len data + 8) sid ta data (len data) true 0) as (pre & E & Hp & _); [lia..|].
  assert (take (Z.to_nat (len data)) data = data) as Ed by (apply take_ge; unfold len; lia).
  rewrite Ed in E, Hp. fold ws in E, Hp. replace (len ws <=? _) with true in E by lia. rewrite Hp in E by done.
  rewrite <- rt_pktize_eq in E. destruct (Runtime_ctrl_pktize_write _ _ _ _ _ _ _ _ _) as [[[o k] r]|] eqn:Er; [|done].
  change (Some (o, k) = Some (blit buf 0 ws, len ws)) in E. injection E as -> ->. do 2 f_equal.
  eapply rt_write_ack_resp; [exact Er|lia|lia].
Qed.

(** Where the answers of a write start in its buffer, in words. *)
Abbreviation token_off n := (((2 * n + 8 + 3) / 4) * 4).

Lemma token_off_eq n : 0 <= n < 2 ^ 20 -> u32 (u32 ((n *u32 2 +u32 8) + 3) & Z.lnot 3) = token_off n.
Proof.
  intros H. assert (n *u32 2 +u32 8 = 2 * n + 8) as -> by (unwrap; lia). rewrite (u32_small (2 * n + 8 + 3)) by lia.
  assert ((2 * n + 8 + 3) & Z.lnot 3 = token_off n) as ->.
  { change 3 with (Z.ones 2) at 2. rewrite <- Z.ldiff_land, Z.ldiff_ones_r, Z.shiftr_div_pow2, Z.shiftl_mul_pow2 by lia. done. }
  apply u32_small. Z.div_mod_to_equations; lia.
Qed.

(** ** Operations on a row *)

Section row_ops.
Context (pick : list (Z * Z) -> Z -> Z) (schedule : nat -> list (Z * Z)).
Context (targets : (Z -> Z) -> Z -> list (Z * Z)) (dev : Z).
Context (effect : backend_op -> (Z -> Z) -> Z -> Z) (answer_ : backend_op -> (Z -> Z) -> Z * Z).
Context (prog : strm_call -> driver_call) (tile_addr : Z -> Z -> Z) (XAIE_INVALID_ARGS : Z) (aie2ps : bool).
Context (MemTileRowStart MemTileNumRows : Z) (nc : list nc_block).
Context (s : send array) (row i lo hi bd_id mm2s_ch : Z) (nt1 nt2 : RowFabric.state).

Abbreviation f := (fab (net s)).
Abbreviation s2mm_ch := (f_resp_s2mm_ch f).
Abbreviation home := (Loc 0 (f_shim_col f), u8 s2mm_ch).
Abbreviation xaie := (array_call pick schedule targets home).
Abbreviation sid := (class_sid ACR_CLASS_WHOLE_ROW i).
Abbreviation T := (row_tiles lo hi row).
Abbreviation hp := (heap (shim (world s))).

(** A row of the fabric, on a device with nothing under way: no tile has work,
    no descriptor is queued, and the tracked buffers are live ones.  The legs
    of the shim can be programmed ([nt1], [nt2]), and then the row's stream id
    reaches the row's tiles. *)
Record row_ready : Prop := {
  rr_dev : dev <> 0;
  rr_row : rt_ctrl_row_index f row = Some (i, Chain row lo hi);
  rr_cols : 0 <= lo /\ lo <= hi /\ hi < 128;
  rr_row_range : 0 <= row < 32;
  rr_bd : 0 <= bd_id /\ bd_id + 1 + (hi - lo + 1) <= 16;
  rr_entry : rt_ctrl_row_shim_entry effect answer_ prog mm2s_ch (net s) = (nt1, Ok tt);
  rr_return : rt_ctrl_row_shim_return_route effect answer_ prog tile_addr aie2ps s2mm_ch nt1 = (nt2, Ok tt);
  rr_targets : targets (mmio nt2) sid = T;
  rr_idle : forall t, work (world s) t = [];
  rr_s2mm : s2mm (shim (world s)) home = [];
  rr_mm2s : mm2s (shim (world s)) (Loc 0 (f_shim_col f), u8 mm2s_ch) = [];
  rr_heap : heap_ok (allocs s) hp;
  rr_room : len (allocs s) <= 62 }.

(** A block of [n] bytes can be allocated: it gets the address [p]. *)
Definition allocates (h : list (Z * Z)) (n p : Z) : Prop := pick h n = p /\ fresh h p n.

Lemma nt2_col : row_ready -> f_shim_col (fab nt2) = f_shim_col f.
Proof using.
  intros R. pose proof (entry_fab effect answer_ prog f mm2s_ch (net s) eq_refl) as H1.
  pose proof (return_route_col effect answer_ prog tile_addr aie2ps (f_shim_col f) s2mm_ch nt1) as H2.
  destruct R. rewrite rr_entry0 in H1. rewrite rr_return0 in H2. cbn in *. apply H2. by rewrite H1.
Qed.

Lemma rows_nonempty : row_ready -> (len (f_rows f) =? 0) = false.
Proof using.
  intros R. destruct (row_index_found _ _ _ _ (rr_row R)) as [_ H]. destruct (f_rows f); [done|].
  rewrite len_cons. pose proof (len_nonneg l). lia.
Qed.

Lemma mk_self nt : set_net nt s =
  mk (mem_of (world s)) (work (world s)) (queue s) (txn_row s) nt (allocs s) (words s) (shim (world s)) (clock (world s)).
Proof using. destruct s as [? ? ? ? ? []]. done. Qed.

(** The request of a read, in its buffer [p1], with the answers in [p2]. *)
Lemma read_request ta nw p1 p2 :
  row_ready -> 0 <= ta -> ta + 4 * nw <= 2 ^ 20 -> rt_ctrl_chunk_words ta nw 0 = nw -> 0 < nw <= 4 ->
  allocates hp ((2 * nw + 8) * 4) p1 ->
  allocates ((p1, (2 * nw + 8) * 4) :: hp) ((hi - lo + 1) * (1 + nw) * 4) p2 ->
  let al := (allocs s ++ [Alloc p1 p1 ((2 * nw + 8) * 4)]) ++ [Alloc p2 p2 ((hi - lo + 1) * (1 + nw) * 4)] in
  request_ok targets true (slots_at T p2 (1 + nw)) (f_shim_col f) sid T [] (read_acc ta nw 0 sid) p2 (1 + nw) p1 nt2 al /\
  return_ok effect answer_ prog tile_addr aie2ps s2mm_ch bd_id T p2 (1 + nw) nt1 nt2 al.
Proof using.
  intros R Hta Hend Hc Hn [_ F1] [_ F2]. pose proof (nt2_col R) as Hcol. destruct R.
  destruct (row_index_found _ _ _ _ rr_row0) as [Hi _].
  pose proof (heap_ok_push _ _ _ _ rr_heap0 F1) as Ho. pose proof F1 as (? & ? & ? & _). pose proof F2 as (? & ? & ? & _).
  pose proof (len_row_tiles lo hi row rr_cols0) as Lt.
  split; split.
  1-7: first [apply row_tiles_nodup|by constructor|done|cbn; lia|by repeat constructor].
  - constructor; [|constructor]. constructor; cbn [a_sid a_addr a_op a_ret a_beats a_data read_acc]; try (unfold OP_READ; lia); try done.
    rewrite <- (whole_row_sid i Hi). apply sid_land_range.
  - done.
  - apply slots_queues.
  - exists p1. rewrite (lookup_fresh _ _ _ _ p1 _ rr_heap0 F1) by lia. split; [done|lia].
  - done.
  - by rewrite Lt.
  - exists p2. rewrite <- (app_nil_r (_ ++ [Alloc p2 p2 _])).
    rewrite (lookup_fresh _ _ _ _ p2 [] Ho F2) by lia. split; [done|lia].
  - rewrite Lt; lia.
Qed.

Abbreviation alloc := (__Runtime_alloc_buffer xaie id dev).
Abbreviation M0 := (mem_of (world s)).
Abbreviation idle_state := (mk M0 (work (world s)) (queue s) (txn_row s)).
Abbreviation accs_in p := (fun n => Alloc p p n).

Lemma sync_for_dev_idle nt al m sh n ptr size :
  row_ready -> exists n', sync_for_dev xaie dev nc ptr size (idle_state nt al m sh n) = (idle_state nt al m sh n', Ok tt).
Proof using.
  intros R. destruct (does_mem_calls pick schedule targets home M0 (work (world s)) (queue s) (txn_row s) (rr_idle R) al
    (__Runtime_sync_for_dev nc dev ptr size) nt m sh n) as (n' & E).
  exists n'. unfold sync_for_dev. rewrite E. by rewrite dos_mem_calls.
Qed.

Lemma dos_alloc n p sh :
  pick (heap sh) n = p -> p <> 0 ->
  let sh' := dos pick [MemAllocate n] sh in heap sh' = (p, n) :: heap sh /\ s2mm sh' = s2mm sh /\ mm2s sh' = mm2s sh.
Proof using. intros Hp H0. unfold dos. cbn. rewrite Hp. by replace (p =? 0) with false by lia. Qed.

(** The two buffers of a read are given back. *)
Lemma free_two ta nw n1 n2 p1 p2 m0 n0 st :
  row_ready ->
  request_ok targets true (slots_at T p2 (1 + nw)) (f_shim_col f) sid T [] (read_acc ta nw 0 sid) p2 (1 + nw) p1 nt2 (allocs st) ->
  live schedule M0 true (slots_at T p2 (1 + nw)) (f_shim_col f) s2mm_ch T [] (read_acc ta nw 0 sid) p2 (1 + nw) m0 n0 st ->
  fresh hp p1 n1 -> fresh ((p1, n1) :: hp) p2 n2 ->
  allocs st = (allocs s ++ [Alloc p1 p1 n1]) ++ [Alloc p2 p2 n2] -> heap (shim (world st)) = (p2, n2) :: (p1, n1) :: hp ->
  exists s' s'', __Runtime_free_buffer xaie dev p2 st = (s', Ok tt) /\ __Runtime_free_buffer xaie dev p1 s' = (s'', Ok tt) /\
    allocs s'' = allocs s /\ heap (shim (world s'')) = hp /\
    live schedule M0 true (slots_at T p2 (1 + nw)) (f_shim_col f) s2mm_ch T [] (read_acc ta nw 0 sid) p2 (1 + nw) m0 n0 s'' /\
    (s2mm (shim (world st)) home = [] -> s2mm (shim (world s'')) home = []).
Proof using.
  intros R Q L F1 F2 Ea Eh. pose proof (heap_ok_push _ _ _ _ (rr_heap R) F1) as Ho.
  destruct (live_free pick schedule targets dev M0 (rr_dev R) true (slots_at T p2 (1 + nw)) (f_shim_col f) s2mm_ch sid T []
    (read_acc ta nw 0 sid) p2 (1 + nw) p1 nt2 (allocs st) p2 m0 n0 st Q L) as (s1 & E1 & L1 & _ & A1 & H1 & D1).
  { destruct F2. lia. }
  destruct (live_free pick schedule targets dev M0 (rr_dev R) true (slots_at T p2 (1 + nw)) (f_shim_col f) s2mm_ch sid T []
    (read_acc ta nw 0 sid) p2 (1 + nw) p1 nt2 (allocs st) p1 m0 n0 s1 Q L1) as (s2 & E2 & L2 & _ & A2 & H2 & D2).
  { destruct F1. lia. }
  exists s1, s2. rewrite Ea in A1. rewrite (remove_last _ _ _ _ Ho F2) in A1. rewrite A1 in A2.
  rewrite (remove_last _ _ _ _ (rr_heap R) F1) in A2. rewrite Eh in H1. rewrite (heap_filter _ _ _ _ Ho F2) in H1.
  rewrite H1 in H2. rewrite (heap_filter _ _ _ _ (rr_heap R) F1) in H2. split_and!; try done. auto.
Qed.

(** A read up to the request: two buffers, the packets in the first. *)
Lemma read_prepare ta nw p1 :
  row_ready -> 0 <= ta -> ta + 4 * nw <= 2 ^ 20 -> rt_ctrl_chunk_words ta nw 0 = nw -> 0 < nw <= 4 ->
  allocates hp ((2 * nw + 8) * 4) p1 ->
  exists n' m1 pkts,
    alloc ((2 * nw + 8) * 4) (idle_state nt1 (allocs s) (words s) (shim (world s)) (clock (world s))) =
      (idle_state nt1 (allocs s ++ [Alloc p1 p1 ((2 * nw + 8) * 4)]) (words s) (dos pick [MemAllocate ((2 * nw + 8) * 4)] (shim (world s))) n', Ok p1) /\
    pkts = concat (map access_words [read_acc ta nw 0 sid]) /\ len pkts = 2 /\ load_words m1 p1 2 = pkts /\
    forall al sh n, pktize_read_into p1 (2 * nw + 8) sid 0 ta nw (idle_state nt1 al (words s) sh n) = (idle_state nt1 al m1 sh n, Ok (2, 1 + nw)).
Proof using.
  intros R Hta Hend Hc Hn [P1 F1]. destruct (row_index_found _ _ _ _ (rr_row R)) as [Hi _].
  destruct (alloc_ok pick schedule targets home dev M0 (work (world s)) (queue s) (txn_row s) (rr_idle R) (rr_dev R)
    nt1 (allocs s) (words s) (shim (world s)) (clock (world s)) _ p1 P1) as (n' & E).
  { destruct F1. lia. } { pose proof (rr_room R). unfold MAX_ALLOC_BUFFERS. lia. }
  pose proof (len_load_words (words s) p1 (2 * nw + 8) ltac:(lia)) as Lb.
  destruct (pktize_read_single (load_words (words s) p1 (2 * nw + 8)) ta nw sid Hta Hend Hc Hn (whole_row_sid i Hi)) as [Lp Ep].
  set (pkts := concat (map access_words [read_acc ta nw 0 sid])) in *.
  exists n', (store_words (words s) p1 (blit (load_words (words s) p1 (2 * nw + 8)) 0 pkts)), pkts.
  split; [exact E|]. split; [done|]. split; [done|]. split.
  - rewrite load_store_slice by (unfold len in *; rewrite length_blit; lia).
    pose proof (slice_blit (load_words (words s) p1 (2 * nw + 8)) 0 pkts) as B. rewrite Lp in B. apply B; lia.
  - intros al sh n. unfold pktize_read_into, load. erewrite bind_Ok by reflexivity. cbn [mk words]. rewrite Ep. done.
Qed.

(** The buffers of a read. *)
Abbreviation req_size nw := ((2 * nw + 8) * 4).
Abbreviation ans_size nw := ((hi - lo + 1) * (1 + nw) * 4).
Abbreviation read_allocs nw p1 p2 := ((allocs s ++ [Alloc p1 p1 (req_size nw)]) ++ [Alloc p2 p2 (ans_size nw)]).

(** The rest of a read, once its buffers are ready. *)
Definition read_inst nw p2 : CtrlInstance :=
  Inst (f_shim_col f) lo row sid bd_id mm2s_ch s2mm_ch p2 ((hi - lo + 1) * (1 + nw)).
Definition read_cleanup p1 p2 : stE (send array) fault unit :=
  __Runtime_free_buffer xaie dev p2 ;; __Runtime_free_buffer xaie dev p1.
Definition read_tail ta nw out p1 p2 : stE (send array) fault (Z * list Z) :=
  on_fail (rt_ctrl_row_shim_return xaie id effect answer_ prog tile_addr XAIE_INVALID_ARGS aie2ps
    s2mm_ch (bd_id + 1) (hi - lo + 1) (1 + nw) p2) (read_cleanup p1 p2) ;;
  on_fail (__Runtime_ctrl_push xaie id dev MemTileRowStart MemTileNumRows (read_inst nw p2) p1 2 false false) (read_cleanup p1 p2) ;;
  pending ← rt_ctrl_row_return_poll xaie dev s2mm_ch (hi - lo + 1) (1 + nw) p2;
  pkts ← gets (fun s => (fun k => load_words (words s) (p2 + 4 * (k * (1 + nw))) (1 + nw)) <$> range 0 (hi - lo + 1));
  __Runtime_free_buffer xaie dev p2 ;;
  __Runtime_free_buffer xaie dev p1 ;;
  mret (if pending =? 0 then XAIE_OK else XAIE_ERR, foldl (place_packet lo (hi - lo + 1) ta nw) out pkts).

(** A read gets its buffers, with the request in the first. *)
Lemma read_setup ta nw out p1 p2 :
  row_ready -> 0 <= ta -> ta + 4 * nw <= 2 ^ 20 -> rt_ctrl_chunk_words ta nw 0 = nw -> 0 < nw <= 4 ->
  allocates hp (req_size nw) p1 -> allocates ((p1, req_size nw) :: hp) (ans_size nw) p2 ->
  exists m2 sh2 n2,
    __Runtime_ctrl_row_read xaie id id effect answer_ prog tile_addr dev XAIE_INVALID_ARGS MemTileRowStart MemTileNumRows
      aie2ps nc row ta nw out bd_id mm2s_ch s = read_tail ta nw out p1 p2 (idle_state nt1 (read_allocs nw p1 p2) m2 sh2 n2) /\
    load_words m2 p1 2 = concat (map access_words [read_acc ta nw 0 sid]) /\
    heap sh2 = (p2, ans_size nw) :: (p1, req_size nw) :: hp /\ s2mm sh2 home = [] /\ mm2s sh2 (Loc 0 (f_shim_col f), u8 mm2s_ch) = [].
Proof using.
  intros R Hta Hend Hc Hn A1 A2.
  destruct (read_prepare ta nw p1 R Hta Hend Hc Hn A1) as (n1 & m1 & pkts & E1 & Ek & Lk & Hm1 & Ep).
  pose proof (rr_cols R) as Hcols. pose proof (rr_bd R) as Hbd. pose proof (rr_dev R).
  destruct A1 as [P1 F1]. destruct A2 as [P2 F2]. pose proof F1 as (? & ? & ? & _). pose proof F2 as (? & ? & ? & Fd).
  unfold __Runtime_ctrl_row_read. erewrite bind_Ok by reflexivity. rewrite (rows_nonempty R).
  replace ((dev =? 0) || (nw =? 0) || false) with false by lia.
  rewrite (rr_row R), (row_cols_eq row lo hi Hcols). cbn [c_lo].
  erewrite bind_Ok by (unfold net_op; rewrite (rr_entry R); reflexivity). rewrite mk_self.
  assert (nw *u32 2 +u32 8 = 2 * nw + 8) as -> by (unwrap; lia). rewrite (bind_Ok _ _ _ _ _ E1).
  replace (p1 =? 0) with false by lia. rewrite (bind_Ok _ _ _ _ _ (Ep _ _ _)).
  replace ((2 =? 0) || (1 + nw =? 0)) with false by lia.
  assert ((1 + nw) *u32 u32 (hi - lo + 1) = (hi - lo + 1) * (1 + nw)) as ->.
  { rewrite (u32_small (hi - lo + 1)), u32_small by nia. lia. }
  destruct (dos_alloc _ _ _ P1 ltac:(lia)) as (D1 & D2 & D3). set (sh1 := dos pick _ _) in *.
  set (al1 := allocs s ++ [Alloc p1 p1 _]) in *.
  destruct (sync_for_dev_idle nt1 al1 m1 sh1 n1 p1 (2 * 4) R) as (n2 & E2). rewrite (bind_Ok _ _ _ _ _ E2).
  destruct (alloc_ok pick schedule targets home dev M0 (work (world s)) (queue s) (txn_row s) (rr_idle R) (rr_dev R)
    nt1 al1 m1 sh1 n2 (ans_size nw) p2) as (n3 & E3); [by rewrite D1|lia| |].
  { pose proof (rr_room R). subst al1. unfold MAX_ALLOC_BUFFERS. rewrite len_app. change (len [_]) with 1. lia. }
  rewrite (bind_Ok _ _ _ _ _ E3). replace (p2 =? 0) with false by lia.
  destruct (dos_alloc (ans_size nw) p2 sh1 ltac:(by rewrite D1) ltac:(lia)) as (D4 & D5 & D6).
  set (sh2 := dos pick _ sh1) in *. set (zs := replicate _ 0).
  assert (len zs = (hi - lo + 1) * (1 + nw)) as Lz by (subst zs; unfold len; rewrite length_replicate; nia).
  exists (store_words m1 p2 zs), sh2, n3. split; [reflexivity|]. rewrite D4, D5, D6, D1, D2, D3.
  split; [|by destruct R]. rewrite load_store_outside, Hm1; [done|]. rewrite Lz.
  apply Forall_cons in Fd as [Fd _]. cbn [fst snd] in Fd. lia.
Qed.

(** What a read does, whatever the tiles' pace. *)
Lemma row_read_run ta nw out p1 p2 :
  row_ready -> 0 <= ta -> ta + 4 * nw <= 2 ^ 20 -> rt_ctrl_chunk_words ta nw 0 = nw -> 0 < nw <= 4 ->
  len out = (hi - lo + 1) * nw ->
  allocates hp (req_size nw) p1 -> allocates ((p1, req_size nw) :: hp) (ans_size nw) p2 ->
  exists s' rc vals,
    __Runtime_ctrl_row_read xaie id id effect answer_ prog tile_addr dev XAIE_INVALID_ARGS MemTileRowStart MemTileNumRows
      aie2ps nc row ta nw out bd_id mm2s_ch s = (s', Ok (rc, vals)) /\
    (rc = XAIE_OK \/ rc = XAIE_ERR) /\ allocs s' = allocs s /\ heap (shim (world s')) = hp /\
    (rc = XAIE_OK -> vals = concat ((fun c => load_words (M0 (c, row)) ta nw) <$> range lo (hi + 1)) /\
       forall t, mem_of (world s') t = M0 t) /\
    (keep_moving schedule T [] (read_acc ta nw 0 sid) -> rc = XAIE_OK).
Proof using.
  intros R Hta Hend Hc Hn Ho A1 A2. pose proof (read_request ta nw p1 p2 R Hta Hend Hc Hn A1 A2) as [Q RO].
  destruct (read_setup ta nw out p1 p2 R Hta Hend Hc Hn A1 A2) as (m2 & sh2 & n2 & -> & Hm2 & Dh & Ds & Dm).
  pose proof (len_row_tiles lo hi row (rr_cols R)) as Lt.
  assert (len (concat (map access_words ([] ++ [read_acc ta nw 0 sid]))) = 2) as Lk by done.
  destruct (exchange_ok pick schedule targets dev effect answer_ prog tile_addr XAIE_INVALID_ARGS aie2ps MemTileRowStart MemTileNumRows
    M0 (work (world s)) (queue s) (txn_row s) (rr_idle R) (rr_dev R) true (slots_at T p2 (1 + nw)) (f_shim_col f) s2mm_ch mm2s_ch sid bd_id T [] _
    p2 (1 + nw) p1 nt1 nt2 _ m2 sh2 n2 (read_inst nw p2) (read_cleanup p1 p2) Q RO eq_refl eq_refl)
    as (s1 & s2 & s3 & p & n0 & X1 & X2 & X3 & Hnet & Hal & _ & Hh & L & Hd & Hp);
    [by rewrite Lk, Hm2|by rewrite Lk|done|done|done|done|done|].
  rewrite Lk in X2. rewrite Lt in X1, X3. unfold read_tail.
  rewrite (bind_Ok _ _ _ _ _ X1), (bind_Ok _ _ _ _ _ X2), (bind_Ok _ _ _ _ _ X3). erewrite bind_Ok by reflexivity.
  destruct (free_two ta nw (req_size nw) (ans_size nw) p1 p2 m2 n0 s3 R) as (s4 & s5 & X4 & X5 & Ha5 & Hh5 & L5 & Hd5);
    [by rewrite Hal|done|apply A1|apply A2|done|by rewrite Hh, Dh|].
  rewrite (bind_Ok _ _ _ _ _ X4), (bind_Ok _ _ _ _ _ X5). eexists s5, _, _. split; [reflexivity|].
  split; [destruct (p =? 0); auto|]. split; [done|]. split; [done|]. split.
  - destruct (Z.eqb_spec p 0) as [E0|]; [|done]. intros _. specialize (Hd E0). split.
    + edestruct live_landed as (order & Hperm & Hl); [exact Q|exact L|exact Hd|].
      rewrite Lt in Hl. rewrite Hl. apply place_all; auto using rr_row_range, rr_cols.
    + intros t. erewrite live_tiles by (exact Q || exact L5 || exact (Hd5 Hd)). by case_bool_decide.
  - intros Hm. by rewrite (Hp Hm).
Qed.

(** ** Acknowledged writes *)

(** The accesses of a write: all but the last word, and the last one. *)
Definition write_pre ta (data : list Z) : list access := write_accesses sid ta (chunks4 (take (length data - 1) data)).
Definition write_ack ta (data : list Z) : access :=
  ack_access sid (ta + 4 * (len data - 1)) 0 (default 0 (list.last data)).

Lemma write_accs ta data : data <> [] -> pktize_accesses sid ta data true 0 = write_pre ta data ++ [write_ack ta data].
Proof using.
  intros H. unfold pktize_accesses, write_pre, write_ack. destruct (list.last data) as [w|] eqn:E; [done|].
  by apply last_None in E.
Qed.

Abbreviation buf_size n := ((token_off n + (hi - lo + 1)) * 4).

Lemma write_request ta data p1 :
  row_ready -> 0 < len data < 2 ^ 20 ->
  allocates hp (buf_size (len data)) p1 ->
  let al := allocs s ++ [Alloc p1 p1 (buf_size (len data))] in
  request_ok targets true (slots_at T (p1 + 4 * token_off (len data)) 1) (f_shim_col f) sid T (write_pre ta data) (write_ack ta data)
    (p1 + 4 * token_off (len data)) 1 p1 nt2 al /\
  return_ok effect answer_ prog tile_addr aie2ps s2mm_ch bd_id T (p1 + 4 * token_off (len data)) 1 nt1 nt2 al.
Proof using.
  intros R Hd [_ F1]. pose proof (nt2_col R) as Hcol. destruct R.
  destruct (row_index_found _ _ _ _ rr_row0) as [Hi _]. pose proof (whole_row_sid i Hi) as Hs.
  pose proof F1 as (? & ? & ? & _). pose proof (len_row_tiles lo hi row rr_cols0) as Lt.
  assert (data <> []) as Hne by (intros E; rewrite E in Hd; unfold len in Hd; cbn in Hd; lia).
  assert (0 <= token_off (len data)) by (Z.div_mod_to_equations; lia).
  assert (Forall (fun a => a_sid a = sid /\ a_op a = OP_WRITE) (write_pre ta data)) as Hpre.
  { unfold write_pre. pose proof (write_accesses_fields sid ta (chunks4 (take (length data - 1) data))) as Hf. by rewrite Hs in Hf. }
  split; split; try done.
  - apply row_tiles_nodup.
  - eapply Forall_impl; [exact Hpre|]. intros b [_ E]. unfold returns. by rewrite E.
  - apply Forall_app. split; [eapply Forall_impl; [exact Hpre|]; by intros b [E _]|]. constructor; [exact Hs|constructor].
  - rewrite <- write_accs by done. apply pktize_accesses_ok.
  - apply slots_queues.
  - exists p1. rewrite <- (app_nil_r (_ ++ [Alloc p1 p1 _])).
    rewrite (lookup_fresh _ _ _ _ p1 [] rr_heap0 F1) by lia. split; [done|lia].
  - by rewrite Lt.
  - exists p1. rewrite <- (app_nil_r (_ ++ [Alloc p1 p1 _])).
    rewrite (lookup_fresh _ _ _ _ (p1 + 4 * token_off (len data)) [] rr_heap0 F1) by lia. split; [done|lia].
  - rewrite Lt; lia.
Qed.

(** The rest of a write, once its buffer is ready. *)
Abbreviation write_words ta data := (pktize_words sid ta data true 0).
Definition write_inst (data : list Z) p1 : CtrlInstance :=
  Inst (f_shim_col f) lo row sid bd_id mm2s_ch s2mm_ch (p1 + 4 * token_off (len data)) (hi - lo + 1).
Definition write_tail ta data p1 : stE (send array) fault unit :=
  on_fail (rt_ctrl_row_shim_return xaie id effect answer_ prog tile_addr XAIE_INVALID_ARGS aie2ps
    s2mm_ch (bd_id + 1) (hi - lo + 1) 1 (p1 + 4 * token_off (len data))) (__Runtime_free_buffer xaie dev p1) ;;
  on_fail (__Runtime_ctrl_push xaie id dev MemTileRowStart MemTileNumRows (write_inst data p1) p1 (len (write_words ta data)) false false)
    (__Runtime_free_buffer xaie dev p1) ;;
  pending ← rt_ctrl_row_return_poll xaie dev s2mm_ch (hi - lo + 1) 1 (p1 + 4 * token_off (len data));
  __Runtime_free_buffer xaie dev p1 ;;
  if pending =? 0 then mret tt else fail XAIE_ERR.

(** A write gets its buffer, with the packets at its start. *)
Lemma write_setup ta data p1 :
  row_ready -> 0 < len data < 2 ^ 20 -> allocates hp (buf_size (len data)) p1 ->
  exists m2 sh2 n2,
    __Runtime_ctrl_row_write_ack xaie id id effect answer_ prog tile_addr dev XAIE_INVALID_ARGS MemTileRowStart MemTileNumRows
      aie2ps nc row ta data bd_id mm2s_ch s =
    write_tail ta data p1 (idle_state nt1 (allocs s ++ [Alloc p1 p1 (buf_size (len data))]) m2 sh2 n2) /\
    load_words m2 p1 (len (write_words ta data)) = write_words ta data /\
    heap sh2 = (p1, buf_size (len data)) :: hp /\ s2mm sh2 home = [] /\ mm2s sh2 (Loc 0 (f_shim_col f), u8 mm2s_ch) = [].
Proof using.
  intros R Hd [P1 F1]. pose proof (rr_cols R) as Hcols. pose proof (rr_bd R) as Hbd. pose proof (rr_dev R).
  pose proof F1 as (? & ? & ? & _).
  unfold __Runtime_ctrl_row_write_ack. erewrite bind_Ok by reflexivity. rewrite (rows_nonempty R).
  replace ((dev =? 0) || (len data =? 0) || false) with false by lia.
  rewrite (rr_row R), (row_cols_eq row lo hi Hcols). cbn [c_lo].
  erewrite bind_Ok by (unfold net_op; rewrite (rr_entry R); reflexivity). rewrite mk_self.
  rewrite token_off_eq by lia. set (off := token_off (len data)) in *.
  assert (2 * len data + 8 <= off <= 2 * len data + 11) by (subst off; Z.div_mod_to_equations; lia).
  rewrite (u32_small (off + (hi - lo + 1))) by lia.
  assert (len data *u32 2 +u32 8 = 2 * len data + 8) as -> by (unwrap; lia).
  destruct (alloc_ok pick schedule targets home dev M0 (work (world s)) (queue s) (txn_row s) (rr_idle R) (rr_dev R)
    nt1 (allocs s) (words s) (shim (world s)) (clock (world s)) _ p1 P1) as (n1 & E1).
  { lia. } { pose proof (rr_room R). unfold MAX_ALLOC_BUFFERS. lia. }
  rewrite (bind_Ok _ _ _ _ _ E1). replace (p1 =? 0) with false by lia.
  pose proof (len_load_words (words s) p1 (2 * len data + 8) ltac:(lia)) as Lb.
  destruct (pktize_write_ack (load_words (words s) p1 (2 * len data + 8)) ta data sid) as (L1 & L2 & Ew); [lia|lia|done|].
  set (pkts := write_words ta data) in *. set (m1 := store_words (words s) p1 (blit (load_words (words s) p1 (2 * len data + 8)) 0 pkts)).
  assert (forall al sh n, pktize_write_into p1 (2 * len data + 8) sid ta data true (idle_state nt1 al (words s) sh n) =
    (idle_state nt1 al m1 sh n, Ok (len pkts, 1))) as Ep.
  { intros al sh n. unfold pktize_write_into, load. erewrite bind_Ok by reflexivity. cbn [mk words]. rewrite Ew. done. }
  rewrite (bind_Ok _ _ _ _ _ (Ep _ _ _)). replace ((len pkts =? 0) || (1 =? 0)) with false by lia.
  destruct (dos_alloc _ _ _ P1 ltac:(lia)) as (D1 & D2 & D3). set (sh1 := dos pick _ _) in *. set (al1 := allocs s ++ _) in *.
  destruct (sync_for_dev_idle nt1 al1 m1 sh1 n1 p1 (len pkts * 4) R) as (n2 & E2). rewrite (bind_Ok _ _ _ _ _ E2).
  rewrite (u32_small (hi - lo + 1)), Z.mul_1_l, u32_small by lia. set (zs := replicate _ 0).
  exists (store_words m1 (p1 + 4 * off) zs), sh1, n2. split; [reflexivity|].
  rewrite D1, D2, D3. split; [|by destruct R]. rewrite load_store_outside by lia. unfold m1.
  rewrite load_store_slice by (unfold len in *; rewrite length_blit; lia). apply slice_blit; lia.
Qed.

(** What a write does, whatever the tiles' pace. *)
Lemma row_write_run ta data p1 :
  row_ready -> 0 <= ta -> ta + 4 * len data <= 2 ^ 20 -> 0 < len data < 2 ^ 20 -> allocates hp (buf_size (len data)) p1 ->
  exists s' r,
    __Runtime_ctrl_row_write_ack xaie id id effect answer_ prog tile_addr dev XAIE_INVALID_ARGS MemTileRowStart MemTileNumRows
      aie2ps nc row ta data bd_id mm2s_ch s = (s', r) /\
    (r = Ok tt \/ r = Err (Code XAIE_ERR)) /\ allocs s' = allocs s /\ heap (shim (world s')) = hp /\
    (r = Ok tt -> forall t x, mem_of (world s') t x = if bool_decide (t ∈ T) then store_words (M0 t) ta data x else M0 t x) /\
    (keep_moving schedule T (write_pre ta data) (write_ack ta data) -> r = Ok tt).
Proof using.
  intros R Hta Hend Hd A1. pose proof (write_request ta data p1 R Hd A1) as [Q RO].
  destruct (write_setup ta data p1 R Hd A1) as (m2 & sh2 & n2 & -> & Hm2 & Dh & Ds & Dm).
  pose proof (len_row_tiles lo hi row (rr_cols R)) as Lt.
  assert (data <> []) as Hne by (intros E; rewrite E in Hd; unfold len in Hd; cbn in Hd; lia).
  assert (concat (map access_words (write_pre ta data ++ [write_ack ta data])) = write_words ta data) as Ew.
  { unfold pktize_words. by rewrite write_accs. }
  pose proof (pktize_write_ack (replicate (Z.to_nat (2 * len data + 8)) 0) ta data sid) as (Lw & _); [lia|lia|unfold len; rewrite length_replicate; unfold len in *; lia|].
  destruct (exchange_ok pick schedule targets dev effect answer_ prog tile_addr XAIE_INVALID_ARGS aie2ps MemTileRowStart MemTileNumRows
    M0 (work (world s)) (queue s) (txn_row s) (rr_idle R) (rr_dev R) true (slots_at T (p1 + 4 * token_off (len data)) 1) (f_shim_col f) s2mm_ch mm2s_ch sid bd_id T _ _
    (p1 + 4 * token_off (len data)) 1 p1 nt1 nt2 _ m2 sh2 n2 (write_inst data p1) (__Runtime_free_buffer xaie dev p1) Q RO eq_refl eq_refl)
    as (s1 & s2 & s3 & p & n0 & X1 & X2 & X3 & Hnet & Hal & _ & Hh & L & Hd3 & Hp);
    [by rewrite Ew, Hm2|rewrite Ew; lia|done|done|done|done|done|].
  rewrite Ew in X2. rewrite Lt in X1, X3. unfold write_tail.
  rewrite (bind_Ok _ _ _ _ _ X1), (bind_Ok _ _ _ _ _ X2), (bind_Ok _ _ _ _ _ X3).
  edestruct (live_free pick schedule targets dev) as (s4 & X4 & L4 & _ & A4 & H4 & D4);
    [exact (rr_dev R)|exact Q|exact L|destruct A1 as [_ [? _]]; apply Z.neq_sym, Z.lt_neq; eassumption|].
  rewrite (bind_Ok _ _ _ _ _ X4). rewrite Hal, (remove_last _ _ _ _ (rr_heap R) (proj2 A1)) in A4.
  rewrite Hh, Dh, (heap_filter _ _ _ _ (rr_heap R) (proj2 A1)) in H4.
  exists s4, (if p =? 0 then Ok tt else Err (Code XAIE_ERR)). split; [by destruct (p =? 0)|].
  split; [destruct (p =? 0); auto|]. split; [done|]. split; [done|]. split.
  - destruct (Z.eqb_spec p 0) as [E0|]; [|done]. intros _ t x. specialize (Hd3 E0).
    erewrite live_tiles by (exact Q || exact L4 || exact (D4 Hd3)). case_bool_decide; [|done].
    rewrite <- write_accs by done. by apply run_pktize_accesses.
  - intros Hm. by rewrite (Hp Hm).
Qed.
End row_ops.

(** ** Properties *)

Section properties.
Context (pick : list (Z * Z) -> Z -> Z) (schedule : nat -> list (Z * Z)).
Context (targets : (Z -> Z) -> Z -> list (Z * Z)) (dev : Z).
Context (effect : backend_op -> (Z -> Z) -> Z -> Z) (answer_ : backend_op -> (Z -> Z) -> Z * Z).
Context (prog : strm_call -> driver_call) (tile_addr : Z -> Z -> Z) (XAIE_INVALID_ARGS : Z) (aie2ps : bool).
Context (MemTileRowStart MemTileNumRows : Z) (nc : list nc_block).

Abbreviation home s := (Loc 0 (f_shim_col (fab (net s))), u8 (f_resp_s2mm_ch (fab (net s)))).
Abbreviation live_blocks s := (heap (shim (world s))).
Abbreviation row_read s :=
  (__Runtime_ctrl_row_read (array_call pick schedule targets (home s)) id id effect answer_ prog tile_addr dev XAIE_INVALID_ARGS
     MemTileRowStart MemTileNumRows aie2ps nc).
Abbreviation row_write_ack s :=
  (__Runtime_ctrl_row_write_ack (array_call pick schedule targets (home s)) id id effect answer_ prog tile_addr dev XAIE_INVALID_ARGS
     MemTileRowStart MemTileNumRows aie2ps nc).
Abbreviation ready := (row_ready targets dev effect answer_ prog tile_addr aie2ps).

(** C9. Reading a row: on a row of the fabric, for words that one access
    covers and with buffers to be had, the read returns, with its two buffers
    given back; and if it returns [XAIE_OK], then whatever the pace of the
    tiles and the order in which their answers merge, the result has every
    column's words in the column's place, and no tile has changed. *)
Theorem row_read_correct s row i lo hi bd_id mm2s_ch nt1 nt2 ta nw out p1 p2 :
  ready s row i lo hi bd_id mm2s_ch nt1 nt2 ->
  0 <= ta -> ta + 4 * nw <= 2 ^ 20 -> rt_ctrl_chunk_words ta nw 0 = nw -> 0 < nw <= 4 -> len out = (hi - lo + 1) * nw ->
  allocates pick (live_blocks s) ((2 * nw + 8) * 4) p1 ->
  allocates pick ((p1, (2 * nw + 8) * 4) :: live_blocks s) ((hi - lo + 1) * (1 + nw) * 4) p2 ->
  exists s' rc vals,
    row_read s row ta nw out bd_id mm2s_ch s = (s', Ok (rc, vals)) /\
    (rc = XAIE_OK \/ rc = XAIE_ERR) /\ allocs s' = allocs s /\ live_blocks s' = live_blocks s /\
    (rc = XAIE_OK ->
       vals = concat ((fun c => load_words (mem_of (world s) (c, row)) ta nw) <$> range lo (hi + 1)) /\
       forall t, mem_of (world s') t = mem_of (world s) t).
Proof.
  intros R H1 H2 H3 H4 H5 A1 A2.
  destruct (row_read_run pick schedule targets dev effect answer_ prog tile_addr XAIE_INVALID_ARGS aie2ps MemTileRowStart MemTileNumRows
    nc s row i lo hi bd_id mm2s_ch nt1 nt2 ta nw out p1 p2 R H1 H2 H3 H4 H5 A1 A2) as (s' & rc & vals & ? & ? & ? & ? & ? & _).
  by exists s', rc, vals.
Qed.

(** C10. Writing a row: an acknowledged write of up to [2 ^ 20] words returns,
    with its buffer given back; and if it succeeds, then whatever the pace of
    the tiles, every tile of the row already holds the words, and nothing
    else has changed in any tile. *)
Theorem row_write_ack_correct s row i lo hi bd_id mm2s_ch nt1 nt2 ta data p1 :
  ready s row i lo hi bd_id mm2s_ch nt1 nt2 ->
  0 <= ta -> ta + 4 * len data <= 2 ^ 20 -> 0 < len data < 2 ^ 20 ->
  allocates pick (live_blocks s) ((token_off (len data) + (hi - lo + 1)) * 4) p1 ->
  exists s' r,
    row_write_ack s row ta data bd_id mm2s_ch s = (s', r) /\
    (r = Ok tt \/ r = Err (Code XAIE_ERR)) /\ allocs s' = allocs s /\ live_blocks s' = live_blocks s /\
    (r = Ok tt -> forall c r x, mem_of (world s') (c, r) x =
       if (r =? row) && (lo <=? c) && (c <=? hi) then store_words (mem_of (world s) (c, r)) ta data x else mem_of (world s) (c, r) x).
Proof.
  intros R H1 H2 H3 A1.
  destruct (row_write_run pick schedule targets dev effect answer_ prog tile_addr XAIE_INVALID_ARGS aie2ps MemTileRowStart MemTileNumRows
    nc s row i lo hi bd_id mm2s_ch nt1 nt2 ta data p1 R H1 H2 H3 A1) as (s' & r & ? & ? & ? & ? & Hm & _).
  exists s', r. split_and!; try done. intros E c r0 x. rewrite (Hm E).
  assert (((r0 =? row) && (lo <=? c) && (c <=? hi)) = bool_decide ((c, r0) ∈ row_tiles lo hi row)) as ->; [|by case_bool_decide].
  symmetry. case_bool_decide as Hc; rewrite elem_row_tiles in Hc; cbn in Hc; lia.
Qed.

(** C36. Both complete: when, in any 200000 consecutive moments, every tile of
    the row moves as often as it has accesses to do, a read returns [XAIE_OK]
    and so does a write. *)
Theorem row_ops_complete s row i lo hi bd_id mm2s_ch nt1 nt2 ta nw out p1 p2 data p3 :
  ready s row i lo hi bd_id mm2s_ch nt1 nt2 ->
  0 <= ta -> ta + 4 * nw <= 2 ^ 20 -> rt_ctrl_chunk_words ta nw 0 = nw -> 0 < nw <= 4 -> len out = (hi - lo + 1) * nw ->
  allocates pick (live_blocks s) ((2 * nw + 8) * 4) p1 ->
  allocates pick ((p1, (2 * nw + 8) * 4) :: live_blocks s) ((hi - lo + 1) * (1 + nw) * 4) p2 ->
  ta + 4 * len data <= 2 ^ 20 -> 0 < len data < 2 ^ 20 ->
  allocates pick (live_blocks s) ((token_off (len data) + (hi - lo + 1)) * 4) p3 ->
  (forall n t, t ∈ row_tiles lo hi row ->
     (len data + 6) / 4 <= Z.of_nat (moves_of t (concat (schedule <$> seq n (Z.to_nat 200000))))) ->
  (exists s' vals, row_read s row ta nw out bd_id mm2s_ch s = (s', Ok (XAIE_OK, vals))) /\
  (exists s', row_write_ack s row ta data bd_id mm2s_ch s = (s', Ok tt)).
Proof.
  intros R H1 H2 H3 H4 H5 A1 A2 H6 H7 A3 Hm. split.
  - destruct (row_read_run pick schedule targets dev effect answer_ prog tile_addr XAIE_INVALID_ARGS aie2ps MemTileRowStart MemTileNumRows
      nc s row i lo hi bd_id mm2s_ch nt1 nt2 ta nw out p1 p2 R H1 H2 H3 H4 H5 A1 A2) as (s' & rc & vals & E & _ & _ & _ & _ & Hf).
    exists s', vals. rewrite Hf in E; [done|]. intros n t Ht. specialize (Hm n t Ht). revert Hm.
    generalize (moves_of t (concat (schedule <$> seq n (Z.to_nat 200000)))) as k. intros k Hm. cbn [length app].
    Z.div_mod_to_equations; lia.
  - destruct (row_write_run pick schedule targets dev effect answer_ prog tile_addr XAIE_INVALID_ARGS aie2ps MemTileRowStart MemTileNumRows
      nc s row i lo hi bd_id mm2s_ch nt1 nt2 ta data p3 R H1 H6 H7 A3) as (s' & r & E & _ & _ & _ & _ & Hf).
    exists s'. rewrite Hf in E; [done|]. intros n t Ht. specialize (Hm n t Ht). revert Hm.
    generalize (moves_of t (concat (schedule <$> seq n (Z.to_nat 200000)))) as k. intros k Hm.
    rewrite length_app. unfold write_pre. rewrite length_write_accesses. cbn [length].
    pose proof (length_chunks4 (take (length data - 1) data)) as Lc. unfold len in *. rewrite length_take in Lc.
    Z.div_mod_to_equations; lia.
Qed.
End properties.

(** A device with one row of three tiles, which all move at every moment. *)
Module Example.

Definition pick (hp : list (Z * Z)) (n : Z) : Z := match hp with [] => 0x1000 | (p, m) :: _ => p + m + 64 end.
Definition tiles : list (Z * Z) := row_tiles 2 4 3.
Definition schedule (n : nat) : list (Z * Z) := tiles.
Definition targets (regs : Z -> Z) (sid : Z) : list (Z * Z) := if sid =? 8 then tiles else [].
Definition effect (op : backend_op) (m : Z -> Z) : Z -> Z := m.
Definition answer_ (op : backend_op) (m : Z -> Z) : Z * Z := (0, 0).
Definition prog (c : strm_call) : driver_call := Return 0.
Definition tile_addr (r c : Z) : Z := 0.
Definition fab0 : fabric :=
  Fab 2 true 0 1 (State 0 []) book0 [Chain 3 2 4] (replicate 16 0) (replicate 16 0) 0 false.
Definition mem0 (t : Z * Z) : tile_mem := fun a => 100000 * t.1 + a.
Definition world0 : array :=
  Array (Shim [] (0, 0) false (fun _ => (0, 0)) (fun _ => false) (fun _ => false) (fun _ => []) (fun _ => [])) mem0
    (fun _ => []) 0.
Definition s0 : send array := Send (St fab0 ret0 (fun _ => 0)) [] [] (-1) (fun _ => 0) world0.
Definition home : XAie_LocType * Z := (Loc 0 2, 1).

Abbreviation xaie := (array_call pick schedule targets home).
Abbreviation read := (__Runtime_ctrl_row_read xaie id id effect answer_ prog tile_addr 1 22 1 2 true []).
Abbreviation write := (__Runtime_ctrl_row_write_ack xaie id id effect answer_ prog tile_addr 1 22 1 2 true []).

Lemma ready0 : row_ready targets 1 effect answer_ prog tile_addr true s0 3 0 2 4 5 0 (net s0) (net s0).
Proof. by constructor. Qed.

Lemma fresh0 : forall n, 0 < n < 1000 -> allocates pick [] n 0x1000.
Proof. intros n Hn. split; [done|]. split_and!; [done|lia|lia|constructor]. Qed.

Lemma fresh1 : forall n m, 0 < n < 1000 -> 0 < m < 1000 -> allocates pick [(0x1000, n)] m (0x1000 + n + 64).
Proof. intros n m Hn Hm. split; [done|]. split_and!; [lia|lia|lia|]. constructor; [left; cbn; lia|constructor]. Qed.

Lemma moves0 n k t : t ∈ tiles -> Z.of_nat k <= Z.of_nat (moves_of t (concat (schedule <$> seq n k))).
Proof.
  intros Ht. revert n. induction k as [|k IH]; intros n; [done|]. cbn [seq fmap list_fmap concat]. rewrite moves_of_app.
  assert (1 <= moves_of t (schedule n))%nat.
  { unfold moves_of. destruct (filter _ _) eqn:E; [|cbn; lia].
    assert (t ∈ filter (fun u => u = t) (schedule n)) as Hf by (by apply list_elem_of_filter). rewrite E in Hf. by apply not_elem_of_nil in Hf. }
  specialize (IH (S n)). lia.
Qed.
End Example.

Lemma row_read_correct_witness :
  exists s' rc vals,
    Example.read 3 0x1008 2 (replicate 6 0) 5 0 Example.s0 = (s', Ok (rc, vals)) /\
    (rc = XAIE_OK \/ rc = XAIE_ERR) /\ allocs s' = [] /\ heap (shim (world s')) = [] /\
    (rc = XAIE_OK ->
       vals = concat ((fun c => load_words (Example.mem0 (c, 3)) 0x1008 2) <$> range 2 (4 + 1)) /\
       forall t, mem_of (world s') t = Example.mem0 t).
Proof.
  apply (row_read_correct Example.pick Example.schedule Example.targets 1 Example.effect Example.answer_ Example.prog Example.tile_addr
    22 true 1 2 [] Example.s0 3 0 2 4 5 0 (net Example.s0) (net Example.s0) 0x1008 2 (replicate 6 0) 0x1000 (0x1000 + 48 + 64));
    [apply Example.ready0|lia|lia|reflexivity|lia|reflexivity|apply Example.fresh0; lia|apply Example.fresh1; lia].
Defined.

Lemma row_write_ack_correct_witness :
  exists s' r,
    Example.write 3 0x1008 [7; 8; 9] 5 0 Example.s0 = (s', r) /\
    (r = Ok tt \/ r = Err (Code XAIE_ERR)) /\ allocs s' = [] /\ heap (shim (world s')) = [] /\
    (r = Ok tt -> forall c r x, mem_of (world s') (c, r) x =
       if (r =? 3) && (2 <=? c) && (c <=? 4) then store_words (Example.mem0 (c, r)) 0x1008 [7; 8; 9] x else Example.mem0 (c, r) x).
Proof.
  apply (row_write_ack_correct Example.pick Example.schedule Example.targets 1 Example.effect Example.answer_ Example.prog Example.tile_addr
    22 true 1 2 [] Example.s0 3 0 2 4 5 0 (net Example.s0) (net Example.s0) 0x1008 [7; 8; 9] 0x1000);
    [apply Example.ready0|lia|unfold len; cbn; lia|unfold len; cbn; lia|apply Example.fresh0; by split].
Defined.

Lemma row_ops_complete_witness :
  (exists s' vals, Example.read 3 0x1008 2 (replicate 6 0) 5 0 Example.s0 = (s', Ok (XAIE_OK, vals))) /\
  (exists s', Example.write 3 0x1008 [7; 8; 9] 5 0 Example.s0 = (s', Ok tt)).
Proof.
  apply (row_ops_complete Example.pick Example.schedule Example.targets 1 Example.effect Example.answer_ Example.prog Example.tile_addr
    22 true 1 2 [] Example.s0 3 0 2 4 5 0 (net Example.s0) (net Example.s0) 0x1008 2 (replicate 6 0) 0x1000 (0x1000 + 48 + 64) [7; 8; 9] 0x1000);
    [apply Example.ready0|lia|lia|reflexivity|lia|reflexivity|apply Example.fresh0; lia|apply Example.fresh1; lia
    |unfold len; cbn; lia|unfold len; cbn; lia|apply Example.fresh0; by split|].
  intros n t Ht. etransitivity; [|apply (Example.moves0 n (Z.to_nat 200000) t Ht)]. rewrite Z2Nat.id by lia. by vm_compute.
Defined.

(** ** What goes wrong *)

(** A transaction that writes one register of every tile of row 3, committed
    and pushed. *)
Definition push_transaction : stE (send array) fault unit :=
  let exported := (fun _ => Some [TxnWrite32 (2 * 2 ^ 25 + 3 * 2 ^ 20 + 0x2000) 77]) in
  __Runtime_control_start_transaction Example.xaie 3 ;;
  '(out, r) ← __Runtime_control_write_pkt_commit_transaction Example.xaie exported (fun _ _ => 0) 1 0 20 25 (replicate 16 0) 16;
  match r with
  | Ok n => __Runtime_control_push Example.xaie id id Example.effect Example.answer_ Example.prog Example.tile_addr 1 22 1 2 []
              (take (Z.to_nat n) out) 5 0 false false
  | Err e => throw e
  end.


(** A push with [block] polls for a token that it does not have. *)
Lemma blocking_push_null :
  (__Runtime_control_push Example.xaie id id Example.effect Example.answer_ Example.prog Example.tile_addr 1 22 1 2 []
     [1; 2] 5 0 true false Example.s0).2 = Err NullDeref.
Proof. by vm_compute. Qed.

(** A read of two accesses from a single tile: the second answer finds no
    descriptor, and the read succeeds with its words missing. *)
Lemma long_read_truncated :
  (__Runtime_ctrl_read_target (array_call Example.pick Example.schedule (fun _ _ => [(2, 3)]) Example.home) id id
     Example.effect Example.answer_ Example.prog Example.tile_addr 1 1 2 true [] 2 2 3 1 2 0x1008 4 (replicate 4 0) 5 0 1 Example.s0).2 =
  Ok [204104; 204108; 0; 0].
Proof. by vm_compute. Qed.

(** The response buffer is zeroed through the cache and not cleaned: a dirty
    line that is evicted after the answer landed overwrites it. *)
Lemma evicted_zero_spoils_answer :
  let '(m, _) := happen [] (CacheSync.Mem (fun _ => 0) (fun _ => None), []) [CpuWrite 0x1000 0; DmaWrite 0x1000 42; Evict 0x40] in
  view (do_calls m (__Runtime_sync_for_cpu 1 0x1000 4)) 0x1000 = 0.
Proof. by vm_compute. Qed.
