(* ===== verification/BufferBalance.v ===== *)
(** * Every buffer is freed

    Whatever the driver answers, a send frees the DMA buffers it allocates, once
    each, on every path.  The driver is instrumented to count, for each
    address, allocations less frees; [uses H m K] says that [m] starts with the
    buffers [H] in hand, ends with [K], and frees all of them when it returns an
    error code.  The rules follow the structure of the code. *)

From stdpp Require Import base list list_numbers numbers gmap.
From S2P Require Import Prelude.
From S2P Require Import CtrlpktEncode.
From S2P Require Import RuntimePkt.
From S2P Require Import CtrlpktFormat.
From S2P Require Import Resource.
From S2P Require Import ControlPlan.
From S2P Require Import Driver.
From S2P Require Import TraceRes.
From S2P Require Import ShimBatch.
From S2P Require Import CacheSync.
From S2P Require Import RowFabric.
From S2P Require Import RowSend.
From S2P Require Import RowDevice.
From S2P Require Import RowReadWrite.

Local Open Scope Z_scope.
Local Open Scope c_scope.

(** Buffers in hand, by address. *)
Definition zero : Z -> Z := fun _ => 0.
Definition one (p : Z) : Z -> Z := fun x => if x =? p then 1 else 0.
Definition held (p : Z) : Z -> Z := if p =? 0 then zero else one p.
Definition plus (f g : Z -> Z) : Z -> Z := fun x => f x + g x.

Section balance.
Context {W : Type} (xaie : dma_call -> (Z -> Z) -> (Z -> Z) -> W -> (Z -> Z) * W * (Z * Z)).
Context (MemGetVAddr MemGetDevAddr : Z -> Z).
Context (effect : backend_op -> (Z -> Z) -> Z -> Z) (answer_ : backend_op -> (Z -> Z) -> Z * Z).
Context (prog : strm_call -> driver_call) (tile_addr : Z -> Z -> Z).
Context (dev XAIE_INVALID_ARGS MemTileRowStart MemTileNumRows : Z) (aie2ps : bool) (nc : list nc_block).
Hypothesis dev_ok : dev <> 0.
Hypothesis vaddr_ok : forall m, m <> 0 -> MemGetVAddr m <> 0.

Definition tally (c : dma_call) (r : Z * Z) (b : Z -> Z) : Z -> Z :=
  match c with
  | MemAllocate _ => if r.2 =? 0 then b else plus b (one (MemGetVAddr r.2))
  | MemFreeVAddr p => fun x => b x - one p x
  | _ => b
  end.

(** The driver with its count. *)
Definition counted (c : dma_call) (regs m : Z -> Z) (w : W * (Z -> Z)) : (Z -> Z) * (W * (Z -> Z)) * (Z * Z) :=
  let '(m, w', r) := xaie c regs m w.1 in (m, (w', tally c r w.2), r).

Abbreviation M := (stE (send (W * (Z -> Z))) fault).
Abbreviation balance s := ((world s).2).

Definition uses {A} (H : Z -> Z) (m : M A) (K : A -> Z -> Z) : Prop := forall s,
  match m s with
  | (s', Ok a) => forall p, balance s' p = balance s p - H p + K a p
  | (s', Err (Code _)) => forall p, balance s' p = balance s p - H p
  | _ => True
  end.

(** Operations that leave the buffers alone; [steady] ones do not return error
    codes either. *)
Abbreviation neutral m := (uses zero m (fun _ => zero)).
Definition steady {A} (m : M A) : Prop := forall s,
  match m s with
  | (s', Ok _) => forall p, balance s' p = balance s p
  | (_, Err (Code _)) => False
  | _ => True
  end.
Definition frees (H : Z -> Z) (m : M unit) : Prop := forall s,
  exists s', m s = (s', Ok tt) /\ forall p, balance s' p = balance s p - H p.

(** ** Rules *)

Lemma uses_ret {A} (H : Z -> Z) (a : A) K : (forall p, H p = K a p) -> uses H (mret a) K.
Proof using. intros E s. cbn. intros p. rewrite E. lia. Qed.

Lemma uses_fail {A} (H : Z -> Z) rc (K : A -> Z -> Z) : (forall p, H p = 0) -> uses H (fail rc) K.
Proof using. intros E s. cbn. intros p. rewrite E. lia. Qed.

Lemma uses_bind {A B} H (m : M A) K1 (k : A -> M B) K2 :
  uses H m K1 -> (forall a, uses (K1 a) (k a) K2) -> uses H (m ≫= k) K2.
Proof using.
  intros Hm Hk s. specialize (Hm s). unfold mbind, stE_bind. destruct (m s) as [s1 [a|[]]]; [|done..].
  specialize (Hk a s1). destruct (k a s1) as [s2 [b|[]]]; [|..|done|done]; intros p; rewrite Hk, Hm; lia.
Qed.

Lemma uses_steady {A} H (m : M A) : steady m -> uses H m (fun _ => H).
Proof using.
  intros Hm s. specialize (Hm s). destruct (m s) as [s' [a|[]]]; [|done..]. intros p. rewrite Hm. lia.
Qed.

Lemma uses_frees H H' (m : M unit) : frees H m -> uses (plus H' H) m (fun _ => H').
Proof using. intros Hm s. destruct (Hm s) as (s' & -> & E). intros p. rewrite E. unfold plus. lia. Qed.

Lemma uses_ext {A} H H' (m : M A) K : (forall p, H p = H' p) -> uses H' m K -> uses H m K.
Proof using.
  intros E Hm s. specialize (Hm s). destruct (m s) as [s' [a|[]]]; try done; intros p; rewrite Hm, E; lia.
Qed.

Lemma uses_weaken {A} H (m : M A) K K' : (forall a p, K a p = K' a p) -> uses H m K -> uses H m K'.
Proof using.
  intros E Hm s. specialize (Hm s). destruct (m s) as [s' [a|[]]]; try done. intros p. rewrite Hm, E. lia.
Qed.

(** [on_fail] frees what is in hand when its operation fails. *)
Lemma uses_on_fail {A} H (m : M A) cl K : uses zero m K -> frees H cl -> uses H (on_fail m cl) (fun a => plus H (K a)).
Proof using.
  intros Hm Hc s. specialize (Hm s). unfold on_fail, zero, plus in *. destruct (m s) as [s' [a|[]]]; try done.
  - intros p. rewrite Hm. lia.
  - destruct (Hc s') as (s'' & -> & E). intros p. cbn. rewrite E, Hm. lia.
Qed.

Lemma frees_then H H' m m' : frees H m -> frees H' m' -> frees (plus H H') (m ;; m').
Proof using.
  intros Hm Hm' s. destruct (Hm s) as (s1 & E1 & B1). destruct (Hm' s1) as (s2 & E2 & B2).
  exists s2. split; [by rewrite (bind_Ok _ _ _ _ _ E1)|]. intros p. rewrite B2, B1. unfold plus. lia.
Qed.

Lemma steady_ret {A} (a : A) : steady (mret a). Proof using. done. Qed.
Lemma steady_null {A} : steady (throw NullDeref : M A). Proof using. done. Qed.
Lemma steady_fuel {A} : steady (throw OutOfFuel : M A). Proof using. done. Qed.
Lemma steady_gets {A} (f : send (W * (Z -> Z)) -> A) : steady (gets f). Proof using. done. Qed.
Lemma steady_modify f : (forall s, world (f s) = world s) -> steady (modify f).
Proof using. intros H s. cbn. by rewrite H. Qed.
Lemma steady_bind {A B} (m : M A) (k : A -> M B) : steady m -> (forall a, steady (k a)) -> steady (m ≫= k).
Proof using.
  intros Hm Hk s. specialize (Hm s). unfold mbind, stE_bind. destruct (m s) as [s1 [a|[]]]; [|done..].
  specialize (Hk a s1). destruct (k a s1) as [s2 [b|[]]]; [|done..]. intros p. by rewrite Hk, Hm.
Qed.
Lemma steady_forM {X} (xs : list X) (body : X -> M unit) : (forall x, steady (body x)) -> steady (forM xs body).
Proof using. intros H. induction xs; [done|]. apply steady_bind; [done|]. by intros _. Qed.
Lemma steady_poll {A R} n (body : A -> M (A + R)) : (forall a, steady (body a)) -> forall a, steady (poll n body a).
Proof using.
  intros H. induction n as [|n IH]; intros a; [done|]. cbn [poll]. apply steady_bind; [done|]. intros [a'|r]; [done|apply steady_ret].
Qed.

(** A call that is about no buffer. *)
Definition bufferless (c : dma_call) : bool := match c with MemAllocate _ | MemFreeVAddr _ => false | _ => true end.

Lemma steady_dma c : bufferless c = true -> steady (dma counted c).
Proof using.
  intros H s. unfold dma, counted. destruct (xaie _ _ _ _) as [[m w] r]. cbn. by destruct c.
Qed.

Lemma neutral_steady {A} (m : M A) : steady m -> neutral m.
Proof using. apply uses_steady. Qed.
Lemma neutral_bind {A B} (m : M A) (k : A -> M B) : neutral m -> (forall a, neutral (k a)) -> neutral (m ≫= k).
Proof using. apply uses_bind. Qed.
Lemma neutral_fail {A} rc : neutral (fail rc : M A).
Proof using. by apply uses_fail. Qed.
Lemma neutral_forM {X} (xs : list X) (body : X -> M unit) : (forall x, neutral (body x)) -> neutral (forM xs body).
Proof using. intros H. induction xs; [by apply uses_ret|]. apply neutral_bind; [done|]. by intros _. Qed.
Lemma neutral_net {A} (m : stE RowFabric.state Z A) : neutral (net_op m).
Proof using. intros s. unfold net_op. destruct (m (net s)) as [n [a|e]]; intros p; cbn; unfold zero; lia. Qed.
End balance.

Create HintDb buffers.
#[export] Hint Resolve steady_ret steady_null steady_fuel steady_gets steady_bind steady_forM steady_dma
  neutral_steady neutral_bind neutral_fail neutral_forM neutral_net : buffers.

(** Goes through the structure of an operation. *)
Ltac buffers :=
  repeat first
    [ solve [eauto 2 with buffers]
    | lazymatch goal with
      | |- forall _, _ => intro
      | |- steady (_ ≫= _) => apply steady_bind
      | |- steady (poll _ _ _) => apply steady_poll
      | |- steady (forM _ _) => apply steady_forM
      | |- steady (dma _ _) => apply steady_dma
      | |- steady (modify _) => apply steady_modify
      | |- uses zero (_ ≫= _) _ => apply neutral_bind
      | |- uses zero (forM _ _) _ => apply neutral_forM
      | |- uses zero (net_op _) _ => apply neutral_net
      | |- uses zero (fail _) _ => apply neutral_fail
      | |- context [if ?b then _ else _] => destruct b
      | |- context [match ?b with _ => _ end] => destruct b
      | |- uses zero (when _ _) _ => unfold when
      | |- uses zero (dma_ok _ _) _ => unfold dma_ok
      | |- uses zero _ _ => apply neutral_steady
      end ].

Section buffers.
Context {W : Type} (xaie : dma_call -> (Z -> Z) -> (Z -> Z) -> W -> (Z -> Z) * W * (Z * Z)).
Context (MemGetVAddr MemGetDevAddr : Z -> Z).
Context (effect : backend_op -> (Z -> Z) -> Z -> Z) (answer_ : backend_op -> (Z -> Z) -> Z * Z).
Context (prog : strm_call -> driver_call) (tile_addr : Z -> Z -> Z).
Context (dev XAIE_INVALID_ARGS MemTileRowStart MemTileNumRows : Z) (aie2ps : bool) (nc : list nc_block).
Hypothesis dev_ok : dev <> 0.
Hypothesis vaddr_ok : forall m, m <> 0 -> MemGetVAddr m <> 0.

Abbreviation drv := (counted xaie MemGetVAddr).
Abbreviation alloc := (__Runtime_alloc_buffer drv MemGetVAddr dev).
Abbreviation free := (__Runtime_free_buffer drv dev).

(** ** Allocating and freeing *)

Lemma uses_alloc n H : uses H (alloc n) (fun p => plus (held p) H).
Proof using dev_ok vaddr_ok.
  intros s. unfold __Runtime_alloc_buffer. replace (dev =? 0) with false by lia.
  unfold mbind, stE_bind, dma, counted. destruct (xaie _ _ _ _) as [[m w] r]. cbn [tally].
  unfold held, plus. destruct (r.2 =? 0) eqn:E; [by cbn; unfold zero; lia|]. cbn.
  apply Z.eqb_neq, vaddr_ok, Z.eqb_neq in E. rewrite E. destruct (_ <? _); cbn; lia.
Qed.

Lemma frees_free p : frees (held p) (free p).
Proof using dev_ok.
  intros s. unfold __Runtime_free_buffer, held. destruct (p =? 0) eqn:Hp.
  { exists s. split; [done|]. unfold zero. lia. }
  replace (dev =? 0) with false by lia.
  unfold dma_ig, mbind, stE_bind, dma, counted, modify. cbn. destruct (xaie _ _ _ _) as [[m w] r].
  eexists. split; [done|]. cbn. lia.
Qed.

Lemma frees_two p q : frees (plus (held p) (held q)) (free p ;; free q).
Proof using dev_ok. apply frees_then; apply frees_free. Qed.

(** Steps with buffers in hand. *)
Lemma uses_step {A B} H (m : stE (send (W * (Z -> Z))) fault A) (k : A -> stE (send (W * (Z -> Z))) fault B) K :
  steady m -> (forall a, uses H (k a) K) -> uses H (m ≫= k) K.
Proof using. intros Hm. apply uses_bind. by apply uses_steady. Qed.

Lemma uses_guard {A B} H (m : stE (send (W * (Z -> Z))) fault A) cl (k : A -> stE (send (W * (Z -> Z))) fault B) K :
  uses zero m (fun _ => zero) -> frees H cl -> (forall a, uses H (k a) K) -> uses H (on_fail m cl ≫= k) K.
Proof using.
  intros Hm Hc Hk. eapply uses_bind; [|exact Hk].
  eapply uses_weaken; [|eapply uses_ext; [|by apply uses_on_fail]]; unfold plus, zero; intros; lia.
Qed.

(** The last buffers, and an operation that does not mind them. *)
Lemma uses_finish {B} H cl (k : stE (send (W * (Z -> Z))) fault B) K :
  frees H cl -> uses zero k K -> uses H (cl ;; k) K.
Proof using.
  intros Hc Hk. eapply uses_bind; [|intros ?; exact Hk].
  eapply uses_ext; [|by apply (uses_frees H zero)]. unfold plus, zero. intros. lia.
Qed.

Lemma uses_free_both {B} p q (k : stE (send (W * (Z -> Z))) fault B) K :
  uses zero k K -> uses (plus (held p) (held q)) (free p ;; free q ;; k) K.
Proof using dev_ok.
  intros Hk. eapply uses_bind; [apply (uses_ext _ (plus (held q) (held p))); [intros; apply Z.add_comm|apply uses_frees, frees_free]|].
  intros ?. apply uses_finish; [apply frees_free|done].
Qed.

(** A failure that frees what is in hand. *)
Lemma uses_fail_free {B} H cl rc : frees H cl -> uses H (cl ;; fail rc : stE (send (W * (Z -> Z))) fault B) (fun _ => zero).
Proof using. intros. apply uses_finish; [done|]. by apply uses_fail. Qed.

(** A buffer that may not be had, as the first one and as another. *)
Lemma uses_with_more {B} H n (miss : stE (send (W * (Z -> Z))) fault B) (k : Z -> stE (send (W * (Z -> Z))) fault B) K :
  uses H miss K -> (forall p, uses (plus (held p) H) (k p) K) -> uses H (p ← alloc n; if p =? 0 then miss else k p) K.
Proof using dev_ok vaddr_ok.
  intros Hm Hk. eapply uses_bind; [apply uses_alloc|]. intros p. cbn beta. destruct (p =? 0) eqn:E; [|apply Hk].
  eapply uses_ext; [|apply Hm]. intros x. unfold plus, held. rewrite E. unfold zero. lia.
Qed.

Lemma uses_with_buffer {B} n rc (k : Z -> stE (send (W * (Z -> Z))) fault B) K :
  (forall p, uses (held p) (k p) K) -> uses zero (p ← alloc n; if p =? 0 then fail rc else k p) K.
Proof using dev_ok vaddr_ok.
  intros H. apply uses_with_more; [by apply uses_fail|]. intros p. eapply uses_ext; [|apply H].
  unfold plus, zero. intros. lia.
Qed.

(** ** The parts of a send *)

Lemma steady_sync_dev p n : steady (sync_for_dev drv dev nc p n).
Proof using. unfold sync_for_dev, dma_ig. buffers. Qed.
Lemma steady_sync_cpu p n : steady (sync_for_cpu drv dev p n).
Proof using. unfold sync_for_cpu, dma_ig. buffers. Qed.
Lemma steady_inputs : steady (dsync_step_inputs drv).
Proof using. unfold dsync_step_inputs, dma_ig. buffers. Qed.
Lemma steady_load p n : steady (load p n : stE (send (W * (Z -> Z))) fault _).
Proof using. apply steady_gets. Qed.
Lemma steady_store p ws : steady (store p ws : stE (send (W * (Z -> Z))) fault _).
Proof using. by apply steady_modify. Qed.
Lemma steady_out c v : bufferless c = true -> steady (out_value drv c v).
Proof using. intros. unfold out_value. buffers. Qed.
#[local] Hint Resolve steady_sync_dev steady_sync_cpu steady_inputs steady_load steady_store steady_out : buffers.

Lemma steady_ack_poll c : steady (__Runtime_ctrl_ack_poll drv dev c).
Proof using. unfold __Runtime_ctrl_ack_poll. buffers. Qed.
Lemma steady_return_poll ch n w p : steady (rt_ctrl_row_return_poll drv dev ch n w p).
Proof using. unfold rt_ctrl_row_return_poll. buffers. Qed.
Lemma steady_read_into p cap a b c n : steady (pktize_read_into p cap a b c n : stE (send (W * (Z -> Z))) fault _).
Proof using. unfold pktize_read_into. buffers. Qed.
Lemma steady_write_into p cap a b ws k : steady (pktize_write_into p cap a b ws k : stE (send (W * (Z -> Z))) fault _).
Proof using. unfold pktize_write_into. buffers. Qed.
Lemma steady_push_log c : steady (push_log drv MemTileRowStart MemTileNumRows c).
Proof using. unfold push_log, rt_ctrl_dump_path_ports, dma_ig. buffers. Qed.
#[local] Hint Resolve steady_ack_poll steady_return_poll steady_read_into steady_write_into steady_push_log : buffers.

Abbreviation neutral m := (uses zero m (fun _ => zero)).

Lemma neutral_ok c : bufferless c = true -> neutral (dma_ok drv c).
Proof using. intros. unfold dma_ok. buffers. Qed.
Lemma neutral_dev_addr p : neutral (dev_addr_of MemGetDevAddr p : stE (send (W * (Z -> Z))) fault _).
Proof using. unfold dev_addr_of. buffers. Qed.
#[local] Hint Resolve neutral_ok neutral_dev_addr : buffers.
Lemma neutral_write_bd t a n b : neutral (write_bd drv t a n b).
Proof using. unfold write_bd. buffers. Qed.
Lemma neutral_push_bd t ch d b : neutral (push_bd drv t ch d b).
Proof using. unfold push_bd. buffers. Qed.
Lemma neutral_tlast t ch : neutral (finish_on_tlast drv t ch).
Proof using. unfold finish_on_tlast. buffers. Qed.
#[local] Hint Resolve neutral_write_bd neutral_push_bd neutral_tlast : buffers.

Lemma neutral_push c p n block log :
  neutral (__Runtime_ctrl_push drv MemGetDevAddr dev MemTileRowStart MemTileNumRows c p n block log).
Proof using. unfold __Runtime_ctrl_push. buffers. Qed.
Lemma neutral_mm2s_wait a b : neutral (rt_ctrl_mm2s_wait drv a b).
Proof using. unfold rt_ctrl_mm2s_wait. buffers. Qed.
Lemma neutral_arm c : neutral (rt_tct_s2mm_arm drv MemGetDevAddr tile_addr c).
Proof using. unfold rt_tct_s2mm_arm, dma_ig. buffers. Qed.
Lemma neutral_route c pe : neutral (rt_ctrl_route_setup_col drv effect answer_ prog c pe).
Proof using. unfold rt_ctrl_route_setup_col, strm, dma_ig. buffers. Qed.
Lemma neutral_return c pe : neutral (rt_ctrl_col_return_route drv effect answer_ prog aie2ps c pe).
Proof using. unfold rt_ctrl_col_return_route, strm, dma_ig. buffers. Qed.
Lemma neutral_shim_return ch b n w p :
  neutral (rt_ctrl_row_shim_return drv MemGetDevAddr effect answer_ prog tile_addr XAIE_INVALID_ARGS aie2ps ch b n w p).
Proof using. unfold rt_ctrl_row_shim_return. buffers. Qed.
#[local] Hint Resolve neutral_push neutral_mm2s_wait neutral_arm neutral_shim_return frees_free frees_two : buffers.

(** ** The sends *)

(** The first buffer of a send is in hand. *)
Ltac in_hand :=
  repeat first
    [ solve [eauto 2 with buffers]
    | lazymatch goal with
      | |- uses _ (on_fail _ _ ≫= _) _ => apply uses_guard; [buffers|apply frees_free || apply frees_two|intro]
      | |- uses _ (_ ;; fail _) _ => apply uses_fail_free; apply frees_free
      | |- uses (plus (held ?p) (held ?q)) (__Runtime_free_buffer _ _ ?p ;; __Runtime_free_buffer _ _ ?q ;; _) _ =>
          apply uses_free_both; buffers
      | |- uses (held ?p) (__Runtime_free_buffer _ _ ?p ;; _) _ => apply uses_finish; [apply frees_free|buffers]
      | |- uses _ (__Runtime_free_buffer _ _ ?p) _ => eapply uses_ext; [|apply uses_frees, frees_free]; done
      | |- uses _ (_ ≫= _) _ => apply uses_step; [solve [buffers]|intro]
      | |- uses _ (if ?b then _ else _) _ => destruct b
      | |- uses _ (let '(_, _) := ?b in _) _ => destruct b
      end ].

Lemma bcast_balanced ta ws bd ch log :
  neutral (__Runtime_ctrl_row_broadcast_write drv MemGetVAddr MemGetDevAddr effect answer_ prog dev XAIE_INVALID_ARGS
             MemTileRowStart MemTileNumRows nc ta ws bd ch log).
Proof using dev_ok vaddr_ok.
  unfold __Runtime_ctrl_row_broadcast_write. apply neutral_bind; [buffers|]. intros f.
  destruct (_ || _); [apply neutral_fail|]. destruct (last _); [|apply neutral_fail].
  apply neutral_bind; [apply neutral_net|]. intros _. apply uses_with_buffer. intros p. in_hand.
Qed.

Lemma class_balanced cls row ta ws bd ch log :
  neutral (rt_ctrl_row_class_write drv MemGetVAddr MemGetDevAddr effect answer_ prog dev XAIE_INVALID_ARGS
             MemTileRowStart MemTileNumRows nc cls row ta ws bd ch log).
Proof using dev_ok vaddr_ok.
  unfold rt_ctrl_row_class_write. apply neutral_bind; [buffers|]. intros f.
  destruct (_ || _); [apply neutral_fail|]. destruct (rt_ctrl_row_index f row) as [[rowidx chain]|]; [|apply neutral_fail].
  apply neutral_bind; [apply neutral_net|]. intros _. apply uses_with_buffer. intros p. in_hand.
Qed.

Lemma control_push_balanced out bd ch block log :
  neutral (__Runtime_control_push drv MemGetVAddr MemGetDevAddr effect answer_ prog tile_addr dev XAIE_INVALID_ARGS
             MemTileRowStart MemTileNumRows nc out bd ch block log).
Proof using dev_ok vaddr_ok.
  unfold __Runtime_control_push. apply neutral_bind; [buffers|]. intros f. apply neutral_bind; [buffers|]. intros row.
  destruct (_ || _); [apply neutral_fail|]. destruct (rt_ctrl_push_dest f row) as [[[dc dr] sid]|]; [|apply neutral_fail].
  apply neutral_bind; [apply neutral_net|]. intros _. apply neutral_bind; [apply neutral_net|]. intros _.
  apply uses_with_buffer. intros p. in_hand.
Qed.

Lemma write_ack_balanced row ta ws bd ch :
  neutral (__Runtime_ctrl_row_write_ack drv MemGetVAddr MemGetDevAddr effect answer_ prog tile_addr dev XAIE_INVALID_ARGS
             MemTileRowStart MemTileNumRows aie2ps nc row ta ws bd ch).
Proof using dev_ok vaddr_ok.
  unfold __Runtime_ctrl_row_write_ack. apply neutral_bind; [buffers|]. intros f.
  destruct (_ || _); [apply neutral_fail|]. destruct (rt_ctrl_row_index f row) as [[rowidx chain]|]; [|apply neutral_fail].
  apply neutral_bind; [apply neutral_net|]. intros _. apply uses_with_buffer. intros p. in_hand.
Qed.

Lemma row_read_balanced row ta n out bd ch :
  neutral (__Runtime_ctrl_row_read drv MemGetVAddr MemGetDevAddr effect answer_ prog tile_addr dev XAIE_INVALID_ARGS
             MemTileRowStart MemTileNumRows aie2ps nc row ta n out bd ch).
Proof using dev_ok vaddr_ok.
  unfold __Runtime_ctrl_row_read. apply neutral_bind; [buffers|]. intros f.
  destruct (_ || _); [apply neutral_fail|]. destruct (rt_ctrl_row_index f row) as [[rowidx chain]|]; [|apply neutral_fail].
  apply neutral_bind; [apply neutral_net|]. intros _. apply uses_with_buffer. intros p.
  apply uses_step; [buffers|]. intros [pw per]. destruct (_ || _); [in_hand|].
  apply uses_step; [buffers|]. intros _. apply uses_with_more; [in_hand|]. intros token. in_hand.
Qed.

Abbreviation setup := (__Runtime_ctrl_setup_routing drv MemGetVAddr MemGetDevAddr effect answer_ prog tile_addr dev aie2ps).

Lemma setup_buffer c pe : uses zero (setup c pe) (fun inst => held (i_token inst)).
Proof using dev_ok vaddr_ok.
  unfold __Runtime_ctrl_setup_routing. destruct (negb _); [by apply uses_fail|].
  eapply uses_bind; [apply neutral_route|]. intros ?. eapply uses_bind; [apply neutral_return|]. intros ?.
  apply uses_with_buffer. intros p. apply uses_step; [buffers|]. intros ?.
  apply uses_guard; [buffers|apply frees_free|]. intros ?. by apply uses_ret.
Qed.

Lemma push_target_balanced sc dc dr sid p n bd ch s2mm :
  neutral (__Runtime_ctrl_push_target drv MemGetVAddr MemGetDevAddr effect answer_ prog tile_addr dev
             MemTileRowStart MemTileNumRows aie2ps sc dc dr sid p n bd ch s2mm).
Proof using dev_ok vaddr_ok.
  unfold __Runtime_ctrl_push_target. eapply uses_bind; [apply setup_buffer|]. intros inst. cbn beta. in_hand.
Qed.

Lemma read_target_balanced sc dc dr a b ta n out bd ch s2mm :
  neutral (__Runtime_ctrl_read_target drv MemGetVAddr MemGetDevAddr effect answer_ prog tile_addr dev
             MemTileRowStart MemTileNumRows aie2ps nc sc dc dr a b ta n out bd ch s2mm).
Proof using dev_ok vaddr_ok.
  unfold __Runtime_ctrl_read_target. destruct (n =? 0); [by apply uses_ret|].
  apply uses_with_buffer. intros p. apply uses_step; [buffers|]. intros [pw resp]. destruct (pw =? 0); [in_hand|].
  apply uses_step; [buffers|]. intros ?. eapply uses_bind.
  { eapply uses_ext; [|apply uses_on_fail; [apply setup_buffer|apply frees_free]]. done. }
  intros inst. cbn beta. apply (uses_ext _ (plus (held (i_token inst)) (held p))); [intros; apply Z.add_comm|].
  in_hand. destruct (rt_ctrl_read_extract _ _ _ _); [in_hand|done].
Qed.
End buffers.

(** An operation after which, unless it stops at a fault, every address has
    the buffers it had. *)
Definition balanced {W A} (m : stE (send (W * (Z -> Z))) fault A) : Prop := forall s,
  match m s with
  | (s', Ok _) | (s', Err (Code _)) => forall p, (world s').2 p = (world s).2 p
  | _ => True
  end.

Lemma uses_balanced {W A} (m : stE (send (W * (Z -> Z))) fault A) : uses zero m (fun _ => zero) -> balanced m.
Proof. intros H s. specialize (H s). destruct (m s) as [s' [a|[]]]; try done; intros p; rewrite H; unfold zero; lia. Qed.

(** C11. Buffers: with the driver counting, for every address, the buffers
    allocated there less those freed, each send over the row fabric and over a
    single column leaves every count as it found it, however the driver
    answers: it frees what it allocates, once, on success and whatever
    error code it returns. *)
Theorem send_buffers_balanced {W : Type} (xaie : dma_call -> (Z -> Z) -> (Z -> Z) -> W -> (Z -> Z) * W * (Z * Z))
    (MemGetVAddr MemGetDevAddr : Z -> Z) effect answer_ prog tile_addr
    (dev XAIE_INVALID_ARGS MemTileRowStart MemTileNumRows : Z) (aie2ps : bool) (nc : list nc_block) :
  dev <> 0 -> (forall m, m <> 0 -> MemGetVAddr m <> 0) ->
  let drv := counted xaie MemGetVAddr in
  (forall ta data bd_id mm2s_ch log,
     balanced (__Runtime_ctrl_row_broadcast_write drv MemGetVAddr MemGetDevAddr effect answer_ prog dev XAIE_INVALID_ARGS
       MemTileRowStart MemTileNumRows nc ta data bd_id mm2s_ch log)) /\
  (forall cls row ta data bd_id mm2s_ch log,
     balanced (rt_ctrl_row_class_write drv MemGetVAddr MemGetDevAddr effect answer_ prog dev XAIE_INVALID_ARGS
       MemTileRowStart MemTileNumRows nc cls row ta data bd_id mm2s_ch log)) /\
  (forall out bd_id mm2s_ch block log,
     balanced (__Runtime_control_push drv MemGetVAddr MemGetDevAddr effect answer_ prog tile_addr dev XAIE_INVALID_ARGS
       MemTileRowStart MemTileNumRows nc out bd_id mm2s_ch block log)) /\
  (forall row ta data bd_id mm2s_ch,
     balanced (__Runtime_ctrl_row_write_ack drv MemGetVAddr MemGetDevAddr effect answer_ prog tile_addr dev XAIE_INVALID_ARGS
       MemTileRowStart MemTileNumRows aie2ps nc row ta data bd_id mm2s_ch)) /\
  (forall row ta nwords out_vals bd_id mm2s_ch,
     balanced (__Runtime_ctrl_row_read drv MemGetVAddr MemGetDevAddr effect answer_ prog tile_addr dev XAIE_INVALID_ARGS
       MemTileRowStart MemTileNumRows aie2ps nc row ta nwords out_vals bd_id mm2s_ch)) /\
  (forall shim_col dest_col dest_row sid buf nwords bd_id mm2s_ch s2mm_ch,
     balanced (__Runtime_ctrl_push_target drv MemGetVAddr MemGetDevAddr effect answer_ prog tile_addr dev
       MemTileRowStart MemTileNumRows aie2ps shim_col dest_col dest_row sid buf nwords bd_id mm2s_ch s2mm_ch)) /\
  (forall shim_col dest_col dest_row req_sid ret_sid ta nwords out bd_id mm2s_ch s2mm_ch,
     balanced (__Runtime_ctrl_read_target drv MemGetVAddr MemGetDevAddr effect answer_ prog tile_addr dev
       MemTileRowStart MemTileNumRows aie2ps nc shim_col dest_col dest_row req_sid ret_sid ta nwords out bd_id mm2s_ch
       s2mm_ch)).
Proof.
  intros Hd Hv drv. split_and!; intros; apply uses_balanced.
  - by apply bcast_balanced.
  - by apply class_balanced.
  - by apply control_push_balanced.
  - by apply write_ack_balanced.
  - by apply row_read_balanced.
  - by apply push_target_balanced.
  - by apply read_target_balanced.
Qed.

Lemma send_buffers_balanced_witness :
  balanced (__Runtime_ctrl_row_read (counted Example.xaie id) id id Example.effect Example.answer_ Example.prog
    Example.tile_addr 1 22 1 2 true [] 3 0x100 2 (replicate 6 0) 4 0).
Proof.
  apply (send_buffers_balanced Example.xaie id id Example.effect Example.answer_ Example.prog Example.tile_addr
           1 22 1 2 true []); [lia|]. intros m Hm. exact Hm.
Defined.
