(* ===== verification/KernelLoad.v ===== *)
(** * Loading kernels over the control plane ([src/src/mlir/runtime/aie_runtime.c], 6895-6900, 7065-7955)

    A kernel's ELF file becomes control packets that reach every tile of the
    fabric at once: resets, the loadable segments, and a last write that every
    tile acknowledges.  The packets are made when they are needed, one access
    at a time ([rt_ctrl_elf_fill]) or by the encoder
    ([rt_ctrl_load_elf_packed]), or they come ready-made in a blob
    ([rt_ctrl_load_elf_aot]), which is sent without its program memory when
    the tiles hold it already ([s_elf_warm]).

    The device's properties ([rt_ctrl_cpe_dev] copies them from the driver's
    tables), the heap and the driver are third-party.  [rt_sb_ack_wait] has the
    state of [ShimBatch] and is an argument here; the ahead-of-time return
    routes are absent ([g_aot] is [NULL]); profiling, statistics, the check
    build [AIEHLC_CTRLPKT_AOT_VERIFY], the simulator's writes and the console
    are left out, the register reads of the timeout dump are not. *)

From stdpp Require Import base list list_numbers numbers gmap.
From S2P Require Import Prelude.
From S2P Require Import CtrlpktEncode.
From S2P Require Import RuntimePkt.
From S2P Require Import CtrlpktTool.
From S2P Require Import Resource.
From S2P Require Import ControlPlan.
From S2P Require Import Driver.
From S2P Require Import TraceRes.
From S2P Require Import ShimBatch.
From S2P Require Import CacheSync.
From S2P Require Import RowFabric.
From S2P Require Import RowSend.

Local Open Scope Z_scope.
Local Open Scope c_scope.

Definition RT_RES_CTRL_ACK_BD_LO : Z := 12.
Definition RT_CTRL_ELF_CHUNK_WORDS : Z := 4.
Definition RT_CTRL_ELF_SKIP_ADDR : Z := 0xFFFFFFFF.
Definition RT_CTRL_ELF_ACK_WAVE : Z := 3.
Definition RT_CTRL_ELF_PKT_STRIDE : Z := 8.
Definition RT_CTRL_ELF_RET_BD : Z := RT_RES_CTRL_ACK_BD_LO.
Definition RT_CTRL_ELF_NBD : Z := 4.
Definition RT_CTRL_ELF_QDEPTH : Z := 3.
Definition MAX_KERNEL_TILES : Z := 32.

(** ** Making the packets *)

Section fill.
Context (d : rt_cpe_dev) (XAIE_INVALID_ELF : Z).

(** Where a segment at [paddr] goes on a tile; [Err] is the return code. *)
Definition rt_ctrl_elf_target (col row paddr : Z) : res Z Z :=
  if paddr <? prog_mem_size d then Ok (prog_mem_host_off d +u32 paddr)
  else if (paddr <? data_mem_addr d) || (data_mem_addr d +u32 (data_mem_size d *u32 4) <=? paddr) then Err XAIE_INVALID_ELF
  else
    let dir := u8 (paddr / data_mem_size d) in
    let parity := if z2b (checkerboard d) then u8 (row & 1) else 1 in
    let at_ (tcol trow : Z) : res Z Z :=
      if negb (tcol =? col) || negb (trow =? row) then Ok RT_CTRL_ELF_SKIP_ADDR
      else Ok (paddr & (data_mem_size d -u32 1)) in
    if dir =? 4 then at_ col (u8 (row - 1))
    else if (dir =? 5) && z2b parity then at_ (u8 (col - 1)) row
    else if dir =? 6 then at_ col (u8 (row + 1))
    else if (dir =? 7) && negb (z2b parity) then at_ (u8 (col + 1)) row
    else if (dir <? 4) || (7 <? dir) then Err XAIE_INVALID_ELF
    else at_ col row.

(** A program header that is loaded: its tile address. *)
Definition seg_place (elf : list Z) (col row i : Z) : res Z (option Z) :=
  if negb (p_type elf i =? PT_LOAD) || (p_filesz elf i =? 0) then Ok None
  else match rt_ctrl_elf_target col row (p_paddr elf i) with
       | Err rc => Err rc
       | Ok ta => Ok (if ta =? RT_CTRL_ELF_SKIP_ADDR then None else Some ta)
       end.

Definition rt_ctrl_elf_count_pkts (elf : list Z) (col row : Z) : Z :=
  foldl (fun npkt i =>
    match seg_place elf col row i with
    | Ok (Some _) => npkt +u32 ((p_filesz elf i +u32 (4 *u32 RT_CTRL_ELF_CHUNK_WORDS) -u32 1) / (4 *u32 RT_CTRL_ELF_CHUNK_WORDS))
    | _ => npkt
    end) 0 (range 0 (e_phnum elf)).

Definition rt_ctrl_elf_pkt_len (acc : list Z) : Z := 2 +u32 (((rd acc 1 >> 20) & 0x3) +u32 1).

(** One packet.  The state is the buffer, [payload_words] and [acc], and the
    last word written so far. *)
Definition rt_ctrl_elf_put (max_acc : Z) (packed : bool) (ta : Z) (words : list Z) (nwords : Z) : stE enc stop unit := fun e =>
  if max_acc <=? enc_acc e then (e, Err (RetCode XAIE_ERR))
  else
    let capacity := max_acc *u32 RT_CTRL_ELF_PKT_STRIDE in
    let slot_off := if packed then enc_pw e else enc_acc e *u32 RT_CTRL_ELF_PKT_STRIDE in
    let slot_cap := if packed then capacity -u32 slot_off else RT_CTRL_ELF_PKT_STRIDE in
    match Runtime_ctrl_pktize_write (enc_pkt e) slot_off slot_cap RT_RES_ID_BCAST ta (Some words) nwords false 0 with
    | None => (e, Err NoFuel)
    | Some (pkt, got, _) =>
      if got =? 0 then (Enc pkt (enc_pw e) (enc_acc e) (enc_last_addr e) (enc_last_val e), Err (RetCode XAIE_ERR))
      else (Enc pkt (enc_pw e +u32 got) (enc_acc e +u32 1) (enc_last_addr e) (enc_last_val e), Ok tt)
    end.

Definition rt_ctrl_elf_core_reset (max_acc : Z) (packed : bool) : stE enc stop unit :=
  rt_ctrl_elf_put max_acc packed (core_ctrl_off d) [core_rst_mask d] 1 ;;
  forM (range 0 2) (fun v =>
    forM (range 0 (2 *u32 dma_nch d)) (fun c =>
      rt_ctrl_elf_put max_acc packed (dma_ch_ctrl_off d +u32 (c *u32 dma_ch_stride d))
        [if z2b v then 0 else dma_ch_rst_mask d] 1)) ;;
  rt_ctrl_elf_put max_acc packed (core_ctrl_off d) [0] 1.

Definition rt_ctrl_odd_parity_bit (v : Z) : Z := cpe_parity v <<u32 31.

(** A chunk's words: its bytes, then zeros. *)
Definition chunk_words_of (bytes : list Z) (nwords : Z) : list Z :=
  map (fun k => ld32 (bytes ++ replicate 16 0) (4 * k)) (seqZ 0 nwords).

(** A segment, packed: [last] is the address and the value of the last word
    of the chunk just made. *)
Fixpoint fill_packed_loop (fuel : nat) (elf : list Z) (src filesz ta capacity off : Z) (last : option (Z * Z)) : stE enc stop (option (Z * Z)) :=
  fun e =>
  match fuel with
  | O => (e, Err NoFuel)
  | S fuel =>
    if off <? filesz then
      let chunk := if (filesz -u32 off) <? 16 then filesz -u32 off else 16 in
      let nwords := (chunk +u32 3) / 4 in
      if (enc_pw e +u32 2 +u32 nwords) >? capacity then (e, Err (RetCode XAIE_ERR))
      else
        let words := chunk_words_of (slice elf (src + off) chunk) nwords in
        let ctrl := (((nwords -u32 1) & 0x3) <<u32 20) |' ((ta +u32 off) & 0xFFFFF) in
        let pkt := wr (enc_pkt e) (enc_pw e) (RT_RES_ID_BCAST |' rt_ctrl_odd_parity_bit RT_RES_ID_BCAST) in
        let pkt := wr pkt (enc_pw e +u32 1) (ctrl |' rt_ctrl_odd_parity_bit ctrl) in
        let pkt := blit pkt (enc_pw e +u32 2) words in
        fill_packed_loop fuel elf src filesz ta capacity (off +u32 16)
          (Some (ta +u32 off +u32 ((nwords -u32 1) *u32 4), rd words (nwords - 1)))
          (Enc pkt (enc_pw e +u32 (2 +u32 nwords)) (enc_acc e +u32 1) (enc_last_addr e) (enc_last_val e))
    else (e, Ok last)
  end.

(** [payload_words] is written back at the end only. *)
Definition rt_ctrl_elf_fill_seg_packed (elf : list Z) (src filesz ta capacity : Z) : stE enc stop unit := fun e =>
  match fill_packed_loop (S (Z.to_nat filesz)) elf src filesz ta capacity 0 None e with
  | (e', Ok (Some (a, v))) => (Enc (enc_pkt e') (enc_pw e') (enc_acc e') a v, Ok tt)
  | (e', Ok None) => (e', Ok tt)
  | (e', Err x) => (Enc (enc_pkt e') (enc_pw e) (enc_acc e') (enc_last_addr e) (enc_last_val e), Err x)
  end.

(** A segment, one slot for each access. *)
Fixpoint fill_slots_loop (fuel : nat) (elf : list Z) (src filesz ta max_acc : Z) (packed : bool) (byte_off : Z) : stE enc stop unit :=
  match fuel with
  | O => throw NoFuel
  | S fuel =>
    if byte_off <? filesz then
      let chunk := if (filesz -u32 byte_off) >? 16 then 16 else filesz -u32 byte_off in
      let nwords := (chunk +u32 3) / 4 in
      let words := chunk_words_of (slice elf (src + byte_off) chunk) 4 in
      rt_ctrl_elf_put max_acc packed (ta +u32 byte_off) words nwords ;;
      modify (fun e => Enc (enc_pkt e) (enc_pw e) (enc_acc e) (ta +u32 byte_off +u32 ((nwords -u32 1) *u32 4)) (rd words (nwords - 1))) ;;
      fill_slots_loop fuel elf src filesz ta max_acc packed (byte_off +u32 chunk)
    else mret tt
  end.

(** The withheld return routes that every tile gets. *)
Definition rt_ctrl_elf_ret_config (ret : option fabric) (max_acc : Z) (packed : bool) : stE enc stop unit :=
  match ret with
  | None => mret tt
  | Some f =>
    when (ret_bcast_pending f)
      (forM (range 0 (ret_bcast_n f)) (fun k =>
         rt_ctrl_elf_put max_acc packed (rd (ret_bcast_off f) k) [rd (ret_bcast_val f) k] 1))
  end.

Definition rt_ctrl_elf_fill (ret : option fabric) (elf : list Z) (col row max_acc : Z) (packed : bool) : stE enc stop unit :=
  rt_ctrl_elf_ret_config ret max_acc packed ;;
  rt_ctrl_elf_core_reset max_acc packed ;;
  forM (range 0 (e_phnum elf)) (fun i =>
    match seg_place elf col row i with
    | Err rc => throw (RetCode rc)
    | Ok None => mret tt
    | Ok (Some ta) =>
      if packed then rt_ctrl_elf_fill_seg_packed elf (p_offset elf i) (p_filesz elf i) ta (max_acc *u32 RT_CTRL_ELF_PKT_STRIDE)
      else fill_slots_loop (S (Z.to_nat (p_filesz elf i))) elf (p_offset elf i) (p_filesz elf i) ta max_acc packed 0
    end).

(** ** The warm body *)

(** The walk over a body's accesses: those outside the program memory are
    kept, and the last one.  The result is where the walk ended. *)
Fixpoint warm_walk (fuel : nat) (body : list Z) (words i : Z) (out : list Z) : option (Z * list Z) :=
  match fuel with
  | O => None
  | S fuel =>
    if i +u32 2 <? words then
      let ctrl := rd body (i +u32 1) in
      let len_ := 2 +u32 ((ctrl >> 20) & 0x3) +u32 1 in
      if words <? i +u32 len_ then Some (i, out)
      else
        let addr := ctrl & 0xFFFFF in
        let last := i +u32 len_ =? words in
        let keep := last || (addr <? prog_mem_host_off d) || (prog_mem_host_off d +u32 prog_mem_size d <=? addr) in
        warm_walk fuel body words (i +u32 len_) (if keep then out ++ slice body i len_ else out)
    else Some (i, out)
  end.
End fill.

(** ** The state *)

(** [s_elf_warm]; [w_body] is [None] for [NULL]. *)
Record elf_warm := Warm {
  w_blob : Z; w_fab : Z; w_dev : Z; w_gen : Z; w_seq : Z; w_ok : bool; w_body : option (list Z) }.

(** What the sends use, [s_elf_warm] and its switch, [g_elf_load_seq],
    [g_partition_gen], [g_ctrl_high_throughput_ready], the active blob and ELF
    file, [s_kernel_tiles] with [s_kernel_group_loaded] and [s_kernel_ntiles],
    and the heap's blocks of words. *)
Record kernels (W : Type) := Kernels {
  sends : send W; warm : elf_warm; warm_enabled : bool; load_seq : Z; part_gen : Z; ht_ready : bool;
  pkt_blob : Z; pkt_bytes : Z; kernel_elf : option (list Z);
  k_tiles : list XAie_LocType; k_loaded : bool; k_ntiles : Z; blocks : gmap Z (list Z) }.
Arguments Kernels {W} sends warm warm_enabled load_seq part_gen ht_ready pkt_blob pkt_bytes kernel_elf k_tiles k_loaded k_ntiles blocks.
Arguments sends {W} k.
Arguments warm {W} k.
Arguments warm_enabled {W} k.
Arguments load_seq {W} k.
Arguments part_gen {W} k.
Arguments ht_ready {W} k.
Arguments pkt_blob {W} k.
Arguments pkt_bytes {W} k.
Arguments kernel_elf {W} k.
Arguments k_tiles {W} k.
Arguments k_loaded {W} k.
Arguments k_ntiles {W} k.
Arguments blocks {W} k.

(** [struct_kernel_group] and [struct_event]. *)
Record struct_kernel_group := Group_ { kg_tiles : list XAie_LocType; kg_num_tiles : Z }.
Record struct_event := Event_ { ev_tiles : list XAie_LocType; ev_num_tiles : Z; ev_timeout_us : Z }.

(** An operation with its return code as a value: [inr] is the code. *)
Definition returned {S A} (m : stE S fault A) : stE S fault (A + Z) := fun s =>
  match m s with
  | (s', Ok a) => (s', Ok (inl a))
  | (s', Err (Code rc)) => (s', Ok (inr rc))
  | (s', Err x) => (s', Err x)
  end.

Section load.
Context {W : Type}.
(** As in [RowSend]; the device's properties, the generation that was built
    for, the control word that enables a core; the fabric's address; the
    heap ([0] is [NULL]; the block's first contents); the shim batch's wait. *)
Context (xaie : dma_call -> (Z -> Z) -> (Z -> Z) -> W -> (Z -> Z) * W * (Z * Z)).
Context (MemGetVAddr MemGetDevAddr : Z -> Z).
Context (effect : backend_op -> (Z -> Z) -> Z -> Z) (answer_ : backend_op -> (Z -> Z) -> Z * Z).
Context (prog : strm_call -> driver_call) (tile_addr : Z -> Z -> Z).
Context (dev XAIE_INVALID_ARGS XAIE_INVALID_ELF MemTileRowStart MemTileNumRows : Z) (aie2ps : bool) (nc : list nc_block).
Context (cpe : rt_cpe_dev) (AIE_GEN core_en_mask fab_ptr : Z).
Context (malloc : kernels W -> Z -> Z * list Z) (rt_sb_ack_wait : stE (kernels W) fault Z).

Abbreviation S_ := (stE (send W) fault).
Abbreviation K := (stE (kernels W) fault).
Abbreviation alloc := (__Runtime_alloc_buffer xaie MemGetVAddr dev).
Abbreviation free := (__Runtime_free_buffer xaie dev).
Abbreviation push := (__Runtime_ctrl_push xaie MemGetDevAddr dev MemTileRowStart MemTileNumRows).
Abbreviation shim_return := (rt_ctrl_row_shim_return xaie MemGetDevAddr effect answer_ prog tile_addr XAIE_INVALID_ARGS aie2ps).
Abbreviation return_poll := (rt_ctrl_row_return_poll xaie dev).
Abbreviation sync_dev := (sync_for_dev xaie dev nc).
Abbreviation entry := (rt_ctrl_row_shim_entry effect answer_ prog).

(** ** Sending them *)

Definition last_row (f : fabric) : row_chain := default (Chain 0 0 0) (last (f_rows f)).

(** The instance of a broadcast, acknowledged on [s2mm_ch]. *)
Definition bcast_inst (f : fabric) (bd_id mm2s_ch s2mm_ch token resp_words : Z) : CtrlInstance :=
  Inst (f_shim_col f) (c_lo (last_row f)) (c_row (last_row f)) RT_RES_ID_BCAST bd_id mm2s_ch s2mm_ch token resp_words.

Definition rt_ctrl_bcast_push (pkt nwords bd_id mm2s_ch : Z) : S_ unit :=
  if nwords =? 0 then mret tt
  else
    net_op (entry mm2s_ch) ;;
    f ← gets (fun s => fab (net s));
    sync_dev pkt (nwords * 4) ;;
    push (bcast_inst f bd_id mm2s_ch 0 0 0) pkt nwords false false ;;
    rt_ctrl_mm2s_wait xaie (f_shim_col f) mm2s_ch.

(** [wave_idx] counts the waves; the first one is armed already. *)
Fixpoint ack_drain_loop (fuel : nat) (token remaining wave_idx : Z) : S_ unit :=
  match fuel with
  | O => throw OutOfFuel
  | S fuel =>
    if 0 <? remaining then
      f ← gets (fun s => fab (net s));
      let wave := if remaining >? RT_CTRL_ELF_ACK_WAVE then RT_CTRL_ELF_ACK_WAVE else remaining in
      when (0 <? wave_idx) (shim_return (f_resp_s2mm_ch f) RT_CTRL_ELF_RET_BD wave 1 token) ;;
      pending ← return_poll (f_resp_s2mm_ch f) wave 1 token;
      if negb (pending =? 0) then fail XAIE_ERR
      else ack_drain_loop fuel token (remaining - wave) (wave_idx + 1)
    else mret tt
  end.

Definition rt_ctrl_elf_ack_drain (token nacks : Z) : S_ unit := ack_drain_loop (S (Z.to_nat nacks)) token nacks 0.

(** The program-memory words that the dump reads of each row's ends. *)
Definition rt_ctrl_elf_timeout_dump : S_ unit :=
  f ← gets (fun s => fab (net s));
  forM (f_rows f) (fun r =>
    forM (if c_hi r =? c_lo r then [c_lo r] else [c_lo r; c_hi r]) (fun col =>
      forM (range 0 12) (fun k => dma_ig xaie (Read32_ (tile_addr (c_row r) col +u64 (0x20000 + 4 * k)))))).

Definition rt_ctrl_elf_dma (ready : bool) (pkt nacc payload_words ack ack_words token nacks bd_id mm2s_ch : Z) : S_ unit :=
  net_op (entry mm2s_ch) ;;
  f ← gets (fun s => fab (net s));
  let wave := if nacks >? RT_CTRL_ELF_ACK_WAVE then RT_CTRL_ELF_ACK_WAVE else nacks in
  let inst := fun bd => bcast_inst f bd mm2s_ch (f_resp_s2mm_ch f) token wave in
  let dump_on_fail := fun m => on_fail m rt_ctrl_elf_timeout_dump in
  (if ready then push (inst bd_id) pkt payload_words false false
   else
     forM (range 0 nacc) (fun i =>
       let slot := pkt + 4 * (i * RT_CTRL_ELF_PKT_STRIDE) in
       dump_on_fail (rt_ctrl_mm2s_wait_below xaie (f_shim_col f) mm2s_ch RT_CTRL_ELF_QDEPTH) ;;
       acc ← load slot 2;
       push (inst (bd_id + i mod RT_CTRL_ELF_NBD)) slot (rt_ctrl_elf_pkt_len acc) false false)) ;;
  dump_on_fail (rt_ctrl_mm2s_wait xaie (f_shim_col f) mm2s_ch) ;;
  shim_return (f_resp_s2mm_ch f) RT_CTRL_ELF_RET_BD wave 1 token ;;
  let sid := u8 ((ACR_CLASS_WHOLE_ROW <<u32 2) |' (u32 (len (f_rows f) - 1) & 0x3)) in
  push (Inst (f_shim_col f) (c_lo (last_row f)) (c_row (last_row f)) sid bd_id mm2s_ch (f_resp_s2mm_ch f) token wave)
    ack ack_words false false ;;
  rt_ctrl_mm2s_wait xaie (f_shim_col f) mm2s_ch ;;
  rt_ctrl_elf_ack_drain token nacks.

(** One descriptor receives all the answers. *)
Definition rt_ctrl_elf_ret_arm (token nresp : Z) : S_ unit :=
  f ← gets (fun s => fab (net s));
  let shim := Loc 0 (f_shim_col f) in
  let ch := u8 (f_resp_s2mm_ch f) in
  net_op (rt_ctrl_row_shim_return_route effect answer_ prog tile_addr aie2ps (f_resp_s2mm_ch f)) ;;
  dev_addr ← dev_addr_of MemGetDevAddr token;
  dma_ok xaie (DmaChannelDescInit shim) ;;
  dma_ok xaie DmaChannelSetFoTMode_DISABLED ;;
  dma_ok xaie (DmaWriteChannel shim ch DMA_S2MM) ;;
  write_bd xaie shim dev_addr (nresp *u32 4) RT_CTRL_ELF_RET_BD ;;
  push_bd xaie shim ch DMA_S2MM RT_CTRL_ELF_RET_BD ;;
  dma_ok xaie (DmaChannelEnable shim ch DMA_S2MM).

Definition rt_ctrl_elf_dma_packed (pkt payload_words token nresp bd_id mm2s_ch : Z) : S_ unit :=
  net_op (entry mm2s_ch) ;;
  rt_ctrl_elf_ret_arm token nresp ;;
  f ← gets (fun s => fab (net s));
  push (bcast_inst f bd_id mm2s_ch (f_resp_s2mm_ch f) token nresp) pkt payload_words false false ;;
  pending ← return_poll (f_resp_s2mm_ch f) 1 nresp token;
  if negb (pending =? 0) then rt_ctrl_elf_timeout_dump ;; fail XAIE_ERR
  else rt_ctrl_mm2s_wait xaie (f_shim_col f) mm2s_ch.

(** Making packets in a buffer of [n] words. *)
Definition fill_into (pkt n : Z) (m : stE enc stop unit) : S_ enc :=
  buf ← load pkt n;
  let '(e, r) := m (enc_init buf) in
  store pkt (enc_pkt e) ;;
  match r with
  | Ok _ => mret e
  | Err (RetCode rc) => fail rc
  | Err NoFuel => throw OutOfFuel
  end.

(** The encoder's part of a buffer; a failure is [XAIE_ERR]. *)
Definition encode_into (elf : list Z) (col row pkt n : Z) : S_ Z :=
  buf ← load pkt n;
  let '(e, r) := rt_cpe_encode_body cpe elf col row RT_RES_ID_BCAST true n (enc_init buf) in
  store pkt (enc_pkt e) ;;
  match r with
  | Ok (body_words, _) => mret body_words
  | Err (RetCode _) => fail XAIE_ERR
  | Err NoFuel => throw OutOfFuel
  end.

Definition clear_pending : S_ unit :=
  modify (fun s => let f := fab (net s) in
    set_net (set_fab (set_bcast (ret_bcast_off f) (ret_bcast_val f) (ret_bcast_n f) false f) (net s)) s).

Definition round4 (n : Z) : Z := u32 (u32 (n + 3) & Z.lnot 3).

Definition rt_ctrl_load_elf_packed (elf : list Z) (col row npkt_cap bd_id mm2s_ch : Z) : S_ unit :=
  f ← gets (fun s => fab (net s));
  let nresp := rt_ctrl_fabric_tiles f in
  let npkt_cap := if ret_bcast_pending f then npkt_cap +u32 ret_bcast_n f else npkt_cap in
  let data_cap := npkt_cap *u32 RT_CTRL_ELF_PKT_STRIDE +u32 3 in
  let token_off := round4 data_cap in
  pkt ← alloc (u32 (token_off + nresp) * 4);
  if pkt =? 0 then fail XAIE_ERR
  else
    let token := pkt + 4 * token_off in
    on_fail
      (e ← fill_into pkt token_off (rt_ctrl_elf_ret_config (Some f) npkt_cap true);
       let pw := enc_pw e in
       body ← encode_into elf col row (pkt + 4 * pw) (token_off -u32 pw);
       sync_dev pkt (u32 (token_off + nresp) * 4) ;;
       clear_pending ;;
       rt_ctrl_elf_dma_packed pkt (pw +u32 body) token nresp bd_id mm2s_ch)
      (free pkt) ;;
    free pkt.

(** ** Ready-made packets *)

(** An operation of the sends. *)
Definition sdo {A} (m : S_ A) : K A := fun k =>
  let '(s, r) := m (sends k) in
  (Kernels s (warm k) (warm_enabled k) (load_seq k) (part_gen k) (ht_ready k) (pkt_blob k) (pkt_bytes k) (kernel_elf k)
     (k_tiles k) (k_loaded k) (k_ntiles k) (blocks k), r).
Definition kfail {A} (rc : Z) : K A := throw (Code rc).

Definition set_warm (w : elf_warm) (k : kernels W) : kernels W :=
  Kernels (sends k) w (warm_enabled k) (load_seq k) (part_gen k) (ht_ready k) (pkt_blob k) (pkt_bytes k) (kernel_elf k)
    (k_tiles k) (k_loaded k) (k_ntiles k) (blocks k).
Definition bump_seq (k : kernels W) : kernels W :=
  Kernels (sends k) (warm k) (warm_enabled k) (load_seq k +u32 1) (part_gen k) (ht_ready k) (pkt_blob k) (pkt_bytes k) (kernel_elf k)
    (k_tiles k) (k_loaded k) (k_ntiles k) (blocks k).

Definition __Runtime_ctrl_elf_warm_enable (on : bool) : K unit :=
  modify (fun k => Kernels (sends k) (warm k) on (load_seq k) (part_gen k) (ht_ready k) (pkt_blob k) (pkt_bytes k) (kernel_elf k)
    (k_tiles k) (k_loaded k) (k_ntiles k) (blocks k)).
Definition __Runtime_set_kernel_elf (elf : option (list Z)) : K unit :=
  modify (fun k => Kernels (sends k) (warm k) (warm_enabled k) (load_seq k) (part_gen k) (ht_ready k) (pkt_blob k) (pkt_bytes k) elf
    (k_tiles k) (k_loaded k) (k_ntiles k) (blocks k)).
Definition __Runtime_ctrl_kernel_pkt_set (blob bytes : Z) : K unit :=
  modify (fun k => Kernels (sends k) (warm k) (warm_enabled k) (load_seq k) (part_gen k) (ht_ready k) blob bytes (kernel_elf k)
    (k_tiles k) (k_loaded k) (k_ntiles k) (blocks k)).

Definition rt_elf_warm_usable (blob : Z) (k : kernels W) : bool :=
  let w := warm k in
  warm_enabled k && w_ok w && bool_decide (is_Some (w_body w)) && (w_blob w =? blob) && (w_fab w =? fab_ptr) &&
  (w_dev w =? dev) && (w_gen w =? part_gen k) && (w_seq w =? load_seq k).

Definition set_body (b : option (list Z)) (w : elf_warm) : elf_warm :=
  Warm (w_blob w) (w_fab w) (w_dev w) (w_gen w) (w_seq w) (w_ok w) b.
Definition set_ok (ok : bool) (w : elf_warm) : elf_warm :=
  Warm (w_blob w) (w_fab w) (w_dev w) (w_gen w) (w_seq w) ok (w_body w).

Definition rt_elf_warm_build (body : list Z) (words : Z) : K bool :=
  p ← gets (fun k => (malloc k words).1);
  if p =? 0 then modify (fun k => set_warm (set_body None (warm k)) k) ;; mret false
  else
    match warm_walk cpe (S (Z.to_nat words)) body words 0 [] with
    | None => throw OutOfFuel
    | Some (i, out) =>
      if negb (i =? words) then modify (fun k => set_warm (set_body None (warm k)) k) ;; mret false
      else modify (fun k => set_warm (set_body (Some out) (warm k)) k) ;; mret true
    end.

(** The words of a blob's header. *)
Definition blob_hdr (b : list Z) : rt_cpe_blob_hdr :=
  BlobHdr (rd b 0) (rd b 1) (rd b 2) (rd b 3) (rd b 4) (rd b 5) (rd b 6) (rd b 7).
Definition hdr_words (h : rt_cpe_blob_hdr) : list Z :=
  [bh_magic h; bh_version h; bh_aie_gen h; bh_fingerprint h; bh_stream_id h; bh_nresp h; bh_body_words h; bh_enc_tile h].

(** Whether a blob is for this fabric and this tile. *)
Definition blob_ok (h : rt_cpe_blob_hdr) (nresp col row bytes : Z) : bool :=
  (bh_magic h =? RT_CPE_MAGIC) && (bh_version h =? RT_CPE_VERSION) &&
  (bh_fingerprint h =? rt_cpe_fingerprint cpe (bh_stream_id h)) && (bh_stream_id h =? RT_RES_ID_BCAST) && (bh_nresp h =? nresp) &&
  (negb (z2b (checkerboard cpe)) || (bh_enc_tile h =? ((col <<u32 16) |' row))) &&
  (32 + bh_body_words h * 4 <=? bytes).

(** The send of a body. *)
Definition aot_send (body : list Z) (bd_id mm2s_ch : Z) : S_ unit :=
  f ← gets (fun s => fab (net s));
  let nresp := rt_ctrl_fabric_tiles f in
  let ret_cap := if ret_bcast_pending f then ret_bcast_n f else 0 in
  let data_cap := ret_cap *u32 RT_CTRL_ELF_PKT_STRIDE +u32 len body +u32 3 in
  let token_off := round4 data_cap in
  pkt ← alloc (u32 (token_off + nresp) * 4);
  if pkt =? 0 then fail XAIE_ERR
  else
    let token := pkt + 4 * token_off in
    on_fail
      (e ← fill_into pkt token_off (rt_ctrl_elf_ret_config (Some f) (ret_cap +u32 1) true);
       store (pkt + 4 * enc_pw e) body ;;
       sync_dev pkt (u32 (token_off + nresp) * 4) ;;
       clear_pending ;;
       rt_ctrl_elf_dma_packed pkt (enc_pw e +u32 len body) token nresp bd_id mm2s_ch)
      (free pkt) ;;
    free pkt.

Definition rt_ctrl_load_elf_aot (col row bd_id mm2s_ch : Z) : K unit :=
  k ← getS;
  let blob := pkt_blob k in
  if (blob =? 0) || (pkt_bytes k <? 32) then kfail XAIE_INVALID_ARGS
  else match blocks k !! blob with
  | None => throw NullDeref
  | Some b =>
    let hdr := blob_hdr b in
    if negb (blob_ok hdr (rt_ctrl_fabric_tiles (fab (net (sends k)))) col row (pkt_bytes k)) then kfail XAIE_INVALID_ARGS
    else
      let full_words := bh_body_words hdr in
      let full_body := slice b 8 full_words in
      let body := if rt_elf_warm_usable blob k then default [] (w_body (warm k)) else full_body in
      modify (fun k => set_warm (set_ok false (warm k)) k) ;;
      sdo (aot_send body bd_id mm2s_ch) ;;
      same ← gets (fun k : kernels W => w_blob (warm k) =? blob);
      fresh ← (if same : bool then mret true else rt_elf_warm_build full_body full_words);
      when fresh (modify (fun k => set_warm (Warm blob fab_ptr dev (part_gen k) (load_seq k) true (w_body (warm k))) k))
  end.

(** The blob's address and its bytes, [0] for [NULL]. *)
Definition __Runtime_ctrl_kernel_pkt_build (elf : list Z) : K (Z * Z) :=
  f ← gets (fun k => fab (net (sends k)));
  match f_rows f with
  | [] => mret (0, 0)
  | r :: _ =>
    if dev =? 0 then mret (0, 0)
    else
      let col := c_lo r in let row := c_row r in
      let cap := (rt_cpe_count_pkts cpe elf col row +u32 rt_cpe_reset_accesses cpe +u32 1) *u32 (2 + RT_CPE_CHUNK_WORDS) in
      '(p, junk) ← gets (fun k : kernels W => malloc k (8 + cap));
      if p =? 0 then mret (0, 0)
      else
        match rt_cpe_encode_body cpe elf col row RT_RES_ID_BCAST true cap (enc_init (slice junk 8 cap)) with
        | (_, Err NoFuel) => throw OutOfFuel
        | (_, Err (RetCode _)) => mret (0, 0)
        | (e, Ok (words, _)) =>
          let hdr := BlobHdr RT_CPE_MAGIC RT_CPE_VERSION AIE_GEN (rt_cpe_fingerprint cpe RT_RES_ID_BCAST) RT_RES_ID_BCAST
                       (rt_ctrl_fabric_tiles f) words ((col <<u32 16) |' row) in
          modify (fun k => Kernels (sends k) (warm k) (warm_enabled k) (load_seq k) (part_gen k) (ht_ready k) (pkt_blob k) (pkt_bytes k)
            (kernel_elf k) (k_tiles k) (k_loaded k) (k_ntiles k) (<[p := hdr_words hdr ++ enc_pkt e]> (blocks k))) ;;
          mret (p, u32 (32 + words * 4))
        end
  end.

(** ** Loading and launching *)

(** The packets of a load, one slot for each access; with what is pushed. *)
Definition load_elf_slots (elf : list Z) (col row npkt_cap bd_id mm2s_ch : Z) : S_ unit :=
  f ← gets (fun s => fab (net s));
  let last := last_row f in
  let nacks := c_hi last - c_lo last + 1 in
  let wave := if nacks >? RT_CTRL_ELF_ACK_WAVE then RT_CTRL_ELF_ACK_WAVE else nacks in
  let data_cap := npkt_cap *u32 RT_CTRL_ELF_PKT_STRIDE in
  let ack_off := round4 data_cap in
  let token_off := ack_off +u32 4 in
  pkt ← alloc (u32 (token_off + u32 (u32 wave * 4)) * 4);
  if pkt =? 0 then fail XAIE_ERR
  else
    let ack := pkt + 4 * ack_off in
    on_fail
      (buf ← load pkt data_cap;
       let '(e, r) := rt_ctrl_elf_fill cpe XAIE_INVALID_ELF None elf col row npkt_cap false (enc_init buf) in
       store pkt (enc_pkt e) ;;
       let done := match r with Ok _ => true | Err _ => false end in
       let out := if done then e else enc_init [] in
       let sid := u8 ((ACR_CLASS_WHOLE_ROW <<u32 2) |' (u32 (len (f_rows f) - 1) & 0x3)) in
       '(ack_words, _) ← pktize_write_into ack 4 sid (enc_last_addr out) [enc_last_val out] true;
       match r with
       | Err (RetCode rc) => fail rc
       | Err NoFuel => throw OutOfFuel
       | Ok _ =>
         if (0 <? enc_acc e) && (0 <? enc_pw e) && (0 <? ack_words) then
           sync_dev pkt (u32 (ack_off + ack_words) * 4) ;;
           rt_ctrl_elf_dma false pkt (enc_acc e) (enc_pw e) ack ack_words (pkt + 4 * token_off) nacks bd_id mm2s_ch
         else fail XAIE_ERR
       end)
      (free pkt) ;;
    free pkt.

(** Making and sending the packets. *)
Definition load_elf_jit (elf : list Z) (col row bd_id mm2s_ch : Z) : K unit :=
  modify bump_seq ;;
  let npkt_cap := rt_ctrl_elf_count_pkts cpe XAIE_INVALID_ELF elf col row in
  if npkt_cap =? 0 then mret tt
  else
    let npkt_cap := npkt_cap +u32 rt_cpe_reset_accesses cpe in
    ready ← gets ht_ready;
    if ready : bool then sdo (rt_ctrl_load_elf_packed elf col row npkt_cap bd_id mm2s_ch)
    else sdo (load_elf_slots elf col row npkt_cap bd_id mm2s_ch).

Definition rt_ctrl_load_elf (elf : list Z) (bd_id mm2s_ch : Z) : K unit :=
  k ← getS;
  match f_rows (fab (net (sends k))) with
  | [] => kfail XAIE_INVALID_ARGS
  | r :: _ =>
    if dev =? 0 then kfail XAIE_INVALID_ARGS
    else if ht_ready k && negb (pkt_blob k =? 0) then
      arc ← returned (rt_ctrl_load_elf_aot (c_lo r) (c_row r) bd_id mm2s_ch);
      match arc with
      | inl _ => mret tt
      | inr rc => if negb (rc =? XAIE_INVALID_ARGS) then kfail rc else load_elf_jit elf (c_lo r) (c_row r) bd_id mm2s_ch
      end
    else load_elf_jit elf (c_lo r) (c_row r) bd_id mm2s_ch
  end.

Definition rt_ctrl_kernel_state_write (value bd_id mm2s_ch : Z) : S_ unit :=
  __Runtime_ctrl_row_broadcast_write xaie MemGetVAddr MemGetDevAddr effect answer_ prog dev XAIE_INVALID_ARGS
    MemTileRowStart MemTileNumRows nc (core_ctrl_off cpe) [value] bd_id mm2s_ch false.

(** The tiles are those of the fabric: as many, and each one on a chain. *)
Definition rt_ctrl_kernel_tiles_match (f : fabric) (tiles : list XAie_LocType) : bool :=
  (foldl (fun n r => n + (c_hi r - c_lo r) + 1) 0 (f_rows f) =? len tiles) &&
  forallb (fun t => existsb (fun r => (loc_row t =? c_row r) && (c_lo r <=? loc_col t) && (loc_col t <=? c_hi r)) (f_rows f)) tiles.

Definition set_group (tiles : list XAie_LocType) (k : kernels W) : kernels W :=
  Kernels (sends k) (warm k) (warm_enabled k) (load_seq k) (part_gen k) (ht_ready k) (pkt_blob k) (pkt_bytes k) (kernel_elf k)
    (tiles ++ list.drop (length tiles) (k_tiles k)) (k_loaded k) (k_ntiles k) (blocks k).
Definition set_loaded (n : Z) (k : kernels W) : kernels W :=
  Kernels (sends k) (warm k) (warm_enabled k) (load_seq k) (part_gen k) (ht_ready k) (pkt_blob k) (pkt_bytes k) (kernel_elf k)
    (k_tiles k) true n (blocks k).

Definition rt_ctrl_load_kernel_group_nt (tiles : list XAie_LocType) (bd_id mm2s_ch : Z) : K struct_kernel_group :=
  k ← (getS : K (kernels W));
  let kg := fun n => gets (fun k : kernels W => Group_ (k_tiles k) n) in
  match kernel_elf k with
  | None => kg 0
  | Some elf =>
    if (dev =? 0) || (len tiles <=? 0) || (MAX_KERNEL_TILES <? len tiles) ||
       negb (rt_ctrl_kernel_tiles_match (fab (net (sends k))) tiles) then kg 0
    else
      modify (set_group tiles) ;;
      rt_sb_ack_wait ;;
      rc ← returned (rt_ctrl_load_elf elf bd_id mm2s_ch);
      match rc with
      | inl _ => modify (set_loaded (len tiles)) ;; kg (len tiles)
      | inr _ => kg 0
      end
  end.

(** The wrappers pass the first [n] of their tiles. *)
Definition __Runtime_load_kernel_group_4t_ctrl (t : list XAie_LocType) (n bd_id mm2s_ch : Z) : K struct_kernel_group :=
  rt_ctrl_load_kernel_group_nt (take (Z.to_nat n) t) bd_id mm2s_ch.
Definition __Runtime_load_kernel_group_8t_ctrl := __Runtime_load_kernel_group_4t_ctrl.
Definition __Runtime_load_kernel_group_16t_ctrl := __Runtime_load_kernel_group_4t_ctrl.

(** The event's number of tiles is 0 when the launch failed. *)
Definition __Runtime_launch_kernel_group_ctrl (routing : stE RowFabric.state Z unit) (kg : struct_kernel_group) (bd_id mm2s_ch : Z) : S_ struct_event :=
  f ← gets (fun s => fab (net s));
  let evt := fun n => Event_ (kg_tiles kg) n 100000 in
  if (dev =? 0) || (kg_num_tiles kg =? 0) ||
     negb (rt_ctrl_kernel_tiles_match f (take (Z.to_nat (kg_num_tiles kg)) (kg_tiles kg))) then mret (evt 0)
  else
    rc ← returned (rt_ctrl_kernel_state_write core_en_mask bd_id mm2s_ch);
    returned (net_op (__Runtime_ctrl_plan_release effect answer_ prog routing mm2s_ch)) ;;
    mret (evt match rc with inl _ => kg_num_tiles kg | inr _ => 0 end).
End load.
