(* ===== verification/KernelLoadProps.v ===== *)
(** * Theorems on loading kernels

    On the device of [RowDevice], a packed load reaches every tile of the
    fabric and no other: each tile runs the body, and the load ends when all of
    them have acknowledged.  The lemmas on a load's phases are shared with
    [KernelWarm]. *)

From stdpp Require Import base list list_numbers numbers gmap.
From S2P Require Import Prelude.
From S2P Require Import CtrlpktEncode.
From S2P Require Import RuntimePkt.
From S2P Require Import CtrlpktFormat.
From S2P Require Import CtrlpktWrite.
From S2P Require Import CtrlpktRead.
From S2P Require Import CtrlpktBody.
From S2P Require Import CtrlpktTool.
From S2P Require Import Resource.
From S2P Require Import ControlPlan.
From S2P Require Import Driver.
From S2P Require Import TraceRes.
From S2P Require Import ShimBatch.
From S2P Require Import CacheSync.
From S2P Require Import RowFabric.
From S2P Require Import RowFabricProps.
From S2P Require Import RowSend.
From S2P Require Import RowDevice.
From S2P Require Import RowSendProps.
From S2P Require Import RowReadWrite.
From S2P Require Import KernelLoad.

Local Open Scope Z_scope.
Local Open Scope c_scope.

(** With nothing withheld, the return leg leaves the fabric alone. *)
Lemma return_route_fab effect answer_ prog tile_addr aie2ps f ch :
  ret_bcast_pending f = false ->
  keeps (fun s => fab s = f) (rt_ctrl_row_shim_return_route effect answer_ prog tile_addr aie2ps ch).
Proof.
  intros Hp. unfold rt_ctrl_row_shim_return_route. apply keeps_bind.
  - intros s Hs. unfold rt_ctrl_ret_flush_mmio. erewrite bind_Ok by reflexivity. by rewrite Hs, Hp.
  - intros _. apply keeps_bind; [apply keeps_gets|]. intros g.
    assert (forall c, keeps (fun s => fab s = f) (RowFabric.ok (RowFabric.drive effect answer_ c))) as H.
    { intros c. apply keeps_bind; [by apply keeps_drive|]. intros rc. apply keeps_if; [apply keeps_ret|apply keeps_throw]. }
    apply keeps_bind; [apply H|]. intros _. apply H.
Qed.

(** ** A packed send *)

Section packed.
Context (pick : list (Z * Z) -> Z -> Z) (schedule : nat -> list (Z * Z)).
Context (targets : (Z -> Z) -> Z -> list (Z * Z)) (dev : Z).
Context (effect : backend_op -> (Z -> Z) -> Z -> Z) (answer_ : backend_op -> (Z -> Z) -> Z * Z).
Context (prog : strm_call -> driver_call) (tile_addr : Z -> Z -> Z) (aie2ps : bool).
Context (MemTileRowStart MemTileNumRows : Z).
Context (M0 : Z * Z -> tile_mem) (wk0 : Z * Z -> list access) (q0 : list rt_dsync_rng) (tr : Z).
Hypothesis idle : forall t, wk0 t = [].
Hypothesis dev_ok : dev <> 0.
Context (col s2mm_ch mm2s_ch bd_id : Z) (T : list (Z * Z)) (pre : list access) (a : access) (tok pkt : Z).
Context (nt0 nt1 nt2 : RowFabric.state) (al : list AllocEntry).

Abbreviation home := (Loc 0 col, u8 s2mm_ch).
Abbreviation xaie := (array_call pick schedule targets home).
Abbreviation mk' := (mk M0 wk0 q0 tr).
Abbreviation does' := (does pick M0 wk0 q0 tr).
Abbreviation accs := (pre ++ [a]).
Abbreviation packets := (concat (map access_words accs)).
Abbreviation request := (request_ok targets false (run_at T tok 1) col RT_RES_ID_BCAST T pre a tok 1 pkt nt2 al).
Abbreviation live' := (live schedule M0 false (run_at T tok 1) col s2mm_ch T pre a tok 1).
Abbreviation kept' := (kept col s2mm_ch).

(** The legs of the shim, and where the answers go. *)
Record legs_ok : Prop := {
  lg_col : f_shim_col (fab nt0) = col;
  lg_s2mm : f_resp_s2mm_ch (fab nt0) = s2mm_ch;
  lg_entry : rt_ctrl_row_shim_entry effect answer_ prog mm2s_ch nt0 = (nt1, Ok tt);
  lg_return : rt_ctrl_row_shim_return_route effect answer_ prog tile_addr aie2ps s2mm_ch nt1 = (nt2, Ok tt);
  lg_flushed : ret_bcast_pending (fab nt0) = false;
  lg_tok : exists b, __vaddr_to_mem_offset tok al = Some (b, tok - b) /\ 0 <= tok < 2 ^ 64;
  lg_len : 0 < len T < 2 ^ 30 }.

Lemma entry_keeps_fab : legs_ok -> fab nt1 = fab nt0.
Proof using.
  intros L. pose proof (entry_fab effect answer_ prog (fab nt0) mm2s_ch nt0 eq_refl) as H. by rewrite (lg_entry L) in H.
Qed.

Lemma return_keeps_fab : legs_ok -> fab nt2 = fab nt0.
Proof using.
  intros L. pose proof (return_route_fab effect answer_ prog tile_addr aie2ps (fab nt0) s2mm_ch (lg_flushed L) nt1 (entry_keeps_fab L)) as H.
  by rewrite (lg_return L) in H.
Qed.

Lemma ret_arm_ok (m : Z -> Z) sh n :
  legs_ok -> s2mm sh home = [] ->
  exists n' sh', rt_ctrl_elf_ret_arm xaie id effect answer_ prog tile_addr aie2ps tok (len T) (mk' nt1 al m sh n) =
      (mk' nt2 al m sh' n', Ok tt) /\
    s2mm sh' home = run_at T tok 1 0 /\ on_tlast sh' home = false /\ receives sh' home = true /\ heap sh' = heap sh /\ mm2s sh' = mm2s sh.
Proof using idle.
  intros L Hq. pose proof (entry_keeps_fab L) as Hf. destruct L. destruct lg_tok0 as (b & Eb & Hb).
  unfold rt_ctrl_elf_ret_arm. erewrite bind_Ok by reflexivity. cbn [mk net]. rewrite Hf, lg_col0, lg_s2mm0.
  erewrite bind_Ok by (unfold net_op; cbn [mk net]; rewrite lg_return0; reflexivity).
  set (cs := [DmaChannelDescInit (Loc 0 col); DmaChannelSetFoTMode_DISABLED; DmaWriteChannel (Loc 0 col) (u8 s2mm_ch) DMA_S2MM] ++
             bd_calls (Loc 0 col) tok (len T * 4) RT_CTRL_ELF_RET_BD ++
             [push_call (Loc 0 col) s2mm_ch DMA_S2MM RT_CTRL_ELF_RET_BD; DmaChannelEnable (Loc 0 col) (u8 s2mm_ch) DMA_S2MM]).
  assert (does' al (dev_addr_of id tok ≫= fun dev_addr =>
      dma_ok xaie (DmaChannelDescInit (Loc 0 col)) ;;
      dma_ok xaie DmaChannelSetFoTMode_DISABLED ;;
      dma_ok xaie (DmaWriteChannel (Loc 0 col) (u8 s2mm_ch) DMA_S2MM) ;;
      write_bd xaie (Loc 0 col) dev_addr (len T *u32 4) RT_CTRL_ELF_RET_BD ;;
      push_bd xaie (Loc 0 col) (u8 s2mm_ch) DMA_S2MM RT_CTRL_ELF_RET_BD ;;
      dma_ok xaie (DmaChannelEnable (Loc 0 col) (u8 s2mm_ch) DMA_S2MM)) ([] ++ cs) tt) as D.
  { eapply does_bind; [eapply does_dev_addr; [exact Eb|lia]|]. rewrite u32_small by lia.
    do 3 (eapply (does_bind pick _ _ _ _ al _ _ [_]); [by apply does_ok|]).
    eapply does_bind; [by apply does_write_bd|].
    eapply (does_bind pick _ _ _ _ al _ _ [_]); [|by apply does_ok].
    unfold push_bd. rewrite (u8_small (u8 s2mm_ch)) by apply u8_range. by apply does_ok. }
  destruct (D nt2 m sh n) as (n' & E). eexists n', _. split; [exact E|]. clear D E.
  unfold dos, cs, bd_calls, push_call. cbn. rewrite !upd_same, Hq. cbn.
  unfold run_at. replace (0 <? length T)%nat with true by (symmetry; apply Nat.ltb_lt; unfold len in *; lia).
  split_and!; try done. change (Z.of_nat 0) with 0. by rewrite Z.mul_0_l, Z.add_0_r, Z.sub_0_r, Z.mul_1_r, Z.mul_comm.
Qed.

(** Operations that leave the answers to come, and the rest, alone. *)
Definition aside (m0 : Z -> Z) (n0 : nat) (m : stE (send array) fault unit) : Prop := forall s,
  live' m0 n0 s -> exists s', m s = (s', Ok tt) /\ kept' s s' /\ live' m0 n0 s'.

Lemma aside_bind m0 n0 m (k : unit -> stE (send array) fault unit) :
  aside m0 n0 m -> aside m0 n0 (k tt) -> aside m0 n0 (m ≫= k).
Proof using.
  intros H1 H2 s L. destruct (H1 s L) as (s1 & E1 & K1 & L1). destruct (H2 s1 L1) as (s2 & E2 & K2 & L2).
  exists s2. rewrite (bind_Ok _ _ _ _ _ E1). split; [done|]. split; [by eapply send_kept_trans|done].
Qed.

Lemma aside_forM {X} m0 n0 (xs : list X) body : (forall x, aside m0 n0 (body x)) -> aside m0 n0 (forM xs body).
Proof using.
  intros H. induction xs as [|x xs IH]; [intros s L; exists s; by split_and!; auto using send_kept_refl|]. by apply aside_bind.
Qed.

Lemma aside_dump m0 n0 : request -> aside m0 n0 (rt_ctrl_elf_timeout_dump xaie tile_addr).
Proof using.
  intros R s L. unfold rt_ctrl_elf_timeout_dump. erewrite bind_Ok by reflexivity.
  refine (aside_forM _ _ _ _ _ s L). intros r. apply aside_forM. intros c. apply aside_forM. intros k s1 L1.
  destruct (live_dma pick schedule targets M0 false (run_at T tok 1) col s2mm_ch RT_RES_ID_BCAST T pre a tok 1 pkt nt2 al
    (Read32_ (tile_addr (c_row r) c +u64 (0x20000 + 4 * k))) m0 n0 s1 R eq_refl ltac:(done) L1) as (s2 & E & _ & K & _ & L2).
  exists s2. unfold dma_ig. by rewrite (bind_Ok _ _ _ _ _ E).
Qed.

Lemma aside_mm2s_wait m0 n0 : request -> aside m0 n0 (rt_ctrl_mm2s_wait xaie col mm2s_ch).
Proof using.
  intros R s L. unfold rt_ctrl_mm2s_wait. assert (exists k, Z.to_nat 1000000 = S k) as [k ->] by (exists (Z.to_nat 999999); lia).
  destruct (live_dma pick schedule targets M0 false (run_at T tok 1) col s2mm_ch RT_RES_ID_BCAST T pre a tok 1 pkt nt2 al
    (DmaGetChannelStatus (Loc 0 col) (u8 mm2s_ch) DMA_MM2S) m0 n0 s R eq_refl ltac:(done) L) as (s1 & E1 & _ & K1 & _ & L1).
  exists s1. split; [|done]. cbn [poll]. unfold mbind, stE_bind. rewrite E1. reflexivity.
Qed.

(** What a packed send does, whatever the tiles' pace. *)
Lemma dma_packed_run (m : Z -> Z) sh n :
  request -> legs_ok -> load_words m pkt (len packets) = packets -> len packets * 4 < 2 ^ 32 ->
  s2mm sh home = [] -> mm2s sh (Loc 0 col, u8 mm2s_ch) = [] ->
  exists s' r n0,
    rt_ctrl_elf_dma_packed xaie id effect answer_ prog tile_addr dev MemTileRowStart MemTileNumRows aie2ps
      pkt (len packets) tok (len T) bd_id mm2s_ch (mk' nt0 al m sh n) = (s', r) /\
    (r = Ok tt \/ r = Err (Code XAIE_ERR)) /\
    net s' = nt2 /\ allocs s' = al /\ heap (shim (world s')) = heap sh /\ live' m n0 s' /\
    (r = Ok tt -> s2mm (shim (world s')) home = []) /\ (keep_moving schedule T pre a -> r = Ok tt).
Proof using idle dev_ok.
  intros R L Hm Hlen Hq Hmm. pose proof (return_keeps_fab L) as Hf.
  destruct (ret_arm_ok m sh n L Hq) as (n1 & sh1 & E1 & A1 & A2 & A3 & A4 & A5).
  destruct (push_ok pick schedule targets dev MemTileRowStart MemTileNumRows M0 wk0 q0 tr idle false (run_at T tok 1) col s2mm_ch
    mm2s_ch RT_RES_ID_BCAST bd_id T pre a tok 1 pkt nt2 al m sh1 n1 (bcast_inst (fab nt0) bd_id mm2s_ch s2mm_ch tok (len T))
    (mret tt) R Hm Hlen A1 A2 A3 ltac:(by rewrite A5) (lg_col L) eq_refl eq_refl) as (w & E2 & G & Hh).
  destruct (live_return_poll pick schedule targets dev M0 false (run_at T tok 1) col s2mm_ch RT_RES_ID_BCAST T pre a tok 1 pkt nt2 al
    1 (len T) m (clock w) (Send nt2 al q0 tr m w) R) as (s3 & p & E3 & K & L3 & Hd & Hp);
    [by exists []|cbn; rewrite Hf; apply L|].
  pose proof (lg_s2mm L) as Hs. pose proof (lg_col L) as Hc.
  unfold rt_ctrl_elf_dma_packed.
  erewrite bind_Ok by (unfold net_op; cbn [mk net]; rewrite (lg_entry L); reflexivity).
  erewrite bind_Ok by exact E1. erewrite bind_Ok by reflexivity. cbn [mk net]. rewrite Hf, Hs, Hc.
  unfold on_fail in E2. destruct (__Runtime_ctrl_push _ _ _ _ _ _ _ _ _ _ _) as [s2 [[]|[]]] eqn:E2'; try discriminate.
  injection E2 as ->. rewrite (bind_Ok _ _ _ _ _ E2'), (bind_Ok _ _ _ _ _ E3).
  assert (net s3 = nt2 /\ allocs s3 = al /\ heap (shim (world s3)) = heap sh) as (N3 & L3a & H3).
  { destruct K as (K1 & K2 & _ & K4 & _). cbn in K1, K2, K4. split_and!; [done|done|]. by rewrite K4, Hh. }
  destruct (Z.eqb_spec p 0) as [->|Hp0]; cbn [negb].
  - destruct (aside_mm2s_wait m (clock w) R s3 L3) as (s4 & E4 & K4 & L4). exists s4, (Ok tt), (clock w).
    split; [exact E4|]. destruct K4 as (K1 & K2 & _ & K5 & _ & K6). split_and!; auto; congruence.
  - destruct (aside_dump m (clock w) R s3 L3) as (s4 & E4 & K4 & L4). exists s4, (Err (Code XAIE_ERR)), (clock w).
    rewrite (bind_Ok _ _ _ _ _ E4). destruct K4 as (K1 & K2 & _ & K5 & _ & K6).
    split_and!; auto; try congruence. intros Hm'. by destruct Hp0; apply Hp.
Qed.
End packed.

(** ** The return routes at the head of a send *)

(** The writes that the return routes withheld become. *)
Definition ret_writes (f : fabric) : list (Z * Z) :=
  if ret_bcast_pending f then (fun k => (rd (ret_bcast_off f) k, rd (ret_bcast_val f) k)) <$> range 0 (ret_bcast_n f) else [].
Definition ret_accs (f : fabric) : list access := put1_access RT_RES_ID_BCAST <$> ret_writes f.

Lemma put_packed max ta v e :
  0 <= enc_pw e -> enc_pw e + 3 <= max * 8 -> 0 <= enc_acc e < max -> max * 8 + 8 < 2 ^ 32 ->
  rt_ctrl_elf_put max true ta [v] 1 e = (emitted e [put1_access RT_RES_ID_BCAST (ta, v)] None, Ok tt).
Proof.
  intros Hp Hf Ha Hm. unfold rt_ctrl_elf_put. replace (max <=? enc_acc e) with false by lia.
  change RT_CTRL_ELF_PKT_STRIDE with 8. rewrite (u32_small (max * 8)), u32_small by lia.
  destruct (cpe_pktize_result (enc_pkt e) (enc_pw e) (max * 8 - enc_pw e) RT_RES_ID_BCAST ta [v] 1 false 0)
    as (pre & E & Hpre & Hlen); [try done; lia..|].
  rewrite write1_words in *. change (len (body_words [_])) with 3 in *. replace (3 <=? _) with true in E by lia.
  rewrite <- rt_pktize_eq in E. destruct (Runtime_ctrl_pktize_write _ _ _ _ _ _ _ _ _) as [[[o k] r]|]; [|done].
  change (Some (o, k) = Some (blit (enc_pkt e) (enc_pw e) pre, 3)) in E. injection E as -> ->. rewrite Hpre by lia.
  unfold emitted. change (len (body_words [_])) with 3. change (len [_]) with 1. by rewrite (u32_small (_ + 3)) by lia.
Qed.

Lemma puts_packed max (ws : list (Z * Z)) : forall e,
  0 <= enc_pw e -> enc_pw e + 3 * len ws <= max * 8 -> 0 <= enc_acc e -> enc_acc e + len ws <= max -> max * 8 + 8 < 2 ^ 32 ->
  forM ws (fun w => rt_ctrl_elf_put max true w.1 [w.2] 1) e = (emitted e (put1_access RT_RES_ID_BCAST <$> ws) None, Ok tt).
Proof.
  induction ws as [|[ta v] ws IH]; intros e Hp Hf Ha Hac Hm.
  - cbn. unfold emitted. cbn. change (body_words []) with (@nil Z). destruct e as [pkt pw acc la lv]. cbn in *.
    change (len []) with 0 in *. by rewrite !Z.add_0_r, u32_small by lia.
  - rewrite len_cons in *. pose proof (len_nonneg ws). cbn [forM fst snd].
    rewrite (bind_Ok _ _ _ _ _ (put_packed max ta v e ltac:(lia) ltac:(lia) ltac:(lia) Hm)).
    rewrite IH; unfold emitted; cbn [enc_pkt enc_pw enc_acc enc_last_addr enc_last_val]; change (len [_]) with 1;
      change (len (body_words [put1_access RT_RES_ID_BCAST (ta, v)])) with 3; rewrite ?(u32_small (enc_acc e + 1)) by lia; try lia.
    set (x := put1_access RT_RES_ID_BCAST (ta, v)). set (xs := put1_access RT_RES_ID_BCAST <$> ws).
    assert (len xs = len ws) as Lx by (unfold xs, len; by rewrite length_fmap).
    change (put1_access RT_RES_ID_BCAST <$> (ta, v) :: ws) with ([x] ++ xs). rewrite body_words_app, <- blit_app, !len_app by lia.
    change (len (body_words [x])) with 3. change (len [x]) with 1. rewrite Lx. do 2 f_equal; [lia|].
    f_equal. lia.
Qed.

Lemma len_ret_writes f : 0 <= ret_bcast_n f -> len (ret_writes f) = if ret_bcast_pending f then ret_bcast_n f else 0.
Proof.
  intros H. unfold ret_writes. destruct (ret_bcast_pending f); [|done]. unfold len, range. rewrite length_fmap, length_seqZ. lia.
Qed.

Lemma ret_config_packed f max buf :
  len (ret_writes f) <= max -> max * 8 + 8 < 2 ^ 32 ->
  rt_ctrl_elf_ret_config (Some f) max true (enc_init buf) = (emitted (enc_init buf) (ret_accs f) None, Ok tt).
Proof.
  intros Hn Hm. pose proof (len_nonneg (ret_writes f)). cbn [rt_ctrl_elf_ret_config].
  unfold ret_accs. destruct (ret_bcast_pending f) eqn:Hp.
  - rewrite <- puts_packed with (max := max) by (cbn [enc_init enc_pw enc_acc]; lia). cbn [when].
    unfold ret_writes. rewrite Hp. by rewrite forM_fmap.
  - unfold ret_writes. rewrite Hp. unfold emitted. change (body_words (_ <$> [])) with (@nil Z). by rewrite blit_nil.
Qed.

Lemma len_ret_words f : len (body_words (ret_accs f)) = 3 * len (ret_writes f).
Proof. apply len_put1s. Qed.

Lemma load_words_split m a n k : 0 <= n -> 0 <= k -> load_words m a (n + k) = load_words m a n ++ load_words m (a + 4 * n) k.
Proof.
  intros Hn Hk. unfold load_words. rewrite seqZ_app, map_app by lia. f_equal.
  rewrite (Z.add_comm 0 n), <- fmap_add_seqZ. change (map ?f ?l) with (f <$> l).
  rewrite <- list_fmap_compose. apply list_fmap_ext. intros i x _. unfold compose. f_equal. lia.
Qed.

Lemma round4_eq n : 0 <= n -> n + 3 < 2 ^ 32 -> round4 n = (n + 3) / 4 * 4.
Proof.
  intros H0 H. unfold round4. rewrite (u32_small (n + 3)) by lia. change 3 with (Z.ones 2) at 2.
  rewrite <- Z.ldiff_land, Z.ldiff_ones_r, Z.shiftr_div_pow2, Z.shiftl_mul_pow2 by lia. change (2 ^ 2) with 4.
  apply u32_small. Z.div_mod_to_equations; lia.
Qed.

Lemma round4_bounds n : 0 <= n -> n + 3 < 2 ^ 32 -> n <= round4 n < n + 4.
Proof. intros H0 H. rewrite round4_eq by done. Z.div_mod_to_equations; lia. Qed.

(** Words stored after the first [n] of a buffer. *)
Lemma load_store_after m p n xs ws :
  0 <= n -> load_words m p n = xs -> 
  load_words (store_words m (p + 4 * n) ws) p (n + len ws) = xs ++ ws.
Proof.
  intros Hn E. pose proof (len_nonneg ws). rewrite load_words_split by done. rewrite load_store, load_store_outside by lia.
  by rewrite E.
Qed.

Lemma bind_step {S E A B} (m m' : stE S E A) (k : A -> stE S E B) s s' : m s = m' s' -> (m ≫= k) s = (m' ≫= k) s'.
Proof. intros H. unfold mbind, stE_bind. by rewrite H. Qed.

(** ** A load, from its buffer to the tiles *)

Section loads.
Context (pick : list (Z * Z) -> Z -> Z) (schedule : nat -> list (Z * Z)).
Context (targets : (Z -> Z) -> Z -> list (Z * Z)) (dev : Z).
Context (effect : backend_op -> (Z -> Z) -> Z -> Z) (answer_ : backend_op -> (Z -> Z) -> Z * Z).
Context (prog : strm_call -> driver_call) (tile_addr : Z -> Z -> Z) (aie2ps : bool).
Context (MemTileRowStart MemTileNumRows : Z) (nc : list nc_block).
Context (s : send array) (bd_id mm2s_ch : Z) (nt1 nt2 : RowFabric.state).

Abbreviation f := (fab (net s)).
Abbreviation home := (Loc 0 (f_shim_col f), u8 (f_resp_s2mm_ch f)).
Abbreviation xaie := (array_call pick schedule targets home).
Abbreviation T := (fabric_tiles f).
Abbreviation M0 := (mem_of (world s)).
Abbreviation hp := (heap (shim (world s))).
Abbreviation idle_state := (mk M0 (work (world s)) (queue s) (txn_row s)).
Abbreviation alloc := (__Runtime_alloc_buffer xaie id dev).
Abbreviation free := (__Runtime_free_buffer xaie dev).
Abbreviation dma_packed := (rt_ctrl_elf_dma_packed xaie id effect answer_ prog tile_addr dev MemTileRowStart MemTileNumRows aie2ps).

(** The fabric with nothing withheld. *)
Definition flushed (n : RowFabric.state) : RowFabric.state :=
  set_fab (set_bcast (ret_bcast_off (fab n)) (ret_bcast_val (fab n)) (ret_bcast_n (fab n)) false (fab n)) n.

(** A fabric on a device with nothing under way; the legs of the shim can be
    programmed, and then the broadcast id reaches the fabric's tiles. *)
Record bcast_ready : Prop := {
  br_dev : dev <> 0;
  br_fab : fab_ok (fab (flushed (net s)));
  br_rows : f_rows f <> [];
  br_ret : 0 <= ret_bcast_n f <= RT_CTRL_RET_BCAST_MAX;
  br_entry : rt_ctrl_row_shim_entry effect answer_ prog mm2s_ch (flushed (net s)) = (nt1, Ok tt);
  br_return : rt_ctrl_row_shim_return_route effect answer_ prog tile_addr aie2ps (f_resp_s2mm_ch f) nt1 = (nt2, Ok tt);
  br_targets : targets (mmio nt2) RT_RES_ID_BCAST = T;
  br_idle : forall t, work (world s) t = [];
  br_s2mm : s2mm (shim (world s)) home = [];
  br_mm2s : mm2s (shim (world s)) (Loc 0 (f_shim_col f), u8 mm2s_ch) = [];
  br_heap : heap_ok (allocs s) hp;
  br_room : len (allocs s) < MAX_ALLOC_BUFFERS }.

Lemma br_nresp : bcast_ready -> rt_ctrl_fabric_tiles f = len T.
Proof using. intros R. exact (tiles_count _ (br_fab R)). Qed.

Lemma br_nodup : bcast_ready -> NoDup T.
Proof using. intros R. exact (tiles_nodup _ (br_fab R)). Qed.

Lemma br_len : bcast_ready -> 0 < len T < 2 ^ 16.
Proof using.
  intros R. pose proof (fo_chain _ (br_fab R)) as Hc. pose proof (fo_len _ (br_fab R)) as Hl. pose proof (br_rows R) as Hn.
  change (f_rows (fab (flushed (net s)))) with (f_rows f) in *. unfold fabric_tiles.
  unfold ACR_MAX_ROWS in Hl. revert Hc Hl Hn. generalize (f_rows f). intros l Hc Hl Hn.
  assert (len l <= len (concat (map chain_tiles l)) <= 64 * len l) as H.
  { clear Hl Hn. induction l as [|r l IH]; [done|]. apply Forall_cons in Hc as [Hr Hc]. specialize (IH Hc).
    cbn [map concat]. rewrite len_app, len_cons.
    replace (len (chain_tiles r)) with (c_hi r - c_lo r + 1); [lia|].
    unfold chain_tiles, len. rewrite length_fmap. unfold range. rewrite length_seqZ. lia. }
  assert (0 < len l) by (destruct l; [done|rewrite len_cons; pose proof (len_nonneg l); lia]). lia.
Qed.

(** A block of [n] bytes can be allocated: it gets the address [p]. *)
Abbreviation gives n p := (allocates pick hp n p).

Lemma on_fail_step {A} (m m' : stE (send array) fault A) c s0 s1 : m s0 = m' s1 -> on_fail m c s0 = on_fail m' c s1.
Proof using. intros H. unfold on_fail. by rewrite H. Qed.

(** The request of a send from the buffer at [p], with the answers [off]
    words further. *)
Lemma packed_request pre a p off size :
  bcast_ready -> gives size p -> 0 <= off -> 4 * off + 4 * len T <= size ->
  Forall (fun b => returns b = false) pre -> a_op a = OP_WRITE_RET -> 0 <= a_beats a <= 4 ->
  Forall (fun b => a_sid b = RT_RES_ID_BCAST) (pre ++ [a]) -> Forall access_ok (pre ++ [a]) ->
  let al := allocs s ++ [Alloc p p size] in
  request_ok targets false (run_at T (p + 4 * off) 1) (f_shim_col f) RT_RES_ID_BCAST T pre a (p + 4 * off) 1 p nt2 al /\
  legs_ok effect answer_ prog tile_addr aie2ps (f_shim_col f) (f_resp_s2mm_ch f) mm2s_ch T (p + 4 * off) (flushed (net s)) nt1 nt2 al.
Proof using.
  intros R [_ F1] Ho Hs Hpre Ha Hb Hsid Hok al. pose proof (br_len R) as Hl. pose proof F1 as (? & ? & ? & _).
  assert (legs_ok effect answer_ prog tile_addr aie2ps (f_shim_col f) (f_resp_s2mm_ch f) mm2s_ch T (p + 4 * off)
    (flushed (net s)) nt1 nt2 al) as L.
  { split; try done; try apply R; [|lia]. exists p. subst al. rewrite <- (app_nil_r (_ ++ [Alloc p p _])).
    rewrite (lookup_fresh _ _ _ _ _ [] (br_heap R) F1) by lia. split; [done|lia]. }
  split; [|done]. split; try done.
  - by apply br_nodup.
  - unfold returns. by rewrite Ha.
  - by rewrite Ha.
  - apply R.
  - rewrite (return_keeps_fab _ _ _ _ _ _ _ _ _ _ _ _ _ _ L). done.
  - apply run_queues. lia.
  - exists p. subst al. rewrite <- (app_nil_r (_ ++ [Alloc p p _])).
    rewrite (lookup_fresh _ _ _ _ _ [] (br_heap R) F1) by lia. split; [done|lia].
Qed.

(** What happens to a packed send: it ends well or with [XAIE_ERR]; the
    buffers are given back; and if it ends well the fabric's tiles have
    executed the accesses and nothing is under way. *)
Record sent (accs : list access) (s' : send array) (r : res fault unit) : Prop := {
  sn_code : r = Ok tt \/ r = Err (Code XAIE_ERR);
  sn_net : net s' = nt2;
  sn_allocs : allocs s' = allocs s;
  sn_heap : heap (shim (world s')) = hp;
  sn_idle : r = Ok tt -> s2mm (shim (world s')) home = [] /\ forall t, work (world s') t = [];
  sn_tiles : r = Ok tt -> forall t, mem_of (world s') t = if bool_decide (t ∈ T) then run_accesses (M0 t) accs else M0 t }.

Definition send_tail (p n off : Z) (words : Z) : stE (send array) fault unit :=
  sync_for_dev xaie dev nc p n ;; clear_pending ;; dma_packed p words (p + 4 * off) (len T) bd_id mm2s_ch.

(** The end of a send, from a buffer that holds the packets. *)
Lemma packed_finish pre a p off size n m sh t0 :
  bcast_ready -> gives size p -> 0 <= off -> 4 * off + 4 * len T <= size ->
  Forall (fun b => returns b = false) pre -> a_op a = OP_WRITE_RET -> 0 <= a_beats a <= 4 ->
  Forall (fun b => a_sid b = RT_RES_ID_BCAST) (pre ++ [a]) -> Forall access_ok (pre ++ [a]) ->
  let ws := body_words (pre ++ [a]) in
  load_words m p (len ws) = ws -> len ws * 4 < 2 ^ 32 ->
  heap sh = (p, size) :: hp -> s2mm sh home = [] -> mm2s sh (Loc 0 (f_shim_col f), u8 mm2s_ch) = [] ->
  exists s' r,
    (on_fail (send_tail p n off (len ws)) (free p) ;; free p) (idle_state (net s) (allocs s ++ [Alloc p p size]) m sh t0) = (s', r) /\
    sent (pre ++ [a]) s' r /\ (keep_moving schedule T pre a -> r = Ok tt).
Proof using.
  intros R A Ho Hs Hpre Ha Hb Hsid Hok ws Hm Hlen Hh Hq Hmm.
  destruct (packed_request pre a p off size R A Ho Hs Hpre Ha Hb Hsid Hok) as [Q L].
  set (al := allocs s ++ _) in *. destruct A as [_ F1]. pose proof F1 as (? & ? & ? & _).
  destruct (does_mem_calls pick schedule targets home M0 (work (world s)) (queue s) (txn_row s) (br_idle R) al
    (__Runtime_sync_for_dev nc dev p n) (net s) m sh t0) as (t1 & E1). rewrite dos_mem_calls in E1.
  destruct (dma_packed_run pick schedule targets dev effect answer_ prog tile_addr aie2ps MemTileRowStart MemTileNumRows
    M0 (work (world s)) (queue s) (txn_row s) (br_idle R) (br_dev R) (f_shim_col f) (f_resp_s2mm_ch f) mm2s_ch bd_id T pre a
    (p + 4 * off) p (flushed (net s)) nt1 nt2 al m sh t1 Q L Hm Hlen Hq Hmm)
    as (s1 & r & n0 & E2 & Hr & N1 & A1 & Hh1 & Lv & Hd & Hp).
  assert (send_tail p n off (len ws) (idle_state (net s) al m sh t0) = (s1, r)) as E.
  { unfold send_tail, sync_for_dev. rewrite (bind_Ok _ _ _ _ _ E1). unfold clear_pending.
    erewrite bind_Ok by reflexivity. exact E2. }
  edestruct (live_free pick schedule targets dev) as (s2 & E3 & L3 & N3 & A3 & H3 & D3);
    [exact (br_dev R)|exact Q|exact Lv|exact (Z.neq_sym _ _ (Z.lt_neq 0 p ltac:(assumption)))|].
  rewrite A1 in A3. unfold al in A3. rewrite (remove_last _ _ _ _ (br_heap R) F1) in A3. rewrite Hh1, Hh, (heap_filter _ _ _ _ (br_heap R) F1) in H3.
  exists s2, r. split.
  - unfold on_fail. destruct Hr as [-> | ->].
    + by erewrite bind_Ok by (rewrite E; reflexivity).
    + erewrite bind_Err; [reflexivity|]. rewrite E, E3. done.
  - split; [|done]. split; try done; [by rewrite N3| |].
    + intros ->. specialize (Hd eq_refl). split; [by apply D3|]. intros t. destruct L3 as (order & G & _).
      destruct (decide (t ∈ T)) as [Ht|Ht].
      * edestruct gathered_done as [W _]; [exact (ro_queues _ _ _ _ _ _ _ _ _ _ _ _ _ Q)|exact G|exact (D3 Hd)|exact Ht|exact W].
      * by eapply g_other.
    + intros -> t. specialize (Hd eq_refl). by erewrite live_tiles by (exact Q || exact L3 || exact (D3 Hd)).
Qed.

(** ** Filling the buffer *)

(** The state once the buffer is there. *)
Abbreviation with_buffer p size := (idle_state (net s) (allocs s ++ [Alloc p p size])).

Lemma alloc_buffer p size :
  bcast_ready -> gives size p ->
  exists sh t, alloc size s = (with_buffer p size (words s) sh t, Ok p) /\
    heap sh = (p, size) :: hp /\ s2mm sh home = [] /\ mm2s sh (Loc 0 (f_shim_col f), u8 mm2s_ch) = [].
Proof.
  intros R [P1 F1]. pose proof F1 as (? & ? & ? & _).
  destruct (alloc_ok pick schedule targets home dev M0 (work (world s)) (queue s) (txn_row s) (br_idle R) (br_dev R)
    (net s) (allocs s) (words s) (shim (world s)) (clock (world s)) size p P1) as (t & E); [lia|by apply R|].
  rewrite <- mk_self in E. replace (set_net (net s) s) with s in E by by destruct s.
  destruct (dos_alloc pick size p (shim (world s)) P1) as (D1 & D2 & D3); [lia|].
  eexists _, t. split; [exact E|]. rewrite D1, D2, D3. split; [done|]. split; apply R.
Qed.

(** The return routes come first in the buffer, which has [off] words. *)
Lemma fill_returns max p off size m sh t :
  bcast_ready -> len (ret_writes f) <= max -> max * 8 + 8 < 2 ^ 32 -> 3 * len (ret_writes f) <= off ->
  exists m' buf,
    fill_into p off (rt_ctrl_elf_ret_config (Some f) max true) (with_buffer p size m sh t) =
      (with_buffer p size m' sh t, Ok (emitted (enc_init buf) (ret_accs f) None)) /\
    load_words m' p (3 * len (ret_writes f)) = body_words (ret_accs f).
Proof.
  intros R Hmax Hm8 Hoff. pose proof (len_nonneg (ret_writes f)). set (buf := load_words m p off).
  assert (len buf = off) as Lb by (apply len_load_words; lia). pose proof (len_ret_words f) as Lr.
  exists (store_words m p (enc_pkt (emitted (enc_init buf) (ret_accs f) None))), buf. split.
  - unfold fill_into. erewrite bind_Ok by reflexivity. cbn [mk words]. fold buf. by rewrite ret_config_packed.
  - cbn [emitted enc_init enc_pkt enc_pw]. rewrite load_store_slice.
    + rewrite <- Lr. apply slice_blit; lia.
    + unfold len in *. rewrite length_blit. lia.
Qed.

Lemma bcast_clear : bcast_ready -> 0 <= len (ret_writes f) <= RT_CTRL_RET_BCAST_MAX /\
  (if ret_bcast_pending f then ret_bcast_n f else 0) = len (ret_writes f).
Proof.
  intros R. pose proof (br_ret R) as H. rewrite (len_ret_writes f) by lia. destruct (ret_bcast_pending f); [done|].
  unfold RT_CTRL_RET_BCAST_MAX in *. lia.
Qed.

Lemma rets_silent : Forall (fun b => returns b = false) (ret_accs f).
Proof. apply Forall_fmap, Forall_true. done. Qed.
Lemma rets_sid : Forall (fun b => a_sid b = RT_RES_ID_BCAST) (ret_accs f).
Proof. apply Forall_fmap, Forall_true. done. Qed.
Lemma rets_ok : Forall access_ok (ret_accs f).
Proof. apply Forall_fmap, Forall_true. intros. apply put1_access_ok. Qed.

(** A body: accesses on the broadcast id, of which only the last one is
    answered, by its header alone. *)
Record body_accs (pre : list access) (a : access) : Prop := {
  ba_silent : Forall (fun b => returns b = false) pre;
  ba_ack : a_op a = OP_WRITE_RET;
  ba_beats : 0 <= a_beats a <= 4;
  ba_sid : Forall (fun b => a_sid b = RT_RES_ID_BCAST) (pre ++ [a]);
  ba_ok : Forall access_ok (pre ++ [a]) }.

(** A buffer that holds the return routes and a body is sent. *)
Lemma send_body pre a p off size n m sh t :
  bcast_ready -> body_accs pre a -> gives size p -> 0 <= off -> 4 * off + 4 * len T <= size ->
  let ws := body_words (pre ++ [a]) in
  load_words m p (3 * len (ret_writes f) + len ws) = body_words (ret_accs f) ++ ws ->
  (3 * len (ret_writes f) + len ws) * 4 < 2 ^ 32 ->
  heap sh = (p, size) :: hp -> s2mm sh home = [] -> mm2s sh (Loc 0 (f_shim_col f), u8 mm2s_ch) = [] ->
  exists s' r,
    (on_fail (send_tail p n off (3 * len (ret_writes f) + len ws)) (free p) ;; free p) (with_buffer p size m sh t) = (s', r) /\
    sent (ret_accs f ++ pre ++ [a]) s' r /\ (keep_moving schedule T (ret_accs f ++ pre) a -> r = Ok tt).
Proof.
  intros R B A Ho Hs ws Hm Hlen Hh Hq Hmm. pose proof (len_ret_words f) as Lr.
  assert (body_words ((ret_accs f ++ pre) ++ [a]) = body_words (ret_accs f) ++ ws) as Ew.
  { by rewrite <- app_assoc, body_words_app. }
  assert (len (body_words ((ret_accs f ++ pre) ++ [a])) = 3 * len (ret_writes f) + len ws) as El by (by rewrite Ew, len_app, Lr).
  rewrite <- El in *. rewrite <- Ew in Hm. rewrite (app_assoc (ret_accs f)).
  destruct B. apply packed_finish; try done.
  - apply Forall_app. auto using rets_silent.
  - rewrite <- app_assoc. apply Forall_app. auto using rets_sid.
  - rewrite <- app_assoc. apply Forall_app. auto using rets_ok.
Qed.

Abbreviation aot := (aot_send xaie id id effect answer_ prog tile_addr dev MemTileRowStart MemTileNumRows aie2ps nc).

(** The buffer of a send of [n] words: where the answers go, and its size. *)
Definition aot_off (n : Z) : Z := round4 (8 * len (ret_writes f) + n + 3).
Definition aot_size (n : Z) : Z := (aot_off n + len T) * 4.

Lemma aot_send_run pre a p :
  bcast_ready -> body_accs pre a -> let ws := body_words (pre ++ [a]) in len ws < 2 ^ 28 -> gives (aot_size (len ws)) p ->
  exists s' r, aot ws bd_id mm2s_ch s = (s', r) /\
    sent (ret_accs f ++ pre ++ [a]) s' r /\ (keep_moving schedule T (ret_accs f ++ pre) a -> r = Ok tt).
Proof.
  intros R B ws Hw A. pose proof (br_len R) as Hl. destruct (bcast_clear R) as [Hr Er]. pose proof (len_nonneg ws).
  unfold RT_CTRL_RET_BCAST_MAX in Hr. pose proof (round4_bounds (8 * len (ret_writes f) + len ws + 3) ltac:(lia) ltac:(lia)) as Hoff.
  fold (aot_off (len ws)) in Hoff.
  destruct (alloc_buffer p (aot_size (len ws)) R A) as (sh & t & E1 & Dh & Ds & Dm).
  destruct (fill_returns (len (ret_writes f) + 1) p (aot_off (len ws)) (aot_size (len ws)) (words s) sh t R)
    as (m1 & buf & E2 & Hm1); [lia..|].
  pose proof (load_store_after m1 p (3 * len (ret_writes f)) _ ws ltac:(lia) Hm1) as Hm2.
  edestruct (send_body pre a p (aot_off (len ws)) (aot_size (len ws)) (u32 (aot_off (len ws) + len T) * 4) (store_words m1 (p + 4 * (3 * len (ret_writes f))) ws) sh t R B A)
    as (s' & r & E3 & Hs & Hk); [lia|unfold aot_size; lia|exact Hm2|fold ws; lia|done..|].
  fold ws in E3. exists s', r. split; [|done]. rewrite <- E3.
  unfold aot_send. erewrite bind_Ok by reflexivity. rewrite (br_nresp R), Er.
  replace (round4 _) with (aot_off (len ws)).
  2: { unfold aot_off. f_equal. unfold RT_CTRL_ELF_PKT_STRIDE. unwrap. lia. }
  rewrite (u32_small (aot_off (len ws) + len T)) by lia. fold (aot_size (len ws)). rewrite (bind_Ok _ _ _ _ _ E1).
  destruct A as [_ (? & _)]. replace (p =? 0) with false by lia.
  rewrite (u32_small (_ + 1)) by lia.
  apply bind_step, on_fail_step. rewrite (bind_Ok _ _ _ _ _ E2).
  cbn [emitted enc_init enc_pw]. rewrite len_ret_words, Z.add_0_l, (u32_small (3 * _ + _)) by lia. reflexivity.
Qed.

Context (cpe : rt_cpe_dev).
Abbreviation packed := (rt_ctrl_load_elf_packed xaie id id effect answer_ prog tile_addr dev MemTileRowStart MemTileNumRows aie2ps nc cpe).

Lemma stream_body segs : body_accs (body_accesses cpe RT_RES_ID_BCAST true segs) (body_ack RT_RES_ID_BCAST segs).
Proof.
  assert (Forall (fun b => a_op b = OP_WRITE /\ a_sid b = RT_RES_ID_BCAST) (body_accesses cpe RT_RES_ID_BCAST true segs)) as H.
  { unfold body_accesses. apply Forall_app. split; [by apply Forall_fmap, Forall_true|].
    apply Forall_concat, Forall_fmap, Forall_true. intros g.
    eapply Forall_impl; [apply (write_accesses_fields RT_RES_ID_BCAST)|]. by intros b [? ?]. }
  split; try done.
  - eapply Forall_impl; [exact H|]. intros b [E _]. unfold returns. by rewrite E.
  - apply Forall_app. split; [eapply Forall_impl; [exact H|]; by intros b [_ E]|by repeat constructor].
  - apply body_stream_ok.
Qed.

(** The buffer of a packed load with [npkt] accesses. *)
Definition packed_off (npkt : Z) : Z := round4 (8 * (npkt + len (ret_writes f)) + 3).
Definition packed_size (npkt : Z) : Z := (packed_off npkt + len T) * 4.

Lemma packed_load_run elf col row npkt segs p :
  bcast_ready -> phdrs_ok elf -> body_segs cpe elf col row = Some segs ->
  0 <= npkt < 2 ^ 26 -> body_size cpe true segs <= 8 * npkt + 3 -> gives (packed_size npkt) p ->
  exists s' r, packed elf col row npkt bd_id mm2s_ch s = (s', r) /\
    sent (ret_accs f ++ body_stream cpe RT_RES_ID_BCAST true segs) s' r /\
    (keep_moving schedule T (ret_accs f ++ body_accesses cpe RT_RES_ID_BCAST true segs) (body_ack RT_RES_ID_BCAST segs) -> r = Ok tt).
Proof.
  intros R Hok Hs Hn Hsz A. pose proof (br_len R) as Hl. destruct (bcast_clear R) as [Hr Er].
  unfold RT_CTRL_RET_BCAST_MAX in Hr.
  pose proof (round4_bounds (8 * (npkt + len (ret_writes f)) + 3) ltac:(lia) ltac:(lia)) as Hoff. fold (packed_off npkt) in Hoff.
  set (k := len (ret_writes f)) in *. set (off := packed_off npkt) in *.
  destruct (alloc_buffer p (packed_size npkt) R A) as (sh & t & E1 & Dh & Ds & Dm).
  destruct (fill_returns (npkt + k) p off (packed_size npkt) (words s) sh t R) as (m1 & buf & E2 & Hm1); [fold k; lia..|].
  set (ws := body_words (body_stream cpe RT_RES_ID_BCAST true segs)).
  assert (len ws = body_size cpe true segs) as Lw by apply len_body_stream. pose proof (len_nonneg ws).
  set (bb := load_words m1 (p + 4 * (3 * k)) (off - 3 * k)).
  assert (len bb = off - 3 * k) as Lb by (apply len_load_words; lia).
  destruct (encode_body_spec cpe elf col row RT_RES_ID_BCAST true (off - 3 * k) segs bb Hok ltac:(lia) ltac:(lia) Hs) as (e' & Ep & E3).
  pose proof Hok as [Hb Hf]. rewrite body_accesses_zero in E3 by exact (seg_list_pos cpe elf col row _ segs Hb Hf Hs).
  fold ws in Ep, E3. replace (len ws <=? off - 3 * k) with true in E3 by lia. cbn [negb andb] in E3.
  set (m2 := store_words m1 (p + 4 * (3 * k)) (enc_pkt e')).
  assert (load_words m2 p (3 * k + len ws) = body_words (ret_accs f) ++ ws) as Hm2.
  { subst m2. rewrite Ep, load_words_split, load_store_outside by lia. fold k in Hm1. rewrite Hm1. f_equal.
    rewrite load_store_slice by (unfold len in *; rewrite length_blit; lia). apply slice_blit; lia. }
  edestruct (send_body _ _ p off (packed_size npkt) (u32 (off + len T) * 4) m2 sh t R (stream_body segs) A)
    as (s' & r & E4 & Hsent & Hk); [lia|unfold packed_size; lia|exact Hm2|change (body_words (_ ++ _)) with ws; fold k; lia|done..|].
  change (body_words (_ ++ _)) with ws in E4. fold k in E4. exists s', r. split; [|done]. rewrite <- E4.
  unfold rt_ctrl_load_elf_packed. erewrite bind_Ok by reflexivity. rewrite (br_nresp R).
  assert ((if ret_bcast_pending f then npkt +u32 ret_bcast_n f else npkt) = npkt + k) as ->.
  { destruct (ret_bcast_pending f); [|lia]. rewrite Er. apply u32_small. lia. }
  replace (round4 _) with off.
  2: { unfold off, packed_off. f_equal. unfold RT_CTRL_ELF_PKT_STRIDE. fold k. unwrap. lia. }
  rewrite (u32_small (off + len T)) by lia. fold (packed_size npkt). rewrite (bind_Ok _ _ _ _ _ E1).
  destruct A as [_ (? & _)]. replace (p =? 0) with false by lia.
  apply bind_step, on_fail_step. rewrite (bind_Ok _ _ _ _ _ E2).
  cbn [emitted enc_init enc_pw]. rewrite len_ret_words, Z.add_0_l. fold k. rewrite (u32_small (off - 3 * k)) by lia.
  erewrite bind_Ok. 2: { unfold encode_into. erewrite bind_Ok by reflexivity. cbn [mk words]. fold bb. rewrite E3. reflexivity. }
  rewrite (u32_small (3 * k + len ws)) by lia.
  reflexivity.
Qed.
End loads.

(** ** Where the two sides place a segment *)

Lemma target_same d rc col row paddr : 0 <= col < 256 -> 0 <= row < 256 ->
  rt_ctrl_elf_target d rc col row paddr = match rt_cpe_target d col row paddr with Some ta => Ok ta | None => Err rc end.
Proof.
  intros Hc Hr. unfold rt_ctrl_elf_target, rt_cpe_target.
  assert (u8 (row - 1) <> row /\ u8 (row + 1) <> row /\ u8 (col - 1) <> col /\ u8 (col + 1) <> col) as (H1 & H2 & H3 & H4).
  { unfold u8. repeat split; Z.div_mod_to_equations; lia. }
  replace (u8 (row - 1) =? row) with false by lia. replace (u8 (row + 1) =? row) with false by lia.
  replace (u8 (col - 1) =? col) with false by lia. replace (u8 (col + 1) =? col) with false by lia.
  replace (row - 1 =? row) with false by lia. replace (row + 1 =? row) with false by lia.
  replace (col - 1 =? col) with false by lia. replace (col + 1 =? col) with false by lia.
  rewrite !Z.eqb_refl, Z.geb_leb. cbn [negb orb]. replace (u8 (paddr / data_mem_size d) >? 7) with (7 <? u8 (paddr / data_mem_size d)) by lia.
  repeat case_match; done || congruence.
Qed.

Lemma count_same d rc elf col row : 0 <= col < 256 -> 0 <= row < 256 ->
  rt_ctrl_elf_count_pkts d rc elf col row = rt_cpe_count_pkts d elf col row.
Proof.
  intros Hc Hr. unfold rt_ctrl_elf_count_pkts, rt_cpe_count_pkts. generalize (range 0 (e_phnum elf)) as l. intros l.
  generalize 0 as n. induction l as [|i l IH]; intros n; [done|].
  cbn [foldl]. rewrite IH. f_equal. unfold seg_place, count_pkts_step. destruct (_ || _); [done|]. rewrite target_same by done.
  destruct (rt_cpe_target _ _ _ _) as [ta|]; [|done]. change RT_CTRL_ELF_SKIP_ADDR with RT_CPE_SKIP_ADDR.
  by destruct (ta =? RT_CPE_SKIP_ADDR).
Qed.

(** ** Properties *)

(** The run-time and the encoder agree on every address a kernel can
    have, on every device: a segment goes to the same place on the tile, or is
    skipped, or has no place, in both, and so they count the same packets. *)
Theorem placement_agrees d rc elf col row :
  0 <= col < 256 -> 0 <= row < 256 ->
  (forall paddr, rt_ctrl_elf_target d rc col row paddr =
     match rt_cpe_target d col row paddr with Some ta => Ok ta | None => Err rc end) /\
  rt_ctrl_elf_count_pkts d rc elf col row = rt_cpe_count_pkts d elf col row.
Proof. intros Hc Hr. split; [intros paddr; by apply target_same|by apply count_same]. Qed.

Lemma placement_agrees_witness :
  (forall paddr, rt_ctrl_elf_target dev5 7 2 3 paddr = match rt_cpe_target dev5 2 3 paddr with Some ta => Ok ta | None => Err 7 end) /\
  rt_ctrl_elf_count_pkts dev5 7 elf_example 2 3 = rt_cpe_count_pkts dev5 elf_example 2 3.
Proof. apply placement_agrees; lia. Defined.

Section properties.
Context (pick : list (Z * Z) -> Z -> Z) (schedule : nat -> list (Z * Z)).
Context (targets : (Z -> Z) -> Z -> list (Z * Z)) (dev : Z).
Context (effect : backend_op -> (Z -> Z) -> Z -> Z) (answer_ : backend_op -> (Z -> Z) -> Z * Z).
Context (prog : strm_call -> driver_call) (tile_addr : Z -> Z -> Z) (XAIE_INVALID_ARGS XAIE_INVALID_ELF : Z) (aie2ps : bool).
Context (MemTileRowStart MemTileNumRows : Z) (nc : list nc_block) (cpe : rt_cpe_dev).

Abbreviation kern := (kernels array).
Abbreviation fabric_of k := (fab (net (sends k))).
Abbreviation home k := (Loc 0 (f_shim_col (fabric_of k)), u8 (f_resp_s2mm_ch (fabric_of k))).
Abbreviation memory k := (mem_of (world (sends k))).
Abbreviation load_elf k := (load_elf_jit (array_call pick schedule targets (home k)) id id effect answer_ prog tile_addr dev
  XAIE_INVALID_ARGS XAIE_INVALID_ELF MemTileRowStart MemTileNumRows aie2ps nc cpe).

(** The accesses a load makes room for. *)
Definition elf_npkt (elf : list Z) (col row : Z) : Z := kernel_pkts cpe elf col row + rt_cpe_reset_accesses cpe.

(** C7. Loading a kernel with packets: on a fabric that is ready, for an ELF
    file whose segments all have a place on the tile, the load returns, and
    its buffer is given back.  If it returns [XAIE_OK], then, whatever the
    pace of the tiles, every tile of the fabric has had the return routes that
    were withheld, the reset pulse and the segments, in this order, and
    nothing else, and no other tile has changed.  If the tiles keep moving it
    does return [XAIE_OK]. *)
Theorem load_packed_correct (k : kern) elf col row bd_id mm2s_ch nt1 nt2 segs p :
  bcast_ready targets dev effect answer_ prog tile_addr aie2ps (sends k) mm2s_ch nt1 nt2 -> ht_ready k = true ->
  0 <= col < 256 -> 0 <= row < 256 -> 0 <= dma_nch cpe < 2 ^ 20 -> kernel_pkts cpe elf col row < 2 ^ 25 ->
  phdrs_ok elf -> body_segs cpe elf col row = Some segs -> segs <> [] -> Forall seg_in_tile segs ->
  allocates pick (heap (shim (world (sends k)))) (packed_size (sends k) (elf_npkt elf col row)) p ->
  exists k' r,
    load_elf k elf col row bd_id mm2s_ch k = (k', r) /\ (r = Ok tt \/ r = Err (Code XAIE_ERR)) /\
    allocs (sends k') = allocs (sends k) /\ heap (shim (world (sends k'))) = heap (shim (world (sends k))) /\
    (r = Ok tt -> forall t x, memory k' t x =
       if bool_decide (t ∈ fabric_tiles (fabric_of k))
       then body_effect cpe true segs (foldl write_reg (memory k t) (ret_writes (fabric_of k))) x else memory k t x) /\
    (keep_moving schedule (fabric_tiles (fabric_of k))
       (ret_accs (fabric_of k) ++ body_accesses cpe RT_RES_ID_BCAST true segs) (body_ack RT_RES_ID_BCAST segs) -> r = Ok tt).
Proof.
  intros R Hr Hc Hrow Hn Hkp Hok Hs Hne Hin A. pose proof Hok as [Hb Hf].
  pose proof (seg_list_pos cpe elf col row _ segs Hb Hf Hs) as Hpos. pose proof (segs_pkts cpe elf col row segs Hok Hs) as Hsz.
  assert (0 < sum_list (map seg_size segs)) as H0.
  { destruct segs as [|g l]; [done|]. apply Forall_cons in Hpos as [Hg Hl]. cbn [map sum_list foldr].
    assert (0 <= sum_list (map seg_size l)) as H1.
    { apply sum_list_nonneg, Forall_fmap. eapply Forall_impl; [exact Hl|]. intros g' Hg'. cbn beta in *. unfold compose, seg_size. Z.div_mod_to_equations; lia. }
    unfold sum_list in H1. assert (0 < seg_size g) by (unfold seg_size; Z.div_mod_to_equations; lia). lia. }
  pose proof (sum_pkts_nonneg cpe elf col row (range 0 (e_phnum elf)) Hb) as Hk0. fold (kernel_pkts cpe elf col row) in Hk0.
  assert (elf_npkt elf col row = kernel_pkts cpe elf col row + (2 + 4 * dma_nch cpe)) as En.
  { unfold elf_npkt, rt_cpe_reset_accesses. unwrap. lia. }
  destruct (packed_load_run pick schedule targets dev effect answer_ prog tile_addr aie2ps MemTileRowStart MemTileNumRows nc
    (sends k) bd_id mm2s_ch nt1 nt2 cpe elf col row (elf_npkt elf col row) segs p R Hok Hs) as (s' & r & E & S & Hk); [lia| |exact A|].
  { unfold body_size. rewrite len_reset_writes by lia. unfold rt_cpe_reset_accesses. unwrap. lia. }
  eexists _, r. split; [|split; [apply S|]].
  - unfold load_elf_jit. erewrite bind_Ok by reflexivity. rewrite count_same, count_pkts_sum by (done || lia).
    replace (kernel_pkts cpe elf col row =? 0) with false by lia. erewrite bind_Ok by reflexivity.
    change (ht_ready (bump_seq k)) with (ht_ready k). rewrite Hr. unfold sdo. change (sends (bump_seq k)) with (sends k).
    rewrite u32_small by (unfold elf_npkt in En; lia). fold (elf_npkt elf col row). rewrite E. reflexivity.
  - cbn [sends]. split; [apply S|]. split; [apply S|]. split; [|exact Hk]. intros Hr' t x. rewrite (sn_tiles _ _ _ _ _ S Hr').
    case_bool_decide; [|done]. rewrite run_accesses_app. unfold ret_accs. change (?g <$> ?l) with (map g l). rewrite run_put1s.
    by apply run_body.
Qed.
End properties.

(** ** Example: a fabric of one row of three tiles, with a return route withheld *)

Module FabricExample.
Definition fab1 : fabric :=
  Fab 2 true 0 1 (State 2 [3]) book0 [Chain 3 2 4] (0x3F004 :: replicate 15 0) (0x80000001 :: replicate 15 0) 1 true.
Definition targets (regs : Z -> Z) (sid : Z) : list (Z * Z) := if sid =? RT_RES_ID_BCAST then fabric_tiles fab1 else [].
Definition s1 : send array := Send (St fab1 ret0 (fun _ => 0)) [] [] (-1) (fun _ => 0) Example.world0.
Definition warm0 : elf_warm := Warm 0 0 0 0 0 false None.
Definition k1 : kernels array := Kernels s1 warm0 true 0 1 true 0 0 (Some elf_example) [] false 0 ∅.
Definition nt1 : RowFabric.state := flushed (net s1).

Lemma ready1 : bcast_ready targets 1 Example.effect Example.answer_ Example.prog Example.tile_addr true s1 0 nt1 nt1.
Proof.
  split; try done. split; try done.
  - repeat constructor; try done. by intros ?%not_elem_of_nil.
  - by repeat constructor.
Qed.

Lemma room1 n : 0 < n < 2 ^ 32 -> allocates Example.pick [] n 0x1000.
Proof. intros Hn. split; [done|]. split_and!; [done|lia|lia|constructor]. Qed.
End FabricExample.

Lemma load_packed_correct_witness :
  exists k' r,
    load_elf_jit (array_call Example.pick Example.schedule FabricExample.targets Example.home) id id Example.effect Example.answer_
      Example.prog Example.tile_addr 1 22 33 1 2 true [] dev5 elf_example 2 3 5 0 FabricExample.k1 = (k', r) /\
    (r = Ok tt \/ r = Err (Code XAIE_ERR)) /\
    allocs (sends k') = [] /\ heap (shim (world (sends k'))) = [] /\
    (r = Ok tt -> forall t x, mem_of (world (sends k')) t x =
       if bool_decide (t ∈ fabric_tiles FabricExample.fab1)
       then body_effect dev5 true [(0x20, [0xA1; 0xA2; 0xA3; 0xA4; 0xA5; 0xA6])]
              (foldl write_reg (Example.mem0 t) [(0x3F004, 0x80000001)]) x else Example.mem0 t x) /\
    (keep_moving Example.schedule (fabric_tiles FabricExample.fab1)
       (ret_accs FabricExample.fab1 ++ body_accesses dev5 RT_RES_ID_BCAST true [(0x20, [0xA1; 0xA2; 0xA3; 0xA4; 0xA5; 0xA6])])
       (body_ack RT_RES_ID_BCAST [(0x20, [0xA1; 0xA2; 0xA3; 0xA4; 0xA5; 0xA6])]) -> r = Ok tt).
Proof.
  apply (load_packed_correct Example.pick Example.schedule FabricExample.targets 1 Example.effect Example.answer_ Example.prog
    Example.tile_addr 22 33 true 1 2 [] dev5 FabricExample.k1 elf_example 2 3 5 0 FabricExample.nt1 FabricExample.nt1
    [(0x20, [0xA1; 0xA2; 0xA3; 0xA4; 0xA5; 0xA6])] 0x1000).
  - exact FabricExample.ready1.
  - done.
  - lia.
  - lia.
  - vm_compute. intuition discriminate.
  - by vm_compute.
  - exact phdrs_ok_example.
  - by vm_compute.
  - discriminate.
  - repeat constructor; vm_compute; discriminate.
  - apply FabricExample.room1. by vm_compute.
Defined.
