(* ===== verification/KernelWarm.v ===== *)
(** * The warm body

    A blob's body can be sent without its program memory when the tiles hold
    it already.  What [rt_elf_warm_build] keeps of a body, why leaving the
    rest out changes nothing then, and that the run-time's bookkeeping keeps
    "then" true, over any history of loads, runs and restarts. *)

From stdpp Require Import base list list_numbers numbers gmap.
From S2P Require Import Prelude.
From S2P Require Import CtrlpktEncode.
From S2P Require Import RuntimePkt.
From S2P Require Import CtrlpktFormat.
From S2P Require Import CtrlpktWrite.
From S2P Require Import CtrlpktRead.
From S2P Require Import CtrlpktBody.
From S2P Require Import CtrlpktTool.
From S2P Require Import Resource.
From S2P Require Import ControlPlan.
From S2P Require Import Driver.
From S2P Require Import TraceRes.
From S2P Require Import ShimBatch.
From S2P Require Import CacheSync.
From S2P Require Import RowFabric.
From S2P Require Import RowFabricProps.
From S2P Require Import RowSend.
From S2P Require Import RowDevice.
From S2P Require Import RowSendProps.
From S2P Require Import RowReadWrite.
From S2P Require Import KernelLoad.
From S2P Require Import KernelLoadProps.

Local Open Scope Z_scope.
Local Open Scope c_scope.

(** ** Accesses in any order of memories *)

(** What a list of writes leaves at an address: its own value, or what was
    there. *)
Lemma run_fixed accs x : Forall (fun b => a_op b <> OP_READ) accs ->
  (forall m, run_accesses m accs x = m x) \/ (exists v, forall m, run_accesses m accs x = v).
Proof.
  induction accs as [|b accs IH] using rev_ind; intros H; [by left|].
  apply Forall_app in H as [H [Hb _]%Forall_cons_1]. specialize (IH H).
  assert (forall m, run_accesses m (accs ++ [b]) x = store_words (run_accesses m accs) (a_addr b) (a_data b) x) as E.
  { intros m. rewrite run_accesses_app. cbn. unfold run_access. by replace (a_op b =? OP_READ) with false by lia. }
  unfold store_words in E. destruct (_ && _ && _).
  - right. by eexists.
  - destruct IH as [IH|[v IH]]; [left|right; exists v]; intros m; by rewrite E, IH.
Qed.

(** The same writes again change nothing. *)
Lemma run_again accs m x : Forall (fun b => a_op b <> OP_READ) accs ->
  run_accesses (run_accesses m accs) accs x = run_accesses m accs x.
Proof. intros H. destruct (run_fixed accs x H) as [E|[v E]]; by rewrite !E. Qed.

Lemma run_ext accs : forall m m' x, (forall y, m y = m' y) -> run_accesses m accs x = run_accesses m' accs x.
Proof.
  induction accs as [|b accs IH]; intros m m' x H; [apply H|]. cbn. apply IH. intros y. unfold run_access.
  case_match; [apply H|]. by apply store_words_ext.
Qed.

(** ** What the walk keeps *)

Section walk.
Context (d : rt_cpe_dev).

(** Program memory, as the walk bounds it. *)
Definition in_prog (x : Z) : bool := (prog_mem_host_off d <=? x) && (x <? prog_mem_host_off d +u32 prog_mem_size d).
Definition warm_accs (pre : list access) (a : access) : list access := List.filter (fun b => negb (in_prog (a_addr b))) pre ++ [a].

Lemma kept_outside x : (x <? prog_mem_host_off d) || (prog_mem_host_off d +u32 prog_mem_size d <=? x) = negb (in_prog x).
Proof. unfold in_prog. rewrite negb_andb. f_equal; lia. Qed.

(** The walk, from the end of the words [pre0]. *)
Lemma warm_walk_from pre : forall a fuel pre0 body i out,
  body = pre0 ++ body_words (pre ++ [a]) -> i = len pre0 ->
  Forall access_ok (pre ++ [a]) -> Forall (fun b => a_op b <> OP_READ) (pre ++ [a]) ->
  len body + 16 < 2 ^ 32 -> (length pre + 1 < fuel)%nat ->
  warm_walk d fuel body (len body) i out = Some (len body, out ++ body_words (warm_accs pre a)).
Proof.
  assert (forall b rest fuel pre0 body i out,
    body = pre0 ++ body_words (b :: rest) -> i = len pre0 -> access_ok b -> a_op b <> OP_READ -> len body + 16 < 2 ^ 32 ->
    warm_walk d (S fuel) body (len body) i out =
    warm_walk d fuel body (len body) (i + (2 + a_beats b))
      (if (len (body_words rest) =? 0) || negb (in_prog (a_addr b)) then out ++ access_words b else out)) as Step.
  { intros b rest fuel pre0 body i out Eb Ei Hb Hr Hl. cbn [warm_walk]. pose proof (len_nonneg pre0).
    change (body_words (b :: rest)) with (access_words b ++ body_words rest) in Eb.
    pose proof (len_access_words_ok b Hb Hr) as La. pose proof (ok_beats b Hb). pose proof (len_nonneg (body_words rest)).
    assert (len body = i + (2 + a_beats b) + len (body_words rest)) as Lb by (rewrite Eb, !len_app, La; lia).
    assert (rd body (i + 1) = cpe_ctrl_word (ctrl_val (a_addr b) (a_beats b) (a_op b) (a_ret b))) as Ec by (rewrite Eb, Ei; apply rd_ctrl).
    assert (slice body i (2 + a_beats b) = access_words b) as Es.
    { rewrite Eb, Ei, <- La. unfold slice, len. by rewrite !Nat2Z.id, drop_app_length, take_app_length. }
    destruct (ctrl_word_fields (a_addr b) (a_beats b) (a_op b) (a_ret b)) as (Ea & Ebt & _);
      [apply Hb|lia|pose proof (ok_op b Hb); lia|apply Hb|].
    rewrite (u32_small (i + 1)), (u32_small (i + 2)), Ec, Ea by lia.
    set (w := cpe_ctrl_word _) in *. assert ((w >> 20) & 0x3 = a_beats b - 1) as Ew.
    { change 0x3 with (2 ^ 2 - 1) in *. rewrite land_low in * by lia.
      pose proof (Z.mod_pos_bound (w >> 20) (2 ^ 2) ltac:(lia)). rewrite u32_small in Ebt by lia. lia. }
    rewrite Ew, (u32_small (2 + _)), (u32_small (_ + 1)) by lia. replace (2 + (a_beats b - 1) + 1) with (2 + a_beats b) by lia.
    rewrite (u32_small (i + (2 + a_beats b))), Es by lia.
    replace (i + 2 <? len body) with true by lia. replace (len body <? i + (2 + a_beats b)) with false by lia.
    rewrite <- orb_assoc, kept_outside. by replace (i + (2 + a_beats b) =? len body) with (len (body_words rest) =? 0) by lia. }
  induction pre as [|b pre IH]; intros a fuel pre0 body i out Eb Ei Hok Hop Hl Hf; (destruct fuel as [|fuel]; [cbn in Hf; lia|]).
  - cbn [app] in *. apply Forall_cons_1 in Hok as [Ha _]. apply Forall_cons_1 in Hop as [Hr _].
    rewrite (Step a [] _ pre0) by done. change (len (body_words []) =? 0) with true. cbn [orb].
    destruct fuel as [|fuel]; [cbn in Hf; lia|]. cbn [warm_walk].
    change (body_words [a]) with (access_words a ++ []) in Eb. rewrite app_nil_r in Eb.
    pose proof (len_access_words_ok a Ha Hr) as La. pose proof (len_nonneg pre0). pose proof (ok_beats a Ha).
    assert (len body = i + (2 + a_beats a)) as Lb by (rewrite Eb, !len_app, La; lia).
    rewrite (u32_small (_ + 2)) by lia. replace (_ <? len body) with false by lia. rewrite <- Lb. unfold warm_accs. cbn [List.filter app].
    change (body_words [a]) with (access_words a ++ []). by rewrite app_nil_r.
  - cbn [app] in *. apply Forall_cons_1 in Hok as [Hb Hok]. apply Forall_cons_1 in Hop as [Hr Hop].
    rewrite (Step b (pre ++ [a]) _ pre0) by done. pose proof (len_access_words_ok b Hb Hr) as La.
    rewrite (IH a fuel (pre0 ++ access_words b)); [|by rewrite Eb, <- app_assoc|rewrite len_app; lia|done|done|done|cbn in Hf; lia].
    replace (len (body_words (pre ++ [a])) =? 0) with false.
    2: { rewrite body_words_app, len_app. change (body_words [a]) with (access_words a ++ []). rewrite app_nil_r. unfold access_words.
         rewrite !len_cons. pose proof (len_nonneg (body_words pre)). pose proof (len_nonneg (a_data a)). lia. }
    unfold warm_accs. cbn [orb List.filter]. destruct (negb (in_prog (a_addr b))); [|done].
    cbn [app]. change (body_words (b :: ?l)) with (access_words b ++ body_words l). by rewrite <- app_assoc.
Qed.

Lemma warm_walk_body pre a :
  let body := body_words (pre ++ [a]) in
  Forall access_ok (pre ++ [a]) -> Forall (fun b => a_op b <> OP_READ) (pre ++ [a]) -> len body + 16 < 2 ^ 32 ->
  warm_walk d (S (Z.to_nat (len body))) body (len body) 0 [] = Some (len body, body_words (warm_accs pre a)).
Proof.
  intros body Hok Hop Hl. apply (warm_walk_from pre a _ []); try done.
  pose proof (body_words_le (pre ++ [a])) as H. fold body in H. unfold len in *. rewrite length_app in H. cbn in H. lia.
Qed.

(** ** Leaving program memory out *)

(** Where an access writes; one that is on one side of the bounds. *)
Definition writes (b : access) (x : Z) : bool := (a_addr b <=? x) && (x <? a_addr b + 4 * len (a_data b)) && ((x - a_addr b) mod 4 =? 0).
Definition one_side (b : access) : Prop := forall x, writes b x = true -> in_prog x = in_prog (a_addr b).

Lemma run_access_at b m x : a_op b <> OP_READ ->
  run_access m b x = if writes b x then rd (a_data b) ((x - a_addr b) / 4) else m x.
Proof. intros H. unfold run_access. by replace (a_op b =? OP_READ) with false by lia. Qed.

(** Without the accesses to program memory, it is left alone, and the rest is
    the same. *)
Lemma run_outside pre : forall m m',
  Forall (fun b => a_op b <> OP_READ) pre -> Forall one_side pre -> (forall x, in_prog x = false -> m x = m' x) ->
  forall x, run_accesses m (List.filter (fun b => negb (in_prog (a_addr b))) pre) x =
            if in_prog x then m x else run_accesses m' pre x.
Proof.
  induction pre as [|b pre IH]; intros m m' Hop Hs He x; [cbn; destruct (in_prog x) eqn:Ex; auto|].
  apply Forall_cons_1 in Hop as [Hr Hop]. apply Forall_cons_1 in Hs as [Hb Hs]. cbn [List.filter].
  destruct (in_prog (a_addr b)) eqn:Ea; cbn [negb].
  - rewrite (IH m (run_access m' b)); [done|done|done|]. intros y Hy. rewrite run_access_at by done.
    destruct (writes b y) eqn:Ew; [|by apply He]. rewrite (Hb y Ew) in Hy. congruence.
  - cbn [run_accesses foldl]. change (foldl run_access ?a ?l) with (run_accesses a l).
    rewrite (IH (run_access m b) (run_access m' b)); [|done|done|].
    + destruct (in_prog x) eqn:Ex; [|done]. rewrite run_access_at by done.
      destruct (writes b x) eqn:Ew; [|done]. rewrite (Hb x Ew) in Ex. congruence.
    + intros y Hy. rewrite !run_access_at by done. case_match; [done|by apply He].
Qed.

(** Program memory holds what the accesses would leave there. *)
Definition settled (m : tile_mem) (accs : list access) : Prop := forall x, in_prog x = true -> run_accesses m accs x = m x.

Lemma warm_same pre a m :
  Forall (fun b => a_op b <> OP_READ) (pre ++ [a]) -> Forall one_side pre -> settled m (pre ++ [a]) ->
  forall x, run_accesses m (warm_accs pre a) x = run_accesses m (pre ++ [a]) x.
Proof.
  intros Hop Hs Hset x. pose proof Hop as Hop'. apply Forall_app in Hop as [Hop [Hr _]%Forall_cons_1].
  unfold warm_accs. rewrite !run_accesses_app. cbn. rewrite !run_access_at by done.
  destruct (writes a x) eqn:Ew; [done|]. rewrite (run_outside pre m m Hop Hs ltac:(done)). destruct (in_prog x) eqn:Ex; [|done].
  rewrite <- (Hset x Ex) at 1. rewrite run_accesses_app. cbn. rewrite run_access_at by done. by rewrite Ew.
Qed.

(** What settles it, and what keeps it so. *)
Lemma settled_run accs m : Forall (fun b => a_op b <> OP_READ) accs -> settled (run_accesses m accs) accs.
Proof. intros H x _. by apply run_again. Qed.

Lemma settled_keep accs m m' :
  Forall (fun b => a_op b <> OP_READ) accs -> settled m accs -> (forall x, in_prog x = true -> m' x = m x) -> settled m' accs.
Proof.
  intros H Hs He x Hx. rewrite He by done. destruct (run_fixed accs x H) as [E|[v E]]; [by rewrite E, He|].
  specialize (Hs x Hx). rewrite !E in *. done.
Qed.
End walk.

(** ** The blob *)

(** The accesses of a blob's body, all but the last and the last. *)
Record blob_body (d : rt_cpe_dev) (bs : list Z) (pre : list access) (a : access) : Prop := {
  bb_words : slice bs 8 (bh_body_words (blob_hdr bs)) = body_words (pre ++ [a]);
  bb_len : bh_body_words (blob_hdr bs) = len (body_words (pre ++ [a]));
  bb_short : bh_body_words (blob_hdr bs) < 2 ^ 28;
  bb_accs : body_accs pre a;
  bb_sides : Forall (one_side d) pre }.

Lemma decode_body accs : Forall access_ok accs -> decode_stream (S (length (body_words accs))) (body_words accs) = Some accs.
Proof.
  intros H. assert (length accs <= length (body_words accs))%nat as Hk.
  { pose proof (body_words_le accs). unfold len in *. lia. }
  revert Hk. generalize (length (body_words accs)) as k. induction H as [|b l Hb Hl IH]; intros k Hk; [done|].
  destruct k as [|k]; [cbn in Hk; lia|]. apply (access_words_decode b (body_words l)); [done|]. apply IH. cbn in Hk. lia.
Qed.

Lemma blob_body_inj d bs pre a pre' a' : blob_body d bs pre a -> blob_body d bs pre' a' -> pre = pre' /\ a = a'.
Proof.
  intros B B'. pose proof (decode_body _ (ba_ok _ _ (bb_accs _ _ _ _ B))) as E.
  rewrite <- (bb_words _ _ _ _ B), (bb_words _ _ _ _ B') in E.
  rewrite (decode_body _ (ba_ok _ _ (bb_accs _ _ _ _ B'))) in E. injection E as E. by apply app_inj_tail.
Qed.

Lemma body_writes pre a : body_accs pre a -> Forall (fun b => a_op b <> OP_READ) (pre ++ [a]).
Proof.
  intros B. apply Forall_app. split.
  - eapply Forall_impl; [apply (ba_silent _ _ B)|]. intros b Hb. unfold returns in Hb. unfold OP_READ, OP_WRITE in *. destruct (Z.eqb_spec (a_op b) 0); [lia|done].
  - constructor; [|constructor]. by rewrite (ba_ack _ _ B).
Qed.

Lemma warm_body d pre a : body_accs pre a -> body_accs (List.filter (fun b => negb (in_prog d (a_addr b))) pre) a.
Proof.
  assert (forall (P : access -> Prop) l, Forall P l -> Forall P (List.filter (fun b => negb (in_prog d (a_addr b))) l)) as H.
  { intros P l Hl. induction Hl as [|b l Hb Hl IH]; [constructor|]. cbn [List.filter]. case_match; [by constructor|done]. }
  intros [H1 H2 H3 [H4 H4']%Forall_app [H5 H5']%Forall_app]. split; auto; apply Forall_app; auto.
Qed.

Lemma len_warm d pre a : len (body_words (warm_accs d pre a)) <= len (body_words (pre ++ [a])).
Proof.
  unfold warm_accs. rewrite !body_words_app, !len_app. apply Z.add_le_mono_r.
  induction pre as [|b pre IH]; [done|]. cbn [List.filter]. change (body_words (b :: ?l)) with (access_words b ++ body_words l).
  rewrite len_app. pose proof (len_nonneg (access_words b)).
  destruct (negb _); [|lia]. change (body_words (b :: ?l)) with (access_words b ++ body_words l). rewrite len_app. lia.
Qed.

(** ** A load from the blob *)

Section aot.
Context (pick : list (Z * Z) -> Z -> Z) (schedule : nat -> list (Z * Z)).
Context (targets : (Z -> Z) -> Z -> list (Z * Z)) (dev : Z).
Context (effect : backend_op -> (Z -> Z) -> Z -> Z) (answer_ : backend_op -> (Z -> Z) -> Z * Z).
Context (prog : strm_call -> driver_call) (tile_addr : Z -> Z -> Z) (XAIE_INVALID_ARGS : Z) (aie2ps : bool).
Context (MemTileRowStart MemTileNumRows : Z) (nc : list nc_block) (cpe : rt_cpe_dev) (fab_ptr : Z).
Context (malloc : kernels array -> Z -> Z * list Z).

Abbreviation kern := (kernels array).
Abbreviation fabric_of k := (fab (net (sends k))).
Abbreviation home k := (Loc 0 (f_shim_col (fabric_of k)), u8 (f_resp_s2mm_ch (fabric_of k))).
Abbreviation tiles k := (fabric_tiles (fabric_of k)).
Abbreviation mems k := (mem_of (world (sends k))).
Abbreviation load_aot k := (rt_ctrl_load_elf_aot (array_call pick schedule targets (home k)) id id effect answer_ prog tile_addr dev
  XAIE_INVALID_ARGS MemTileRowStart MemTileNumRows aie2ps nc cpe fab_ptr malloc).
Abbreviation usable k := (rt_elf_warm_usable dev fab_ptr (pkt_blob k) k).

(** The fabric is ready, the active blob [bs] is for it and spells [pre] and
    [a], the return routes are not in program memory, and the heap has room. *)
Record aot_ready (k : kern) (col row mm2s_ch : Z) (nt1 nt2 : RowFabric.state) (bs : list Z) (pre : list access) (a : access) : Prop := {
  ar_bcast : bcast_ready targets dev effect answer_ prog tile_addr aie2ps (sends k) mm2s_ch nt1 nt2;
  ar_ptr : pkt_blob k <> 0 /\ 32 <= pkt_bytes k;
  ar_blob : blocks k !! pkt_blob k = Some bs;
  ar_fits : blob_ok cpe (blob_hdr bs) (len (tiles k)) col row (pkt_bytes k) = true;
  ar_body : blob_body cpe bs pre a;
  ar_rets : Forall (fun b => forall x, writes b x = true -> in_prog cpe x = false) (ret_accs (fabric_of k));
  ar_room : forall n, 0 < n <= aot_size (sends k) (len (body_words (pre ++ [a]))) ->
              exists p, allocates pick (heap (shim (world (sends k)))) n p }.

(** When the warm body would be used, it is the blob's, and the tiles hold its
    program memory. *)
Definition warm_true (k : kern) (pre : list access) (a : access) : Prop :=
  usable k = true -> w_body (warm k) = Some (body_words (warm_accs cpe pre a)) /\
    forall t, t ∈ tiles k -> settled cpe (mems k t) (pre ++ [a]).

Definition after (s : send array) (w : elf_warm) (k : kern) : kern :=
  Kernels s w (warm_enabled k) (load_seq k) (part_gen k) (ht_ready k) (pkt_blob k) (pkt_bytes k) (kernel_elf k)
    (k_tiles k) (k_loaded k) (k_ntiles k) (blocks k).

(** The warm state after a load. *)
Definition warm_after (k : kern) (pre : list access) (a : access) (r : res fault unit) (w : elf_warm) : Prop :=
  match r with
  | Err _ => w = set_ok false (warm k)
  | Ok _ =>
    w = set_body None (set_ok false (warm k)) \/
    exists b, w = Warm (pkt_blob k) fab_ptr dev (part_gen k) (load_seq k) true b /\
      (w_blob (warm k) = pkt_blob k /\ b = w_body (warm k) \/ b = Some (body_words (warm_accs cpe pre a)))
  end.


(** The accesses that are sent. *)
Definition sent_pre (k : kern) (pre : list access) : list access :=
  if usable k then List.filter (fun b => negb (in_prog cpe (a_addr b))) pre else pre.

Lemma sent_pre_ok k pre a : body_accs pre a ->
  body_accs (sent_pre k pre) a /\ len (body_words (sent_pre k pre ++ [a])) <= len (body_words (pre ++ [a])) /\
  (length (sent_pre k pre) <= length pre)%nat.
Proof.
  intros B. unfold sent_pre. destruct (usable k); [|done]. split; [by apply warm_body|]. split; [apply len_warm|].
  clear. induction pre as [|b pre IH]; [done|]. cbn [List.filter]. destruct (negb _); cbn; lia.
Qed.

(** The send of the body, with the buffer it needs. *)
Lemma aot_sends k col row bd_id mm2s_ch nt1 nt2 bs pre a :
  aot_ready k col row mm2s_ch nt1 nt2 bs pre a ->
  exists s' r,
    aot_send (array_call pick schedule targets (home k)) id id effect answer_ prog tile_addr dev MemTileRowStart MemTileNumRows
      aie2ps nc (body_words (sent_pre k pre ++ [a])) bd_id mm2s_ch (sends k) = (s', r) /\
    sent (sends k) nt2 (ret_accs (fabric_of k) ++ sent_pre k pre ++ [a]) s' r /\
    (keep_moving schedule (tiles k) (ret_accs (fabric_of k) ++ pre) a -> r = Ok tt).
Proof.
  intros R. pose proof (ar_body _ _ _ _ _ _ _ _ _ R) as B. pose proof (bb_accs _ _ _ _ B) as Ba.
  destruct (sent_pre_ok k pre a Ba) as (B' & Hlen & Hn). pose proof (bb_len _ _ _ _ B) as El. pose proof (bb_short _ _ _ _ B) as Hs.
  pose proof (ar_bcast _ _ _ _ _ _ _ _ _ R) as Rb.
  pose proof (br_len _ _ _ _ _ _ _ _ _ _ _ Rb) as Ht. destruct (bcast_clear _ _ _ _ _ _ _ _ _ _ _ Rb) as [Hr _].
  unfold RT_CTRL_RET_BCAST_MAX in Hr. pose proof (len_nonneg (body_words (sent_pre k pre ++ [a]))).
  destruct (ar_room _ _ _ _ _ _ _ _ _ R (aot_size (sends k) (len (body_words (sent_pre k pre ++ [a]))))) as [p Hp].
  { unfold aot_size, aot_off. rewrite !round4_eq by lia. Z.div_mod_to_equations; lia. }
  destruct (aot_send_run pick schedule targets dev effect answer_ prog tile_addr aie2ps MemTileRowStart MemTileNumRows nc
    (sends k) bd_id mm2s_ch nt1 nt2 _ a p Rb B') as (s' & r & E & Hsent & Hk); [lia|exact Hp|].
  exists s', r. split; [exact E|]. split; [exact Hsent|]. intros Hm. apply Hk. intros n t Hin.
  etransitivity; [|by apply (Hm n t Hin)]. rewrite !length_app. lia.
Qed.

Lemma aot_run k col row bd_id mm2s_ch nt1 nt2 bs pre a :
  aot_ready k col row mm2s_ch nt1 nt2 bs pre a -> warm_true k pre a ->
  exists s' w r, load_aot k col row bd_id mm2s_ch k = (after s' w k, r) /\
    sent (sends k) nt2 (ret_accs (fabric_of k) ++ sent_pre k pre ++ [a]) s' r /\
    (keep_moving schedule (tiles k) (ret_accs (fabric_of k) ++ pre) a -> r = Ok tt) /\
    warm_after k pre a r w.
Proof.
  intros R Hw. destruct (aot_sends k col row bd_id mm2s_ch nt1 nt2 bs pre a R) as (s' & r & E & Hsent & Hk).
  pose proof (br_nresp _ _ _ _ _ _ _ _ _ _ _ (ar_bcast _ _ _ _ _ _ _ _ _ R)) as En.
  destruct R as [Rb [Hp0 Hpb] Rblob Rfits [Bw Bl Bs Ba Bsides] Rrets Rroom].
  unfold rt_ctrl_load_elf_aot. erewrite bind_Ok by reflexivity.
  replace ((pkt_blob k =? 0) || (pkt_bytes k <? 32)) with false by lia. rewrite Rblob, En, Rfits. cbn [negb].
  rewrite Bw. replace (if usable k then default [] (w_body (warm k)) else body_words (pre ++ [a]))
    with (body_words (sent_pre k pre ++ [a])).
  2: { unfold sent_pre. destruct (usable k) eqn:Eu; [|done]. by destruct (Hw Eu) as [-> _]. }
  erewrite bind_Ok by reflexivity.
  unfold sdo. unfold mbind at 1, stE_bind at 1. cbn [set_warm sends]. rewrite E.
  destruct (sn_code _ _ _ _ _ Hsent) as [-> | ->]; [|by eexists s', _, _].
  erewrite bind_Ok by reflexivity.
  cbn [set_warm warm set_ok w_blob warm_enabled load_seq part_gen ht_ready pkt_blob pkt_bytes kernel_elf k_tiles k_loaded k_ntiles blocks].
  destruct (Z.eqb_spec (w_blob (warm k)) (pkt_blob k)) as [Eb|Eb].
  - erewrite bind_Ok by reflexivity. eexists s', _, _. split; [reflexivity|]. split; [done|]. split; [done|].
    right. eexists. split; [done|]. by left.
  - set (k1 := Kernels s' _ _ _ _ _ _ _ _ _ _ _ _).
    assert (rt_elf_warm_build cpe malloc (body_words (pre ++ [a])) (bh_body_words (blob_hdr bs)) k1 =
      (if (malloc k1 (bh_body_words (blob_hdr bs))).1 =? 0
       then (after s' (set_body None (set_ok false (warm k))) k, Ok false)
       else (after s' (set_body (Some (body_words (warm_accs cpe pre a))) (set_ok false (warm k))) k, Ok true))) as Eb'.
    { unfold rt_elf_warm_build. erewrite bind_Ok by reflexivity. destruct (_ =? 0); [done|].
      rewrite Bl, warm_walk_body; [|apply Ba|by apply body_writes|lia]. by rewrite Z.eqb_refl. }
    destruct (_ =? 0); rewrite (bind_Ok _ _ _ _ _ Eb').
    + eexists s', _, _. split; [reflexivity|]. split; [done|]. split; [done|]. by left.
    + eexists s', _, _. split; [reflexivity|]. split; [done|]. split; [done|].
      right. eexists. split; [done|]. by right.
Qed.
Lemma rets_outside (k : kern) (m : tile_mem) x :
  Forall (fun b => forall x, writes b x = true -> in_prog cpe x = false) (ret_accs (fabric_of k)) ->
  in_prog cpe x = true -> run_accesses m (ret_accs (fabric_of k)) x = m x.
Proof.
  intros H Hx. assert (Forall (fun b => a_op b = OP_WRITE) (ret_accs (fabric_of k))) as Ho by (by apply Forall_fmap, Forall_true).
  revert m. induction H as [|b l Hb H IH]; intros m; [done|]. apply Forall_cons_1 in Ho as [Ho1 Ho].
  cbn. change (foldl run_access ?a ?l) with (run_accesses a l). rewrite (IH Ho), run_access_at by (by rewrite Ho1).
  destruct (writes b x) eqn:E; [|done]. rewrite (Hb x E) in Hx. done.
Qed.

(** Whichever body is sent, the whole one is there afterwards. *)
Lemma aot_tiles (k : kern) col row mm2s_ch nt1 nt2 bs pre a s' :
  aot_ready k col row mm2s_ch nt1 nt2 bs pre a -> warm_true k pre a ->
  sent (sends k) nt2 (ret_accs (fabric_of k) ++ sent_pre k pre ++ [a]) s' (Ok tt) ->
  (forall t x, mem_of (world s') t x =
     if bool_decide (t ∈ tiles k) then run_accesses (mems k t) (ret_accs (fabric_of k) ++ pre ++ [a]) x else mems k t x) /\
  (forall t, t ∈ tiles k -> settled cpe (mem_of (world s') t) (pre ++ [a])).
Proof.
  intros R Hw S. pose proof (ar_body _ _ _ _ _ _ _ _ _ R) as B. pose proof (ar_rets _ _ _ _ _ _ _ _ _ R) as Hr.
  pose proof (body_writes _ _ (bb_accs _ _ _ _ B)) as Ho.
  assert (forall t x, mem_of (world s') t x =
     if bool_decide (t ∈ tiles k) then run_accesses (mems k t) (ret_accs (fabric_of k) ++ pre ++ [a]) x else mems k t x) as E.
  { intros t x. rewrite (sn_tiles _ _ _ _ _ S eq_refl). case_bool_decide as Ht; [|done]. rewrite !run_accesses_app.
    set (m1 := run_accesses (mems k t) (ret_accs (fabric_of k))). rewrite <- !run_accesses_app. unfold sent_pre.
    destruct (usable k) eqn:Eu; [|done]. destruct (Hw Eu) as [_ Hset]. apply warm_same; [done|apply B|].
    eapply settled_keep; [done|by apply Hset|]. intros y Hy. by apply rets_outside. }
  split; [done|]. intros t Ht x Hx.
  rewrite (run_ext _ _ (run_accesses (run_accesses (mems k t) (ret_accs (fabric_of k))) (pre ++ [a]))).
  - rewrite run_again by done. rewrite E, bool_decide_true by done. by rewrite (run_accesses_app _ (ret_accs _)).
  - intros y. rewrite E, bool_decide_true by done. by rewrite (run_accesses_app _ (ret_accs _)).
Qed.

(** ** Histories *)

(** The blocks that were there are there, unchanged. *)
Definition blocks_kept (k k' : kern) : Prop := forall p bs, blocks k !! p = Some bs -> blocks k' !! p = Some bs.

(** What can happen, with the number of other loads and of restarts so far:
    a load from the blob on a fabric that is ready; a run, during which
    everything may change but the rows of the fabric, what is known of the
    last load, and the tiles' program memory; a load that is not from the
    blob, and a restart of the partition, after which the tiles and the rows
    are arbitrary.  Blocks are made, but not changed. *)
Inductive history : Z -> Z -> kern -> Prop :=
| h_start (k : kern) : w_body (warm k) = None -> load_seq k = 0 -> part_gen k = 1 -> history 0 0 k
| h_load n g (k : kern) col row bd_id mm2s_ch nt1 nt2 bs pre a k' r :
    history n g k -> aot_ready k col row mm2s_ch nt1 nt2 bs pre a ->
    load_aot k col row bd_id mm2s_ch k = (k', r) -> history n g k'
| h_run n g (k k' : kern) :
    history n g k -> warm k' = warm k -> load_seq k' = load_seq k -> part_gen k' = part_gen k -> blocks_kept k k' ->
    f_rows (fabric_of k') = f_rows (fabric_of k) ->
    (forall t x, in_prog cpe x = true -> mems k' t x = mems k t x) -> history n g k'
| h_other n g (k k' : kern) :
    history n g k -> warm k' = warm k -> load_seq k' = load_seq k +u32 1 -> part_gen k' = part_gen k -> blocks_kept k k' ->
    history (n + 1) g k'
| h_restart n g (k k' : kern) :
    history n g k -> warm k' = warm k -> load_seq k' = load_seq k -> part_gen k' = part_gen k +u32 1 -> blocks_kept k k' ->
    history n (g + 1) k'.

(** The invariant. *)
Record known (n g : Z) (k : kern) : Prop := {
  kn_n : 0 <= n;
  kn_g : 0 <= g;
  kn_seq : load_seq k = n mod 2 ^ 32;
  kn_gen : part_gen k = (1 + g) mod 2 ^ 32;
  kn_body : forall b, w_body (warm k) = Some b -> exists bs pre a,
    blocks k !! w_blob (warm k) = Some bs /\ blob_body cpe bs pre a /\ b = body_words (warm_accs cpe pre a) /\
    (w_ok (warm k) = true -> exists n' g', 0 <= n' <= n /\ 0 <= g' <= g /\
       w_seq (warm k) = n' mod 2 ^ 32 /\ w_gen (warm k) = (1 + g') mod 2 ^ 32 /\
       (n' = n -> g' = g -> forall t, t ∈ tiles k -> settled cpe (mems k t) (pre ++ [a]))) }.

Lemma known_warm n g k col row mm2s_ch nt1 nt2 bs pre a :
  known n g k -> n < 2 ^ 32 -> g < 2 ^ 32 - 1 -> aot_ready k col row mm2s_ch nt1 nt2 bs pre a -> warm_true k pre a.
Proof.
  intros [Hn Hg Hs Hgen Hb] Hn2 Hg2 R Hu. unfold rt_elf_warm_usable in Hu.
  repeat match goal with H : _ && _ = true |- _ => apply andb_true_iff in H as [? ?] end.
  destruct (w_body (warm k)) as [b|] eqn:Eb; [|done]. destruct (Hb b eq_refl) as (bs' & pre' & a' & E1 & B & -> & Hok).
  destruct Hok as (n' & g' & ? & ? & E2 & E3 & Hset); [done|].
  replace (w_blob (warm k)) with (pkt_blob k) in E1 by lia.
  rewrite (ar_blob _ _ _ _ _ _ _ _ _ R) in E1. injection E1 as <-.
  destruct (blob_body_inj _ _ _ _ _ _ (ar_body _ _ _ _ _ _ _ _ _ R) B) as [<- <-].
  split; [done|]. apply Hset; rewrite Z.mod_small in E2, Hs by lia; rewrite Z.mod_small in E3, Hgen by lia; lia.
Qed.

Lemma ready_fab k mm2s_ch nt1 nt2 :
  bcast_ready targets dev effect answer_ prog tile_addr aie2ps (sends k) mm2s_ch nt1 nt2 ->
  f_rows (fab nt2) = f_rows (fabric_of k).
Proof.
  intros R. pose proof (br_entry _ _ _ _ _ _ _ _ _ _ _ R) as E1. pose proof (br_return _ _ _ _ _ _ _ _ _ _ _ R) as E2.
  pose proof (entry_fab effect answer_ prog (fab (flushed (net (sends k)))) mm2s_ch _ eq_refl) as H1. rewrite E1 in H1.
  pose proof (return_route_fab effect answer_ prog tile_addr aie2ps (fab nt1) (f_resp_s2mm_ch (fabric_of k))) as H2.
  cbn [fst] in H1. rewrite H1 in H2. specialize (H2 eq_refl nt1 H1). rewrite E2 in H2. cbn [fst] in H2. by rewrite H2.
Qed.

Lemma tiles_rows (k k' : kern) : f_rows (fabric_of k') = f_rows (fabric_of k) -> tiles k' = tiles k.
Proof. unfold fabric_tiles. by intros ->. Qed.

Lemma known_load n g k k' col row bd_id mm2s_ch nt1 nt2 bs pre a r :
  known n g k -> n < 2 ^ 32 -> g < 2 ^ 32 - 1 -> aot_ready k col row mm2s_ch nt1 nt2 bs pre a ->
  load_aot k col row bd_id mm2s_ch k = (k', r) -> known n g k'.
Proof.
  intros K Hn Hg R E. pose proof (known_warm _ _ _ _ _ _ _ _ _ _ _ K Hn Hg R) as Hw.
  destruct (aot_run k col row bd_id mm2s_ch nt1 nt2 bs pre a R Hw) as (s' & w & r' & E' & S & _ & W).
  rewrite E in E'. injection E' as -> ->. destruct K as [Hn0 Hg0 Hs Hgen Hb]. split; try done.
  cbn [after warm]. intros b Eb. destruct r' as [[]|x]; cbn [warm_after] in W.
  - destruct W as [->|(b' & -> & Hb')]; [done|]. cbn [w_body] in Eb. subst b'.
    cbn [w_blob w_ok w_seq w_gen after blocks sends]. exists bs, pre, a. split; [apply R|]. split; [apply R|]. split.
    + destruct Hb' as [[Ebl Eb']|[= ->]]; [|done]. destruct (Hb b) as (bs' & pre' & a' & F1 & F2 & F3 & _); [by rewrite <- Eb'|].
      rewrite Ebl, (ar_blob _ _ _ _ _ _ _ _ _ R) in F1. injection F1 as <-.
      by destruct (blob_body_inj _ _ _ _ _ _ (ar_body _ _ _ _ _ _ _ _ _ R) F2) as [<- <-].
    + intros _. exists n, g. split_and!; try lia; [done..|]. intros _ _.
      destruct (aot_tiles k col row mm2s_ch nt1 nt2 bs pre a s' R Hw S) as [_ Hset].
      rewrite (sn_net _ _ _ _ _ S). unfold fabric_tiles. rewrite (ready_fab k mm2s_ch nt1 nt2); [exact Hset|apply R].
  - subst w. destruct (Hb b Eb) as (bs' & pre' & a' & F1 & F2 & F3 & _). by exists bs', pre', a'.
Qed.

(** The invariant holds along every history in which the counters have not
    wrapped. *)
Lemma history_known n g k : history n g k -> n < 2 ^ 32 -> g < 2 ^ 32 - 1 -> known n g k.
Proof.
  induction 1 as [k Hb Hs Hg|n g k col row bd_id mm2s_ch nt1 nt2 bs pre a k' r _ IH R E|n g k k' _ IH Ew Es Eg Hbl Hrows Hm
    |n g k k' _ IH Ew Es Eg Hbl|n g k k' _ IH Ew Es Eg Hbl]; intros Hn2 Hg2.
  - split; try done. intros b. by rewrite Hb.
  - eapply known_load; [by apply IH|done|done|exact R|exact E].
  - destruct (IH Hn2 Hg2) as [? ? Ks Kg Kb]. split; [done|done|by rewrite Es|by rewrite Eg|]. rewrite Ew.
    intros b Eb. destruct (Kb b Eb) as (bs & pre & a & F1 & F2 & F3 & F4). exists bs, pre, a. split_and!; [by apply Hbl|done|done|].
    intros Hok. destruct (F4 Hok) as (n' & g' & ? & ? & ? & ? & Hset). exists n', g'. split_and!; try lia; [done..|].
    intros -> ->. rewrite (tiles_rows k k' Hrows). intros t Ht. eapply settled_keep; [by apply body_writes, F2|by apply Hset|].
    by apply Hm.
  - destruct (IH ltac:(lia) Hg2) as [? ? Ks Kg Kb]. split; [lia|done| |by rewrite Eg|].
    { rewrite Es, Ks. unfold u32. by rewrite Zplus_mod_idemp_l. }
    rewrite Ew. intros b Eb. destruct (Kb b Eb) as (bs & pre & a & F1 & F2 & F3 & F4). exists bs, pre, a. split_and!; [by apply Hbl|done|done|].
    intros Hok. destruct (F4 Hok) as (n' & g' & ? & ? & ? & ? & _). exists n', g'. split_and!; try lia; done.
  - destruct (IH Hn2 ltac:(lia)) as [? ? Ks Kg Kb]. split; [done|lia|by rewrite Es| |].
    { rewrite Eg, Kg. unfold u32. rewrite Zplus_mod_idemp_l. f_equal. lia. }
    rewrite Ew. intros b Eb. destruct (Kb b Eb) as (bs & pre & a & F1 & F2 & F3 & F4). exists bs, pre, a. split_and!; [by apply Hbl|done|done|].
    intros Hok. destruct (F4 Hok) as (n' & g' & ? & ? & ? & ? & _). exists n', g'. split_and!; try lia; done.
Qed.
(** ** Making a blob *)

Lemma slice_after (xs ys : list Z) n : slice (xs ++ ys) (len xs) n = slice ys 0 n.
Proof. unfold slice, len. rewrite Nat2Z.id, drop_app_length. by rewrite drop_0. Qed.

(** C19. What [__Runtime_ctrl_kernel_pkt_build] makes is what
    [rt_ctrl_load_elf_aot] takes: for every ELF file whose segments have a
    place on the fabric's first tile, the blob is accepted on the same fabric
    and device, and its body is the encoder's packets. *)
Theorem built_blob_accepted (AIE_GEN : Z) elf (k : kern) r0 rows segs p junk :
  dev <> 0 -> f_rows (fabric_of k) = r0 :: rows -> 0 <= c_lo r0 < 2 ^ 16 -> 0 <= c_row r0 < 2 ^ 16 ->
  0 <= dma_nch cpe < 2 ^ 20 -> kernel_pkts cpe elf (c_lo r0) (c_row r0) < 2 ^ 24 -> phdrs_ok elf ->
  body_segs cpe elf (c_lo r0) (c_row r0) = Some segs -> Forall (one_side cpe) (body_accesses cpe RT_RES_ID_BCAST true segs) ->
  (forall n, malloc k n = (p, junk n)) -> (forall n, 0 <= n -> len (junk n) = n) -> p <> 0 ->
  exists bytes bs,
    __Runtime_ctrl_kernel_pkt_build dev cpe AIE_GEN malloc elf k =
      (Kernels (sends k) (warm k) (warm_enabled k) (load_seq k) (part_gen k) (ht_ready k) (pkt_blob k) (pkt_bytes k)
         (kernel_elf k) (k_tiles k) (k_loaded k) (k_ntiles k) (<[p := bs]> (blocks k)), Ok (p, bytes)) /\
    blob_ok cpe (blob_hdr bs) (rt_ctrl_fabric_tiles (fabric_of k)) (c_lo r0) (c_row r0) bytes = true /\
    blob_body cpe bs (body_accesses cpe RT_RES_ID_BCAST true segs) (body_ack RT_RES_ID_BCAST segs).
Proof.
  intros Hd Er Hlo Hrow Hn Hkp Hok Hs Hside Hm Hj Hp. pose proof Hok as [Hb Hf].
  pose proof (sum_pkts_nonneg cpe elf (c_lo r0) (c_row r0) (range 0 (e_phnum elf)) Hb) as Hk0. fold (kernel_pkts cpe elf (c_lo r0) (c_row r0)) in Hk0.
  set (kp := kernel_pkts _ _ _ _) in *. set (cap := 6 * (kp + (2 + 4 * dma_nch cpe) + 1)).
  set (ws := body_words (body_stream cpe RT_RES_ID_BCAST true segs)).
  assert (len ws = body_size cpe true segs) as Lw by apply len_body_stream.
  assert (len ws <= cap) as Hfit.
  { pose proof (segs_pkts cpe elf (c_lo r0) (c_row r0) segs Hok Hs) as Hsz. fold kp in Hsz. rewrite Lw. unfold body_size.
    rewrite len_reset_writes by lia. unfold rt_cpe_reset_accesses. unwrap. lia. }
  set (buf := slice (junk (8 + cap)) 8 cap). assert (len buf = cap) as Lb by (apply len_slice; rewrite ?Hj; lia).
  destruct (encode_body_spec cpe elf (c_lo r0) (c_row r0) RT_RES_ID_BCAST true cap segs buf Hok ltac:(lia) ltac:(lia) Hs) as (e' & Ep & E).
  rewrite body_accesses_zero in E by exact (seg_list_pos cpe elf _ _ _ segs Hb Hf Hs). fold ws in Ep, E.
  replace (len ws <=? cap) with true in E by lia. cbn [negb andb] in E. pose proof (len_nonneg ws).
  set (hdr := BlobHdr RT_CPE_MAGIC RT_CPE_VERSION AIE_GEN (rt_cpe_fingerprint cpe RT_RES_ID_BCAST) RT_RES_ID_BCAST
                       (rt_ctrl_fabric_tiles (fabric_of k)) (len ws) ((c_lo r0 <<u32 16) |' c_row r0)).
  exists (32 + len ws * 4), (hdr_words hdr ++ enc_pkt e'). split; [|split].
  - unfold __Runtime_ctrl_kernel_pkt_build. erewrite bind_Ok by reflexivity. rewrite Er. replace (dev =? 0) with false by lia.
    rewrite count_pkts_sum by (fold kp; done || lia). fold kp.
    assert ((kp +u32 rt_cpe_reset_accesses cpe +u32 1) *u32 (2 + RT_CPE_CHUNK_WORDS) = cap) as ->.
    { unfold rt_cpe_reset_accesses. change (2 + RT_CPE_CHUNK_WORDS) with 6. unwrap. unfold cap. lia. }
    erewrite bind_Ok by reflexivity. rewrite Hm. replace (p =? 0) with false by lia. fold buf. rewrite E.
    erewrite bind_Ok by reflexivity. rewrite (u32_small (32 + _)) by lia. reflexivity.
  - change (blob_hdr (hdr_words hdr ++ enc_pkt e')) with hdr. unfold blob_ok, hdr.
    cbn [bh_magic bh_version bh_fingerprint bh_stream_id bh_nresp bh_body_words bh_enc_tile]. rewrite !Z.eqb_refl, orb_true_r. cbn [andb]. lia.
  - split.
    + change (blob_hdr (hdr_words hdr ++ enc_pkt e')) with hdr. cbn [bh_body_words hdr].
      change 8 with (len (hdr_words hdr)). rewrite slice_after, Ep. apply slice_blit; change (body_words _) with ws; lia.
    + done.
    + change (blob_hdr (hdr_words hdr ++ enc_pkt e')) with hdr. cbn [bh_body_words hdr]. unfold cap in Hfit. lia.
    + apply stream_body.
    + done.
Qed.

(** ** Properties *)

End aot.

(** ** Examples *)

Module WarmExample.
(** A kernel with a word of program memory and a word of data. *)
Definition elf_of (code data : list Z) : list Z :=
  replicate 28 0 ++ [52; 0; 0; 0] ++ replicate 10 0 ++ [32; 0; 2; 0] ++ replicate 6 0 ++
  [1; 0; 0; 0; 116; 0; 0; 0; 0; 0; 0; 0; 0x10; 0; 0; 0; 4; 0; 0; 0] ++ replicate 12 0 ++
  [1; 0; 0; 0; 120; 0; 0; 0; 0; 0; 0; 0; 0x20; 0; 0x07; 0; 4; 0; 0; 0] ++ replicate 12 0 ++ code ++ data.
Definition elf_a : list Z := elf_of [1; 2; 3; 4] [5; 6; 7; 8].
Definition elf_b : list Z := elf_of [11; 12; 13; 14] [15; 16; 17; 18].

(** The heap gives the same block again. *)
Definition malloc (k : kernels array) (n : Z) : Z * list Z := (0x8000, replicate (Z.to_nat n) 0).
Abbreviation K := (stE (kernels array) fault).

Definition build_and_set (elf : list Z) : K unit :=
  '(p, bytes) ← __Runtime_ctrl_kernel_pkt_build 1 dev5 5 malloc elf;
  __Runtime_ctrl_kernel_pkt_set p bytes.
Definition row3 : list (Z * Z) := row_tiles 2 4 3.
Definition row4 : list (Z * Z) := row_tiles 2 4 4.

Definition load_on (tiles : list (Z * Z)) (elf : list Z) : K unit :=
  rt_ctrl_load_elf (array_call Example.pick (fun _ => row3 ++ row4) (fun _ sid => if sid =? RT_RES_ID_BCAST then tiles else []) Example.home)
    id id Example.effect Example.answer_ Example.prog Example.tile_addr 1 22 33 1 2 true [] dev5 0x4000 malloc elf 5 0.

(** The same fabric is planned again, for row 4. *)
Definition replan4 : K unit :=
  sdo (net_op (rt_ctrl_plan_init Example.effect Example.answer_ Example.prog Example.tile_addr 20 25 22 false true true 2 1 0 [Chain 4 2 4])).

(** What [m] leaves of program and of data memory in a tile. *)
Definition left_in (t : Z * Z) (m : K unit) : Z * Z * res fault unit :=
  let '(k, r) := m FabricExample.k1 in (mem_of (world (sends k)) t 0x20010, mem_of (world (sends k)) t 0x20, r).

Definition word (b0 b1 b2 b3 : Z) : Z := b0 + b1 * 2 ^ 8 + b2 * 2 ^ 16 + b3 * 2 ^ 24.

(** A state with the first kernel's blob. *)
Definition segs_a : list (Z * list Z) := [(0x20010, [1; 2; 3; 4]); (0x20, [5; 6; 7; 8])].
Abbreviation pre_a := (body_accesses dev5 RT_RES_ID_BCAST true segs_a).
Abbreviation ack_a := (body_ack RT_RES_ID_BCAST segs_a).
Definition blob_a : list Z :=
  Eval vm_compute in hdr_words (BlobHdr RT_CPE_MAGIC RT_CPE_VERSION 5 (rt_cpe_fingerprint dev5 RT_RES_ID_BCAST) RT_RES_ID_BCAST 3
    (len (body_words (pre_a ++ [ack_a]))) 0) ++ body_words (pre_a ++ [ack_a]).
Definition k2 : kernels array :=
  Kernels FabricExample.s1 FabricExample.warm0 true 0 1 true 0x8000 1000 (Some elf_a) [] false 0 {[0x8000 := blob_a]}.

Abbreviation targets3 := (fun (_ : Z -> Z) (sid : Z) => if sid =? RT_RES_ID_BCAST then row3 else []).
Abbreviation load_aot := (rt_ctrl_load_elf_aot (array_call Example.pick (fun _ => row3 ++ row4) targets3 Example.home)
  id id Example.effect Example.answer_ Example.prog Example.tile_addr 1 22 1 2 true [] dev5 0x4000 malloc).
Abbreviation ready := (aot_ready Example.pick targets3 1 Example.effect Example.answer_ Example.prog Example.tile_addr true dev5).

(** A check for [one_side]. *)
Definition sided (b : access) : bool :=
  let last := a_addr b + 4 * len (a_data b) - 4 in
  (in_prog dev5 (a_addr b) && in_prog dev5 last) || (last <? prog_mem_host_off dev5) ||
  (prog_mem_host_off dev5 +u32 prog_mem_size dev5 <=? a_addr b).

Lemma sided_ok b : sided b = true -> one_side dev5 b.
Proof.
  unfold sided, one_side, writes, in_prog. generalize (prog_mem_host_off dev5) (prog_mem_host_off dev5 +u32 prog_mem_size dev5).
  intros lo hi H x Hx. rewrite !andb_true_iff in Hx. Z.div_mod_to_equations. lia.
Qed.

Lemma blob_a_body : blob_body dev5 blob_a pre_a ack_a.
Proof.
  split; [by vm_compute|by vm_compute|by vm_compute|apply stream_body|].
  assert (forallb sided pre_a = true) as H by by vm_compute.
  apply Forall_forall. intros b Hb. apply sided_ok. rewrite forallb_forall in H. apply H. by apply list_elem_of_In.
Qed.

Lemma phdrs_ok_a : phdrs_ok elf_a.
Proof.
  split.
  - apply Forall_forall. intros x Hx. unfold is_u8. assert (forallb (fun x => (0 <=? x) && (x <? 256)) elf_a = true) as H by by vm_compute.
    rewrite forallb_forall in H. apply list_elem_of_In in Hx. specialize (H x Hx). lia.
  - change (range 0 (e_phnum elf_a)) with [0; 1]. repeat constructor; vm_compute; intuition discriminate.
Qed.

Lemma ready2 : ready k2 2 3 0 FabricExample.nt1 FabricExample.nt1 blob_a pre_a ack_a.
Proof.
  split.
  - pose proof FabricExample.ready1 as []. by split.
  - by vm_compute.
  - by vm_compute.
  - by vm_compute.
  - exact blob_a_body.
  - constructor; [|constructor]. intros x Hx. assert (x = 0x3F004) as ->; [|by vm_compute].
    change (writes _ x) with ((0x3F004 <=? x) && (x <? 0x3F004 + 4 * 1) && ((x - 0x3F004) mod 4 =? 0)) in Hx.
    rewrite !andb_true_iff in Hx. Z.div_mod_to_equations. lia.
  - intros n Hn. exists 0x1000. apply FabricExample.room1. assert (aot_size FabricExample.s1 (len (body_words (pre_a ++ [ack_a]))) < 2 ^ 32) by by vm_compute.
    change (sends k2) with FabricExample.s1 in Hn. lia.
Qed.
Abbreviation hist := (history Example.pick (fun _ => row3 ++ row4) targets3 1 Example.effect Example.answer_ Example.prog Example.tile_addr 22
  true 1 2 [] dev5 0x4000 malloc).

Lemma history2 : hist 0 0 k2.
Proof. by constructor. Qed.

(** After a first load. *)
Definition k3 : kernels array := (load_aot 2 3 5 0 k2).1.

Lemma history3 : hist 0 0 k3.
Proof. eapply h_load; [exact history2|exact ready2|]. exact (surjective_pairing (load_aot 2 3 5 0 k2)). Qed.

Lemma ready3 : ready k3 2 3 0 FabricExample.nt1 FabricExample.nt1 blob_a pre_a ack_a.
Proof.
  destruct (aot_run Example.pick (fun _ => row3 ++ row4) targets3 1 Example.effect Example.answer_ Example.prog Example.tile_addr 22
    true 1 2 [] dev5 0x4000 malloc k2 2 3 5 0 _ _ _ _ _ ready2) as (s' & w & r & E & S & _ & _); [by intros H|].
  assert (mm2s (shim (world (sends k3))) (Loc 0 2, 0) = []) as Hm by by vm_compute.
  assert ((load_aot 2 3 5 0 k2).2 = Ok tt) as Hr by by vm_compute.
  change (load_aot 2 3 5 0 k2 = (after s' w k2, r)) in E. unfold k3 in *. rewrite E in *. cbn [fst snd] in *. subst r. destruct (sn_idle _ _ _ _ _ S eq_refl) as [Hq Hi].
  pose proof (sn_net _ _ _ _ _ S) as Hn. pose proof (sn_allocs _ _ _ _ _ S) as Ha. pose proof (sn_heap _ _ _ _ _ S) as Hh.
  destruct ready2 as [Rb R1 R2 R3 R4 _ Hroom]. destruct Rb. split; cbn [after sends pkt_blob pkt_bytes blocks] in *;
    [|exact R1|exact R2|rewrite Hn; exact R3|exact R4|rewrite Hn; constructor|].
  - split; rewrite ?Hn, ?Ha, ?Hh; assumption.
  - rewrite Hh. intros n Hl. apply Hroom. revert Hl. assert (len (body_words (pre_a ++ [ack_a])) < 2 ^ 28) as Hs by by vm_compute.
    pose proof (len_nonneg (body_words (pre_a ++ [ack_a]))) as H0. revert Hs H0. generalize (len (body_words (pre_a ++ [ack_a]))) as N.
    intros N Hs H0. unfold aot_size, aot_off. rewrite Hn.
    change (ret_writes (fab FabricExample.nt1)) with (@nil (Z * Z)). change (ret_writes _) with [(0x3F004, 0x80000001)].
    change (len (fabric_tiles _)) with 3. change (len (fabric_tiles _)) with 3. change (len []) with 0. change (len [_]) with 1.
    rewrite !round4_eq by lia. Z.div_mod_to_equations; lia.
Qed.
End WarmExample.
Import WarmExample.


Lemma built_blob_accepted_witness :
  exists bytes bs,
    __Runtime_ctrl_kernel_pkt_build 1 dev5 5 malloc elf_a FabricExample.k1 =
      (Kernels FabricExample.s1 FabricExample.warm0 true 0 1 true 0 0 (Some elf_example) [] false 0 (<[0x8000 := bs]> ∅), Ok (0x8000, bytes)) /\
    blob_ok dev5 (blob_hdr bs) 3 2 3 bytes = true /\ blob_body dev5 bs pre_a ack_a.
Proof.
  apply (built_blob_accepted 1 dev5 malloc 5 elf_a FabricExample.k1 (Chain 3 2 4) [] segs_a 0x8000 (fun n => replicate (Z.to_nat n) 0)).
  - done.
  - done.
  - cbn; lia.
  - cbn; lia.
  - vm_compute. intuition discriminate.
  - by vm_compute.
  - exact phdrs_ok_a.
  - by vm_compute.
  - apply blob_a_body.
  - done.
  - intros n Hn. unfold len. rewrite length_replicate. lia.
  - done.
Defined.

