(* ===== verification/KernelLaunch.v ===== *)
(** * Loading and launching through the driver ([src/src/mlir/runtime/aie_runtime.c], 2230, 6900-7063, 7862-8127)

    The other way to load a kernel: tile by tile, through the driver's core
    and ELF calls; then the launch, the wait for an event and the wait for an
    I/O channel.  These calls and their answers are third-party.  A load of
    this kind moves [g_elf_load_seq], which is what ends the warm body of
    [KernelLoad]; the theorem says that it always does.

    The profiling counters, the console, the switch [AIEHLC_LOG_ENABLED] with
    the dumps behind it, and the simulator's waits are left out.  What a batch
    of shim writes does on a commit and on a wait is in [ShimBatch] and is an
    argument here. *)

From stdpp Require Import base list list_numbers numbers gmap.
From S2P Require Import Prelude.
From S2P Require Import CtrlpktEncode.
From S2P Require Import ControlPlan.
From S2P Require Import Driver.
From S2P Require Import TraceRes.
From S2P Require Import ShimBatch.
From S2P Require Import CacheSync.
From S2P Require Import RowFabric.
From S2P Require Import RowSend.
From S2P Require Import KernelLoad.

Local Open Scope Z_scope.
Local Open Scope c_scope.

(** The driver's calls on cores; an ELF file is [None] for [NULL], a section
    is known by its header's offset. *)
Inductive core_call :=
| CoreDisable (t : XAie_LocType)
| CoreReset (t : XAie_LocType)
| CoreUnreset (t : XAie_LocType)
| CoreEnable (t : XAie_LocType)
| LoadElfMem (t : XAie_LocType) (elf : option (list Z))
| LoadElfSection (t : XAie_LocType) (elf : list Z) (phdr : Z)
| DmaChannelResetAll (t : XAie_LocType) (reset : bool)
| TransactionStart
| TransactionSubmit.

Definition sizeof_Elf32_Phdr : Z := 32.
Definition WAIT_IO_MAX_ITERS : Z := 50000000.

(** [struct_io], what a wait uses of it. *)
Record struct_io := Io { io_tile : XAie_LocType; io_channel : Z; io_direction : XAie_DmaDirection }.

Section launch.
Context {W : Type}.
(** The driver; the first row of core tiles; whether empty sections are
    skipped ([AIEHLC_SKIP_BSS]); the batch of shim writes. *)
Context (xaie : dma_call -> (Z -> Z) -> (Z -> Z) -> W -> (Z -> Z) * W * (Z * Z)).
Context (core : core_call -> W -> W * Z) (XAIE_AIE_TILE_ROW_START : Z) (skip_bss : bool).
Context (rt_sb_commit : stE (kernels W) fault unit) (rt_sb_ack_wait : stE (kernels W) fault Z).

Abbreviation S_ := (stE (send W) fault).
Abbreviation K := (stE (kernels W) fault).

Definition __Runtime_is_aie_core_tile (t : XAie_LocType) : bool := XAIE_AIE_TILE_ROW_START <=? loc_row t.

Definition set_world (w : W) (s : send W) : send W := Send (net s) (allocs s) (queue s) (txn_row s) (words s) w.

Definition cdo (c : core_call) : K Z := sdo (fun s => let '(w, rc) := core c (world s) in (set_world w s, Ok rc)).
Definition cdo_ig (c : core_call) : K unit := cdo c ;; mret tt.

(** The headers follow one another at the size of the struct. *)
Fixpoint load_sections (t : XAie_LocType) (elf : list Z) (phs : list Z) : K Z :=
  match phs with
  | [] => mret XAIE_OK
  | ph :: phs =>
    let phdr := e_phoff elf + ph * sizeof_Elf32_Phdr in
    if negb (ld32 elf phdr =? PT_LOAD) then load_sections t elf phs
    else if ld32 elf (phdr + 16) =? 0 then load_sections t elf phs
    else
      rc ← cdo (LoadElfSection t elf phdr);
      if negb (rc =? XAIE_OK) then mret rc else load_sections t elf phs
  end.

Definition __Runtime_load_elf_mem_skip_bss (t : XAie_LocType) (elf : list Z) : K Z :=
  modify bump_seq ;; load_sections t elf (range 0 (e_phnum elf)).

(** The result of the load is dropped. *)
Definition __Runtime_load_kernel_elf (t : XAie_LocType) (elf : option (list Z)) : K unit :=
  modify bump_seq ;;
  if skip_bss then
    match elf with
    | None => throw NullDeref
    | Some elf => __Runtime_load_elf_mem_skip_bss t elf ;; mret tt
    end
  else cdo_ig (LoadElfMem t elf).

(** One tile, if it has a core. *)
Definition load_tile (t : XAie_LocType) (elf : option (list Z)) : K unit :=
  when (__Runtime_is_aie_core_tile t)
    (cdo_ig (CoreDisable t) ;; cdo_ig (CoreReset t) ;; __Runtime_load_kernel_elf t elf ;; cdo_ig (CoreUnreset t)).

(** The tiles with their ELF files; [None] without files. *)
Definition __Runtime_load_kernel_group (tiles : list XAie_LocType) (elf_buffers : option (list (option (list Z)))) : K struct_kernel_group :=
  match elf_buffers with
  | None => mret tt
  | Some elfs => forM (zip tiles elfs) (fun te => load_tile te.1 te.2)
  end ;;
  mret (Group_ tiles (len tiles)).

Definition rt_relaunch_dma_reset (tiles : list XAie_LocType) : K unit :=
  loaded ← gets k_loaded;
  when loaded
    (forM tiles (fun t => when (__Runtime_is_aie_core_tile t) (cdo_ig (DmaChannelResetAll t true))) ;;
     forM tiles (fun t => when (__Runtime_is_aie_core_tile t) (cdo_ig (DmaChannelResetAll t false)))).

(** The tiles past the [MAX_KERNEL_TILES]-th are reset, and then left out. *)
Definition __Runtime_load_kernel_group_nt (tiles : list XAie_LocType) : K struct_kernel_group :=
  rt_relaunch_dma_reset tiles ;;
  let tiles := take (Z.to_nat MAX_KERNEL_TILES) tiles in
  modify (set_group tiles) ;;
  elf ← gets kernel_elf;
  forM tiles (fun t => load_tile t elf) ;;
  modify (set_loaded (len tiles)) ;;
  gets (fun k => Group_ (k_tiles k) (len tiles)).

(** The wrappers pass the first [n] of their tiles. *)
Definition __Runtime_load_kernel_group_4t (t : list XAie_LocType) (n : Z) : K struct_kernel_group :=
  __Runtime_load_kernel_group_nt (take (Z.to_nat n) t).
Definition __Runtime_load_kernel_group_8t := __Runtime_load_kernel_group_4t.
Definition __Runtime_load_kernel_group_16t := __Runtime_load_kernel_group_4t.

Definition __Runtime_core_run (tiles : list XAie_LocType) : K unit :=
  cdo_ig TransactionStart ;;
  forM tiles (fun t => when (__Runtime_is_aie_core_tile t) (cdo_ig (CoreEnable t))) ;;
  cdo_ig TransactionSubmit.

Definition __Runtime_launch_kernel_group (kg : struct_kernel_group) : K struct_event :=
  __Runtime_core_run (take (Z.to_nat (kg_num_tiles kg)) (kg_tiles kg)) ;;
  mret (Event_ (kg_tiles kg) (kg_num_tiles kg) 100000).

(** On the hardware, completion is known from the output channels. *)
Definition __Runtime_wait_event (event : struct_event) : K unit := rt_sb_commit.

Definition dsync_step : S_ unit :=
  q ← gets queue;
  let '(q, cs) := rt_dsync_step q in
  modify (set_queue q) ;; forM cs (fun c => dma_ig xaie (MemCall c)).

(** [inr true]: drained; [inr false]: the driver failed; [inl]: time is up. *)
Definition wait_io_poll (io : struct_io) : S_ (Z + bool) :=
  poll (Z.to_nat WAIT_IO_MAX_ITERS) (fun _ =>
    dsync_step ;;
    r ← dma xaie (DmaGetPendingBdCount (io_tile io) (io_channel io) (io_direction io));
    mret (if negb (r.1 =? XAIE_OK) then inr false else if r.2 =? 0 then inr true else inl r.2)) 1.

Definition __Runtime_wait_io (io : struct_io) : K unit :=
  rt_sb_commit ;;
  rt_sb_ack_wait ;;
  sdo (dma_ig xaie (DmaGetChannelStatus (io_tile io) (io_channel io) (io_direction io))) ;;
  sdo (wait_io_poll io) ;;
  mret tt.
End launch.

(** ** What a load through the driver does to the warm body *)

Section props.
Context {W : Type} (core : core_call -> W -> W * Z) (row0 : Z) (skip_bss : bool).
Abbreviation K := (stE (kernels W) fault).

(** [k'] is [k] after [j] loads, as far as the warm body goes. *)
Definition moved (j : Z) (k k' : kernels W) : Prop :=
  warm k' = warm k /\ warm_enabled k' = warm_enabled k /\ part_gen k' = part_gen k /\ load_seq k' = u32 (load_seq k + j).

(** An operation makes at least [lo] and at most [hi] loads, also when it
    fails; one that makes none and cannot fail. *)
Definition loads_between {A} (lo hi : Z) (m : K A) : Prop :=
  forall k, exists j, lo <= j <= hi /\ (is_u32 (load_seq k) -> moved j k (m k).1).
Definition loads_none {A} (m : K A) : Prop :=
  forall k, exists a, (m k).2 = Ok a /\ (is_u32 (load_seq k) -> moved 0 k (m k).1).

Lemma moved_trans i j k1 k2 k3 : moved i k1 k2 -> moved j k2 k3 -> moved (i + j) k1 k3.
Proof using.
  intros (A1 & A2 & A3 & A4) (B1 & B2 & B3 & B4). split_and!; try congruence. rewrite B4, A4. unfold u32.
  rewrite Zplus_mod_idemp_l. f_equal. lia.
Qed.

Lemma moved_u32 j k k' : moved j k k' -> is_u32 (load_seq k').
Proof using. intros (_ & _ & _ & ->). apply u32_range. Qed.

Lemma loads_bind {A B} lo h1 h2 (m : K A) (f : A -> K B) :
  0 <= h2 -> loads_between lo h1 m -> (forall a, loads_between 0 h2 (f a)) -> loads_between lo (h1 + h2) (m ≫= f).
Proof using.
  intros H0 H1 H2 k. destruct (H1 k) as (i & Hi & M1). unfold mbind, stE_bind. destruct (m k) as [k1 [a|e]]; cbn [fst] in *.
  - destruct (H2 a k1) as (j & Hj & M2). exists (i + j). split; [lia|]. intros U. eapply moved_trans; [by apply M1|].
    apply M2. eapply moved_u32. by apply M1.
  - exists i. split; [lia|]. by cbn.
Qed.

Lemma none_bind {A B} lo hi (m : K A) (f : A -> K B) :
  loads_none m -> (forall a, loads_between lo hi (f a)) -> loads_between lo hi (m ≫= f).
Proof using.
  intros H1 H2 k. destruct (H1 k) as (a & E & M1). unfold mbind, stE_bind. destruct (m k) as [k1 r]; cbn [fst snd] in *. subst r.
  destruct (H2 a k1) as (j & Hj & M2). exists j. split; [done|]. intros U. rewrite <- (Z.add_0_l j).
  eapply moved_trans; [by apply M1|]. apply M2. eapply moved_u32. by apply M1.
Qed.

Lemma none_none_bind {A B} (m : K A) (f : A -> K B) : loads_none m -> (forall a, loads_none (f a)) -> loads_none (m ≫= f).
Proof using.
  intros H1 H2 k. destruct (H1 k) as (a & E & M1). unfold mbind, stE_bind. destruct (m k) as [k1 r]; cbn [fst snd] in *. subst r.
  destruct (H2 a k1) as (b & E2 & M2). exists b. split; [done|]. intros U.
  exact (moved_trans 0 0 _ _ _ (M1 U) (M2 (moved_u32 _ _ _ (M1 U)))).
Qed.

Lemma moved_0 k k' : warm k' = warm k -> warm_enabled k' = warm_enabled k -> part_gen k' = part_gen k -> load_seq k' = load_seq k ->
  is_u32 (load_seq k) -> moved 0 k k'.
Proof using. intros H1 H2 H3 H4 U. split_and!; try done. rewrite H4, Z.add_0_r. symmetry. by apply u32_small. Qed.

Lemma none_ret {A} (a : A) : loads_none (mret a : K A).
Proof using. intros k. exists a. split; [done|]. by apply moved_0. Qed.
Lemma none_gets {A} (f : kernels W -> A) : loads_none (gets f : K A).
Proof using. intros k. exists (f k). split; [done|]. by apply moved_0. Qed.
Lemma none_cdo c : loads_none (cdo core c).
Proof using. intros k. unfold cdo, sdo. destruct (core c _) as [w rc]. exists rc. split; [done|]. by apply moved_0. Qed.
Lemma none_cdo_ig c : loads_none (cdo_ig core c).
Proof using. apply none_none_bind; [apply none_cdo|]. intros _. apply none_ret. Qed.
Lemma none_when b (m : K unit) : loads_none m -> loads_none (when b m).
Proof using. intros H. destruct b; [exact H|apply none_ret]. Qed.
Lemma none_forM {X} (xs : list X) (body : X -> K unit) : (forall x, loads_none (body x)) -> loads_none (forM xs body).
Proof using. intros H. induction xs as [|x xs IH]; [apply none_ret|]. by apply none_none_bind. Qed.
Lemma none_between {A} (m : K A) : loads_none m -> loads_between 0 0 m.
Proof using. intros H k. destruct (H k) as (_ & _ & M). by exists 0. Qed.
Lemma loads_weaken {A} lo hi lo' hi' (m : K A) : lo' <= lo -> hi <= hi' -> loads_between lo hi m -> loads_between lo' hi' m.
Proof using. intros H1 H2 H k. destruct (H k) as (j & Hj & M). exists j. split; [lia|done]. Qed.

Lemma loads_bump : loads_between 1 1 (modify bump_seq : K unit).
Proof using. intros k. exists 1. split; [done|]. done. Qed.

Lemma none_sections t elf phs : loads_none (load_sections core t elf phs).
Proof using.
  induction phs as [|ph phs IH]; [apply none_ret|]. cbn [load_sections]. destruct (negb _); [exact IH|]. destruct (_ =? 0); [exact IH|].
  apply none_none_bind; [apply none_cdo|]. intros rc. destruct (negb _); [apply none_ret|exact IH].
Qed.

Lemma loads_elf t elf : loads_between 1 2 (__Runtime_load_kernel_elf core skip_bss t elf).
Proof using.
  apply (loads_bind 1 1 1); [lia|apply loads_bump|]. intros _. destruct skip_bss.
  - destruct elf as [elf|]; [|intros k; exists 0; split; [lia|]; by apply moved_0].
    apply (loads_bind 0 1 0); [lia| |intros _; apply none_between, none_ret].
    apply (loads_weaken 1 1); [lia|lia|]. apply (loads_bind 1 1 0); [lia|apply loads_bump|].
    intros _. apply none_between, none_sections.
  - apply (loads_weaken 0 0); [lia|lia|]. apply none_between, none_cdo_ig.
Qed.

Lemma loads_tile t elf : loads_between (if __Runtime_is_aie_core_tile row0 t then 1 else 0) 2 (load_tile core row0 skip_bss t elf).
Proof using.
  unfold load_tile. destruct (__Runtime_is_aie_core_tile row0 t); cbn [when].
  - apply none_bind; [apply none_cdo_ig|]. intros _. apply none_bind; [apply none_cdo_ig|]. intros _.
    apply (loads_bind 1 2 0); [lia|apply loads_elf|]. intros _. apply none_between, none_cdo_ig.
  - apply (loads_weaken 0 0); [lia|lia|]. apply none_between, none_ret.
Qed.

Lemma loads_tiles elf tiles :
  loads_between (if existsb (__Runtime_is_aie_core_tile row0) tiles then 1 else 0) (2 * len tiles)
    (forM tiles (fun t => load_tile core row0 skip_bss t elf)).
Proof using.
  induction tiles as [|t tiles IH]; [apply none_between, none_ret|]. cbn [forM existsb]. pose proof (len_nonneg tiles). rewrite len_cons.
  pose proof (loads_tile t elf) as Ht. destruct (__Runtime_is_aie_core_tile row0 t) eqn:E; cbn [orb].
  - apply (loads_weaken 1 (2 + 2 * len tiles)); [lia|lia|]. apply loads_bind; [lia|exact Ht|]. intros _.
    eapply loads_weaken; [| |exact IH]; [destruct (existsb _ _); lia|lia].
  - apply (loads_weaken (if existsb (__Runtime_is_aie_core_tile row0) tiles then 1 else 0) (2 * len tiles)); [lia|lia|].
    apply none_bind; [|intros _; exact IH]. unfold load_tile. rewrite E. apply none_ret.
Qed.

Lemma loads_group_nt tiles :
  loads_between (if existsb (__Runtime_is_aie_core_tile row0) (take (Z.to_nat MAX_KERNEL_TILES) tiles) then 1 else 0) (2 * MAX_KERNEL_TILES)
    (__Runtime_load_kernel_group_nt core row0 skip_bss tiles).
Proof using.
  unfold __Runtime_load_kernel_group_nt. apply none_bind.
  { unfold rt_relaunch_dma_reset. apply none_none_bind; [apply none_gets|]. intros b. apply none_when, none_none_bind.
    - apply none_forM. intros t. apply none_when, none_cdo_ig.
    - intros _. apply none_forM. intros t. apply none_when, none_cdo_ig. }
  intros _. cbv zeta. set (ts := take _ tiles). apply none_bind; [intros k; exists tt; split; [done|]; by apply moved_0|]. intros _.
  apply none_bind; [apply none_gets|]. intros elf.
  assert (len ts <= MAX_KERNEL_TILES) as Hl by (unfold ts, len, MAX_KERNEL_TILES; rewrite length_take; lia).
  eapply (loads_weaken _ (2 * len ts + 0)); [reflexivity|lia|]. apply loads_bind; [lia|apply loads_tiles|]. intros _.
  apply none_between, none_none_bind; [intros k; exists tt; split; [done|]; by apply moved_0|]. intros _. apply none_gets.
Qed.

(** C20. A load through the driver ends the warm body: whatever the driver
    answers, also when a load fails or the ELF file is missing, once
    [__Runtime_load_kernel_group_nt] has been called for tiles of which one of
    the first 32 has a core, the warm body of an earlier load is not used,
    for no blob, fabric or device. *)
Theorem driver_load_ends_warm tiles k :
  is_u32 (load_seq k) -> w_seq (warm k) = load_seq k ->
  existsb (__Runtime_is_aie_core_tile row0) (take (Z.to_nat MAX_KERNEL_TILES) tiles) = true ->
  let k' := (__Runtime_load_kernel_group_nt core row0 skip_bss tiles k).1 in
  warm k' = warm k /\ forall dev fab_ptr blob, rt_elf_warm_usable dev fab_ptr blob k' = false.
Proof using.
  intros U Hs Ht k'. destruct (loads_group_nt tiles k) as (j & Hj & M). rewrite Ht in Hj. destruct (M U) as (E1 & E2 & E3 & E4).
  fold k' in E1, E2, E3, E4. split; [done|]. intros dev fab_ptr blob. unfold rt_elf_warm_usable. rewrite E1, E4, Hs.
  replace (load_seq k =? u32 (load_seq k + j)) with false; [by rewrite andb_false_r|].
  unfold is_u32, MAX_KERNEL_TILES, u32 in *. symmetry. apply Z.eqb_neq. intros E. Z.div_mod_to_equations. lia.
Qed.
End props.

(** ** Example *)

Module LaunchExample.
(** The world is the log of the calls; the driver fails to load an ELF file. *)
Definition core (c : core_call) (log : list core_call) : list core_call * Z := (log ++ [c], match c with LoadElfMem _ _ => 1 | _ => 0 end).
Definition k0 : kernels (list core_call) :=
  Kernels (Send (St fabric0 ret0 (fun _ => 0)) [] [] (-1) (fun _ => 0) []) (Warm 0x8000 0x4000 1 1 7 true (Some [])) true 7 1 true 0x8000 100
    (Some [1]) [] true 0 ∅.
Definition tiles : list XAie_LocType := [Loc 1 2; Loc 3 2].

(** The failure is not reported: the group has both tiles. *)
Lemma failed_load_unreported :
  let '(k, r) := __Runtime_load_kernel_group_nt core 3 false tiles k0 in
  r = Ok (Group_ tiles 2) /\
  world (sends k) = [DmaChannelResetAll (Loc 3 2) true; DmaChannelResetAll (Loc 3 2) false; CoreDisable (Loc 3 2); CoreReset (Loc 3 2);
                     LoadElfMem (Loc 3 2) (Some [1]); CoreUnreset (Loc 3 2)].
Proof. by vm_compute. Qed.
End LaunchExample.

Lemma driver_load_ends_warm_witness :
  rt_elf_warm_usable 1 0x4000 0x8000 LaunchExample.k0 = true /\
  let k' := (__Runtime_load_kernel_group_nt LaunchExample.core 3 false LaunchExample.tiles LaunchExample.k0).1 in
  warm k' = warm LaunchExample.k0 /\ forall dev fab_ptr blob, rt_elf_warm_usable dev fab_ptr blob k' = false.
Proof.
  split; [by vm_compute|].
  apply (driver_load_ends_warm LaunchExample.core 3 false LaunchExample.tiles LaunchExample.k0); [unfold is_u32; cbn; lia|done|done].
Defined.
