(* ===== verification/AotTable.v ===== *)
(** * The tables of shim writes made ahead of time
      ([src/src/tool/ctrlpkt/aiehlc_ctrlpkt_sites.c], 27-146, 307-318, 473-562, 617-724,
      [src/src/mlir/runtime/aie_ctrlpkt_aot.h], [aie_runtime_xaie_seq.c], 5-75)

    The offline tool runs the driver calls of a window on a backend that
    records register writes, and appends the writes to the segments of the shim
    columns as the run-time would: first the return routes of the shim row,
    then the calls of the host program.  The table has the finished segments,
    and for each call the words that depend on a buffer's address, which is not
    known yet.

    The descriptor is the list of the calls made to it.  The tool's driver is
    the run-time's, so [dma_write_bd] and the others are the same programs over
    the backend in both.  The text of the sites file and of the emitted header
    is left out: the input is what is parsed, the output what is emitted. *)

From stdpp Require Import base list list_numbers numbers gmap.
From S2P Require Import Prelude.
From S2P Require Import CtrlpktEncode.
From S2P Require Import Resource.
From S2P Require Import ControlPlan.
From S2P Require Import Driver.
From S2P Require Import ShimBatch.
From S2P Require Import RowFabric.

Local Open Scope Z_scope.
Local Open Scope c_scope.

Definition RT_AOT_CALL_BD : Z := 1.
Definition RT_AOT_CALL_BD_OOO : Z := 2.
Definition RT_AOT_CALL_CH_OOO : Z := 3.
Definition RT_AOT_CALL_START : Z := 4.
Definition RT_AOT_NO_PATCH : Z := 0xFFFF.
Definition RT_AOT_SB_MAX_SEGS : Z := 5.
Definition RT_SEQ_SHIM_BD_ADDR_W0 : Z := 1.
Definition RT_SEQ_SHIM_BD_ADDR_W1 : Z := 2.
Definition RT_SEQ_SHIM_BD_ADDR_W2 : Z := 8.
Definition RT_SEQ_SHIM_AXI_BURST : Z := 16.
Definition RT_SEQ_SHIM_AXI_QOS : Z := 0.
Definition RT_SEQ_SHIM_AXI_CACHE : Z := 0.
Definition S_MAX_REC : Z := 4096.
Definition S_SEG_WORDS : Z := Z.land (4096 / RT_RES_SHIMROW_MAX_COLS) (Z.lnot 3).

(** ** The table *)

Record rt_aot_sb_call := SbCall {
  k_kind : Z; k_col : Z; k_row : Z; k_ch : Z; k_bd : Z; k_dir : Z; k_seg : Z; k_repeat : Z; k_hash : Z; k_patch : list Z }.

(** [ncalls] is the length of [t_calls]; the arrays over segments have
    [RT_AOT_SB_MAX_SEGS] entries. *)
Record rt_aot_shim_bd := Table {
  t_lo : Z; t_hi : Z; t_calls : list rt_aot_sb_call; t_seg : list (list Z);
  t_len : list Z; t_last : list Z; t_prefix : list Z; t_prefix_last : list Z }.

(** ** Descriptors *)

(** [rt_seq_bd_args]; [ba_stride] and [ba_wrap] have four entries. *)
Record rt_seq_bd_args := BdArgs {
  ba_bd_id : Z; ba_len : Z; ba_next_bd : Z; ba_enable_packet : Z; ba_packet_id : Z;
  ba_acq_id : Z; ba_acq_val : Z; ba_rel_id : Z; ba_rel_val : Z; ba_ooo_bd_id : Z; ba_num_dims : Z;
  ba_stride : list Z; ba_wrap : list Z; ba_iter_step : Z; ba_iter_wrap : Z; ba_ooo : bool }.

Definition no_args : rt_seq_bd_args := BdArgs 0 0 0 0 0 0 0 0 0 0 0 [0; 0; 0; 0] [0; 0; 0; 0] 0 0 false.

(** The driver's calls on a descriptor. *)
Inductive desc_op :=
| DmaDescInit
| DmaSetAddrLen (addr len : Z)
| DmaSetMultiDimAddr (num_dims : Z) (dims : list (Z * Z)) (addr len : Z)
| DmaSetBdIteration (step wrap cur : Z)
| DmaSetLock (acq_id acq_val rel_id rel_val : Z)
| DmaSetNextBd (bd : Z)
| DmaSetPkt (id type : Z)
| DmaSetOutofOrderBdId (bd : Z)
| DmaSetAxi (smid burst qos cache secure : Z)
| DmaEnableBd
| DmaChannelDescInit
| DmaChannelEnOutofOrder.

(** [XAie_ShimDmaBuffer]: the position and the mask of the address fields. *)
Record shim_bd_fields := BdFields {
  low_lsb : Z; low_mask : Z; high_lsb : Z; high_mask : Z; ext_lsb : Z; ext_mask : Z }.

(** What is parsed of a call in the sites file; [c_v] are the 19 integer
    arguments of a descriptor. *)
Record s_call := SCall {
  c_kind : Z; c_col : Z; c_row : Z; c_v : list Z; c_ch : Z; c_dir : Z; c_bd : Z; c_repeat : Z }.

(** A recorded register write. *)
Record s_rec := Rec { r_regoff : Z; r_val : Z }.

(** [g_st] and [g_seg]. *)
Record s_segs := Segs { g_st : list rt_cpe_seg; g_seg : list (list Z) }.

Section table.
(** The driver: what a call on a descriptor returns, and what the calls that
    write registers ask of the backend. *)
Context (desc_rc : XAie_LocType -> desc_op -> Z).
Context (dma_write_bd : XAie_LocType -> list desc_op -> Z -> driver_call).
Context (dma_write_channel : XAie_LocType -> list desc_op -> Z -> Z -> driver_call).
Context (set_start_queue : XAie_LocType -> Z -> Z -> Z -> Z -> driver_call).
Context (prog : strm_call -> driver_call).
(** [DevOps->GetTTypefromLoc], the type of a shim tile with a DMA, whether a
    type has one, and its fields; [XAie_SetField]. *)
Context (tile_type : XAie_LocType -> Z) (SHIMNOC XAIE_INVALID_TILE : Z) (has_dma : Z -> bool) (fields : shim_bd_fields).
Context (set_field : Z -> Z -> Z -> Z).
Context (row_shift col_shift : Z).

(** The calls a descriptor gets, and the code returned. *)
Definition rt_seq_bd_desc (tile : XAie_LocType) (dma_addr : Z) (a : rt_seq_bd_args) : list desc_op * Z :=
  let rc := desc_rc tile DmaDescInit in
  if negb (rc =? XAIE_OK) then ([DmaDescInit], rc)
  else
    let max := if ba_ooo a then 3 else 4 in
    let num_dims := if ba_num_dims a >? max then max else ba_num_dims a in
    let addr_dims := if num_dims <=? 3 then num_dims else 3 in
    let dims := (fun i => (u32 (rd (ba_stride a) i ÷ 4), u16 (rd (ba_wrap a) i))) <$> range 0 addr_dims in
    ([DmaDescInit; DmaSetMultiDimAddr (u8 addr_dims) dims dma_addr (u32 (ba_len a))] ++
     (if ba_ooo a then (if ba_iter_wrap a >? 1 then [DmaSetBdIteration (ba_iter_step a ÷ 4) (ba_iter_wrap a) 0] else [])
      else if num_dims =? 4 then [DmaSetBdIteration (rd (ba_stride a) 3 ÷ 4) (rd (ba_wrap a) 3) 0] else []) ++
     (if (ba_acq_id a >=? 0) && (ba_rel_id a >=? 0)
      then [DmaSetLock (ba_acq_id a) (ba_acq_val a) (ba_rel_id a) (ba_rel_val a)] else []) ++
     (if ba_next_bd a >=? 0 then [DmaSetNextBd (u8 (ba_next_bd a))] else []) ++
     (if negb (ba_enable_packet a =? 0) then [DmaSetPkt (ba_packet_id a) 0] else []) ++
     (if ba_ooo_bd_id a >=? 0 then [DmaSetOutofOrderBdId (u8 (ba_ooo_bd_id a))] else []) ++
     (if tile_type tile =? SHIMNOC
      then [DmaSetAxi 0 RT_SEQ_SHIM_AXI_BURST RT_SEQ_SHIM_AXI_QOS RT_SEQ_SHIM_AXI_CACHE 0] else []) ++
     [DmaEnableBd], XAIE_OK).

Definition rt_seq_channel_ooo_desc (tile : XAie_LocType) : list desc_op * Z :=
  let rc := desc_rc tile DmaChannelDescInit in
  if rc =? XAIE_OK then ([DmaChannelDescInit; DmaChannelEnOutofOrder], desc_rc tile DmaChannelEnOutofOrder)
  else ([DmaChannelDescInit], rc).

Definition rt_seq_start_queue (tile : XAie_LocType) (ch dir bd repeat : Z) : driver_call :=
  set_start_queue tile ch dir bd (u32 repeat).

Definition rt_seq_shim_bd_addr_fields (tile : XAie_LocType) (addr : Z) : list Z * Z :=
  if negb (has_dma (tile_type tile)) then ([], XAIE_INVALID_TILE)
  else
    ([u32 (set_field (Z.shiftr addr (low_lsb fields)) (low_lsb fields) (low_mask fields));
      u32 (set_field (Z.shiftr addr 32) (high_lsb fields) (high_mask fields));
      u32 (set_field (Z.shiftr addr (ext_lsb fields)) (ext_lsb fields) (ext_mask fields))], XAIE_OK).

(** ** The recording backend *)

(** The records and [g_bad]. *)
Definition recording : Type := list s_rec * bool.

Definition rec_w32 (regoff val : Z) (g : recording) : recording * Z :=
  if len g.1 >=? S_MAX_REC then ((g.1, true), XAIE_ERR) else ((g.1 ++ [Rec regoff val], g.2), XAIE_OK).

Fixpoint rec_words (regoff i : Z) (data : list Z) (g : recording) : recording * Z :=
  match data with
  | [] => (g, XAIE_OK)
  | v :: data =>
    let '(g, rc) := rec_w32 (regoff +u64 (4 *u32 i)) v g in
    if rc =? XAIE_OK then rec_words regoff (i + 1) data g else (g, XAIE_ERR)
  end.

Definition rec_bw32 (ret_mode : bool) (regoff : Z) (data : list Z) (g : recording) : recording * Z :=
  if ret_mode then ((g.1, true), XAIE_ERR) else rec_words regoff 0 data g.

(** [rec_runop] and the operations that are refused. *)
Definition rec_backend (ret_mode : bool) (op : backend_op) (g : recording) : recording * Z :=
  match op with
  | Write32 regoff val => rec_w32 regoff val g
  | BlockWrite32 regoff data => rec_bw32 ret_mode regoff data g
  | ConfigShimDmaBd addr words => if ret_mode then ((g.1, true), XAIE_ERR) else rec_bw32 ret_mode addr words g
  | RunOp _ | Read32 _ | MaskWrite32 _ _ _ | MaskPoll _ _ _ _ | BlockSet32 _ _ _ => ((g.1, true), XAIE_ERR)
  end.

(** A driver call on the tool's device. *)
Fixpoint run_recorded (ret_mode : bool) (c : driver_call) (g : recording) : recording * Z :=
  match c with
  | Return rc => (g, rc)
  | Do op k => let '(g, rc) := rec_backend ret_mode op g in run_recorded ret_mode (k rc 0) g
  end.

(** The records of a call, unless it fails or cannot be recorded. *)
Definition recorded (ret_mode : bool) (c : driver_call) : option (list s_rec) :=
  let '((recs, bad), rc) := run_recorded ret_mode c ([], false) in
  if negb (rc =? XAIE_OK) || bad then None else Some recs.

(** [g_nrec] is 0 before. *)
Definition record_op (op : acr_op) (ret_mode : bool) : option (list s_rec) := recorded ret_mode (prog (rt_seq_row_op op)).

Definition decode (regoff : Z) : Z * Z * Z :=
  (u8 (Z.shiftr regoff col_shift), Z.land (Z.shiftr regoff row_shift) (Z.shiftl 1 (col_shift - row_shift) - 1),
   u32 (Z.land regoff (Z.shiftl 1 row_shift - 1))).

(** ** Appending to the segments *)

Section window.
Context (g_lo g_hi : Z).

Definition st_at (s : s_segs) (k : Z) : rt_cpe_seg := default (Seg 0 RT_CPE_NONE 0) (g_st s !! Z.to_nat k).
Definition seg_words (s : s_segs) (k : Z) : list Z := default [] (g_seg s !! Z.to_nat k).

(** One record; the result is its column. *)
Definition append_record (r : s_rec) : stE s_segs Z Z := fun s =>
  let '(col, row, off) := decode (r_regoff r) in
  if negb (row =? 0) || (col <? g_lo) || (col >? g_hi) then (s, Err (-1))
  else
    let k := col - g_lo in
    match rt_cpe_seg_write S_SEG_WORDS (acr_shim_row_id (u8 k)) off [r_val r] 1 (st_at s k, seg_words s k) with
    | (sp, Ok _) => (Segs (wr (g_st s) k sp.1) (wr (g_seg s) k sp.2), Ok k)
    | (sp, Err _) => (Segs (wr (g_st s) k sp.1) (wr (g_seg s) k sp.2), Err (-1))
    end.

(** [*seg_out] and [bdpos], which has room for nine positions. *)
Fixpoint append_records (recs : list s_rec) (first : Z) (pos : list Z) : stE s_segs Z (Z * list Z) :=
  match recs with
  | [] => mret (first, pos)
  | r :: recs =>
    k ← append_record r;
    p ← gets (fun s => u16 (seg_pw (st_at s k) -u32 1));
    append_records recs (if first <? 0 then k else first) (if len pos <? 9 then pos ++ [p] else pos)
  end.

(** ** Calls *)

Definition bd_args_of (c : s_call) : rt_seq_bd_args :=
  let v := rd (c_v c) in
  let ooo := c_kind c =? RT_AOT_CALL_BD_OOO in
  let max := if ooo then 3 else 4 in
  BdArgs (v 0) (v 1) (v 2) (v 3) (v 4) (v 5) (v 6) (v 7) (v 8) (v 9) (if v 10 >? max then max else v 10)
    [v 11; v 13; v 15; if ooo then 0 else v 17] [v 12; v 14; v 16; if ooo then 0 else v 18]
    (if ooo then v 17 else 0) (if ooo then v 18 else 0) ooo.

Definition call_tile (c : s_call) : XAie_LocType := Loc (u8 (c_row c)) (u8 (c_col c)).

Definition record_bd (c : s_call) (addr : Z) : option (list s_rec) :=
  let a := bd_args_of c in
  let '(d, rc) := rt_seq_bd_desc (call_tile c) addr a in
  if negb (rc =? XAIE_OK) then None else recorded false (dma_write_bd (call_tile c) d (u8 (ba_bd_id a))).

Definition ADDR_TEST : Z := 0x0000ABCD12345670.

(** Whether the words of a descriptor depend on the address as
    [rt_seq_shim_bd_addr_fields] says, for one address. *)
Definition check_addr_fields (c : s_call) (base : list Z) : bool :=
  match record_bd c ADDR_TEST, rt_seq_shim_bd_addr_fields (call_tile c) ADDR_TEST with
  | Some recs, (f, rf) =>
    (len recs =? 9) && (rf =? XAIE_OK) &&
    forallb (fun w => Z.lxor (rd (r_val <$> recs) w) (rd base w) =?
                      (if w =? RT_SEQ_SHIM_BD_ADDR_W0 then rd f 0 else if w =? RT_SEQ_SHIM_BD_ADDR_W1 then rd f 1
                       else if w =? RT_SEQ_SHIM_BD_ADDR_W2 then rd f 2 else 0)) (range 0 9)
  | None, _ => false
  end.

Definition is_bd (kind : Z) : bool := (kind =? RT_AOT_CALL_BD) || (kind =? RT_AOT_CALL_BD_OOO).

(** The records of a call, with a descriptor for the address 0. *)
Definition record_call (c : s_call) : option (list s_rec) :=
  if is_bd (c_kind c) then
    if existsb (fun k => rd (c_v c) k =? -999999) (range 0 19) then None
    else
      match record_bd c 0 with
      | Some recs => if (len recs =? 9) && check_addr_fields c (r_val <$> recs) then Some recs else None
      | None => None
      end
  else if c_kind c =? RT_AOT_CALL_CH_OOO then
    let '(d, rc) := rt_seq_channel_ooo_desc (call_tile c) in
    if rc =? XAIE_OK then recorded false (dma_write_channel (call_tile c) d (u8 (c_ch c)) (c_dir c)) else None
  else recorded false (rt_seq_start_queue (call_tile c) (u8 (c_ch c)) (c_dir c) (u8 (c_bd c)) (c_repeat c)).

(** The table's entry for a call, whose first record is in column [seg]. *)
Definition call_entry (c : s_call) (seg : Z) (pos : list Z) : rt_aot_sb_call :=
  SbCall (u8 (c_kind c)) (u8 (c_col c)) (u8 (c_row c)) (u8 (c_ch c)) (u8 (c_bd c)) (u8 (c_dir c)) (u8 seg) (u8 (c_repeat c))
    (if is_bd (c_kind c) then rt_aot_bd_hash (c_v c) else 0)
    (if is_bd (c_kind c)
     then [rd pos RT_SEQ_SHIM_BD_ADDR_W0; rd pos RT_SEQ_SHIM_BD_ADDR_W1; rd pos RT_SEQ_SHIM_BD_ADDR_W2]
     else [RT_AOT_NO_PATCH; RT_AOT_NO_PATCH; RT_AOT_NO_PATCH]).

Definition encode_call (c : s_call) : stE s_segs Z rt_aot_sb_call :=
  match record_call c with
  | None => throw (-1)
  | Some recs =>
    sp ← append_records recs (-1) [];
    if sp.1 <? 0 then throw (-1) else mret (call_entry c sp.1 sp.2)
  end.

Definition in_window (c : s_call) : bool := (c_row c =? 0) && (g_lo <=? c_col c) && (c_col c <=? g_hi).

Fixpoint encode_calls (cs : list s_call) : stE s_segs Z (list rt_aot_sb_call) :=
  match cs with
  | [] => mret []
  | c :: cs =>
    if in_window c then k ← encode_call c; ks ← encode_calls cs; mret (k :: ks) else encode_calls cs
  end.

(** ** The window *)

Fixpoint record_prefix (ops : list acr_op) : stE s_segs Z unit :=
  match ops with
  | [] => mret tt
  | op :: ops =>
    match record_op op false with
    | None => throw (-1)
    | Some recs => append_records recs (-1) [] ;; record_prefix ops
    end
  end.

Definition reset_segs (s : s_segs) : s_segs := Segs (rt_cpe_seg_reset <$> g_st s) (g_seg s).

(** The return routes, or nothing when one of them cannot be recorded. *)
Definition with_prefix (ops : list acr_op) (s : s_segs) : s_segs :=
  match record_prefix ops (reset_segs s) with
  | (s, Ok _) => s
  | (s, Err _) => reset_segs s
  end.

(** The table as it is emitted: an unused segment has one word 0. *)
Definition emit_window (pre s : s_segs) (ks : list rt_aot_sb_call) : rt_aot_shim_bd :=
  let ncols := g_hi - g_lo + 1 in
  let fin k := rt_cpe_seg_finish (st_at s k) (seg_words s k) in
  let flen k := (fin k).2 in
  let cols := range 0 RT_AOT_SB_MAX_SEGS in
  Table g_lo g_hi ks
    ((fun k => if k <? ncols then (if flen k =? 0 then [0] else take (Z.to_nat (flen k)) (fin k).1.2) else []) <$> cols)
    ((fun k => if k <? ncols then flen k else 0) <$> cols)
    ((fun k => if k <? ncols then (if flen k =? 0 then 0 else seg_last (fin k).1.1) else 0) <$> cols)
    ((fun k => if k <? ncols then seg_pw (st_at pre k) else 0) <$> cols)
    ((fun k => if k <? ncols then (if seg_pw (st_at pre k) =? 0 then RT_CPE_NONE else seg_last (st_at pre k)) else RT_CPE_NONE)
       <$> cols).
End window.

(** The columns of the fabric's rows. *)
Definition fab_span (fab : list (Z * Z)) : Z * Z :=
  foldl (fun '(l, h) '(c0, c1) => (if c0 <? l then c0 else l, if c1 >? h then c1 else h)) (0xFF, 0) fab.

(** The buffers at the start: static, five segments. *)
Definition segs0 : s_segs :=
  Segs (replicate 5 (Seg 0 0 0)) (replicate 5 (replicate (Z.to_nat S_SEG_WORDS) 0)).

(** [None]: no table ([g_window_ok] stays 0); [Err]: failure, no table either.
    [fab] are the rows planned, [book] the ports they use. *)
Definition build_window (has_window : bool) (shim_col : Z) (fab : list (Z * Z)) (book : acr_portbook) (cs : list s_call)
    : res Z (option rt_aot_shim_bd) :=
  if negb has_window || (len fab =? 0) then Ok None
  else
    let '(lo, hi) := fab_span fab in
    if negb (shim_col + 1 =? lo) || (hi - lo + 1 >? RT_AOT_SB_MAX_SEGS) then Ok None
    else
      match acr_plan_shim_row (u8 lo) (u8 hi) ([], ([], book)) with
      | (_, Err _) => Err (-1)
      | ((ret, _), Ok _) =>
        let pre := with_prefix lo hi ret segs0 in
        match encode_calls lo hi cs pre with
        | (_, Err e) => Err e
        | (s, Ok ks) => Ok (if 0 <? len ks then Some (emit_window lo hi pre s ks) else None)
        end
      end.
End table.
