(* ===== verification/AotWindow.v ===== *)
(** * Windows from a table ([src/src/mlir/runtime/aie_runtime.c], 3428-3502, 6156-6351, 6381-6430,
      6446-6530, 6543-6634, 6687-6850)

    A host program configures the shim's DMA in a window of calls.  Without a
    table every call runs on the capturing backend of [ShimBatch].  With one, a
    call that is the table's next is only noted, and the commit copies the
    table's segments and puts the buffers' addresses in; a call that is not the
    next one, or a commit too early, runs the noted calls after all.  In a
    batched window ([__Runtime_ctrl_aot_window]) the calls are in the table
    too.

    The fabric is one, and [dev] is its device; the port book of its plan is an
    argument.  Debug tracking of descriptors, counters, the simulator's writes
    and the check build [AIEHLC_CTRLPKT_AOT_VERIFY] are left out. *)

From stdpp Require Import base list list_numbers numbers gmap.
From S2P Require Import Prelude.
From S2P Require Import CtrlpktEncode.
From S2P Require Import Resource.
From S2P Require Import ControlPlan.
From S2P Require Import Driver.
From S2P Require Import TraceRes.
From S2P Require Import ShimBatch.
From S2P Require Import CacheSync.
From S2P Require Import RowFabric.
From S2P Require Import RowSend.
From S2P Require Import AotTable.

Local Open Scope Z_scope.
Local Open Scope c_scope.

Definition RT_SB_AOT_MAX_CALLS : Z := 128.
Definition RT_PLAIN_BD_MAX_WORDS : Z := 1023.
Definition RT_RES_SHIMROW_PORT : Z := 0.

(** ** The state *)

Record rt_sb_rec := SbRec {
  q_kind : Z; q_ch : Z; q_bd : Z; q_dir : Z; q_repeat : Z; q_tile : XAie_LocType; q_addr : Z; q_args : rt_seq_bd_args }.

Record rt_aot_win_call := WinCall {
  w_kind : Z; w_col : Z; w_row : Z; w_ch : Z; w_bd : Z; w_dir : Z; w_repeat : Z; w_bufidx : Z; w_args : list Z }.

(** [ncalls] is the length of [w_calls]. *)
Record rt_aot_window := Window { w_calls : list rt_aot_win_call; w_nbufs : Z }.

(** [g_sb] with the fields the tables use: [routed] and [cur] say whether
    [g_sb.routed] and [g_sb.f] are the fabric; [recs] and [addrs] are
    [g_sb_rec] and [g_sb_aot_addr], [sb_win] is [g_sb_win] with its buffers. *)
Record win := Win {
  sb : rt_sb_state; routed : bool; cur : bool; route_now : bool; aot : option rt_aot_shim_bd; aot_i : Z;
  aot_failed : bool; recs : list rt_sb_rec; addrs : list Z; sb_win : option (rt_aot_window * list Z) }.

Definition set_sb (b : rt_sb_state) (w : win) : win :=
  Win b (routed w) (cur w) (route_now w) (aot w) (aot_i w) (aot_failed w) (recs w) (addrs w) (sb_win w).
Definition set_routed (r now : bool) (w : win) : win :=
  Win (sb w) r (cur w) now (aot w) (aot_i w) (aot_failed w) (recs w) (addrs w) (sb_win w).
Definition set_cur (c : bool) (w : win) : win :=
  Win (sb w) (routed w) c (route_now w) (aot w) (aot_i w) (aot_failed w) (recs w) (addrs w) (sb_win w).
Definition set_aot (a : option rt_aot_shim_bd) (i : Z) (failed : bool) (w : win) : win :=
  Win (sb w) (routed w) (cur w) (route_now w) a i failed (recs w) (addrs w) (sb_win w).
Definition set_notes (rs : list rt_sb_rec) (ads : list Z) (w : win) : win :=
  Win (sb w) (routed w) (cur w) (route_now w) (aot w) (aot_i w) (aot_failed w) rs ads (sb_win w).
Definition set_sb_win (x : option (rt_aot_window * list Z)) (w : win) : win :=
  Win (sb w) (routed w) (cur w) (route_now w) (aot w) (aot_i w) (aot_failed w) (recs w) (addrs w) x.

Section window.
(** As in [ShimBatch]. *)
Context (row_shift col_shift pkt_addr resp_addr shim_col : Z) (txn_open keep : bool).
Context (fab_rows : list (Z * Z)) (dedicated_shim ready : bool).
Context (xaie : list sb_call -> sb_call -> Z) (pending_bds : list sb_call -> XAie_DmaDirection -> Z).
Context (backend : list sb_call -> backend_op -> Z * Z).
(** As in [AotTable]; and [XAie_DmaChannelEnable]. *)
Context (desc_rc : XAie_LocType -> desc_op -> Z).
Context (dma_write_bd : XAie_LocType -> list desc_op -> Z -> driver_call).
Context (dma_write_channel : XAie_LocType -> list desc_op -> Z -> Z -> driver_call).
Context (set_start_queue : XAie_LocType -> Z -> Z -> Z -> Z -> driver_call).
Context (prog : strm_call -> driver_call) (channel_enable : XAie_LocType -> Z -> XAie_DmaDirection -> driver_call).
Context (tile_type : XAie_LocType -> Z) (SHIMNOC SHIMPL XAIE_INVALID_TILE : Z) (has_dma : Z -> bool) (fields : shim_bd_fields).
Context (set_field : Z -> Z -> Z -> Z) (aie2ps : bool).
(** The buffers of the host ([s_alloc_map], [XAie_MemGetDevAddr]); the
    fabric's port book. *)
Context (allocs : list AllocEntry) (MemGetDevAddr : Z -> Z) (book : acr_portbook).
(** [g_aot]: the shim table and the batched window, when registered. *)
Context (g_aot : option (option rt_aot_shim_bd * option rt_aot_window)).

Abbreviation M := (stE (drv win sb_call) Z).
Abbreviation get f := (gets (fun s => f (rest s))).
Abbreviation upd f := (modify (upd_rest f)).

Definition shim_table : option rt_aot_shim_bd := match g_aot with Some (t, _) => t | None => None end.

(** An operation of [ShimBatch]. *)
Definition lift {A} (m : stE (drv rt_sb_state sb_call) Z A) : M A := fun s =>
  let '(s', r) := m (Drv (sb (rest s)) (calls s)) in (Drv (set_sb (rest s') (rest s)) (calls s'), r).

Definition on_device (c : driver_call) : M Z := lift (run_backend backend c).
Definition captured_call (tile : XAie_LocType) (c : driver_call) : M Z :=
  lift (RT_SB_CALL row_shift col_shift pkt_addr resp_addr txn_open keep xaie pending_bds backend tile c).

(** ** Running a call *)

Definition prog_of (r : rt_sb_rec) : driver_call :=
  if is_bd (q_kind r) then
    dma_write_bd (q_tile r) (rt_seq_bd_desc desc_rc tile_type SHIMNOC (q_tile r) (q_addr r) (q_args r)).1 (u8 (ba_bd_id (q_args r)))
  else if q_kind r =? RT_AOT_CALL_CH_OOO then
    dma_write_channel (q_tile r) (rt_seq_channel_ooo_desc desc_rc (q_tile r)).1 (q_ch r) (q_dir r)
  else rt_seq_start_queue set_start_queue (q_tile r) (q_ch r) (q_dir r) (q_bd r) (q_repeat r).

Definition rt_sb_jit_call (r : rt_sb_rec) : M unit := captured_call (q_tile r) (prog_of r) ;; mret tt.

Definition rt_sb_in_window (t : XAie_LocType) (w : win) : bool :=
  active (sb w) && (loc_row t =? 0) && (lo (sb w) <=? loc_col t) && (loc_col t <=? hi (sb w)) && negb txn_open.

Definition rec_at (w : win) (i : Z) : rt_sb_rec :=
  default (SbRec 0 0 0 0 0 (Loc 0 0) 0 no_args) (recs w !! Z.to_nat i).

(** [window] runs the calls of a batched window. *)
Definition rt_sb_aot_fail (window : rt_aot_window -> list Z -> M unit) : M unit :=
  w ← get (fun w => w);
  match aot w with
  | None => mret tt
  | Some a =>
    if aot_failed w then mret tt
    else
      upd (set_aot (Some a) (aot_i w) true) ;;
      match sb_win w with
      | Some (wn, bufs) => window wn bufs
      | None => forM (range 0 (aot_i w)) (fun i => r ← get (fun w => rec_at w i); rt_sb_jit_call r)
      end
  end.

(** Whether a call is the one of the table. *)
Definition call_matches (c : rt_aot_sb_call) (r : rt_sb_rec) (hash : Z) : bool :=
  (k_kind c =? q_kind r) && (k_col c =? loc_col (q_tile r)) && (k_row c =? loc_row (q_tile r)) &&
  (if is_bd (q_kind r) then (k_bd c =? u8 (ba_bd_id (q_args r))) && (k_hash c =? hash)
   else if q_kind r =? RT_AOT_CALL_CH_OOO then (k_ch c =? q_ch r) && (k_dir c =? q_dir r)
   else (k_ch c =? q_ch r) && (k_dir c =? q_dir r) && (k_bd c =? q_bd r) && (k_repeat c =? u8 (q_repeat r))).

Definition note (r : rt_sb_rec) (w : win) : win :=
  set_aot (aot w) (aot_i w + 1) (aot_failed w) (set_notes (wr (recs w) (aot_i w) r) (wr (addrs w) (aot_i w) (q_addr r)) w).

Definition rt_sb_aot_take (window : rt_aot_window -> list Z -> M unit) (r : rt_sb_rec) (hash : Z) : M bool :=
  w ← get (fun w => w);
  match aot w with
  | None => mret false
  | Some a =>
    if aot_failed w || negb (rt_sb_in_window (q_tile r) w) then mret false
    else
      match t_calls a !! Z.to_nat (aot_i w) with
      | Some c =>
        if (aot_i w >=? RT_SB_AOT_MAX_CALLS) || negb (call_matches c r hash)
        then rt_sb_aot_fail window ;; mret false
        else upd (note r) ;; mret true
      | None => rt_sb_aot_fail window ;; mret false
      end
  end.

(** ** The calls of the host program *)

Definition __bd_is_shim (tt : Z) : bool := (tt =? SHIMNOC) || (tt =? SHIMPL).

(** The address a descriptor gets: the device's address of a buffer, on a
    shim tile. *)
Definition shim_addr (tile : XAie_LocType) (buffer : Z) : Z :=
  if __bd_is_shim (tile_type tile) then
    match __vaddr_to_mem_offset buffer allocs with
    | Some (m, off) => MemGetDevAddr m +u64 off
    | None => buffer
    end
  else buffer.

(** The arguments of the two functions, from the 19 integers. *)
Definition bd_args (kind : Z) (v : list Z) : rt_seq_bd_args :=
  bd_args_of (SCall kind 0 0 v 0 0 0 0).

Section calls.
Context (window : rt_aot_window -> list Z -> M unit).

(** The common end of the two functions. *)
Definition bd_config (kind : Z) (tile : XAie_LocType) (addr : Z) (v : list Z) : M unit :=
  let r := SbRec kind 0 (u8 (rd v 0)) 0 0 tile addr (bd_args kind v) in
  hit ← rt_sb_aot_take window r (rt_aot_bd_hash v);
  when (negb hit) (captured_call tile (prog_of r) ;; mret tt).

Definition __Runtime_dma_bd_config_multidim (tile : XAie_LocType) (buffer : Z) (v : list Z) : M unit :=
  bd_config RT_AOT_CALL_BD tile (shim_addr tile buffer) v.

(** The buffer's address is taken as the device's. *)
Definition __Runtime_dma_bd_config_multidim_ooo (tile : XAie_LocType) (buffer : Z) (v : list Z) : M unit :=
  bd_config RT_AOT_CALL_BD_OOO tile buffer v.

Definition __Runtime_dma_channel_enable_ooo (tile : XAie_LocType) (channel dir : Z) : M unit :=
  let r := SbRec RT_AOT_CALL_CH_OOO (u8 channel) 0 (u8 dir) 0 tile 0 no_args in
  hit ← rt_sb_aot_take window r 0;
  when (negb hit)
    (captured_call tile (dma_write_channel tile (rt_seq_channel_ooo_desc desc_rc tile).1 (u8 channel) dir) ;; mret tt).

(** The I/O handle has the channel and the descriptor as bytes. *)
Definition __Runtime_startio (tile : XAie_LocType) (channel_id bd_id dir repeat : Z) : M unit :=
  lift (call xaie DrainInputs) ;;
  let r := SbRec RT_AOT_CALL_START channel_id bd_id (u8 dir) repeat tile 0 no_args in
  hit ← rt_sb_aot_take window r 0;
  when (negb hit)
    (captured_call tile (rt_seq_start_queue set_start_queue tile channel_id dir bd_id repeat) ;; mret tt).

Definition rt_aot_window_jit_call (c : rt_aot_win_call) (bufs : list Z) : M unit :=
  let t := Loc (w_row c) (w_col c) in
  if w_kind c =? RT_AOT_CALL_BD then __Runtime_dma_bd_config_multidim t (rd bufs (w_bufidx c)) (w_args c)
  else if w_kind c =? RT_AOT_CALL_BD_OOO then __Runtime_dma_bd_config_multidim_ooo t (rd bufs (w_bufidx c)) (w_args c)
  else if w_kind c =? RT_AOT_CALL_CH_OOO then __Runtime_dma_channel_enable_ooo t (w_ch c) (w_dir c)
  else __Runtime_startio t (u8 (w_ch c)) (u8 (w_bd c)) (w_dir c) (w_repeat c).

Definition _Runtime_startio_ooo (tile : XAie_LocType) (channel_id bd_id dir repeat : Z) : M unit :=
  __Runtime_dma_channel_enable_ooo tile channel_id dir ;; __Runtime_startio tile channel_id bd_id dir repeat.

Definition rt_plain_shim_bd_is_1d (tile : XAie_LocType) (n : Z) : bool :=
  (loc_row tile =? 0) && (0 <? n) && (Z.rem n 4 =? 0) && (n ÷ 4 <=? RT_PLAIN_BD_MAX_WORDS).

(** A plain descriptor; [v] are its ten integers.  One of the shim that has one
    dimension of words is configured as such, any other directly. *)
Definition __Runtime_dma_bd_config (tile : XAie_LocType) (buffer : Z) (v : list Z) : M unit :=
  let n := rd v 1 in
  if rt_plain_shim_bd_is_1d tile n
  then __Runtime_dma_bd_config_multidim tile buffer (take 10 v ++ [1; 4; n ÷ 4; 0; 0; 0; 0; 0; 0])
  else
    on_device (dma_write_bd tile
      ([DmaDescInit; DmaSetAddrLen (shim_addr tile buffer) (u32 n)] ++
       (if (rd v 5 >=? 0) && (rd v 7 >=? 0) then [DmaSetLock (rd v 5) (rd v 6) (rd v 7) (rd v 8)] else []) ++
       (if rd v 2 >=? 0 then [DmaSetNextBd (u8 (rd v 2))] else []) ++
       (if negb (rd v 3 =? 0) then [DmaSetPkt (rd v 4) 0] else []) ++
       (if rd v 9 >=? 0 then [DmaSetOutofOrderBdId (u8 (rd v 9))] else []) ++ [DmaEnableBd]) (u8 (rd v 0))) ;;
    mret tt.
End calls.

(** The calls of a batched window, each on its own.  They come back here only
    when one is not the table's, which [aot_failed] excludes then: one level is
    enough. *)
Fixpoint window_jit (fuel : nat) (wn : rt_aot_window) (bufs : list Z) : M unit :=
  forM (w_calls wn) (fun c =>
    rt_aot_window_jit_call (match fuel with O => fun _ _ => mret tt | S fuel => window_jit fuel end) c bufs).

Definition run_window : rt_aot_window -> list Z -> M unit := window_jit 1.

(** ** The commit *)

(** [None] is -1: the window's calls did not start where the return routes
    end. *)
Definition rt_sb_aot_shift (now : bool) (a : rt_aot_shim_bd) (k : Z) : option Z :=
  let pre := rd (t_prefix a) k in
  let ws := default [] (t_seg a !! Z.to_nat k) in
  if now || (pre =? 0) then Some 0
  else if (rd (t_len a) k >? pre) && ((rd (t_last a) k <? pre) || negb (rd ws pre =? rd ws 0)) then None
  else Some pre.

(** The three fields of one call's address, put into the segment [p], which
    starts at word [shift] of the table's. *)
Definition patch_call (c : rt_aot_sb_call) (addr shift : Z) (p : list Z) : list Z :=
  match rt_seq_shim_bd_addr_fields tile_type XAIE_INVALID_TILE has_dma fields set_field (Loc (k_row c) (k_col c)) addr with
  | (fld, rc) =>
    if negb (rc =? XAIE_OK) then p
    else
      foldl (fun p j =>
        let at_ := rd (k_patch c) j in
        if negb (at_ =? RT_AOT_NO_PATCH) && (at_ >=? shift)
        then wr p (at_ - shift) (rd p (at_ - shift) |' rd fld j) else p) p [0; 1; 2]
  end.

Definition rt_sb_aot_patch (a : rt_aot_shim_bd) (ads : list Z) (k shift : Z) (p : list Z) : list Z :=
  foldl (fun p i =>
    match t_calls a !! Z.to_nat i with
    | Some c => if negb (k_seg c =? k) || negb (is_bd (k_kind c)) then p else patch_call c (rd ads i) shift p
    | None => p
    end) p (range 0 (len (t_calls a))).

(** The checks for one segment: its shift, unless the table does not fit what
    is in the segment. *)
Definition apply_check (a : rt_aot_shim_bd) (w : win) (k : Z) : option Z :=
  let slen := rd (t_len a) k in
  let pre := rd (t_prefix a) k in
  if (slen >? RT_SB_SEG_WORDS) || (pre >? slen) then None
  else
    match rt_sb_aot_shift (route_now w) a k with
    | None => None
    | Some sh =>
      let have := if negb (sh =? 0) then 0 else pre in
      if negb (seg_pw (seg_at (sb w) k) =? have) ||
         negb (bool_decide (take (Z.to_nat have) (pkt_at (sb w) k) =
                            take (Z.to_nat have) (default [] (t_seg a !! Z.to_nat k))))
      then None else Some sh
    end.

(** The segment with the table's words. *)
Definition apply_segment (a : rt_aot_shim_bd) (ads : list Z) (s : rt_sb_state) (k sh : Z) : rt_sb_state :=
  let n := rd (t_len a) k - sh in
  let kept := seg_pw (seg_at s k) in
  let p := blit (pkt_at s k) kept (slice (default [] (t_seg a !! Z.to_nat k)) (sh + kept) (n - kept)) in
  put_seg k (Seg n (if n =? 0 then RT_SB_NONE else rd (t_last a) k -u32 sh) (seg_last_ctrl (seg_at s k)),
             rt_sb_aot_patch a ads k sh p) s.

Definition rt_sb_aot_apply (a : rt_aot_shim_bd) (w : win) : option rt_sb_state :=
  let n := ncols (sb w) in
  if negb (t_lo a =? lo (sb w)) || negb (t_hi a =? hi (sb w)) || negb (aot_i w =? len (t_calls a)) || (n >? RT_AOT_SB_MAX_SEGS)
  then None
  else
    match mapM (apply_check a w) (range 0 n) with
    | None => None
    | Some shifts =>
      Some (foldl (fun s k => apply_segment a (addrs w) s k (rd shifts k)) (sb w) (range 0 n))
    end.

Definition set_win_active (b : bool) (w : win) : win := set_sb (set_active b (sb w)) w.

Definition rt_sb_commit : M unit :=
  w ← get (fun w => w);
  when (active (sb w))
    (match aot w with
     | Some a =>
       if aot_failed w then mret tt
       else match rt_sb_aot_apply a w with
            | Some s => upd (set_sb s)
            | None => rt_sb_aot_fail run_window
            end
     | None => mret tt
     end ;;
     lift (rt_sb_kick pkt_addr resp_addr keep xaie pending_bds) ;;
     upd (fun w => set_aot None (aot_i w) (aot_failed w) (set_win_active false w))).

(** ** The beginning *)

(** The return routes on the capturing backend, up to the first failure. *)
Fixpoint capture_ops (ops : list acr_op) (s : rt_sb_state) : rt_sb_state * Z :=
  match ops with
  | [] => (s, XAIE_OK)
  | op :: ops =>
    let '(s, rc) := run_captured row_shift col_shift (prog (rt_seq_row_op op)) s in
    if rc =? XAIE_OK then capture_ops ops s else (s, rc)
  end.

(** [rc = ...] for each of a list of driver calls, while it is [XAIE_OK]. *)
Fixpoint on_device_ok (cs : list driver_call) : M Z :=
  match cs with
  | [] => mret XAIE_OK
  | c :: cs => rc ← on_device c; if rc =? XAIE_OK then on_device_ok cs else mret rc
  end.

(** [t_prefix_last] of the table's segment [k], and its words. *)
Definition prefix_segment (a : rt_aot_shim_bd) (s : rt_sb_state) (k : Z) : rt_sb_state :=
  let n := rd (t_prefix a) k in
  put_seg k (Seg n (if negb (n =? 0) then rd (t_prefix_last a) k else RT_SB_NONE) (seg_last_ctrl (seg_at s k)),
             blit (pkt_at s k) 0 (take (Z.to_nat n) (default [] (t_seg a !! Z.to_nat k)))) s.

(** The return routes of the table, when it is for these columns. *)
Definition table_prefix (s : rt_sb_state) : option rt_sb_state :=
  match shim_table with
  | Some a =>
    if (t_lo a =? lo s) && (t_hi a =? hi s) && (ncols s <=? RT_AOT_SB_MAX_SEGS) &&
       forallb (fun k => rd (t_prefix a) k <=? RT_SB_SEG_WORDS) (range 0 (ncols s))
    then Some (foldl (prefix_segment a) s (range 0 (ncols s))) else None
  | None => None
  end.

Definition ret_routes (ret : list acr_op) : M Z :=
  s ← get sb;
  match table_prefix s with
  | Some s => upd (set_sb s) ;; mret XAIE_OK
  | None =>
    let '(s, rc) := capture_ops ret (set_bad false s) in
    upd (set_sb s) ;;
    if bad s || negb (rc =? XAIE_OK)
    then upd (fun w => set_sb (rt_sb_reset_segs (sb w)) w) ;; on_device_ok ((fun op => prog (rt_seq_row_op op)) <$> ret)
    else mret rc
  end.

Definition rt_sb_route : M Z :=
  s ← get sb;
  let spine := Loc 0 shim_col in
  let fport := rt_shim_mm2s_port RT_RES_SHIMROW_CH in
  let rport := rt_shim_s2mm_port aie2ps RT_RES_SHIMROW_CH in
  match acr_plan_shim_row (lo s) (hi s) ([], ([], book)) with
  | (_, Err _) => mret XAIE_ERR
  | ((ret, (fwd, _)), Ok _) =>
    rc ← on_device_ok (
      [prog (EnableShimDmaToAieStrmPort spine fport); prog (StrmConnCctEnable spine SOUTH fport EAST RT_RES_SHIMROW_PORT);
       prog (StrmConnCctEnable spine EAST RT_RES_SHIMROW_PORT SOUTH rport); prog (EnableAieToShimDmaStrmPort spine rport)] ++
      ((fun op => prog (rt_seq_row_op op)) <$> fwd) ++
      [channel_enable spine RT_RES_SHIMROW_CH DMA_MM2S; channel_enable spine RT_RES_SHIMROW_CH DMA_S2MM]);
    if rc =? XAIE_OK then ret_routes ret else mret rc
  end.

Definition rt_sb_prepare : M unit :=
  a ← get (fun w => active (sb w));
  if a || negb dedicated_shim || (len fab_rows =? 0) || negb ready || txn_open then mret tt
  else
    let '(l, h) := rows_span fab_rows in
    if negb (shim_col +u32 1 =? l) || (u32 (h - l) +u32 1 >? RT_RES_SHIMROW_MAX_COLS) then mret tt
    else
      lift (rt_sb_ack_wait xaie pending_bds) ;;
      upd (fun w => set_cur true (set_sb (rt_sb_reset_segs (set_window l h (sb w))) w)) ;;
      r ← get routed;
      rc ← (if r then mret XAIE_OK else rt_sb_route);
      if rc =? XAIE_OK then
        when (negb r) (upd (set_routed true true)) ;;
        lift (rt_sb_arm pkt_addr resp_addr xaie) ;; mret tt
      else mret tt.

Definition rt_sb_begin : M unit :=
  a ← get (fun w => active (sb w));
  when (negb a)
    (upd (fun w => set_routed (routed w) false w) ;;
     w ← get (fun w => w);
     when (negb (armed (sb w) && cur w)) rt_sb_prepare ;;
     upd (fun w => set_win_active (routed w && cur w) w) ;;
     upd (fun w => set_aot (if active (sb w) then shim_table else None) 0 false w)).

(** ** Batched windows *)

Definition rt_aot_window_addr (c : rt_aot_win_call) (buf : Z) : Z :=
  if w_kind c =? RT_AOT_CALL_BD then shim_addr (Loc (w_row c) (w_col c)) buf else buf.

Definition rt_aot_window_fast (wn : rt_aot_window) (bufs : list Z) : M bool :=
  w ← get (fun w => w);
  match aot w with
  | Some a =>
    if negb (active (sb w)) || negb (len (t_calls a) =? len (w_calls wn)) || (len (w_calls wn) >? RT_SB_AOT_MAX_CALLS)
    then mret false
    else
      upd (fun w => set_sb_win (Some (wn, bufs)) (set_aot (aot w) (len (w_calls wn)) (aot_failed w) w)) ;; mret true
  | None => mret false
  end.

(** [g_sb_aot_addr] gets the addresses before the window begins. *)
Definition window_addrs (wn : rt_aot_window) (bufs : list Z) (w : win) : win :=
  set_notes (recs w)
    (imap (fun i a => match w_calls wn !! i with
                      | Some c => if is_bd (w_kind c) then rt_aot_window_addr c (rd bufs (w_bufidx c)) else a
                      | None => a
                      end) (addrs w)) w.

Definition __Runtime_ctrl_aot_window (bufs : list Z) : M unit :=
  lift (call xaie DrainInputs) ;;
  match match g_aot with Some (_, wn) => wn | None => None end with
  | Some wn =>
    if negb (len bufs =? w_nbufs wn) || (len bufs >? RT_SB_AOT_MAX_CALLS) then mret tt
    else
      upd (window_addrs wn bufs) ;;
      rt_sb_begin ;;
      fast ← rt_aot_window_fast wn bufs;
      when (negb fast)
        (upd (fun w => set_aot None (aot_i w) (aot_failed w) w) ;;
         forM (w_calls wn) (fun c => rt_aot_window_jit_call run_window c bufs)) ;;
      rt_sb_commit ;;
      upd (set_sb_win None)
  | None => mret tt
  end.
End window.
