(* ===== verification/AotSegs.v ===== *)
(** * Segments side by side

    The tool's segment and the run-time's get the same writes, but the tool's
    may start with return routes the other does not have, and the words that
    hold a buffer's address are blank in it.  [tracks] relates the two and is
    kept by every write and by the finish; it is what makes a table's words,
    cut and patched, the words the run-time would have made. *)

From stdpp Require Import base list list_numbers numbers gmap.
From S2P Require Import Prelude.
From S2P Require Import CtrlpktEncode.
From S2P Require Import RuntimePkt.
From S2P Require Import CtrlpktFormat.
From S2P Require Import CtrlpktSeg.
From S2P Require Import Resource.
From S2P Require Import ControlPlan.
From S2P Require Import Driver.
From S2P Require Import ShimBatch.

Local Open Scope Z_scope.
Local Open Scope c_scope.

Abbreviation segment := (rt_cpe_seg * list Z)%type.

(** ** Well-formed segments *)

Definition beats (w : Z) : Z := ((w >> 20) & 0x3) +u32 1.

Record seg_wf (hdr : Z) (s : segment) : Prop := {
  wf_len : len s.2 = RT_SB_SEG_WORDS;
  wf_pw : 0 <= seg_pw s.1 <= RT_SB_SEG_WORDS - 2;
  wf_last : (seg_last s.1 = RT_CPE_NONE /\ seg_pw s.1 = 0) \/
            (1 <= seg_last s.1 /\ beats (rd s.2 (seg_last s.1)) = seg_pw s.1 - seg_last s.1 - 1 /\
             rd s.2 (seg_last s.1 - 1) = hdr /\ rd s.2 0 = hdr) }.

(** The offset that would extend the last packet. *)
Definition next_off (s : segment) : Z :=
  let w := rd s.2 (seg_last s.1) in (w & 0xFFFFF) +u32 (4 *u32 beats w).
Definition no_merge (s : segment) (off : Z) : Prop := seg_last s.1 = RT_CPE_NONE \/ off <> next_off s.

Lemma seg_words_816 : RT_SB_SEG_WORDS = 816.
Proof. reflexivity. Qed.

Lemma beats_range w : 1 <= beats w <= 4.
Proof.
  unfold beats. change 0x3 with (2 ^ 2 - 1). rewrite land_low by lia.
  pose proof (Z.mod_pos_bound (w >> 20) (2 ^ 2) ltac:(lia)). rewrite u32_small; lia.
Qed.

Lemma beats_ctrl addr n op : 0 <= addr < 2 ^ 20 -> 1 <= n <= 4 -> 0 <= op < 4 ->
  beats (cpe_ctrl_word (ctrl_val addr n op 0)) = n /\ (cpe_ctrl_word (ctrl_val addr n op 0) & 0xFFFFF) = addr.
Proof. intros Ha Hn Ho. destruct (ctrl_fields_of addr n op 0 Ha Hn Ho ltac:(lia)) as [E1 E2]. split; [exact E2|exact E1]. Qed.

Lemma addr_range w : 0 <= (w & 0xFFFFF) < 2 ^ 20.
Proof. change 0xFFFFF with (2 ^ 20 - 1). rewrite land_low by lia. apply Z.mod_pos_bound. lia. Qed.

Lemma rd_wr_if (l : list Z) i j v : 0 <= i < len l -> 0 <= j -> rd (wr l i v) j = if i =? j then v else rd l j.
Proof. apply rd_wr. Qed.

Lemma len_wr (l : list Z) i v : len (wr l i v) = len l.
Proof. unfold len, wr. by rewrite length_insert. Qed.

(** Reading a word after writes, with all positions in range. *)
Ltac rd_cases :=
  repeat match goal with
  | |- context [rd (wr ?l ?i ?v) ?j] => rewrite (rd_wr l i j v) by (rewrite ?len_wr; lia)
  end;
  repeat match goal with
  | |- context [if ?a =? ?b then _ else _] => destruct (Z.eqb_spec a b)
  end.

(** ** One write *)

(** What a write does to a segment with room, as one of two cases. *)
Definition grow (hdr off v : Z) (s : segment) : segment :=
  (Seg (seg_pw s.1 + 3) (seg_pw s.1 + 1) (seg_last_ctrl s.1),
   wr (wr (wr s.2 (seg_pw s.1) hdr) (seg_pw s.1 + 1) (cpe_ctrl_word (ctrl_val (off mod 2 ^ 20) 1 OP_WRITE 0))) (seg_pw s.1 + 2) v).

Definition widen (v : Z) (s : segment) : segment :=
  let w := rd s.2 (seg_last s.1) in
  (Seg (seg_pw s.1 + 1) (seg_last s.1) (seg_last_ctrl s.1),
   wr (wr s.2 (seg_last s.1) (cpe_ctrl_word (ctrl_val (w & 0xFFFFF) (beats w + 1) OP_WRITE 0))) (seg_pw s.1) v).

Definition widens (s : segment) (off : Z) : bool :=
  negb (seg_last s.1 =? RT_CPE_NONE) &&
  (off =? next_off s) && (beats (rd s.2 (seg_last s.1)) <? cpe_words_to_boundary (rd s.2 (seg_last s.1) & 0xFFFFF)).

Lemma push_cases hdr off v s : seg_wf hdr s ->
  cpe_seg_push hdr RT_SB_SEG_WORDS off v s =
    if seg_pw s.1 + 5 <=? RT_SB_SEG_WORDS
    then (if widens s off then widen v s else grow hdr off v s, Ok tt) else (s, Err (RetCode (-1))).
Proof.
  destruct s as [sg p]. intros [Hl Hp Hlast]. cbn [fst snd] in *. unfold cpe_seg_push. rewrite seg_words_816 in *.
  rewrite (u32_small (seg_pw sg + 5)), (u32_small (seg_pw sg + 1)), (u32_small (seg_pw sg + 1 + 1)),
    (u32_small (seg_pw sg + 1 + 2)) by lia.
  destruct (Z.leb_spec (seg_pw sg + 5) 816) as [Hr|Hr]; [|by replace (_ >? 816) with true by lia].
  replace (seg_pw sg + 5 >? 816) with false by lia.
  unfold widens, next_off, widen, grow. cbn [fst snd]. fold (beats (rd p (seg_last sg))). rewrite ctrl_plain.
  replace (seg_pw sg + 1 + 1) with (seg_pw sg + 2) by lia. replace (seg_pw sg + 1 + 2) with (seg_pw sg + 3) by lia.
  destruct (seg_last sg =? RT_CPE_NONE); [done|]. cbn [negb andb].
  destruct (_ && _) eqn:E; [|done]. pose proof (beats_range (rd p (seg_last sg))).
  pose proof (addr_range (rd p (seg_last sg))) as Ha. destruct (to_boundary _ Ha) as [Hb _].
  rewrite ctrl_or_beats by lia. done.
Qed.

Lemma grow_wf hdr off v s : seg_wf hdr s -> seg_pw s.1 + 5 <= RT_SB_SEG_WORDS -> seg_wf hdr (grow hdr off v s).
Proof.
  destruct s as [sg p]. intros [Hl Hp Hlast] Hr. rewrite seg_words_816 in *. cbn [fst snd] in *.
  pose proof (Z.mod_pos_bound off (2 ^ 20) ltac:(lia)) as Ho.
  destruct (beats_ctrl (off mod 2 ^ 20) 1 OP_WRITE Ho) as [Hb _]; [lia|unfold OP_WRITE; lia|].
  split; cbn [grow fst snd seg_pw seg_last]; [by rewrite !len_wr, seg_words_816|rewrite seg_words_816; lia|].
  right. split; [lia|]. rd_cases; try lia.
  all: rewrite ?Hb; split_and!; try lia; destruct Hlast as [[? ?]|(? & ? & ? & ?)]; try lia; done.
Qed.

Lemma widen_wf hdr off v s : seg_wf hdr s -> seg_pw s.1 + 5 <= RT_SB_SEG_WORDS -> widens s off = true -> seg_wf hdr (widen v s).
Proof.
  destruct s as [sg p]. intros [Hl Hp Hlast] Hr Hw. rewrite seg_words_816 in *. cbn [fst snd] in *.
  unfold widens in Hw. cbn [fst snd] in Hw. set (w := rd p (seg_last sg)) in *.
  pose proof (addr_range w) as Ha. destruct (to_boundary _ Ha) as [Hbd _]. pose proof (beats_range w).
  destruct (beats_ctrl (w & 0xFFFFF) (beats w + 1) OP_WRITE Ha) as [Hb _]; [lia|unfold OP_WRITE; lia|].
  destruct Hlast as [[E _]|(H1 & H2 & H3 & H4)]; [rewrite E in Hw; cbn in Hw; lia|].
  split; unfold widen; cbn [fst snd seg_pw seg_last]; fold w; [by rewrite !len_wr, seg_words_816|rewrite seg_words_816; lia|].
  right. split; [lia|]. rd_cases; try lia; rewrite ?Hb; split_and!; try lia; done.
Qed.

(** ** Patches *)

(** What is put into word [i] of a segment. *)
Definition fld (ps : list (Z * Z)) (i : Z) : Z := foldr (fun p acc => if p.1 =? i then p.2 |' acc else acc) 0 ps.

Definition put_patch (p : list Z) (q : Z * Z) : list Z := wr p q.1 (rd p q.1 |' q.2).

Lemma fld_app ps qs i : fld (ps ++ qs) i = fld ps i |' fld qs i.
Proof.
  induction ps as [|p ps IH]; cbn [fld app foldr]; [by rewrite Z.lor_0_l|].
  fold (fld ps i). fold (fld (ps ++ qs) i). rewrite IH. destruct (p.1 =? i); [by rewrite Z.lor_assoc|done].
Qed.

Lemma fld_none ps i : Forall (fun p => p.1 <> i) ps -> fld ps i = 0.
Proof.
  induction 1 as [|p ps Hp _ IH]; [done|]. cbn [fld foldr]. fold (fld ps i).
  destruct (Z.eqb_spec p.1 i); [done|exact IH].
Qed.

(** At most one patch. *)
Definition one (i : Z) (u : option Z) : list (Z * Z) := match u with Some x => [(i, x)] | None => [] end.

Lemma fld_one i u j : fld (one i u) j = if i =? j then default 0 u else 0.
Proof. destruct u; cbn; destruct (i =? j); try done. by rewrite Z.lor_0_r. Qed.

Lemma one_Forall (P : Z * Z -> Prop) i u : (forall x, P (i, x)) -> Forall P (one i u).
Proof. intros H. destruct u; cbn; [by apply Forall_singleton|constructor]. Qed.

Lemma patched ps : forall p i, 0 <= i -> Forall (fun q => 0 <= q.1 < len p) ps ->
  rd (foldl put_patch p ps) i = rd p i |' fld ps i /\ len (foldl put_patch p ps) = len p.
Proof.
  induction ps as [|q ps IH]; intros p i Hi Hps; cbn [foldl fld foldr]; [by rewrite Z.lor_0_r|].
  fold (fld ps i). apply Forall_cons in Hps as [Hq Hps].
  assert (len (put_patch p q) = len p) as L by (unfold put_patch; by rewrite len_wr).
  destruct (IH (put_patch p q) i Hi) as [-> ->]; [by rewrite L|]. split; [|done].
  unfold put_patch. rewrite rd_wr by lia. destruct (Z.eqb_spec q.1 i) as [->|]; [|done]. by rewrite Z.lor_assoc.
Qed.

(** ** The relation *)

Record tracks (hdr pre : Z) (ps : list (Z * Z)) (t j : segment) : Prop := {
  tr_t : seg_wf hdr t;
  tr_j : seg_wf hdr j;
  tr_pre : 0 <= pre;
  tr_pw : seg_pw t.1 = pre + seg_pw j.1;
  tr_last : seg_pw j.1 = 0 \/ seg_last t.1 = pre + seg_last j.1;
  tr_words : forall i, 0 <= i < seg_pw j.1 -> rd j.2 i = rd t.2 (pre + i) |' fld ps i;
  tr_ps : Forall (fun q => 1 <= q.1 < seg_pw j.1 /\ q.1 <> seg_last j.1 /\ q.1 <> seg_last j.1 - 1) ps }.

Lemma wf_cases hdr s : seg_wf hdr s ->
  (seg_last s.1 = RT_CPE_NONE /\ seg_pw s.1 = 0) \/
  (1 <= seg_last s.1 /\ seg_last s.1 + 2 <= seg_pw s.1 <= seg_last s.1 + 5 /\ seg_last s.1 <> RT_CPE_NONE).
Proof.
  intros [_ Hp [H|(H & Hb & _)]]; [by left|right]. pose proof (beats_range (rd s.2 (seg_last s.1))).
  rewrite seg_words_816 in Hp. unfold RT_CPE_NONE. lia.
Qed.

(** With packets after the prefix, both decide alike on the next write. *)
Lemma tracks_last hdr pre ps t j : tracks hdr pre ps t j -> seg_pw j.1 <> 0 ->
  rd t.2 (seg_last t.1) = rd j.2 (seg_last j.1) /\ seg_last t.1 = pre + seg_last j.1.
Proof.
  intros [Ht Hj Hpre Hpw Hlast Hw Hps] Hne. destruct (wf_cases _ _ Hj) as [[_ ?]|(H1 & H2 & _)]; [lia|].
  destruct Hlast as [?|E]; [lia|]. split; [|done]. rewrite E, (Hw (seg_last j.1)) by lia.
  rewrite fld_none, Z.lor_0_r; [done|]. eapply Forall_impl; [exact Hps|]. cbn. lia.
Qed.

Lemma tracks_widens hdr pre ps t j off : tracks hdr pre ps t j -> (seg_pw j.1 = 0 -> no_merge t off) ->
  widens t off = widens j off.
Proof.
  intros H Hnm. destruct (decide (seg_pw j.1 = 0)) as [E|E].
  - destruct (wf_cases _ _ (tr_j _ _ _ _ _ H)) as [[El _]|?]; [|lia]. unfold widens. rewrite El. cbn [Z.eqb negb andb].
    destruct (Hnm E) as [->|Hne]; [done|]. destruct (_ =? RT_CPE_NONE); [done|]. cbn [negb andb].
    by destruct (Z.eqb_spec off (next_off t)).
  - destruct (tracks_last _ _ _ _ _ H E) as [Ew El]. unfold widens, next_off. rewrite Ew.
    destruct (wf_cases _ _ (tr_j _ _ _ _ _ H)) as [[_ ?]|(? & ? & Hn)]; [lia|].
    destruct (wf_cases _ _ (tr_t _ _ _ _ _ H)) as [[_ ?]|(? & ? & Hn')]; [pose proof (tr_pw _ _ _ _ _ H); pose proof (tr_pre _ _ _ _ _ H); lia|].
    by rewrite (proj2 (Z.eqb_neq _ _) Hn), (proj2 (Z.eqb_neq _ _) Hn').
Qed.

(** What a write appends to a relation: [i] is the word's position, [n] and
    [l] the new end and last packet of the run-time's segment. *)
Lemma tracks_ps ps i n l n' l' u :
  Forall (fun q => 1 <= q.1 < n /\ q.1 <> l /\ q.1 <> l - 1) ps -> n <= n' -> (l' = l \/ n <= l' - 1) ->
  1 <= i < n' /\ i <> l' /\ i <> l' - 1 ->
  Forall (fun q => 1 <= q.1 < n' /\ q.1 <> l' /\ q.1 <> l' - 1) (ps ++ one i u).
Proof.
  intros Hps Hn Hl Hi. apply Forall_app. split; [eapply Forall_impl; [exact Hps|]; cbn; lia|by apply one_Forall].
Qed.

Lemma widen_tracks hdr pre ps t j off v u :
  tracks hdr pre ps t j -> widens t off = true -> widens j off = true -> seg_pw t.1 + 5 <= RT_SB_SEG_WORDS ->
  tracks hdr pre (ps ++ one (seg_pw j.1) u) (widen v t) (widen (v |' default 0 u) j).
Proof.
  intros H Et Ej Hr. pose proof H as [Ht Hj Hpre Hpw Hlast Hw Hps]. pose proof seg_words_816 as H816.
  pose proof (wf_len _ _ Ht) as Lt. pose proof (wf_len _ _ Hj) as Lj. pose proof (wf_pw _ _ Hj) as Pj.
  destruct (wf_cases _ _ Hj) as [[El _]|(H1 & H2 & _)]; [unfold widens in Ej; by rewrite El in Ej|].
  destruct (tracks_last hdr pre ps t j H) as [El1 El2]; [lia|].
  split; [by apply (widen_wf _ off)|apply (widen_wf _ off); [done|lia|done]|done|..];
    cbn [widen fst snd seg_pw seg_last]; [lia|by right| |apply (tracks_ps ps _ (seg_pw j.1) (seg_last j.1)); [done|lia..]].
  intros i Hi. rewrite El1, El2, Hpw, fld_app, fld_one. rd_cases; try lia;
    try (rewrite (fld_none ps) by (eapply Forall_impl; [exact Hps|]; cbn; lia)); rewrite ?Z.lor_0_l, ?Z.lor_0_r; try done.
  apply Hw. lia.
Qed.

Lemma grow_tracks hdr pre ps t j off v u :
  tracks hdr pre ps t j -> seg_pw t.1 + 5 <= RT_SB_SEG_WORDS ->
  tracks hdr pre (ps ++ one (seg_pw j.1 + 2) u) (grow hdr off v t) (grow hdr off (v |' default 0 u) j).
Proof.
  intros [Ht Hj Hpre Hpw Hlast Hw Hps] Hr. pose proof seg_words_816 as H816.
  pose proof (wf_len _ _ Ht) as Lt. pose proof (wf_len _ _ Hj) as Lj. pose proof (wf_pw _ _ Hj) as Pj.
  split; [by apply grow_wf|apply grow_wf; [done|lia]|done|..];
    cbn [grow fst snd seg_pw seg_last]; [lia|right; lia| |apply (tracks_ps ps _ (seg_pw j.1) (seg_last j.1)); [done|lia..]].
  intros i Hi. rewrite Hpw, fld_app, fld_one. rd_cases; try lia;
    try (rewrite (fld_none ps) by (eapply Forall_impl; [exact Hps|]; cbn; lia)); rewrite ?Z.lor_0_l, ?Z.lor_0_r; try done.
  apply Hw. lia.
Qed.

(** A write on both sides: the run-time's word may have bits [u] more.  The
    word is the last one; a packet of its own when the write starts one. *)
Lemma push_tracks hdr pre ps t j off v u t' :
  tracks hdr pre ps t j -> (seg_pw j.1 = 0 -> no_merge t off) ->
  cpe_seg_push hdr RT_SB_SEG_WORDS off v t = (t', Ok tt) ->
  exists j', cpe_seg_push hdr RT_SB_SEG_WORDS off (v |' default 0 u) j = (j', Ok tt) /\
    tracks hdr pre (ps ++ one (seg_pw j'.1 - 1) u) t' j' /\
    seg_pw j.1 < seg_pw j'.1 /\ (widens t off = false -> seg_pw j'.1 = seg_last j'.1 + 2).
Proof.
  intros H Hnm E. pose proof (tracks_widens _ _ _ _ _ off H Hnm) as Ew. pose proof H as [Ht Hj Hpre Hpw _ _ _].
  pose proof (push_cases hdr off v t Ht) as Ec. rewrite E in Ec. rewrite (push_cases hdr off _ j Hj).
  destruct (Z.leb_spec (seg_pw t.1 + 5) RT_SB_SEG_WORDS) as [Hr|]; [|done].
  replace (seg_pw j.1 + 5 <=? RT_SB_SEG_WORDS) with true by lia. injection Ec as ->. rewrite <- Ew.
  eexists. split; [done|]. destruct (widens t off) eqn:Et.
  - split; [|split; [cbn; lia|done]]. cbn [widen fst seg_pw]. replace (seg_pw j.1 + 1 - 1) with (seg_pw j.1) by lia.
    by apply (widen_tracks _ _ _ _ _ off).
  - split; [|split; cbn; lia]. cbn [grow fst seg_pw]. replace (seg_pw j.1 + 3 - 1) with (seg_pw j.1 + 2) by lia.
    by apply grow_tracks.
Qed.

(** ** The finish *)

Definition ack_word (a : Z) : Z := cpe_ctrl_word (ctrl_val a 1 OP_WRITE_RET 0).

(** The finish of a segment that is not empty: the last word becomes a
    write-with-return, of its own packet. *)
Definition fin (s : segment) : segment :=
  let '(sg, p) := s in
  let w := rd p (seg_last sg) in
  let n := beats w in
  let a := w & 0xFFFFF in
  if n >? 1 then
    (Seg (seg_pw sg + 2) (seg_pw sg) (seg_last_ctrl sg),
     wr (wr (wr (wr (wr p (seg_last sg) (cpe_ctrl_word (ctrl_val a (n - 1) OP_WRITE 0))) (seg_pw sg - 1) (rd p (seg_last sg - 1)))
       (seg_pw sg) 0) (seg_pw sg + 1) (rd p (seg_pw sg - 1))) (seg_pw sg) (ack_word ((a + 4 * (n - 1)) mod 2 ^ 20)))
  else (sg, wr p (seg_last sg) (ack_word a)).

Lemma finish_fin hdr s : seg_wf hdr s -> seg_pw s.1 <> 0 ->
  rt_cpe_seg_finish s.1 s.2 = ((fin s).1, (fin s).2, seg_pw (fin s).1).
Proof.
  intros Hs Hne. destruct (wf_cases _ _ Hs) as [[_ ?]|(H1 & H2 & Hn)]; [lia|].
  pose proof (wf_pw _ _ Hs) as Hp. pose proof (wf_len _ _ Hs) as Hl. destruct s as [sg p]. cbn [fst snd] in *.
  rewrite seg_words_816 in *. unfold rt_cpe_seg_finish, fin. rewrite (proj2 (Z.eqb_neq _ _) Hn). cbv zeta.
  fold (beats (rd p (seg_last sg))). set (w := rd p (seg_last sg)). pose proof (beats_range w) as Hb.
  pose proof (addr_range w) as Ha. destruct (Z.gtb_spec (beats w) 1) as [Hg|Hg].
  - rewrite (u32_small (seg_pw sg - 1)), (u32_small (seg_last sg - 1)), (u32_small (seg_pw sg + 1)), (u32_small (seg_pw sg + 2)),
      (u32_small (beats w - 2)), (u32_small (beats w - 1)), (u32_small (4 * _)), (u32_small ((w & 0xFFFFF) + _)) by lia.
    rewrite ctrl_or_beats by lia. replace (beats w - 2 + 1) with (beats w - 1) by lia.
    change 0xFFFFF with (2 ^ 20 - 1) at 4. rewrite (land_low (_ + _)) by lia.
    rewrite ctrl_or_ack by (apply Z.mod_pos_bound; lia). cbn [seg_pw seg_last].
    rewrite (rd_wr p (seg_last sg)) by lia. destruct (Z.eqb_spec (seg_last sg) (seg_last sg - 1)); [lia|]. done.
  - rewrite ctrl_or_ack by done. done.
Qed.

(** A segment that ends in an acknowledged word. *)
Record seg_acked (s : segment) : Prop := {
  ak_len : len s.2 = RT_SB_SEG_WORDS;
  ak_pw : 1 <= seg_last s.1 < seg_pw s.1 /\ seg_pw s.1 <= RT_SB_SEG_WORDS;
  ak_word : exists a, 0 <= a < 2 ^ 20 /\ rd s.2 (seg_last s.1) = ack_word a }.

Lemma ack_fields a : 0 <= a < 2 ^ 20 -> beats (ack_word a) = 1 /\ (ack_word a & 0xFFFFF) = a.
Proof. intros Ha. apply beats_ctrl; [done|lia|unfold OP_WRITE_RET; lia]. Qed.

Lemma finish_again s : seg_acked s -> rt_cpe_seg_finish s.1 s.2 = (s.1, s.2, seg_pw s.1).
Proof.
  destruct s as [sg p]. intros [Hl Hp (a & Ha & Ew)]. cbn [fst snd] in *. rewrite seg_words_816 in *.
  unfold rt_cpe_seg_finish. replace (seg_last sg =? RT_CPE_NONE) with false by (unfold RT_CPE_NONE; lia). cbv zeta.
  fold (beats (rd p (seg_last sg))). rewrite Ew. destruct (ack_fields a Ha) as [-> ->].
  change (1 >? 1) with false. cbn match.
  rewrite ctrl_or_ack by done. fold (ack_word a). rewrite <- Ew. do 2 f_equal. unfold wr, rd.
  destruct (p !! Z.to_nat (seg_last sg)) as [x|] eqn:Ex; [by apply list_insert_id|].
  apply lookup_ge_None in Ex. unfold len in Hl. lia.
Qed.

Lemma fin_acked hdr s : seg_wf hdr s -> seg_pw s.1 <> 0 -> seg_acked (fin s).
Proof.
  intros Hs Hne. destruct (wf_cases _ _ Hs) as [[_ ?]|(H1 & H2 & Hn)]; [lia|].
  pose proof (wf_pw _ _ Hs) as Hp. pose proof (wf_len _ _ Hs) as Hl. destruct s as [sg p]. cbn [fst snd] in *.
  rewrite seg_words_816 in *. unfold fin. set (w := rd p (seg_last sg)). pose proof (beats_range w).
  pose proof (addr_range w) as Ha. destruct (Z.gtb_spec (beats w) 1) as [Hg|Hg].
  - split; cbn [fst snd seg_pw seg_last]; [by rewrite !len_wr, seg_words_816|rewrite seg_words_816; lia|].
    exists (((w & 0xFFFFF) + 4 * (beats w - 1)) mod 2 ^ 20). split; [apply Z.mod_pos_bound; lia|]. rd_cases; done.
  - split; cbn [fst snd seg_pw seg_last]; [by rewrite len_wr, seg_words_816|rewrite seg_words_816; lia|].
    exists (w & 0xFFFFF). split; [done|]. rd_cases; done.
Qed.

(** What the finish leaves of the words: all but the last packet's header and
    its last word. *)
Lemma fin_words hdr s i : seg_wf hdr s -> seg_pw s.1 <> 0 -> 0 <= i < seg_pw s.1 -> i <> seg_last s.1 ->
  (i <> seg_pw s.1 - 1 \/ seg_pw s.1 = seg_last s.1 + 2) -> rd (fin s).2 i = rd s.2 i.
Proof.
  intros Hs Hne Hi Hil Hiw. destruct (wf_cases _ _ Hs) as [[_ ?]|(H1 & H2 & Hn)]; [lia|].
  pose proof (wf_pw _ _ Hs) as Hp. pose proof (wf_len _ _ Hs) as Hl. pose proof (wf_last _ _ Hs) as Hb.
  destruct s as [sg p]. cbn [fst snd] in *. rewrite seg_words_816 in *. unfold fin.
  destruct Hb as [[? ?]|(_ & Hb & _)]; [lia|].
  destruct (Z.gtb_spec (beats (rd p (seg_last sg))) 1) as [Hg|Hg]; cbn [snd]; rd_cases; try lia; done.
Qed.

(** The finish keeps the relation, when a patched word that is the last one
    has a packet of its own. *)
Lemma fin_tracks hdr pre ps t j :
  tracks hdr pre ps t j -> seg_pw j.1 <> 0 ->
  Forall (fun q => q.1 = seg_pw j.1 - 1 -> seg_pw j.1 = seg_last j.1 + 2) ps ->
  seg_pw (fin t).1 = pre + seg_pw (fin j).1 /\ seg_last (fin t).1 = pre + seg_last (fin j).1 /\
  (forall i, 0 <= i < seg_pw (fin j).1 -> rd (fin j).2 i = rd (fin t).2 (pre + i) |' fld ps i) /\
  Forall (fun q => 1 <= q.1 < seg_pw (fin j).1) ps /\ fld ps (seg_last (fin j).1) = 0.
Proof.
  intros H Hne Hend. destruct (tracks_last _ _ _ _ _ H Hne) as [Ew El]. destruct H as [Ht Hj Hpre Hpw _ Hw Hps].
  destruct (wf_cases _ _ Hj) as [[_ ?]|(H1 & H2 & _)]; [lia|].
  pose proof (wf_len _ _ Ht) as Lt. pose proof (wf_len _ _ Hj) as Lj. pose proof (wf_pw _ _ Ht) as Pt.
  destruct (wf_last _ _ Hj) as [[_ ?]|(_ & Hb & _)]; [lia|].
  destruct t as [sg p], j as [sg' p']. cbn [fst snd] in *. rewrite seg_words_816 in *.
  assert (forall i, Forall (fun q => q.1 <> i) ps -> 0 <= i < seg_pw sg' -> rd p' i = rd p (pre + i)) as Hsame.
  { intros i Hf Hi. by rewrite (Hw i Hi), (fld_none ps i Hf), Z.lor_0_r. }
  assert (forall i, seg_pw sg' <= i \/ i = seg_last sg' \/ i = seg_last sg' - 1 -> Forall (fun q => q.1 <> i) ps) as Hout.
  { intros i Hi. eapply Forall_impl; [exact Hps|]. cbn. lia. }
  unfold fin. rewrite Ew, El, Hpw. set (w := rd p' (seg_last sg')) in *.
  destruct (Z.gtb_spec (beats w) 1) as [Hg|Hg]; cbn [fst snd seg_pw seg_last].
  - assert (Forall (fun q => q.1 <> seg_pw sg' - 1) ps) as Hlastw.
    { eapply Forall_impl; [exact Hend|]. cbn. lia. }
    split_and!; [lia|lia| |eapply Forall_impl; [exact Hps|]; cbn; lia|apply fld_none, Hout; lia].
    intros i Hi. replace (pre + seg_last sg' - 1) with (pre + (seg_last sg' - 1)) by lia.
    replace (pre + seg_pw sg' - 1) with (pre + (seg_pw sg' - 1)) by lia.
    rewrite <- (Hsame (seg_last sg' - 1)) by (try apply Hout; lia). rewrite <- (Hsame (seg_pw sg' - 1)) by (done || lia).
    rd_cases; try lia; try (rewrite (fld_none ps) by (apply Hout; lia)); try (subst i; rewrite (fld_none ps) by done);
      rewrite ?Z.lor_0_r; try done. apply Hw. lia.
  - split_and!; [lia|lia| |eapply Forall_impl; [exact Hps|]; cbn; lia|apply fld_none, Hout; lia].
    intros i Hi. rd_cases; try lia; [subst i; rewrite (fld_none ps) by (apply Hout; lia); by rewrite Z.lor_0_r|].
    apply Hw. lia.
Qed.

Lemma rd_blit (p : list Z) c xs i : 0 <= c -> c + len xs <= len p -> 0 <= i ->
  rd (blit p c xs) i = if (c <=? i) && (i <? c + len xs) then rd xs (i - c) else rd p i.
Proof.
  intros Hc Hl Hi. unfold blit, rd, len in *. destruct (decide (Z.to_nat c <= Z.to_nat i < Z.to_nat c + length xs)%nat).
  - rewrite list_lookup_inserts by lia. replace ((c <=? i) && (i <? c + _)) with true by lia. do 2 f_equal. lia.
  - replace ((c <=? i) && (i <? c + _)) with false by lia. f_equal.
    destruct (decide (Z.to_nat i < Z.to_nat c)%nat); [by rewrite list_lookup_inserts_lt|].
    rewrite list_lookup_inserts_ge by lia. done.
Qed.

(** The run-time's segment after a table's words were copied from word [sh] on,
    over the first [c] that it has already, and patched: what the run-time
    would have finished. *)
Lemma apply_matches hdr sh ps t j p c lc :
  tracks hdr sh ps t j -> seg_pw j.1 <> 0 ->
  Forall (fun q => q.1 = seg_pw j.1 - 1 -> seg_pw j.1 = seg_last j.1 + 2) ps ->
  let ws := take (Z.to_nat (seg_pw (fin t).1)) (fin t).2 in
  let n := seg_pw (fin t).1 - sh in
  len p = RT_SB_SEG_WORDS -> 0 <= c <= n -> take (Z.to_nat c) p = take (Z.to_nat c) (drop (Z.to_nat sh) ws) ->
  let s := (Seg n (seg_last (fin t).1 - sh) lc, foldl put_patch (blit p c (slice ws (sh + c) (n - c))) ps) in
  seg_acked s /\ n = seg_pw (fin j).1 /\ forall i, 0 <= i < n -> rd s.2 i = rd (fin j).2 i.
Proof.
  intros H Hne Hend ws n Lp Hc Ek s. destruct (fin_tracks _ _ _ _ _ H Hne Hend) as (Hpw & Hlast & Hw & Hps & Hfl).
  destruct H as [Ht Hj Hpre Hpw0 _ _ _]. assert (seg_pw t.1 <> 0) as Hnt by (pose proof (wf_pw _ _ Hj); lia).
  destruct (fin_acked hdr t Ht Hnt) as [Lt [Ht1 Ht2] _].
  destruct (fin_acked hdr j Hj Hne) as [Lj [Hj1 Hj2] (a & Ha & Ea)]. rewrite seg_words_816 in *.
  assert (n = seg_pw (fin j).1) as En by lia.
  assert (len ws = seg_pw (fin t).1) as Lw by (unfold ws, len in *; rewrite length_take; lia).
  assert (len (slice ws (sh + c) (n - c)) = n - c) as Ls.
  { unfold slice, len in *. rewrite length_take, length_drop. lia. }
  assert (Forall (fun q => 0 <= q.1 < len (blit p c (slice ws (sh + c) (n - c)))) ps) as Hps'.
  { unfold len. rewrite length_blit. fold (len p). eapply Forall_impl; [exact Hps|]. cbn. lia. }
  assert (forall i, 0 <= i < n -> rd s.2 i = rd (fin j).2 i) as Hrd.
  { intros i Hi. cbn [s snd]. destruct (patched ps (blit p c (slice ws (sh + c) (n - c))) i ltac:(lia) Hps') as [-> _].
    rewrite (Hw i) by lia. f_equal. rewrite rd_blit by lia. rewrite Ls.
    destruct (Z.leb_spec c i) as [Hci|Hci]; cbn [andb].
    - replace (i <? c + (n - c)) with true by lia. rewrite rd_slice by lia.
      unfold ws. rewrite rd_take by lia. f_equal. lia.
    - apply (f_equal (fun l => rd l i)) in Ek. rewrite !rd_take in Ek by lia. rewrite Ek. unfold rd. rewrite lookup_drop.
      unfold ws. rewrite lookup_take_lt by lia. do 2 f_equal. lia. }
  split; [|by split]. split; cbn [s fst snd seg_pw seg_last].
  - destruct (patched ps (blit p c (slice ws (sh + c) (n - c))) 0 ltac:(lia) Hps') as [_ ->]. unfold len. rewrite length_blit. exact Lp.
  - rewrite seg_words_816. lia.
  - exists a. split; [done|]. rewrite <- Ea. replace (seg_last (fin t).1 - sh) with (seg_last (fin j).1) by lia. apply Hrd. lia.
Qed.

(** ** The prefix *)

(** Writes after the prefix leave its words. *)
Lemma push_head hdr pre ps t j off v t' i :
  tracks hdr pre ps t j -> (seg_pw j.1 = 0 -> no_merge t off) ->
  cpe_seg_push hdr RT_SB_SEG_WORDS off v t = (t', Ok tt) -> 0 <= i < pre -> rd t'.2 i = rd t.2 i.
Proof.
  intros H Hnm E Hi. pose proof (tracks_widens _ _ _ _ _ off H Hnm) as Ew. pose proof H as [Ht Hj Hpre Hpw _ _ _].
  rewrite (push_cases hdr off v t Ht) in E. pose proof (wf_len _ _ Ht) as Lt. pose proof (wf_pw _ _ Ht) as Pt.
  pose proof (wf_pw _ _ Hj) as Pj. destruct (Z.leb_spec (seg_pw t.1 + 5) RT_SB_SEG_WORDS); [|done]. injection E as <-. rewrite seg_words_816 in *.
  destruct (widens t off) eqn:Et.
  - destruct (wf_cases _ _ Hj) as [[El _]|(H1 & H2 & _)]; [symmetry in Ew; unfold widens in Ew; by rewrite El in Ew|].
    destruct (tracks_last hdr pre ps t j H) as [_ El]; [lia|]. cbn [widen snd]. rd_cases; lia || done.
  - cbn [grow snd]. rd_cases; lia || done.
Qed.

Lemma fin_head hdr pre ps t j i :
  tracks hdr pre ps t j -> seg_pw j.1 <> 0 -> 0 <= i < pre -> rd (fin t).2 i = rd t.2 i.
Proof.
  intros H Hne Hi. destruct (tracks_last _ _ _ _ _ H Hne) as [_ El]. destruct H as [Ht Hj Hpre Hpw _ _ _].
  destruct (wf_cases _ _ Hj) as [[_ ?]|(H1 & H2 & _)]; [lia|]. apply (fin_words hdr); [done|lia..].
Qed.

(** A finished segment starts with its header, also after the prefix. *)
Lemma fin_start hdr s : seg_wf hdr s -> seg_pw s.1 <> 0 -> rd (fin s).2 0 = hdr.
Proof.
  intros Hs Hne. destruct (wf_cases _ _ Hs) as [[_ ?]|(H1 & H2 & _)]; [lia|].
  destruct (wf_last _ _ Hs) as [[_ ?]|(_ & _ & _ & E)]; [lia|]. rewrite (fin_words hdr); [done|done|lia..].
Qed.

Lemma fin_after hdr pre ps t j :
  tracks hdr pre ps t j -> seg_pw j.1 <> 0 ->
  Forall (fun q => q.1 = seg_pw j.1 - 1 -> seg_pw j.1 = seg_last j.1 + 2) ps -> rd (fin t).2 pre = hdr.
Proof.
  intros H Hne Hend. destruct (fin_tracks _ _ _ _ _ H Hne Hend) as (Hpw & _ & Hw & Hps & _).
  destruct H as [Ht Hj Hpre _ _ _ Hps0]. destruct (fin_acked hdr j Hj Hne) as [_ [Hl _] _].
  specialize (Hw 0 ltac:(lia)). rewrite fld_none, Z.lor_0_r, Z.add_0_r in Hw by (eapply Forall_impl; [exact Hps|]; cbn; lia).
  rewrite <- Hw. by apply fin_start.
Qed.

(** The return routes of a column without calls: the finish adds no word, or
    the word after them is not a packet's first. *)
Lemma ack_bit a : 0 <= a < 2 ^ 20 -> Z.testbit (ack_word a) 23 = true.
Proof.
  intros Ha. unfold ack_word. rewrite cpe_ctrl_word_val by (unfold ctrl_val, OP_WRITE_RET; lia).
  apply Z.testbit_true; [lia|]. pose proof (cpe_parity_range (ctrl_val a 1 OP_WRITE_RET 0)) as Hp. revert Hp.
  generalize (cpe_parity (ctrl_val a 1 OP_WRITE_RET 0)) as p. intros p Hp. unfold ctrl_val, OP_WRITE_RET.
  Z.div_mod_to_equations. lia.
Qed.

Lemma fin_idle hdr s : seg_wf hdr s -> seg_pw s.1 <> 0 -> Z.testbit hdr 23 = false ->
  seg_pw (fin s).1 = seg_pw s.1 \/
  (seg_pw s.1 < seg_pw (fin s).1 /\ seg_last (fin s).1 = seg_pw s.1 /\ rd (fin s).2 (seg_pw s.1) <> rd (fin s).2 0).
Proof.
  intros Hs Hne Hh. destruct (fin_acked hdr s Hs Hne) as [_ _ (a & Ha & Ea)]. pose proof (fin_start hdr s Hs Hne) as E0.
  destruct (beats (rd s.2 (seg_last s.1)) >? 1) eqn:Eb; [right|left]; destruct s as [sg p]; unfold fin in *; cbn [fst snd] in *;
    rewrite Eb in *; cbn [fst snd seg_pw seg_last] in *; [|done].
  split_and!; [lia|done|]. rewrite E0, Ea. intros E. pose proof (ack_bit a Ha) as Hb. congruence.
Qed.

(** ** Lists of writes *)

(** The writes [ws] (offset and word) and where each word went. *)
Fixpoint push_list (hdr : Z) (ws : list (Z * Z)) (s : segment) : option (segment * list Z) :=
  match ws with
  | [] => Some (s, [])
  | (off, v) :: ws =>
    match cpe_seg_push hdr RT_SB_SEG_WORDS off v s with
    | (s, Ok _) => match push_list hdr ws s with Some (s', pos) => Some (s', (seg_pw s.1 - 1) :: pos) | None => None end
    | (_, Err _) => None
    end
  end.

Definition with_bits (ws : list (Z * Z)) (us : list (option Z)) : list (Z * Z) :=
  zip_with (fun w u => (w.1, w.2 |' default 0 u)) ws us.
Definition patches (pos : list Z) (us : list (option Z)) : list (Z * Z) := concat (zip_with one pos us).

(** A write on a line boundary starts a packet. *)
Lemma widens_aligned s off : 0 <= off -> off mod 16 = 0 -> widens s off = false.
Proof.
  intros Ho Hm. unfold widens. destruct (_ =? RT_CPE_NONE); [done|]. cbn [negb andb]. unfold next_off.
  set (w := rd s.2 (seg_last s.1)). pose proof (beats_range w). pose proof (addr_range w) as Ha.
  rewrite (u32_small (4 * beats w)), u32_small by lia. apply andb_false_iff. unfold cpe_words_to_boundary.
  change 0xF with (2 ^ 4 - 1). rewrite (land_low _ 4) by lia. change (2 ^ 4) with 16.
  rewrite u32_small by (Z.div_mod_to_equations; lia).
  destruct (Z.eqb_spec off ((w & 0xFFFFF) + 4 * beats w)) as [E|]; [right|by left].
  unfold z2b. destruct (Z.eqb_spec ((16 - (w & 0xFFFFF) mod 16) / 4) 0); cbn [negb]; apply Z.ltb_ge;
    Z.div_mod_to_equations; lia.
Qed.

(** A patched last word is on a line boundary. *)
Definition aligned (ws : list (Z * Z)) (us : list (option Z)) : Prop :=
  forall w x, last ws = Some w -> last us = Some (Some x) -> 0 <= w.1 /\ w.1 mod 16 = 0.
Definition ends (j : segment) (ps : list (Z * Z)) : Prop :=
  Forall (fun q => q.1 = seg_pw j.1 - 1 -> seg_pw j.1 = seg_last j.1 + 2) ps.

Lemma push_list_tracks hdr pre ws : forall us ps t j t' pos,
  tracks hdr pre ps t j -> length us = length ws -> aligned ws us ->
  (seg_pw j.1 = 0 -> forall w, head ws = Some w -> no_merge t w.1) ->
  push_list hdr ws t = Some (t', pos) ->
  exists j' pos', push_list hdr (with_bits ws us) j = Some (j', pos') /\
    tracks hdr pre (ps ++ patches pos' us) t' j' /\ pos = (Z.add pre <$> pos') /\ length pos' = length ws /\
    (forall i, 0 <= i < pre -> rd t'.2 i = rd t.2 i) /\
    (ws <> [] -> seg_pw j.1 < seg_pw j'.1 /\ ends j' (ps ++ patches pos' us)).
Proof.
  induction ws as [|[off v] ws IH]; intros us ps t j t' pos H Hl Hal Hnm E; cbn [push_list] in E.
  { destruct us; [|done]. simplify_eq. exists j, []. split_and!; try done. unfold patches. cbn. by rewrite app_nil_r. }
  destruct us as [|u us]; [done|]. injection Hl as Hl.
  destruct (cpe_seg_push hdr RT_SB_SEG_WORDS off v t) as [t1 [[]|e]] eqn:Ep; [|done].
  assert (seg_pw j.1 = 0 -> no_merge t off) as Hnm0 by (intros E0; exact (Hnm E0 (off, v) eq_refl)).
  destruct (push_tracks hdr pre ps t j off v u t1 H Hnm0 Ep) as (j1 & Ej & H1 & Hgt & Hone).
  destruct (push_list hdr ws t1) as [[t2 pos2]|] eqn:Er; [|done]. injection E as <- <-.
  destruct (IH us _ t1 j1 t2 pos2 H1 Hl) as (j' & pos' & Ej' & H' & -> & L & Hhead & Hgt'); [| |done|].
  { intros w x Hw Hx. destruct ws as [|w0 ws]; [done|]. destruct us as [|u0 us]; [done|]. by apply (Hal w x). }
  { intros E0. pose proof (wf_pw _ _ (tr_j _ _ _ _ _ H)). lia. }
  exists j', ((seg_pw j1.1 - 1) :: pos'). cbn [with_bits zip_with push_list fst snd]. rewrite Ej.
  fold (with_bits ws us). rewrite Ej'.
  assert (patches ((seg_pw j1.1 - 1) :: pos') (u :: us) = one (seg_pw j1.1 - 1) u ++ patches pos' us) as Epa by done.
  rewrite Epa, (app_assoc ps). split_and!; [done|done| |cbn; lia| |].
  - cbn. f_equal. rewrite (tr_pw _ _ _ _ _ H1). lia.
  - intros i Hi. rewrite Hhead by done. by eapply push_head.
  - intros _. destruct ws as [|w0 ws]; [|destruct (Hgt' ltac:(done)); by split; [lia|]].
    destruct us; [|done]. cbn in Ej'. simplify_eq. split; [lia|].
    unfold ends. apply Forall_app. split; [apply Forall_app; split|constructor].
    + eapply Forall_impl; [exact (tr_ps _ _ _ _ _ H)|]. cbn. lia.
    + destruct u as [x|]; [|constructor]. apply Forall_singleton. intros _. apply Hone.
      destruct (Hal (off, v) x eq_refl eq_refl). by apply widens_aligned.
Qed.
