(* ===== verification/AotBuild.v ===== *)
(** * Building a table, beside the run-time

    The tool's recording of a call and the run-time's capture of it append the
    same words to the same segment, up to the bits of a buffer's address; over
    the calls of a window the tool's segments and the run-time's stay related
    by [tracks]. *)

From stdpp Require Import base list list_numbers numbers gmap.
From S2P Require Import Prelude.
From S2P Require Import CtrlpktEncode.
From S2P Require Import RuntimePkt.
From S2P Require Import CtrlpktFormat.
From S2P Require Import CtrlpktSeg.
From S2P Require Import Resource.
From S2P Require Import ControlPlan.
From S2P Require Import Driver.
From S2P Require Import TraceRes.
From S2P Require Import ShimBatch.
From S2P Require Import RowFabric.
From S2P Require Import AotTable.
From S2P Require Import AotWindow.
From S2P Require Import AotSegs.

Local Open Scope Z_scope.
Local Open Scope c_scope.

Definition shim_hdr (k : Z) : Z := cpe_stream_hdr (acr_shim_row_id (u8 k)).

Lemma shim_hdr_bit k : 0 <= k < 5 -> Z.testbit (shim_hdr k) 23 = false.
Proof.
  intros H. assert (k = 0 \/ k = 1 \/ k = 2 \/ k = 3 \/ k = 4) as [-> | [-> | [-> | [-> | ->]]]] by lia; by vm_compute.
Qed.

(** ** The writes of a driver call *)

(** The blocks a call writes when all succeed, unless it asks for more than
    writes; and the code it returns. *)
Fixpoint writes (c : driver_call) : option (list (Z * list Z) * Z) :=
  match c with
  | Return rc => Some ([], rc)
  | Do op k =>
    match op_writes op, writes (k XAIE_OK 0) with
    | Some b, Some (bs, rc) => Some (b :: bs, rc)
    | _, _ => None
    end
  end.

Fixpoint block_recs (a i : Z) (ws : list Z) : list s_rec :=
  match ws with [] => [] | v :: ws => Rec (a +u64 (4 *u32 i)) v :: block_recs a (i + 1) ws end.
Definition recs_of (b : Z * list Z) : list s_rec := block_recs b.1 0 b.2.

Lemma rec_words_spec a ws : forall i g,
  (exists recs, rec_words a i ws g = ((recs, true), XAIE_ERR)) \/
  rec_words a i ws g = ((g.1 ++ block_recs a i ws, g.2), XAIE_OK).
Proof.
  induction ws as [|v ws IH]; intros i [recs bad]; cbn [rec_words block_recs fst snd]; [right; by rewrite app_nil_r|].
  unfold rec_w32. cbn [fst snd]. destruct (_ >=? S_MAX_REC); [left; by eexists|]. cbn match.
  change (XAIE_OK =? XAIE_OK) with true. cbn match. destruct (IH (i + 1) (recs ++ [Rec (a +u64 4 *u32 i) v], bad)) as [H | ->]; [by left|right].
  cbn [fst snd]. by rewrite <- app_assoc.
Qed.

Lemma run_recorded_bad c : forall recs, exists recs' rc, run_recorded false c (recs, true) = ((recs', true), rc).
Proof.
  induction c as [rc|op k IH]; intros recs; cbn [run_recorded]; [by eexists _, _|].
  assert (exists recs' rc, rec_backend false op (recs, true) = ((recs', true), rc)) as (recs' & rc & ->); [|apply IH].
  destruct op as [a v|a ws|a ws| | | | | ]; cbn [rec_backend rec_bw32]; try by eexists _, _.
  - unfold rec_w32. cbn. destruct (_ >=? _); by eexists _, _.
  - destruct (rec_words_spec a ws 0 (recs, true)) as [[? ->] | ->]; by eexists _, _.
  - destruct (rec_words_spec a ws 0 (recs, true)) as [[? ->] | ->]; by eexists _, _.
Qed.

Lemma rec_op_spec op g :
  (exists recs rc, rec_backend false op g = ((recs, true), rc)) \/
  (exists a ws, op_writes op = Some (a, ws) /\
     (0 <= a < 2 ^ 64 -> rec_backend false op g = ((g.1 ++ recs_of (a, ws), g.2), XAIE_OK))).
Proof.
  destruct op as [a v|a ws|a ws| | | | | ]; cbn [rec_backend rec_bw32 op_writes]; try (left; by eexists _, _).
  - unfold rec_w32. destruct (_ >=? _); [left; by eexists _, _|right]. exists a, [v]. split; [done|]. intros Ha.
    unfold recs_of. cbn [fst snd block_recs]. change (4 *u32 0) with 0. by rewrite Z.add_0_r, u64_small.
  - destruct (rec_words_spec a ws 0 g) as [[? ->] | ->]; [left; by eexists _, _|right]. by exists a, ws.
  - destruct (rec_words_spec a ws 0 g) as [[? ->] | ->]; [left; by eexists _, _|right]. by exists a, ws.
Qed.

Section build.
Context (col_shift win_lo win_n : Z).
Hypothesis shift_ok : 20 <= col_shift <= 28.
Hypothesis window_ok : 0 <= win_lo /\ 1 <= win_n <= 5 /\ win_lo + win_n <= 64.

(** ** Writes to one shim tile *)

Definition tile_base (col : Z) : Z := col * 2 ^ col_shift.

(** A block of register writes of the shim tile in column [col]. *)
Definition block_in (col : Z) (b : Z * list Z) : Prop :=
  b.2 <> [] /\ 0 <= b.1 - tile_base col /\ b.1 - tile_base col + 4 * len b.2 <= 2 ^ 20.

(** A call that writes registers of one shim tile only. *)
Fixpoint writes_in (col : Z) (c : driver_call) : Prop :=
  match c with
  | Return _ => True
  | Do op k => match op_writes op with Some b => block_in col b | None => True end /\ forall rc v, writes_in col (k rc v)
  end.

Lemma base_range col : 0 <= col < 256 -> 0 <= tile_base col /\ tile_base col + 2 ^ 20 <= 2 ^ 36.
Proof using shift_ok.
  intros Hc. unfold tile_base. assert (2 ^ 20 <= 2 ^ col_shift <= 2 ^ 28) by (split; apply Z.pow_le_mono_r; lia).
  change (2 ^ 36) with (2 ^ 28 * 2 ^ 8). change (2 ^ 20) with 1048576 in *. change (2 ^ 8) with 256. nia.
Qed.

Lemma decode_tile col off : 0 <= col < 256 -> 0 <= off < 2 ^ 20 ->
  rt_ctrl_txn_decode_regoff 20 col_shift (tile_base col + off) = (col, 0, off) /\
  decode 20 col_shift (tile_base col + off) = (col, 0, off).
Proof using shift_ok.
  intros Hc Ho. unfold tile_base.
  assert (2 ^ col_shift = 2 ^ 20 * 2 ^ (col_shift - 20) /\ 1 <= 2 ^ (col_shift - 20) <= 2 ^ 8) as [Hp Hq].
  { split; [rewrite <- Z.pow_add_r by lia; f_equal; lia|].
    split; [apply (Z.pow_le_mono_r 2 0); lia|apply Z.pow_le_mono_r; lia]. }
  set (q := 2 ^ (col_shift - 20)) in *. set (a := col * 2 ^ col_shift + off).
  assert (a / 2 ^ col_shift = col) as E1 by (symmetry; apply Z.div_unique with off; unfold a; nia).
  assert (a mod 2 ^ 20 = off) as E2 by (symmetry; apply Z.mod_unique with (col * q); unfold a; nia).
  assert (a / 2 ^ 20 = col * q) as E3 by (symmetry; apply Z.div_unique with off; unfold a; nia).
  unfold rt_ctrl_txn_decode_regoff, decode. cbv zeta.
  change (20 >=? 32) with false. cbn match. change ((1 <<u32 20) -u32 1) with (2 ^ 20 - 1).
  rewrite (u32_small (col_shift - 20)) by lia. replace (col_shift - 20 >=? 32) with false by lia. cbn match.
  change (Z.shiftl 1 20 - 1) with (2 ^ 20 - 1). rewrite !(Z.shiftl_1_l (col_shift - 20)). fold q.
  rewrite (u32_small q), (u32_small (q - 1)) by lia. unfold q at 1 2. rewrite !land_low, !Z.shiftr_div_pow2 by lia.
  fold q. rewrite E1, E2, E3. rewrite Z_mod_mult. by rewrite u8_small, u32_small by lia.
Qed.

(** The writes of a block, by offset. *)
Fixpoint block_writes (off : Z) (ws : list Z) : list (Z * Z) :=
  match ws with [] => [] | v :: ws => (off, v) :: block_writes (off + 4) ws end.
Definition block_ov (col : Z) (b : Z * list Z) : list (Z * Z) := block_writes (b.1 - tile_base col) b.2.
Definition rec_ov (col : Z) (r : s_rec) : Z * Z := (r_regoff r - tile_base col, r_val r).
Definition rec_in (col : Z) (r : s_rec) : Prop := 0 <= r_regoff r - tile_base col < 2 ^ 20.

Lemma block_recs_ov col a ws : forall i, 0 <= col < 256 -> 0 <= i -> 0 <= a - tile_base col ->
  a - tile_base col + 4 * (i + len ws) <= 2 ^ 20 ->
  rec_ov col <$> block_recs a i ws = block_writes (a - tile_base col + 4 * i) ws /\ Forall (rec_in col) (block_recs a i ws).
Proof using shift_ok.
  induction ws as [|v ws IH]; intros i Hc Hi Ha Hl; [done|]. cbn [block_recs block_writes fmap list_fmap].
  rewrite len_cons in Hl. pose proof (len_nonneg ws). destruct (base_range col Hc) as [Hb0 Hb1].
  change (2 ^ 36) with 68719476736 in *. change (2 ^ 20) with 1048576 in *.
  rewrite u32_small by lia. rewrite u64_small by lia. destruct (IH (i + 1)) as [-> IH2]; [lia..|].
  split; [|constructor; [unfold rec_in; cbn; change (2 ^ 20) with 1048576; lia|done]].
  unfold rec_ov at 1. cbn [r_regoff r_val]. f_equal; [f_equal; lia|]. f_equal. lia.
Qed.

Lemma recs_of_ov col b : 0 <= col < 256 -> block_in col b ->
  rec_ov col <$> recs_of b = block_ov col b /\ Forall (rec_in col) (recs_of b).
Proof using shift_ok.
  intros Hc (Hne & Ha & Hl). destruct (block_recs_ov col b.1 b.2 0 Hc) as [E F]; [lia..|].
  unfold recs_of, block_ov. rewrite E. split; [|done]. f_equal. lia.
Qed.

(** What a recorded call writes. *)
Lemma run_recorded_writes col c : forall g recs rc, 0 <= col < 256 -> writes_in col c ->
  run_recorded false c g = ((recs, false), rc) ->
  exists bs, writes c = Some (bs, rc) /\ recs = g.1 ++ concat (recs_of <$> bs) /\ Forall (block_in col) bs.
Proof using shift_ok.
  induction c as [rc0|op k IH]; intros g recs rc Hc Hin E; cbn [run_recorded writes] in *.
  { injection E as -> ->. exists []. split_and!; [done|cbn; by rewrite app_nil_r|constructor]. }
  destruct Hin as [Hop Hk]. destruct (rec_op_spec op g) as [(r & c' & E')|(a & ws & Ew & E')].
  { rewrite E' in E. destruct (run_recorded_bad (k c' 0) r) as (? & ? & E2). congruence. }
  rewrite Ew in *. destruct (base_range col Hc) as [Hb0 Hb1]. destruct Hop as (Hne & Ha & Hl). cbn [fst snd] in *.
  pose proof (len_nonneg ws). change (2 ^ 36) with 68719476736 in *. change (2 ^ 20) with 1048576 in *.
  rewrite E' in E by (change (2 ^ 64) with 18446744073709551616; lia).
  destruct (IH XAIE_OK 0 _ _ _ Hc (Hk _ _) E) as (bs & -> & -> & Hbs).
  exists ((a, ws) :: bs). split_and!; [done|cbn; by rewrite <- app_assoc|]. constructor; [|done].
  split_and!; [done|done|cbn; change (2 ^ 20) with 1048576; lia].
Qed.

Lemma recorded_writes col c recs : 0 <= col < 256 -> writes_in col c -> recorded false c = Some recs ->
  exists bs, writes c = Some (bs, XAIE_OK) /\ Forall (block_in col) bs /\
    rec_ov col <$> recs = concat (block_ov col <$> bs) /\ Forall (rec_in col) recs.
Proof using shift_ok.
  intros Hc Hin E. unfold recorded in E. destruct (run_recorded false c ([], false)) as [[rs bad] rc] eqn:Er.
  destruct (Z.eqb_spec rc XAIE_OK) as [->|]; [|done]. destruct bad; [done|]. injection E as <-.
  destruct (run_recorded_writes col c _ _ _ Hc Hin Er) as (bs & Ew & -> & Hbs).
  exists bs. split_and!; [done|done|..]; cbn [fst app]; clear Ew Er.
  - induction Hbs as [|b bs Hb _ IH]; [done|]. cbn [fmap list_fmap concat]. rewrite fmap_app, (proj1 (recs_of_ov col b Hc Hb)).
    by f_equal.
  - induction Hbs as [|b bs Hb _ IH]; [constructor|]. cbn. apply Forall_app. split; [by apply recs_of_ov|done].
Qed.

(** ** Appending, in the tool and at run time *)

Definition tseg (s : s_segs) (k : Z) : segment := (st_at s k, seg_words s k).
Definition jseg (s : rt_sb_state) (k : Z) : segment := (seg_at s k, pkt_at s k).
Definition tput (k : Z) (x : segment) (s : s_segs) : s_segs := Segs (wr (g_st s) k x.1) (wr (g_seg s) k x.2).

Definition tool_ok (s : s_segs) : Prop := length (g_st s) = 5%nat /\ length (g_seg s) = 5%nat.
Definition jit_ok (s : rt_sb_state) : Prop :=
  (lo s = win_lo /\ hi s = win_lo + win_n - 1) /\ length (seg s) = 5%nat /\ length (pkt s) = 5%nat.

Lemma wr_twice {A} (l : list A) k x y : wr (wr l k x) k y = wr l k y.
Proof using. apply list_insert_insert_eq. Qed.

Lemma wr_same {A} (l : list A) k d : (Z.to_nat k < length l)%nat -> wr l k (default d (l !! Z.to_nat k)) = l.
Proof using. intros H. destruct (lookup_lt_is_Some_2 l _ H) as [x E]. rewrite E. by apply list_insert_id. Qed.

Lemma default_wr {A} (l : list A) k x d j : (Z.to_nat k < length l)%nat -> 0 <= k -> 0 <= j ->
  default d (wr l k x !! Z.to_nat j) = if j =? k then x else default d (l !! Z.to_nat j).
Proof using.
  intros H Hk Hj. unfold wr. destruct (Z.eqb_spec j k) as [->|]; [by rewrite list_lookup_insert_eq|].
  by rewrite list_lookup_insert_ne by lia.
Qed.

Lemma tput_at k x s j : tool_ok s -> 0 <= k < 5 -> 0 <= j -> tseg (tput k x s) j = if j =? k then x else tseg s j.
Proof using.
  intros [L1 L2] Hk Hj. unfold tseg, st_at, seg_words, tput. cbn [g_st g_seg].
  rewrite !default_wr by lia. destruct (j =? k); [by destruct x|done].
Qed.
Lemma tput_ok k x s : tool_ok s -> tool_ok (tput k x s).
Proof using. unfold tool_ok, tput, wr. cbn. by rewrite !length_insert. Qed.
Lemma tput_twice k x y s : tput k y (tput k x s) = tput k y s.
Proof using. unfold tput. cbn. by rewrite !wr_twice. Qed.
Lemma tput_same k s : tool_ok s -> 0 <= k < 5 -> tput k (tseg s k) s = s.
Proof using.
  intros [L1 L2] Hk. unfold tput, tseg, st_at, seg_words. cbn [fst snd]. rewrite !wr_same by lia. by destruct s.
Qed.

Lemma jput_at k x s j : jit_ok s -> 0 <= k < 5 -> 0 <= j -> jseg (put_seg k x s) j = if j =? k then x else jseg s j.
Proof using.
  intros (_ & L1 & L2) Hk Hj. unfold jseg, seg_at, pkt_at, put_seg, set_segs. cbn [seg pkt].
  rewrite !default_wr by lia. destruct (j =? k); [by destruct x|done].
Qed.
Lemma jput_ok k x s : jit_ok s -> jit_ok (put_seg k x s).
Proof using. unfold jit_ok, put_seg, wr. cbn. by rewrite !length_insert. Qed.
Lemma jput_twice k x y s : put_seg k y (put_seg k x s) = put_seg k y s.
Proof using. unfold put_seg, set_segs. cbn. by rewrite !wr_twice. Qed.
Lemma jput_same k s : jit_ok s -> 0 <= k < 5 -> put_seg k (jseg s k) s = s.
Proof using.
  intros (_ & L1 & L2) Hk. unfold put_seg, jseg, seg_at, pkt_at, set_segs. cbn [fst snd]. rewrite !wr_same by lia. by destruct s.
Qed.

(** The run-time's loop over a block. *)
Lemma loop_push hdr ws : forall off s s' pos, 0 <= off -> off + 4 * len ws <= 2 ^ 20 ->
  push_list hdr (block_writes off ws) s = Some (s', pos) -> cpe_seg_write_loop hdr RT_SB_SEG_WORDS off ws s = (s', Ok tt).
Proof using.
  induction ws as [|v ws IH]; intros off s s' pos Ho Hl E; cbn [push_list block_writes cpe_seg_write_loop] in *; [by simplify_eq|].
  rewrite len_cons in Hl. pose proof (len_nonneg ws). change (2 ^ 20) with 1048576 in *.
  destruct (cpe_seg_push hdr RT_SB_SEG_WORDS off v s) as [s1 [[]|e]] eqn:Ep; [|done].
  destruct (push_list hdr (block_writes (off + 4) ws) s1) as [[s2 pos2]|] eqn:Er; [|done]. simplify_eq.
  erewrite bind_Ok by exact Ep. rewrite u32_small by lia. eapply IH; [lia|change (2 ^ 20) with 1048576; lia|exact Er].
Qed.

Lemma record_push col k b s x pos : 0 <= k < win_n -> col = win_lo + k -> jit_ok s -> block_in col b ->
  push_list (shim_hdr k) (block_ov col b) (jseg s k) = Some (x, pos) ->
  rt_sb_record 20 col_shift b.1 b.2 s = (put_seg k x s, XAIE_OK).
Proof using shift_ok window_ok.
  intros Hk -> Hs (Hne & Ha & Hl) E. pose proof Hs as ((El & Eh) & _). unfold rt_sb_record.
  replace b.1 with (tile_base (win_lo + k) + (b.1 - tile_base (win_lo + k))) at 1 by lia.
  destruct b as [a ws]. cbn [fst snd] in *. destruct ws as [|v ws]; [done|]. rewrite len_cons in Hl.
  pose proof (len_nonneg ws). rewrite (proj1 (decode_tile (win_lo + k) (a - tile_base (win_lo + k)) ltac:(lia) ltac:(lia))).
  rewrite El, Eh. replace (_ || _ || _) with false by lia. replace (win_lo + k - win_lo) with k by lia.
  rewrite u32_small by lia. unfold rt_cpe_seg_write. replace (Z.to_nat (len (v :: ws))) with (length (v :: ws)) by (unfold len; lia).
  rewrite firstn_all. fold (shim_hdr k). fold (jseg s k).
  erewrite loop_push; [done|lia|rewrite len_cons; lia|exact E].
Qed.

Lemma push_list_app hdr ws1 ws2 s x pos :
  push_list hdr (ws1 ++ ws2) s = Some (x, pos) ->
  exists y p1 p2, push_list hdr ws1 s = Some (y, p1) /\ push_list hdr ws2 y = Some (x, p2) /\ pos = p1 ++ p2.
Proof using.
  revert s pos. induction ws1 as [|[off v] ws1 IH]; intros s pos E; cbn [push_list app] in *.
  { eexists _, [], _. split_and!; [done|exact E|done]. }
  destruct (cpe_seg_push _ _ _ _ _) as [s1 [[]|e]]; [|done].
  destruct (push_list hdr (ws1 ++ ws2) s1) as [[s2 pos2]|] eqn:Er; [|done]. simplify_eq.
  destruct (IH _ _ Er) as (y & p1 & p2 & -> & E2 & ->). eexists y, _, p2. split_and!; done.
Qed.

(** A captured call. *)
Lemma captured_push col k c : forall bs rc s x pos, 0 <= k < win_n -> col = win_lo + k -> jit_ok s ->
  writes c = Some (bs, rc) -> Forall (block_in col) bs ->
  push_list (shim_hdr k) (concat (block_ov col <$> bs)) (jseg s k) = Some (x, pos) ->
  run_captured 20 col_shift c s = (put_seg k x s, rc).
Proof using shift_ok window_ok.
  induction c as [rc0|op kk IH]; intros bs rc s x pos Hk Hc Hs Hw Hbs E; cbn [writes run_captured] in *.
  { simplify_eq. cbn in E. simplify_eq. rewrite jput_same by (done || lia). done. }
  destruct (op_writes op) as [b|] eqn:Ew; [|done]. destruct (writes (kk XAIE_OK 0)) as [[bs' rc']|] eqn:Ek; [|done].
  injection Hw as <- <-. apply Forall_cons in Hbs as [Hb Hbs]. cbn [fmap list_fmap concat] in E.
  destruct (push_list_app _ _ _ _ _ _ E) as (y & p1 & p2 & E1 & E2 & ->).
  pose proof (record_push col k b s y p1 Hk Hc Hs Hb E1) as Er.
  assert (rt_sb_backend 20 col_shift op s = rt_sb_record 20 col_shift b.1 b.2 s) as ->.
  { destruct op; simpl in Ew; by simplify_eq. }
  rewrite Er. rewrite (IH XAIE_OK 0 bs' rc' (put_seg k y s) x p2); [by rewrite jput_twice|done..|by apply jput_ok|done|done|].
  rewrite jput_at by (done || lia). by rewrite Z.eqb_refl.
Qed.

(** ** The tool *)

Lemma push_list_wf hdr ws : forall s x pos, seg_wf hdr s -> push_list hdr ws s = Some (x, pos) ->
  seg_wf hdr x /\ Forall (fun i => 0 <= i < RT_SB_SEG_WORDS) pos.
Proof using.
  induction ws as [|[off v] ws IH]; intros s x pos Hs E; cbn [push_list] in E; [by simplify_eq|].
  destruct (cpe_seg_push hdr RT_SB_SEG_WORDS off v s) as [s1 [[]|e]] eqn:Ep; [|done].
  destruct (push_list hdr ws s1) as [[s2 pos2]|] eqn:Er; [|done]. simplify_eq.
  rewrite push_cases in Ep by done. destruct (Z.leb_spec (seg_pw s.1 + 5) RT_SB_SEG_WORDS); [|done].
  assert (seg_wf hdr s1 /\ 0 < seg_pw s1.1) as [H1 H2].
  { pose proof (wf_pw _ _ Hs). destruct (widens s off) eqn:Ew; injection Ep as <-.
    - split; [by apply (widen_wf _ off)|cbn; lia].
    - split; [by apply grow_wf|cbn; lia]. }
  destruct (IH _ _ _ H1 Er) as [? ?]. split; [done|]. constructor; [|done].
  pose proof (wf_pw _ _ H1). rewrite seg_words_816 in *. lia.
Qed.

(** Records of one column: the segment written, the column, and where the
    words went, up to nine. *)
Lemma append_records_push col k recs : forall first pos s s' first' pos',
  0 <= k < win_n -> col = win_lo + k -> tool_ok s -> seg_wf (shim_hdr k) (tseg s k) -> Forall (rec_in col) recs ->
  append_records 20 col_shift win_lo (win_lo + win_n - 1) recs first pos s = (s', Ok (first', pos')) ->
  exists x ps, push_list (shim_hdr k) (rec_ov col <$> recs) (tseg s k) = Some (x, ps) /\ s' = tput k x s /\
    (len pos + len recs <= 9 -> pos' = pos ++ ps) /\
    first' = match recs with [] => first | _ => if first <? 0 then k else first end.
Proof using shift_ok window_ok.
  induction recs as [|r recs IH]; intros first pos s s' first' pos' Hk Hc Hs Hwf Hrecs E; cbn [append_records] in E.
  { injection E as <- <- <-. exists (tseg s k), []. split_and!; try done; [by rewrite tput_same by (done || lia)|by rewrite app_nil_r]. }
  apply Forall_cons in Hrecs as [Hr Hrecs]. unfold rec_in in Hr.
  assert (append_record 20 col_shift win_lo (win_lo + win_n - 1) r s =
          match cpe_seg_push (shim_hdr k) RT_SB_SEG_WORDS (r_regoff r - tile_base col) (r_val r) (tseg s k) with
          | (x, Ok _) => (tput k x s, Ok k) | (x, Err _) => (tput k x s, Err (-1)) end) as Ea.
  { unfold append_record. replace (r_regoff r) with (tile_base col + (r_regoff r - tile_base col)) at 1 by lia.
    rewrite (proj2 (decode_tile col _ ltac:(lia) Hr)). replace (_ || _ || _) with false by lia.
    replace (col - win_lo) with k by lia. unfold rt_cpe_seg_write. change (take (Z.to_nat 1) [r_val r]) with [r_val r].
    fold (shim_hdr k). fold (tseg s k). change S_SEG_WORDS with RT_SB_SEG_WORDS.
    cbn [cpe_seg_write_loop]. unfold mbind, stE_bind.
    destruct (cpe_seg_push _ _ _ _ _) as [x [[]|e]]; done. }
  cbn [fmap list_fmap push_list]. unfold rec_ov at 1.
  destruct (cpe_seg_push (shim_hdr k) RT_SB_SEG_WORDS (r_regoff r - tile_base col) (r_val r) (tseg s k)) as [y [[]|e]] eqn:Ep.
  2: { unfold mbind, stE_bind in E. rewrite Ea in E. done. }
  unfold mbind at 1, stE_bind at 1 in E. rewrite Ea in E. unfold mbind, stE_bind, gets in E.
  assert (seg_wf (shim_hdr k) y /\ 0 < seg_pw y.1) as [Hy Hy0].
  { destruct (push_list_wf (shim_hdr k) [(r_regoff r - tile_base col, r_val r)] (tseg s k) y [seg_pw y.1 - 1] Hwf) as [? Hp].
    - cbn [push_list]. by rewrite Ep.
    - apply Forall_cons in Hp as [Hp _]. split; [done|lia]. }
  assert (tseg (tput k y s) k = y) as Ey by (rewrite tput_at by (done || lia); by rewrite Z.eqb_refl).
  assert (st_at (tput k y s) k = y.1) as Ey1 by (apply (f_equal fst) in Ey; exact Ey).
  rewrite Ey1 in E. pose proof (wf_pw _ _ Hy) as Py. rewrite seg_words_816 in Py.
  rewrite u32_small, u16_small in E by lia.
  destruct (IH _ _ _ _ _ _ Hk Hc (tput_ok k y s Hs) ltac:(by rewrite Ey) Hrecs E) as (x & ps & Ex & -> & Epos & ->).
  rewrite Ey in Ex. rewrite Ex. exists x, ((seg_pw y.1 - 1) :: ps). split_and!; [done|by rewrite tput_twice| |].
  - rewrite len_cons. intros Hlen. pose proof (len_nonneg recs). replace (len pos <? 9) with true in Epos by lia.
    rewrite Epos by (rewrite len_app; change (len [_]) with 1; lia). by rewrite <- app_assoc.
  - destruct (first <? 0) eqn:Ef; destruct recs; rewrite ?Ef; try done; by replace (k <? 0) with false by lia.
Qed.

(** ** The driver *)

Section calls.
Context (desc_rc : XAie_LocType -> desc_op -> Z).
Context (dma_write_bd : XAie_LocType -> list desc_op -> Z -> driver_call).
Context (dma_write_channel : XAie_LocType -> list desc_op -> Z -> Z -> driver_call).
Context (set_start_queue : XAie_LocType -> Z -> Z -> Z -> Z -> driver_call).
Context (prog : strm_call -> driver_call).
Context (tile_type : XAie_LocType -> Z) (SHIMNOC XAIE_INVALID_TILE : Z) (has_dma : Z -> bool) (fields : shim_bd_fields).
Context (set_field : Z -> Z -> Z -> Z).

Abbreviation addr_fields := (rt_seq_shim_bd_addr_fields tile_type XAIE_INVALID_TILE has_dma fields set_field).
Abbreviation program := (prog_of desc_rc dma_write_bd dma_write_channel set_start_queue tile_type SHIMNOC).
Abbreviation record_call_ :=
  (record_call desc_rc dma_write_bd dma_write_channel set_start_queue tile_type SHIMNOC XAIE_INVALID_TILE has_dma fields set_field).
Abbreviation encode_call_ :=
  (encode_call desc_rc dma_write_bd dma_write_channel set_start_queue tile_type SHIMNOC XAIE_INVALID_TILE has_dma fields set_field
     20 col_shift win_lo (win_lo + win_n - 1)).
Abbreviation encode_calls_ :=
  (encode_calls desc_rc dma_write_bd dma_write_channel set_start_queue tile_type SHIMNOC XAIE_INVALID_TILE has_dma fields set_field
     20 col_shift win_lo (win_lo + win_n - 1)).

Definition bd_program (tile : XAie_LocType) (args : rt_seq_bd_args) (addr : Z) : driver_call :=
  dma_write_bd tile (rt_seq_bd_desc desc_rc tile_type SHIMNOC tile addr args).1 (u8 (ba_bd_id args)).

Definition or_recs (recs : list s_rec) (us : list (option Z)) : list s_rec :=
  zip_with (fun r u => Rec (r_regoff r) (r_val r |' default 0 u)) recs us.

(** The words of a descriptor that hold address fields. *)
Definition bd_us (f : list Z) : list (option Z) :=
  [None; Some (rd f 0); Some (rd f 1); None; None; None; None; None; Some (rd f 2)].

(** What is documented of the driver: a call for a shim tile writes registers
    of that tile only, and a descriptor's words are those for the address 0
    with the address fields put in; its last word is on a 16-byte line. *)
Record driver_ok : Prop := {
  do_bd : forall tile ds b, loc_row tile = 0 -> 0 <= loc_col tile < 256 -> writes_in (loc_col tile) (dma_write_bd tile ds b);
  do_channel : forall tile ds ch dir, loc_row tile = 0 -> 0 <= loc_col tile < 256 ->
    writes_in (loc_col tile) (dma_write_channel tile ds ch dir);
  do_queue : forall tile ch dir b n, loc_row tile = 0 -> 0 <= loc_col tile < 256 ->
    writes_in (loc_col tile) (set_start_queue tile ch dir b n);
  do_strm : forall c, (strm_tile c).2 = 0 -> 0 <= (strm_tile c).1 < 256 -> writes_in (strm_tile c).1 (prog c);
  do_addr : forall tile args addr recs f, addr_fields tile addr = (f, XAIE_OK) ->
    recorded false (bd_program tile args 0) = Some recs -> len recs = 9 ->
    recorded false (bd_program tile args addr) = Some (or_recs recs (bd_us f)) /\
    forall r, last recs = Some r -> r_regoff r mod 16 = 0 }.

(** ** One call *)

(** A call as it is parsed. *)
Definition call_wf (c : s_call) : Prop := 1 <= c_kind c <= 4 /\ 0 <= c_dir c < 256.

Definition call_rec (c : s_call) (addr : Z) : rt_sb_rec :=
  SbRec (c_kind c) (u8 (c_ch c)) (u8 (c_bd c)) (c_dir c) (c_repeat c) (call_tile c) addr (bd_args_of c).

Definition call_us (c : s_call) (addr : Z) (recs : list s_rec) : list (option Z) :=
  if is_bd (c_kind c) then bd_us (addr_fields (call_tile c) addr).1 else (fun _ => None) <$> recs.

Lemma addr_fields_rc tile a b : (addr_fields tile a).2 = (addr_fields tile b).2.
Proof using. unfold rt_seq_shim_bd_addr_fields. by destruct (has_dma _). Qed.

Lemma or_recs_none recs : or_recs recs ((fun _ => None) <$> recs) = recs.
Proof using.
  unfold or_recs. induction recs as [|[a v] recs IH]; [done|]. cbn. rewrite Z.lor_0_r. f_equal. apply IH.
Qed.

Hypothesis driver : driver_ok.

Definition call_in (c : s_call) : Prop := c_row c = 0 /\ win_lo <= c_col c < win_lo + win_n.

Lemma call_tile_in c : call_in c -> call_tile c = Loc 0 (c_col c) /\ 0 <= c_col c < 64.
Proof using window_ok. intros [Hr Hc]. unfold call_tile. rewrite Hr, !u8_small by lia. split; [done|lia]. Qed.

(** The run-time's program for a call at any address, against the records the
    tool has of it. *)
Lemma recorded_jit c addr recs : call_wf c -> call_in c -> record_call_ c = Some recs ->
  exists us, us = call_us c addr recs /\ recorded false (program (call_rec c addr)) = Some (or_recs recs us) /\
    length us = length recs /\ (is_bd (c_kind c) = true -> length recs = 9%nat) /\
    Forall (rec_in (c_col c)) recs /\ writes_in (c_col c) (program (call_rec c addr)) /\
    aligned (rec_ov (c_col c) <$> recs) us.
Proof using shift_ok window_ok driver.
  intros [Hk Hd] Hin E. destruct (call_tile_in c Hin) as [Et Hc]. eexists. split; [done|].
  unfold record_call, call_us in *. unfold prog_of, call_rec. cbn [q_kind q_tile q_addr q_args q_ch q_dir q_bd q_repeat].
  assert (forall p, recorded false p = Some recs -> writes_in (c_col c) p -> Forall (rec_in (c_col c)) recs) as Hrec.
  { intros p Ep Hp. by destruct (recorded_writes (c_col c) p recs ltac:(lia) Hp Ep) as (? & _ & _ & _ & ?). }
  destruct (is_bd (c_kind c)) eqn:Eb.
  - destruct (existsb _ _); [done|]. destruct (record_bd _ _ _ _ c 0) as [rs|] eqn:Er; [|done].
    destruct (Z.eqb_spec (len rs) 9) as [L|]; [|done]. cbn [andb] in E. destruct (check_addr_fields _ _ _ _ _ _ _ _ _ _) eqn:Ec; [|done].
    injection E as <-. unfold record_bd in Er.
    assert (recorded false (bd_program (call_tile c) (bd_args_of c) 0) = Some rs) as Er0.
    { unfold bd_program. destruct (rt_seq_bd_desc _ _ _ _ _ _) as [d rc]. cbn [fst]. by destruct (rc =? XAIE_OK). }
    assert ((addr_fields (call_tile c) ADDR_TEST).2 = XAIE_OK) as Ef.
    { unfold check_addr_fields in Ec. destruct (record_bd _ _ _ _ c ADDR_TEST); [|done].
      destruct (addr_fields (call_tile c) ADDR_TEST) as [f rf]. cbn. lia. }
    rewrite (addr_fields_rc _ _ addr) in Ef. destruct (addr_fields (call_tile c) addr) as [f rf] eqn:Ea. cbn in Ef. subst rf.
    destruct (do_addr driver _ _ _ _ _ Ea Er0 L) as [Eaddr Hal]. fold (bd_program (call_tile c) (bd_args_of c) addr).
    assert (forall a, writes_in (c_col c) (bd_program (call_tile c) (bd_args_of c) a)) as Hw.
    { intros a. unfold bd_program. rewrite Et. apply (do_bd driver (Loc 0 (c_col c))); cbn; [done|lia]. }
    pose proof (Hrec _ Er0 (Hw 0)) as Hin9. unfold len in L. split_and!; [done|cbn [fst bd_us length]; lia|lia|done|apply Hw|].
    intros w x Hl _. rewrite fmap_last in Hl. destruct (last rs) as [r|] eqn:Elr; [|done]. injection Hl as <-. cbn [rec_ov fst].
    specialize (Hal r eq_refl). assert (rec_in (c_col c) r) as Hr.
    { eapply Forall_forall; [exact Hin9|]. apply last_Some in Elr as [l ->]. apply elem_of_app. right. by left. }
    unfold rec_in in Hr. split; [lia|]. unfold tile_base.
    replace (2 ^ col_shift) with (2 ^ (col_shift - 4) * 16) by (rewrite <- (Z.pow_add_r 2 _ 4) by lia; f_equal; lia).
    rewrite Z.mul_assoc. rewrite Zminus_mod, Z_mod_mult, Hal. done.
  - assert (aligned (rec_ov (c_col c) <$> recs) ((fun _ => None) <$> recs)) as Hal.
    { intros w x _ Hx. rewrite fmap_last in Hx. by destruct (last recs). }
    rewrite or_recs_none, length_fmap. destruct (c_kind c =? RT_AOT_CALL_CH_OOO) eqn:Ec.
    + destruct (rt_seq_channel_ooo_desc desc_rc (call_tile c)) as [d rc]. cbn [fst]. destruct (rc =? XAIE_OK); [|done].
      assert (writes_in (c_col c) (dma_write_channel (call_tile c) d (u8 (c_ch c)) (c_dir c))) as Hw.
      { rewrite Et. apply (do_channel driver (Loc 0 (c_col c))); cbn; [done|lia]. }
      split_and!; try done. by eapply Hrec.
    + assert (writes_in (c_col c) (rt_seq_start_queue set_start_queue (call_tile c) (u8 (c_ch c)) (c_dir c) (u8 (c_bd c)) (c_repeat c))) as Hw.
      { rewrite Et. apply (do_queue driver (Loc 0 (c_col c))); cbn; [done|lia]. }
      split_and!; try done. by eapply Hrec.
Qed.

(** ** The relation over a window *)

(** The tool's segments [T], which started as [P], and the run-time's [J]:
    column [k]'s has [pre k] words of return routes more in the tool, and the
    patches [ps k] in the run-time. *)
Record segs_rel (pre : Z -> Z) (P : s_segs) (ps : Z -> list (Z * Z)) (T : s_segs) (J : rt_sb_state) : Prop := {
  sr_tool : tool_ok T;
  sr_jit : jit_ok J;
  sr_tracks : forall k, 0 <= k < win_n -> tracks (shim_hdr k) (pre k) (ps k) (tseg T k) (jseg J k);
  sr_ends : forall k, 0 <= k < win_n -> ends (jseg J k) (ps k);
  sr_head : forall k, 0 <= k < win_n -> forall i, 0 <= i < pre k -> rd (seg_words T k) i = rd (seg_words P k) i;
  sr_idle : forall k, 0 <= k < win_n -> seg_pw (seg_at J k) = 0 -> tseg T k = tseg P k }.

Definition add_patches (ps : Z -> list (Z * Z)) (k : Z) (qs : list (Z * Z)) (j : Z) : list (Z * Z) :=
  if j =? k then ps j ++ qs else ps j.

Lemma or_recs_ov col recs us : length us = length recs -> rec_ov col <$> or_recs recs us = with_bits (rec_ov col <$> recs) us.
Proof using.
  unfold or_recs, with_bits. revert us. induction recs as [|r recs IH]; intros [|u us] Hl; try done. cbn. f_equal. apply IH. by injection Hl.
Qed.

Lemma program_rel pre P ps T J k recs us p T' first pos :
  segs_rel pre P ps T J -> 0 <= k < win_n -> Forall (rec_in (win_lo + k)) recs -> length us = length recs ->
  aligned (rec_ov (win_lo + k) <$> recs) us -> recorded false p = Some (or_recs recs us) -> writes_in (win_lo + k) p ->
  (forall r, head recs = Some r -> no_merge (tseg P k) (r_regoff r - tile_base (win_lo + k))) ->
  append_records 20 col_shift win_lo (win_lo + win_n - 1) recs (-1) [] T = (T', Ok (first, pos)) ->
  exists x pos', run_captured 20 col_shift p J = (put_seg k x J, XAIE_OK) /\
    segs_rel pre P (add_patches ps k (patches pos' us)) T' (put_seg k x J) /\
    (len recs <= 9 -> pos = (Z.add (pre k) <$> pos') /\ Forall (fun i => pre k <= i < RT_SB_SEG_WORDS) pos) /\
    length pos' = length recs /\ (recs = [] -> first = -1) /\ (recs <> [] -> first = k).
Proof using shift_ok window_ok.
  intros H Hk Hin Hl Hal Hrec Hw Hnm E. pose proof (sr_tracks _ _ _ _ _ H k Hk) as Ht.
  pose proof (sr_tool _ _ _ _ _ H) as HT. pose proof (sr_jit _ _ _ _ _ H) as HJ.
  destruct (append_records_push (win_lo + k) k recs (-1) [] T T' first pos Hk eq_refl HT (tr_t _ _ _ _ _ Ht) Hin E)
    as (t' & psT & Et & -> & Epos & Efirst).
  assert (length us = length (rec_ov (win_lo + k) <$> recs)) as Hl' by (by rewrite length_fmap).
  destruct (push_list_tracks _ _ _ us _ _ _ t' psT Ht Hl' Hal) as (x & pos' & Ex & Hx & Eps & Lpos & Hhead & Hne); [|exact Et|].
  { intros E0 w Hw0. rewrite (sr_idle _ _ _ _ _ H k Hk E0). destruct recs as [|r recs]; [done|]. injection Hw0 as <-. by apply Hnm. }
  rewrite length_fmap in Lpos. rewrite <- or_recs_ov in Ex by done.
  destruct (recorded_writes (win_lo + k) p _ ltac:(lia) Hw Hrec) as (bs & Ebs & Hbs & Eov & _).
  destruct (push_list_wf _ _ _ _ _ (tr_j _ _ _ _ _ Ht) Ex) as [_ Hpos']. rewrite Eov in Ex.
  exists x, pos'. split; [by apply (captured_push (win_lo + k) k p bs _ _ _ pos')|].
  assert (forall j, 0 <= j -> tseg (tput k t' T) j = if j =? k then t' else tseg T j) as ET by (intros; apply tput_at; done || lia).
  assert (forall j, 0 <= j -> jseg (put_seg k x J) j = if j =? k then x else jseg J j) as EJ by (intros; apply jput_at; done || lia).
  split; [|split; [|split; [done|split; [intros ->; exact Efirst|intros; by destruct recs]]]].
  - split; [by apply tput_ok|by apply jput_ok|..]; unfold add_patches; intros j Hj.
    + rewrite ET, EJ by lia. destruct (Z.eqb_spec j k) as [->|]; [done|]. by apply (sr_tracks _ _ _ _ _ H).
    + rewrite EJ by lia. destruct (Z.eqb_spec j k) as [->|]; [|by apply (sr_ends _ _ _ _ _ H)].
      destruct recs as [|r recs]; [|apply Hne; by destruct us].
      destruct us; [|done]. destruct pos'; [|done]. unfold patches. cbn. rewrite app_nil_r.
      cbn in Et. injection Et as <- <-. cbn in Eov. rewrite <- Eov in Ex. cbn in Ex. injection Ex as <-.
      by apply (sr_ends _ _ _ _ _ H).
    + intros i Hi. change (seg_words ?s ?j) with (tseg s j).2. rewrite ET by lia.
      destruct (Z.eqb_spec j k) as [->|]; [rewrite Hhead by done|]; by apply (sr_head _ _ _ _ _ H).
    + change (seg_at ?s ?j) with (jseg s j).1. rewrite ET, EJ by lia. destruct (Z.eqb_spec j k) as [->|]; [|by apply (sr_idle _ _ _ _ _ H)].
      intros E0. destruct recs as [|r recs].
      * cbn in Et. injection Et as <- <-. cbn in Eov. destruct us; [|done]. rewrite <- Eov in Ex. cbn in Ex. injection Ex as <-.
        by apply (sr_idle _ _ _ _ _ H).
      * destruct Hne as [Hgt _]; [done|]. pose proof (wf_pw _ _ (tr_j _ _ _ _ _ Ht)). lia.
  - intros H9. rewrite Epos by (rewrite len_nil; lia). cbn [app]. split; [done|].
    destruct (push_list_wf _ _ _ _ _ (tr_t _ _ _ _ _ Ht) Et) as [_ Hpos]. rewrite Eps in *.
    apply Forall_fmap. apply Forall_fmap in Hpos. apply Forall_forall. intros i Hi.
    rewrite Forall_forall in Hpos, Hpos'. specialize (Hpos i Hi). specialize (Hpos' i Hi). cbn in Hpos |- *. lia.
Qed.

(** The return routes of a call's column do not run into the call's first
    register. *)
Definition apart (P : s_segs) (c : s_call) : Prop :=
  forall recs r, record_call_ c = Some recs -> head recs = Some r ->
    no_merge (tseg P (c_col c - win_lo)) (r_regoff r - tile_base (c_col c)).

(** The patches of a table's entry, in a segment that starts at word [sh]. *)
Definition entry_patches (sh : Z) (e : rt_aot_sb_call) (addr : Z) : list (Z * Z) :=
  if is_bd (k_kind e) then
    let f := (addr_fields (Loc (k_row e) (k_col e)) addr).1 in
    [(rd (k_patch e) 0 - sh, rd f 0); (rd (k_patch e) 1 - sh, rd f 1); (rd (k_patch e) 2 - sh, rd f 2)]
  else [].

(** The entry [e] is for the call [c], in column [k]. *)
Record entry_for (sh : Z) (c : s_call) (k : Z) (e : rt_aot_sb_call) : Prop := {
  ef_entry : exists pos, e = call_entry c k pos;
  ef_patch : is_bd (k_kind e) = true -> Forall (fun i => sh <= i < RT_SB_SEG_WORDS) (k_patch e) /\ length (k_patch e) = 3%nat;
  ef_fields : is_bd (k_kind e) = true -> forall addr, (addr_fields (Loc (k_row e) (k_col e)) addr).2 = XAIE_OK }.

Lemma patches_none pos' {A} (recs : list A) : patches pos' ((fun _ => None) <$> recs) = [].
Proof using.
  revert pos'. induction recs as [|r recs IH]; intros [|p pos']; try done. unfold patches in *. cbn. apply IH.
Qed.

Lemma record_call_fields c recs : is_bd (c_kind c) = true -> record_call_ c = Some recs ->
  forall addr, (addr_fields (call_tile c) addr).2 = XAIE_OK.
Proof using.
  intros Eb E addr. unfold record_call in E. rewrite Eb in E. destruct (existsb _ _); [done|].
  destruct (record_bd _ _ _ _ c 0); [|done]. destruct (len _ =? 9); [|done]. cbn [andb] in E.
  destruct (check_addr_fields _ _ _ _ _ _ _ _ _ _) eqn:Ec; [|done]. unfold check_addr_fields in Ec.
  destruct (record_bd _ _ _ _ c ADDR_TEST); [|done]. rewrite (addr_fields_rc _ _ ADDR_TEST).
  destruct (addr_fields (call_tile c) ADDR_TEST) as [f rf]. cbn. lia.
Qed.

Lemma encode_call_rel pre P ps T J c addr T' e :
  let k := c_col c - win_lo in
  segs_rel pre P ps T J -> call_wf c -> call_in c -> apart P c -> encode_call_ c T = (T', Ok e) ->
  exists x, run_captured 20 col_shift (program (call_rec c addr)) J = (put_seg k x J, XAIE_OK) /\
    segs_rel pre P (add_patches ps k (entry_patches (pre k) e addr)) T' (put_seg k x J) /\ entry_for (pre k) c k e.
Proof using shift_ok window_ok driver.
  intros k H Hwf Hin Hap E. destruct (call_tile_in c Hin) as [Et Hc]. unfold encode_call in E.
  destruct (record_call_ c) as [recs|] eqn:Er; [|done].
  destruct (recorded_jit c addr recs Hwf Hin Er) as (us & Eus & Hrec & Hl & H9 & Hri & Hw & Hal).
  unfold mbind, stE_bind in E. destruct (append_records _ _ _ _ _ _ _ T) as [T1 [[first pos]|]] eqn:Ea; [|done].
  cbn [fst snd] in E. destruct Hin as [Hrow Hcol]. assert (0 <= k < win_n) as Hk by (unfold k; lia).
  assert (c_col c = win_lo + k) as Ecol by (unfold k; lia). rewrite Ecol in Hri, Hw, Hal.
  destruct (program_rel pre P ps T J k recs us _ T1 first pos H Hk Hri Hl Hal Hrec Hw) as (x & pos' & Ex & Hx & Epos & Lpos & Hnil & Hcons).
  { intros r Hr. rewrite <- Ecol. by apply (Hap recs). }
  { exact Ea. }
  destruct (Z.ltb_spec first 0) as [?|Hf]; [done|].
  assert (recs <> []) as Hne by (intros ->; specialize (Hnil eq_refl); lia). rewrite (Hcons Hne) in *.
  injection E as <- <-. exists x. split; [done|].
  assert (u8 (c_kind c) = c_kind c) as Ek by (apply u8_small; destruct Hwf; lia).
  assert (k_kind (call_entry c k pos) = c_kind c) as Ekind by exact Ek.
  assert (Loc (k_row (call_entry c k pos)) (k_col (call_entry c k pos)) = call_tile c) as Eloc by done.
  destruct (is_bd (c_kind c)) eqn:Eb.
  - specialize (H9 eq_refl). destruct Epos as [Epos Hpos]; [unfold len; lia|]. rewrite H9 in Lpos.
    split; [|split; [by eexists| |]].
    + unfold entry_patches. rewrite Ekind, Eb, Eloc. unfold call_entry. cbn [k_patch]. rewrite Eb.
      unfold call_us in Eus. rewrite Eb in Eus. subst us.
      do 9 (destruct pos' as [|? pos']; [done|]). destruct pos'; [|done].
      rewrite Epos. set (f := (addr_fields (call_tile c) addr).1) in *.
      assert (forall a b d : Z, rd [a; b; d] 0 = a /\ rd [a; b; d] 1 = b /\ rd [a; b; d] 2 = d) as E3 by done.
      rewrite (proj1 (E3 _ _ _)), (proj1 (proj2 (E3 _ _ _))), (proj2 (proj2 (E3 _ _ _))).
      match goal with Hx : segs_rel _ _ (add_patches ps k ?a) _ _ |- segs_rel _ _ (add_patches ps k ?b) _ _ =>
        replace b with a; [exact Hx|] end.
      assert (forall y1 y2 y3 : Z, y1 = pre k + y2 -> (y2, y3) = (y1 - pre k, y3)) as Ep.
      { intros y1 y2 y3 ->. replace (pre k + y2 - pre k) with y2 by lia. done. }
      unfold patches, bd_us. cbn [zip_with one concat app]. do 3 (apply (f_equal2 cons); [by apply Ep|]). done.
    + intros _. unfold call_entry. cbn [k_patch]. rewrite Eb. split; [|done].
      rewrite Forall_forall in Hpos. assert (forall i, 0 <= i < 9 -> rd pos i ∈ pos) as Hel.
      { intros i Hi. unfold rd. destruct (lookup_lt_is_Some_2 pos (Z.to_nat i)) as [y Ey].
        - rewrite Epos, length_fmap. lia.
        - rewrite Ey. by apply list_elem_of_lookup_2 in Ey. }
      repeat constructor; apply Hpos, Hel; unfold RT_SEQ_SHIM_BD_ADDR_W0, RT_SEQ_SHIM_BD_ADDR_W1, RT_SEQ_SHIM_BD_ADDR_W2; lia.
    + intros _ a. rewrite Eloc. by eapply record_call_fields.
  - split; [|split; [by eexists|by rewrite Ekind, Eb|by rewrite Ekind, Eb]].
    unfold entry_patches. rewrite Ekind, Eb. unfold call_us in Eus. rewrite Eb in Eus. subst us.
    by rewrite patches_none in Hx.
Qed.

(** ** All calls of a window *)

Lemma segs_rel_ext pre P ps ps' T J : (forall k, 0 <= k < win_n -> ps k = ps' k) ->
  segs_rel pre P ps T J -> segs_rel pre P ps' T J.
Proof using.
  intros E [H1 H2 H3 H4 H5 H6]. split; try done; intros k Hk; rewrite <- E by done; [by apply H3|by apply H4].
Qed.

Lemma segs_rel_bad pre P ps T J b : segs_rel pre P ps T J -> segs_rel pre P ps T (set_bad b J).
Proof using. intros [H1 H2 H3 H4 H5 H6]. by split. Qed.

(** Everything but the segments and [bad]. *)
Definition jfields (s : rt_sb_state) := (active s, ack_pending s, armed s, lo s, hi s, ack_nseg s).

(** The noted calls on the capturing backend, when none fails. *)
Fixpoint capture_all (rs : list rt_sb_rec) (s : rt_sb_state) : option rt_sb_state :=
  match rs with
  | [] => Some s
  | r :: rs =>
    let '(s, rc) := run_captured 20 col_shift (program r) (set_bad false s) in
    if (rc =? XAIE_OK) && negb (bad s) then capture_all rs s else None
  end.

Lemma capture_all_app rs1 rs2 s s' : capture_all (rs1 ++ rs2) s = Some s' ->
  exists s1, capture_all rs1 s = Some s1 /\ capture_all rs2 s1 = Some s'.
Proof using.
  revert s. induction rs1 as [|r rs1 IH]; intros s E; cbn [capture_all app] in *; [by exists s|].
  destruct (run_captured _ _ _ _) as [s1 rc]. destruct (_ && _); [by apply IH|done].
Qed.

Definition all_patches (pre : Z -> Z) (j : Z) (es : list rt_aot_sb_call) (ads : list Z) : list (Z * Z) :=
  concat (zip_with (fun e a => if k_seg e =? j then entry_patches (pre j) e a else []) es ads).

Abbreviation in_window_ := (in_window win_lo (win_lo + win_n - 1)).

Lemma in_window_spec c : in_window_ c = true <-> call_in c.
Proof using. unfold in_window, call_in. lia. Qed.

Definition for_call (pre : Z -> Z) (c : s_call) (e : rt_aot_sb_call) : Prop :=
  entry_for (pre (c_col c - win_lo)) c (c_col c - win_lo) e /\ call_in c /\ call_wf c.

Lemma encode_calls_rel pre P cs : forall T ps J ads T' es,
  segs_rel pre P ps T J -> Forall call_wf cs -> Forall (fun c => call_in c -> apart P c) cs ->
  encode_calls_ cs T = (T', Ok es) -> length ads = length es ->
  exists J', capture_all (zip_with call_rec (List.filter in_window_ cs) ads) J = Some J' /\
    segs_rel pre P (fun j => ps j ++ all_patches pre j es ads) T' J' /\ jfields J' = jfields J /\
    Forall2 (for_call pre) (List.filter in_window_ cs) es.
Proof using shift_ok window_ok driver.
  induction cs as [|c cs IH]; intros T ps J ads T' es H Hwf Hap E Hl; cbn [encode_calls] in E.
  { injection E as <- <-. destruct ads; [|done]. exists J. split_and!; [done| |done|constructor].
    eapply segs_rel_ext; [|exact H]. intros k _. by rewrite app_nil_r. }
  apply Forall_cons in Hwf as [Hc Hwf]. apply Forall_cons in Hap as [Hac Hap]. cbn [List.filter].
  destruct (in_window _ _ c) eqn:Ew; [|by eapply IH].
  apply in_window_spec in Ew. unfold mbind, stE_bind in E.
  destruct (encode_call_ c T) as [T1 [e|]] eqn:Ee; [|done]. destruct (encode_calls_ cs T1) as [T2 [es1|]] eqn:Es; [|done].
  injection E as <- <-. destruct ads as [|a ads]; [done|]. injection Hl as Hl.
  destruct (encode_call_rel pre P ps T (set_bad false J) c a T1 e (segs_rel_bad _ _ _ _ _ _ H) Hc Ew (Hac Ew) Ee) as (x & Ex & Hx & Hef).
  destruct (IH _ _ _ ads _ _ Hx Hwf Hap Es Hl) as (J' & EJ & HJ & Hf & Hes).
  exists J'. cbn [zip_with capture_all]. rewrite Ex. split_and!; [exact EJ| |rewrite Hf; done|by constructor].
  eapply segs_rel_ext; [|exact HJ]. intros j Hj. unfold all_patches, add_patches. cbn [zip_with concat].
  destruct (ef_entry _ _ _ _ Hef) as [pos Epos]. assert (k_seg e = c_col c - win_lo) as Ek.
  { rewrite Epos. destruct Ew. cbn. rewrite u8_small; lia. }
  rewrite Ek. rewrite (Z.eqb_sym (c_col c - win_lo) j). destruct (Z.eqb_spec j (c_col c - win_lo)) as [->|]; [by rewrite <- app_assoc|done].
Qed.

(** ** The return routes *)

Definition op_in (op : acr_op) : Prop := o_row op = 0 /\ win_lo <= o_col op < win_lo + win_n.

Lemma prefix_rel P ops : forall T J T',
  segs_rel (fun _ => 0) P (fun _ => []) T J -> (forall k, 0 <= k < win_n -> seg_last (st_at P k) = RT_CPE_NONE) ->
  Forall op_in ops -> record_prefix prog 20 col_shift win_lo (win_lo + win_n - 1) ops T = (T', Ok tt) ->
  exists J', capture_ops 20 col_shift prog ops J = (J', XAIE_OK) /\ segs_rel (fun _ => 0) P (fun _ => []) T' J' /\
    jfields J' = jfields J /\ bad J' = bad J.
Proof using shift_ok window_ok driver.
  induction ops as [|op ops IH]; intros T J T' H HP Hops E; cbn [record_prefix capture_ops] in *.
  { injection E as <-. by exists J. }
  apply Forall_cons in Hops as [[Hr Hc] Hops]. unfold record_op in E.
  destruct (recorded false (prog (rt_seq_row_op op))) as [recs|] eqn:Er; [|done].
  unfold mbind, stE_bind in E. destruct (append_records _ _ _ _ recs (-1) [] T) as [T1 [[first pos]|]] eqn:Ea; [|done].
  set (k := o_col op - win_lo) in *. assert (o_col op = win_lo + k) as Ecol by (unfold k; lia).
  assert (writes_in (win_lo + k) (prog (rt_seq_row_op op))) as Hw.
  { rewrite <- Ecol. replace (o_col op) with (strm_tile (rt_seq_row_op op)).1 by (by destruct op as [[] ? ? ? ? ? ? ? ? ? ? ? ? ? ?]).
    apply (do_strm driver); destruct op as [[] ? ? ? ? ? ? ? ? ? ? ? ? ? ?]; cbn in *; lia. }
  destruct (recorded_writes (win_lo + k) _ _ ltac:(lia) Hw Er) as (_ & _ & _ & _ & Hri).
  destruct (program_rel _ P _ T J k recs ((fun _ => None) <$> recs) (prog (rt_seq_row_op op)) T1 first pos H) as (x & pos' & Ex & Hx & _);
    [lia|done|by rewrite length_fmap| |by rewrite or_recs_none|done| |exact Ea|].
  { intros w y _ Hy. rewrite fmap_last in Hy. by destruct (last recs). }
  { intros r _. left. apply HP. lia. }
  rewrite Ex. change (XAIE_OK =? XAIE_OK) with true. cbn match.
  destruct (IH T1 (put_seg k x J) T') as (J' & EJ & HJ & Hf & Hb); [|done..|].
  { eapply segs_rel_ext; [|exact Hx]. intros j _. unfold add_patches. rewrite patches_none. by destruct (j =? k). }
  by exists J'.
Qed.
End calls.
End build.
