(* ===== verification/AotSame.v ===== *)
(** * Segments that will send the same words

    What the run-time does with captured writes depends only on the words it
    will send: two states whose segments will send the same words stay so when
    the same call is captured in both, and when it is undone. *)

From stdpp Require Import base list list_numbers numbers gmap.
From S2P Require Import Prelude.
From S2P Require Import CtrlpktEncode.
From S2P Require Import RuntimePkt.
From S2P Require Import CtrlpktFormat.
From S2P Require Import CtrlpktSeg.
From S2P Require Import Resource.
From S2P Require Import ControlPlan.
From S2P Require Import Driver.
From S2P Require Import TraceRes.
From S2P Require Import ShimBatch.
From S2P Require Import ShimBatchProps.
From S2P Require Import CacheSync.
From S2P Require Import RowFabric.
From S2P Require Import RowSend.
From S2P Require Import AotTable.
From S2P Require Import AotWindow.
From S2P Require Import AotSegs.
From S2P Require Import AotBuild.

Local Open Scope Z_scope.
Local Open Scope c_scope.

(** ** Segments that will send the same words *)

(** Two run-time segments with the same words. *)
Abbreviation same_seg hdr := (tracks hdr 0 []).

Lemma same_sym hdr s t : same_seg hdr s t -> same_seg hdr t s.
Proof.
  intros [Hs Ht _ Hpw Hl Hw _]. rewrite Z.add_0_l in *.
  split; [done|done|lia|lia|destruct Hl as [E|E]; [left; lia|right; lia]| |constructor].
  - intros i Hi. rewrite Z.add_0_l. cbn. rewrite Z.lor_0_r. specialize (Hw i ltac:(lia)). cbn in Hw.
    by rewrite Z.lor_0_r, Z.add_0_l in Hw.
Qed.

Lemma same_no_merge hdr s t off : same_seg hdr s t -> seg_pw t.1 = 0 -> no_merge s off.
Proof.
  intros [Hs _ _ Hpw _ _ _] E. left. destruct (wf_cases _ _ Hs) as [[? _]|?]; [done|lia].
Qed.

(** A write succeeds on both or on none. *)
Lemma push_same hdr off v s t : same_seg hdr s t ->
  let '(s', r) := cpe_seg_push hdr RT_SB_SEG_WORDS off v s in
  let '(t', r') := cpe_seg_push hdr RT_SB_SEG_WORDS off v t in
  r = r' /\ same_seg hdr s' t' /\ grown s.1 s.2 s'.1 s'.2 /\ grown t.1 t.2 t'.1 t'.2.
Proof.
  intros H. assert (forall x, seg_wf hdr x -> let '(x', _) := cpe_seg_push hdr RT_SB_SEG_WORDS off v x in grown x.1 x.2 x'.1 x'.2) as Hg.
  { intros x Hx. rewrite push_cases by done. pose proof (wf_len _ _ Hx) as L. pose proof (wf_pw _ _ Hx) as P.
    destruct (Z.leb_spec (seg_pw x.1 + 5) RT_SB_SEG_WORDS); [|apply grown_refl]. rewrite seg_words_816 in *.
    destruct (widens x off) eqn:Ew.
    - destruct (wf_cases _ _ Hx) as [[E _]|Hl]; [unfold widens in Ew; by rewrite E in Ew|].
      split; cbn [widen fst snd seg_pw seg_last]; [unfold wr; by rewrite !length_insert|lia|by left|].
      intros i Hi Hne. rd_cases; lia || done.
    - split; cbn [grow fst snd seg_pw seg_last]; [unfold wr; by rewrite !length_insert|lia|right; lia|].
      intros i Hi _. rd_cases; lia || done. }
  pose proof (Hg s (tr_t _ _ _ _ _ H)) as Gs. pose proof (Hg t (tr_j _ _ _ _ _ H)) as Gt. clear Hg.
  destruct (cpe_seg_push hdr RT_SB_SEG_WORDS off v s) as [s' [[]|e]] eqn:Es.
  - destruct (push_tracks _ _ _ _ _ off v None s' H (same_no_merge _ _ _ off H) Es) as (t' & Et & Ht & _).
    cbn [default] in Et. rewrite Z.lor_0_r in Et. rewrite Et in *. cbn [one app] in Ht. done.
  - rewrite push_cases in Es |- * by (apply H). pose proof (tr_pw _ _ _ _ _ H).
    rewrite push_cases in Gt by (apply H).
    destruct (Z.leb_spec (seg_pw s.1 + 5) RT_SB_SEG_WORDS); [done|]. injection Es as <- <-.
    replace (seg_pw t.1 + 5 <=? RT_SB_SEG_WORDS) with false in * by lia. split_and!; try done; apply grown_refl.
Qed.

Lemma loop_same hdr ws : forall off s t, same_seg hdr s t ->
  let '(s', r) := cpe_seg_write_loop hdr RT_SB_SEG_WORDS off ws s in
  let '(t', r') := cpe_seg_write_loop hdr RT_SB_SEG_WORDS off ws t in
  r = r' /\ same_seg hdr s' t' /\ grown s.1 s.2 s'.1 s'.2 /\ grown t.1 t.2 t'.1 t'.2.
Proof.
  induction ws as [|v ws IH]; intros off s t H; cbn [cpe_seg_write_loop]; [split_and!; try done; apply grown_refl|].
  pose proof (push_same hdr off v s t H) as Hp. unfold mbind, stE_bind.
  destruct (cpe_seg_push hdr RT_SB_SEG_WORDS off v s) as [s1 r1], (cpe_seg_push hdr RT_SB_SEG_WORDS off v t) as [t1 r2].
  destruct Hp as (-> & H1 & G1 & G2). destruct r2 as [[]|e]; [|done].
  specialize (IH (off +u32 4) s1 t1 H1). destruct (cpe_seg_write_loop _ _ _ _ s1), (cpe_seg_write_loop _ _ _ _ t1).
  destruct IH as (-> & ? & ? & ?). split_and!; try done; by eapply grown_trans.
Qed.

(** What a send makes of a segment is the same. *)
Definition same_send (s t : segment) : Prop :=
  len s.2 = RT_SB_SEG_WORDS /\ len t.2 = RT_SB_SEG_WORDS /\ (seg_pw s.1 = 0 <-> seg_pw t.1 = 0) /\
  (seg_pw s.1 = 0 -> seg_last s.1 = RT_CPE_NONE /\ seg_last t.1 = RT_CPE_NONE) /\
  let '(_, p, n) := rt_cpe_seg_finish s.1 s.2 in
  let '(_, q, m) := rt_cpe_seg_finish t.1 t.2 in
  n = m /\ take (Z.to_nat n) p = take (Z.to_nat n) q /\ len p = RT_SB_SEG_WORDS /\ len q = RT_SB_SEG_WORDS.

Lemma take_rd (p q : list Z) n : n <= len p -> n <= len q -> (forall i, 0 <= i < n -> rd p i = rd q i) ->
  take (Z.to_nat n) p = take (Z.to_nat n) q.
Proof.
  intros Hp Hq H. apply list_eq. intros i. destruct (decide (i < Z.to_nat n)%nat) as [Hi|]; [|by rewrite !lookup_take_ge by lia].
  rewrite !lookup_take_lt by done. specialize (H (Z.of_nat i) ltac:(lia)). unfold rd, len in *. rewrite Nat2Z.id in H.
  destruct (lookup_lt_is_Some_2 p i) as [x Ex]; [lia|]. destruct (lookup_lt_is_Some_2 q i) as [y Ey]; [lia|].
  rewrite Ex, Ey in *. cbn in H. congruence.
Qed.

Lemma finish_empty s : seg_last s.1 = RT_CPE_NONE -> rt_cpe_seg_finish s.1 s.2 = (s.1, s.2, 0).
Proof. intros E. unfold rt_cpe_seg_finish. by rewrite E. Qed.

Lemma same_send_same hdr s t : same_seg hdr s t -> same_send s t.
Proof.
  intros H. pose proof H as [Hs Ht _ Hpw _ _ _]. rewrite Z.add_0_l in Hpw.
  pose proof (wf_len _ _ Hs) as Ls. pose proof (wf_len _ _ Ht) as Lt.
  destruct (wf_cases _ _ Ht) as [[E0 E1]|Hn].
  { destruct (wf_cases _ _ Hs) as [[E2 E3]|?]; [|lia]. split_and!; try done. rewrite !finish_empty by done. by split_and!. }
  assert (seg_pw t.1 <> 0) as Hne by lia. assert (seg_pw s.1 <> 0) as Hne' by lia.
  destruct (fin_tracks hdr 0 [] s t H Hne ltac:(constructor)) as (Ep & _ & Ew & _). rewrite Z.add_0_l in Ep.
  destruct (fin_acked hdr s Hs Hne') as [L1 [_ P1] _]. destruct (fin_acked hdr t Ht Hne) as [L2 [_ P2] _].
  split_and!; try done; [lia..|]. rewrite (finish_fin hdr s), (finish_fin hdr t) by done. split_and!; try done.
  apply take_rd; [lia..|]. intros i Hi. specialize (Ew i ltac:(lia)). cbn in Ew. by rewrite Z.lor_0_r, Z.add_0_l in Ew.
Qed.

(** A table's segment, copied and patched. *)
Lemma same_send_apply hdr s t : seg_acked s -> seg_wf hdr t -> seg_pw t.1 <> 0 -> seg_pw s.1 = seg_pw (fin t).1 ->
  (forall i, 0 <= i < seg_pw s.1 -> rd s.2 i = rd (fin t).2 i) -> same_send s t.
Proof.
  intros Hs Ht Hne Hpw Hw. destruct (fin_acked hdr t Ht Hne) as [L2 [_ P2] _]. pose proof Hs as [L1 [P0 P1] _].
  split_and!; [done|apply (wf_len _ _ Ht)|lia|lia|]. rewrite finish_again by done. rewrite (finish_fin hdr t) by done.
  split_and!; try done. apply take_rd; [lia..|done].
Qed.

(** ** The state of a capture *)

Section sim.
Context (col_shift win_lo win_n : Z).
Hypothesis shift_ok : 20 <= col_shift <= 28.
Hypothesis window_ok : 0 <= win_lo /\ 1 <= win_n <= 5 /\ win_lo + win_n <= 64.

Abbreviation jok := (jit_ok win_lo win_n).

(** The same words in every column; [bad] is not compared. *)
Record same_state (s t : rt_sb_state) : Prop := {
  ss_s : jok s;
  ss_t : jok t;
  ss_fields : jfields s = jfields t;
  ss_segs : forall k, 0 <= k < win_n -> same_seg (shim_hdr k) (jseg s k) (jseg t k) }.

Lemma same_bad s t b : same_state s t -> same_state (set_bad b s) (set_bad b t).
Proof using. intros [H1 H2 H3 H4]. by split. Qed.

Lemma state_sym s t : same_state s t -> same_state t s.
Proof using. intros [H1 H2 H3 H4]. split; [assumption|assumption|by symmetry|]. intros k Hk. by apply same_sym, H4. Qed.

Lemma put_same k x y s t : 0 <= k < win_n -> same_state s t -> same_seg (shim_hdr k) x y ->
  same_state (put_seg k x s) (put_seg k y t).
Proof using window_ok.
  intros Hk [H1 H2 H3 H4] Hxy. split; [by apply jput_ok|by apply jput_ok|done|].
  intros j Hj. rewrite !(jput_at win_lo win_n) by (done || lia). destruct (Z.eqb_spec j k) as [->|]; [done|by apply H4].
Qed.

Lemma put_captured k x s : 0 <= k < win_n -> jok s -> grown (seg_at s k) (pkt_at s k) x.1 x.2 ->
  captured win_n s (put_seg k x s).
Proof using window_ok.
  intros Hk (_ & L1 & L2) Hg. apply (put_seg_captured win_lo win_n); try done.
Qed.

(** The outcome of an operation on two states. *)
Definition same_outcome (s t s' t' : rt_sb_state) (r r' : Z) : Prop :=
  r = r' /\ same_state s' t' /\ (bad s = bad t -> bad s' = bad t') /\ captured win_n s s' /\ captured win_n t t'.

Lemma same_rc s t s' t' r : same_state s' t' -> (bad s = bad t -> bad s' = bad t') -> captured win_n s s' ->
  captured win_n t t' -> same_outcome s t s' t' r r.
Proof using. intros. split; [reflexivity|]. split; [assumption|]. split; [assumption|]. split; assumption. Qed.

Lemma record_same a ws s t : same_state s t ->
  let '(s', r) := rt_sb_record 20 col_shift a ws s in
  let '(t', r') := rt_sb_record 20 col_shift a ws t in
  same_outcome s t s' t' r r'.
Proof using window_ok.
  intros H. unfold rt_sb_record. destruct (rt_ctrl_txn_decode_regoff 20 col_shift a) as [[col row] off].
  pose proof (ss_s _ _ H) as Hs. pose proof (ss_t _ _ H) as Ht.
  pose proof Hs as ((Els & Ehs) & _). pose proof Ht as ((Elt & Eht) & _). rewrite Els, Ehs, Elt, Eht.
  destruct (negb (row =? 0) || (col <? win_lo) || (col >? win_lo + win_n - 1)) eqn:Eg.
  { exact (same_rc _ _ _ _ _ (same_bad _ _ true H) (fun _ => eq_refl) (captured_bad win_n s) (captured_bad win_n t)). }
  rewrite u32_small by lia. set (k := col - win_lo) in *. assert (0 <= k < win_n) as Hk by lia.
  unfold rt_cpe_seg_write. fold (shim_hdr k).
  pose proof (loop_same (shim_hdr k) (take (Z.to_nat (len ws)) ws) off _ _ (ss_segs _ _ H k Hk)) as Hp.
  unfold jseg in Hp at 1 2. destruct (cpe_seg_write_loop _ _ _ _ (seg_at s k, _)) as [x r], (cpe_seg_write_loop _ _ _ _ (seg_at t k, _)) as [y r'].
  destruct Hp as (-> & Hxy & Gx & Gy). pose proof (put_same k x y s t Hk H Hxy) as Hput.
  assert (captured win_n s (put_seg k x s)) as C1 by (apply put_captured; done).
  assert (captured win_n t (put_seg k y t)) as C2 by (apply put_captured; done).
  destruct r' as [[]|e].
  - apply same_rc; [exact Hput|exact id|exact C1|exact C2].
  - apply same_rc; [by apply same_bad|exact (fun _ => eq_refl)|..];
      (eapply captured_trans; [eassumption|apply captured_bad]).
Qed.

Lemma run_captured_same c : forall s t, same_state s t ->
  let '(s', r) := run_captured 20 col_shift c s in
  let '(t', r') := run_captured 20 col_shift c t in
  (bad s = bad t -> r = r' /\ bad s' = bad t') /\ same_state s' t' /\ captured win_n s s' /\ captured win_n t t'.
Proof using window_ok.
  induction c as [rc|op k IH]; intros s t H; cbn [run_captured].
  { split; [done|]. split; [exact H|]. split; apply captured_refl. }
  assert (let '(s', r) := rt_sb_backend 20 col_shift op s in let '(t', r') := rt_sb_backend 20 col_shift op t in
          same_outcome s t s' t' r r') as Hop.
  { pose proof (same_rc s t _ _ XAIE_ERR (same_bad _ _ true H) (fun _ => eq_refl) (captured_bad win_n s) (captured_bad win_n t)) as Hb.
    destruct op as [a v|a ws|a ws| | | | | ]; cbn [rt_sb_backend]; [exact (record_same _ _ s t H)..|exact Hb|exact Hb|exact Hb|exact Hb|exact Hb]. }
  destruct (rt_sb_backend 20 col_shift op s) as [s1 r], (rt_sb_backend 20 col_shift op t) as [t1 r'].
  destruct Hop as (-> & H1 & Hb & C1 & C2). specialize (IH r' 0 s1 t1 H1).
  destruct (run_captured _ _ _ s1) as [s2 rc], (run_captured _ _ _ t1) as [t2 rc'].
  destruct IH as (Hr & H2 & C3 & C4). split; [intros E; apply Hr, Hb, E|]. split; [exact H2|].
  split; (eapply captured_trans; eassumption).
Qed.

(** A capture that is undone. *)
Lemma restore_words s0 s k : jok s0 -> captured win_n (set_bad false s0) s -> 0 <= k < win_n ->
  seg_wf (shim_hdr k) (jseg s0 k) ->
  let x := jseg (rt_sb_restore (rt_sb_snap s0) s) k in
  seg_pw x.1 = seg_pw (seg_at s0 k) /\ seg_last x.1 = seg_last (seg_at s0 k) /\ len x.2 = RT_SB_SEG_WORDS /\
  forall i, 0 <= i < seg_pw x.1 -> rd x.2 i = rd (pkt_at s0 k) i.
Proof using window_ok.
  intros (_ & L1 & L2) [_ [L3 L4] _ G] Hk Hwf x. specialize (G k Hk). cbn [set_bad seg pkt] in L3, L4.
  change (seg_at (set_bad false s0) k) with (seg_at s0 k) in *. change (pkt_at (set_bad false s0) k) with (pkt_at s0 k) in *.
  destruct G as [GL GP GA GW]. pose proof (wf_len _ _ Hwf) as Lw. pose proof (wf_pw _ _ Hwf) as Pw. cbn [jseg fst snd] in Lw, Pw.
  assert (seg_at (rt_sb_restore (rt_sb_snap s0) s) k = if seg_last (seg_at s0 k) =? RT_SB_NONE then seg_at s0 k
          else Seg (seg_pw (seg_at s0 k)) (seg_last (seg_at s0 k)) (rd (pkt_at s0 k) (seg_last (seg_at s0 k)))) as Eseg.
  { unfold seg_at at 1. unfold rt_sb_restore, rt_sb_snap. cbn [seg set_segs].
    rewrite (imap_lookup_default _ _ _ _ (Seg 0 RT_SB_NONE 0)) by lia. by rewrite Z2Nat.id by lia. }
  assert (pkt_at (rt_sb_restore (rt_sb_snap s0) s) k = if seg_last (seg_at s0 k) =? RT_SB_NONE then pkt_at s k
          else wr (pkt_at s k) (seg_last (seg_at s0 k)) (rd (pkt_at s0 k) (seg_last (seg_at s0 k)))) as Epkt.
  { unfold pkt_at at 1. unfold rt_sb_restore. cbn [pkt set_segs].
    rewrite (imap_lookup_default _ _ _ _ []) by lia. fold (pkt_at s k).
    destruct (lookup_lt_is_Some_2 (rt_sb_snap s0) (Z.to_nat k)) as [y Ey]; [unfold rt_sb_snap; rewrite length_imap; lia|].
    assert (y = seg_at (rt_sb_restore (rt_sb_snap s0) s) k) as -> by (unfold rt_sb_restore, seg_at; cbn [seg set_segs]; by rewrite Ey).
    rewrite Ey, Eseg. destruct (seg_last (seg_at s0 k) =? RT_SB_NONE) eqn:En; cbn [seg_last seg_last_ctrl]; by rewrite En. }
  unfold x, jseg. cbn [fst snd]. rewrite Eseg, Epkt. rewrite seg_words_816 in *. assert (len (pkt_at s k) = 816) as Ls by (unfold len in *; lia).
  destruct (wf_cases _ _ Hwf) as [[E0 E1]|(Hl1 & Hl2 & Hl3)]; cbn [jseg fst] in *.
  - rewrite E0. change (RT_CPE_NONE =? RT_SB_NONE) with true. cbn match. split_and!; try done. intros i Hi. lia.
  - change RT_SB_NONE with RT_CPE_NONE. rewrite (proj2 (Z.eqb_neq _ _) Hl3). cbn [seg_pw seg_last]. rewrite len_wr. split_and!; try done.
    intros i Hi. rewrite rd_wr by lia. destruct (Z.eqb_spec (seg_last (seg_at s0 k)) i) as [<-|]; [done|]. apply GW; lia.
Qed.

Lemma same_seg_words hdr x y x' y' : same_seg hdr x y ->
  seg_pw x'.1 = seg_pw x.1 -> seg_last x'.1 = seg_last x.1 -> len x'.2 = RT_SB_SEG_WORDS ->
  (forall i, 0 <= i < seg_pw x'.1 -> rd x'.2 i = rd x.2 i) ->
  seg_pw y'.1 = seg_pw y.1 -> seg_last y'.1 = seg_last y.1 -> len y'.2 = RT_SB_SEG_WORDS ->
  (forall i, 0 <= i < seg_pw y'.1 -> rd y'.2 i = rd y.2 i) -> same_seg hdr x' y'.
Proof using.
  intros [Hx Hy _ Hpw Hl Hw _] Ep El Ln Ew Ep' El' Ln' Ew'.
  assert (forall z z', seg_wf hdr z -> seg_pw z'.1 = seg_pw z.1 -> seg_last z'.1 = seg_last z.1 -> len z'.2 = RT_SB_SEG_WORDS ->
    (forall i, 0 <= i < seg_pw z'.1 -> rd z'.2 i = rd z.2 i) -> seg_wf hdr z') as Hwf.
  { intros z z' Hz E1 E2 E3 E4. split; [done|rewrite E1; apply (wf_pw _ _ Hz)|]. rewrite E1, E2.
    destruct (wf_cases _ _ Hz) as [?|(H1 & H2 & _)]; [by left|right].
    destruct (wf_last _ _ Hz) as [[_ ?]|(_ & Hb & Hh & H0)]; [lia|]. rewrite !E4 by lia. done. }
  split; [by apply (Hwf x)|by apply (Hwf y)|lia|lia|rewrite El, El', Ep'; exact Hl| |constructor].
  intros i Hi. rewrite Ew' by done. rewrite Ew by lia. apply Hw. lia.
Qed.

Lemma restore_same s0 t0 s t : same_state s0 t0 -> same_state s t ->
  captured win_n (set_bad false s0) s -> captured win_n (set_bad false t0) t ->
  same_state (rt_sb_restore (rt_sb_snap s0) s) (rt_sb_restore (rt_sb_snap t0) t).
Proof using window_ok.
  intros H0 H Cs Ct. pose proof (ss_s _ _ H0) as J0s. pose proof (ss_t _ _ H0) as J0t.
  pose proof (ss_s _ _ H) as Js. pose proof (ss_t _ _ H) as Jt.
  assert (forall a b, jok a -> jok b -> jok (rt_sb_restore (rt_sb_snap a) b)) as Hok.
  { intros a b (_ & A1 & A2) (W & B1 & B2). split; [exact W|]. unfold rt_sb_restore, rt_sb_snap. cbn [seg pkt set_segs].
    by rewrite !length_imap. }
  split; [by apply Hok|by apply Hok|apply (ss_fields _ _ H)|].
  intros k Hk. pose proof (ss_segs _ _ H0 k Hk) as Hseg.
  destruct (restore_words s0 s k J0s Cs Hk (tr_t _ _ _ _ _ Hseg)) as (A1 & A2 & A3 & A4).
  destruct (restore_words t0 t k J0t Ct Hk (tr_j _ _ _ _ _ Hseg)) as (B1 & B2 & B3 & B4).
  by eapply same_seg_words.
Qed.
End sim.
