(* ===== verification/AotKick.v ===== *)
(** * Two run-times side by side

    [both R m m'] is that two programs run from related states give the same
    result and end in related states.  A send from two states whose segments
    will be the same is the same, and so is a call that is captured, or made
    directly after all, from two states with the same words. *)

From stdpp Require Import base list list_numbers numbers gmap.
From S2P Require Import Prelude.
From S2P Require Import CtrlpktEncode.
From S2P Require Import RuntimePkt.
From S2P Require Import CtrlpktFormat.
From S2P Require Import CtrlpktSeg.
From S2P Require Import Resource.
From S2P Require Import ControlPlan.
From S2P Require Import Driver.
From S2P Require Import TraceRes.
From S2P Require Import ShimBatch.
From S2P Require Import ShimBatchProps.
From S2P Require Import RowFabric.
From S2P Require Import AotTable.
From S2P Require Import AotWindow.
From S2P Require Import AotSegs.
From S2P Require Import AotBuild.
From S2P Require Import AotSame.

Local Open Scope Z_scope.
Local Open Scope c_scope.

(** ** Related programs *)

Definition both {S T E A} (P Q : S -> T -> Prop) (m : stE S E A) (m' : stE T E A) : Prop :=
  forall s t, P s t -> exists s' t' a, m s = (s', Ok a) /\ m' t = (t', Ok a) /\ Q s' t'.

Abbreviation stays R := (both R R).

Section both.
Context {S T E : Type} (R : S -> T -> Prop).

Lemma both_ret {A} (a : A) : both (E := E) R R (mret a) (mret a).
Proof using. intros s t H. by exists s, t, a. Qed.

Lemma both_bind {A B} P Q (m : stE S E A) (m' : stE T E A) (k k' : A -> stE _ E B) :
  both P R m m' -> (forall a, both R Q (k a) (k' a)) -> both P Q (m ≫= k) (m' ≫= k').
Proof using.
  intros Hm Hk s t H. unfold mbind, stE_bind. destruct (Hm s t H) as (s1 & t1 & a & -> & -> & H1). by apply Hk.
Qed.

Lemma both_gets {A} (f : S -> A) (f' : T -> A) : (forall s t, R s t -> f s = f' t) -> both (E := E) R R (gets f) (gets f').
Proof using. intros Hf s t H. exists s, t, (f s). unfold gets. by rewrite (Hf s t H). Qed.

Lemma both_modify P (g : S -> S) (g' : T -> T) :
  (forall s t, P s t -> R (g s) (g' t)) -> both (E := E) P R (modify g) (modify g').
Proof using. intros Hg s t H. exists (g s), (g' t), tt. split_and!; [done|done|by apply Hg]. Qed.

Lemma both_when c (m : stE S E unit) (m' : stE T E unit) : stays R m m' -> stays R (when c m) (when c m').
Proof using. destruct c; [done|]. intros _. apply both_ret. Qed.

Lemma both_if {A} P (c : bool) (m n : stE S E A) (m' n' : stE T E A) :
  both P R m m' -> both P R n n' -> both P R (if c then m else n) (if c then m' else n').
Proof using. by destruct c. Qed.

Lemma both_forM {A} (xs : list A) (f : A -> stE S E unit) (f' : A -> stE T E unit) :
  (forall x, x ∈ xs -> stays R (f x) (f' x)) -> stays R (forM xs f) (forM xs f').
Proof using.
  induction xs as [|x xs IH]; intros H; cbn [forM]; [apply both_ret|].
  apply (both_bind R); [apply H; by left|]. intros _. apply IH. intros y Hy. apply H. by right.
Qed.

(** The states are at hand after a read. *)
Lemma both_get {A B} Q (f : S -> A) (f' : T -> A) (k k' : A -> stE _ E B) :
  (forall s t, R s t -> both (fun x y => x = s /\ y = t) Q (k (f s)) (k' (f' t))) -> both R Q (gets f ≫= k) (gets f' ≫= k').
Proof using. intros H s t Hst. by apply (H s t Hst). Qed.

Lemma both_pre {A} P Q (m : stE S E A) (m' : stE T E A) : (forall s t, P s t -> R s t) -> both R Q m m' -> both P Q m m'.
Proof using. intros H Hm s t Hst. by apply Hm, H. Qed.
Lemma both_post {A} P Q (m : stE S E A) (m' : stE T E A) : (forall s t, R s t -> Q s t) -> both P R m m' -> both P Q m m'.
Proof using. intros H Hm s t Hst. destruct (Hm s t Hst) as (s1 & t1 & a & ? & ? & ?). exists s1, t1, a. split_and!; auto. Qed.
End both.

(** ** The sends *)

Section kick.
Context (win_lo win_n : Z).
Hypothesis window_ok : 0 <= win_lo /\ 1 <= win_n <= 5 /\ win_lo + win_n <= 64.
Context (pkt_addr resp_addr : Z) (txn_open keep : bool).
Context (xaie : list sb_call -> sb_call -> Z) (pending_bds : list sb_call -> XAie_DmaDirection -> Z).
Context (backend : list sb_call -> backend_op -> Z * Z).

Abbreviation jok := (jit_ok win_lo win_n).
Abbreviation state := (drv rt_sb_state sb_call).

(** The same calls so far, and related states. *)
Definition with_log {S T} (P : S -> T -> Prop) (d : drv S sb_call) (d' : drv T sb_call) : Prop :=
  calls d = calls d' /\ P (rest d) (rest d').

(** What the calls to the device look at besides the segments. *)
Record fields_rel (P : rt_sb_state -> rt_sb_state -> Prop) : Prop := {
  fr_fields : forall s t, P s t -> jfields s = jfields t;
  fr_ack : forall s t b n, P s t -> P (set_ack b n s) (set_ack b n t);
  fr_armed : forall s t b, P s t -> P (set_armed b s) (set_armed b t) }.

Section ops.
Context (P : rt_sb_state -> rt_sb_state -> Prop).
Hypothesis rel : fields_rel P.

Lemma both_call c : stays (with_log P) (call xaie c) (call xaie c).
Proof using. intros s t [E H]. eexists _, _, _. unfold call. rewrite E. by split_and!. Qed.

Lemma both_upd f : (forall s t, P s t -> P (f s) (f t)) -> both (E := Z) (with_log P) (with_log P) (modify (upd_rest f)) (modify (upd_rest f)).
Proof using. intros Hf. apply both_modify. intros s t [E H]. split; [done|]. by apply Hf. Qed.

Lemma both_field {A} (f : rt_sb_state -> A) : (forall s t, jfields s = jfields t -> f s = f t) ->
  both (E := Z) (with_log P) (with_log P) (gets (fun s => f (rest s))) (gets (fun s => f (rest s))).
Proof using rel. intros Hf. apply both_gets. intros s t [_ H]. by apply Hf, (fr_fields _ rel). Qed.

Lemma both_andthen (a b a' b' : stE state Z Z) :
  stays (with_log P) a a' -> stays (with_log P) b b' -> stays (with_log P) (andthen a b) (andthen a' b').
Proof using. intros Ha Hb. apply (both_bind (with_log P)); [done|]. intros rc. apply both_if; [done|]. apply both_ret. Qed.

Lemma both_for_ok ks (f f' : Z -> stE state Z Z) : (forall k, stays (with_log P) (f k) (f' k)) ->
  stays (with_log P) (for_ok ks f) (for_ok ks f').
Proof using. intros H. induction ks as [|k ks IH]; [apply both_ret|]. by apply both_andthen. Qed.

Lemma both_write_bd bd addr n next :
  stays (with_log P) (rt_sb_write_bd xaie bd addr n next) (rt_sb_write_bd xaie bd addr n next).
Proof using.
  unfold rt_sb_write_bd. repeat (apply both_andthen; [|]); try apply both_call. destruct next; [apply both_call|apply both_ret].
Qed.

Lemma both_arm : stays (with_log P) (rt_sb_arm pkt_addr resp_addr xaie) (rt_sb_arm pkt_addr resp_addr xaie).
Proof using rel.
  unfold rt_sb_arm. apply (both_bind (with_log P)).
  { apply (both_field ncols). unfold jfields, ncols. intros s t [= _ _ _ -> ->%eq_sym _]. congruence. }
  intros n. apply (both_bind (with_log P)).
  { apply both_andthen; [apply both_write_bd|]. apply both_for_ok. intros k. apply both_write_bd. }
  intros rc. apply (both_bind (with_log P)); [apply both_upd; intros; by apply (fr_armed _ rel)|]. intros _. apply both_ret.
Qed.

Lemma both_poll fuel : stays (with_log P) (poll_pending pending_bds fuel) (poll_pending pending_bds fuel).
Proof using.
  induction fuel as [|fuel IH]; [apply both_ret|]. intros s t [E H]. cbn [poll_pending]. rewrite E.
  destruct (_ =? 0); [eexists _, _, _; split_and!; [done|done|by split; rewrite ?E]|].
  destruct fuel; [eexists _, _, _; split_and!; [done|done|by split; rewrite ?E]|]. apply IH. by split; rewrite ?E.
Qed.

Lemma both_ack_wait : stays (with_log P) (rt_sb_ack_wait xaie pending_bds) (rt_sb_ack_wait xaie pending_bds).
Proof using rel.
  unfold rt_sb_ack_wait. apply (both_bind (with_log P)); [apply both_field; unfold jfields; congruence|]. intros w. apply both_if; [apply both_ret|].
  apply (both_bind (with_log P)); [apply both_field; unfold jfields; congruence|]. intros n.
  apply (both_bind (with_log P)); [apply both_upd; intros; by apply (fr_ack _ rel)|]. intros _.
  apply (both_bind (with_log P)); [apply both_poll|]. intros p. apply both_if; [apply both_ret|].
  do 2 (apply (both_bind (with_log P)); [apply both_call|]; intros _).
  do 2 (apply (both_bind (with_log P)); [apply both_field; unfold jfields; congruence|]; intros ?).
  apply (both_bind (with_log P)); [|intros; apply both_ret].
  apply both_forM. intros c _. apply both_forM. intros ch _.
  do 2 (apply (both_bind (with_log P)); [apply both_call|]; intros _). apply both_ret.
Qed.

Lemma both_write_compact lens :
  stays (with_log P) (rt_sb_write_compact pkt_addr resp_addr xaie lens) (rt_sb_write_compact pkt_addr resp_addr xaie lens).
Proof using.
  apply both_andthen; [apply both_write_bd|]. apply both_for_ok. intros i. destruct (default _ _) as [k n]. apply both_write_bd.
Qed.

Lemma both_backend c : stays (with_log P) (run_backend backend c) (run_backend backend c).
Proof using.
  induction c as [rc|op k IH]; [apply both_ret|]. intros s t [E H]. cbn [run_backend]. rewrite E.
  destruct (backend _ op) as [rc v]. apply IH. by split; rewrite ?E.
Qed.
End ops.

(** ** Finishing *)

(** A loop that changes one segment after the other. *)
Lemma put_fold (f : Z -> segment -> segment) ks : forall s, NoDup ks -> Forall (fun k => 0 <= k < 5) ks -> jok s ->
  let s' := foldl (fun s k => put_seg k (f k (jseg s k)) s) s ks in
  jok s' /\ jfields s' = jfields s /\ forall j, 0 <= j -> jseg s' j = if bool_decide (j ∈ ks) then f j (jseg s j) else jseg s j.
Proof using.
  induction ks as [|k ks IH]; intros s Hn Hks Hs; cbn [foldl]; [split_and!; [done|done|]; intros j _; by rewrite bool_decide_false by (by intros ?%elem_of_nil)|].
  apply NoDup_cons in Hn as [Hk Hn]. apply Forall_cons in Hks as [Hk5 Hks].
  destruct (IH (put_seg k (f k (jseg s k)) s) Hn Hks) as (H1 & H2 & H3); [by apply jput_ok|].
  split; [exact H1|]. split; [exact H2|]. intros j Hj. rewrite H3 by done. rewrite (jput_at win_lo win_n) by done.
  destruct (Z.eqb_spec j k) as [->|Hne].
  - by rewrite bool_decide_false, bool_decide_true by (done || by left).
  - destruct (decide (j ∈ ks)) as [Hin|Hin]; [rewrite !bool_decide_true by (done || by right); done|].
    rewrite !bool_decide_false; [done| |done]. by intros [?|?]%elem_of_cons.
Qed.

Definition pad_seg (k : Z) (x : segment) : segment :=
  if seg_pw x.1 =? 0 then (rt_cpe_seg_write RT_SB_SEG_WORDS (acr_shim_row_id (u8 k)) RT_SB_PAD_OFF [0] 1 x).1 else x.
Definition fin_seg (k : Z) (x : segment) : segment := (rt_cpe_seg_finish x.1 x.2).1.
Definition fin_len (x : segment) : Z := (rt_cpe_seg_finish x.1 x.2).2.

Lemma ncols_ok s : jok s -> ncols s = win_n.
Proof using window_ok. intros ((El & Eh) & _). unfold ncols. rewrite El, Eh. unwrap. lia. Qed.

Lemma cols_ok : NoDup (range 0 win_n) /\ Forall (fun k => 0 <= k < 5) (range 0 win_n).
Proof using window_ok.
  split; [apply NoDup_seqZ|]. apply Forall_forall. intros k Hk%elem_of_seqZ. lia.
Qed.

Lemma pad_put s : jok s ->
  rt_sb_pad keep s = if keep && armed s then foldl (fun s k => put_seg k (pad_seg k (jseg s k)) s) s (range 0 win_n) else s.
Proof using window_ok.
  intros Hs. unfold rt_sb_pad. rewrite ncols_ok by done. destruct (keep && armed s); [|done].
  destruct cols_ok as [_ Hc]. revert s Hs. induction Hc as [|k ks Hk _ IH]; intros s Hs; [done|]. cbn [foldl].
  assert ((if seg_pw (seg_at s k) =? 0 then put_seg k (rt_cpe_seg_write RT_SB_SEG_WORDS (acr_shim_row_id (u8 k)) RT_SB_PAD_OFF [0] 1
             (seg_at s k, pkt_at s k)).1 s else s) = put_seg k (pad_seg k (jseg s k)) s) as ->.
  { unfold pad_seg, jseg at 1. cbn [fst]. destruct (_ =? 0); [done|]. by rewrite (jput_same win_lo win_n). }
  apply IH. by apply jput_ok.
Qed.

Definition lens_of (f : Z -> segment) (ks : list Z) : list (Z * Z) :=
  concat ((fun k => if fin_len (f k) =? 0 then [] else [(k, fin_len (f k))]) <$> ks).

Lemma finish_put ks : forall s lens, NoDup ks -> Forall (fun k => 0 <= k < 5) ks -> jok s ->
  foldl (fun '(s, lens) k =>
    let '(sg, p, n) := rt_cpe_seg_finish (seg_at s k) (pkt_at s k) in
    (put_seg k (sg, p) s, if n =? 0 then lens else lens ++ [(k, n)])) (s, lens) ks =
  (foldl (fun s k => put_seg k (fin_seg k (jseg s k)) s) s ks, lens ++ lens_of (jseg s) ks).
Proof using.
  induction ks as [|k ks IH]; intros s lens Hn Hks Hs; cbn [foldl]; [by rewrite app_nil_r|].
  apply NoDup_cons in Hn as [Hk Hn]. apply Forall_cons in Hks as [Hk5 Hks].
  unfold lens_of. cbn [fmap list_fmap concat]. unfold fin_seg at 2, fin_len at 1 2.
  change (jseg s k).1 with (seg_at s k). change (jseg s k).2 with (pkt_at s k).
  destruct (rt_cpe_seg_finish (seg_at s k) (pkt_at s k)) as [[sg p] n] eqn:Ef. cbn [fst snd].
  rewrite IH; [|done|done|by apply jput_ok]. f_equal.
  assert (lens_of (jseg (put_seg k (sg, p) s)) ks = lens_of (jseg s) ks) as ->.
  { unfold lens_of. f_equal. apply list_fmap_ext. intros i j Hj%list_elem_of_lookup_2.
    rewrite (jput_at win_lo win_n); [|done|done|by eapply Forall_forall in Hks; [|exact Hj]; lia].
    destruct (Z.eqb_spec j k) as [->|]; [done|reflexivity]. }
  unfold lens_of. destruct (n =? 0); [done|]. by rewrite <- app_assoc.
Qed.

(** Whether a window is open; a send leaves it. *)
Context (act : bool).

(** Two states from which a send is the same. *)
Record sends_same (s t : rt_sb_state) : Prop := {
  sn_s : jok s;
  sn_t : jok t;
  sn_fields : jfields s = jfields t;
  sn_active : active s = act;
  sn_segs : forall k, 0 <= k < win_n -> same_send (jseg s k) (jseg t k) }.

Lemma fields_sends : fields_rel sends_same.
Proof using.
  split; [by intros s t []|..]; intros s t; [intros b n|intros b]; intros [H1 H2 H3 H4 H5]; split; try assumption;
    unfold jfields, set_ack, set_armed in *; cbn in *; congruence.
Qed.

Definition same_act (s t : rt_sb_state) : Prop := same_state win_lo win_n s t /\ active s = act.

Lemma fields_same : fields_rel same_act.
Proof using.
  split; [by intros s t [[] _]|..]; intros s t; [intros b n|intros b]; intros [[H1 H2 H3 H4] Ha]; (split; [|exact Ha]); split; try assumption;
    unfold jfields, set_ack, set_armed in *; cbn in *; congruence.
Qed.

Lemma sends_same_state s t : same_act s t -> sends_same s t.
Proof using. intros [[H1 H2 H3 H4] Ha]. split; try assumption. intros k Hk. by eapply same_send_same, H4. Qed.

(** Segments with nothing in them. *)
Definition idle (x : segment) : Prop := seg_pw x.1 = 0 /\ seg_last x.1 = RT_CPE_NONE /\ len x.2 = RT_SB_SEG_WORDS.

Lemma idle_wf hdr x : idle x -> seg_wf hdr x.
Proof using. intros (E1 & E2 & E3). split; [done|rewrite E1, seg_words_816; lia|by left]. Qed.

Lemma idle_same hdr x y : idle x -> idle y -> same_seg hdr x y.
Proof using.
  intros Hx Hy. pose proof (idle_wf hdr x Hx). pose proof (idle_wf hdr y Hy). destruct Hx as (E1 & _), Hy as (E2 & _).
  split; [assumption|assumption|lia|lia|by left|intros i Hi; lia|constructor].
Qed.

Lemma same_send_pad k x y : 0 <= k < win_n -> same_send x y -> same_send (pad_seg k x) (pad_seg k y).
Proof using window_ok.
  intros Hk H. pose proof H as (Lx & Ly & Hz & Hl & _). unfold pad_seg.
  destruct (Z.eqb_spec (seg_pw x.1) 0) as [Ex|Nx].
  - pose proof (proj1 Hz Ex) as Ey. rewrite Ey. cbn [Z.eqb]. destruct (Hl Ex) as [Ex' Ey'].
    pose proof (idle_same (shim_hdr k) x y (conj Ex (conj Ex' Lx)) (conj Ey (conj Ey' Ly))) as Hs.
    unfold rt_cpe_seg_write. fold (shim_hdr k).
    pose proof (loop_same (shim_hdr k) (take (Z.to_nat 1) [0]) RT_SB_PAD_OFF x y Hs) as Hp.
    destruct (cpe_seg_write_loop _ _ _ _ x) as [x' r], (cpe_seg_write_loop _ _ _ _ y) as [y' r'].
    destruct Hp as (_ & Hp & _). by eapply same_send_same.
  - destruct (Z.eqb_spec (seg_pw y.1) 0) as [Ey|]; [by apply Hz in Ey|exact H].
Qed.

Lemma pad_same s t : sends_same s t -> sends_same (rt_sb_pad keep s) (rt_sb_pad keep t).
Proof using window_ok.
  intros [H1 H2 H3 Ha H4]. rewrite !pad_put by assumption. assert (armed s = armed t) as -> by (unfold jfields in H3; congruence).
  destruct (keep && armed t); [|by split]. destruct cols_ok as [Hn Hc].
  destruct (put_fold pad_seg _ s Hn Hc H1) as (A1 & A2 & A3). destruct (put_fold pad_seg _ t Hn Hc H2) as (B1 & B2 & B3).
  split; [exact A1|exact B1|congruence|unfold jfields in *; congruence|]. intros k Hk. rewrite A3, B3 by lia.
  destruct (bool_decide _); [|by apply H4]. apply same_send_pad; [done|by apply H4].
Qed.

Lemma reset_idle s k : jok s -> 0 <= k < win_n -> len (pkt_at s k) = RT_SB_SEG_WORDS -> idle (jseg (rt_sb_reset_segs s) k).
Proof using window_ok.
  intros (_ & L1 & _) Hk Hl. unfold jseg, seg_at, rt_sb_reset_segs, set_segs. cbn [seg]. rewrite list_lookup_fmap.
  destruct (lookup_lt_is_Some_2 (seg s) (Z.to_nat k)) as [x ->]; [lia|]. by split_and!.
Qed.

(** What is sent, and what is left. *)
Lemma finish_same s t : sends_same s t ->
  let '(s', lens) := rt_sb_finish_all s in
  let '(t', lens') := rt_sb_finish_all t in
  lens = lens' /\ (forall k n, (k, n) ∈ lens -> take (Z.to_nat n) (pkt_at s' k) = take (Z.to_nat n) (pkt_at t' k)) /\
  jfields s' = jfields s /\ jfields t' = jfields t /\
  same_state win_lo win_n (rt_sb_reset_segs s') (rt_sb_reset_segs t') /\
  (forall k, 0 <= k < win_n -> idle (jseg (rt_sb_reset_segs s') k) /\ idle (jseg (rt_sb_reset_segs t') k)).
Proof using window_ok.
  intros [H1 H2 H3 _ H4]. destruct cols_ok as [Hn Hc]. unfold rt_sb_finish_all. rewrite !ncols_ok, !finish_put by assumption.
  destruct (put_fold fin_seg _ s Hn Hc H1) as (A1 & A2 & A3). destruct (put_fold fin_seg _ t Hn Hc H2) as (B1 & B2 & B3).
  set (s' := foldl _ s _) in *. set (t' := foldl _ t _) in *. cbn [app].
  assert (forall k, 0 <= k < win_n -> fin_len (jseg s k) = fin_len (jseg t k) /\
            take (Z.to_nat (fin_len (jseg s k))) (pkt_at s' k) = take (Z.to_nat (fin_len (jseg s k))) (pkt_at t' k) /\
            len (pkt_at s' k) = RT_SB_SEG_WORDS /\ len (pkt_at t' k) = RT_SB_SEG_WORDS) as Hfin.
  { intros k Hk. specialize (A3 k ltac:(lia)). specialize (B3 k ltac:(lia)).
    rewrite bool_decide_true in A3, B3 by (apply elem_of_seqZ; lia).
    change (pkt_at s' k) with (jseg s' k).2. change (pkt_at t' k) with (jseg t' k).2. rewrite A3, B3.
    destruct (H4 k Hk) as (_ & _ & _ & _ & H). unfold fin_len, fin_seg.
    destruct (rt_cpe_seg_finish (jseg s k).1 _) as [[? p] n], (rt_cpe_seg_finish (jseg t k).1 _) as [[? q] m]. exact H. }
  assert (lens_of (jseg s) (range 0 win_n) = lens_of (jseg t) (range 0 win_n)) as El.
  { unfold lens_of. f_equal. apply list_fmap_ext. intros i j Hj%list_elem_of_lookup_2%elem_of_seqZ.
    by rewrite (proj1 (Hfin j ltac:(lia))). }
  assert (forall k, 0 <= k < win_n -> idle (jseg (rt_sb_reset_segs s') k) /\ idle (jseg (rt_sb_reset_segs t') k)) as Hi.
  { intros k Hk. destruct (Hfin k Hk) as (_ & _ & E1 & E2). split; by apply reset_idle. }
  split; [exact El|]. split; [|split; [exact A2|split; [exact B2|split; [|exact Hi]]]].
  - intros k n Hin. assert (0 <= k < win_n /\ n = fin_len (jseg s k)) as [Hk ->].
    { unfold lens_of in Hin. apply list_elem_of_In, in_concat in Hin as (l & Hl%list_elem_of_In & Hkn%list_elem_of_In).
      apply list_elem_of_fmap in Hl as (j & -> & Hj%elem_of_seqZ). destruct (_ =? 0); [by apply not_elem_of_nil in Hkn|].
      apply list_elem_of_singleton in Hkn. injection Hkn as -> ->. split; [lia|done]. }
    apply Hfin. done.
  - assert (forall x, jok x -> jok (rt_sb_reset_segs x)) as Hr.
    { intros x (W & L1 & L2). split; [exact W|]. cbn. by rewrite length_fmap. }
    split; [by apply Hr|by apply Hr|exact (eq_trans A2 (eq_trans H3 (eq_sym B2)))|].
    intros k Hk. destruct (Hi k Hk). by apply idle_same.
Qed.

(** ** A send *)

Record rests (s t : rt_sb_state) : Prop := {
  re_same : same_act s t;
  re_idle : forall k, 0 <= k < win_n -> idle (jseg s k) /\ idle (jseg t k) }.

Lemma fields_rests : fields_rel rests.
Proof using.
  destruct fields_same as [F1 F2 F3].
  split; [intros s t []; by apply F1|..]; intros s t; [intros b n|intros b]; intros [H1 H2]; (split; [auto|exact H2]).
Qed.

(** The part of a send after the segments are finished. *)
Definition send_all (s : rt_sb_state) (lens : list (Z * Z)) : stE state Z Z :=
  let nseg := len lens in
  if nseg =? 0 then mret XAIE_OK
  else
    forM lens (fun '(k, n) => call xaie (SyncForDev (seg_addr pkt_addr k) (take (Z.to_nat n) (pkt_at s k))) ;; mret tt) ;;
    rk ← (if armed s && (nseg =? ncols s)
          then rc ← for_ok (range 0 nseg) (fun i =>
                   let '(k, n) := default (0, 0) (lens !! Z.to_nat i) in
                   call xaie (UpdateBdLen (n *u32 4) (u16 (RT_RES_SHIMROW_BD_LO + k))));
               mret (rc, keep && (rc =? XAIE_OK))
          else rc ← rt_sb_write_compact pkt_addr resp_addr xaie lens; mret (rc, false));
    modify (upd_rest (set_armed rk.2)) ;;
    rc ← andthen (mret rk.1) (andthen (call xaie (PushBd DMA_S2MM RT_RES_SHIMROW_ACK_BD)) (call xaie (PushBd DMA_MM2S RT_RES_SHIMROW_BD_LO)));
    modify (upd_rest (set_ack (rc =? XAIE_OK) nseg)) ;;
    mret rc.

Lemma both_send s t lens : jfields s = jfields t ->
  (forall k n, (k, n) ∈ lens -> take (Z.to_nat n) (pkt_at s k) = take (Z.to_nat n) (pkt_at t k)) ->
  stays (with_log rests) (send_all s lens) (send_all t lens).
Proof using.
  intros Hf Hw. pose proof fields_rests as rel. unfold send_all. apply both_if; [apply both_ret|].
  apply (both_bind (with_log rests)).
  { apply both_forM. intros [k n] Hk. rewrite (Hw k n Hk). apply (both_bind (with_log rests)); [apply both_call|]. intros _. apply both_ret. }
  intros _. assert (armed s = armed t /\ ncols s = ncols t) as [-> ->].
  { unfold jfields, ncols in *. injection Hf as _ _ -> -> -> _. done. }
  apply (both_bind (with_log rests)).
  { apply both_if; (apply (both_bind (with_log rests)); [|intros rc; apply both_ret]).
    - apply both_for_ok. intros i. destruct (default _ _) as [k n]. apply both_call.
    - apply both_write_compact. }
  intros rk. apply (both_bind (with_log rests)); [apply both_upd; intros; by apply (fr_armed _ rel)|]. intros _.
  apply (both_bind (with_log rests)).
  { apply both_andthen; [apply both_ret|]. apply both_andthen; apply both_call. }
  intros rc. apply (both_bind (with_log rests)); [apply both_upd; intros; by apply (fr_ack _ rel)|]. intros _. apply both_ret.
Qed.

Lemma both_kick : both (with_log sends_same) (with_log rests) (rt_sb_kick pkt_addr resp_addr keep xaie pending_bds)
  (rt_sb_kick pkt_addr resp_addr keep xaie pending_bds).
Proof using window_ok.
  unfold rt_sb_kick. apply (both_bind (with_log sends_same)); [apply both_call|]. intros _.
  apply (both_bind (with_log sends_same)); [apply both_ack_wait, fields_sends|]. intros _.
  apply both_get. intros d d' [Ec H]. pose proof (pad_same _ _ H) as Hp. pose proof (finish_same _ _ Hp) as Hf.
  assert (jfields (rt_sb_pad keep (rest d)) = jfields (rt_sb_pad keep (rest d'))) as Ef by apply Hp.
  destruct (rt_sb_finish_all (rt_sb_pad keep (rest d))) as [s lens], (rt_sb_finish_all (rt_sb_pad keep (rest d'))) as [t lens'].
  destruct Hf as (<- & Hw & F1 & F2 & Hs & Hi).
  apply (both_bind (with_log rests)); [apply both_modify; intros x y [-> ->]; split; [exact Ec|]|].
  { split; [|exact Hi]. split; [exact Hs|]. pose proof (sn_active _ _ Hp) as Ha. unfold jfields in F1. cbn. congruence. }
  intros _. apply both_send; [congruence|exact Hw].
Qed.

Lemma both_flush P : (forall s t, P s t -> sends_same s t) -> both (with_log P) (with_log rests) (rt_sb_flush pkt_addr resp_addr keep xaie pending_bds)
  (rt_sb_flush pkt_addr resp_addr keep xaie pending_bds).
Proof using window_ok.
  intros HP. unfold rt_sb_flush. apply (both_bind (with_log rests)).
  { eapply both_pre; [|apply both_kick]. intros s t [E H]. split; [exact E|by apply HP]. }
  intros rc. apply (both_bind (with_log rests)); [apply both_ack_wait, fields_rests|]. intros ack. apply both_ret.
Qed.

(** ** A call *)

Context (col_shift : Z).

Abbreviation same := same_act.
Abbreviation sb_call_ := (RT_SB_CALL 20 col_shift pkt_addr resp_addr txn_open keep xaie pending_bds backend).

Lemma rests_same : forall s t, rests s t -> same s t.
Proof using. by intros s t []. Qed.

Lemma both_sb_call tile c : stays (with_log same) (sb_call_ tile c) (sb_call_ tile c).
Proof using window_ok.
  unfold RT_SB_CALL. apply (both_bind (with_log same)).
  { apply (both_field _ fields_same (rt_sb_cap_on txn_open tile)). unfold rt_sb_cap_on, jfields. intros s t [= -> _ _ -> -> _]. done. }
  intros on. apply both_if; [apply both_backend|].
  apply both_get. intros d d' [Ec [H0 Ha]].
  pose proof (same_bad win_lo win_n _ _ false H0) as H1.
  pose proof (run_captured_same col_shift win_lo win_n window_ok c _ _ H1) as Hc.
  apply (both_bind (fun x y => x = upd_rest (set_bad false) d /\ y = upd_rest (set_bad false) d')).
  { apply both_modify. by intros x y [-> ->]. }
  intros _. apply both_get. intros x y [-> ->]. cbn [rest upd_rest].
  destruct (run_captured 20 col_shift c (set_bad false (rest d))) as [s1 r] eqn:Es,
    (run_captured 20 col_shift c (set_bad false (rest d'))) as [t1 r'] eqn:Et.
  destruct Hc as (Hr & Hs & C1 & C2). destruct (Hr eq_refl) as [<- Hb]. cbn [fst snd].
  apply (both_bind (fun x y => x = upd_rest (fun _ => s1) d /\ y = upd_rest (fun _ => t1) d')).
  { apply both_modify. by intros x y [-> ->]. }
  intros _. rewrite Hb. apply both_if.
  - eapply both_pre; [|apply (both_ret (with_log same))]. intros x y [-> ->]. split; [done|]. split; [exact Hs|].
    pose proof (cap_fields _ _ _ C1) as Hf. cbn in *. congruence.
  - pose proof (restore_same win_lo win_n window_ok _ _ _ _ H0 Hs C1 C2) as Hre.
    apply (both_bind (with_log same)).
    { apply both_modify. intros x y [-> ->]. split; [done|]. split; [exact Hre|].
      pose proof (cap_fields _ _ _ C1) as Hf. cbn in *. congruence. }
    intros _. apply (both_bind (with_log same)).
    { eapply both_post; [|eapply both_flush, sends_same_state]. intros x y [Ecl Hre']. split; [exact Ecl|by apply rests_same]. }
    intros _. apply both_backend.
Qed.
End kick.
