(* ===== verification/AotCommit.v ===== *)
(** * A table at the commit

    The segments that a table leaves at the commit are those of the calls
    captured one by one: the tool's segments are finished, cut at the return
    routes and patched with the addresses. *)

From stdpp Require Import base list list_numbers numbers gmap.
From S2P Require Import Prelude.
From S2P Require Import CtrlpktEncode.
From S2P Require Import RuntimePkt.
From S2P Require Import CtrlpktFormat.
From S2P Require Import CtrlpktSeg.
From S2P Require Import Resource.
From S2P Require Import ControlPlan.
From S2P Require Import Driver.
From S2P Require Import TraceRes.
From S2P Require Import ShimBatch.
From S2P Require Import ShimBatchProps.
From S2P Require Import RowFabric.
From S2P Require Import AotTable.
From S2P Require Import AotWindow.
From S2P Require Import AotSegs.
From S2P Require Import AotBuild.
From S2P Require Import AotSame.
From S2P Require Import AotKick.

Local Open Scope Z_scope.
Local Open Scope c_scope.

Section commit.
Context (col_shift win_lo win_n : Z).
Hypothesis shift_ok : 20 <= col_shift <= 28.
Hypothesis window_ok : 0 <= win_lo /\ 1 <= win_n <= 5 /\ win_lo + win_n <= 64.
Context (tile_type : XAie_LocType -> Z) (XAIE_INVALID_TILE : Z) (has_dma : Z -> bool) (fields : shim_bd_fields).
Context (set_field : Z -> Z -> Z -> Z).

Abbreviation jok := (jit_ok win_lo win_n).
Abbreviation win_hi := (win_lo + win_n - 1).
Abbreviation addr_fields := (rt_seq_shim_bd_addr_fields tile_type XAIE_INVALID_TILE has_dma fields set_field).
Abbreviation entry_patches_ := (entry_patches tile_type XAIE_INVALID_TILE has_dma fields set_field).
Abbreviation all_patches_ := (all_patches tile_type XAIE_INVALID_TILE has_dma fields set_field).
Abbreviation patch_ := (rt_sb_aot_patch tile_type XAIE_INVALID_TILE has_dma fields set_field).
Abbreviation entry_for_ := (entry_for tile_type XAIE_INVALID_TILE has_dma fields set_field).

(** ** The tool's segments *)

Definition tool_wf (s : s_segs) : Prop := tool_ok s /\ forall k, 0 <= k < 5 -> seg_wf (shim_hdr k) (tseg s k).

Lemma append_record_wf r : keeps tool_wf (append_record 20 col_shift win_lo win_hi r).
Proof using window_ok.
  intros s [Hs Hw]. unfold append_record. destruct (decode _ _ _) as [[col row] off].
  destruct (negb (row =? 0) || (col <? win_lo) || (col >? win_hi)) eqn:Eg; [by split|].
  set (k := col - win_lo). assert (0 <= k < 5) as Hk by lia.
  unfold rt_cpe_seg_write. change (take (Z.to_nat 1) [r_val r]) with [r_val r]. fold (shim_hdr k).
  change (st_at s k, seg_words s k) with (tseg s k). change S_SEG_WORDS with RT_SB_SEG_WORDS.
  cbn [cpe_seg_write_loop]. unfold mbind, stE_bind.
  assert (seg_wf (shim_hdr k) (cpe_seg_push (shim_hdr k) RT_SB_SEG_WORDS off (r_val r) (tseg s k)).1) as Hp.
  { rewrite push_cases by (by apply Hw). destruct (Z.leb_spec (seg_pw (tseg s k).1 + 5) RT_SB_SEG_WORDS); [|by apply Hw].
    destruct (widens _ _) eqn:Ew; cbn [fst]; [by apply (widen_wf _ off); [apply Hw| |]|by apply grow_wf; [apply Hw|]]. }
  assert (forall x, seg_wf (shim_hdr k) x -> tool_wf (tput k x s)) as Hput.
  { intros x Hx. split; [by apply tput_ok|]. intros j Hj. rewrite tput_at by (done || lia).
    destruct (Z.eqb_spec j k) as [->|]; [done|by apply Hw]. }
  destruct (cpe_seg_push _ _ _ _ _) as [x [[]|e]]; exact (Hput x Hp).
Qed.

Lemma append_records_wf recs : forall first pos, keeps tool_wf (append_records 20 col_shift win_lo win_hi recs first pos).
Proof using window_ok.
  induction recs as [|r recs IH]; intros first pos; cbn [append_records]; [apply keeps_ret|].
  apply keeps_bind; [apply append_record_wf|]. intros k. apply keeps_bind; [apply keeps_gets|]. intros p. apply IH.
Qed.

Lemma record_prefix_wf prog ops : keeps tool_wf (record_prefix prog 20 col_shift win_lo win_hi ops).
Proof using window_ok.
  induction ops as [|op ops IH]; cbn [record_prefix]; [apply keeps_ret|]. destruct (record_op prog op false); [|apply keeps_throw].
  apply keeps_bind; [apply append_records_wf|]. intros _. exact IH.
Qed.

Lemma reset_wf s : tool_ok s -> (forall k, 0 <= k < 5 -> len (seg_words s k) = RT_SB_SEG_WORDS) ->
  tool_wf (reset_segs s) /\ forall k, 0 <= k < 5 -> idle (tseg (reset_segs s) k).
Proof using.
  intros [L1 L2] Hl.
  assert (forall k, 0 <= k < 5 -> idle (tseg (reset_segs s) k)) as Hi.
  { intros k Hk. unfold tseg, st_at, reset_segs. cbn [g_st]. rewrite list_lookup_fmap.
    destruct (lookup_lt_is_Some_2 (g_st s) (Z.to_nat k)) as [x ->]; [lia|]. split_and!; [done|done|by apply Hl]. }
  split; [|exact Hi]. split; [split; cbn; by rewrite ?length_fmap|]. intros k Hk. by apply idle_wf, Hi.
Qed.

Lemma segs0_ok : tool_ok segs0 /\ forall k, 0 <= k < 5 -> len (seg_words segs0 k) = RT_SB_SEG_WORDS.
Proof using.
  split; [done|]. intros k Hk. assert (k = 0 \/ k = 1 \/ k = 2 \/ k = 3 \/ k = 4) as [-> | [-> | [-> | [-> | ->]]]] by lia; by vm_compute.
Qed.

Lemma with_prefix_wf prog ops : tool_wf (with_prefix prog 20 col_shift win_lo win_hi ops segs0).
Proof using window_ok.
  unfold with_prefix. destruct segs0_ok as [H0 Hl]. destruct (reset_wf _ H0 Hl) as [Hr _].
  pose proof (record_prefix_wf prog ops (reset_segs segs0) Hr) as Hk.
  destruct (record_prefix _ _ _ _ _ ops (reset_segs segs0)) as [s [[]|e]]; cbn [fst] in Hk; [exact Hk|].
  destruct Hk as [Hs Hw]. apply reset_wf; [done|]. intros k Hk. apply (wf_len _ _ (Hw k Hk)).
Qed.

(** ** The table *)

Abbreviation table P T es := (emit_window win_lo win_hi P T es).

Lemma column_of (f : Z -> Z) k : 0 <= k < 5 -> rd (f <$> range 0 RT_AOT_SB_MAX_SEGS) k = f k.
Proof using.
  intros H. assert (k = 0 \/ k = 1 \/ k = 2 \/ k = 3 \/ k = 4) as [-> | [-> | [-> | [-> | ->]]]] by lia; reflexivity.
Qed.
Lemma words_of (f : Z -> list Z) k : 0 <= k < 5 -> default [] ((f <$> range 0 RT_AOT_SB_MAX_SEGS) !! Z.to_nat k) = f k.
Proof using.
  intros H. assert (k = 0 \/ k = 1 \/ k = 2 \/ k = 3 \/ k = 4) as [-> | [-> | [-> | [-> | ->]]]] by lia; reflexivity.
Qed.

(** What the table has of a column. *)
Lemma table_at P T es k : 0 <= k < win_n ->
  let x := fin_seg k (tseg T k) in
  let n := fin_len (tseg T k) in
  rd (t_len (table P T es)) k = n /\ rd (t_prefix (table P T es)) k = seg_pw (st_at P k) /\
  (n <> 0 -> default [] (t_seg (table P T es) !! Z.to_nat k) = take (Z.to_nat n) x.2 /\ rd (t_last (table P T es)) k = seg_last x.1) /\
  rd (t_prefix_last (table P T es)) k = if seg_pw (st_at P k) =? 0 then RT_CPE_NONE else seg_last (st_at P k).
Proof using window_ok.
  intros Hk x n. unfold emit_window. cbn [t_len t_prefix t_seg t_last t_prefix_last].
  rewrite !column_of, words_of by lia. replace (k <? win_lo + win_n - 1 - win_lo + 1) with true by lia.
  split; [done|]. split; [done|]. split; [|done]. intros Hn.
  change ((rt_cpe_seg_finish (st_at T k) (seg_words T k)).2) with n. rewrite (proj2 (Z.eqb_neq _ _) Hn). done.
Qed.

(** ** The addresses *)

Lemma patch_call_spec e addr sh p :
  (is_bd (k_kind e) = true -> Forall (fun i => sh <= i < RT_SB_SEG_WORDS) (k_patch e) /\ length (k_patch e) = 3%nat) ->
  (is_bd (k_kind e) = true -> (addr_fields (Loc (k_row e) (k_col e)) addr).2 = XAIE_OK) -> is_bd (k_kind e) = true ->
  patch_call tile_type XAIE_INVALID_TILE has_dma fields set_field e addr sh p = foldl put_patch p (entry_patches_ sh e addr).
Proof using.
  intros Hp Hf Hb. destruct (Hp Hb) as [Hr Hl]. specialize (Hf Hb). unfold patch_call, entry_patches. rewrite Hb.
  destruct (addr_fields _ addr) as [f rc]. cbn [fst snd] in *. rewrite Hf. change (XAIE_OK =? XAIE_OK) with true. cbn [negb].
  destruct (k_patch e) as [|a [|b [|c [|]]]]; try done.
  apply Forall_cons in Hr as [Ha Hr]. apply Forall_cons in Hr as [Hb' Hr]. apply Forall_cons in Hr as [Hc _]. rewrite seg_words_816 in *.
  assert (forall x, sh <= x < 816 -> negb (x =? RT_AOT_NO_PATCH) && (x >=? sh) = true) as Hx by (unfold RT_AOT_NO_PATCH; lia).
  change (rd [a; b; c] 0) with a. change (rd [a; b; c] 1) with b. change (rd [a; b; c] 2) with c. cbn [foldl].
  change (rd [a; b; c] 0) with a. change (rd [a; b; c] 1) with b. change (rd [a; b; c] 2) with c. rewrite !Hx by done.
  reflexivity.
Qed.

Lemma patch_spec P T es ads k sh p pre : length ads = length es -> pre k = sh ->
  Forall (fun e => k_seg e = k -> exists c, entry_for_ sh c k e) es ->
  patch_ (table P T es) ads k sh p = foldl put_patch p (all_patches_ pre k es ads).
Proof using.
  intros Hl Hpre Hes. unfold rt_sb_aot_patch. cbn [t_calls emit_window].
  set (f := fun (es : list rt_aot_sb_call) (ads : list Z) (p : list Z) (i : Z) => match es !! Z.to_nat i with
    | Some c => if negb (k_seg c =? k) || negb (is_bd (k_kind c)) then p
                else patch_call tile_type XAIE_INVALID_TILE has_dma fields set_field c (rd ads i) sh p
    | None => p end).
  change (foldl (f es ads) p (range 0 (len es)) = foldl put_patch p (all_patches_ pre k es ads)).
  revert ads p Hl. induction Hes as [|e es He _ IH]; intros [|a ads] p Hl; try done. injection Hl as Hl.
  unfold range. rewrite len_cons. pose proof (len_nonneg es). replace (len es + 1 - 0) with (Z.succ (len es)) by lia.
  rewrite seqZ_cons by lia. cbn [foldl]. unfold all_patches. cbn [zip_with concat]. rewrite foldl_app.
  fold (all_patches_ pre k es ads). rewrite <- IH by done. unfold range.
  assert (f (e :: es) (a :: ads) p 0 = foldl put_patch p (if k_seg e =? k then entry_patches_ (pre k) e a else [])) as ->.
  { unfold f. change ((e :: es) !! Z.to_nat 0) with (Some e). change (rd (a :: ads) 0) with a. cbn iota beta.
    destruct (Z.eqb_spec (k_seg e) k) as [Ek|]; cbn [negb orb]; [|done]. destruct (is_bd (k_kind e)) eqn:Eb; cbn [negb].
    - destruct (He Ek) as [c [_ Hp Hf]]. rewrite Hpre. apply patch_call_spec; [done|intros; by apply Hf|done].
    - unfold entry_patches. by rewrite Eb. }
  change (Z.succ 0) with (1 + 0). replace (Z.pred _) with (len es) by lia. replace (len es - 0) with (len es) by lia. rewrite <- (fmap_add_seqZ 1 0 (len es)).
  generalize (foldl put_patch p (if k_seg e =? k then entry_patches_ (pre k) e a else [])) as q.
  assert (Forall (fun i => 0 <= i) (seqZ 0 (len es))) as Hr by (apply Forall_forall; intros i Hi%elem_of_seqZ; lia).
  induction Hr as [|i l Hi _ IHr]; intros q; [done|]. cbn [fmap list_fmap foldl]. rewrite IHr. f_equal.
  unfold f. replace (Z.to_nat (1 + i)) with (S (Z.to_nat i)) by lia. cbn [lookup list_lookup].
  assert (rd (a :: ads) (1 + i) = rd ads i) as -> by (unfold rd; by replace (Z.to_nat (1 + i)) with (S (Z.to_nat i)) by lia).
  reflexivity.
Qed.

(** ** One segment *)

Definition applied_seg (a : rt_aot_shim_bd) (ads : list Z) (shifts : list Z) (k : Z) (x : segment) : segment :=
  let sh := rd shifts k in
  let n := rd (t_len a) k - sh in
  let kept := seg_pw x.1 in
  (Seg n (if n =? 0 then RT_SB_NONE else rd (t_last a) k -u32 sh) (seg_last_ctrl x.1),
   patch_ a ads k sh (blit x.2 kept (slice (default [] (t_seg a !! Z.to_nat k)) (sh + kept) (n - kept)))).

Lemma table_len hdr P T es k : 0 <= k < win_n -> seg_wf hdr (tseg T k) ->
  rd (t_len (table P T es)) k = (if seg_pw (st_at T k) =? 0 then 0 else seg_pw (fin (tseg T k)).1) /\
  (seg_pw (st_at T k) <> 0 ->
   default [] (t_seg (table P T es) !! Z.to_nat k) = take (Z.to_nat (seg_pw (fin (tseg T k)).1)) (fin (tseg T k)).2 /\
   rd (t_last (table P T es)) k = seg_last (fin (tseg T k)).1).
Proof using window_ok.
  intros Hk Hw. destruct (table_at P T es k Hk) as (-> & _ & Hn & _). unfold fin_seg, fin_len in *. cbn zeta in Hn.
  change (st_at T k) with (tseg T k).1. destruct (Z.eqb_spec (seg_pw (tseg T k).1) 0) as [E|E].
  - destruct (wf_cases _ _ Hw) as [[El _]|?]; [|lia]. rewrite (finish_empty (tseg T k)) by done. done.
  - rewrite (finish_fin hdr) in * by done. cbn [fst snd] in *. split; [done|]. intros _. apply Hn.
    destruct (fin_acked hdr _ Hw E) as [_ [? _] _]. lia.
Qed.

Lemma segment_applies pre P ps T J es ads k x shifts :
  segs_rel win_lo win_n pre P ps T J -> 0 <= k < win_n -> ps k = all_patches_ pre k es ads -> length ads = length es ->
  Forall (fun e => k_seg e = k -> exists c, entry_for_ (pre k) c k e) es ->
  len x.2 = RT_SB_SEG_WORDS ->
  (seg_pw (seg_at J k) <> 0 -> rd shifts k = pre k /\
     0 <= seg_pw x.1 <= rd (t_len (table P T es)) k - pre k /\
     take (Z.to_nat (seg_pw x.1)) x.2 =
       take (Z.to_nat (seg_pw x.1)) (drop (Z.to_nat (pre k)) (default [] (t_seg (table P T es) !! Z.to_nat k)))) ->
  (seg_pw (seg_at J k) = 0 -> rd (t_len (table P T es)) k = rd shifts k /\ seg_pw x.1 = 0) ->
  same_send (applied_seg (table P T es) ads shifts k x) (jseg J k).
Proof using window_ok.
  intros H Hk Hps Hl Hes Lx Hne Hz. pose proof (sr_tracks _ _ _ _ _ _ _ H k Hk) as Ht. pose proof (sr_ends _ _ _ _ _ _ _ H k Hk) as He.
  pose proof (tr_t _ _ _ _ _ Ht) as Wt. pose proof (tr_j _ _ _ _ _ Ht) as Wj. unfold applied_seg.
  destruct (table_len _ P T es k Hk Wt) as [El Ews].
  destruct (Z.eqb_spec (seg_pw (seg_at J k)) 0) as [E0|E0].
  - destruct (Hz E0) as [-> Ex]. rewrite Z.sub_diag, Ex. cbn [Z.eqb].
    assert (ps k = []) as Eps.
    { pose proof (tr_ps _ _ _ _ _ Ht) as Hp. destruct (ps k) as [|q l]; [done|]. apply Forall_cons in Hp as [Hp _].
      change (seg_pw (jseg J k).1) with (seg_pw (seg_at J k)) in Hp. lia. }
    rewrite (patch_spec P T es ads k _ _ (fun _ => rd shifts k)); [|done|done|].
    + assert (all_patches_ (fun _ => rd shifts k) k es ads = []) as ->.
      { rewrite Eps in Hps. symmetry in Hps. clear -Hps Hl. unfold all_patches in *. revert ads Hl Hps.
        induction es as [|e es IH]; intros [|a ads] Hl Hps; try done. cbn in *. injection Hl as Hl.
        apply app_eq_nil in Hps as [H1 H2]. rewrite IH by done. rewrite app_nil_r. destruct (_ =? k); [|done].
        unfold entry_patches in *. by destruct (is_bd _). }
      cbn [foldl]. eapply same_send_same, (idle_same (shim_hdr k)).
      * split_and!; [done|done|]. cbn [snd]. unfold len in *. unfold blit. by rewrite length_inserts.
      * destruct (wf_cases _ _ Wj) as [[? ?]|H2]; [|change (jseg J k).1 with (seg_at J k) in H2; lia].
        split_and!; [done|done|apply (wf_len _ _ Wj)].
    + assert (Forall (fun e => k_seg e <> k \/ is_bd (k_kind e) = false) es) as Hno.
      { rewrite Eps in Hps. symmetry in Hps. clear -Hps Hl. unfold all_patches in *. revert ads Hl Hps.
        induction es as [|e es IH]; intros [|a ads] Hl Hps; try done. cbn in *. injection Hl as Hl.
        apply app_eq_nil in Hps as [H1 H2]. constructor; [|by eapply IH]. destruct (Z.eqb_spec (k_seg e) k); [right|by left].
        unfold entry_patches in *. by destruct (is_bd _). }
      eapply Forall_impl; [apply Forall_and; split; [exact Hes|exact Hno]|]. cbn. intros e [H1 H2] Ek. destruct (H1 Ek) as [c [He1 He2 He3]].
      destruct H2 as [?|Eb]; [done|]. exists c. split; [done|by rewrite Eb|done].
  - destruct (Hne E0) as (-> & Hc & Hk'). pose proof (tr_pw _ _ _ _ _ Ht) as Hpw. pose proof (tr_pre _ _ _ _ _ Ht) as Hpre.
    assert (seg_pw (st_at T k) <> 0) as Et.
    { change (st_at T k) with (tseg T k).1. change (jseg J k).1 with (seg_at J k) in Hpw. pose proof (wf_pw _ _ Wj).
      change (jseg J k).1 with (seg_at J k) in *. lia. }
    destruct (Ews Et) as [Es El']. rewrite (proj2 (Z.eqb_neq _ _) Et) in El. rewrite El, Es, El' in *.
    rewrite (patch_spec P T es ads k _ _ pre) by done. rewrite <- Hps.
    destruct (apply_matches (shim_hdr k) (pre k) (ps k) (tseg T k) (jseg J k) x.2 (seg_pw x.1) (seg_last_ctrl x.1) Ht E0 He Lx Hc Hk')
      as (Ha & En & Hw).
    destruct (fin_acked _ _ Wt) as [_ [Hfl Hfp] _]; [change (tseg T k).1 with (st_at T k); lia|].
    destruct (fin_tracks _ _ _ _ _ Ht E0 He) as (E1 & E2 & _). destruct (fin_acked _ _ Wj E0) as [_ [Hjl Hjp] _].
    assert ((seg_pw (fin (tseg T k)).1 - pre k =? 0) = false) as -> by lia. rewrite seg_words_816 in *.
    rewrite u32_small by lia. eapply (same_send_apply (shim_hdr k)); [exact Ha|exact Wj|exact E0|exact En|exact Hw].
Qed.

(** ** All segments *)

Abbreviation apply_ := (rt_sb_aot_apply tile_type XAIE_INVALID_TILE has_dma fields set_field).

Lemma patch_take a ads k sh p : patch_ a ads k sh p = patch_ a (take (length (t_calls a)) ads) k sh p.
Proof using.
  unfold rt_sb_aot_patch. assert (Forall (fun i => 0 <= i < len (t_calls a)) (range 0 (len (t_calls a)))) as H.
  { apply Forall_forall. intros i Hi%elem_of_seqZ. lia. }
  revert p. induction H as [|i l Hi _ IH]; intros p; [done|]. cbn [foldl].
  rewrite (rd_take ads (length (t_calls a)) i Hi). apply IH.
Qed.

(** What a table that is applied leaves. *)
Lemma apply_segments a w s : apply_ a w = Some s -> jok (sb w) ->
  exists shifts, (forall k, 0 <= k < win_n -> apply_check a w k = Some (rd shifts k)) /\ aot_i w = len (t_calls a) /\
    jok s /\ jfields s = jfields (sb w) /\
    forall k, 0 <= k < win_n -> jseg s k = applied_seg a (take (length (t_calls a)) (addrs w)) shifts k (jseg (sb w) k).
Proof using window_ok.
  intros E Hs. unfold rt_sb_aot_apply in E. rewrite (ncols_ok win_lo win_n) in E by done.
  destruct (_ || _) eqn:Eg; [done|]. destruct (mapM (apply_check a w) (range 0 win_n)) as [shifts|] eqn:Em; [|done].
  injection E as <-. exists shifts. split.
  { intros k Hk. apply mapM_Some_1 in Em. unfold range in Em. rewrite Z.sub_0_r in Em.
    assert (seqZ 0 win_n !! Z.to_nat k = Some k) as Ek by (rewrite lookup_seqZ; lia).
    destruct (Forall2_lookup_l _ _ _ _ _ Em Ek) as (sh & Esh & ->). unfold rd. by rewrite Esh. }
  split; [lia|]. destruct (cols_ok win_lo win_n window_ok) as [Hn Hc].
  destruct (put_fold win_lo win_n (applied_seg a (take (length (t_calls a)) (addrs w)) shifts) _ _ Hn Hc Hs) as (H1 & H2 & H3).
  assert (foldl (fun s k => apply_segment tile_type XAIE_INVALID_TILE has_dma fields set_field a (addrs w) s k (rd shifts k)) (sb w) (range 0 win_n) =
          foldl (fun s k => put_seg k (applied_seg a (take (length (t_calls a)) (addrs w)) shifts k (jseg s k)) s) (sb w) (range 0 win_n)) as ->.
  { generalize (range 0 win_n). intros l. generalize (sb w). induction l as [|k l IH]; intros x; [done|]. cbn [foldl]. rewrite IH.
    f_equal. unfold apply_segment. rewrite patch_take. reflexivity. }
  split; [exact H1|]. split; [exact H2|]. intros k Hk. rewrite H3 by lia. by rewrite bool_decide_true by (apply elem_of_seqZ; lia).
Qed.

Lemma check_routed pre P ps T J es w k sh :
  segs_rel win_lo win_n pre P ps T J -> 0 <= k < win_n -> pre k = seg_pw (st_at P k) -> route_now w = false ->
  idle (jseg (sb w) k) -> apply_check (table P T es) w k = Some sh ->
  let x := jseg (sb w) k in
  (seg_pw (seg_at J k) <> 0 -> sh = pre k /\
     0 <= seg_pw x.1 <= rd (t_len (table P T es)) k - pre k /\
     take (Z.to_nat (seg_pw x.1)) x.2 =
       take (Z.to_nat (seg_pw x.1)) (drop (Z.to_nat (pre k)) (default [] (t_seg (table P T es) !! Z.to_nat k)))) /\
  (seg_pw (seg_at J k) = 0 -> rd (t_len (table P T es)) k = sh /\ seg_pw x.1 = 0).
Proof using window_ok.
  intros H Hk Hpre Hnow (Ex & _) E x. unfold x. rewrite Ex. clear x Ex.
  pose proof (sr_tracks _ _ _ _ _ _ _ H k Hk) as Ht. pose proof (sr_ends _ _ _ _ _ _ _ H k Hk) as He.
  pose proof (tr_t _ _ _ _ _ Ht) as Wt. pose proof (tr_j _ _ _ _ _ Ht) as Wj. pose proof (tr_pw _ _ _ _ _ Ht) as Hpw.
  destruct (table_at P T es k Hk) as (_ & Epre & _). destruct (table_len _ P T es k Hk Wt) as [El Ews].
  change (jseg J k).1 with (seg_at J k) in Hpw. change (tseg T k).1 with (st_at T k) in Hpw.
  pose proof (tr_pre _ _ _ _ _ Ht) as Hp0. pose proof (wf_pw _ _ Wj) as Pj. change (jseg J k).1 with (seg_at J k) in Pj.
  unfold apply_check in E. destruct (_ || _); [done|]. unfold rt_sb_aot_shift in E. rewrite Hnow, Epre, <- Hpre in E. cbn [orb] in E.
  destruct (Z.eqb_spec (pre k) 0) as [E0|N0].
  - cbn [negb Z.eqb] in E. destruct (_ || _); [done|]. injection E as <-. split; [intros Hne|intros Hz].
    + split; [done|]. split; [|done]. assert (seg_pw (st_at T k) <> 0) as Nt by lia. destruct (fin_acked _ _ Wt Nt) as [_ [? _] _].
      rewrite El. rewrite (proj2 (Z.eqb_neq _ _) Nt). lia.
    + split; [|done]. rewrite El. by replace (seg_pw (st_at T k) =? 0) with true by lia.
  - assert (seg_pw (st_at T k) <> 0) as Nt by lia. destruct (Ews Nt) as [Es Elast].
    rewrite (proj2 (Z.eqb_neq _ _) Nt) in El. rewrite El, Es, Elast in *.
    destruct (_ && _) eqn:Eb; [done|]. rewrite (proj2 (Z.eqb_neq _ _) N0) in E. cbn [negb] in E.
    destruct (negb _ || negb (bool_decide _)); [done|]. injection E as <-. split; [intros Hne|intros Hz].
    + split; [done|]. split; [|done]. destruct (fin_tracks _ _ _ _ _ Ht Hne He) as (E1 & _). destruct (fin_acked _ _ Wj Hne) as [_ [? _] _]. lia.
    + split; [|done]. assert (Z.testbit (shim_hdr k) 23 = false) as Hb by (apply shim_hdr_bit; lia).
      change (st_at T k) with (tseg T k).1 in *. destruct (fin_acked _ _ Wt Nt) as [_ [? _] _].
      destruct (fin_idle _ _ Wt Nt Hb) as [?|(H1 & H2 & H3)]; [lia|].
      rewrite !rd_take in Eb by lia. replace (seg_pw (tseg T k).1) with (pre k) in * by lia. rewrite H2 in Eb. lia.
Qed.
End commit.
