(* ===== verification/AotWindowProps.v ===== *)
(** * A window from a table makes the calls of the window without one

    Two run-times side by side, one with a table, run the same windows of the
    same host calls.  While the calls are the table's, one notes what the other
    captures; a call that is another, or a table that does not fit at the
    commit, makes the one capture what it has noted; and a table that is
    applied leaves segments that will be sent as the captured ones. *)

From stdpp Require Import base list list_numbers numbers gmap.
From S2P Require Import Prelude.
From S2P Require Import CtrlpktEncode.
From S2P Require Import RuntimePkt.
From S2P Require Import CtrlpktFormat.
From S2P Require Import CtrlpktSeg.
From S2P Require Import Resource.
From S2P Require Import ControlPlan.
From S2P Require Import Driver.
From S2P Require Import TraceRes.
From S2P Require Import ShimBatch.
From S2P Require Import ShimBatchProps.
From S2P Require Import CacheSync.
From S2P Require Import RowFabric.
From S2P Require Import RowSend.
From S2P Require Import AotTable.
From S2P Require Import AotWindow.
From S2P Require Import AotSegs.
From S2P Require Import AotBuild.
From S2P Require Import AotSame.
From S2P Require Import AotKick.
From S2P Require Import AotCommit.

Local Open Scope Z_scope.
Local Open Scope c_scope.

(** ** The host program *)

(** What a host program calls between the beginning and the end of a window. *)
Inductive host_op :=
| HostBd (tile : XAie_LocType) (buffer : Z) (v : list Z)
| HostBdMulti (tile : XAie_LocType) (buffer : Z) (v : list Z)
| HostBdOoo (tile : XAie_LocType) (buffer : Z) (v : list Z)
| HostChannelOoo (tile : XAie_LocType) (channel dir : Z)
| HostStart (tile : XAie_LocType) (channel bd dir repeat : Z).

(** The arguments of a plain descriptor that is configured as one of several
    dimensions. *)
Definition plain_args (v : list Z) : list Z := take 10 v ++ [1; 4; rd v 1 ÷ 4; 0; 0; 0; 0; 0; 0].

(** No other arguments have the hash of those of a call. *)
Definition hash_sound (cs : list s_call) (kind : Z) (v : list Z) : Prop :=
  forall c, c ∈ cs -> c_kind c = kind -> rt_aot_bd_hash v = rt_aot_bd_hash (c_v c) -> v = c_v c.

(** The hash of a call's arguments tells it from the others, and the
    arguments the tables keep in a byte fit one. *)
Definition host_ok (cs : list s_call) (h : host_op) : Prop :=
  match h with
  | HostBd _ _ v => hash_sound cs RT_AOT_CALL_BD (plain_args v)
  | HostBdMulti _ _ v => hash_sound cs RT_AOT_CALL_BD v
  | HostBdOoo _ _ v => hash_sound cs RT_AOT_CALL_BD_OOO v
  | HostChannelOoo _ _ dir => 0 <= dir < 256
  | HostStart _ _ _ dir repeat => 0 <= dir < 256 /\ 0 <= repeat < 256
  end.

(** ** The return routes are in the window *)

Lemma keeps_forM_in {S E A} (P : S -> Prop) (xs : list A) (body : A -> stE S E unit) :
  (forall x, x ∈ xs -> keeps P (body x)) -> keeps P (forM xs body).
Proof.
  intros H. induction xs as [|x xs IH]; cbn [forM]; [apply keeps_ret|].
  apply keeps_bind; [apply H; by left|]. intros _. apply IH. intros y Hy. apply H. by right.
Qed.

Section plan.
Context (Q : acr_op -> Prop).
Abbreviation ops_ok := (fun s : plan => Forall Q s.1).

Lemma book_keeps c row p i m : keeps ops_ok (acr_book_port c row p i m).
Proof using. intros [o b] H. unfold acr_book_port. destruct (_ || _ || _); [done|]. by destruct (z2b _). Qed.

Lemma emit_keeps op : Q op -> keeps ops_ok (acr_emit_op op).
Proof using.
  intros Hop [o b] H. unfold acr_emit_op. destruct (_ >=? _); [done|]. cbn. apply Forall_app. split; [done|by constructor].
Qed.

Lemma on_fwd_keeps (m : planM) : keeps (fun s : list acr_op * plan => Forall Q s.1) (on_fwd m).
Proof using. intros [ret [fwd b]] H. unfold on_fwd. by destruct (m (fwd, b)) as [[fwd' b'] r]. Qed.
Lemma on_ret_keeps (m : planM) : keeps ops_ok m -> keeps (fun s : list acr_op * plan => Forall Q s.1) (on_ret m).
Proof using.
  intros Hm [ret [fwd b]] H. unfold on_ret. specialize (Hm (ret, b) H). by destruct (m (ret, b)) as [[ret' b'] r].
Qed.
End plan.

Lemma plan_ret_ops lo n b :
  let '((ret, _), _) := acr_plan_shim_row lo (lo + n - 1) ([], ([], b)) in Forall (op_in lo n) ret.
Proof.
  assert (keeps (fun s : list acr_op * plan => Forall (op_in lo n) s.1) (acr_plan_shim_row lo (lo + n - 1))) as H.
  { unfold acr_plan_shim_row. destruct (_ || _ || _); [apply keeps_throw|]. apply keeps_forM_in. intros c Hc%elem_of_seqZ.
    assert (forall k s p slot pkt mask msel arb, op_in lo n (Op k c 0 s 0 p 0 slot pkt mask msel arb 0 0 (b2z (arb =? RT_RES_ARB_RET)))) as Hop
      by (intros; split; [done|cbn; lia]).
    assert (forall port slot msel, keeps (fun s : plan => Forall (op_in lo n) s.1) (acr_emit_ret_slot c 0 port slot msel)) as Hslot.
    { intros port slot msel. unfold acr_emit_ret_slot. apply keeps_bind; [apply book_keeps|]. intros _.
      apply keeps_bind; [by apply emit_keeps|]. intros _. apply emit_keeps. split; [done|cbn; lia]. }
    apply keeps_bind; [apply on_fwd_keeps|]. intros _. apply keeps_bind; [by apply on_ret_keeps|]. intros _.
    apply keeps_bind; [apply keeps_when; by apply on_ret_keeps|]. intros _. apply on_ret_keeps. unfold acr_emit_master.
    apply keeps_bind; [apply book_keeps|]. intros _. apply emit_keeps. split; [done|cbn; lia]. }
  specialize (H ([], ([], b))). destruct (acr_plan_shim_row _ _ _) as [[ret x] r]. apply H. constructor.
Qed.

(** The host's call for one of the table. *)
Definition host_of (c : s_call) (buffer : Z) : host_op :=
  if c_kind c =? RT_AOT_CALL_BD then HostBdMulti (call_tile c) buffer (c_v c)
  else if c_kind c =? RT_AOT_CALL_BD_OOO then HostBdOoo (call_tile c) buffer (c_v c)
  else if c_kind c =? RT_AOT_CALL_CH_OOO then HostChannelOoo (call_tile c) (c_ch c) (c_dir c)
  else HostStart (call_tile c) (u8 (c_ch c)) (u8 (c_bd c)) (c_dir c) (c_repeat c).

Section windows.
Context (col_shift win_lo win_n : Z).
Hypothesis shift_ok : 20 <= col_shift <= 28.
Hypothesis window_ok : 0 <= win_lo /\ 1 <= win_n <= 5 /\ win_lo + win_n <= 64.
Context (pkt_addr resp_addr shim_col : Z) (txn_open keep : bool).
Context (fab_rows : list (Z * Z)) (dedicated_shim ready : bool).
Context (xaie : list sb_call -> sb_call -> Z) (pending_bds : list sb_call -> XAie_DmaDirection -> Z).
Context (backend : list sb_call -> backend_op -> Z * Z).
Context (desc_rc : XAie_LocType -> desc_op -> Z).
Context (dma_write_bd : XAie_LocType -> list desc_op -> Z -> driver_call).
Context (dma_write_channel : XAie_LocType -> list desc_op -> Z -> Z -> driver_call).
Context (set_start_queue : XAie_LocType -> Z -> Z -> Z -> Z -> driver_call).
Context (prog : strm_call -> driver_call) (channel_enable : XAie_LocType -> Z -> XAie_DmaDirection -> driver_call).
Context (tile_type : XAie_LocType -> Z) (SHIMNOC SHIMPL XAIE_INVALID_TILE : Z) (has_dma : Z -> bool) (fields : shim_bd_fields).
Context (set_field : Z -> Z -> Z -> Z) (aie2ps : bool).
Context (allocs : list AllocEntry) (MemGetDevAddr : Z -> Z) (book : acr_portbook).

Abbreviation jok := (jit_ok win_lo win_n).
Abbreviation win_hi := (win_lo + win_n - 1).
Abbreviation same := (same_state win_lo win_n).
Abbreviation acting := (same_act win_lo win_n true).
Abbreviation program := (prog_of desc_rc dma_write_bd dma_write_channel set_start_queue tile_type SHIMNOC).
Abbreviation capture := (capture_all col_shift desc_rc dma_write_bd dma_write_channel set_start_queue tile_type SHIMNOC).
Abbreviation driver_ok_ := (driver_ok col_shift desc_rc dma_write_bd dma_write_channel set_start_queue prog tile_type SHIMNOC
  XAIE_INVALID_TILE has_dma fields set_field).
Abbreviation encode_calls_ :=
  (encode_calls desc_rc dma_write_bd dma_write_channel set_start_queue tile_type SHIMNOC XAIE_INVALID_TILE has_dma fields set_field
     20 col_shift win_lo win_hi).
Abbreviation apart_ := (apart col_shift win_lo desc_rc dma_write_bd dma_write_channel set_start_queue tile_type SHIMNOC
  XAIE_INVALID_TILE has_dma fields set_field).
Abbreviation captured_ := (captured_call 20 col_shift pkt_addr resp_addr txn_open keep xaie pending_bds backend).
Abbreviation M := (stE (drv win sb_call) Z).

(** ** Captures *)

Lemma run_captured_fields c : forall s, jfields (run_captured 20 col_shift c s).1 = jfields s.
Proof using.
  induction c as [rc|op k IH]; intros s; cbn [run_captured]; [done|].
  assert (jfields (rt_sb_backend 20 col_shift op s).1 = jfields s) as E.
  { assert (forall a ws, jfields (rt_sb_record 20 col_shift a ws s).1 = jfields s) as Hr.
    { intros a ws. unfold rt_sb_record. destruct (rt_ctrl_txn_decode_regoff 20 col_shift a) as [[col row] off].
      destruct (_ || _ || _); [done|]. by destruct (rt_cpe_seg_write _ _ _ _ _ _) as [x [[]|e]]. }
    destruct op as [a v|a ws|a ws| | | | | ]; cbn [rt_sb_backend]; (apply Hr || done). }
  destruct (rt_sb_backend 20 col_shift op s) as [s1 rc]. cbn [fst] in E. rewrite IH. exact E.
Qed.

Lemma capture_ext rs rs' : Forall2 (fun r r' => program r = program r') rs rs' -> forall s, capture rs s = capture rs' s.
Proof using.
  induction 1 as [|r r' rs rs' E _ IH]; intros s; [done|]. cbn [capture_all]. rewrite E.
  destruct (run_captured _ _ _ _) as [s1 rc]. destruct (_ && _); [apply IH|done].
Qed.

Lemma capture_app rs rs' s : capture (rs ++ rs') s = match capture rs s with Some s1 => capture rs' s1 | None => None end.
Proof using.
  revert s. induction rs as [|r rs IH]; intros s; [done|]. cbn [capture_all app].
  destruct (run_captured _ _ _ _) as [s1 rc]. destruct (_ && _); [apply IH|done].
Qed.

Lemma capture_fields rs : forall s s', capture rs s = Some s' -> jfields s' = jfields s.
Proof using.
  induction rs as [|r rs IH]; intros s s' E; cbn [capture_all] in E; [by simplify_eq|].
  pose proof (run_captured_fields (program r) (set_bad false s)) as Ef.
  destruct (run_captured _ _ _ _) as [s1 rc]. destruct (_ && _); [|done]. rewrite (IH _ _ E). exact Ef.
Qed.

Lemma capture_same rs : forall s t s', same s t -> capture rs s = Some s' -> exists t', capture rs t = Some t' /\ same s' t'.
Proof using window_ok.
  induction rs as [|r rs IH]; intros s t s' H E; cbn [capture_all] in *; [injection E as <-; by exists t|].
  pose proof (run_captured_same col_shift win_lo win_n window_ok (program r) _ _ (same_bad win_lo win_n _ _ false H)) as Hc.
  destruct (run_captured 20 col_shift (program r) (set_bad false s)) as [s1 rc],
    (run_captured 20 col_shift (program r) (set_bad false t)) as [t1 rc'].
  destruct Hc as (Hr & H1 & _). destruct (Hr eq_refl) as [<- Eb]. rewrite <- Eb.
  destruct (_ && _); [by eapply IH|done].
Qed.

(** A call that is captured. *)
Lemma captured_ok tile r w l s : rt_sb_cap_on txn_open tile (sb w) = true -> capture [r] (sb w) = Some s ->
  captured_ tile (program r) (Drv w l) = (Drv (set_sb s w) l, Ok XAIE_OK).
Proof using.
  intros Hon E. unfold captured_call, lift, RT_SB_CALL. cbn [rest calls]. unfold mbind, stE_bind, gets, modify, upd_rest. cbn [rest calls].
  rewrite Hon. cbn [negb rest calls]. cbn [capture_all] in E.
  destruct (run_captured 20 col_shift (program r) (set_bad false (sb w))) as [s1 rc]. cbn [fst snd rest calls].
  destruct (Z.eqb_spec rc XAIE_OK) as [Erc|]; [|done]. destruct (bad s1); [done|]. injection E as <-. rewrite Erc. done.
Qed.

(** ** A table *)

Section table.
Context (cs : list s_call) (P T : s_segs) (es : list rt_aot_sb_call).
Hypothesis driver : driver_ok_.
Hypothesis prefix_wf : tool_wf P.
Hypothesis calls_wf : Forall call_wf cs.
Hypothesis calls_repeat : Forall (fun c => 0 <= c_repeat c < 256) cs.
Hypothesis calls_apart : Forall (fun c => call_in win_lo win_n c -> apart_ P c) cs.
Hypothesis encoded : encode_calls_ cs P = (T, Ok es).

Definition tab : rt_aot_shim_bd := emit_window win_lo win_hi P T es.
Definition calls_in : list s_call := List.filter (in_window win_lo win_hi) cs.
Definition pre_len (k : Z) : Z := seg_pw (st_at P k).

Abbreviation for_call_ := (for_call win_lo win_n tile_type XAIE_INVALID_TILE has_dma fields set_field).
Abbreviation all_patches_ := (all_patches tile_type XAIE_INVALID_TILE has_dma fields set_field).
(** The capture [J] of the return routes, or an empty one, beside the tool's. *)
Abbreviation starts pre J := (segs_rel win_lo win_n pre P (fun _ => []) P J).

Lemma start_rel J : jok J -> (forall k, 0 <= k < win_n -> idle (jseg J k)) ->
  starts pre_len J.
Proof using prefix_wf window_ok.
  intros HJ Hi. destruct prefix_wf as [HT Hw]. split; try done; intros k Hk.
  - specialize (Hw k ltac:(lia)). pose proof (idle_wf (shim_hdr k) _ (Hi k Hk)) as Hj. destruct (Hi k Hk) as (E & _).
    pose proof (wf_pw _ _ Hw) as Hp. change (tseg P k).1 with (st_at P k) in *.
    split; [done|done|apply Hp|unfold pre_len; rewrite E; cbn; lia|by left|intros i ?; lia|constructor].
  - constructor.
Qed.

Lemma table_rel pre J ads : starts pre J -> length ads = length es ->
  exists J', capture (zip_with call_rec calls_in ads) J = Some J' /\
    segs_rel win_lo win_n pre P (fun j => all_patches_ pre j es ads) T J' /\ Forall2 (for_call_ pre) calls_in es.
Proof using shift_ok window_ok driver prefix_wf calls_wf calls_apart encoded.
  intros HJ Hl.
  destruct (encode_calls_rel col_shift win_lo win_n shift_ok window_ok _ _ _ _ prog _ _ _ _ _ _ driver pre P cs P (fun _ => []) J ads T es)
    as (J' & E & HR & _ & Hf); [done..|]. exists J'. split_and!; [exact E| |exact Hf].
  eapply segs_rel_ext; [|exact HR]. done.
Qed.

Lemma entries : Forall2 (for_call_ pre_len) calls_in es.
Proof using shift_ok window_ok driver prefix_wf calls_wf calls_apart encoded.
  set (J := Sb false false false false win_lo win_hi 0 (replicate 5 (Seg 0 RT_CPE_NONE 0)) (replicate 5 (replicate 816 0))).
  destruct (table_rel pre_len J (replicate (length es) 0)) as (_ & _ & _ & H); [|apply length_replicate|exact H].
  apply start_rel; [by split_and!|].
  intros k Hk. assert (k = 0 \/ k = 1 \/ k = 2 \/ k = 3 \/ k = 4) as [-> | [-> | [-> | [-> | ->]]]] by lia; by split_and!.
Qed.

(** ** Noted calls *)

(** What does not change in a window. *)
Record common (rt now : bool) (w v : win) : Prop := {
  cm_routed : routed w = rt;
  cm_routed_v : routed v = rt;
  cm_cur : cur w = cur v;
  cm_now : route_now w = now;
  cm_win : sb_win w = None;
  cm_aot : aot v = None;
  cm_recs : length (recs w) = 128%nat;
  cm_addrs : length (addrs w) = 128%nat }.

Definition noted (c : s_call) (r : rt_sb_rec) : Prop := program r = program (call_rec c (q_addr r)) /\ q_tile r = call_tile c.

(** The calls so far are noted in [w] and captured in [v], which was [J] when
    the window began. *)
Record noting (now : bool) (J : rt_sb_state) (w v : win) : Prop := {
  nt_common : common true now w v;
  nt_aot : aot w = Some tab;
  nt_failed : aot_failed w = false;
  nt_i : 0 <= aot_i w <= len es /\ aot_i w <= 128;
  nt_active : active (sb w) = true /\ (0 < aot_i w -> txn_open = false);
  nt_capture : capture (take (Z.to_nat (aot_i w)) (recs w)) J = Some (sb v);
  nt_recs : Forall2 noted (take (Z.to_nat (aot_i w)) calls_in) (take (Z.to_nat (aot_i w)) (recs w));
  nt_addrs : take (Z.to_nat (aot_i w)) (addrs w) = q_addr <$> take (Z.to_nat (aot_i w)) (recs w) }.

(** What the capture starts from. *)
Record begun (J : rt_sb_state) (w : win) : Prop := {
  bg_J : jok J;
  bg_fields : jfields (sb w) = jfields J;
  bg_start : exists pre, starts pre J }.

(** The return routes were up before: nothing is captured yet. *)
Definition empty (J : rt_sb_state) : Prop := forall k, 0 <= k < win_n -> idle (jseg J k).

Lemma take_wr {A} (l : list A) i x : 0 <= i < len l -> take (Z.to_nat (i + 1)) (wr l i x) = take (Z.to_nat i) l ++ [x].
Proof using.
  intros H. unfold len in H. replace (Z.to_nat (i + 1)) with (S (Z.to_nat i)) by lia. unfold wr.
  rewrite (take_S_r _ _ x) by (apply list_lookup_insert_eq; lia). by rewrite take_insert_ge by lia.
Qed.

(** The next call of the table is captured. *)
Lemma next_capture J rs c e r i :
  (exists pre, starts pre J) -> length rs = i ->
  Forall2 noted (take i calls_in) rs -> calls_in !! i = Some c -> es !! i = Some e -> noted c r ->
  exists s1 s, capture rs J = Some s1 /\ capture [r] s1 = Some s.
Proof using shift_ok window_ok driver prefix_wf calls_wf calls_apart encoded.
  intros [pre HJ] Hl Hrs Hc He [Hr _]. pose proof (lookup_lt_Some _ _ _ He) as Hlt. pose proof (lookup_lt_Some _ _ _ Hc) as Hlt'.
  set (ads := (q_addr <$> rs) ++ [q_addr r] ++ replicate (length es - i - 1) 0).
  destruct (table_rel pre J ads HJ) as (J' & E & _).
  { unfold ads. rewrite !length_app, length_fmap, length_replicate. cbn. lia. }
  unfold ads in E. rewrite zip_with_app_r, length_fmap, Hl in E. rewrite capture_app in E.
  assert (Forall2 (fun r r' => program r = program r') rs (zip_with call_rec (take i calls_in) (q_addr <$> rs))) as Heq.
  { clear -Hrs. induction Hrs as [|c' r' cs' rs' [H _] _ IH]; [constructor|]. cbn. constructor; done. }
  rewrite <- (capture_ext _ _ Heq) in E. destruct (capture rs J) as [s1|]; [|done]. exists s1.
  rewrite (drop_S _ c) in E by done. cbn [app zip_with] in E.
  change (call_rec c (q_addr r) :: zip_with call_rec (list.drop (S i) calls_in) (replicate (length es - i - 1) 0))
    with ([call_rec c (q_addr r)] ++ zip_with call_rec (list.drop (S i) calls_in) (replicate (length es - i - 1) 0)) in E.
  rewrite capture_app in E. rewrite <- (capture_ext [r] [call_rec c (q_addr r)]) in E by (by constructor).
  destruct (capture [r] s1) as [s|]; [|done]. by exists s.
Qed.

Lemma note_step now J w v r c e :
  noting now J w v -> begun J w -> aot_i w < 128 -> txn_open = false -> calls_in !! Z.to_nat (aot_i w) = Some c -> es !! Z.to_nat (aot_i w) = Some e ->
  noted c r -> exists s, capture [r] (sb v) = Some s /\ noting now J (note r w) (set_sb s v).
Proof using shift_ok window_ok driver prefix_wf calls_wf calls_apart encoded.
  intros H HB Hmax Htx Hc He Hr. destruct H as [H1 H2 H3 [H4 H4'] H5 H6 H7 H8]. pose proof (cm_recs _ _ _ _ H1) as Lr. pose proof (cm_addrs _ _ _ _ H1) as La.
  pose proof (lookup_lt_Some _ _ _ He) as Hlt. destruct HB as [_ _ Hi].
  destruct (next_capture J (take (Z.to_nat (aot_i w)) (recs w)) c e r (Z.to_nat (aot_i w)) Hi) as (s1 & s & E1 & E2);
    [rewrite length_take; lia|done..|].
  rewrite H6 in E1. injection E1 as <-. exists s. split; [exact E2|].
  assert (Z.to_nat (aot_i w + 1) = S (Z.to_nat (aot_i w))) as Ei by lia.
  split; cbn [note set_aot set_notes set_sb recs addrs aot aot_i aot_failed sb routed cur sb_win]; [|done|done|unfold len in *; lia|by split; [apply H5|]| | |].
  - destruct H1. split; cbn; try done; unfold wr; by rewrite length_insert.
  - rewrite take_wr by (unfold len; lia). by rewrite capture_app, H6.
  - rewrite take_wr by (unfold len; lia). rewrite Ei, (take_S_r _ _ c) by done. apply Forall2_app; [done|]. by constructor.
  - rewrite !take_wr by (unfold len; lia). rewrite H8. by rewrite fmap_app.
Qed.

(** ** A call that is not the table's *)

Abbreviation fail_ := (rt_sb_aot_fail 20 col_shift pkt_addr resp_addr txn_open keep xaie pending_bds backend desc_rc dma_write_bd
  dma_write_channel set_start_queue tile_type SHIMNOC).
Abbreviation jit_ := (rt_sb_jit_call 20 col_shift pkt_addr resp_addr txn_open keep xaie pending_bds backend desc_rc dma_write_bd
  dma_write_channel set_start_queue tile_type SHIMNOC).

Lemma calls_in_tile i c : calls_in !! i = Some c -> loc_row (call_tile c) = 0 /\ win_lo <= loc_col (call_tile c) <= win_hi.
Proof using window_ok.
  intros H. assert (in_window win_lo win_hi c = true) as Hw.
  { apply list_elem_of_lookup_2, list_elem_of_In, filter_In in H. apply H. }
  unfold in_window in Hw. unfold call_tile. cbn. rewrite (u8_small (c_col c)), (u8_small (c_row c)) by lia. lia.
Qed.

Lemma cap_on_call J w i c r : jok J -> jfields (sb w) = jfields J -> active (sb w) = true -> txn_open = false ->
  calls_in !! i = Some c -> q_tile r = call_tile c -> rt_sb_cap_on txn_open (q_tile r) (sb w) = true.
Proof using window_ok.
  intros ((El & Eh) & _) Hf Ha Ht Hc Hr. destruct (calls_in_tile i c Hc). unfold rt_sb_cap_on, jfields in *.
  assert (lo (sb w) = win_lo /\ hi (sb w) = win_hi) as [-> ->] by (split; congruence). rewrite Ha, Ht, Hr. lia.
Qed.

(** The noted calls are captured after all. *)
Lemma replay window J w v l : noting false J w v -> begun J w -> same (sb w) J ->
  exists s, fail_ window (Drv w l) = (Drv (set_sb s (set_aot (Some tab) (aot_i w) true w)) l, Ok tt) /\ same s (sb v).
Proof using window_ok.
  intros H HB Hs. destruct H as [H1 H2 H3 [H4 H4'] [H5 H5'] H6 H7 H8]. pose proof (cm_recs _ _ _ _ H1) as Lr.
  pose proof (state_sym _ _ _ _ Hs) as Hs'.
  destruct (capture_same _ _ _ _ Hs' H6) as (s & Es & Hsv).
  unfold rt_sb_aot_fail. unfold mbind, stE_bind, gets, modify, upd_rest. cbn [rest calls]. rewrite H2, H3.
  cbn [set_aot sb_win rest calls aot_i]. rewrite (cm_win _ _ _ _ H1). unfold range. rewrite Z.sub_0_r.
  set (w1 := set_aot (Some tab) (aot_i w) true w).
  destruct (forM_total (fun n (d : drv win sb_call) => exists x, d = Drv (set_sb x w1) l /\ capture (take n (recs w)) (sb w) = Some x)
    (seqZ 0 (aot_i w)) (fun i => r ← gets (fun s => rec_at (rest s) i); jit_ r) (Drv w1 l)) as (d & Ed & x & -> & Ex).
  { exists (sb w). by split; [destruct w|]. }
  { intros n i d Hn (x & -> & Ex). apply lookup_seqZ in Hn as [-> Hn]. rewrite Z.add_0_l.
    assert (n < Z.to_nat (aot_i w))%nat as Hn' by lia.
    destruct (lookup_lt_is_Some_2 (recs w) n) as [r Er]; [lia|].
    assert (take (S n) (recs w) = take n (recs w) ++ [r]) as Et by (by apply take_S_r).
    assert (take (S n) (recs w) = take (S n) (take (Z.to_nat (aot_i w)) (recs w))) as Et' by (rewrite take_take; f_equal; lia).
    assert (exists x', capture (take (S n) (recs w)) (sb w) = Some x') as [x' Ex'].
    { rewrite <- (take_drop (S n) (take (Z.to_nat (aot_i w)) (recs w))) in Es. rewrite capture_app, <- Et' in Es.
      destruct (capture (take (S n) (recs w)) (sb w)) as [x'|]; [by exists x'|done]. }
    exists (Drv (set_sb x' w1) l). split; [|by exists x'].
    assert (capture [r] x = Some x') as Er' by (by rewrite Et, capture_app, Ex in Ex').
    destruct (Forall2_lookup_r _ _ _ n r H7) as (c & Hc & _ & Hr); [by rewrite lookup_take_lt by lia|].
    rewrite lookup_take_lt in Hc by lia.
    unfold mbind, stE_bind, gets. cbn [rest]. assert (rec_at (set_sb x w1) (Z.of_nat n) = r) as ->.
    { unfold rec_at. cbn. by rewrite Nat2Z.id, Er. }
    unfold rt_sb_jit_call, mbind, stE_bind.
    rewrite (captured_ok (q_tile r) r (set_sb x w1) l x'); [done| |done]. cbn [sb set_sb].
    apply (cap_on_call J (set_sb x w1) n c); [apply HB| | |apply H5'; lia|done|done]; cbn [sb set_sb].
    - rewrite (capture_fields _ _ _ Ex). apply HB.
    - pose proof (capture_fields _ _ _ Ex) as Hf. unfold jfields in Hf. congruence. }
  rewrite length_seqZ in Ex. exists x. unfold rt_sb_jit_call in Ed. split; [exact Ed|].
  rewrite Es in Ex. injection Ex as <-. by apply state_sym.
Qed.

(** ** The relation *)

(** Both capture, or neither: with a table only when it has failed. *)
Record alike (rt now : bool) (Q : rt_sb_state -> rt_sb_state -> Prop) (w v : win) : Prop := {
  ak_sb : Q (sb w) (sb v);
  ak_common : common rt now w v;
  ak_off : aot w = None \/ aot_failed w = true }.

(** The states in the middle of a window. *)
Definition inside (w v : win) : Prop := alike true false acting w v \/ exists J, noting false J w v /\ begun J w /\ same (sb w) J /\ empty J.

Lemma both_lift {A} rt now Q Q' (m m' : stE (drv rt_sb_state sb_call) Z A) :
  both (with_log Q) (with_log Q') m m' -> both (with_log (alike rt now Q)) (with_log (alike rt now Q')) (lift m) (lift m').
Proof using.
  intros H [w l] [v l'] [El [Hs Hc Ho]]. cbn [calls rest] in *. subst l'.
  destruct (H (Drv (sb w) l) (Drv (sb v) l)) as (s' & t' & a & E1 & E2 & [E3 H3]); [by split|].
  exists (Drv (set_sb (rest s') w) (calls s')), (Drv (set_sb (rest t') v) (calls t')), a. unfold lift. cbn [rest calls]. rewrite E1, E2.
  split_and!; [done|done|]. split; [exact E3|]. split; [exact H3|by destruct Hc; split|exact Ho].
Qed.

(** A call on the device's backend leaves the state. *)
Lemma backend_run c : forall l, exists l' rc, forall s : rt_sb_state, run_backend backend c (Drv s l) = (Drv s l', Ok rc).
Proof using.
  induction c as [rc|op k IH]; intros l; cbn [run_backend]; [by exists l, rc|]. cbn [rest calls].
  destruct (backend l op) as [rc v]. destruct (IH rc v (l ++ [BackendOp op])) as (l' & rc' & E). exists l', rc'. intros s. apply E.
Qed.

Lemma both_device (R : win -> win -> Prop) c :
  stays (with_log R) (on_device backend c) (on_device backend c).
Proof using.
  intros [w l] [v l'] [El H]. cbn [calls rest] in *. subst l'. destruct (backend_run c l) as (l' & rc & E).
  exists (Drv w l'), (Drv v l'), rc. unfold on_device, lift. cbn [rest calls]. rewrite !E. split_and!; [by destruct w|by destruct v|by split].
Qed.

Lemma both_captured_off (R : win -> win -> Prop) tile c :
  (forall w v, R w v -> rt_sb_cap_on txn_open tile (sb w) = false /\ rt_sb_cap_on txn_open tile (sb v) = false) ->
  stays (with_log R) (captured_ tile c) (captured_ tile c).
Proof using.
  intros Hoff [w l] [v l'] [El H]. cbn [calls rest] in *. subst l'. destruct (Hoff w v H) as [E1 E2].
  destruct (backend_run c l) as (l' & rc & E). exists (Drv w l'), (Drv v l'), rc. unfold captured_call, lift, RT_SB_CALL.
  unfold mbind, stE_bind, gets. cbn [rest calls]. rewrite E1, E2. cbn [negb]. rewrite !E.
  split_and!; [by destruct w|by destruct v|by split].
Qed.

Lemma both_captured tile c : stays (with_log (alike true false acting)) (captured_ tile c) (captured_ tile c).
Proof using window_ok. apply both_lift, both_sb_call, window_ok. Qed.

(** ** One call *)

Abbreviation take_ := (rt_sb_aot_take 20 col_shift pkt_addr resp_addr txn_open keep xaie pending_bds backend desc_rc dma_write_bd
  dma_write_channel set_start_queue tile_type SHIMNOC).

(** A call as a host function makes it. *)
Definition host_call window (r : rt_sb_rec) (hash : Z) (tile : XAie_LocType) (p : driver_call) : M unit :=
  hit ← take_ window r hash; when (negb hit) (captured_ tile p ;; mret tt).

Lemma take_off window r hash w l : aot w = None \/ aot_failed w = true -> take_ window r hash (Drv w l) = (Drv w l, Ok false).
Proof using.
  intros H. unfold rt_sb_aot_take, mbind, stE_bind, gets. cbn [rest]. destruct (aot w); [|done].
  destruct H as [H|H]; [done|]. by rewrite H.
Qed.

Lemma host_call_alike Q window r hash tile p :
  stays (with_log (alike true false Q)) (captured_ tile p) (captured_ tile p) ->
  stays (with_log (alike true false Q)) (host_call window r hash tile p) (host_call window r hash tile p).
Proof using.
  intros Hc. apply (both_bind (with_log (alike true false Q))).
  - intros [w l] [v l'] [El H]. exists (Drv w l), (Drv v l'), false.
    rewrite take_off by apply (ak_off _ _ _ _ _ H). rewrite take_off by (left; apply (cm_aot _ _ _ _ (ak_common _ _ _ _ _ H))). done.
  - intros hit. apply both_when. apply (both_bind (with_log (alike true false Q))); [exact Hc|]. intros rc. apply both_ret.
Qed.

Lemma in_window_cap t w : rt_sb_in_window txn_open t w = rt_sb_cap_on txn_open t (sb w).
Proof using. done. Qed.

Lemma cap_on_fields t s s' : jfields s = jfields s' -> rt_sb_cap_on txn_open t s = rt_sb_cap_on txn_open t s'.
Proof using. unfold jfields, rt_sb_cap_on. intros [= -> _ _ -> -> _]. done. Qed.

(** What becomes of a call while calls are noted. *)
Lemma take_noting window J w v r hash l :
  (forall i c e, calls_in !! i = Some c -> es !! i = Some e -> call_matches e r hash = true -> noted c r) ->
  noting false J w v -> begun J w -> same (sb w) J ->
  (rt_sb_cap_on txn_open (q_tile r) (sb w) = false /\ take_ window r hash (Drv w l) = (Drv w l, Ok false)) \/
  (exists s, take_ window r hash (Drv w l) = (Drv (set_sb s (set_aot (Some tab) (aot_i w) true w)) l, Ok false) /\ same s (sb v)) \/
  (rt_sb_cap_on txn_open (q_tile r) (sb w) = true /\ take_ window r hash (Drv w l) = (Drv (note r w) l, Ok true) /\
   exists s, capture [r] (sb v) = Some s /\ noting false J (note r w) (set_sb s v)).
Proof using shift_ok window_ok driver prefix_wf calls_wf calls_apart encoded.
  intros Hm H HB Hs. unfold rt_sb_aot_take, mbind, stE_bind, gets, modify, upd_rest. cbn [rest calls].
  rewrite (nt_aot _ _ _ _ H), (nt_failed _ _ _ _ H), in_window_cap. cbn [orb].
  destruct (rt_sb_cap_on txn_open (q_tile r) (sb w)) eqn:Eon; cbn [negb]; [right|by left].
  assert (txn_open = false) as Htx by (unfold rt_sb_cap_on in Eon; destruct txn_open; [lia|done]).
  destruct (replay window J w v l H HB Hs) as (s & Es & Hsv).
  change (t_calls tab) with es. destruct (es !! Z.to_nat (aot_i w)) as [e|] eqn:Ee.
  2: { left. exists s. by rewrite Es. }
  destruct ((aot_i w >=? RT_SB_AOT_MAX_CALLS) || negb (call_matches e r hash)) eqn:Em.
  { left. exists s. by rewrite Es. }
  right. split; [done|]. split; [done|]. apply orb_false_iff in Em as [Em Em']. apply negb_false_iff in Em'. unfold RT_SB_AOT_MAX_CALLS in Em.
  pose proof entries as He. destruct (Forall2_lookup_r _ _ _ _ _ He Ee) as (c & Hc & _).
  destruct (note_step false J w v r c e H HB ltac:(lia) Htx Hc Ee) as (x & Ex & Hx); [by eapply Hm|]. by exists x.
Qed.

Lemma host_call_inside window r hash :
  (forall i c e, calls_in !! i = Some c -> es !! i = Some e -> call_matches e r hash = true -> noted c r) ->
  stays (with_log inside) (host_call window r hash (q_tile r) (program r)) (host_call window r hash (q_tile r) (program r)).
Proof using shift_ok window_ok driver prefix_wf calls_wf calls_apart encoded.
  intros Hm [w l] [v l'] [El [H|(J & H & HB & Hs & Hem)]]; cbn [calls rest] in *; subst l'.
  { destruct (host_call_alike acting window r hash (q_tile r) (program r) (both_captured _ _) (Drv w l) (Drv v l)) as (s & t & a & E1 & E2 & E3 & H'); [by split|].
    exists s, t, a. split_and!; [done|done|]. split; [done|by left]. }
  pose proof (nt_common _ _ _ _ H) as Hcm.
  assert (jfields (sb v) = jfields (sb w)) as Hfv by (rewrite (capture_fields _ _ _ (nt_capture _ _ _ _ H)); symmetry; apply HB).
  unfold host_call, mbind at 1, stE_bind at 1. unfold mbind at 2, stE_bind at 2.
  rewrite (take_off window r hash v l) by (left; apply (cm_aot _ _ _ _ Hcm)).
  destruct (take_noting window J w v r hash l Hm H HB Hs) as [[Eoff ->]|[(s & -> & Hsv)|(Eon & -> & s & Es & Hn)]]; cbn [negb when].
  - destruct (both_captured_off (fun x y => x = w /\ y = v) (q_tile r) (program r)) with (s := Drv w l) (t := Drv v l)
      as ([w1 l1] & [v1 l2] & a & E1 & E2 & E3 & Ew & Ev); [|by split|].
    { intros x y [-> ->]. split; [done|]. by rewrite (cap_on_fields _ _ _ Hfv). }
    cbn [calls rest] in E3, Ew, Ev. subst l2 w1 v1. exists (Drv w l1), (Drv v l1), tt. unfold mbind, stE_bind. rewrite E1, E2.
    split_and!; [done|done|]. split; [done|]. right. by exists J.
  - destruct (both_bind (with_log (alike true false acting)) (with_log (alike true false acting)) (with_log (alike true false acting))
      _ _ (fun _ => mret tt) (fun _ => mret tt) (both_captured (q_tile r) (program r)) (fun _ => both_ret _ tt)
      (Drv (set_sb s (set_aot (Some tab) (aot_i w) true w)) l) (Drv v l)) as (x & y & a & E1 & E2 & E3 & H').
    + split; [done|]. split; [split; [exact Hsv|]|by destruct Hcm; split|by right].
      destruct (nt_active _ _ _ _ H) as [Ha _]. pose proof (ss_fields _ _ _ _ Hsv) as Hf. unfold jfields in *. cbn. congruence.
    + exists x, y, a. split_and!; [exact E1|exact E2|]. split; [done|by left].
  - exists (Drv (note r w) l), (Drv (set_sb s v) l), tt. unfold mbind, stE_bind.
    rewrite (captured_ok (q_tile r) r v l s); [|by rewrite (cap_on_fields _ _ _ Hfv)|done].
    split_and!; [done|done|]. split; [done|]. right. exists J. split; [exact Hn|]. split; [by destruct HB; split|by split].
Qed.

(** ** The host's calls *)

Section host.
Context (window : rt_aot_window -> list Z -> M unit).

Definition run_host (h : host_op) : M unit :=
  match h with
  | HostBd tile buffer v =>
    __Runtime_dma_bd_config 20 col_shift pkt_addr resp_addr txn_open keep xaie pending_bds backend desc_rc dma_write_bd dma_write_channel
      set_start_queue tile_type SHIMNOC SHIMPL allocs MemGetDevAddr window tile buffer v
  | HostBdMulti tile buffer v =>
    __Runtime_dma_bd_config_multidim 20 col_shift pkt_addr resp_addr txn_open keep xaie pending_bds backend desc_rc dma_write_bd
      dma_write_channel set_start_queue tile_type SHIMNOC SHIMPL allocs MemGetDevAddr window tile buffer v
  | HostBdOoo tile buffer v =>
    __Runtime_dma_bd_config_multidim_ooo 20 col_shift pkt_addr resp_addr txn_open keep xaie pending_bds backend desc_rc dma_write_bd
      dma_write_channel set_start_queue tile_type SHIMNOC window tile buffer v
  | HostChannelOoo tile channel dir =>
    __Runtime_dma_channel_enable_ooo 20 col_shift pkt_addr resp_addr txn_open keep xaie pending_bds backend desc_rc dma_write_bd
      dma_write_channel set_start_queue tile_type SHIMNOC window tile channel dir
  | HostStart tile channel bd dir repeat =>
    __Runtime_startio 20 col_shift pkt_addr resp_addr txn_open keep xaie pending_bds backend desc_rc dma_write_bd dma_write_channel
      set_start_queue tile_type SHIMNOC window tile channel bd dir repeat
  end.

Lemma both_drain (R : win -> win -> Prop) : stays (with_log R) (lift (call xaie DrainInputs)) (lift (call xaie DrainInputs)).
Proof using.
  intros [w l] [v l'] [El H]. cbn [calls rest] in *. subst l'.
  exists (Drv w (l ++ [DrainInputs])), (Drv v (l ++ [DrainInputs])), (xaie l DrainInputs).
  split_and!; [by destruct w|by destruct v|by split].
Qed.

Lemma calls_in_elem i c : calls_in !! i = Some c -> c ∈ cs.
Proof using. intros H. apply list_elem_of_lookup_2, list_elem_of_In, filter_In in H. by apply list_elem_of_In, H. Qed.

(** The entry of the table that a call matches is for the same program. *)
Lemma bd_noted kind tile addr v i c e : is_bd kind = true -> hash_sound cs kind v ->
  calls_in !! i = Some c -> es !! i = Some e ->
  call_matches e (SbRec kind 0 (u8 (rd v 0)) 0 0 tile addr (bd_args kind v)) (rt_aot_bd_hash v) = true ->
  noted c (SbRec kind 0 (u8 (rd v 0)) 0 0 tile addr (bd_args kind v)).
Proof using shift_ok window_ok driver prefix_wf calls_wf calls_apart encoded.
  intros Hb Hh Hc He Hm. destruct (Forall2_lookup_lr _ _ _ _ _ _ entries Hc He) as ([[pos ->] _ _] & _ & [Hk _]).
  unfold call_matches, call_entry in Hm. cbn [k_kind k_col k_row k_bd k_hash q_kind q_tile] in Hm. rewrite Hb, (u8_small (c_kind c)) in Hm by lia.
  assert (c_kind c = kind) as Ek by lia. rewrite Ek, Hb in Hm.
  pose proof (calls_in_elem i c Hc) as Hin.
  assert (v = c_v c) as -> by (apply Hh; [done|done|lia]).
  assert (tile = call_tile c) as -> by (unfold call_tile; destruct tile as [row col]; cbn in Hm; f_equal; lia).
  split; [|done]. unfold prog_of, call_rec. cbn [q_kind q_tile q_addr q_args]. rewrite Ek, Hb.
  destruct c. cbn in Ek. subst. reflexivity.
Qed.

Lemma channel_noted tile channel dir i c e : 0 <= dir < 256 -> calls_in !! i = Some c -> es !! i = Some e ->
  call_matches e (SbRec RT_AOT_CALL_CH_OOO (u8 channel) 0 (u8 dir) 0 tile 0 no_args) 0 = true ->
  noted c (SbRec RT_AOT_CALL_CH_OOO (u8 channel) 0 (u8 dir) 0 tile 0 no_args).
Proof using shift_ok window_ok driver prefix_wf calls_wf calls_apart encoded.
  intros Hd Hc He Hm. destruct (Forall2_lookup_lr _ _ _ _ _ _ entries Hc He) as ([[pos ->] _ _] & _ & [Hk Hdc]).
  unfold call_matches, call_entry in Hm. cbn [k_kind k_col k_row k_ch k_dir q_kind q_tile q_ch q_dir] in Hm.
  rewrite (u8_small (c_kind c)) in Hm by lia. change (is_bd RT_AOT_CALL_CH_OOO) with false in Hm.
  change (RT_AOT_CALL_CH_OOO =? RT_AOT_CALL_CH_OOO) with true in Hm. cbn match in Hm. rewrite (u8_small (c_dir c)), (u8_small dir) in Hm by lia.
  assert (c_kind c = RT_AOT_CALL_CH_OOO) as Ek by lia.
  assert (tile = call_tile c) as -> by (unfold call_tile; destruct tile as [row col]; cbn in Hm; f_equal; lia).
  split; [|done]. unfold prog_of, call_rec. cbn [q_kind q_tile q_addr q_args q_ch q_dir]. rewrite Ek. rewrite (u8_small dir) by lia.
  change (is_bd RT_AOT_CALL_CH_OOO) with false. change (RT_AOT_CALL_CH_OOO =? RT_AOT_CALL_CH_OOO) with true. cbn match.
  f_equal; lia.
Qed.

Lemma start_noted tile channel bd dir repeat i c e : 0 <= dir < 256 -> 0 <= repeat < 256 -> calls_in !! i = Some c -> es !! i = Some e ->
  call_matches e (SbRec RT_AOT_CALL_START channel bd (u8 dir) repeat tile 0 no_args) 0 = true ->
  noted c (SbRec RT_AOT_CALL_START channel bd (u8 dir) repeat tile 0 no_args).
Proof using shift_ok window_ok driver prefix_wf calls_wf calls_apart encoded calls_repeat.
  intros Hd Hr Hc He Hm. destruct (Forall2_lookup_lr _ _ _ _ _ _ entries Hc He) as ([[pos ->] _ _] & _ & [Hk Hdc]).
  assert (0 <= c_repeat c < 256) as Hrc.
  { rewrite Forall_forall in calls_repeat. by eapply calls_repeat, calls_in_elem. }
  unfold call_matches, call_entry in Hm. cbn [k_kind k_col k_row k_ch k_dir k_bd k_repeat q_kind q_tile q_ch q_dir q_bd q_repeat] in Hm.
  rewrite (u8_small (c_kind c)) in Hm by lia. change (is_bd RT_AOT_CALL_START) with false in Hm.
  change (RT_AOT_CALL_START =? RT_AOT_CALL_CH_OOO) with false in Hm. cbn match in Hm.
  rewrite (u8_small (c_dir c)), (u8_small dir), (u8_small repeat), (u8_small (c_repeat c)) in Hm by lia.
  assert (c_kind c = RT_AOT_CALL_START) as Ek by lia.
  assert (tile = call_tile c) as -> by (unfold call_tile; destruct tile as [row col]; cbn in Hm; f_equal; lia).
  split; [|done]. unfold prog_of, call_rec. cbn [q_kind q_tile q_addr q_args q_ch q_dir q_bd q_repeat]. rewrite Ek. rewrite (u8_small dir) by lia.
  change (is_bd RT_AOT_CALL_START) with false. change (RT_AOT_CALL_START =? RT_AOT_CALL_CH_OOO) with false. cbn match.
  f_equal; lia.
Qed.

Lemma host_inside h : host_ok cs h -> stays (with_log inside) (run_host h) (run_host h).
Proof using shift_ok window_ok driver prefix_wf calls_wf calls_apart encoded calls_repeat.
  assert (forall tile buffer v, hash_sound cs RT_AOT_CALL_BD v ->
    stays (with_log inside) (run_host (HostBdMulti tile buffer v)) (run_host (HostBdMulti tile buffer v))) as Hbd.
  { intros tile buffer v Hv. unfold run_host, __Runtime_dma_bd_config_multidim. apply (host_call_inside window
      (SbRec RT_AOT_CALL_BD 0 (u8 (rd v 0)) 0 0 tile (shim_addr tile_type SHIMNOC SHIMPL allocs MemGetDevAddr tile buffer) (bd_args RT_AOT_CALL_BD v))).
    intros i c e. by apply bd_noted. }
  intros Hh. destruct h as [tile buffer v|tile buffer v|tile buffer v|tile channel dir|tile channel bd dir repeat]; cbn [host_ok] in Hh.
  - unfold run_host, __Runtime_dma_bd_config. destruct (rt_plain_shim_bd_is_1d tile (rd v 1)); [by apply Hbd|].
    apply (both_bind (with_log inside)); [apply both_device|]. intros rc. apply both_ret.
  - by apply Hbd.
  - unfold run_host, __Runtime_dma_bd_config_multidim_ooo. apply (host_call_inside window
      (SbRec RT_AOT_CALL_BD_OOO 0 (u8 (rd v 0)) 0 0 tile buffer (bd_args RT_AOT_CALL_BD_OOO v))).
    intros i c e. by apply bd_noted.
  - unfold run_host, __Runtime_dma_channel_enable_ooo.
    pose proof (host_call_inside window (SbRec RT_AOT_CALL_CH_OOO (u8 channel) 0 (u8 dir) 0 tile 0 no_args) 0
      (fun i c e => channel_noted tile channel dir i c e Hh)) as H.
    unfold host_call, prog_of in H. cbn [q_kind q_tile q_ch q_dir] in H. rewrite (u8_small dir) in H by lia. rewrite (u8_small dir) by lia. exact H.
  - unfold run_host, __Runtime_startio. apply (both_bind (with_log inside)); [apply both_drain|]. intros _. destruct Hh as [Hd Hr].
    pose proof (host_call_inside window (SbRec RT_AOT_CALL_START channel bd (u8 dir) repeat tile 0 no_args) 0
      (fun i c e => start_noted tile channel bd dir repeat i c e Hd Hr)) as H.
    unfold host_call, prog_of in H. cbn [q_kind q_tile q_ch q_dir q_bd q_repeat] in H. rewrite (u8_small dir) in H by lia. rewrite (u8_small dir) by lia. exact H.
Qed.
End host.

(** ** Between windows *)

(** The columns of the fabric's rows are the table's. *)
Hypothesis span_ok : rows_span fab_rows = (win_lo, win_hi).

Abbreviation resting := (rests win_lo win_n false).

(** The segments of another fabric, or of none. *)
Record loose (s t : rt_sb_state) : Prop := {
  lo_fields : jfields s = jfields t;
  lo_active : active s = false;
  lo_len : (length (seg s) = 5%nat /\ length (pkt s) = 5%nat) /\ length (seg t) = 5%nat /\ length (pkt t) = 5%nat;
  lo_words : forall k, 0 <= k < win_n -> len (pkt_at s k) = RT_SB_SEG_WORDS /\ len (pkt_at t k) = RT_SB_SEG_WORDS }.

Lemma loose_rests s t : resting s t -> loose s t.
Proof using.
  intros [[[H1 H2 H3 H4] Ha] Hi]. split; [exact H3|exact Ha|split; [apply H1|apply H2]|].
  intros k Hk. destruct (Hi k Hk) as [(_ & _ & ?) (_ & _ & ?)]. done.
Qed.

Lemma fields_loose : fields_rel loose.
Proof using.
  split; [by intros s t []|..]; intros s t; [intros b n|intros b]; intros [H1 H2 H3 H4]; split; try assumption;
    unfold jfields, set_ack, set_armed in *; cbn in *; congruence.
Qed.

Definition between (w v : win) : Prop := alike true false resting w v \/ (cur w = false /\ alike true false loose w v).

(** Whether the last window set up the return routes does not matter. *)
Definition paused (w v : win) : Prop := between (set_routed (routed w) false w) (set_routed (routed v) false v).

(** Calls outside a window. *)
Definition closed (K : win -> win -> Prop) (w v : win) : Prop :=
  K w v /\ (aot w = None /\ aot v = None) /\ active (sb w) = false /\ active (sb v) = false.

Definition opened (w v : win) : Prop := inside w v \/ closed between w v.

Lemma between_loose w v : between w v -> alike true false loose w v.
Proof using. intros [[H1 H2 H3]|[_ H]]; [|exact H]. split; [by apply loose_rests|exact H2|exact H3]. Qed.

Lemma reset_rests s t : loose s t ->
  resting (rt_sb_reset_segs (set_window win_lo win_hi s)) (rt_sb_reset_segs (set_window win_lo win_hi t)).
Proof using window_ok.
  intros [H1 H2 [[L1 L2] [L3 L4]] H4].
  assert (forall x, length (seg x) = 5%nat -> length (pkt x) = 5%nat -> jok (set_window win_lo win_hi x)) as Hj by (intros; by split_and!).
  assert (forall k, 0 <= k < win_n -> idle (jseg (rt_sb_reset_segs (set_window win_lo win_hi s)) k) /\
            idle (jseg (rt_sb_reset_segs (set_window win_lo win_hi t)) k)) as Hi.
  { intros k Hk. destruct (H4 k Hk). split; apply (reset_idle win_lo win_n window_ok); (by apply Hj) || done. }
  assert (forall x, jok x -> jok (rt_sb_reset_segs x)) as Hr.
  { intros x (W & L & L'). split; [exact W|]. cbn. by rewrite length_fmap. }
  split; [|exact Hi]. split; [|exact H2]. split; [by apply Hr, Hj|by apply Hr, Hj|unfold jfields in *; cbn in *; congruence|].
  intros k Hk. destruct (Hi k Hk). by apply idle_same.
Qed.

(** ** The beginning of a window *)

Context (wn : option rt_aot_window).
Definition with_table : option (option rt_aot_shim_bd * option rt_aot_window) := Some (Some tab, wn).

Abbreviation prepare_ g := (rt_sb_prepare 20 col_shift pkt_addr resp_addr shim_col txn_open fab_rows dedicated_shim ready xaie pending_bds
  backend prog channel_enable aie2ps book g).
Abbreviation begin_ g := (rt_sb_begin 20 col_shift pkt_addr resp_addr shim_col txn_open fab_rows dedicated_shim ready xaie pending_bds
  backend prog channel_enable aie2ps book g).

Definition unprepared : bool := negb dedicated_shim || (len fab_rows =? 0) || negb ready || txn_open ||
  (negb (shim_col +u32 1 =? win_lo) || (u32 (win_hi - win_lo) +u32 1 >? RT_RES_SHIMROW_MAX_COLS)).

Lemma unprepared_run g w l : active (sb w) = false -> unprepared = true -> prepare_ g (Drv w l) = (Drv w l, Ok tt).
Proof using span_ok.
  intros Ha Hu. unfold rt_sb_prepare, mbind, stE_bind, gets. cbn [rest]. rewrite Ha, span_ok. cbn [orb]. unfold unprepared in Hu.
  destruct (negb dedicated_shim || (len fab_rows =? 0) || negb ready || txn_open); [done|]. cbn [orb] in Hu. by rewrite Hu.
Qed.

Lemma both_prepare g : unprepared = false ->
  both (with_log (alike true false loose)) (with_log (fun w v => alike true false resting w v /\ cur w = true)) (prepare_ g) (prepare_ None).
Proof using window_ok span_ok.
  intros Hu. unfold rt_sb_prepare. apply both_get. intros d d' [Ed H].
  assert (active (sb (rest d)) = false) as Ha by apply H.
  assert (active (sb (rest d')) = false) as Ha'.
  { pose proof (lo_fields _ _ (ak_sb _ _ _ _ _ H)) as Hf. unfold jfields in Hf. congruence. }
  rewrite Ha, Ha', span_ok. cbn [orb]. unfold unprepared in Hu. apply orb_false_iff in Hu as [-> ->].
  apply (both_pre (with_log (alike true false loose))); [intros s t [-> ->]; by split|].
  apply (both_bind (with_log (alike true false loose))); [apply both_lift, both_ack_wait, fields_loose|]. intros _.
  apply (both_bind (with_log (fun w v => alike true false resting w v /\ cur w = true))).
  { apply both_modify. intros x y [El [H1 H2 H3]]. split; [exact El|]. split; [|done]. split; [by apply reset_rests|by destruct H2; split|exact H3]. }
  intros _. apply both_get. intros x y [El [H1 H2]]. rewrite (cm_routed _ _ _ _ (ak_common _ _ _ _ _ H1)), (cm_routed_v _ _ _ _ (ak_common _ _ _ _ _ H1)).
  apply (both_bind (fun a b => a = x /\ b = y)); [apply both_ret|]. intros rc. apply both_if.
  - cbn [negb when]. apply (both_bind (fun a b => a = x /\ b = y)); [apply both_ret|]. intros _.
    apply (both_pre (with_log (fun w v => alike true false resting w v /\ cur w = true))); [intros s t [-> ->]; by split|].
    apply (both_bind (with_log (fun w v => alike true false resting w v /\ cur w = true))); [|intros; apply both_ret].
    intros [s l] [t l'] [E [Hst Hcur]]. cbn [calls rest] in *.
    destruct (both_lift true false _ _ _ _ (both_arm pkt_addr resp_addr xaie _ (fields_rests win_lo win_n false)) (Drv s l) (Drv t l')) as (s' & t' & a & E1 & E2 & E3 & H3);
      [by split|]. exists s', t', a. split_and!; [done|done|]. split; [exact E3|]. split; [exact H3|].
    unfold lift in E1. destruct (rt_sb_arm _ _ _ _) as [z r]. injection E1 as <- _. done.
  - eapply both_pre; [|apply both_ret]. intros s t [-> ->]. by split.
Qed.

Definition opening (g : option (option rt_aot_shim_bd * option rt_aot_window)) (w : win) : win :=
  let w := set_win_active (routed w && cur w) w in set_aot (if active (sb w) then shim_table g else None) 0 false w.

Lemma rests_active a b s t : rests win_lo win_n a s t -> rests win_lo win_n b (set_active b s) (set_active b t).
Proof using. intros [[[H1 H2 H3 H4] Ha] Hi]. split; [|exact Hi]. split; [|done]. split; [done|done|unfold jfields in *; cbn in *; congruence|done]. Qed.

Lemma open_resting w v : alike true false resting w v -> opened (opening with_table w) (opening None v).
Proof using window_ok prefix_wf.
  intros [Hs Hc Ho]. unfold opening, set_win_active. rewrite (cm_routed _ _ _ _ Hc), (cm_routed_v _ _ _ _ Hc), <- (cm_cur _ _ _ _ Hc). cbn [andb set_sb set_aot sb set_active active].
  destruct (cur w) eqn:Ecur.
  - left. right. pose proof (rests_active false true _ _ Hs) as [[[H1 H2 H3 H4] Ha] Hi].
    exists (set_active true (sb v)). split; [|split; [|split]].
    + split; cbn [set_aot set_sb aot aot_failed aot_i sb recs addrs]; [by destruct Hc; split|done|done| |split; [done|lia]|done|constructor|done].
      pose proof (len_nonneg es). lia.
    + split; [exact H2|exact H3|]. exists pre_len. apply start_rel; [exact H2|]. intros k Hk. by apply Hi.
    + by split.
    + intros k Hk. by apply Hi.
  - right. split; [|done]. left. split; [|by destruct Hc; split|by left]. by apply (rests_active false false).
Qed.

Lemma open_loose w v : cur w = false -> alike true false loose w v -> opened (opening with_table w) (opening None v).
Proof using.
  intros Ecur [[H1 H2 H3 H4] Hc Ho]. unfold opening, set_win_active. rewrite (cm_routed _ _ _ _ Hc), (cm_routed_v _ _ _ _ Hc), <- (cm_cur _ _ _ _ Hc), Ecur.
  cbn [andb set_sb set_aot sb set_active active]. right. split; [|done]. right. split; [exact Ecur|].
  split; [split; [unfold jfields in *; cbn in *; congruence|done|done|done]|by destruct Hc; split|by left].
Qed.

Lemma both_begin : both (with_log paused) (with_log opened) (begin_ with_table) (begin_ None).
Proof using window_ok prefix_wf span_ok.
  unfold rt_sb_begin. apply both_get. intros d d' [Ed H].
  assert (forall w v, between w v -> active (sb w) = false /\ active (sb v) = false /\ armed (sb w) = armed (sb v) /\ cur w = cur v) as Hflds.
  { intros w v Hb. pose proof (between_loose _ _ Hb) as [[Hf Ha _ _] Hc _]. unfold jfields in Hf. pose proof (cm_cur _ _ _ _ Hc). split_and!; congruence. }
  destruct (Hflds _ _ H) as (Ha & Ha' & _). cbn [sb set_routed] in Ha, Ha'. rewrite Ha, Ha'. clear Ha Ha'. cbn [negb when].
  apply (both_pre (with_log paused)); [intros s t [-> ->]; by split|]. apply (both_bind (with_log between)).
  { apply both_modify. intros s t [El Hp]. by split. }
  intros _. apply both_get. intros s t [El Hb]. destruct (Hflds _ _ Hb) as (Ha & Ha' & Earm & Ecur). rewrite Earm, Ecur.
  assert (forall g, (modify (upd_rest (fun w => set_win_active (routed w && cur w) w)) ;;
                     modify (upd_rest (fun w => set_aot (if active (sb w) then shim_table g else None) 0 false w)) : M unit) =
                    (fun x => (Drv (opening g (rest x)) (calls x), Ok tt))) as Hend by done.
  rewrite !Hend. clear Hend.
  apply (both_bind (with_log (fun w v => alike true false resting w v \/ cur w = false /\ alike true false loose w v))).
  - destruct (armed (sb (rest t)) && cur (rest t)) eqn:Er; cbn [negb when].
    { eapply both_pre; [|apply both_ret]. intros x y [-> ->]. by split. }
    destruct unprepared eqn:Eu.
    + intros x y [-> ->]. destruct s as [w l], t as [v l']. cbn [rest] in *.
      rewrite !unprepared_run by done. eexists _, _, tt. split_and!; [done|done|]. by split.
    + apply (both_pre (with_log (alike true false loose))).
      { intros x y [-> ->]. split; [exact El|]. by apply between_loose. }
      eapply both_post; [|by apply both_prepare]. intros x y [E [Hx _]]. split; [exact E|by left].
  - intros _ x y [E Hx]. eexists _, _, tt. split_and!; [done|done|]. split; [exact E|].
    destruct Hx as [Hx|[Hx Hx']]; [by apply open_resting|by apply open_loose].
Qed.

(** ** A window *)

Abbreviation commit_ := (rt_sb_commit 20 col_shift pkt_addr resp_addr txn_open keep xaie pending_bds backend desc_rc dma_write_bd
  dma_write_channel set_start_queue tile_type SHIMNOC SHIMPL XAIE_INVALID_TILE has_dma fields set_field allocs MemGetDevAddr).
Abbreviation run_window_ := (run_window 20 col_shift pkt_addr resp_addr txn_open keep xaie pending_bds backend desc_rc dma_write_bd
  dma_write_channel set_start_queue tile_type SHIMNOC SHIMPL allocs MemGetDevAddr).

(** When all calls are noted, the captured segments are beside the tool's. *)
Lemma captured_table now pre J w v : noting now J w v -> starts pre J -> aot_i w = len es ->
  length (take (length es) (addrs w)) = length es /\
  segs_rel win_lo win_n pre P (fun j => all_patches_ pre j es (take (length es) (addrs w))) T (sb v) /\
  forall k, Forall (fun e => k_seg e = k -> exists c, entry_for tile_type XAIE_INVALID_TILE has_dma fields set_field (pre k) c k e) es.
Proof using shift_ok window_ok driver prefix_wf calls_wf calls_apart encoded.
  intros H HJ Hi. pose proof (cm_addrs _ _ _ _ (nt_common _ _ _ _ H)) as La. pose proof (nt_i _ _ _ _ H) as [Hi1 Hi2].
  assert (Z.to_nat (aot_i w) = length es) as Hn by (unfold len in Hi; lia). set (ads := take (length es) (addrs w)).
  assert (length ads = length es) as Lads by (unfold ads; rewrite length_take; unfold len in *; lia). split; [exact Lads|].
  destruct (table_rel pre J ads HJ Lads) as (J' & EJ & HR & Hes).
  assert (J' = sb v) as ->.
  { pose proof (nt_capture _ _ _ _ H) as Ec. pose proof (nt_recs _ _ _ _ H) as Hr. pose proof (nt_addrs _ _ _ _ H) as Had. rewrite Hn in *.
    rewrite (take_ge calls_in) in Hr by (rewrite (Forall2_length _ _ _ Hes); lia). fold ads in Had.
    assert (Forall2 (fun r r' => program r = program r') (take (length es) (recs w)) (zip_with call_rec calls_in ads)) as Heq.
    { rewrite Had. clear -Hr. induction Hr as [|c r cs' rs' [Hcr _] _ IH]; [constructor|]. cbn. by constructor. }
    rewrite (capture_ext _ _ Heq) in Ec. congruence. }
  split; [exact HR|]. intros k. apply Forall_lookup. intros i e He Ek. destruct (Forall2_lookup_r _ _ _ _ _ Hes He) as (c & _ & Hfor & [_ Hcol] & _).
  destruct (ef_entry _ _ _ _ _ _ _ _ _ Hfor) as [pos Ee].
  assert (k_seg e = c_col c - win_lo) as Ek'. { rewrite Ee. cbn. rewrite u8_small; lia. }
  exists c. rewrite <- Ek, Ek'. exact Hfor.
Qed.

(** A table that is applied leaves segments to send. *)
Lemma apply_sends J w v s : noting false J w v -> begun J w -> same (sb w) J -> empty J ->
  rt_sb_aot_apply tile_type XAIE_INVALID_TILE has_dma fields set_field tab w = Some s -> sends_same win_lo win_n true s (sb v).
Proof using shift_ok window_ok driver prefix_wf calls_wf calls_apart encoded.
  intros H HB Hs Hem E. destruct Hs as [Js JJ Hf Hseg]. pose proof (cm_now _ _ _ _ (nt_common _ _ _ _ H)) as Hnow.
  destruct (apply_segments win_lo win_n window_ok tile_type XAIE_INVALID_TILE has_dma fields set_field tab w s E Js)
    as (shifts & Hchk & Hi & Jw & Fs & Hsegs). change (t_calls tab) with es in *.
  destruct (captured_table false pre_len J w v H (start_rel J JJ Hem) Hi) as (Lads & HR & Hes).
  pose proof (capture_fields _ _ _ (nt_capture _ _ _ _ H)) as Fv.
  split; [exact Jw|apply (sr_jit _ _ _ _ _ _ _ HR)|congruence| |].
  { destruct (nt_active _ _ _ _ H) as [Ha _]. unfold jfields in Fs. congruence. }
  intros k Hk. rewrite Hsegs by done.
  assert (idle (jseg (sb w) k)) as Hidle.
  { pose proof (Hseg k Hk) as Ht. destruct (Hem k Hk) as (E0 & _).
    pose proof (tr_pw _ _ _ _ _ Ht) as Hpw. rewrite E0 in Hpw. destruct (wf_cases _ _ (tr_t _ _ _ _ _ Ht)) as [[? ?]|?]; [|lia].
    split_and!; [done|done|apply (wf_len _ _ (tr_t _ _ _ _ _ Ht))]. }
  destruct (check_routed win_lo win_n window_ok pre_len P _ T (sb v) es w k (rd shifts k) HR Hk eq_refl Hnow Hidle (Hchk k Hk)) as [Hne Hz].
  apply (segment_applies win_lo win_n window_ok tile_type XAIE_INVALID_TILE has_dma fields set_field pre_len P
    (fun j => all_patches_ pre_len j es (take (length es) (addrs w))) T (sb v)); [exact HR|exact Hk|done|exact Lads|apply Hes|apply Hidle|exact Hne|exact Hz].
Qed.

Lemma between_paused w v : between w v -> paused w v.
Proof using.
  unfold paused, between. intros [[H1 H2 H3]|[Hc [H1 H2 H3]]]; [left|right; split; [exact Hc|]]; (split; [exact H1|by destruct H2; split|exact H3]).
Qed.

(** The end of a commit: the send, and the window is closed. *)
Lemma both_close now w v l : sends_same win_lo win_n true (sb w) (sb v) -> common true now w v ->
  both (fun x y => x = Drv w l /\ y = Drv v l) (with_log paused)
    (lift (rt_sb_kick pkt_addr resp_addr keep xaie pending_bds) ;;
     modify (upd_rest (fun w => set_aot None (aot_i w) (aot_failed w) (set_win_active false w))) : M unit)
    (lift (rt_sb_kick pkt_addr resp_addr keep xaie pending_bds) ;;
     modify (upd_rest (fun w => set_aot None (aot_i w) (aot_failed w) (set_win_active false w)))).
Proof using window_ok.
  intros Hs Hc x y [-> ->].
  destruct (both_kick win_lo win_n window_ok pkt_addr resp_addr keep xaie pending_bds true (Drv (sb w) l) (Drv (sb v) l)) as (s' & t' & a & E1 & E2 & E3 & Hr);
    [by split|].
  exists (Drv (set_aot None (aot_i w) (aot_failed w) (set_win_active false (set_sb (rest s') w))) (calls s')),
    (Drv (set_aot None (aot_i v) (aot_failed v) (set_win_active false (set_sb (rest t') v))) (calls t')), tt.
  unfold lift, mbind, stE_bind, modify, upd_rest. cbn [rest calls]. rewrite E1, E2. split_and!; [done|done|]. split; [exact E3|].
  left. split; [exact (rests_active true false _ _ Hr)|by destruct Hc; split|by left].
Qed.

Lemma both_commit : both (with_log opened) (with_log paused) commit_ commit_.
Proof using shift_ok window_ok driver prefix_wf calls_wf calls_apart encoded.
  unfold rt_sb_commit. apply both_get. intros [w l] [v l'] [El H]. cbn [calls rest] in *. subst l'.
  destruct H as [[[[Hs Ha] Hc Ho]|(J & H & HB & Hs & Hem)]|(Hb & _ & Ha & Ha')].
  - assert (active (sb v) = true) as Ha' by (pose proof (ss_fields _ _ _ _ Hs) as Hf; unfold jfields in Hf; congruence).
    rewrite Ha, Ha', (cm_aot _ _ _ _ Hc). cbn [when].
    assert (forall m : M unit, (match aot w with
        | Some a => if aot_failed w then mret tt else m
        | None => mret tt end) = mret tt) as Hm by (intros m; destruct Ho as [-> | ->]; [done|by destruct (aot w)]).
    assert (forall m : _ -> M unit, (match aot w with
        | Some a => if aot_failed w then mret tt else m a
        | None => mret tt end) = mret tt) as -> by (intros m; destruct Ho as [-> | ->]; [done|by destruct (aot w)]). clear Hm.
    apply (both_bind (fun x y => x = Drv w l /\ y = Drv v l)); [apply both_ret|]. intros _.
    apply (both_close false); [|exact Hc]. by apply sends_same_state.
  - pose proof (nt_common _ _ _ _ H) as Hc. pose proof (nt_active _ _ _ _ H) as [Ha _].
    pose proof (capture_fields _ _ _ (nt_capture _ _ _ _ H)) as Fv. pose proof (bg_fields _ _ HB) as Fw.
    assert (active (sb v) = true) as Ha' by (unfold jfields in *; congruence).
    rewrite Ha, Ha', (cm_aot _ _ _ _ Hc), (nt_aot _ _ _ _ H), (nt_failed _ _ _ _ H). cbn [when].
    destruct (rt_sb_aot_apply _ _ _ _ _ tab w) as [s|] eqn:Eap.
    + apply (both_bind (fun x y => x = Drv (set_sb s w) l /\ y = Drv v l)).
      { intros x y [-> ->]. by eexists _, _, tt. }
      intros _. apply (both_close false); [by eapply apply_sends|by destruct Hc; split].
    + destruct (replay run_window_ J w v l H HB Hs) as (s & Es & Hsv).
      apply (both_bind (fun x y => x = Drv (set_sb s (set_aot (Some tab) (aot_i w) true w)) l /\ y = Drv v l)).
      { intros x y [-> ->]. rewrite Es. by eexists _, _, tt. }
      intros _. apply (both_close false); [|by destruct Hc; split]. apply sends_same_state. split; [exact Hsv|].
      pose proof (ss_fields _ _ _ _ Hsv) as Hf. unfold jfields in *. cbn. congruence.
  - rewrite Ha, Ha'. cbn [when]. eapply both_pre; [|apply both_ret]. intros x y [-> ->]. split; [done|by apply between_paused].
Qed.

Lemma host_call_closed K window r hash tile p :
  stays (with_log (closed K)) (host_call window r hash tile p) (host_call window r hash tile p).
Proof using.
  apply (both_bind (with_log (closed K))).
  - intros [w l] [v l'] [El H]. exists (Drv w l), (Drv v l'), false.
    rewrite !take_off by (left; apply H). by split_and!.
  - intros hit. apply both_when. apply (both_bind (with_log (closed K))); [|intros; apply both_ret].
    apply both_captured_off. intros w v (_ & _ & Ha & Ha'). unfold rt_sb_cap_on. by rewrite Ha, Ha'.
Qed.

Lemma host_closed K window h : stays (with_log (closed K)) (run_host window h) (run_host window h).
Proof using.
  destruct h as [tile buffer v|tile buffer v|tile buffer v|tile channel dir|tile channel bd dir repeat]; cbn [run_host].
  - unfold __Runtime_dma_bd_config. destruct (rt_plain_shim_bd_is_1d tile (rd v 1)); [apply host_call_closed|].
    apply (both_bind (with_log (closed K))); [apply both_device|]. intros rc. apply both_ret.
  - apply host_call_closed.
  - apply host_call_closed.
  - apply host_call_closed.
  - apply (both_bind (with_log (closed K))); [apply both_drain|]. intros _. apply host_call_closed.
Qed.

(** The calls of one window, and of several. *)
Definition window_of g (hs : list host_op) : M unit := begin_ g ;; forM hs (run_host run_window_) ;; commit_.
Definition windows_of g (hss : list (list host_op)) : M unit := forM hss (window_of g).

Lemma both_window hs : Forall (host_ok cs) hs -> stays (with_log paused) (window_of with_table hs) (window_of None hs).
Proof using shift_ok window_ok driver prefix_wf calls_wf calls_apart calls_repeat encoded span_ok.
  intros Hh. unfold window_of. apply (both_bind (with_log opened)); [apply both_begin|]. intros _.
  apply (both_bind (with_log opened)); [|intros _; apply both_commit].
  apply both_forM. intros h Hin. rewrite Forall_forall in Hh. specialize (Hh h Hin).
  intros [w l] [v l'] [El [H|H]].
  - destruct (host_inside run_window_ h Hh (Drv w l) (Drv v l')) as (s & t & a & E1 & E2 & E3 & H'); [by split|].
    exists s, t, a. split_and!; [done|done|]. split; [done|by left].
  - destruct (host_closed between run_window_ h (Drv w l) (Drv v l')) as (s & t & a & E1 & E2 & E3 & H'); [by split|].
    exists s, t, a. split_and!; [done|done|]. split; [done|by right].
Qed.

(** ** The first window

    The run-time with the table takes the return routes from it, the one
    without captures them. *)

Section first.
Context (ret : list acr_op) (fb : plan).
Hypothesis planned : acr_plan_shim_row win_lo win_hi ([], ([], book)) = ((ret, fb), Ok tt).
Hypothesis ret_recorded : record_prefix prog 20 col_shift win_lo win_hi ret (reset_segs segs0) = (P, Ok tt).

Lemma prefix_starts J0 : jok J0 -> empty J0 ->
  exists J, capture_ops 20 col_shift prog ret J0 = (J, XAIE_OK) /\ starts (fun _ => 0) J /\ jfields J = jfields J0 /\ bad J = bad J0.
Proof using shift_ok window_ok driver planned ret_recorded.
  intros HJ Hi. destruct segs0_ok as [H0 Hl]. destruct (reset_wf segs0 H0 Hl) as [Hw Hid].
  pose proof (plan_ret_ops win_lo win_n book) as Hret. rewrite planned in Hret.
  destruct (prefix_rel col_shift win_lo win_n shift_ok window_ok _ _ _ _ prog _ _ _ _ _ _ driver (reset_segs segs0) ret (reset_segs segs0) J0 P)
    as (J & EJ & HR & Hf & Hb); [| |exact Hret|exact ret_recorded|].
  - split; [apply Hw|exact HJ| |intros; constructor|intros k Hk i ?; lia|done].
    intros k Hk. destruct (Hid k ltac:(lia)) as (E1 & E2 & E3). destruct (Hi k Hk) as (E4 & E5 & E6).
    split; [by apply idle_wf|by apply idle_wf|lia|lia|by left|intros i ?; lia|constructor].
  - intros k Hk. apply (Hid k ltac:(lia)).
  - exists J. split; [exact EJ|]. split; [|by split]. destruct HR as [H1 H2 H3 H4 _ _]. split; [exact H1|exact H2|exact H3|exact H4| |done].
    intros k Hk i ?; lia.
Qed.

(** The return routes are no longer than what the table has. *)
Lemma pre_le k : 0 <= k < win_n -> 0 <= pre_len k <= seg_pw (st_at T k) /\ seg_wf (shim_hdr k) (tseg T k).
Proof using shift_ok window_ok driver prefix_wf calls_wf calls_apart encoded.
  intros Hk. set (J := Sb false false false false win_lo win_hi 0 (replicate 5 (Seg 0 RT_CPE_NONE 0)) (replicate 5 (replicate 816 0))).
  assert (starts pre_len J) as HJ.
  { apply start_rel; [by split_and!|]. intros j Hj.
    assert (j = 0 \/ j = 1 \/ j = 2 \/ j = 3 \/ j = 4) as [-> | [-> | [-> | [-> | ->]]]] by lia; by split_and!. }
  destruct (table_rel pre_len J (replicate (length es) 0) HJ) as (J' & _ & HR & _); [apply length_replicate|].
  pose proof (sr_tracks _ _ _ _ _ _ _ HR k Hk) as Ht. pose proof (tr_pw _ _ _ _ _ Ht) as Hpw. pose proof (tr_pre _ _ _ _ _ Ht) as H0.
  pose proof (wf_pw _ _ (tr_j _ _ _ _ _ Ht)) as Pj. change (tseg T k).1 with (st_at T k) in Hpw. split; [lia|apply Ht].
Qed.

Lemma fin_grows hdr x : seg_wf hdr x -> seg_pw x.1 <> 0 -> seg_pw x.1 <= seg_pw (fin x).1.
Proof using.
  intros _ _. destruct x as [sg p]. unfold fin. destruct (_ >? 1); cbn; lia.
Qed.

(** The table's words of a column with the return routes. *)
Definition prefixed_seg (k : Z) (x : segment) : Prop :=
  seg_pw x.1 = pre_len k /\ len x.2 = RT_SB_SEG_WORDS /\
  take (Z.to_nat (pre_len k)) x.2 = take (Z.to_nat (pre_len k)) (default [] (t_seg tab !! Z.to_nat k)).

Lemma table_words k : 0 <= k < win_n -> pre_len k <> 0 -> pre_len k <= len (default [] (t_seg tab !! Z.to_nat k)).
Proof using shift_ok window_ok driver prefix_wf calls_wf calls_apart encoded.
  intros Hk Hne. destruct (pre_le k Hk) as [Hp Hw]. destruct (table_len win_lo win_n window_ok _ P T es k Hk Hw) as [_ Ews].
  assert (seg_pw (st_at T k) <> 0) as Nt by lia. destruct (Ews Nt) as [Es _]. unfold tab. rewrite Es.
  pose proof (fin_grows _ _ Hw Nt) as Hg. change (tseg T k).1 with (st_at T k) in Hg.
  destruct (fin_acked _ _ Hw Nt) as [Lf [_ Hf] _]. unfold len in *. rewrite length_take. lia.
Qed.

Lemma table_prefix_spec s : jok s -> empty s ->
  exists s', table_prefix with_table s = Some s' /\ jok s' /\ jfields s' = jfields s /\ forall k, 0 <= k < win_n -> prefixed_seg k (jseg s' k).
Proof using shift_ok window_ok driver prefix_wf calls_wf calls_apart encoded.
  intros Hs Hi. unfold table_prefix, shim_table, with_table. rewrite (ncols_ok win_lo win_n window_ok) by done.
  pose proof Hs as ((El & Eh) & _). rewrite El, Eh. cbn [t_lo t_hi tab emit_window].
  assert (forall k, 0 <= k < win_n -> rd (t_prefix tab) k = pre_len k) as Epre.
  { intros k Hk. apply (table_at win_lo win_n window_ok P T es k Hk). }
  assert (forallb (fun k => rd (t_prefix tab) k <=? RT_SB_SEG_WORDS) (range 0 win_n) = true) as Hall.
  { apply forallb_forall. intros k Hk%list_elem_of_In%elem_of_seqZ. rewrite Epre by lia.
    destruct (pre_le k ltac:(lia)) as [Hp Hw]. pose proof (wf_pw _ _ Hw) as Pw. change (tseg T k).1 with (st_at T k) in Pw. lia. }
  change (emit_window win_lo win_hi P T es) with tab. rewrite Hall, !Z.eqb_refl.
  replace (win_n <=? RT_AOT_SB_MAX_SEGS) with true by (unfold RT_AOT_SB_MAX_SEGS; lia). cbn [andb].
  destruct (cols_ok win_lo win_n window_ok) as [Hn Hc].
  set (G := fun k (x : segment) => (Seg (rd (t_prefix tab) k) (if negb (rd (t_prefix tab) k =? 0) then rd (t_prefix_last tab) k else RT_SB_NONE) (seg_last_ctrl x.1),
             blit x.2 0 (take (Z.to_nat (rd (t_prefix tab) k)) (default [] (t_seg tab !! Z.to_nat k))))).
  destruct (put_fold win_lo win_n G (range 0 win_n) s Hn Hc Hs) as (H1 & H2 & H3).
  exists (foldl (fun s k => put_seg k (G k (jseg s k)) s) s (range 0 win_n)). split; [done|]. split; [exact H1|]. split; [exact H2|].
  intros k Hk. rewrite H3 by lia. rewrite bool_decide_true by (apply elem_of_seqZ; lia).
  unfold prefixed_seg, G. cbn [fst snd seg_pw]. rewrite Epre by done. split; [done|].
  destruct (Hi k Hk) as (_ & _ & Lk). cbn [jseg snd] in *.
  assert (forall ws, len (blit (pkt_at s k) 0 ws) = RT_SB_SEG_WORDS) as Lb by (intros ws; rewrite <- Lk; unfold len, blit; by rewrite length_inserts).
  split; [apply Lb|].
  destruct (decide (pre_len k = 0)) as [->|Hne]; [done|]. pose proof (table_words k Hk Hne) as Hw.
  destruct (pre_le k Hk) as [Hp Hwf]. pose proof (wf_pw _ _ Hwf) as Pw. change (tseg T k).1 with (st_at T k) in Pw.
  set (ws := default [] (t_seg tab !! Z.to_nat k)) in *.
  assert (len (take (Z.to_nat (pre_len k)) ws) = pre_len k) as Lt by (unfold len in *; rewrite length_take; lia).
  rewrite seg_words_816 in *. apply take_rd; [rewrite Lb; lia|done|]. intros i Hi'. rewrite rd_blit by lia. rewrite Lt.
  replace ((0 <=? i) && (i <? 0 + pre_len k)) with true by lia. rewrite Z.sub_0_r. apply rd_take. lia.
Qed.

(** The states with the return routes, taken from the table or captured. *)
Record prefixed (act : bool) (s t : rt_sb_state) : Prop := {
  pf_s : jok s;
  pf_t : jok t;
  pf_fields : jfields s = jfields t;
  pf_active : active s = act;
  pf_start : starts (fun _ => 0) t;
  pf_segs : forall k, 0 <= k < win_n -> prefixed_seg k (jseg s k) }.

Lemma starts_fields pre s t : jfields s = jfields t -> seg s = seg t -> pkt s = pkt t -> starts pre s -> starts pre t.
Proof using.
  intros Hf Hs Hp [H1 H2 H3 H4 H5 H6]. unfold jfields in Hf.
  assert (forall k, jseg s k = jseg t k) as Ej by (intros k; unfold jseg, seg_at, pkt_at; by rewrite Hs, Hp).
  split; [exact H1| |intros k; rewrite <- Ej; apply H3|intros k; rewrite <- Ej; apply H4|exact H5|].
  - destruct H2 as ((El & Eh) & L1 & L2). split; [split; congruence|]. by rewrite <- Hs, <- Hp.
  - intros k Hk. change (seg_at t k) with (jseg t k).1. rewrite <- Ej. by apply H6.
Qed.

Lemma prefixed_active act b s t : prefixed act s t -> prefixed b (set_active b s) (set_active b t).
Proof using.
  intros [H1 H2 H3 H4 H5 H6]. split; [exact H1|exact H2|unfold jfields in *; cbn in *; congruence|done| |exact H6].
  destruct H5 as [A1 A2 A3 A4 A5 A6]. by split.
Qed.

Lemma fields_prefixed act : fields_rel (prefixed act).
Proof using.
  split; [by intros s t []|..]; intros s t; [intros b n|intros b]; intros [H1 H2 H3 H4 [A1 A2 A3 A4 A5 A6] H6];
    (split; [exact H1|exact H2|unfold jfields, set_ack, set_armed in *; cbn in *; congruence|exact H4|by split|exact H6]).
Qed.

Lemma both_device_ok (R : win -> win -> Prop) ds : stays (with_log R) (on_device_ok backend ds) (on_device_ok backend ds).
Proof using.
  induction ds as [|c ds IH]; cbn [on_device_ok]; [apply both_ret|].
  apply (both_bind (with_log R)); [apply both_device|]. intros rc. apply both_if; [exact IH|apply both_ret].
Qed.

(** The return routes: from the table, and captured. *)
Lemma routes_from_table w l : jok (sb w) -> empty (sb w) ->
  exists s, ret_routes 20 col_shift backend prog with_table ret (Drv w l) = (Drv (set_sb s w) l, Ok XAIE_OK) /\
    jok s /\ jfields s = jfields (sb w) /\ forall k, 0 <= k < win_n -> prefixed_seg k (jseg s k).
Proof using shift_ok window_ok driver prefix_wf calls_wf calls_apart encoded.
  intros Hj Hi. destruct (table_prefix_spec (sb w) Hj Hi) as (s & Es & H). exists s. split; [|exact H].
  unfold ret_routes, mbind, stE_bind, gets. cbn [rest]. by rewrite Es.
Qed.

Lemma routes_captured v l : jok (sb v) -> empty (sb v) ->
  exists J, ret_routes 20 col_shift backend prog None ret (Drv v l) = (Drv (set_sb J v) l, Ok XAIE_OK) /\
    starts (fun _ => 0) J /\ jfields J = jfields (sb v).
Proof using shift_ok window_ok driver planned ret_recorded.
  intros Hj Hi. destruct (prefix_starts (set_bad false (sb v)) Hj Hi) as (J & EJ & HJ & Hf & Hb). exists J. split; [|by split].
  unfold ret_routes, mbind, stE_bind, gets. cbn [rest]. unfold table_prefix, shim_table.
  rewrite EJ. unfold modify, upd_rest. cbn [rest calls]. rewrite Hb. done.
Qed.

(** The set-up of the shim row up to the return routes. *)
Definition row_ops : list driver_call :=
  let spine := Loc 0 shim_col in
  let fport := rt_shim_mm2s_port RT_RES_SHIMROW_CH in
  let rport := rt_shim_s2mm_port aie2ps RT_RES_SHIMROW_CH in
  [prog (EnableShimDmaToAieStrmPort spine fport); prog (StrmConnCctEnable spine SOUTH fport EAST RT_RES_SHIMROW_PORT);
   prog (StrmConnCctEnable spine EAST RT_RES_SHIMROW_PORT SOUTH rport); prog (EnableAieToShimDmaStrmPort spine rport)] ++
  ((fun op => prog (rt_seq_row_op op)) <$> fb.1) ++
  [channel_enable spine RT_RES_SHIMROW_CH DMA_MM2S; channel_enable spine RT_RES_SHIMROW_CH DMA_S2MM].

Abbreviation route_ g := (rt_sb_route 20 col_shift shim_col backend prog channel_enable aie2ps book g).

Lemma route_run g w l : jok (sb w) ->
  route_ g (Drv w l) = match on_device_ok backend row_ops (Drv w l) with
    | (d, Ok rc) => (if rc =? XAIE_OK then ret_routes 20 col_shift backend prog g ret else mret rc) d
    | (d, Err e) => (d, Err e) end.
Proof using planned.
  intros ((El & Eh) & _). unfold rt_sb_route, mbind, stE_bind, gets. cbn [rest]. rewrite El, Eh, planned. unfold row_ops. destruct fb as [fwd b]. cbn [fst].
  by destruct (on_device_ok backend _ (Drv w l)) as [d [rc|e]]; [destruct (rc =? XAIE_OK)|].
Qed.

Lemma route_cases w v l : resting (sb w) (sb v) ->
  (exists l' rc, route_ with_table (Drv w l) = (Drv w l', Ok rc) /\ route_ None (Drv v l) = (Drv v l', Ok rc) /\ rc <> XAIE_OK) \/
  (exists l' s J, route_ with_table (Drv w l) = (Drv (set_sb s w) l', Ok XAIE_OK) /\
     route_ None (Drv v l) = (Drv (set_sb J v) l', Ok XAIE_OK) /\ prefixed false s J).
Proof using shift_ok window_ok driver prefix_wf calls_wf calls_apart encoded planned ret_recorded.
  intros [[[J1 J2 Jf Js] Ja] Ji]. rewrite !route_run by done.
  destruct (both_device_ok (fun a b => a = w /\ b = v) row_ops (Drv w l) (Drv v l)) as ([w1 l1] & [v1 l2] & rc & -> & -> & E3 & Ew & Ev); [by split|].
  cbn [rest calls] in *. subst w1 v1 l2. destruct (Z.eqb_spec rc XAIE_OK) as [->|Hne]; [right|left; by exists l1, rc].
  destruct (routes_from_table w l1 J1) as (s & -> & H1 & H2 & H3); [intros k Hk; by apply Ji|].
  destruct (routes_captured v l1 J2) as (J & -> & H4 & H5); [intros k Hk; by apply Ji|].
  exists l1, s, J. split; [done|]. split; [done|]. split; [exact H1|apply (sr_jit _ _ _ _ _ _ _ H4)|congruence| |exact H4|exact H3].
  unfold jfields in H2. congruence.
Qed.

Definition routed_first (w v : win) : Prop :=
  alike false false resting w v \/ (alike true true (prefixed false) w v /\ cur w = true).

(** The rest of [rt_sb_prepare]. *)
Definition after_route (rc : Z) : M unit :=
  if rc =? XAIE_OK then
    when (negb false) (modify (upd_rest (set_routed true true))) ;; lift (rt_sb_arm pkt_addr resp_addr xaie) ;; mret tt
  else mret tt.

Lemma both_route : both (with_log (fun w v => alike false false resting w v /\ cur w = true)) (with_log routed_first)
  (rc ← route_ with_table; after_route rc) (rc ← route_ None; after_route rc).
Proof using shift_ok window_ok driver prefix_wf calls_wf calls_apart encoded planned ret_recorded.
  intros [w l] [v l'] [El [[Hs Hc Ho] Hcur]]. cbn [rest calls] in *. subst l'. unfold mbind, stE_bind.
  destruct (route_cases w v l Hs) as [(l1 & rc & -> & -> & Hne)|(l1 & s & J & -> & -> & Hp)].
  - unfold after_route. rewrite (proj2 (Z.eqb_neq _ _) Hne). exists (Drv w l1), (Drv v l1), tt. split_and!; [done|done|]. split; [done|]. by left.
  - unfold after_route. change (XAIE_OK =? XAIE_OK) with true. cbn [negb when].
    assert (alike true true (prefixed false) (set_routed true true (set_sb s w)) (set_routed true true (set_sb J v))) as Ha
      by (split; [exact Hp|by destruct Hc; split|exact Ho]).
    destruct (both_lift true true _ _ _ _ (both_arm pkt_addr resp_addr xaie _ (fields_prefixed false))
      (Drv (set_routed true true (set_sb s w)) l1) (Drv (set_routed true true (set_sb J v)) l1)) as ([w2 l2] & [v2 l3] & a & E1 & E2 & E3 & Ha2); [by split|].
    exists (Drv w2 l2), (Drv v2 l3), tt. unfold mbind, stE_bind, modify, upd_rest. cbn [rest calls]. rewrite E1, E2.
    split_and!; [done|done|]. split; [exact E3|]. right. split; [exact Ha2|].
    unfold lift in E1. destruct (rt_sb_arm _ _ _ _) as [z r]. injection E1 as <- _ _. exact Hcur.
Qed.

Lemma both_prepare_first : unprepared = false ->
  both (with_log (alike false false loose)) (with_log routed_first) (prepare_ with_table) (prepare_ None).
Proof using shift_ok window_ok driver prefix_wf calls_wf calls_apart encoded span_ok planned ret_recorded.
  intros Hu. unfold rt_sb_prepare. apply both_get. intros d d' [Ed H].
  assert (active (sb (rest d)) = false) as Ha by apply H.
  assert (active (sb (rest d')) = false) as Ha'.
  { pose proof (lo_fields _ _ (ak_sb _ _ _ _ _ H)) as Hf. unfold jfields in Hf. congruence. }
  rewrite Ha, Ha', span_ok. cbn [orb]. unfold unprepared in Hu. apply orb_false_iff in Hu as [-> ->].
  apply (both_pre (with_log (alike false false loose))); [intros s t [-> ->]; by split|].
  apply (both_bind (with_log (alike false false loose))); [apply both_lift, both_ack_wait, fields_loose|]. intros _.
  apply (both_bind (with_log (fun w v => alike false false resting w v /\ cur w = true))).
  { apply both_modify. intros x y [El [H1 H2 H3]]. split; [exact El|]. split; [|done]. split; [by apply reset_rests|by destruct H2; split|exact H3]. }
  intros _. apply both_get. intros x y [El [H1 H2]]. rewrite (cm_routed _ _ _ _ (ak_common _ _ _ _ _ H1)), (cm_routed_v _ _ _ _ (ak_common _ _ _ _ _ H1)).
  apply (both_pre (with_log (fun w v => alike false false resting w v /\ cur w = true))); [intros s t [-> ->]; by split|].
  exact both_route.
Qed.

(** A window with the return routes just set up. *)
Definition first_begun (n : Z) (w v : win) : Prop :=
  exists J, noting true J w v /\ begun J w /\ aot_i w = n /\ prefixed true (sb w) J.

Definition opened_first (w v : win) : Prop :=
  first_begun 0 w v \/ closed (fun w v => routed w = false /\ routed v = false) w v.

Lemma open_prefixed w v : cur w = true -> alike true true (prefixed false) w v -> first_begun 0 (opening with_table w) (opening None v).
Proof using.
  intros Ecur [Hs Hc Ho]. unfold opening, set_win_active. rewrite (cm_routed _ _ _ _ Hc), (cm_routed_v _ _ _ _ Hc), <- (cm_cur _ _ _ _ Hc), Ecur.
  cbn [andb set_sb set_aot sb set_active active]. pose proof (prefixed_active false true _ _ Hs) as Hp. pose proof Hp as [H1 H2 H3 H4 H5 H6].
  exists (set_active true (sb v)). split; [|split; [|split; [done|exact Hp]]].
  - split; cbn [set_aot set_sb aot aot_failed aot_i sb recs addrs]; [by destruct Hc; split|done|done| |split; [done|lia]|done|constructor|done].
    pose proof (len_nonneg es). lia.
  - split; [exact H2|exact H3|by exists (fun _ => 0)].
Qed.

(** Before the first window. *)
Definition fresh (w v : win) : Prop :=
  alike false false loose (set_routed (routed w) false w) (set_routed (routed v) false v) /\ armed (sb w) && cur w = false.

Lemma open_unrouted Q w v : (forall s t, Q s t -> jfields s = jfields t) -> alike false false Q w v ->
  closed (fun w v => routed w = false /\ routed v = false) (opening with_table w) (opening None v).
Proof using.
  intros HQ [Hs Hc Ho]. unfold opening, set_win_active. rewrite (cm_routed _ _ _ _ Hc), (cm_routed_v _ _ _ _ Hc). cbn [andb].
  split_and!; cbn; try done; apply Hc.
Qed.

Lemma both_begin_first : both (with_log fresh) (with_log opened_first) (begin_ with_table) (begin_ None).
Proof using shift_ok window_ok driver prefix_wf calls_wf calls_apart encoded span_ok planned ret_recorded.
  unfold rt_sb_begin. apply both_get. intros d d' [Ed H]. pose proof H as [[[Hf Ha _ _] _ _] _]. cbn [sb set_routed] in Hf, Ha.
  assert (active (sb (rest d')) = false) as Ha' by (unfold jfields in Hf; congruence). rewrite Ha, Ha'. clear Ha Ha' Hf. cbn [negb when].
  apply (both_pre (with_log fresh)); [intros s t [-> ->]; by split|].
  apply (both_bind (with_log (fun w v => alike false false loose w v /\ armed (sb w) && cur w = false))).
  { apply both_modify. intros s t [El [Hp Hq]]. by split. }
  intros _. apply both_get. intros s t [El [Hb Hac]].
  assert (armed (sb (rest t)) = armed (sb (rest s)) /\ cur (rest t) = cur (rest s)) as [-> ->].
  { destruct Hb as [[Hf _ _ _] Hc _]. unfold jfields in Hf. pose proof (cm_cur _ _ _ _ Hc). split; congruence. }
  rewrite Hac. cbn [negb when].
  assert (forall g, (modify (upd_rest (fun w => set_win_active (routed w && cur w) w)) ;;
                     modify (upd_rest (fun w => set_aot (if active (sb w) then shim_table g else None) 0 false w)) : M unit) =
                    (fun x => (Drv (opening g (rest x)) (calls x), Ok tt))) as Hend by done.
  rewrite !Hend. clear Hend.
  apply (both_bind (with_log (fun w v => alike false false loose w v \/ routed_first w v))).
  - destruct unprepared eqn:Eu.
    + intros x y [-> ->]. destruct s as [w l], t as [v l']. cbn [rest] in *. destruct Hb as [[Hf Ha Hl Hw] Hc Ho].
      assert (active (sb v) = false) as Ha' by (unfold jfields in Hf; congruence).
      rewrite !unprepared_run by done. eexists _, _, tt. split_and!; [done|done|]. split; [done|by left].
    + apply (both_pre (with_log (alike false false loose))); [intros x y [-> ->]; by split|].
      eapply both_post; [|by apply both_prepare_first]. intros x y [E Hx]. split; [exact E|by right].
  - intros _ x y [E Hx]. eexists _, _, tt. split_and!; [done|done|]. split; [exact E|].
    destruct Hx as [Hx|[Hx|[Hx Hx']]]; [right; eapply open_unrouted; [|exact Hx]; by intros ? ? []|
      right; eapply open_unrouted; [|exact Hx]; by intros ? ? [[[] _] _]|left; by apply open_prefixed].
Qed.

(** ** The calls of the first window *)

(** The first argument of a descriptor's call is the descriptor. *)
Hypothesis calls_bd : Forall (fun c => is_bd (c_kind c) = true -> c_bd c = rd (c_v c) 0) cs.
Hypothesis prepared : unprepared = false.
Hypothesis table_fits : len es <= 128.

Definition host_rec (c : s_call) (addr : Z) : rt_sb_rec :=
  if is_bd (c_kind c) then SbRec (c_kind c) 0 (u8 (rd (c_v c) 0)) 0 0 (call_tile c) addr (bd_args (c_kind c) (c_v c))
  else if c_kind c =? RT_AOT_CALL_CH_OOO then SbRec RT_AOT_CALL_CH_OOO (u8 (c_ch c)) 0 (u8 (c_dir c)) 0 (call_tile c) 0 no_args
  else SbRec RT_AOT_CALL_START (u8 (c_ch c)) (u8 (c_bd c)) (u8 (c_dir c)) (c_repeat c) (call_tile c) 0 no_args.
Definition host_hash (c : s_call) : Z := if is_bd (c_kind c) then rt_aot_bd_hash (c_v c) else 0.

Lemma kind_cases c : call_wf c -> c_kind c = RT_AOT_CALL_BD \/ c_kind c = RT_AOT_CALL_BD_OOO \/
  c_kind c = RT_AOT_CALL_CH_OOO \/ c_kind c = RT_AOT_CALL_START.
Proof using. unfold RT_AOT_CALL_BD, RT_AOT_CALL_BD_OOO, RT_AOT_CALL_CH_OOO, RT_AOT_CALL_START. intros [H _]. lia. Qed.

Lemma host_rec_noted c addr : call_wf c -> noted c (host_rec c addr).
Proof using.
  intros Hc. pose proof (kind_cases c Hc) as Hk. destruct Hc as [_ Hd]. destruct c as [kind col row v ch dir bd repeat]. cbn in Hd.
  destruct Hk as [E|[E|[E|E]]]; cbn in E; subst kind; (split; [|reflexivity]); unfold host_rec, prog_of, call_rec; cbn -[u8];
    rewrite ?(u8_small dir) by lia; reflexivity.
Qed.

Lemma host_rec_matches c k pos addr : call_wf c -> (is_bd (c_kind c) = true -> c_bd c = rd (c_v c) 0) ->
  call_matches (call_entry c k pos) (host_rec c addr) (host_hash c) = true.
Proof using.
  intros Hc Hb. pose proof (kind_cases c Hc) as Hk. destruct Hc as [_ Hd]. destruct c as [kind col row v ch dir bd repeat]. cbn in Hd, Hb.
  destruct Hk as [E|[E|[E|E]]]; cbn in E; subst kind; unfold call_matches, call_entry, host_rec, host_hash; cbn -[u8 rt_aot_bd_hash bd_args];
    rewrite ?Z.eqb_refl; try done; rewrite (Hb eq_refl); cbn -[u8]; by rewrite Z.eqb_refl.
Qed.

Lemma note_first n w v l c e addr window :
  first_begun n w v -> calls_in !! Z.to_nat n = Some c -> es !! Z.to_nat n = Some e ->
  exists v', host_call window (host_rec c addr) (host_hash c) (q_tile (host_rec c addr)) (program (host_rec c addr)) (Drv w l) =
      (Drv (note (host_rec c addr) w) l, Ok tt) /\
    host_call window (host_rec c addr) (host_hash c) (q_tile (host_rec c addr)) (program (host_rec c addr)) (Drv v l) = (Drv v' l, Ok tt) /\
    first_begun (n + 1) (note (host_rec c addr) w) v'.
Proof using shift_ok window_ok driver prefix_wf calls_wf calls_apart encoded calls_bd prepared table_fits.
  intros (J & H & HB & Hn & Hp) Hc He. set (r := host_rec c addr). subst n.
  pose proof (lookup_lt_Some _ _ _ He) as Hlt. pose proof (nt_i _ _ _ _ H) as [Hi _].
  assert (c ∈ cs) as Hin by (by eapply calls_in_elem).
  pose proof (proj1 (Forall_forall _ _) calls_wf c Hin) as Hcw. pose proof (proj1 (Forall_forall _ _) calls_bd c Hin) as Hcb. cbn beta in Hcb. pose proof (host_rec_noted c addr Hcw) as Hr. fold r in Hr.
  assert (txn_open = false) as Htx by (unfold unprepared in prepared; destruct txn_open; [lia|done]).
  assert (aot_i w < 128) as Hmax by (unfold len in table_fits; lia).
  destruct (note_step true J w v r c e H HB Hmax Htx Hc He Hr) as (x & Ex & Hx).
  destruct (Forall2_lookup_lr _ _ _ _ _ _ entries Hc He) as ([[pos Ee] _ _] & _).
  assert (call_matches e r (host_hash c) = true) as Hm by (rewrite Ee; apply host_rec_matches; [done|done]).
  pose proof (nt_common _ _ _ _ H) as Hcm. pose proof (nt_active _ _ _ _ H) as [Ha _].
  assert (rt_sb_cap_on txn_open (q_tile r) (sb w) = true) as Hon.
  { apply (cap_on_call J w (Z.to_nat (aot_i w)) c); [apply HB|apply HB|done|done|done|apply Hr]. }
  assert (jfields (sb w) = jfields (sb v)) as Hfv by (rewrite (capture_fields _ _ _ (nt_capture _ _ _ _ H)); apply HB).
  exists (set_sb x v). split_and!.
  - unfold host_call, rt_sb_aot_take, mbind, stE_bind, gets. cbn [rest calls].
    rewrite (nt_aot _ _ _ _ H), (nt_failed _ _ _ _ H), in_window_cap, Hon. cbn [orb negb]. change (t_calls tab) with es. rewrite He, Hm.
    replace (aot_i w >=? RT_SB_AOT_MAX_CALLS) with false by (unfold RT_SB_AOT_MAX_CALLS; lia). done.
  - unfold host_call, mbind at 1, stE_bind at 1. rewrite (take_off window r (host_hash c) v l) by (left; apply (cm_aot _ _ _ _ Hcm)).
    cbn [negb when]. unfold mbind, stE_bind. rewrite (captured_ok (q_tile r) r v l x); [done| |done]. by rewrite <- (cap_on_fields _ _ _ Hfv).
  - exists J. split; [exact Hx|]. split; [by destruct HB; split|]. split; [done|].
    exact Hp.
Qed.

Lemma both_first_host window n c e buffer : calls_in !! Z.to_nat n = Some c -> es !! Z.to_nat n = Some e ->
  both (with_log (first_begun n)) (with_log (first_begun (n + 1))) (run_host window (host_of c buffer)) (run_host window (host_of c buffer)).
Proof using shift_ok window_ok driver prefix_wf calls_wf calls_apart encoded calls_bd prepared table_fits.
  intros Hc He. pose proof (proj1 (Forall_forall _ _) calls_wf c (calls_in_elem _ _ Hc)) as Hcw.
  assert (forall addr, both (with_log (first_begun n)) (with_log (first_begun (n + 1)))
    (host_call window (host_rec c addr) (host_hash c) (q_tile (host_rec c addr)) (program (host_rec c addr)))
    (host_call window (host_rec c addr) (host_hash c) (q_tile (host_rec c addr)) (program (host_rec c addr)))) as Hb.
  { intros addr [w l] [v l'] [El H]. cbn [rest calls] in *. subst l'.
    destruct (note_first n w v l c e addr window H Hc He) as (v' & E1 & E2 & H'). exists (Drv (note (host_rec c addr) w) l), (Drv v' l), tt. by split_and!. }
  unfold host_rec, host_hash in Hb. unfold host_of. destruct Hcw as [Hkr Hd]. pose proof (kind_cases c (conj Hkr Hd)) as Hk.
  destruct Hk as [E|[E|[E|E]]]; rewrite E in Hb |- *; cbn -[u8 host_call both prog_of bd_args] in Hb |- *.
  - exact (Hb _).
  - exact (Hb _).
  - specialize (Hb 0). unfold prog_of in Hb. cbn -[u8 host_call both] in Hb. rewrite (u8_small (c_dir c)) in Hb by lia.
    unfold __Runtime_dma_channel_enable_ooo. rewrite (u8_small (c_dir c)) by lia. exact Hb.
  - specialize (Hb 0). unfold prog_of in Hb. cbn -[u8 host_call both] in Hb. rewrite (u8_small (c_dir c)) in Hb by lia.
    unfold __Runtime_startio. rewrite (u8_small (c_dir c)) by lia.
    apply (both_bind (with_log (first_begun n))); [apply both_drain|]. intros _. exact Hb.
Qed.

Lemma both_first_hosts window bufs : forall i, length bufs = (length calls_in - i)%nat -> (i <= length calls_in)%nat ->
  both (with_log (first_begun (Z.of_nat i))) (with_log (first_begun (len es)))
    (forM (zip_with host_of (list.drop i calls_in) bufs) (run_host window)) (forM (zip_with host_of (list.drop i calls_in) bufs) (run_host window)).
Proof using shift_ok window_ok driver prefix_wf calls_wf calls_apart encoded calls_bd prepared table_fits.
  pose proof (Forall2_length _ _ _ entries) as Hl.
  induction bufs as [|b bufs IH]; intros i Hb Hi; cbn [length] in Hb.
  - rewrite zip_with_nil_r. assert (Z.of_nat i = len es) as -> by (unfold len; lia). apply both_ret.
  - destruct (lookup_lt_is_Some_2 calls_in i) as [c Hc]; [lia|]. destruct (lookup_lt_is_Some_2 es i) as [e He]; [lia|].
    rewrite (drop_S _ c) by done. cbn [zip_with forM]. apply (both_bind (with_log (first_begun (Z.of_nat i + 1)))).
    + apply (both_first_host window (Z.of_nat i) c e b); by rewrite Nat2Z.id.
    + intros _. replace (Z.of_nat i + 1) with (Z.of_nat (S i)) by lia. apply IH; lia.
Qed.

(** ** The commit of the first window *)

Lemma grown_pw rs : forall s s', jok s -> (forall k, 0 <= k < win_n -> seg_wf (shim_hdr k) (jseg s k)) -> capture rs s = Some s' ->
  forall k, 0 <= k < win_n -> seg_pw (seg_at s k) <= seg_pw (seg_at s' k).
Proof using window_ok.
  induction rs as [|r rs IH]; intros s s' Hs Hw E k Hk; cbn [capture_all] in E; [injection E as <-; lia|].
  assert (same (set_bad false s) (set_bad false s)) as Hr.
  { split; [exact Hs|exact Hs|done|]. intros j Hj. pose proof (Hw j Hj) as Hj'. pose proof (wf_pw _ _ Hj') as [Hp _].
    split; [exact Hj'|exact Hj'|lia|lia|by right| |constructor]. intros i Hi. cbn. by rewrite Z.lor_0_r. }
  pose proof (run_captured_same col_shift win_lo win_n window_ok (program r) _ _ Hr) as Hc.
  destruct (run_captured 20 col_shift (program r) (set_bad false s)) as [s1 rc]. destruct Hc as (_ & [J1 _ _ Hs1] & C1 & _).
  destruct (_ && _); [|done]. pose proof (gr_pw _ _ _ _ (cap_segs _ _ _ C1 k Hk)) as G. cbn [set_bad] in G.
  change (seg_at (set_bad false s) k) with (seg_at s k) in G.
  specialize (IH s1 s' J1 (fun j Hj => tr_t _ _ _ _ _ (Hs1 j Hj)) E k Hk). lia.
Qed.

(** The table is applied, and leaves segments to send. *)
Lemma first_applies w v : first_begun (len es) w v ->
  exists s, rt_sb_aot_apply tile_type XAIE_INVALID_TILE has_dma fields set_field tab w = Some s /\ sends_same win_lo win_n true s (sb v).
Proof using shift_ok window_ok driver prefix_wf calls_wf calls_apart encoded planned ret_recorded.
  intros (J & H & HB & Hn & Hp). pose proof (pf_s _ _ _ Hp) as Jw. pose proof (pf_start _ _ _ Hp) as HJ.
  destruct (captured_table true (fun _ => 0) J w v H HJ Hn) as (Lads & HR & Hes).
  pose proof (cm_now _ _ _ _ (nt_common _ _ _ _ H)) as Hnow. pose proof (capture_fields _ _ _ (nt_capture _ _ _ _ H)) as Fv.
  (* the lengths *)
  assert (forall k, 0 <= k < win_n -> seg_pw (st_at P k) = seg_pw (seg_at J k) /\ seg_pw (st_at T k) = seg_pw (seg_at (sb v) k) /\
            seg_pw (seg_at J k) <= seg_pw (seg_at (sb v) k)) as Hpw.
  { intros k Hk. pose proof (tr_pw _ _ _ _ _ (sr_tracks _ _ _ _ _ _ _ HJ k Hk)) as E1.
    pose proof (tr_pw _ _ _ _ _ (sr_tracks _ _ _ _ _ _ _ HR k Hk)) as E2. rewrite Z.add_0_l in E1, E2. split; [exact E1|]. split; [exact E2|].
    apply (grown_pw (take (Z.to_nat (aot_i w)) (recs w)) J (sb v)); [apply HB| |apply (nt_capture _ _ _ _ H)|done].
    intros j Hj. apply (sr_tracks _ _ _ _ _ _ _ HJ j Hj). }
  assert (forall k, 0 <= k < win_n -> pre_len k <= rd (t_len tab) k <= RT_SB_SEG_WORDS /\ rd (t_prefix tab) k = pre_len k /\
            (seg_pw (seg_at (sb v) k) = 0 -> rd (t_len tab) k = 0)) as Hlen.
  { intros k Hk. destruct (Hpw k Hk) as (E1 & E2 & E3). destruct (pre_le k Hk) as [Hp0 Hw].
    destruct (table_len win_lo win_n window_ok _ P T es k Hk Hw) as [El _]. unfold tab. rewrite El.
    split; [|split; [apply (table_at win_lo win_n window_ok P T es k Hk)|intros E0; by rewrite E2, E0]].
    destruct (Z.eqb_spec (seg_pw (st_at T k)) 0) as [E0|N0]; [rewrite seg_words_816; lia|].
    pose proof (fin_grows _ _ Hw N0) as Hg. change (tseg T k).1 with (st_at T k) in Hg. destruct (fin_acked _ _ Hw N0) as [_ [_ ?] _]. lia. }
  assert (forall k, 0 <= k < win_n -> apply_check tab w k = Some 0) as Hchk.
  { intros k Hk. destruct (Hlen k Hk) as (L1 & L2 & _). destruct (pf_segs _ _ _ Hp k Hk) as (Q1 & Q2 & Q3). unfold apply_check. rewrite L2.
    replace ((rd (t_len tab) k >? RT_SB_SEG_WORDS) || (pre_len k >? rd (t_len tab) k)) with false by lia.
    unfold rt_sb_aot_shift. rewrite Hnow. cbn [orb negb Z.eqb]. change (seg_at (sb w) k) with (jseg (sb w) k).1.
    change (pkt_at (sb w) k) with (jseg (sb w) k).2. rewrite Q1, Z.eqb_refl, bool_decide_true by exact Q3. done. }
  destruct (rt_sb_aot_apply tile_type XAIE_INVALID_TILE has_dma fields set_field tab w) as [s|] eqn:E.
  2: { exfalso. revert E. unfold rt_sb_aot_apply. rewrite (ncols_ok win_lo win_n window_ok) by done. pose proof Jw as ((El & Eh) & _).
       rewrite El, Eh. change (t_lo tab) with win_lo. change (t_hi tab) with win_hi. change (t_calls tab) with es. rewrite Hn, !Z.eqb_refl.
       replace (win_n >? RT_AOT_SB_MAX_SEGS) with false by (unfold RT_AOT_SB_MAX_SEGS; lia). cbn [negb orb].
       destruct (mapM (apply_check tab w) (range 0 win_n)) as [sh|] eqn:Em; [done|]. intros _.
       assert (is_Some (mapM (apply_check tab w) (range 0 win_n))) as [? ?]; [|congruence]. apply mapM_is_Some. apply Forall_forall.
       intros k Hk%elem_of_seqZ. exists 0. apply Hchk. lia. }
  exists s. split; [done|].
  destruct (apply_segments win_lo win_n window_ok tile_type XAIE_INVALID_TILE has_dma fields set_field tab w s E Jw)
    as (shifts & Hchk' & _ & Js & Fs & Hsegs). change (t_calls tab) with es in *.
  split; [exact Js|apply (sr_jit _ _ _ _ _ _ _ HR)|rewrite Fs, Fv; apply HB| |].
  { destruct (nt_active _ _ _ _ H) as [Ha _]. unfold jfields in Fs. congruence. }
  intros k Hk. rewrite Hsegs by done. destruct (pf_segs _ _ _ Hp k Hk) as (Q1 & Q2 & Q3). destruct (Hlen k Hk) as (L1 & L2 & L3).
  destruct (Hpw k Hk) as (E1 & E2 & E3). pose proof (Hchk' k Hk) as Hs. rewrite Hchk in Hs by done. injection Hs as Hs.
  destruct (pre_le k Hk) as [Hp0 _]. fold (pre_len k) in E1.
  apply (segment_applies win_lo win_n window_ok tile_type XAIE_INVALID_TILE has_dma fields set_field (fun _ => 0) P
    (fun j => all_patches_ (fun _ => 0) j es (take (length es) (addrs w))) T (sb v)); [exact HR|exact Hk|done|exact Lads|apply Hes|exact Q2| |].
  - intros _. rewrite <- Hs. split; [done|]. change (emit_window win_lo win_hi P T es) with tab. rewrite Q1. split; [lia|]. rewrite drop_0. exact Q3.
  - intros E0. rewrite <- Hs. split; [by apply L3|]. rewrite Q1. lia.
Qed.

(** After the first window: the return routes are up, or all calls went to the
    device. *)
Definition after_first (w v : win) : Prop := paused w v \/ (routed w = false /\ routed v = false).

Lemma both_commit_first : both (with_log (fun w v => first_begun (len es) w v \/ closed (fun w v => routed w = false /\ routed v = false) w v))
  (with_log after_first) commit_ commit_.
Proof using shift_ok window_ok driver prefix_wf calls_wf calls_apart encoded planned ret_recorded.
  unfold rt_sb_commit. apply both_get. intros [w l] [v l'] [El H]. cbn [calls rest] in *. subst l'.
  destruct H as [Hf|(Hb & _ & Ha & Ha')].
  - destruct (first_applies w v Hf) as (s & Eap & Hs). destruct Hf as (J & H & HB & Hn & Hp).
    pose proof (nt_common _ _ _ _ H) as Hc. pose proof (nt_active _ _ _ _ H) as [Ha _].
    pose proof (capture_fields _ _ _ (nt_capture _ _ _ _ H)) as Fv. pose proof (bg_fields _ _ HB) as Fw.
    assert (active (sb v) = true) as Ha' by (unfold jfields in *; congruence).
    rewrite Ha, Ha', (cm_aot _ _ _ _ Hc), (nt_aot _ _ _ _ H), (nt_failed _ _ _ _ H), Eap. cbn [when].
    apply (both_bind (fun x y => x = Drv (set_sb s w) l /\ y = Drv v l)).
    { intros x y [-> ->]. by eexists _, _, tt. }
    intros _. eapply both_post; [|apply (both_close true); [exact Hs|by destruct Hc; split]]. intros x y [E Hx]. split; [exact E|by left].
  - rewrite Ha, Ha'. cbn [when]. eapply both_pre; [|apply both_ret]. intros x y [-> ->]. split; [done|by right].
Qed.

Lemma both_first_window bufs : length bufs = length calls_in ->
  both (with_log fresh) (with_log after_first) (window_of with_table (zip_with host_of calls_in bufs)) (window_of None (zip_with host_of calls_in bufs)).
Proof using shift_ok window_ok driver prefix_wf calls_wf calls_apart encoded span_ok planned ret_recorded calls_bd prepared table_fits.
  intros Hl. unfold window_of. apply (both_bind (with_log opened_first)); [apply both_begin_first|]. intros _.
  apply (both_bind (with_log (fun w v => first_begun (len es) w v \/ closed (fun w v => routed w = false /\ routed v = false) w v)));
    [|intros _; apply both_commit_first].
  intros [w l] [v l'] [El [H|H]].
  - destruct (both_first_hosts run_window_ bufs 0 ltac:(lia) ltac:(lia) (Drv w l) (Drv v l')) as (s & t & a & E1 & E2 & E3 & H'); [by split|].
    exists s, t, a. split_and!; [exact E1|exact E2|]. split; [done|by left].
  - destruct (both_forM (with_log (closed (fun w v => routed w = false /\ routed v = false))) (zip_with host_of calls_in bufs) (run_host run_window_) (run_host run_window_)
      (fun h _ => host_closed _ run_window_ h) (Drv w l) (Drv v l')) as (s & t & a & E1 & E2 & E3 & H'); [by split|].
    exists s, t, a. split_and!; [exact E1|exact E2|]. split; [done|by right].
Qed.
End first.
End table.
End windows.
