(* ===== verification/AotExact.v ===== *)
(** * A table changes nothing but the time

    The windows of a host program make the same calls to the device, in the
    same order and with the same words, with a table from the offline tool as
    without: whatever the host calls once the return routes are up, and in the
    window that sets them up when it is the one the table was made for.  And
    the tables that are not right: one made when the return routes could not
    be recorded, and one that is given up in the window that sets them up. *)

From stdpp Require Import base list list_numbers numbers gmap.
From S2P Require Import Prelude.
From S2P Require Import CtrlpktEncode.
From S2P Require Import RuntimePkt.
From S2P Require Import CtrlpktFormat.
From S2P Require Import CtrlpktSeg.
From S2P Require Import Resource.
From S2P Require Import ControlPlan.
From S2P Require Import Driver.
From S2P Require Import TraceRes.
From S2P Require Import ShimBatch.
From S2P Require Import CacheSync.
From S2P Require Import RowFabric.
From S2P Require Import RowSend.
From S2P Require Import AotTable.
From S2P Require Import AotWindow.
From S2P Require Import AotSegs.
From S2P Require Import AotBuild.
From S2P Require Import AotSame.
From S2P Require Import AotKick.
From S2P Require Import AotCommit.
From S2P Require Import AotWindowProps.

Local Open Scope Z_scope.
Local Open Scope c_scope.

(** As the calls of the sites file are parsed, and as the tables can hold
    them. *)
Definition parsed (c : s_call) : Prop :=
  call_wf c /\ 0 <= c_repeat c < 256 /\ (is_bd (c_kind c) = true -> c_bd c = rd (c_v c) 0).

Section exact.
Context (col_shift win_lo win_n : Z).
Hypothesis shift_ok : 20 <= col_shift <= 28.
Hypothesis window_ok : 0 <= win_lo /\ 1 <= win_n <= 5 /\ win_lo + win_n <= 64.
Context (pkt_addr resp_addr shim_col : Z) (txn_open keep : bool).
Context (fab_rows : list (Z * Z)) (dedicated_shim ready : bool).
Context (xaie : list sb_call -> sb_call -> Z) (pending_bds : list sb_call -> XAie_DmaDirection -> Z).
Context (backend : list sb_call -> backend_op -> Z * Z).
Context (desc_rc : XAie_LocType -> desc_op -> Z).
Context (dma_write_bd : XAie_LocType -> list desc_op -> Z -> driver_call).
Context (dma_write_channel : XAie_LocType -> list desc_op -> Z -> Z -> driver_call).
Context (set_start_queue : XAie_LocType -> Z -> Z -> Z -> Z -> driver_call).
Context (prog : strm_call -> driver_call) (channel_enable : XAie_LocType -> Z -> XAie_DmaDirection -> driver_call).
Context (tile_type : XAie_LocType -> Z) (SHIMNOC SHIMPL XAIE_INVALID_TILE : Z) (has_dma : Z -> bool) (fields : shim_bd_fields).
Context (set_field : Z -> Z -> Z -> Z) (aie2ps : bool).
Context (allocs : list AllocEntry) (MemGetDevAddr : Z -> Z) (book : acr_portbook).

Abbreviation win_hi := (win_lo + win_n - 1).
Abbreviation driver_ok_ := (driver_ok col_shift desc_rc dma_write_bd dma_write_channel set_start_queue prog tile_type SHIMNOC
  XAIE_INVALID_TILE has_dma fields set_field).
Abbreviation apart_ := (apart col_shift win_lo desc_rc dma_write_bd dma_write_channel set_start_queue tile_type SHIMNOC
  XAIE_INVALID_TILE has_dma fields set_field).
Abbreviation build := (build_window desc_rc dma_write_bd dma_write_channel set_start_queue prog tile_type SHIMNOC XAIE_INVALID_TILE
  has_dma fields set_field 20 col_shift true shim_col fab_rows book).
Abbreviation window := (window_of col_shift pkt_addr resp_addr shim_col txn_open keep fab_rows dedicated_shim ready xaie pending_bds
  backend desc_rc dma_write_bd dma_write_channel set_start_queue prog channel_enable tile_type SHIMNOC SHIMPL XAIE_INVALID_TILE has_dma
  fields set_field aie2ps allocs MemGetDevAddr book).
Abbreviation windows := (windows_of col_shift pkt_addr resp_addr shim_col txn_open keep fab_rows dedicated_shim ready xaie pending_bds
  backend desc_rc dma_write_bd dma_write_channel set_start_queue prog channel_enable tile_type SHIMNOC SHIMPL XAIE_INVALID_TILE has_dma
  fields set_field aie2ps allocs MemGetDevAddr book).
Abbreviation encode_calls_ :=
  (encode_calls desc_rc dma_write_bd dma_write_channel set_start_queue tile_type SHIMNOC XAIE_INVALID_TILE has_dma fields set_field
     20 col_shift win_lo win_hi).

(** ** The tool's return routes *)

(** The return routes of the plan, and whether they could be recorded. *)
Definition planned_ret : list acr_op := (acr_plan_shim_row win_lo win_hi ([], ([], book))).1.1.
Definition ret_record : s_segs * res Z unit := record_prefix prog 20 col_shift win_lo win_hi planned_ret (reset_segs segs0).
Definition tool_prefix : s_segs := with_prefix prog 20 col_shift win_lo win_hi planned_ret segs0.

Lemma build_inv cs a : rows_span fab_rows = (win_lo, win_hi) -> build cs = Ok (Some a) ->
  exists T es fb, encode_calls_ cs tool_prefix = (T, Ok es) /\ a = emit_window win_lo win_hi tool_prefix T es /\
    acr_plan_shim_row win_lo win_hi ([], ([], book)) = ((planned_ret, fb), Ok tt) /\
    (len fab_rows =? 0) = false /\ shim_col + 1 = win_lo.
Proof using window_ok.
  intros Hspan E. unfold build_window in E. cbn [negb orb] in E. destruct (len fab_rows =? 0) eqn:En; [done|].
  unfold rows_span in Hspan. unfold fab_span in E. rewrite Hspan in E.
  destruct (negb (shim_col + 1 =? win_lo) || (win_hi - win_lo + 1 >? RT_AOT_SB_MAX_SEGS)) eqn:Eg; [done|].
  rewrite !u8_small in E by lia. unfold tool_prefix, planned_ret.
  destruct (acr_plan_shim_row win_lo win_hi ([], ([], book))) as [[ret fb] [[]|e]] eqn:Ep; [|done]. cbn [fst].
  destruct (encode_calls_ cs _) as [T [es|e]] eqn:Ee; [|done]. destruct (0 <? len es); [|done]. injection E as <-.
  exists T, es, fb. split_and!; try done. lia.
Qed.

Lemma parsed_split cs : Forall parsed cs -> Forall call_wf cs /\ Forall (fun c => 0 <= c_repeat c < 256) cs /\
  Forall (fun c => is_bd (c_kind c) = true -> c_bd c = rd (c_v c) 0) cs.
Proof using. intros H. split_and!; (eapply Forall_impl; [exact H|]); by intros c (? & ? & ?). Qed.

(** ** Before a window *)

(** No window is open; the buffers are there, and the segments are empty when
    the fabric is the current one. *)
Record waiting (w : win) : Prop := {
  wt_win : sb_win w = None;
  wt_aot : aot w = None;
  wt_recs : length (recs w) = 128%nat;
  wt_addrs : length (addrs w) = 128%nat;
  wt_active : active (sb w) = false;
  wt_len : length (seg (sb w)) = 5%nat /\ length (pkt (sb w)) = 5%nat;
  wt_words : forall k, 0 <= k < win_n -> len (pkt_at (sb w) k) = RT_SB_SEG_WORDS;
  wt_empty : cur w = true -> jit_ok win_lo win_n (sb w) /\ empty win_n (sb w) }.

Lemma waiting_loose w rt : waiting w -> routed w = rt ->
  alike rt false (loose win_n) (set_routed (routed w) false w) (set_routed (routed w) false w).
Proof using.
  intros [H1 H2 H3 H4 H5 H6 H7 _] Hr. split; [|by split|by left]. split; [done|done|by split|]. intros k Hk. split; by apply H7.
Qed.

Lemma waiting_paused w : waiting w -> routed w = true -> paused win_lo win_n w w.
Proof using.
  intros H Hr. pose proof (waiting_loose w true H Hr) as [_ Hc Ho]. unfold paused, between. destruct (cur w) eqn:Ec.
  - left. destruct H as [_ _ _ _ Ha _ _ He]. destruct (He Ec) as [Hj Hi]. split; [|exact Hc|exact Ho].
    split; [split; [split; [exact Hj|exact Hj|done|]|exact Ha]|]; intros k Hk; [apply idle_same; by apply Hi|split; by apply Hi].
  - right. split; [exact Ec|]. by apply waiting_loose.
Qed.

Lemma windows_both cs a wn hss : driver_ok_ -> rows_span fab_rows = (win_lo, win_hi) -> Forall parsed cs ->
  Forall (fun c => call_in win_lo win_n c -> apart_ tool_prefix c) cs -> build cs = Ok (Some a) ->
  Forall (Forall (host_ok cs)) hss ->
  both (with_log (paused win_lo win_n)) (with_log (paused win_lo win_n)) (windows (Some (Some a, wn)) hss) (windows None hss).
Proof using shift_ok window_ok.
  intros Hd Hspan Hp Hap Hb Hh. destruct (parsed_split cs Hp) as (Hwf & Hrep & _).
  destruct (build_inv cs a Hspan Hb) as (T & es & fb & Ee & -> & _).
  unfold windows_of. apply both_forM. intros hs Hin. rewrite Forall_forall in Hh.
  exact (both_window col_shift win_lo win_n shift_ok window_ok pkt_addr resp_addr shim_col txn_open keep fab_rows dedicated_shim ready
    xaie pending_bds backend desc_rc dma_write_bd dma_write_channel set_start_queue prog channel_enable tile_type SHIMNOC SHIMPL
    XAIE_INVALID_TILE has_dma fields set_field aie2ps allocs MemGetDevAddr book cs tool_prefix T es Hd
    (with_prefix_wf col_shift win_lo win_n window_ok prog planned_ret) Hwf Hrep Hap Ee Hspan wn hs (Hh hs Hin)).
Qed.


(** C5. The window that sets up the return routes: when the tool could record
    them and the host makes the calls of the table, with buffers of its own,
    the run-time that takes the routes' packets from the table and copies its
    segments makes the same calls to the device as the one that captures
    everything; and if the routes are up then, so do all windows after it. *)
Theorem aot_first_window_exact cs a wn bufs w l :
  driver_ok_ -> rows_span fab_rows = (win_lo, win_hi) -> Forall parsed cs ->
  Forall (fun c => call_in win_lo win_n c -> apart_ tool_prefix c) cs -> build cs = Ok (Some a) ->
  ret_record.2 = Ok tt -> len (t_calls a) <= 128 ->
  dedicated_shim = true -> ready = true -> txn_open = false ->
  length bufs = length (calls_in win_lo win_n cs) -> waiting w -> routed w = false -> armed (sb w) && cur w = false ->
  let hs := zip_with host_of (calls_in win_lo win_n cs) bufs in
  exists w1 w2 log, window (Some (Some a, wn)) hs (Drv w l) = (Drv w1 log, Ok tt) /\ window None hs (Drv w l) = (Drv w2 log, Ok tt) /\
    (routed w2 = true -> forall hss, Forall (Forall (host_ok cs)) hss ->
       exists w3 w4 log', windows (Some (Some a, wn)) hss (Drv w1 log) = (Drv w3 log', Ok tt) /\
         windows None hss (Drv w2 log) = (Drv w4 log', Ok tt)).
Proof using shift_ok window_ok.
  intros Hd Hspan Hp Hap Hb Hrec Hlen Hded Hrdy Htx Hl Hw Hr Hac hs. destruct (parsed_split cs Hp) as (Hwf & Hrep & Hbd).
  destruct (build_inv cs a Hspan Hb) as (T & es & fb & Ee & Ea & Hplan & Hrows & Hshim).
  assert (record_prefix prog 20 col_shift win_lo win_hi planned_ret (reset_segs segs0) = (tool_prefix, Ok tt)) as Hrec'.
  { unfold ret_record, tool_prefix, with_prefix in *. destruct (record_prefix _ _ _ _ _ _ _) as [s r]. cbn in Hrec. by rewrite Hrec. }
  assert (unprepared win_lo win_n shim_col txn_open fab_rows dedicated_shim ready = false) as Hprep.
  { unfold unprepared. rewrite Hded, Hrdy, Htx, Hrows. cbn [negb orb]. change RT_RES_SHIMROW_MAX_COLS with 5.
    rewrite (u32_small (win_hi - win_lo)), !u32_small by lia. lia. }
  rewrite Ea in Hlen. cbn [t_calls emit_window] in Hlen.
  destruct (both_first_window col_shift win_lo win_n shift_ok window_ok pkt_addr resp_addr shim_col txn_open keep fab_rows dedicated_shim ready
    xaie pending_bds backend desc_rc dma_write_bd dma_write_channel set_start_queue prog channel_enable tile_type SHIMNOC SHIMPL
    XAIE_INVALID_TILE has_dma fields set_field aie2ps allocs MemGetDevAddr book cs tool_prefix T es Hd
    (with_prefix_wf col_shift win_lo win_n window_ok prog planned_ret) Hwf Hap Ee Hspan wn planned_ret fb Hplan Hrec' Hbd Hprep Hlen bufs Hl
    (Drv w l) (Drv w l)) as ([w1 l1] & [w2 l2] & [] & E1 & E2 & E3 & Haft).
  { split; [done|]. split; [by apply waiting_loose|exact Hac]. }
  cbn in E3, Haft. subst l2. exists w1, w2, l1. split; [rewrite Ea; exact E1|]. split; [exact E2|].
  intros Hr2 hss Hh. destruct Haft as [Hpa|[_ ?]]; [|congruence].
  destruct (windows_both cs a wn hss Hd Hspan Hp Hap Hb Hh (Drv w1 l1) (Drv w2 l1)) as ([w3 l3] & [w4 l4] & [] & E4 & E5 & E6 & _); [by split|].
  cbn in E6. subst l4. by exists w3, w4, l3.
Qed.

(** When the tool could not record the return routes, its table says
    that they take no word, and not that they are missing: the run-time that
    should set them up takes the empty prefix for them, and reports success
    with no call made and nothing to send.  (Without a table it captures them,
    or writes them directly when that fails.) *)
Theorem aot_prefix_lost cs a wn ret w l :
  driver_ok_ -> rows_span fab_rows = (win_lo, win_hi) -> Forall parsed cs ->
  Forall (fun c => call_in win_lo win_n c -> apart_ tool_prefix c) cs -> build cs = Ok (Some a) ->
  ret_record.2 <> Ok tt -> jit_ok win_lo win_n (sb w) -> empty win_n (sb w) ->
  exists s, ret_routes 20 col_shift backend prog (Some (Some a, wn)) ret (Drv w l) = (Drv (set_sb s w) l, Ok XAIE_OK) /\
    forall k, 0 <= k < win_n -> seg_pw (seg_at s k) = 0.
Proof using shift_ok window_ok.
  intros Hd Hspan Hp Hap Hb Hrec Hj He. destruct (parsed_split cs Hp) as (Hwf & _).
  destruct (build_inv cs a Hspan Hb) as (T & es & fb & Ee & -> & _).
  destruct (table_prefix_spec col_shift win_lo win_n shift_ok window_ok _ _ _ _ prog _ _ _ _ _ _ cs tool_prefix T es Hd
    (with_prefix_wf col_shift win_lo win_n window_ok prog planned_ret) Hwf Hap Ee wn (sb w) Hj He) as (s & Es & _ & _ & Hpre).
  exists s. split.
  { unfold ret_routes, mbind, stE_bind, gets. cbn [rest]. unfold with_table, tab in Es. by rewrite Es. }
  intros k Hk. destruct (Hpre k Hk) as (E & _). change (jseg s k).1 with (seg_at s k) in E. rewrite E. unfold pre_len, tool_prefix, with_prefix.
  unfold ret_record in Hrec. destruct segs0_ok as [H0 Hl]. destruct (reset_wf segs0 H0 Hl) as [Hr _].
  pose proof (record_prefix_wf col_shift win_lo win_n window_ok prog planned_ret _ Hr) as Hk'.
  destruct (record_prefix _ _ _ _ _ _ _) as [x [[]|e]]; [done|]. destruct Hk' as [Hx Hw].
  destruct (reset_wf x Hx) as [_ Hi]; [intros j Hj'; apply (wf_len _ _ (Hw j Hj'))|]. apply (Hi k). lia.
Qed.
End exact.

(** ** A device *)

(** A driver with the registers of a shim tile: descriptors of nine words, a
    word for a channel and for a queue, two for a stream switch's port. *)
Definition toy_base (tile : XAie_LocType) : Z := loc_col tile * 2 ^ 25.
Definition toy_fields : shim_bd_fields := BdFields 2 0xFFFFFFFC 0 0xFFFF 16 0x1F0000.
Definition toy_field (v lsb mask : Z) : Z := Z.land (Z.shiftl v lsb) mask.
Definition toy_type (tile : XAie_LocType) : Z := if loc_row tile =? 0 then 2 else 0.
Definition toy_has_dma (ty : Z) : bool := ty =? 2.
Definition toy_words (tile : XAie_LocType) (ds : list desc_op) : list Z :=
  match ds with
  | _ :: DmaSetMultiDimAddr _ _ addr n :: _ =>
    let f := (rt_seq_shim_bd_addr_fields toy_type 7 toy_has_dma toy_fields toy_field tile addr).1 in
    [n; rd f 0; rd f 1; 0; 0; 0; 0; 1; rd f 2]
  | _ => [0; 0; 0; 0; 0; 0; 0; 0; 0]
  end.
Definition toy_bd (tile : XAie_LocType) (ds : list desc_op) (b : Z) : driver_call :=
  Do (ConfigShimDmaBd (toy_base tile + 0x9000 + 48 * (b mod 16)) (toy_words tile ds)) (fun rc _ => Return rc).
Definition toy_channel (tile : XAie_LocType) (ds : list desc_op) (ch dir : Z) : driver_call :=
  Do (Write32 (toy_base tile + 0x9F00 + 8 * (ch mod 2)) 1) (fun rc _ => Return rc).
Definition toy_queue (tile : XAie_LocType) (ch dir b n : Z) : driver_call :=
  Do (Write32 (toy_base tile + 0x9F20 + 8 * (ch mod 2)) (b mod 16 + 16 * (n mod 256))) (fun rc _ => Return rc).
Definition toy_strm (c : strm_call) : driver_call :=
  Do (BlockWrite32 ((strm_tile c).1 * 2 ^ 25 + 0x3F000) [1; 2]) (fun rc _ => Return rc).

Lemma toy_driver : driver_ok 25 (fun _ _ => XAIE_OK) toy_bd toy_channel toy_queue toy_strm toy_type 2 7 toy_has_dma toy_fields toy_field.
Proof.
  assert (forall col off n, 0 <= off -> off + 4 * n <= 2 ^ 20 ->
    0 <= col * 2 ^ 25 + off - tile_base 25 col /\ col * 2 ^ 25 + off - tile_base 25 col + 4 * n <= 2 ^ 20) as Hin.
  { intros col off n H1 H2. unfold tile_base. lia. }
  split.
  - intros tile ds b _ _. split; [|by intros]. cbn [op_writes]. unfold toy_base. rewrite <- Z.add_assoc.
    assert (len (toy_words tile ds) = 9) as L by (unfold toy_words; destruct ds as [|? [|[] ?]]; reflexivity).
    split; cbn [fst snd]; [by intros E; rewrite E in L|]. rewrite L. apply Hin; pose proof (Z.mod_pos_bound b 16 ltac:(lia)); lia.
  - intros tile ds ch dir _ _. split; [|by intros]. cbn [op_writes]. unfold toy_base. rewrite <- Z.add_assoc.
    split; cbn [fst snd]; [done|]. change (len [_]) with 1. apply Hin; pose proof (Z.mod_pos_bound ch 2 ltac:(lia)); lia.
  - intros tile ch dir b n _ _. split; [|by intros]. cbn [op_writes]. unfold toy_base. rewrite <- Z.add_assoc.
    split; cbn [fst snd]; [done|]. change (len [_]) with 1. apply Hin; pose proof (Z.mod_pos_bound ch 2 ltac:(lia)); lia.
  - intros c _ _. split; [|by intros]. cbn [op_writes]. split; cbn [fst snd]; [done|]. change (len [_; _]) with 2. apply Hin; lia.
  - intros tile args addr recs f Hf Hr _.
    assert (forall a, recorded false (bd_program (fun _ _ => XAIE_OK) toy_bd toy_type 2 tile args a) =
      Some (block_recs (toy_base tile + 0x9000 + 48 * (u8 (ba_bd_id args) mod 16)) 0
              (let f := (rt_seq_shim_bd_addr_fields toy_type 7 toy_has_dma toy_fields toy_field tile a).1 in
               [u32 (ba_len args); rd f 0; rd f 1; 0; 0; 0; 0; 1; rd f 2]))) as Hrec by reflexivity.
    rewrite Hrec in Hr |- *. injection Hr as <-. rewrite Hf. cbn [fst].
    unfold rt_seq_shim_bd_addr_fields in *. destruct (negb _); [done|]. injection Hf as <-.
    split.
    + cbn -[u32 Z.shiftr toy_field u64 Z.lor]. rewrite !Z.lor_0_r. reflexivity.
    + cbn -[u32 Z.shiftr toy_field u64]. intros r [= <-]. cbn [r_regoff].
      unfold u64, toy_base. rewrite Z.mod_mod_divide by (exists (2 ^ 60); reflexivity).
      change (4 *u32 (0 + 1 + 1 + 1 + 1 + 1 + 1 + 1 + 1)) with 32.
      replace (loc_col tile * 2 ^ 25 + 0x9000 + 48 * (u8 (ba_bd_id args) mod 16) + 32)
        with ((loc_col tile * 2 ^ 21 + 0x902 + 3 * (u8 (ba_bd_id args) mod 16)) * 16) by lia. apply Z_mod_mult.
Qed.

(** A fabric of the columns 1 and 2, and the calls of a host program: a
    descriptor of the shim tile in column 1, its start, and a channel in column
    2 (or not). *)
Definition toy_args : list Z := [3; 4096; -1; 0; 0; -1; 0; -1; 0; -1; 1; 4; 1024; 0; 0; 0; 0; 0; 0].
Definition toy_one : list s_call :=
  [SCall RT_AOT_CALL_BD 1 0 toy_args 0 0 3 0; SCall RT_AOT_CALL_START 1 0 (replicate 19 0) 0 1 3 1].
Definition toy_calls : list s_call := toy_one ++ [SCall RT_AOT_CALL_CH_OOO 2 0 (replicate 19 0) 1 0 0 0].

Definition toy_build (prog : strm_call -> driver_call) (cs : list s_call) : res Z (option rt_aot_shim_bd) :=
  build_window (fun _ _ => XAIE_OK) toy_bd toy_channel toy_queue prog toy_type 2 7 toy_has_dma toy_fields toy_field 20 25 true 0 [(1, 2)]
    book0 cs.
Definition toy_table (prog : strm_call -> driver_call) (cs : list s_call) : rt_aot_shim_bd :=
  match toy_build prog cs with Ok (Some a) => a | _ => Table 0 0 [] [] [] [] [] [] end.

(** Before a window, with the return routes up ([rt]) or not. *)
Definition toy_state (rt : bool) : win :=
  Win (Sb false false false rt 1 2 0 (replicate 5 (Seg 0 RT_CPE_NONE 0)) (replicate 5 (replicate 816 0))) rt rt false None 0 false
    (replicate 128 (SbRec 0 0 0 0 0 (Loc 0 0) 0 no_args)) (replicate 128 0) None.

Definition toy_windows (prog : strm_call -> driver_call) g (hss : list (list host_op)) : stE (drv win sb_call) Z unit :=
  windows_of 25 0x10000 0x20000 0 false true [(1, 2)] true true (fun _ _ => XAIE_OK) (fun _ _ => 0) (fun _ _ => (XAIE_OK, 0))
    (fun _ _ => XAIE_OK) toy_bd toy_channel toy_queue prog (fun _ _ _ => Return XAIE_OK) toy_type 2 3 7 toy_has_dma toy_fields toy_field true
    [] (fun a => a) book0 g hss.

(** Two windows with the calls of the table, and one with another start. *)
Definition toy_host (buffer ch : Z) : list host_op :=
  [HostBdMulti (Loc 0 1) buffer toy_args; HostStart (Loc 0 1) ch 3 1 1; HostChannelOoo (Loc 0 2) 1 0].

Lemma toy_parsed : Forall parsed toy_calls.
Proof. repeat constructor; cbn; try lia; done. Qed.

Lemma toy_apart : Forall (fun c => call_in 1 2 c -> apart 25 1 (fun _ _ => XAIE_OK) toy_bd toy_channel toy_queue toy_type 2 7
  toy_has_dma toy_fields toy_field (tool_prefix 25 1 2 toy_strm book0) c) toy_calls.
Proof.
  unfold toy_calls, toy_one. cbn [app].
  do 3 (apply Forall_cons; split; [intros _ recs r Hrec Hr; vm_compute in Hrec; injection Hrec as <-; vm_compute in Hr; injection Hr as <-;
    vm_compute; right; discriminate|]). constructor.
Qed.

Lemma toy_waiting rt : waiting 1 2 (toy_state rt).
Proof.
  split; try done.
  - intros k Hk. assert (k = 0 \/ k = 1) as [-> | ->] by lia; reflexivity.
  - intros _. split; [done|]. intros k Hk. assert (k = 0 \/ k = 1) as [-> | ->] by lia; done.
Qed.

Lemma toy_host_ok buffer ch : Forall (host_ok toy_calls) (toy_host buffer ch).
Proof.
  repeat constructor; try lia. intros c Hc Hk _. unfold toy_calls, toy_one in Hc. cbn [app] in Hc.
  repeat (apply elem_of_cons in Hc as [->|Hc]; [done|]). by apply not_elem_of_nil in Hc.
Qed.


(** The table is applied in the windows with its calls, and given up in the
    other. *)
Example toy_applied :
  let failed hs := aot_failed (rest (toy_windows toy_strm (Some (Some (toy_table toy_strm toy_calls), None)) [hs] (Drv (toy_state true) [])).1) in
  failed (toy_host 0x5000 0) = false /\ failed (toy_host 0x9000 1) = true.
Proof. vm_compute. done. Qed.

Lemma aot_first_window_exact_witness :
  exists w1 w2 log,
    toy_windows toy_strm (Some (Some (toy_table toy_strm toy_calls), None)) [toy_host 0x5000 0] (Drv (toy_state false) []) = (Drv w1 log, Ok tt) /\
    toy_windows toy_strm None [toy_host 0x5000 0] (Drv (toy_state false) []) = (Drv w2 log, Ok tt).
Proof.
  destruct (aot_first_window_exact 25 1 2 ltac:(lia) ltac:(lia) 0x10000 0x20000 0 false true [(1, 2)] true true (fun _ _ => XAIE_OK) (fun _ _ => 0)
    (fun _ _ => (XAIE_OK, 0)) (fun _ _ => XAIE_OK) toy_bd toy_channel toy_queue toy_strm (fun _ _ _ => Return XAIE_OK) toy_type 2 3 7
    toy_has_dma toy_fields toy_field true [] (fun a => a) book0 toy_calls (toy_table toy_strm toy_calls) None [0x5000; 0; 0] (toy_state false) [])
    as (w1 & w2 & log & E1 & E2 & _).
  - exact toy_driver.
  - reflexivity.
  - exact toy_parsed.
  - exact toy_apart.
  - vm_compute. reflexivity.
  - vm_compute. reflexivity.
  - vm_compute. discriminate.
  - reflexivity.
  - reflexivity.
  - reflexivity.
  - reflexivity.
  - apply toy_waiting.
  - reflexivity.
  - reflexivity.
  - exists w1, w2, log.
    change (zip_with host_of (calls_in 1 2 toy_calls) [0x5000; 0; 0]) with (toy_host 0x5000 0) in E1, E2.
    unfold toy_windows, windows_of. cbn [forM]. split; [erewrite bind_Ok by exact E1|erewrite bind_Ok by exact E2]; reflexivity.
Defined.

(** A driver that reads the stream switch before it writes. *)
Definition toy_reads (c : strm_call) : driver_call :=
  Do (MaskWrite32 ((strm_tile c).1 * 2 ^ 25 + 0x3F000) 3 2) (fun rc _ => Return rc).

Lemma toy_reads_driver : driver_ok 25 (fun _ _ => XAIE_OK) toy_bd toy_channel toy_queue toy_reads toy_type 2 7 toy_has_dma toy_fields toy_field.
Proof. destruct toy_driver as [H1 H2 H3 _ H5]. split; [exact H1|exact H2|exact H3| |exact H5]. intros c _ _. by split. Qed.

Lemma toy_reads_apart : Forall (fun c => call_in 1 2 c -> apart 25 1 (fun _ _ => XAIE_OK) toy_bd toy_channel toy_queue toy_type 2 7
  toy_has_dma toy_fields toy_field (tool_prefix 25 1 2 toy_reads book0) c) toy_calls.
Proof.
  unfold toy_calls, toy_one. cbn [app].
  do 3 (apply Forall_cons; split; [intros _ recs r Hrec Hr; vm_compute in Hrec; injection Hrec as <-; vm_compute in Hr; injection Hr as <-;
    left; vm_compute; reflexivity|]). constructor.
Qed.

Lemma aot_prefix_lost_witness :
  (exists s, ret_routes 20 25 (fun _ _ => (XAIE_OK, 0)) toy_reads (Some (Some (toy_table toy_reads toy_calls), None)) (planned_ret 1 2 book0)
      (Drv (toy_state false) []) = (Drv (set_sb s (toy_state false)) [], Ok XAIE_OK) /\
     forall k, 0 <= k < 2 -> seg_pw (seg_at s k) = 0) /\
  len (calls (ret_routes 20 25 (fun _ _ => (XAIE_OK, 0)) toy_reads None (planned_ret 1 2 book0) (Drv (toy_state false) [])).1) = 8.
Proof.
  split; [|vm_compute; reflexivity].
  refine (aot_prefix_lost 25 1 2 ltac:(lia) ltac:(lia) 0 [(1, 2)] (fun _ _ => (XAIE_OK, 0)) (fun _ _ => XAIE_OK) toy_bd toy_channel toy_queue
    toy_reads toy_type 2 7 toy_has_dma toy_fields toy_field book0 toy_calls (toy_table toy_reads toy_calls) None (planned_ret 1 2 book0)
    (toy_state false) [] _ _ _ _ _ _ _ _).
  - exact toy_reads_driver.
  - reflexivity.
  - exact toy_parsed.
  - exact toy_reads_apart.
  - vm_compute. reflexivity.
  - vm_compute. discriminate.
  - done.
  - intros k Hk. assert (k = 0 \/ k = 1) as [-> | ->] by lia; done.
Defined.

(** ** A table given up in the first window *)

(** The words sent for a column. *)
Fixpoint sent (addr : Z) (log : list sb_call) : list Z :=
  match log with
  | [] => []
  | SyncForDev a ws :: log => if a =? addr then ws else sent addr log
  | _ :: log => sent addr log
  end.

